(* ===== verification/_CoqProject ===== *)
-Q . S2P
Prelude.v
Lfsr.v
Zuc.v
Snow3g.v
Kasumi.v
KasumiSpec.v
Alloc.v
DList.v
Pool.v
Timer.v
TimerSpec.v
TimerService.v
Hash.v
HashSpec.v
Pkbuf.v
Aes.v
AesSpec.v
AesModes.v
Sha2.v
Sha2Spec.v
Hmac.v
Milenage.v
MilenageSpec.v
Kdf.v
Misc.v
Types3gpp.v
NasIes.v
NasMessage.v
NasTables.v
NasDecoder.v
NasEncoder.v
NasSafety.v
NasIesSpec.v
NasIesCodecs.v
NasMessageSpec.v
NasCodecs.v
NasCodecSpec.v
NasErrors.v
HssAuc.v
HssAucSpec.v
NasSecurity.v
NasSecuritySpec.v
NasProtection.v
Fsm.v
EmmContext.v
EmmBuild.v
EmmHandler.v
EmmSm.v
EmmSample.v
EmmIdentity.v
EmmSpec.v
EmmMessages.v
EmmSecurity.v
GtpTypes.v
Tlv.v
TlvSpec.v
TlvMsg.v
TlvMsgSpec.v
TlvMsgRoundtrip.v
GtpMessage.v
GtpMessageSpec.v
GtpTypesSpec.v
GtpXact.v
GtpXactInv.v
GtpXactSpec.v
UePool.v
UePoolSpec.v
SpgwContext.v
SpgwInv.v
SpgwSess.v
SpgwSpec.v
SpgwIpfw.v
SpgwIpfwSpec.v
SpgwGx.v
SpgwGxSpec.v
