(* ===== verification/Prelude.v ===== *)
(** Verification of the Evolved Packet Core (the C sources under [src/]).

    The development models, file by file, the code on which the nodes of the core
    network depend to talk to each other and to protect what they say: the codec and
    the crypto of the NAS layer, the authentication centre and its keys, the codec
    and the transactions of GTPv2-C, the sessions of the gateways, the timers, pools and
    lists under them.  A C
    function is a Coq function on explicit state; a w-bit integer is a [Z] with its
    wrap-around written out; memory that is written is a list of bytes; what the
    code cannot do without crashing (null pointer, index out of an array, use after
    free) has no result ([None]).

    Files, in dependency order, with the sources they model:
    - [Prelude]: words, bytes, loops, shared lemmas and tactics;
    - [Lfsr], [Zuc] (src/src/mme/zuc.c) and [Snow3g] (src/src/mme/snow_3g.c): the
      ciphers of the EEA/EIA algorithms 1 and 3; [Kasumi] (src/src/mme/kasumi.c),
      [KasumiSpec] (TS 35.201, TS 35.202): the cipher of UTRAN, which nothing here calls;
    - [Aes] (src/lib/core/src/aes.c, aes_cmac.c), [AesSpec] (FIPS 197) and
      [AesModes] (CTR and CMAC): algorithm 2;
    - [Types3gpp] (src/lib/core/src/3gpp_types.c): PLMN identities, access point names
      and protocol configuration options;
    - [NasIes] (src/lib/nas/nas_ies.c), [NasMessage] (the steps that the functions of
      nas_decoder.c and nas_encoder.c are made of), [NasTables] (nas_message.h),
      [NasDecoder] and [NasEncoder] (the functions, one for each message): the NAS
      codec; [NasSafety]: what decoding does to any packet; [NasIesSpec] (the class
      [IeCodec] of what an element promises), [NasIesCodecs] (its instances),
      [NasMessageSpec] (messages over elements that keep the promise), [NasCodecs]
      (the messages of the program), [NasCodecSpec] and [NasErrors]: what comes back
      and what does not;
    - [NasSecurity] (src/src/mme/nas_security.c), [NasSecuritySpec]: protection of
      NAS messages, over the three algorithms; [NasProtection]: codec and protection
      together;
    - [Sha2] (src/lib/core/src/sha2.c), [Sha2Spec] (FIPS 180-4), [Hmac]
      (sha2_hmac.c, RFC 2104): the hashes under the keys;
    - [Milenage] (src/src/hss/milenage.c), [MilenageSpec] (TS 35.206), [Kdf]
      (src/src/mme/mme_kdf.c and src/src/hss/hss_auc.c, TS 33.401): authentication
      and the key hierarchy;
    - [Misc] (src/lib/core/src/misc.c): text and integer codings;
    - [HssAuc] (src/src/hss/hss_fd_path.c and hss_context.c), [HssAucSpec]: the
      authentication centre, over any data base with the laws of the class
      [CollectionLaws];
    - [Alloc], the interface of the allocators (class [Allocator]), and [Pool], the
      macros of core_pool.h and core_index.h, which provide it;
    - [DList]: the pointer lists of core_list.h, refining sequences of nodes;
    - [Timer] (src/lib/core/src/timer.c), [TimerSpec], and [TimerService]: the class
      of what timers promise, with timer.c and event.c as an instance;
    - [Hash] (src/lib/core/src/hash.c), [HashSpec]: the hash table, whose keys are pointers
      to octets the callers keep; [Fsm] (src/lib/core/src/fsm.c): state machines, over the
      class [Machine] of a type of states and a handler;
    - [EmmContext] (the UE context of src/src/mme/mme_context.h, what EMM uses of
      mme_context.c, nas_conv.c), [EmmBuild] (emm_build.c), [EmmHandler]
      (emm_handler.c, nas_path.c, mme_path.c) and [EmmSm] (emm_sm.c, s1ap_send_to_nas of
      s1ap_path.c, the EMM and S6a events of mme_sm.c): the mobility management of one UE
      in the MME; [EmmSample] (a UE), [EmmIdentity] (IMSIs), [EmmSpec] (the
      transitions), [EmmMessages] (messages built), [EmmSecurity] (authentication,
      security mode, service request);
    - [Pkbuf]: packet buffers (src/lib/core/src/unix/pkbuf.c), as far as their users
      here need;
    - [Tlv] (src/lib/core/src/tlv.c), [TlvSpec], [TlvMsg] (tlv_msg.c),
      [TlvMsgSpec], [TlvMsgRoundtrip]: the TLV codec and the messages described by
      tables;
    - [GtpMessage] (src/lib/gtp/gtp_message.c), [GtpMessageSpec]: the tables and the
      two functions of GTPv2-C messages;
    - [GtpTypes] (src/lib/gtp/gtp_types.c, the traffic flow template of
      src/src/spgw/pgw_s5c_build.c), [GtpTypesSpec]: the elements with a coding of their own;
    - [GtpXact] (src/lib/gtp/gtp_xact.c, the expiry function of src/lib/core/src/event.c
      and the cases of mme_sm.c and spgw_sm.c for its events), [GtpXactInv], [GtpXactSpec]:
      the transactions and the queue of the events of their timers, over any [Allocator]
      and any [TimerService];
    - [UePool] (subnets and addresses of src/src/spgw/spgw_context.c, core_ipsubnet of
      src/lib/core/src/unix/sockaddr.c), [UePoolSpec]: the addresses of the UEs;
      [SpgwContext] (the rest of spgw_context.c): UEs, sessions, bearers, tunnels and
      packet filters of the gateways, over any [Allocator]; [SpgwInv] (lists, back
      pointers, addresses), [SpgwSess] (bearers), [SpgwSpec] (sessions);
    - [SpgwIpfw] (src/src/spgw/spgw_ipfw.c), [SpgwIpfwSpec]: the bearer that a packet for a
      UE takes; [SpgwGx] (bearer_binding of src/src/spgw/pgw_gx_handler.c,
      pgw_compile_packet_filter of spgw_ipfw.c), [SpgwGxSpec]: the PCC rules of the PCRF.

    What the theorems show:
    - ciphers: the table-driven AES is FIPS 197's, CMAC is RFC 4493's up to 2{^31}
      octets ([cmac_rfc4493] says what happens beyond), the LFSR and
      the registers of ZUC stay in their range and follow the recurrence, the field
      product and the polynomial of SNOW 3G's f9, and the ciphers undo themselves;
      KASUMI is the Feistel cipher of TS 35.202 ([kasumi_eq]), which can be undone
      ([kasumi_invertible]), its f8 and f9 are those of TS 35.201 ([f8_ts35201],
      [f9_ts35201]), except that f8 also touches the octet after a message of whole octets;
    - NAS: what leaves is protected under the current count, what the peer protects is
      accepted and gives the message back, what was not protected is flagged, and
      the uplink count is the least one that fits; the messages of 23 of the 26 types
      with elements that both sides of the EMM codec know are decoded from what was
      encoded, alone and under protection, when their elements fit their structures (the
      three are AUTHENTICATION REQUEST and SECURITY MODE COMMAND, which are misread, and
      DETACH REQUEST, whose two sides differ, see [NasCodecSpec.emm_switches] and
      [NasErrors], where the P-TMSI signature is too); decoding ends on any packet; errors of the codec are lost
      ([nas_decode_error_accepted], [nas_encode_truncates]) and lengths not checked
      ([nas_element_overflow]);
    - hashes and keys: a hash context refines the bytes it absorbed, so SHA-2 and HMAC
      are the standards' functions however the message is cut, below 2{^29} bytes and
      for codes that are not longer than the digest; f1 .. f5* are TS
      35.206's, and the keys of the HSS and the MME are TS 33.401's;
    - authentication: the vectors of the HSS are accepted in order by the USIM of the
      subscriber, which derives the same K_ASME, and a USIM out of sequence is
      brought back in one request, as long as the SQNs fit 43 bits
      ([resynchronisation_stuck]) and the updates of the data base do not fail;
    - mobility management: whatever arrives in whatever order, the EMM machine follows
      the edges of [EmmSpec.edge]; a UE becomes registered only through security mode or
      context set-up ([emm_transitions]); a service request is served exactly when its
      short code is right and no check failed before ([service_request_guard],
      [mac_failure_kept]); the command of the security mode has the first common
      algorithms, the keys of TS 33.401 and the UE security capability of TS 24.301
      ([security_mode_command]); the response to
      an authentication request is compared over the length that the UE chose
      ([authentication_response]), and so a UE without keys can attach
      ([keyless_attach]);
    - the hash table implements a finite map ([hash_refines]), and an IMSI is found in
      it under its octets ([imsi_registered]);
    - pools and lists refine queues and sequences; exactly the timers fire whose expiry
      time is below the clock cut to 32 bits, in order, in as many turns as there are
      ([timer_execute]): those that are due, until the clock passes 2{^32} ms, after which
      no timer that is started fires ([timers_never_fire]);
    - TLV: parsing what is rendered gives it back, and parsing accepts nothing else;
      every GTPv2-C message round-trips and no node of the pool is lost;
    - transactions: in every state a program can reach no operation crashes, nor does the
      event of a timer that comes to its turn while its transaction is still in the state
      in which the timer was started ([xact_safe]); one whose transaction has been deleted
      meanwhile uses what is free ([stale_timeout], [stale_timeout_deleted]); a request is
      repeated twice and then given up; a repeated
      request is answered from what was stored; a request and its response leave the
      originator as it was; and a response that matches nothing leaks a transaction;
    - elements: the traffic flow template is what TS 24.008 asks for ([tft_agreed]), and a
      user location comes back as it was sent ([uli_codec]);
    - gateways: the pool of a subnet holds its addresses but the first, the last and the
      gateway's ([ue_pool_addresses]); in every state that is reached, as long as what is
      deleted is in use, an address belongs to one session, and lists, hashes and back
      pointers agree ([sessions_safe]), and after a second deletion of a session two others
      hold one address ([deleted_twice]); deleting a
      session gives back what creating it took ([session_roundtrip]); a session that is
      refused leaves its tunnels ([refused_session_leaks]), two sessions of a UE for one APN
      share an entry of the hash ([second_session_lost]), and an address that is released
      twice is given twice ([freed_twice]); a packet for a UE takes the first dedicated bearer
      with a filter for its flow, and the default bearer otherwise ([downlink_bearer]); the
      headers of any packet are passed over, but for a jumbo payload of no octets
      ([decode_ipv6_header_ends]); a PCC rule that is new makes its bearer with its filters,
      for which no request is sent ([rule_installed]), and one with the quality of service of
      the default bearer crashes ([default_rule_crashes]).

    Bounds.  The walks of [DList] and the loop of [Timer] take fuel: the number of
    nodes of the pool is enough for the walks ([list_macros_refine]), the number of
    timers that are due for the loop ([timer_execute]).  Descriptors are read to
    depth 9, one more than they nest ([gtp_descriptors_wf]).  The loop that fills the pool
    of a subnet takes one unit for each address of the largest pool and one for each of the
    three that it passes over ([ue_pool_addresses]).  The loop on the headers of IPv6 takes one
    unit for each eight octets of the payload ([decode_ipv6_header_ends]).  The loop on the optional
    elements of a NAS message takes one unit for each octet that is left and one more
    ([nas_decode_terminates]).  Hashes are of messages
    of less than 2{^29} bytes, the length the code counts in 32 bits, and CMACs of at most
    2{^31}, beyond which an offset leaves the range of [int].

    Not modelled.  Generated and third-party code (asn1c, freeDiameter, ipfw), system
    calls, threads, logging, and the mutexes of the pools: the model is of one thread.
    Of the event queues, only the order of the events of the transactions' timers is
    modelled, which other events of the program may come between; they have room.
    Sockets: [gtp_send] records the datagram and is told whether the system took it.
    Diameter: the handler of [HssAuc] is given the attributes and gives the answer.
    The pointer of a NAS container is the bytes it points to at the time of decoding.
    In the MME, one UE and its eNB context are modelled: how a message finds or makes
    its UE context (mme_ue_add, mme_ue_remove, mme_ue_find_by_message, enb_ue_add), the
    allocation of GUTIs, the ESM state machine, the S1AP handlers and the counters are
    left out; what EMM sends to ESM, to the HSS, to the SGW and to the eNB is recorded
    in the state ([EmmContext.output]), and whether the layers below take it is a
    parameter ([EmmBuild.env]).  Of hash.c, hash_destroy and the accessors are left
    out, of fsm.c fsm_final.  Of the gateways, the handlers of S11, S5 and of the
    answers of Gx, the sockets of the user plane, the nodes of peers, buffered packets and
    flow statistics are left out, and the compiler of ipfw is a parameter
    ([SpgwGx.pgw_compile_packet_filter]); the hashes of
    spgw_context.c are the finite maps that [HashSpec] shows [Hash] to implement.  The PCRF is
    not modelled. *)

From Stdlib Require Export ZArith Lia Bool ZifyNat.
From Stdlib Require Import Btauto.
From stdpp Require Export base tactics list gmap sets.

#[global] Open Scope Z_scope.

(** [lia] also reasons about division and remainder by constants. *)
Ltac Zify.zify_post_hook ::= Z.to_euclidean_division_equations.

(** ** Word notations *)

Declare Scope word_scope.
Delimit Scope word_scope with word.
Infix ".&" := Z.land (at level 37, left associativity) : word_scope.
Infix ".|" := Z.lor (at level 39, left associativity) : word_scope.
Infix ".^" := Z.lxor (at level 38, left associativity) : word_scope.
Infix "<<" := Z.shiftl (at level 36, left associativity) : word_scope.
Infix ">>" := Z.shiftr (at level 36, left associativity) : word_scope.
#[global] Open Scope word_scope.

(** ** Machine integers *)

(** A [w]-bit unsigned integer is a [Z] in [0, 2^w).  Conversion to a narrower
    unsigned C type keeps the low bits. *)
Definition trunc (w z : Z) : Z := z .& Z.ones w.
Definition u8 (z : Z) : Z := z .& 0xff.
Definition u16 (z : Z) : Z := z .& 0xffff.
Definition u32 (z : Z) : Z := z .& 0xffffffff.
Definition u64 (z : Z) : Z := z .& 0xffffffffffffffff.

(** [inw w z]: [z] is representable as a [w]-bit unsigned integer. *)
Definition inw (w z : Z) : Prop := 0 <= z < 2 ^ w.
#[export] Instance inw_dec w z : Decision (inw w z).
Proof. unfold inw. apply _. Defined.

Abbreviation is_byte := (inw 8).
Abbreviation bytes := (Forall (inw 8)).

(** C's [htonl]/[ntohl] on a little-endian machine: reversal of four bytes. *)
Definition bswap32 (z : Z) : Z :=
  ((z .& 0xff) << 24) .| (((z >> 8) .& 0xff) << 16) .|
  (((z >> 16) .& 0xff) << 8) .| ((z >> 24) .& 0xff).
Definition bswap16 (z : Z) : Z :=
  ((z .& 0xff) << 8) .| ((z >> 8) .& 0xff).

(** Array read at an unsigned index. *)
Definition rd (l : list Z) (i : Z) : Z := nth (Z.to_nat i) l 0.

(** [for (i = 0; i < n; i++) s = f i s;] *)
Definition for_up {S : Type} (n : nat) (f : nat -> S -> S) (s : S) : S :=
  fold_left (fun s i => f i s) (seq 0 n) s.

(** ** Lemmas on machine integers *)

Lemma inw_bits w z :
  0 <= w -> inw w z <-> (0 <= z /\ forall i, w <= i -> Z.testbit z i = false).
Proof.
  intros Hw. unfold inw. split.
  - intros [H0 H1]. split; [done|]. intros i Hi.
    rewrite <- (Z.mod_small z (2 ^ w)) by lia. by apply Z.mod_pow2_bits_high.
  - intros [H0 Hb]. split; [done|].
    destruct (decide (z = 0)) as [->|Hz]; [lia|].
    destruct (Z.lt_ge_cases z (2 ^ w)) as [|Hge]; [done|].
    assert (w <= Z.log2 z) as Hl by (apply Z.log2_le_pow2; lia).
    specialize (Hb _ Hl). rewrite Z.bit_log2 in Hb by lia. done.
Qed.

Lemma inw_testbit w z i : 0 <= w -> inw w z -> w <= i -> Z.testbit z i = false.
Proof. intros Hw Hz. by apply (proj1 (inw_bits w z Hw) Hz). Qed.

Lemma inw_mono w w' z : 0 <= w <= w' -> inw w z -> inw w' z.
Proof. unfold inw. intros. pose proof (Z.pow_le_mono_r 2 w w'). lia. Qed.

Lemma inw_lxor w a b : 0 <= w -> inw w a -> inw w b -> inw w (a .^ b).
Proof.
  intros Hw Ha Hb. apply inw_bits; [done|]. split.
  - apply Z.lxor_nonneg. unfold inw in *. lia.
  - intros i Hi. rewrite Z.lxor_spec, !(inw_testbit w) by done. done.
Qed.

Lemma inw_lor w a b : 0 <= w -> inw w a -> inw w b -> inw w (a .| b).
Proof.
  intros Hw Ha Hb. apply inw_bits; [done|]. split.
  - apply Z.lor_nonneg. unfold inw in *. lia.
  - intros i Hi. rewrite Z.lor_spec, !(inw_testbit w) by done. done.
Qed.

Lemma inw_land_l w a b : 0 <= w -> inw w a -> inw w (a .& b).
Proof.
  intros Hw Ha. apply inw_bits; [done|]. split.
  - apply Z.land_nonneg. unfold inw in *. lia.
  - intros i Hi. rewrite Z.land_spec, (inw_testbit w a) by done. done.
Qed.

Lemma inw_land_r w a b : 0 <= w -> inw w b -> inw w (a .& b).
Proof. rewrite Z.land_comm. apply inw_land_l. Qed.

Lemma inw_shiftr w a n : 0 <= w -> 0 <= n -> inw (w + n) a -> inw w (a >> n).
Proof.
  intros Hw Hn Ha. apply inw_bits; [done|]. split.
  - apply Z.shiftr_nonneg. unfold inw in Ha. lia.
  - intros i Hi. rewrite Z.shiftr_spec by lia. apply (inw_testbit (w + n)); [lia|done|lia].
Qed.

Lemma inw_shiftr_same w a n : 0 <= w -> 0 <= n -> inw w a -> inw w (a >> n).
Proof. intros. apply inw_shiftr; [done..|]. apply (inw_mono w); [lia|done]. Qed.

Lemma inw_shiftl w a n : 0 <= w -> 0 <= n -> inw w a -> inw (w + n) (a << n).
Proof.
  intros Hw Hn [H0 H1]. unfold inw. rewrite Z.shiftl_mul_pow2, Z.pow_add_r by done. nia.
Qed.

Lemma trunc_mod w z : 0 <= w -> trunc w z = z mod 2 ^ w.
Proof. intros. unfold trunc. by apply Z.land_ones. Qed.
Lemma u8_trunc z : u8 z = trunc 8 z.
Proof. done. Qed.
Lemma u16_trunc z : u16 z = trunc 16 z.
Proof. done. Qed.
Lemma u32_trunc z : u32 z = trunc 32 z.
Proof. done. Qed.
Lemma u64_trunc z : u64 z = trunc 64 z.
Proof. done. Qed.
Lemma u8_mod z : u8 z = z mod 2 ^ 8.
Proof. rewrite u8_trunc. by apply trunc_mod. Qed.
Lemma u16_mod z : u16 z = z mod 2 ^ 16.
Proof. rewrite u16_trunc. by apply trunc_mod. Qed.
Lemma u32_mod z : u32 z = z mod 2 ^ 32.
Proof. rewrite u32_trunc. by apply trunc_mod. Qed.
Lemma u64_mod z : u64 z = z mod 2 ^ 64.
Proof. rewrite u64_trunc. by apply trunc_mod. Qed.

Lemma trunc_inw w z : 0 <= w -> inw w (trunc w z).
Proof. intros. rewrite trunc_mod by done. apply Z.mod_pos_bound. lia. Qed.
Lemma trunc_id w z : 0 <= w -> inw w z -> trunc w z = z.
Proof. intros. rewrite trunc_mod by done. by apply Z.mod_small. Qed.
Lemma u8_inw z : inw 8 (u8 z).
Proof. by apply (trunc_inw 8). Qed.
Lemma u16_inw z : inw 16 (u16 z).
Proof. by apply (trunc_inw 16). Qed.
Lemma u32_inw z : inw 32 (u32 z).
Proof. by apply (trunc_inw 32). Qed.
Lemma u64_inw z : inw 64 (u64 z).
Proof. by apply (trunc_inw 64). Qed.
Lemma u8_id z : inw 8 z -> u8 z = z.
Proof. by apply (trunc_id 8). Qed.
Lemma u16_id z : inw 16 z -> u16 z = z.
Proof. by apply (trunc_id 16). Qed.
Lemma u32_id z : inw 32 z -> u32 z = z.
Proof. by apply (trunc_id 32). Qed.
Lemma u64_id z : inw 64 z -> u64 z = z.
Proof. by apply (trunc_id 64). Qed.

(** A decidable proposition, by evaluating its decision procedure. *)
Ltac by_decide := apply (bool_decide_unpack _); vm_compute; exact I.

(** [words] proves that a word expression stays within its width. *)
Create HintDb words discriminated.
#[export] Hint Resolve inw_lxor inw_lor inw_land_l inw_land_r u8_inw u16_inw
  u32_inw u64_inw inw_shiftr_same : words.
#[export] Hint Extern 4 (inw _ (Z.pos _)) => split; [lia|reflexivity] : words.
#[export] Hint Extern 4 (inw _ Z0) => split; [lia|reflexivity] : words.
#[export] Hint Extern 4 (_ <= _) => lia : words.
#[export] Hint Extern 4 (_ <= _ <= _) => lia : words.

Lemma lxor_cancel_r a b : a .^ b .^ b = a.
Proof. by rewrite Z.lxor_assoc, Z.lxor_nilpotent, Z.lxor_0_r. Qed.

(** *** Bitwise equality by case analysis on the bit index *)

Ltac bits_step :=
  match goal with
  | |- context [Z.testbit (Z.land _ _) _] => rewrite Z.land_spec
  | |- context [Z.testbit (Z.lor _ _) _] => rewrite Z.lor_spec
  | |- context [Z.testbit (Z.lxor _ _) _] => rewrite Z.lxor_spec
  | |- context [Z.testbit (Z.shiftr _ _) _] => rewrite Z.shiftr_spec by lia
  | |- context [Z.testbit (Z.shiftl _ _) _] => rewrite Z.shiftl_spec by lia
  | |- context [Z.testbit 0 _] => rewrite Z.bits_0
  end.

Lemma xorb_cancel_r a b : xorb (xorb a b) b = a.
Proof. by destruct a, b. Qed.

Ltac bits_eq :=
  apply Z.bits_inj'; intros ?i ?Hi; repeat bits_step; try btauto.

(** Disjoint bit fields: [lor] is addition. *)
Lemma lor_add a b n :
  0 <= n -> inw n b -> (a << n) .| b = a * 2 ^ n + b.
Proof.
  intros Hn Hb. rewrite <- Z.shiftl_mul_pow2 by done.
  assert ((a << n) .& b = 0) as Hd.
  { apply Z.bits_inj'. intros i Hi. rewrite Z.land_spec, Z.bits_0.
    destruct (Z.lt_ge_cases i n).
    - by rewrite Z.shiftl_spec_low.
    - rewrite (inw_testbit n b) by done. by rewrite andb_false_r. }
  by rewrite Z.add_nocarry_lxor, Z.lxor_lor by done.
Qed.

(** The same with exclusive or. *)
Lemma lxor_add a b n : 0 <= n -> inw n b -> (a << n) .^ b = a * 2 ^ n + b.
Proof.
  intros Hn Hb. rewrite <- lor_add by done. apply Z.lxor_lor.
  apply Z.bits_inj'. intros i Hi. rewrite Z.land_spec, Z.bits_0.
  destruct (Z.lt_ge_cases i n).
  - by rewrite Z.shiftl_spec_low.
  - rewrite (inw_testbit n b) by done. by rewrite andb_false_r.
Qed.

Lemma shiftr_div a n : 0 <= n -> a >> n = a / 2 ^ n.
Proof. apply Z.shiftr_div_pow2. Qed.

Lemma land_ones_mod a w m : 0 <= w -> m = Z.ones w -> a .& m = a mod 2 ^ w.
Proof. intros ? ->. by apply Z.land_ones. Qed.

(** Testing a single bit with a mask. *)
Lemma land_bit_nonzero a n : 0 <= n -> a .& (1 << n) <> 0 <-> Z.testbit a n = true.
Proof.
  intros Hn. rewrite Z.shiftl_1_l. split; intros H.
  - destruct (Z.testbit a n) eqn:E; [done|]. exfalso. apply H.
    apply Z.bits_inj'. intros i Hi. rewrite Z.land_spec, Z.bits_0, Z.pow2_bits_eqb by done.
    destruct (Z.eqb_spec n i) as [<-|]; [by rewrite E|by rewrite andb_false_r].
  - intros H0. apply (f_equal (fun z => Z.testbit z n)) in H0.
    by rewrite Z.land_spec, Z.bits_0, Z.pow2_bits_true, H in H0.
Qed.

(** A property of the bytes, checked on all of them. *)
Lemma bytes_forall (P : Z -> Prop) {dec : forall x, Decision (P x)} :
  forallb (fun n => bool_decide (P (Z.of_nat n))) (seq 0 256) = true -> forall x, inw 8 x -> P x.
Proof.
  rewrite forallb_forall. intros Hall x Hx. unfold inw in Hx.
  specialize (Hall (Z.to_nat x)). rewrite Z2Nat.id in Hall by lia.
  eapply bool_decide_eq_true, Hall. apply in_seq. lia.
Qed.

(** ** Polynomials over GF(2), as bit strings *)

(** [multiple p z]: [z] is a multiple of the polynomial [p], that is, an
    exclusive or of shifts of [p]. *)
Inductive multiple (p : Z) : Z -> Prop :=
| multiple_0 : multiple p 0
| multiple_add i z : 0 <= i -> multiple p z -> multiple p (z .^ (p << i)).

(** Congruence of polynomials modulo [p]. *)
Definition congr (p a b : Z) : Prop := multiple p (a .^ b).

Lemma multiple_self p : multiple p p.
Proof.
  pose proof (multiple_add p 0 0 ltac:(done) (multiple_0 p)) as H.
  by rewrite Z.shiftl_0_r, Z.lxor_0_l in H.
Qed.

Lemma multiple_lxor p a b : multiple p a -> multiple p b -> multiple p (a .^ b).
Proof.
  intros Ha Hb. induction Hb as [|i z Hi Hz IH]; [by rewrite Z.lxor_0_r|].
  rewrite <- Z.lxor_assoc. by constructor.
Qed.

Lemma multiple_shiftl p a n : 0 <= n -> multiple p a -> multiple p (a << n).
Proof.
  intros Hn Ha. induction Ha as [|i z Hi Hz IH]; [rewrite Z.shiftl_0_l; constructor|].
  rewrite Z.shiftl_lxor, Z.shiftl_shiftl by done. constructor; [lia|done].
Qed.

#[export] Instance congr_equiv p : Equivalence (congr p).
Proof.
  unfold congr. split.
  - intros a. rewrite Z.lxor_nilpotent. constructor.
  - intros a b H. by rewrite Z.lxor_comm.
  - intros a b c H1 H2. pose proof (multiple_lxor p _ _ H1 H2) as H.
    by rewrite Z.lxor_assoc, <- (Z.lxor_assoc b), Z.lxor_nilpotent, Z.lxor_0_l in H.
Qed.

#[export] Instance lxor_congr p : Proper (congr p ==> congr p ==> congr p) Z.lxor.
Proof.
  unfold congr. intros a a' Ha b b' Hb.
  replace (a .^ b .^ (a' .^ b')) with (a .^ a' .^ (b .^ b')) by (bits_eq).
  by apply multiple_lxor.
Qed.

Lemma congr_shiftl p a b n : 0 <= n -> congr p a b -> congr p (a << n) (b << n).
Proof. unfold congr. intros. rewrite <- Z.shiftl_lxor. by apply multiple_shiftl. Qed.

(** ** Loops *)

Section for_up.
Context {S : Type} (f : nat -> S -> S).

Lemma for_up_0 s : for_up 0 f s = s.
Proof. done. Qed.

Lemma for_up_S n s : for_up (Datatypes.S n) f s = f n (for_up n f s).
Proof. unfold for_up. by rewrite seq_S, fold_left_app. Qed.

(** Loop invariant rule. *)
Lemma for_up_ind (I : nat -> S -> Prop) n s :
  I 0%nat s ->
  (forall i s, (i < n)%nat -> I i s -> I (Datatypes.S i) (f i s)) ->
  I n (for_up n f s).
Proof.
  intros H0 HS. induction n as [|n IH]; [done|].
  rewrite for_up_S. apply HS; [lia|]. apply IH. intros. apply HS; [lia|done].
Qed.
End for_up.

Lemma for_up_iter {S} (f : S -> S) n s :
  for_up n (fun _ => f) (f s) = f (for_up n (fun _ => f) s).
Proof. induction n as [|n IH]; [reflexivity|]. by rewrite !for_up_S, IH. Qed.

Lemma for_up_ext {S} (f g : nat -> S -> S) n s :
  (forall i s, (i < n)%nat -> f i s = g i s) -> for_up n f s = for_up n g s.
Proof.
  intros H. induction n as [|n IH]; [done|].
  rewrite !for_up_S, IH by (intros; apply H; lia). apply H. lia.
Qed.

(** A loop over the indices of a computed list is a fold. *)
Lemma for_up_fold {S A} (g : S -> A -> S) (f : nat -> A) n s :
  for_up n (fun i s => g s (f i)) s = fold_left g (map f (seq 0 n)) s.
Proof.
  unfold for_up. generalize 0%nat. revert s.
  induction n as [|n IH]; intros s k; [done|]. simpl. apply IH.
Qed.

(** ** Byte arrays *)

Lemma rd_lookup l i z : l !! Z.to_nat i = Some z -> rd l i = z.
Proof. intros H. unfold rd. by apply nth_lookup_Some. Qed.

Lemma rd_Forall (P : Z -> Prop) l i :
  Forall P l -> 0 <= i < Z.of_nat (length l) -> P (rd l i).
Proof.
  intros Hl Hi. unfold rd. destruct (lookup_lt_is_Some_2 l (Z.to_nat i)) as [z Hz]; [lia|].
  rewrite (nth_lookup_Some _ _ _ _ Hz). by eapply Forall_lookup_1.
Qed.

(** Reads at constant indices of explicit lists. *)
Ltac rd_simpl :=
  repeat match goal with
  | |- context [rd (?x :: ?l) 0] => change (rd (x :: l) 0) with x
  | |- context [rd (?x :: ?y :: ?l) 1] => change (rd (x :: y :: l) 1) with y
  | |- context [rd (?x :: ?y :: ?z :: ?l) 2] => change (rd (x :: y :: z :: l) 2) with z
  | |- context [rd (?x :: ?y :: ?z :: ?t :: ?l) 3] => change (rd (x :: y :: z :: t :: l) 3) with t
  end.

Lemma rd_app_l l l' i : 0 <= i < Z.of_nat (length l) -> rd (l ++ l') i = rd l i.
Proof. intros. unfold rd. apply app_nth1. lia. Qed.

Lemma rd_app_r l l' i : 0 <= i -> rd (l ++ l') (Z.of_nat (length l) + i) = rd l' i.
Proof. intros. unfold rd. rewrite app_nth2 by lia. f_equal. lia. Qed.

(** A list cut after [n] elements. *)
Lemma list_split_at {A} n (l : list A) :
  (n <= length l)%nat -> exists a b, l = a ++ b /\ length a = n.
Proof. exists (take n l), (drop n l). by rewrite take_drop, length_take, Nat.min_l. Qed.

(** Byte-wise exclusive or of a buffer with a key stream. *)
Definition xor_bytes (l ks : list Z) : list Z := zip_with Z.lxor l ks.

Lemma xor_bytes_involutive l ks :
  (length l <= length ks)%nat -> xor_bytes (xor_bytes l ks) ks = l.
Proof.
  unfold xor_bytes. revert ks. induction l as [|b l IH]; intros [|k ks] Hl; simpl in *; try done; try lia.
  rewrite lxor_cancel_r, IH by lia. done.
Qed.

Lemma length_xor_bytes l ks : length (xor_bytes l ks) = Nat.min (length l) (length ks).
Proof. apply length_zip_with. Qed.

Lemma xor_bytes_comm l l' : xor_bytes l l' = xor_bytes l' l.
Proof.
  unfold xor_bytes. revert l'. induction l as [|b l IH]; intros [|c l']; try done.
  cbn [zip_with]. by rewrite IH, Z.lxor_comm.
Qed.

Lemma rd_byte mem i : bytes mem -> inw 8 (rd mem i).
Proof.
  intros Hb. unfold rd. destruct (nth_in_or_default (Z.to_nat i) mem 0) as [Hin| ->]; [|by split].
  rewrite Forall_forall in Hb. apply Hb. by apply list_elem_of_In.
Qed.

Lemma xor_bytes_bytes l ks : bytes l -> bytes ks -> bytes (xor_bytes l ks).
Proof.
  unfold xor_bytes. intros Hl. revert ks. induction Hl; intros ks Hks; simpl; [constructor|].
  destruct Hks; constructor; eauto with words.
Qed.

(** Loops that overwrite the first [n] cells of an array, cell by cell. *)
Lemma for_up_write (g : nat -> Z) n (l : list Z) :
  (n <= length l)%nat ->
  for_up n (fun i l => <[i := g i]> l) l = map g (seq 0 n) ++ drop n l.
Proof.
  intros Hn. induction n as [|n IH]; [done|].
  rewrite for_up_S, IH by lia.
  assert (length (map g (seq 0 n)) = n) as Hlen by (rewrite length_map, length_seq; done).
  rewrite insert_app_r_alt by lia. rewrite Hlen, Nat.sub_diag.
  rewrite seq_S, map_app, <- (assoc_L (++)). f_equal. simpl.
  destruct (lookup_lt_is_Some_2 l n) as [x Hx]; [lia|].
  by rewrite (drop_S l x n Hx).
Qed.

(** Loops that update the first [n] cells of an array in place. *)
Lemma for_up_update (f : nat -> Z -> Z) n (l : list Z) :
  (n <= length l)%nat ->
  for_up n (fun i l => <[i := f i (rd l (Z.of_nat i))]> l) l = imap f (take n l) ++ drop n l.
Proof.
  intros Hn. induction n as [|n IH]; [done|].
  rewrite for_up_S, IH by lia.
  destruct (lookup_lt_is_Some_2 l n) as [x Hx]; [lia|].
  assert (length (imap f (take n l)) = n) as Hlen
    by (rewrite length_imap, length_take; lia).
  rewrite (drop_S l x n Hx), (take_S_r l n x Hx), imap_app.
  rewrite insert_app_r_alt by lia. rewrite Hlen, Nat.sub_diag, <- (assoc_L (++)).
  f_equal. simpl. rewrite length_take, Nat.min_l by lia. do 2 f_equal; [f_equal; lia|].
  unfold rd. rewrite Nat2Z.id, app_nth2 by lia. by rewrite Hlen, Nat.sub_diag.
Qed.

(** A loop that combines the first [n] bytes of a buffer with a key stream. *)
Lemma for_up_keystream (k : nat -> Z) n (l : list Z) :
  bytes l -> (forall i, inw 8 (k i)) -> (n <= length l)%nat ->
  for_up n (fun i l' => <[i := u8 (rd l (Z.of_nat i) .^ k i)]> l') l =
    xor_bytes (take n l) (map k (seq 0 n)) ++ drop n l.
Proof.
  intros Hl Hk Hn.
  rewrite (for_up_write (fun i => u8 (rd l (Z.of_nat i) .^ k i))) by done.
  f_equal. apply list_eq. intros i. unfold xor_bytes.
  rewrite lookup_zip_with, !list_lookup_fmap.
  destruct (Nat.lt_ge_cases i n) as [Hi|Hi].
  - rewrite lookup_seq_lt, lookup_take_lt by done. simpl.
    destruct (lookup_lt_is_Some_2 l i) as [m Hm]; [lia|]. rewrite Hm. simpl.
    rewrite (rd_lookup l _ m) by (by rewrite Nat2Z.id).
    rewrite u8_id; [done|]. apply inw_lxor; [lia| |apply Hk].
    by eapply Forall_lookup_1 in Hm.
  - by rewrite lookup_seq_ge, lookup_take_ge by done.
Qed.

(** The same loop reading the buffer it writes. *)
Lemma for_up_keystream_inplace (k : nat -> Z) n (l : list Z) :
  bytes l -> (forall i, inw 8 (k i)) -> (n <= length l)%nat ->
  for_up n (fun i l => <[i := u8 (rd l (Z.of_nat i) .^ k i)]> l) l =
    xor_bytes (take n l) (map k (seq 0 n)) ++ drop n l.
Proof.
  intros Hl Hk Hn.
  rewrite (for_up_update (fun i x => u8 (x .^ k i))) by done.
  f_equal. apply list_eq. intros i. unfold xor_bytes.
  rewrite lookup_zip_with, list_lookup_imap, list_lookup_fmap.
  destruct (Nat.lt_ge_cases i n) as [Hi|Hi].
  - rewrite lookup_seq_lt, lookup_take_lt by done.
    destruct (lookup_lt_is_Some_2 l i) as [m Hm]; [lia|]. rewrite Hm. simpl.
    rewrite u8_id; [done|]. apply inw_lxor; [lia| |apply Hk].
    by eapply Forall_lookup_1 in Hm.
  - by rewrite lookup_seq_ge, lookup_take_ge by done.
Qed.

(** Four iterations at a time. *)
Lemma for_up_mul4 {S} (f : nat -> S -> S) n s :
  for_up (4 * n) f s =
    for_up n (fun i s => f (4 * i + 3)%nat (f (4 * i + 2)%nat (f (4 * i + 1)%nat (f (4 * i)%nat s)))) s.
Proof.
  induction n as [|n IH]; [done|].
  replace (4 * Datatypes.S n)%nat with (Datatypes.S (Datatypes.S (Datatypes.S (Datatypes.S (4 * n)))))%nat by lia.
  rewrite !for_up_S, IH. repeat f_equal; lia.
Qed.

(** Masking a byte with 0xff leaves the buffer as it is. *)
Lemma insert_mask_ff l i : bytes l -> <[i := rd l (Z.of_nat i) .& 0xff]> l = l.
Proof.
  intros Hl. apply list_insert_id'. intros Hlt.
  destruct (lookup_lt_is_Some_2 l i Hlt) as [m Hm].
  rewrite Hm, (rd_lookup l _ m) by (by rewrite Nat2Z.id).
  f_equal. symmetry. apply (u8_id m). by eapply Forall_lookup_1 in Hm.
Qed.

(** Applying the same key stream twice restores the buffer. *)
Lemma xor_stream_involutive (f : list Z -> list Z) n ks (l : list Z) :
  (forall l, bytes l -> (n <= length l)%nat -> f l = xor_bytes (take n l) ks ++ drop n l) ->
  length ks = n -> bytes ks -> bytes l -> (n <= length l)%nat -> f (f l) = l.
Proof.
  intros Hf Hks Bks Bl Hn. rewrite (Hf l) by done.
  assert (length (xor_bytes (take n l) ks) = n) as Hx
    by (rewrite length_xor_bytes, length_take; lia).
  rewrite Hf.
  - rewrite take_app_length' by done. rewrite drop_app_length' by done.
    rewrite xor_bytes_involutive by (rewrite length_take; lia). apply take_drop.
  - apply Forall_app_2; [apply xor_bytes_bytes; [by apply Forall_take|done]|by apply Forall_drop].
  - rewrite length_app, Hx, length_drop. lia.
Qed.

(** The number a string of bytes denotes, most significant byte first. *)
Fixpoint be (l : list Z) : Z :=
  match l with
  | [] => 0
  | b :: l => b * 2 ^ (8 * Z.of_nat (length l)) + be l
  end.

Lemma be_app l l' : be (l ++ l') = be l * 2 ^ (8 * Z.of_nat (length l')) + be l'.
Proof.
  induction l as [|b l IH]; simpl; [lia|].
  rewrite IH, length_app, Nat2Z.inj_add, Z.mul_add_distr_l, Z.pow_add_r by lia. lia.
Qed.

Lemma be_bound l : bytes l -> 0 <= be l < 2 ^ (8 * Z.of_nat (length l)).
Proof.
  induction 1 as [|b l Hb Hl IH]; [simpl; lia|]. cbn [be length].
  rewrite Nat2Z.inj_succ, Z.mul_succ_r, Z.pow_add_r by lia. unfold inw in Hb. nia.
Qed.

(** The four bytes of a 32-bit word in the memory of a little-endian machine. *)
Definition le32 (z : Z) : list Z := [u8 z; u8 (z >> 8); u8 (z >> 16); u8 (z >> 24)].
Definition rd_le32 (l : list Z) : Z :=
  rd l 0 .| (rd l 1 << 8) .| (rd l 2 << 16) .| (rd l 3 << 24).

(** The [n] bytes of a number, most significant first. *)
Fixpoint to_be (n : nat) (z : Z) : list Z :=
  match n with
  | O => []
  | S n => (z / 2 ^ (8 * Z.of_nat n)) mod 2 ^ 8 :: to_be n z
  end.

Lemma length_to_be n z : length (to_be n z) = n.
Proof. induction n; simpl; congruence. Qed.

Lemma to_be_bytes n z : bytes (to_be n z).
Proof. induction n; constructor; [unfold inw; lia|done]. Qed.

Lemma to_be_mod n z m : (n <= m)%nat -> to_be n (z mod 2 ^ (8 * Z.of_nat m)) = to_be n z.
Proof.
  intros Hm. induction n as [|n IH]; [done|]. cbn [to_be]. rewrite IH by lia. f_equal.
  rewrite <- !Z.shiftr_div_pow2, <- !Z.land_ones by lia.
  bits_eq. rewrite !Z.testbit_ones_nonneg by lia.
  case (Z.ltb_spec i 8); rewrite ?andb_false_r, ?andb_true_r; [|done].
  intros. case (Z.ltb_spec (i + 8 * Z.of_nat n) (8 * Z.of_nat m)); [|lia].
  by rewrite andb_true_r.
Qed.

Lemma to_be_be l : bytes l -> to_be (length l) (be l) = l.
Proof.
  induction 1 as [|b l Hb Hl IH]; [done|]. cbn [length to_be be].
  pose proof (be_bound l Hl). f_equal.
  - rewrite Z.div_add_l, Z.div_small by lia. rewrite Z.add_0_r. by apply Z.mod_small.
  - rewrite <- (to_be_mod (length l) _ (length l)) by done.
    rewrite Z.add_comm, Z.mod_add, Z.mod_small by lia. done.
Qed.

Lemma to_be_small m n z :
  (m <= n)%nat -> 0 <= z < 2 ^ (8 * Z.of_nat m) -> to_be n z = replicate (n - m) 0 ++ to_be m z.
Proof.
  intros Hm Hz. induction n as [|n IH]; [by replace m with 0%nat by lia|].
  destruct (decide (m = Datatypes.S n)) as [->|Hne]; [by rewrite Nat.sub_diag|].
  replace (Datatypes.S n - m)%nat with (Datatypes.S (n - m)) by lia. cbn [to_be replicate app].
  rewrite <- IH by lia. f_equal. rewrite Z.div_small; [done|].
  split; [lia|]. eapply Z.lt_le_trans; [apply Hz|]. apply Z.pow_le_mono_r; lia.
Qed.

Lemma to_be_length n l : bytes l -> length l = n -> to_be n (be l) = l.
Proof. intros Hl <-. by apply to_be_be. Qed.

Lemma be_inj l l' : bytes l -> bytes l' -> length l = length l' -> be l = be l' -> l = l'.
Proof.
  intros Hl Hl' Hlen He. rewrite <- (to_be_be l), <- (to_be_be l') by done. by rewrite Hlen, He.
Qed.

Lemma be_to_be n z : be (to_be n z) = z mod 2 ^ (8 * Z.of_nat n).
Proof.
  induction n as [|n IH]; [by rewrite Z.mod_1_r|]. cbn [to_be be].
  rewrite IH, length_to_be, Nat2Z.inj_succ, Z.mul_succ_r, Z.pow_add_r by lia.
  rewrite Z.rem_mul_r by lia. lia.
Qed.

(** Four bytes put together with shifts. *)
Lemma lor4 a b c d :
  inw 8 a -> inw 8 b -> inw 8 c -> inw 8 d ->
  (a << 24) .| (b << 16) .| (c << 8) .| d = a * 2 ^ 24 + b * 2 ^ 16 + c * 2 ^ 8 + d.
Proof.
  unfold inw. intros. remember (a * 2 ^ 24 + b * 2 ^ 16 + c * 2 ^ 8 + d) as R eqn:ER.
  rewrite !Z.shiftl_mul_pow2 by done.
  rewrite <- (Z.shiftl_mul_pow2 a), lor_add by (unfold inw; lia).
  replace (a * 2 ^ 24 + b * 2 ^ 16) with ((a * 2 ^ 8 + b) << 16)
    by (rewrite Z.shiftl_mul_pow2; lia).
  rewrite lor_add by (unfold inw; lia).
  replace ((a * 2 ^ 8 + b) * 2 ^ 16 + c * 2 ^ 8) with (((a * 2 ^ 8 + b) * 2 ^ 8 + c) << 8)
    by (rewrite Z.shiftl_mul_pow2; lia).
  rewrite lor_add by (unfold inw; lia). lia.
Qed.

(** [htonl] followed by [memcpy] stores the big-endian bytes. *)
Lemma le32_bswap32 z : le32 (bswap32 z) = to_be 4 z.
Proof.
  unfold le32, bswap32. cbn [to_be].
  rewrite lor4 by (apply (u8_inw _) || apply inw_land_r; by_decide).
  rewrite !u8_mod, !shiftr_div, !(land_ones_mod _ 8) by done.
  change (8 * Z.of_nat 3) with 24. change (8 * Z.of_nat 2) with 16.
  change (8 * Z.of_nat 1) with 8. change (8 * Z.of_nat 0) with 0.
  rewrite Z.div_1_r. f_equal; [lia|f_equal; [lia|f_equal; [lia|f_equal; lia]]].
Qed.

Lemma bswap32_sum z :
  bswap32 z = z mod 2 ^ 8 * 2 ^ 24 + (z / 2 ^ 8) mod 2 ^ 8 * 2 ^ 16 + (z / 2 ^ 16) mod 2 ^ 8 * 2 ^ 8 + (z / 2 ^ 24) mod 2 ^ 8.
Proof.
  unfold bswap32. rewrite lor4 by (apply inw_land_r; by_decide).
  by rewrite !(land_ones_mod _ 8), !shiftr_div by done.
Qed.

Lemma bswap32_inw z : inw 32 (bswap32 z).
Proof. rewrite bswap32_sum. unfold inw. lia. Qed.

Lemma digits a b c d :
  inw 8 a -> inw 8 b -> inw 8 c -> inw 8 d ->
  let y := a * 2 ^ 24 + b * 2 ^ 16 + c * 2 ^ 8 + d in
  y mod 2 ^ 8 = d /\ (y / 2 ^ 8) mod 2 ^ 8 = c /\ (y / 2 ^ 16) mod 2 ^ 8 = b /\ (y / 2 ^ 24) mod 2 ^ 8 = a.
Proof.
  intros Ha Hb Hc Hd y. unfold inw in *.
  assert (y / 2 ^ 8 = a * 2 ^ 16 + b * 2 ^ 8 + c) as -> by lia.
  assert (y / 2 ^ 16 = a * 2 ^ 8 + b) as -> by lia.
  assert (y / 2 ^ 24 = a) as -> by lia. split_and!; lia.
Qed.

Lemma bswap32_bswap32 z : inw 32 z -> bswap32 (bswap32 z) = z.
Proof.
  intros Hz. rewrite (bswap32_sum (bswap32 z)), (bswap32_sum z). unfold inw in Hz.
  set (b0 := z mod 2 ^ 8). set (b1 := (z / 2 ^ 8) mod 2 ^ 8). set (b2 := (z / 2 ^ 16) mod 2 ^ 8).
  set (b3 := (z / 2 ^ 24) mod 2 ^ 8).
  destruct (digits b0 b1 b2 b3) as (-> & -> & -> & ->); [unfold inw; lia..|].
  assert (z / 2 ^ 16 = (z / 2 ^ 8) / 2 ^ 8) as E2 by (by rewrite Z.div_div).
  assert (z / 2 ^ 24 = (z / 2 ^ 16) / 2 ^ 8) as E3 by (by rewrite Z.div_div).
  unfold b0, b1, b2, b3. lia.
Qed.

Lemma bswap16_inw z : inw 16 (bswap16 z).
Proof.
  unfold bswap16. rewrite lor_add by (done || (apply inw_land_r; by_decide)).
  rewrite !(land_ones_mod _ 8) by done. unfold inw. lia.
Qed.

Lemma rd_le32_le32 z l : inw 32 z -> rd_le32 (le32 z ++ l) = z.
Proof.
  unfold rd_le32, le32. cbn [app]. rd_simpl. intros Hz.
  assert (forall a b c d, a .| b .| c .| d = d .| c .| b .| a) as -> by (intros; bits_eq).
  rewrite lor4 by apply u8_inw.
  rewrite !u8_mod, !shiftr_div by done. unfold inw in Hz. lia.
Qed.

Lemma be_xor l l' :
  bytes l -> bytes l' -> length l = length l' -> be (xor_bytes l l') = be l .^ be l'.
Proof.
  intros Hl. revert l'. unfold xor_bytes.
  induction Hl as [|b l Hb Hl IH]; intros [|c l'] Hl' Hlen; try done.
  apply Forall_cons in Hl' as [Hc Hl']. injection Hlen as Hlen.
  cbn [zip_with be]. rewrite IH, length_zip_with, <- Hlen, Nat.min_id by done.
  pose proof (be_bound l Hl) as B. pose proof (be_bound l' Hl') as B'. rewrite <- Hlen in B'.
  assert (0 <= 8 * Z.of_nat (length l)) by lia.
  rewrite <- !lxor_add; auto using inw_lxor.
  rewrite Z.shiftl_lxor. bits_eq.
Qed.

Lemma xor_bytes_app l l' k k' :
  length l = length k -> xor_bytes (l ++ l') (k ++ k') = xor_bytes l k ++ xor_bytes l' k'.
Proof. apply zip_with_app. Qed.

Lemma xor_bytes_split l l' k :
  (length l <= length k)%nat ->
  xor_bytes (l ++ l') k = xor_bytes l k ++ xor_bytes l' (drop (length l) k).
Proof.
  unfold xor_bytes. revert k. induction l as [|b l IH]; intros [|c k] H; simpl in *; try done; try lia.
  by rewrite IH by lia.
Qed.

Lemma xor_bytes_take l k k' :
  (length l <= length k)%nat -> xor_bytes l (k ++ k') = xor_bytes l (take (length l) k).
Proof.
  unfold xor_bytes. revert k. induction l as [|b l IH]; intros [|c k] H; simpl in *; try done; try lia.
  by rewrite IH by lia.
Qed.

(** ** Hexadecimal literals *)

From Stdlib Require Ascii String.

Definition hex_digit (c : Ascii.ascii) : option Z :=
  let n := Z.of_N (Ascii.N_of_ascii c) in
  if decide (48 <= n <= 57) then Some (n - 48)
  else if decide (97 <= n <= 102) then Some (n - 87) else None.

(** The bytes a hexadecimal string denotes; characters that are not digits are
    skipped. *)
Fixpoint hex_go (acc : option Z) (s : String.string) : list Z :=
  match s with
  | String.EmptyString => []
  | String.String c s =>
      match hex_digit c, acc with
      | None, _ => hex_go acc s
      | Some d, None => hex_go (Some d) s
      | Some d, Some h => (16 * h + d) :: hex_go None s
      end
  end.
Definition hex : String.string -> list Z := hex_go None.

(** The elements of an updated list. *)
Lemma elem_of_insert_inv {A} (l : list A) i (x y : A) : x ∈ <[i := y]> l -> x = y \/ x ∈ l.
Proof.
  intros [j Hj]%list_elem_of_lookup. destruct (decide (j = i)) as [->|Hne].
  - apply list_lookup_insert_Some in Hj as [(_ & -> & _)|[? _]]; [by left|done].
  - rewrite list_lookup_insert_ne in Hj by done. right. by eapply list_elem_of_lookup_2.
Qed.
