(* ===== verification/Lfsr.v ===== *)
(** The sixteen-word shift register that [zuc.c] and [snow_3g.c] each keep as
    sixteen file-scope variables [LFSR_S0] .. [LFSR_S15]. *)

From S2P Require Export Prelude.

Record lfsr := mkLfsr {
  LFSR_S0 : Z; LFSR_S1 : Z; LFSR_S2 : Z; LFSR_S3 : Z;
  LFSR_S4 : Z; LFSR_S5 : Z; LFSR_S6 : Z; LFSR_S7 : Z;
  LFSR_S8 : Z; LFSR_S9 : Z; LFSR_S10 : Z; LFSR_S11 : Z;
  LFSR_S12 : Z; LFSR_S13 : Z; LFSR_S14 : Z; LFSR_S15 : Z
}.

(** The sixteen assignments [LFSR_S0 = LFSR_S1; ...; LFSR_S15 = v]. *)
Definition shift_in (s : lfsr) (v : Z) : lfsr :=
  mkLfsr (LFSR_S1 s) (LFSR_S2 s) (LFSR_S3 s) (LFSR_S4 s)
         (LFSR_S5 s) (LFSR_S6 s) (LFSR_S7 s) (LFSR_S8 s)
         (LFSR_S9 s) (LFSR_S10 s) (LFSR_S11 s) (LFSR_S12 s)
         (LFSR_S13 s) (LFSR_S14 s) (LFSR_S15 s) v.

(** The register as the sequence of its words, oldest first. *)
Definition words_of (s : lfsr) : list Z :=
  [LFSR_S0 s; LFSR_S1 s; LFSR_S2 s; LFSR_S3 s; LFSR_S4 s; LFSR_S5 s;
   LFSR_S6 s; LFSR_S7 s; LFSR_S8 s; LFSR_S9 s; LFSR_S10 s; LFSR_S11 s;
   LFSR_S12 s; LFSR_S13 s; LFSR_S14 s; LFSR_S15 s].

(** Every word of the register satisfies [P]. *)
Definition all_words (P : Z -> Prop) (s : lfsr) : Prop := Forall P (words_of s).

Lemma all_words_shift_in P s v : all_words P s -> P v -> all_words P (shift_in s v).
Proof.
  unfold all_words, words_of. rewrite !Forall_cons, Forall_nil. simpl.
  intuition.
Qed.

Lemma words_of_shift_in s v : words_of (shift_in s v) = drop 1 (words_of s) ++ [v].
Proof. by destruct s. Qed.
