(* ===== verification/Zuc.v ===== *)
(** [src/mme/zuc.c]: the ZUC key-stream generator and the LTE algorithms built
    on it, 128-EEA3 ([zuc_eea3]) and 128-EIA3 ([zuc_eia3]).  The file-scope
    variables of the C file are the record [Zuc.zuc]. *)

From S2P Require Import Prelude Lfsr.

Module Zuc.

(** ** Tables *)

Definition S0 : list Z := [
   0x3e; 0x72; 0x5b; 0x47; 0xca; 0xe0; 0x00; 0x33; 0x04; 0xd1; 0x54; 0x98; 0x09; 0xb9; 0x6d; 0xcb;
   0x7b; 0x1b; 0xf9; 0x32; 0xaf; 0x9d; 0x6a; 0xa5; 0xb8; 0x2d; 0xfc; 0x1d; 0x08; 0x53; 0x03; 0x90;
   0x4d; 0x4e; 0x84; 0x99; 0xe4; 0xce; 0xd9; 0x91; 0xdd; 0xb6; 0x85; 0x48; 0x8b; 0x29; 0x6e; 0xac;
   0xcd; 0xc1; 0xf8; 0x1e; 0x73; 0x43; 0x69; 0xc6; 0xb5; 0xbd; 0xfd; 0x39; 0x63; 0x20; 0xd4; 0x38;
   0x76; 0x7d; 0xb2; 0xa7; 0xcf; 0xed; 0x57; 0xc5; 0xf3; 0x2c; 0xbb; 0x14; 0x21; 0x06; 0x55; 0x9b;
   0xe3; 0xef; 0x5e; 0x31; 0x4f; 0x7f; 0x5a; 0xa4; 0x0d; 0x82; 0x51; 0x49; 0x5f; 0xba; 0x58; 0x1c;
   0x4a; 0x16; 0xd5; 0x17; 0xa8; 0x92; 0x24; 0x1f; 0x8c; 0xff; 0xd8; 0xae; 0x2e; 0x01; 0xd3; 0xad;
   0x3b; 0x4b; 0xda; 0x46; 0xeb; 0xc9; 0xde; 0x9a; 0x8f; 0x87; 0xd7; 0x3a; 0x80; 0x6f; 0x2f; 0xc8;
   0xb1; 0xb4; 0x37; 0xf7; 0x0a; 0x22; 0x13; 0x28; 0x7c; 0xcc; 0x3c; 0x89; 0xc7; 0xc3; 0x96; 0x56;
   0x07; 0xbf; 0x7e; 0xf0; 0x0b; 0x2b; 0x97; 0x52; 0x35; 0x41; 0x79; 0x61; 0xa6; 0x4c; 0x10; 0xfe;
   0xbc; 0x26; 0x95; 0x88; 0x8a; 0xb0; 0xa3; 0xfb; 0xc0; 0x18; 0x94; 0xf2; 0xe1; 0xe5; 0xe9; 0x5d;
   0xd0; 0xdc; 0x11; 0x66; 0x64; 0x5c; 0xec; 0x59; 0x42; 0x75; 0x12; 0xf5; 0x74; 0x9c; 0xaa; 0x23;
   0x0e; 0x86; 0xab; 0xbe; 0x2a; 0x02; 0xe7; 0x67; 0xe6; 0x44; 0xa2; 0x6c; 0xc2; 0x93; 0x9f; 0xf1;
   0xf6; 0xfa; 0x36; 0xd2; 0x50; 0x68; 0x9e; 0x62; 0x71; 0x15; 0x3d; 0xd6; 0x40; 0xc4; 0xe2; 0x0f;
   0x8e; 0x83; 0x77; 0x6b; 0x25; 0x05; 0x3f; 0x0c; 0x30; 0xea; 0x70; 0xb7; 0xa1; 0xe8; 0xa9; 0x65;
   0x8d; 0x27; 0x1a; 0xdb; 0x81; 0xb3; 0xa0; 0xf4; 0x45; 0x7a; 0x19; 0xdf; 0xee; 0x78; 0x34; 0x60].

Definition S1 : list Z := [
   0x55; 0xc2; 0x63; 0x71; 0x3b; 0xc8; 0x47; 0x86; 0x9f; 0x3c; 0xda; 0x5b; 0x29; 0xaa; 0xfd; 0x77;
   0x8c; 0xc5; 0x94; 0x0c; 0xa6; 0x1a; 0x13; 0x00; 0xe3; 0xa8; 0x16; 0x72; 0x40; 0xf9; 0xf8; 0x42;
   0x44; 0x26; 0x68; 0x96; 0x81; 0xd9; 0x45; 0x3e; 0x10; 0x76; 0xc6; 0xa7; 0x8b; 0x39; 0x43; 0xe1;
   0x3a; 0xb5; 0x56; 0x2a; 0xc0; 0x6d; 0xb3; 0x05; 0x22; 0x66; 0xbf; 0xdc; 0x0b; 0xfa; 0x62; 0x48;
   0xdd; 0x20; 0x11; 0x06; 0x36; 0xc9; 0xc1; 0xcf; 0xf6; 0x27; 0x52; 0xbb; 0x69; 0xf5; 0xd4; 0x87;
   0x7f; 0x84; 0x4c; 0xd2; 0x9c; 0x57; 0xa4; 0xbc; 0x4f; 0x9a; 0xdf; 0xfe; 0xd6; 0x8d; 0x7a; 0xeb;
   0x2b; 0x53; 0xd8; 0x5c; 0xa1; 0x14; 0x17; 0xfb; 0x23; 0xd5; 0x7d; 0x30; 0x67; 0x73; 0x08; 0x09;
   0xee; 0xb7; 0x70; 0x3f; 0x61; 0xb2; 0x19; 0x8e; 0x4e; 0xe5; 0x4b; 0x93; 0x8f; 0x5d; 0xdb; 0xa9;
   0xad; 0xf1; 0xae; 0x2e; 0xcb; 0x0d; 0xfc; 0xf4; 0x2d; 0x46; 0x6e; 0x1d; 0x97; 0xe8; 0xd1; 0xe9;
   0x4d; 0x37; 0xa5; 0x75; 0x5e; 0x83; 0x9e; 0xab; 0x82; 0x9d; 0xb9; 0x1c; 0xe0; 0xcd; 0x49; 0x89;
   0x01; 0xb6; 0xbd; 0x58; 0x24; 0xa2; 0x5f; 0x38; 0x78; 0x99; 0x15; 0x90; 0x50; 0xb8; 0x95; 0xe4;
   0xd0; 0x91; 0xc7; 0xce; 0xed; 0x0f; 0xb4; 0x6f; 0xa0; 0xcc; 0xf0; 0x02; 0x4a; 0x79; 0xc3; 0xde;
   0xa3; 0xef; 0xea; 0x51; 0xe6; 0x6b; 0x18; 0xec; 0x1b; 0x2c; 0x80; 0xf7; 0x74; 0xe7; 0xff; 0x21;
   0x5a; 0x6a; 0x54; 0x1e; 0x41; 0x31; 0x92; 0x35; 0xc4; 0x33; 0x07; 0x0a; 0xba; 0x7e; 0x0e; 0x34;
   0x88; 0xb1; 0x98; 0x7c; 0xf3; 0x3d; 0x60; 0x6c; 0x7b; 0xca; 0xd3; 0x1f; 0x32; 0x65; 0x04; 0x28;
   0x64; 0xbe; 0x85; 0x9b; 0x2f; 0x59; 0x8a; 0xd7; 0xb0; 0x25; 0xac; 0xaf; 0x12; 0x03; 0xe2; 0xf2].

Definition EK_d : list Z := [
   0x44D7; 0x26BC; 0x626B; 0x135E; 0x5789; 0x35E2; 0x7135; 0x09AF;
   0x4D78; 0x2F13; 0x6BC4; 0x1AF1; 0x5E26; 0x3C4D; 0x789A; 0x47AC].

(** ** The generator *)

(** The file-scope state: the LFSR, the two registers of [F] and the four
    words of [BitReorganization]. *)
Record zuc := mkZuc {
  reg : lfsr;
  F_R1 : Z; F_R2 : Z;
  BRC_X0 : Z; BRC_X1 : Z; BRC_X2 : Z; BRC_X3 : Z
}.

Definition set_reg (s : zuc) (r : lfsr) : zuc :=
  mkZuc r (F_R1 s) (F_R2 s) (BRC_X0 s) (BRC_X1 s) (BRC_X2 s) (BRC_X3 s).

(** c = a + b mod (2^31 - 1) *)
Definition AddM (a b : Z) : Z :=
  let c := u32 (a + b) in
  u32 ((c .& 0x7FFFFFFF) + (c >> 31)).

Definition MulByPow2 (x k : Z) : Z :=
  (u32 (x << k) .| (x >> (31 - k))) .& 0x7FFFFFFF.

(** The feedback word both LFSR modes compute before they shift. *)
Definition feedback (r : lfsr) : Z :=
  let f := LFSR_S0 r in
  let f := AddM f (MulByPow2 (LFSR_S0 r) 8) in
  let f := AddM f (MulByPow2 (LFSR_S4 r) 20) in
  let f := AddM f (MulByPow2 (LFSR_S10 r) 21) in
  let f := AddM f (MulByPow2 (LFSR_S13 r) 17) in
  AddM f (MulByPow2 (LFSR_S15 r) 15).

Definition LFSRWithInitialisationMode (u : Z) (r : lfsr) : lfsr :=
  let f := feedback r in
  let f := AddM f u in
  shift_in r f.

Definition LFSRWithWorkMode (r : lfsr) : lfsr :=
  let f := feedback r in
  shift_in r f.

Definition BitReorganization (s : zuc) : zuc :=
  let r := reg s in
  mkZuc r (F_R1 s) (F_R2 s)
    (u32 ((LFSR_S15 r .& 0x7FFF8000) << 1) .| (LFSR_S14 r .& 0xFFFF))
    (u32 ((LFSR_S11 r .& 0xFFFF) << 16) .| (LFSR_S9 r >> 15))
    (u32 ((LFSR_S7 r .& 0xFFFF) << 16) .| (LFSR_S5 r >> 15))
    (u32 ((LFSR_S2 r .& 0xFFFF) << 16) .| (LFSR_S0 r >> 15)).

Definition ROT (a k : Z) : Z := u32 (a << k) .| (a >> (32 - k)).

Definition L1 (X : Z) : Z := X .^ ROT X 2 .^ ROT X 10 .^ ROT X 18 .^ ROT X 24.

Definition L2 (X : Z) : Z := X .^ ROT X 8 .^ ROT X 14 .^ ROT X 22 .^ ROT X 30.

Definition MAKEU32 (a b c d : Z) : Z :=
  u32 (a << 24) .| u32 (b << 16) .| u32 (c << 8) .| d.

(** The non-linear function: returns [W] and updates [F_R1], [F_R2]. *)
Definition F (s : zuc) : Z * zuc :=
  let W := u32 ((BRC_X0 s .^ F_R1 s) + F_R2 s) in
  let W1 := u32 (F_R1 s + BRC_X1 s) in
  let W2 := F_R2 s .^ BRC_X2 s in
  let u := L1 (u32 (W1 << 16) .| (W2 >> 16)) in
  let v := L2 (u32 (W2 << 16) .| (W1 >> 16)) in
  let r1 := MAKEU32 (rd S0 (u >> 24)) (rd S1 ((u >> 16) .& 0xFF))
                    (rd S0 ((u >> 8) .& 0xFF)) (rd S1 (u .& 0xFF)) in
  let r2 := MAKEU32 (rd S0 (v >> 24)) (rd S1 ((v >> 16) .& 0xFF))
                    (rd S0 ((v >> 8) .& 0xFF)) (rd S1 (v .& 0xFF)) in
  (W, mkZuc (reg s) r1 r2 (BRC_X0 s) (BRC_X1 s) (BRC_X2 s) (BRC_X3 s)).

Definition MAKEU31 (a b c : Z) : Z := u32 (a << 23) .| u32 (b << 8) .| c.

(** One round of the initialisation loop. *)
Definition init_round (s : zuc) : zuc :=
  let s := BitReorganization s in
  let '(w, s) := F s in
  set_reg s (LFSRWithInitialisationMode (w >> 1) (reg s)).

Definition load (k iv : list Z) (i : Z) : Z := MAKEU31 (rd k i) (rd EK_d i) (rd iv i).

Definition zuc_initialize (k iv : list Z) : zuc :=
  let r := mkLfsr (load k iv 0) (load k iv 1) (load k iv 2) (load k iv 3)
                  (load k iv 4) (load k iv 5) (load k iv 6) (load k iv 7)
                  (load k iv 8) (load k iv 9) (load k iv 10) (load k iv 11)
                  (load k iv 12) (load k iv 13) (load k iv 14) (load k iv 15) in
  let s := mkZuc r 0 0 0 0 0 0 in
  for_up 32 (fun _ s => init_round s) s.

(** One round of the key-stream loop: the next word and the next state. *)
Definition stream_round (s : zuc) : Z * zuc :=
  let s := BitReorganization s in
  let '(w, s) := F s in
  (w .^ BRC_X3 s, set_reg s (LFSRWithWorkMode (reg s))).

Fixpoint stream (n : nat) (s : zuc) : list Z :=
  match n with
  | O => []
  | S n => let '(z, s) := stream_round s in z :: stream n s
  end.

Definition zuc_generate_key_stream (KeystreamLen : nat) (s : zuc) : list Z :=
  let s := BitReorganization s in
  let '(_, s) := F s in
  stream KeystreamLen (set_reg s (LFSRWithWorkMode (reg s))).

(** [ZUC k iv ks len]: the [len] words written to [ks]. *)
Definition ZUC (k iv : list Z) (len : nat) : list Z :=
  zuc_generate_key_stream len (zuc_initialize k iv).

(** ** 128-EEA3 *)

Definition eea3_iv (COUNT BEARER DIRECTION : Z) : list Z :=
  let iv0 := (COUNT >> 24) .& 0xFF in
  let iv1 := (COUNT >> 16) .& 0xFF in
  let iv2 := (COUNT >> 8) .& 0xFF in
  let iv3 := COUNT .& 0xFF in
  let iv4 := ((BEARER << 3) .| ((DIRECTION .& 1) << 2)) .& 0xFC in
  [iv0; iv1; iv2; iv3; iv4; 0; 0; 0; iv0; iv1; iv2; iv3; iv4; 0; 0; 0].

(** [zuc_eea3 CK COUNT BEARER DIRECTION LENGTH M C] returns the contents of the
    buffer [C] after the call; [LENGTH] counts bits.  The statement
    [C[i] &= 0x100 - (1<<lastbits)] is outside the [if], as in the source: when
    [lastbits] is 0 it is applied to the cell after the message (a list update
    past the end of the buffer leaves the list as it is). *)
Definition zuc_eea3 (CK : list Z) (COUNT BEARER DIRECTION LENGTH : Z) (M C : list Z) : list Z :=
  let lastbits := (8 - LENGTH mod 8) mod 8 in
  let L := u32 (LENGTH + 31) / 32 in
  let L8 := u32 (LENGTH + 7) / 8 in
  let IV := eea3_iv COUNT BEARER DIRECTION in
  let z := ZUC CK IV (Z.to_nat L) in
  let C := for_up (Z.to_nat L8)
    (fun n C =>
       let i := Z.of_nat n in
       <[n := u8 (rd M i .^ ((rd z (i / 4) >> ((3 - i mod 4) * 8)) .& 0xff))]> C) C in
  let i := if decide (lastbits <> 0) then L8 - 1 else L8 in
  <[Z.to_nat i := rd C i .& (0x100 - (1 << lastbits))]> C.

(** ** 128-EIA3 *)

Definition GET_WORD (DATA : list Z) (i : Z) : Z :=
  let ti := i mod 32 in
  if decide (ti = 0) then rd DATA (i / 32)
  else u32 (rd DATA (i / 32) << ti) .| (rd DATA (i / 32 + 1) >> (32 - ti)).

Definition GET_BIT (DATA : list Z) (i : Z) : Z :=
  if decide (rd DATA (i / 8) .& (1 << (7 - i mod 8)) <> 0) then 1 else 0.

Definition eia3_iv (COUNT BEARER DIRECTION : Z) : list Z :=
  let iv4 := (BEARER << 3) .& 0xF8 in
  [(COUNT >> 24) .& 0xFF; (COUNT >> 16) .& 0xFF; (COUNT >> 8) .& 0xFF; COUNT .& 0xFF;
   iv4; 0; 0; 0;
   ((COUNT >> 24) .& 0xFF) .^ ((DIRECTION .& 1) << 7);
   (COUNT >> 16) .& 0xFF; (COUNT >> 8) .& 0xFF; COUNT .& 0xFF;
   iv4; 0; 0 .^ ((DIRECTION .& 1) << 7); 0].

(** The 32-bit word stored through [MAC]. *)
Definition zuc_eia3 (IK : list Z) (COUNT BEARER DIRECTION LENGTH : Z) (M : list Z) : Z :=
  let IV := eia3_iv COUNT BEARER DIRECTION in
  let N := u32 (LENGTH + 64) in
  let L := u32 (N + 31) / 32 in
  let z := ZUC IK IV (Z.to_nat L) in
  let T := for_up (Z.to_nat LENGTH)
    (fun n T => let i := Z.of_nat n in
       if decide (GET_BIT M i <> 0) then T .^ GET_WORD z i else T) 0 in
  let T := T .^ GET_WORD z LENGTH in
  T .^ rd z (L - 1).


(** ** The LFSR step against the specification

    ETSI/SAGE's ZUC document defines the feedback as
    [2^15 s15 + 2^17 s13 + 2^21 s10 + 2^20 s4 + (1 + 2^8) s0] modulo
    [2^31 - 1], with the representative [2^31 - 1] in place of 0. *)

Definition modulus : Z := 2 ^ 31 - 1.

Definition canon (x : Z) : Z := if decide (x mod modulus = 0) then modulus else x mod modulus.

Definition feedback_spec (r : lfsr) : Z :=
  2 ^ 15 * LFSR_S15 r + 2 ^ 17 * LFSR_S13 r + 2 ^ 21 * LFSR_S10 r +
  2 ^ 20 * LFSR_S4 r + (1 + 2 ^ 8) * LFSR_S0 r.

(** A register word: non-zero and 31 bits wide. *)
Definition is_reg (x : Z) : Prop := 0 < x < 2 ^ 31.

Lemma canon_unique x y : is_reg x -> x mod modulus = y mod modulus -> x = canon y.
Proof.
  unfold is_reg, canon, modulus. intros Hx Heq.
  case_decide as H0; rewrite <- Heq in *.
  - destruct (decide (x = 2 ^ 31 - 1)); [done|]. rewrite Z.mod_small in H0; lia.
  - rewrite Z.mod_small; [done|]. destruct (decide (x = 2 ^ 31 - 1)) as [->|]; [|lia].
    by rewrite Z.mod_same in H0.
Qed.

Lemma AddM_sum a b :
  0 <= a < 2 ^ 31 -> 0 <= b < 2 ^ 31 ->
  AddM a b = (a + b) mod 2 ^ 31 + (a + b) / 2 ^ 31.
Proof.
  intros Ha Hb. unfold AddM. cbv zeta.
  rewrite (u32_id (a + b)) by (unfold inw; lia).
  rewrite (land_ones_mod _ 31), shiftr_div by done.
  apply u32_id. unfold inw. lia.
Qed.

Lemma AddM_reg a b : is_reg a -> 0 <= b < 2 ^ 31 -> is_reg (AddM a b).
Proof. unfold is_reg. intros Ha Hb. rewrite AddM_sum by lia. lia. Qed.

Lemma AddM_mod a b :
  0 <= a < 2 ^ 31 -> 0 <= b < 2 ^ 31 -> AddM a b mod modulus = (a + b) mod modulus.
Proof.
  intros Ha Hb. rewrite AddM_sum by done.
  pose proof (Z.div_mod (a + b) (2 ^ 31) ltac:(lia)) as E.
  set (q := (a + b) / 2 ^ 31) in *. set (t := (a + b) mod 2 ^ 31) in *.
  rewrite E. replace (2 ^ 31 * q + t) with (t + q + q * modulus) by (unfold modulus; lia).
  by rewrite Z.mod_add by done.
Qed.

Lemma MulByPow2_rot x k :
  0 <= x < 2 ^ 31 -> 0 < k < 31 ->
  MulByPow2 x k = (x mod 2 ^ (31 - k)) * 2 ^ k + x / 2 ^ (31 - k).
Proof.
  intros Hx Hk.
  assert (Hp : 2 ^ 31 = 2 ^ (31 - k) * 2 ^ k) by (rewrite <- Z.pow_add_r by lia; f_equal; lia).
  assert (0 < 2 ^ k /\ 0 < 2 ^ (31 - k)) as [Hk0 Hk1] by (split; apply Z.pow_pos_nonneg; lia).
  assert (0 <= x / 2 ^ (31 - k) < 2 ^ k) as Hq.
  { split; [apply Z.div_pos; lia|]. apply Z.div_lt_upper_bound; nia. }
  unfold MulByPow2. rewrite Z.land_lor_distr_l.
  rewrite (land_ones_mod (x >> (31 - k)) 31), shiftr_div by (done || lia).
  rewrite (Z.mod_small (x / _)) by nia.
  rewrite (land_ones_mod (u32 _) 31), u32_mod by done.
  rewrite Z.shiftl_mul_pow2 by lia.
  replace ((x * 2 ^ k) mod 2 ^ 32 mod 2 ^ 31) with ((x mod 2 ^ (31 - k)) * 2 ^ k).
  - rewrite <- Z.shiftl_mul_pow2 at 1 by lia. by rewrite lor_add by (done || lia).
  - rewrite (Z.mod_mod_divide (x * 2 ^ k) (2 ^ 32) (2 ^ 31)) by (exists 2; lia).
    rewrite Hp. rewrite Z.mul_mod_distr_r; lia.
Qed.

Lemma MulByPow2_reg x k : is_reg x -> 0 < k < 31 -> is_reg (MulByPow2 x k).
Proof.
  unfold is_reg. intros Hx Hk. rewrite MulByPow2_rot by lia.
  assert (Hp : 2 ^ 31 = 2 ^ (31 - k) * 2 ^ k) by (rewrite <- Z.pow_add_r by lia; f_equal; lia).
  assert (0 < 2 ^ k /\ 0 < 2 ^ (31 - k)) as [Hk0 Hk1] by (split; apply Z.pow_pos_nonneg; lia).
  pose proof (Z.div_mod x (2 ^ (31 - k)) ltac:(lia)) as E.
  pose proof (Z.mod_pos_bound x (2 ^ (31 - k)) ltac:(lia)) as Hm.
  assert (0 <= x / 2 ^ (31 - k) < 2 ^ k) as Hq.
  { split; [apply Z.div_pos; lia|]. apply Z.div_lt_upper_bound; nia. }
  nia.
Qed.

Lemma MulByPow2_mod x k :
  0 <= x < 2 ^ 31 -> 0 < k < 31 -> MulByPow2 x k mod modulus = (2 ^ k * x) mod modulus.
Proof.
  intros Hx Hk. rewrite MulByPow2_rot by done.
  assert (Hp : 2 ^ 31 = 2 ^ (31 - k) * 2 ^ k) by (rewrite <- Z.pow_add_r by lia; f_equal; lia).
  pose proof (Z.div_mod x (2 ^ (31 - k)) ltac:(apply Z.pow_nonzero; lia)) as E.
  set (q := x / 2 ^ (31 - k)) in *. set (t := x mod 2 ^ (31 - k)) in *.
  rewrite E. replace (2 ^ k * (2 ^ (31 - k) * q + t)) with (t * 2 ^ k + q + q * modulus)
    by (unfold modulus; nia).
  by rewrite Z.mod_add by done.
Qed.

#[export] Hint Resolve AddM_reg MulByPow2_reg : words.

Lemma reg_range x : is_reg x -> 0 <= x < 2 ^ 31.
Proof. unfold is_reg. lia. Qed.

(** Accumulating [2^k x] with [AddM] adds it modulo [2^31 - 1]. *)
Lemma AddM_Mul_mod f e x k :
  is_reg f -> is_reg x -> 0 < k < 31 -> f mod modulus = e mod modulus ->
  AddM f (MulByPow2 x k) mod modulus = (e + 2 ^ k * x) mod modulus.
Proof.
  intros Hf Hx Hk He.
  rewrite AddM_mod by auto using reg_range with words.
  by rewrite Zplus_mod, MulByPow2_mod, He, <- Zplus_mod by auto using reg_range.
Qed.

Lemma AddM_Mul_reg f x k :
  is_reg f -> is_reg x -> 0 < k < 31 -> is_reg (AddM f (MulByPow2 x k)).
Proof. auto using reg_range with words. Qed.

Definition regs_ok (r : lfsr) : Prop := all_words is_reg r.

Ltac regs H :=
  let H' := fresh in
  pose proof H as H'; unfold regs_ok, all_words, words_of in H';
  rewrite !Forall_cons in H'; simpl in H'; decompose [and] H'; clear H'.

Lemma feedback_reg r : regs_ok r -> is_reg (feedback r).
Proof. intros Hr. regs Hr. unfold feedback. cbv zeta. repeat (apply AddM_Mul_reg; [|done|lia]). done. Qed.

Lemma feedback_mod r : regs_ok r -> feedback r mod modulus = feedback_spec r mod modulus.
Proof.
  intros Hr. regs Hr. unfold feedback. cbv zeta.
  erewrite AddM_Mul_mod; [| |done|lia|
    repeat (apply AddM_Mul_mod; [repeat (apply AddM_Mul_reg; [|done|lia]); done|done|lia|]);
    reflexivity].
  - f_equal. unfold feedback_spec. lia.
  - repeat (apply AddM_Mul_reg; [|done|lia]). done.
Qed.

(** The F registers and output words are 32-bit words. *)
Definition zuc_ok (s : zuc) : Prop :=
  regs_ok (reg s) /\ inw 32 (F_R1 s) /\ inw 32 (F_R2 s).

Lemma rd_S0_byte i : inw 8 (rd S0 i).
Proof.
  unfold rd. destruct (nth_in_or_default (Z.to_nat i) S0 0) as [Hin| ->]; [|unfold inw; lia].
  assert (bytes S0) as Hb by (apply (bool_decide_unpack _); vm_compute; done).
  rewrite Forall_forall in Hb. apply Hb. by apply list_elem_of_In.
Qed.
Lemma rd_S1_byte i : inw 8 (rd S1 i).
Proof.
  unfold rd. destruct (nth_in_or_default (Z.to_nat i) S1 0) as [Hin| ->]; [|unfold inw; lia].
  assert (bytes S1) as Hb by (apply (bool_decide_unpack _); vm_compute; done).
  rewrite Forall_forall in Hb. apply Hb. by apply list_elem_of_In.
Qed.

Lemma MAKEU32_inw a b c d : inw 8 d -> inw 32 (MAKEU32 a b c d).
Proof.
  intros. unfold MAKEU32. repeat apply inw_lor; auto with words.
  by apply (inw_mono 8).
Qed.

Lemma F_ok s : regs_ok (reg s) -> zuc_ok (snd (F s)) /\ reg (snd (F s)) = reg s /\ inw 32 (fst (F s)).
Proof.
  intros Hr. unfold F, zuc_ok. simpl.
  split_and!; auto using MAKEU32_inw, rd_S1_byte with words.
Qed.

Lemma LFSRWithWorkMode_ok r : regs_ok r -> regs_ok (LFSRWithWorkMode r).
Proof. intros. apply all_words_shift_in; auto using feedback_reg. Qed.

Lemma LFSRWithInitialisationMode_ok u r :
  regs_ok r -> 0 <= u < 2 ^ 31 -> regs_ok (LFSRWithInitialisationMode u r).
Proof. intros. apply all_words_shift_in; auto using AddM_reg, feedback_reg. Qed.

Lemma init_round_ok s : zuc_ok s -> zuc_ok (init_round s).
Proof.
  intros [Hr _]. unfold init_round.
  pose proof (F_ok (BitReorganization s) Hr) as (Hok & Hreg & HW).
  destruct (F (BitReorganization s)) as [w s'] eqn:E. simpl in *.
  destruct Hok as (Hr' & H1 & H2). split_and!; simpl; [|done..].
  apply LFSRWithInitialisationMode_ok; [done|]. apply (inw_shiftr 31); done || lia.
Qed.

Lemma MAKEU31_reg a b c : inw 8 a -> 0 < b < 2 ^ 15 -> inw 8 c -> is_reg (MAKEU31 a b c).
Proof.
  intros Ha Hb Hc. unfold MAKEU31, inw, is_reg in *.
  rewrite !Z.shiftl_mul_pow2 by done.
  rewrite !u32_id by (unfold inw; lia).
  rewrite <- (Z.shiftl_mul_pow2 a 23), (lor_add a (b * 2 ^ 8) 23) by (unfold inw; lia).
  replace (a * 2 ^ 23 + b * 2 ^ 8) with ((a * 2 ^ 15 + b) * 2 ^ 8) by lia.
  rewrite <- Z.shiftl_mul_pow2, lor_add by (unfold inw; lia). lia.
Qed.

Lemma EK_d_range i : 0 <= i < 16 -> 0 < rd EK_d i < 2 ^ 15.
Proof.
  intros Hi. assert (Forall (fun d => 0 < d < 2 ^ 15) EK_d) as H by (repeat constructor).
  apply (rd_Forall (fun d => 0 < d < 2 ^ 15) EK_d i H). done.
Qed.

Lemma load_reg k iv i :
  bytes k -> bytes iv -> length k = 16%nat -> length iv = 16%nat -> 0 <= i < 16 ->
  is_reg (load k iv i).
Proof.
  intros Hk Hv Lk Lv Hi. apply MAKEU31_reg;
    [apply rd_Forall; [done|lia] | by apply EK_d_range | apply rd_Forall; [done|lia]].
Qed.

Lemma stream_round_ok s : zuc_ok s -> zuc_ok (snd (stream_round s)).
Proof.
  intros [Hr _]. unfold stream_round.
  pose proof (F_ok (BitReorganization s) Hr) as (Hok & Hreg & HW).
  destruct (F (BitReorganization s)) as [w s'] eqn:E. simpl in *.
  destruct Hok as (Hr' & H1 & H2). split_and!; simpl; auto using LFSRWithWorkMode_ok.
Qed.

Lemma length_stream n s : length (stream n s) = n.
Proof.
  revert s. induction n as [|n IH]; intros s; simpl; [done|].
  destruct (stream_round s). simpl. by rewrite IH.
Qed.

Lemma length_ZUC k iv n : length (ZUC k iv n) = n.
Proof.
  unfold ZUC, zuc_generate_key_stream. destruct (F _). apply length_stream.
Qed.

(** ** The cipher as an exclusive or with a key stream *)

(** Byte [i] of the key stream [z]. *)
Definition ks_byte (z : list Z) (n : nat) : Z :=
  let i := Z.of_nat n in (rd z (i / 4) >> ((3 - i mod 4) * 8)) .& 0xff.

(** The first [n] key-stream bytes EEA3 uses for these parameters. *)
Definition eea3_keystream (CK : list Z) (COUNT BEARER DIRECTION : Z) (n : nat) : list Z :=
  let z := ZUC CK (eea3_iv COUNT BEARER DIRECTION) (Z.to_nat ((8 * Z.of_nat n + 31) / 32)) in
  map (ks_byte z) (seq 0 n).

Lemma ks_byte_byte z n : inw 8 (ks_byte z n).
Proof. unfold ks_byte. auto with words. Qed.

Lemma eea3_keystream_bytes CK c b d n : bytes (eea3_keystream CK c b d n).
Proof. apply Forall_map, Forall_forall. intros. apply ks_byte_byte. Qed.

Lemma length_eea3_keystream CK c b d n : length (eea3_keystream CK c b d n) = n.
Proof. unfold eea3_keystream. by rewrite length_map, length_seq. Qed.

Lemma eea3_xor CK c b d M n :
  bytes M -> (n <= length M)%nat -> 8 * Z.of_nat n + 31 < 2 ^ 32 ->
  zuc_eea3 CK c b d (8 * Z.of_nat n) M M =
    xor_bytes (take n M) (eea3_keystream CK c b d n) ++ drop n M.
Proof.
  intros HM Hn HL. unfold zuc_eea3, eea3_keystream. cbv zeta.
  replace ((8 - (8 * Z.of_nat n) mod 8) mod 8) with 0 by lia.
  rewrite decide_False by (intros []; done).
  rewrite !u32_id by (unfold inw; lia).
  set (z := ZUC _ _ _).
  replace ((8 * Z.of_nat n + 7) / 8) with (Z.of_nat n) by lia. rewrite Nat2Z.id.
  rewrite (for_up_keystream (ks_byte z)) by auto using ks_byte_byte.
  change (0x100 - (1 << 0)) with 0xff. apply insert_mask_ff.
  apply Forall_app_2; [|by apply Forall_drop].
  apply xor_bytes_bytes; [by apply Forall_take|].
  apply Forall_map, Forall_forall. intros. apply ks_byte_byte.
Qed.

(** ** The EIA3 window *)

(** Bit [j] (from the left) of a sequence of 32-bit words. *)
Definition stream_bit (z : list Z) (j : Z) : bool := Z.testbit (rd z (j / 32)) (31 - j mod 32).

Lemma GET_WORD_bits z i j :
  Forall (inw 32) z -> 0 <= i -> 0 <= j < 32 -> i + 32 <= 32 * Z.of_nat (length z) ->
  Z.testbit (GET_WORD z i) (31 - j) = stream_bit z (i + j).
Proof.
  intros Hz Hi Hj Hlen. unfold GET_WORD, stream_bit. cbv zeta.
  case_decide as H0.
  - replace ((i + j) / 32) with (i / 32) by lia.
    replace ((i + j) mod 32) with j by lia. done.
  - assert (inw 32 (rd z (i / 32 + 1))) as Hw by (apply rd_Forall; [done|lia]).
    rewrite Z.lor_spec, Z.shiftr_spec by lia. unfold u32.
    rewrite Z.land_spec, Z.shiftl_spec by lia.
    change 0xffffffff with (Z.ones 32). rewrite Z.ones_spec_low, andb_true_r by lia.
    destruct (Z.lt_ge_cases (i mod 32 + j) 32) as [Hlt|Hge].
    + replace ((i + j) / 32) with (i / 32) by lia.
      replace ((i + j) mod 32) with (i mod 32 + j) by lia.
      rewrite (inw_testbit 32 (rd z (i / 32 + 1))) by (done || lia).
      rewrite orb_false_r. f_equal. lia.
    + replace ((i + j) / 32) with (i / 32 + 1) by lia.
      replace ((i + j) mod 32) with (i mod 32 + j - 32) by lia.
      rewrite (Z.testbit_neg_r (rd z (i / 32))) by lia. simpl. f_equal. lia.
Qed.

Lemma stream_round_word s : zuc_ok s -> inw 32 (fst (stream_round s)).
Proof.
  intros [Hr _]. unfold stream_round.
  pose proof (F_ok (BitReorganization s) Hr) as (_ & _ & HW).
  assert (BRC_X3 (snd (F (BitReorganization s))) = BRC_X3 (BitReorganization s)) as HX by done.
  destruct (F (BitReorganization s)) as [w s']. simpl in *. rewrite HX.
  regs Hr. apply inw_lxor; [done..|]. apply inw_lor; auto with words.
  apply inw_shiftr_same; [done..|]. unfold is_reg in *. unfold inw. lia.
Qed.

Lemma stream_words n s : zuc_ok s -> Forall (inw 32) (stream n s).
Proof.
  revert s. induction n as [|n IH]; intros s Hs; cbn [stream]; [constructor|].
  pose proof (stream_round_ok s Hs). pose proof (stream_round_word s Hs).
  destruct (stream_round s) as [w s']. simpl in *. constructor; auto.
Qed.

Lemma zuc_initialize_ok k iv :
  bytes k -> length k = 16%nat -> bytes iv -> length iv = 16%nat ->
  zuc_ok (zuc_initialize k iv).
Proof.
  intros Bk Lk Bv Lv. unfold zuc_initialize. cbv zeta. apply (for_up_ind _ (fun _ => zuc_ok)).
  - split_and!; simpl; [|unfold inw; lia..].
    unfold regs_ok, all_words, words_of. simpl.
    repeat (apply Forall_cons; split; [apply load_reg; (done || lia)|]). constructor.
  - intros. by apply init_round_ok.
Qed.

Lemma generate_words n s : zuc_ok s -> Forall (inw 32) (zuc_generate_key_stream n s).
Proof.
  intros [Hr _]. unfold zuc_generate_key_stream.
  destruct (F_ok (BitReorganization s) Hr) as ((Hr' & ? & ?) & _ & _).
  destruct (F (BitReorganization s)) as [w s']. cbn [snd] in *.
  apply stream_words. split_and!; cbn [reg set_reg F_R1 F_R2]; auto using LFSRWithWorkMode_ok.
Qed.

Lemma ZUC_words k iv n :
  bytes k -> length k = 16%nat -> bytes iv -> length iv = 16%nat ->
  Forall (inw 32) (ZUC k iv n).
Proof. intros. by apply generate_words, zuc_initialize_ok. Qed.

(** The exclusive or of [g i] over [i < n]. *)
Fixpoint xor_below (n : nat) (g : nat -> bool) : bool :=
  match n with O => false | S n => xorb (xor_below n g) (g n) end.

(** Bit [i] of the message, most significant bit of the first byte first. *)
Definition msg_bit (M : list Z) (i : nat) : bool := bool_decide (GET_BIT M (Z.of_nat i) <> 0).

Lemma low_byte x : inw 8 (x .& 0xFF).
Proof. apply (u8_inw x). Qed.

Lemma eia3_iv_bytes c b d : bytes (eia3_iv c b d).
Proof.
  unfold eia3_iv. cbv zeta.
  assert (inw 8 ((d .& 1) << 7)) as Hd.
  { rewrite (land_ones_mod d 1) by done. rewrite Z.shiftl_mul_pow2 by done. unfold inw. lia. }
  assert (inw 8 ((b << 3) .& 0xF8)) as Hb by (apply inw_land_r; [done|by split]).
  repeat (apply Forall_cons; split;
          [try apply inw_lxor; first [done | apply low_byte | by split]|]).
  constructor.
Qed.

(** The state after [n] rounds of the key-stream loop. *)
Fixpoint rounds (n : nat) (s : zuc) : zuc :=
  match n with O => s | S n => snd (stream_round (rounds n s)) end.

(** ** Properties *)

(** The work-mode LFSR step is the recurrence of the ZUC specification
    modulo [2^31 - 1], with [2^31 - 1] for 0. *)
Theorem work_mode_spec r :
  regs_ok r -> LFSRWithWorkMode r = shift_in r (canon (feedback_spec r)).
Proof.
  intros Hr. unfold LFSRWithWorkMode. cbv zeta. f_equal.
  apply canon_unique; [by apply feedback_reg|by apply feedback_mod].
Qed.

Lemma work_mode_spec_witness :
  let r := mkLfsr 1 2 3 4 5 6 7 8 9 10 11 12 13 14 15 0x7fffffff in
  LFSRWithWorkMode r = shift_in r (canon (feedback_spec r)).
Proof. apply work_mode_spec. unfold regs_ok, all_words, is_reg. by_decide. Defined.

(** Initialisation from a 16-byte key and a 16-byte IV and any number of
    key-stream rounds keep every LFSR register non-zero and 31 bits wide (the
    generator never needs the specification's replacement of 0) and the
    registers of [F] 32 bits wide. *)
Theorem registers_ok k iv n :
  bytes k -> length k = 16%nat -> bytes iv -> length iv = 16%nat ->
  zuc_ok (rounds n (zuc_initialize k iv)).
Proof.
  intros Bk Lk Bv Lv.
  induction n as [|n IH]; [by apply zuc_initialize_ok|]. by apply stream_round_ok.
Qed.

Lemma registers_ok_witness : zuc_ok (rounds 3 (zuc_initialize (replicate 16 0) (replicate 16 0xff))).
Proof. apply registers_ok; by_decide. Defined.

(** Enciphering a byte buffer in place twice with the same key, count, bearer
    and direction restores it, whatever the length in bytes. *)
Theorem eea3_involutive CK COUNT BEARER DIRECTION M n :
  bytes M -> (n <= length M)%nat -> 8 * Z.of_nat n + 31 < 2 ^ 32 ->
  let f M := zuc_eea3 CK COUNT BEARER DIRECTION (8 * Z.of_nat n) M M in
  f (f M) = M.
Proof.
  intros BM Hn HL f.
  apply (xor_stream_involutive f n (eea3_keystream CK COUNT BEARER DIRECTION n));
    auto using length_eea3_keystream, eea3_keystream_bytes.
  intros. by apply eea3_xor.
Qed.

Lemma eea3_involutive_witness :
  let f M := zuc_eea3 (replicate 16 7) 5 0 1 24 M M in f (f [1; 2; 255; 9]) = [1; 2; 255; 9].
Proof. apply (eea3_involutive (replicate 16 7) 5 0 1 [1; 2; 255; 9] 3); [by_decide|simpl; lia|lia]. Defined.

(** Bit by bit, the 32-bit code EIA3 computes is the specification's: bit [j]
    is the exclusive or, over the set bits [i] of the message, of key-stream bit
    [i + j], with key-stream bits [LENGTH + j] and [32 (L - 1) + j]. *)
Theorem eia3_bits IK COUNT BEARER DIRECTION LENGTH M j :
  bytes IK -> length IK = 16%nat -> 0 <= LENGTH < 2 ^ 32 - 95 -> 0 <= j < 32 ->
  let L := (LENGTH + 95) / 32 in
  let z := ZUC IK (eia3_iv COUNT BEARER DIRECTION) (Z.to_nat L) in
  Z.testbit (zuc_eia3 IK COUNT BEARER DIRECTION LENGTH M) (31 - j) =
    xorb (xorb (xor_below (Z.to_nat LENGTH)
                 (fun i => msg_bit M i && stream_bit z (Z.of_nat i + j)))
               (stream_bit z (LENGTH + j)))
         (stream_bit z (32 * (L - 1) + j)).
Proof.
  intros BK LK HL Hj L z. unfold zuc_eia3. cbv zeta.
  rewrite (u32_id (LENGTH + 64)) by (unfold inw; lia).
  rewrite (u32_id (LENGTH + 64 + 31)) by (unfold inw; lia).
  replace ((LENGTH + 64 + 31) / 32) with L by (unfold L; f_equal; lia). fold z.
  assert (Forall (inw 32) z) as Hz by (apply ZUC_words; auto using eia3_iv_bytes).
  assert (length z = Z.to_nat L) as Lz by apply length_ZUC.
  assert (HLZ : 32 * Z.of_nat (length z) >= LENGTH + 64) by (unfold L in Lz; lia).
  rewrite !Z.lxor_spec, GET_WORD_bits by (done || lia).
  f_equal; [f_equal|].
  - apply (for_up_ind _ (fun n T => Z.testbit T (31 - j) = xor_below n
      (fun i => msg_bit M i && stream_bit z (Z.of_nat i + j)))); [apply Z.bits_0|].
    intros i T Hi HT. simpl. rewrite <- HT. unfold msg_bit at 1.
    case_decide as Hb; case_bool_decide; try done; simpl.
    + by rewrite Z.lxor_spec, GET_WORD_bits by (done || lia).
    + by rewrite xorb_false_r.
  - unfold stream_bit. replace ((32 * (L - 1) + j) / 32) with (L - 1) by lia.
    by replace ((32 * (L - 1) + j) mod 32) with j by lia.
Qed.

Lemma eia3_bits_witness :
  let z := ZUC (replicate 16 7) (eia3_iv 5 0 1) 3 in
  Z.testbit (zuc_eia3 (replicate 16 7) 5 0 1 1 [0x80]) (31 - 4) =
    xorb (xorb (stream_bit z 4) (stream_bit z 5)) (stream_bit z (32 * 2 + 4)).
Proof.
  intros z. etransitivity.
  - apply (eia3_bits (replicate 16 7) 5 0 1 1 [0x80] 4); [by_decide|done|lia|lia].
  - reflexivity.
Defined.

End Zuc.
