(* ===== verification/Snow3g.v ===== *)
(** [src/mme/snow_3g.c]: the SNOW 3G key-stream generator and the LTE algorithms
    128-EEA1 ([snow_3g_f8]) and 128-EIA1 ([snow_3g_f9]) built on it.  The
    file-scope variables of the C file are the record [Snow3g.snow]. *)

From S2P Require Import Prelude Lfsr.

Module Snow3g.

(** ** Tables *)

Definition SR : list Z := [
   0x63; 0x7C; 0x77; 0x7B; 0xF2; 0x6B; 0x6F; 0xC5; 0x30; 0x01; 0x67; 0x2B; 0xFE; 0xD7; 0xAB; 0x76;
   0xCA; 0x82; 0xC9; 0x7D; 0xFA; 0x59; 0x47; 0xF0; 0xAD; 0xD4; 0xA2; 0xAF; 0x9C; 0xA4; 0x72; 0xC0;
   0xB7; 0xFD; 0x93; 0x26; 0x36; 0x3F; 0xF7; 0xCC; 0x34; 0xA5; 0xE5; 0xF1; 0x71; 0xD8; 0x31; 0x15;
   0x04; 0xC7; 0x23; 0xC3; 0x18; 0x96; 0x05; 0x9A; 0x07; 0x12; 0x80; 0xE2; 0xEB; 0x27; 0xB2; 0x75;
   0x09; 0x83; 0x2C; 0x1A; 0x1B; 0x6E; 0x5A; 0xA0; 0x52; 0x3B; 0xD6; 0xB3; 0x29; 0xE3; 0x2F; 0x84;
   0x53; 0xD1; 0x00; 0xED; 0x20; 0xFC; 0xB1; 0x5B; 0x6A; 0xCB; 0xBE; 0x39; 0x4A; 0x4C; 0x58; 0xCF;
   0xD0; 0xEF; 0xAA; 0xFB; 0x43; 0x4D; 0x33; 0x85; 0x45; 0xF9; 0x02; 0x7F; 0x50; 0x3C; 0x9F; 0xA8;
   0x51; 0xA3; 0x40; 0x8F; 0x92; 0x9D; 0x38; 0xF5; 0xBC; 0xB6; 0xDA; 0x21; 0x10; 0xFF; 0xF3; 0xD2;
   0xCD; 0x0C; 0x13; 0xEC; 0x5F; 0x97; 0x44; 0x17; 0xC4; 0xA7; 0x7E; 0x3D; 0x64; 0x5D; 0x19; 0x73;
   0x60; 0x81; 0x4F; 0xDC; 0x22; 0x2A; 0x90; 0x88; 0x46; 0xEE; 0xB8; 0x14; 0xDE; 0x5E; 0x0B; 0xDB;
   0xE0; 0x32; 0x3A; 0x0A; 0x49; 0x06; 0x24; 0x5C; 0xC2; 0xD3; 0xAC; 0x62; 0x91; 0x95; 0xE4; 0x79;
   0xE7; 0xC8; 0x37; 0x6D; 0x8D; 0xD5; 0x4E; 0xA9; 0x6C; 0x56; 0xF4; 0xEA; 0x65; 0x7A; 0xAE; 0x08;
   0xBA; 0x78; 0x25; 0x2E; 0x1C; 0xA6; 0xB4; 0xC6; 0xE8; 0xDD; 0x74; 0x1F; 0x4B; 0xBD; 0x8B; 0x8A;
   0x70; 0x3E; 0xB5; 0x66; 0x48; 0x03; 0xF6; 0x0E; 0x61; 0x35; 0x57; 0xB9; 0x86; 0xC1; 0x1D; 0x9E;
   0xE1; 0xF8; 0x98; 0x11; 0x69; 0xD9; 0x8E; 0x94; 0x9B; 0x1E; 0x87; 0xE9; 0xCE; 0x55; 0x28; 0xDF;
   0x8C; 0xA1; 0x89; 0x0D; 0xBF; 0xE6; 0x42; 0x68; 0x41; 0x99; 0x2D; 0x0F; 0xB0; 0x54; 0xBB; 0x16].

Definition SQ : list Z := [
   0x25; 0x24; 0x73; 0x67; 0xD7; 0xAE; 0x5C; 0x30; 0xA4; 0xEE; 0x6E; 0xCB; 0x7D; 0xB5; 0x82; 0xDB;
   0xE4; 0x8E; 0x48; 0x49; 0x4F; 0x5D; 0x6A; 0x78; 0x70; 0x88; 0xE8; 0x5F; 0x5E; 0x84; 0x65; 0xE2;
   0xD8; 0xE9; 0xCC; 0xED; 0x40; 0x2F; 0x11; 0x28; 0x57; 0xD2; 0xAC; 0xE3; 0x4A; 0x15; 0x1B; 0xB9;
   0xB2; 0x80; 0x85; 0xA6; 0x2E; 0x02; 0x47; 0x29; 0x07; 0x4B; 0x0E; 0xC1; 0x51; 0xAA; 0x89; 0xD4;
   0xCA; 0x01; 0x46; 0xB3; 0xEF; 0xDD; 0x44; 0x7B; 0xC2; 0x7F; 0xBE; 0xC3; 0x9F; 0x20; 0x4C; 0x64;
   0x83; 0xA2; 0x68; 0x42; 0x13; 0xB4; 0x41; 0xCD; 0xBA; 0xC6; 0xBB; 0x6D; 0x4D; 0x71; 0x21; 0xF4;
   0x8D; 0xB0; 0xE5; 0x93; 0xFE; 0x8F; 0xE6; 0xCF; 0x43; 0x45; 0x31; 0x22; 0x37; 0x36; 0x96; 0xFA;
   0xBC; 0x0F; 0x08; 0x52; 0x1D; 0x55; 0x1A; 0xC5; 0x4E; 0x23; 0x69; 0x7A; 0x92; 0xFF; 0x5B; 0x5A;
   0xEB; 0x9A; 0x1C; 0xA9; 0xD1; 0x7E; 0x0D; 0xFC; 0x50; 0x8A; 0xB6; 0x62; 0xF5; 0x0A; 0xF8; 0xDC;
   0x03; 0x3C; 0x0C; 0x39; 0xF1; 0xB8; 0xF3; 0x3D; 0xF2; 0xD5; 0x97; 0x66; 0x81; 0x32; 0xA0; 0x00;
   0x06; 0xCE; 0xF6; 0xEA; 0xB7; 0x17; 0xF7; 0x8C; 0x79; 0xD6; 0xA7; 0xBF; 0x8B; 0x3F; 0x1F; 0x53;
   0x63; 0x75; 0x35; 0x2C; 0x60; 0xFD; 0x27; 0xD3; 0x94; 0xA5; 0x7C; 0xA1; 0x05; 0x58; 0x2D; 0xBD;
   0xD9; 0xC7; 0xAF; 0x6B; 0x54; 0x0B; 0xE0; 0x38; 0x04; 0xC8; 0x9D; 0xE7; 0x14; 0xB1; 0x87; 0x9C;
   0xDF; 0x6F; 0xF9; 0xDA; 0x2A; 0xC4; 0x59; 0x16; 0x74; 0x91; 0xAB; 0x26; 0x61; 0x76; 0x34; 0x2B;
   0xAD; 0x99; 0xFB; 0x72; 0xEC; 0x33; 0x12; 0xDE; 0x98; 0x3B; 0xC0; 0x9B; 0x3E; 0x18; 0x10; 0x3A;
   0x56; 0xE1; 0x77; 0xC9; 0x1E; 0x9E; 0x95; 0xA3; 0x90; 0x19; 0xA8; 0x6C; 0x09; 0xD0; 0xF0; 0x86].

(** ** The generator *)

Record snow := mkSnow { reg : lfsr; FSM_R1 : Z; FSM_R2 : Z; FSM_R3 : Z }.

Definition set_reg (s : snow) (r : lfsr) : snow := mkSnow r (FSM_R1 s) (FSM_R2 s) (FSM_R3 s).

Definition MULx (V c : Z) : Z :=
  if decide (V .& 0x80 <> 0) then u8 ((V << 1) .^ c) else u8 (V << 1).

Fixpoint MULxPOW (V : Z) (i : nat) (c : Z) : Z :=
  match i with
  | O => V
  | S i => MULx (MULxPOW V i c) c
  end.

Definition MULalpha (c : Z) : Z :=
  (MULxPOW c 23 0xa9 << 24) .| (MULxPOW c 245 0xa9 << 16) .|
  (MULxPOW c 48 0xa9 << 8) .| MULxPOW c 239 0xa9.

Definition DIValpha (c : Z) : Z :=
  (MULxPOW c 16 0xa9 << 24) .| (MULxPOW c 39 0xa9 << 16) .|
  (MULxPOW c 6 0xa9 << 8) .| MULxPOW c 64 0xa9.

(** The MixColumn step both S-boxes apply to four substituted bytes. *)
Definition S1 (w : Z) : Z :=
  let srw0 := rd SR (u8 ((w >> 24) .& 0xff)) in
  let srw1 := rd SR (u8 ((w >> 16) .& 0xff)) in
  let srw2 := rd SR (u8 ((w >> 8) .& 0xff)) in
  let srw3 := rd SR (u8 (w .& 0xff)) in
  let r0 := MULx srw0 0x1b .^ srw1 .^ srw2 .^ (MULx srw3 0x1b .^ srw3) in
  let r1 := (MULx srw0 0x1b .^ srw0) .^ MULx srw1 0x1b .^ srw2 .^ srw3 in
  let r2 := srw0 .^ (MULx srw1 0x1b .^ srw1) .^ MULx srw2 0x1b .^ srw3 in
  let r3 := srw0 .^ srw1 .^ (MULx srw2 0x1b .^ srw2) .^ MULx srw3 0x1b in
  (r0 << 24) .| (r1 << 16) .| (r2 << 8) .| r3.

Definition S2 (w : Z) : Z :=
  let sqw0 := rd SQ (u8 ((w >> 24) .& 0xff)) in
  let sqw1 := rd SQ (u8 ((w >> 16) .& 0xff)) in
  let sqw2 := rd SQ (u8 ((w >> 8) .& 0xff)) in
  let sqw3 := rd SQ (u8 (w .& 0xff)) in
  let r0 := MULx sqw0 0x69 .^ sqw1 .^ sqw2 .^ (MULx sqw3 0x69 .^ sqw3) in
  let r1 := (MULx sqw0 0x69 .^ sqw0) .^ MULx sqw1 0x69 .^ sqw2 .^ sqw3 in
  let r2 := sqw0 .^ (MULx sqw1 0x69 .^ sqw1) .^ MULx sqw2 0x69 .^ sqw3 in
  let r3 := sqw0 .^ sqw1 .^ (MULx sqw2 0x69 .^ sqw2) .^ MULx sqw3 0x69 in
  (r0 << 24) .| (r1 << 16) .| (r2 << 8) .| r3.

Definition ClockLFSRInitializationMode (F : Z) (s : snow) : snow :=
  let r := reg s in
  let v := (u32 (LFSR_S0 r << 8) .& 0xffffff00) .^
           MULalpha (u8 ((LFSR_S0 r >> 24) .& 0xff)) .^
           LFSR_S2 r .^
           ((LFSR_S11 r >> 8) .& 0x00ffffff) .^
           DIValpha (u8 (LFSR_S11 r .& 0xff)) .^
           F in
  set_reg s (shift_in r v).

Definition ClockLFSRKeyStreamMode (s : snow) : snow :=
  let r := reg s in
  let v := (u32 (LFSR_S0 r << 8) .& 0xffffff00) .^
           MULalpha (u8 ((LFSR_S0 r >> 24) .& 0xff)) .^
           LFSR_S2 r .^
           ((LFSR_S11 r >> 8) .& 0x00ffffff) .^
           DIValpha (u8 (LFSR_S11 r .& 0xff)) in
  set_reg s (shift_in r v).

(** Returns the word [F] and the state with the FSM registers clocked. *)
Definition ClockFSM (s : snow) : Z * snow :=
  let F := (u32 (LFSR_S15 (reg s) + FSM_R1 s) .& 0xffffffff) .^ FSM_R2 s in
  let r := u32 (FSM_R2 s + (FSM_R3 s .^ LFSR_S5 (reg s))) .& 0xffffffff in
  (F, mkSnow (reg s) r (S1 (FSM_R1 s)) (S2 (FSM_R2 s))).

Definition init_round (s : snow) : snow :=
  let '(F, s) := ClockFSM s in ClockLFSRInitializationMode F s.

Definition snow_3g_initialize (k IV : list Z) : snow :=
  let r := mkLfsr
    (rd k 0 .^ 0xffffffff) (rd k 1 .^ 0xffffffff)
    (rd k 2 .^ 0xffffffff) (rd k 3 .^ 0xffffffff)
    (rd k 0) (rd k 1) (rd k 2) (rd k 3)
    (rd k 0 .^ 0xffffffff)
    (rd k 1 .^ 0xffffffff .^ rd IV 3)
    (rd k 2 .^ 0xffffffff .^ rd IV 2)
    (rd k 3 .^ 0xffffffff)
    (rd k 0 .^ rd IV 1) (rd k 1) (rd k 2) (rd k 3 .^ rd IV 0) in
  for_up 32 (fun _ s => init_round s) (mkSnow r 0 0 0).

Definition stream_round (s : snow) : Z * snow :=
  let '(F, s) := ClockFSM s in
  (F .^ LFSR_S0 (reg s), ClockLFSRKeyStreamMode s).

Fixpoint stream (n : nat) (s : snow) : list Z :=
  match n with
  | O => []
  | S n => let '(z, s) := stream_round s in z :: stream n s
  end.

(** The [n] words stored in [ks]. *)
Definition snow_3g_generate_key_stream (n : nat) (s : snow) : list Z :=
  let '(_, s) := ClockFSM s in
  stream n (ClockLFSRKeyStreamMode s).

(** The four key words [K[0] .. K[3]]. *)
Definition load_key (key : list Z) : list Z :=
  let w i := u32 (rd key (4 * i) << 24) .^ (rd key (4 * i + 1) << 16) .^
             (rd key (4 * i + 2) << 8) .^ rd key (4 * i + 3) in
  [w 3; w 2; w 1; w 0].

(** ** 128-EEA1 *)

Definition f8_iv (count bearer dir : Z) : list Z :=
  let iv2 := u32 (bearer << 27) .| ((dir .& 0x1) << 26) in
  [iv2; count; iv2; count].

(** [data] is the memory from the start of the message; [length] counts bits.
    The loop works on whole 32-bit words. *)
Definition snow_3g_f8 (key : list Z) (count bearer dir : Z) (data : list Z) (length : Z) : list Z :=
  let n := u32 (length + 31) / 32 in
  let lastbits := (8 - length mod 8) mod 8 in
  let KS := snow_3g_generate_key_stream (Z.to_nat n)
              (snow_3g_initialize (load_key key) (f8_iv count bearer dir)) in
  let data := for_up (Z.to_nat n)
    (fun i data =>
       let w := rd KS (Z.of_nat i) in
       let data := <[(4 * i)%nat := u8 (rd data (Z.of_nat (4 * i)) .^ ((w >> 24) .& 0xff))]> data in
       let data := <[(4 * i + 1)%nat := u8 (rd data (Z.of_nat (4 * i + 1)) .^ ((w >> 16) .& 0xff))]> data in
       let data := <[(4 * i + 2)%nat := u8 (rd data (Z.of_nat (4 * i + 2)) .^ ((w >> 8) .& 0xff))]> data in
       <[(4 * i + 3)%nat := u8 (rd data (Z.of_nat (4 * i + 3)) .^ (w .& 0xff))]> data)
    data in
  if decide (lastbits <> 0)
  then <[Z.to_nat (length / 8) := rd data (length / 8) .& (256 - (1 << lastbits))]> data
  else data.

(** ** 128-EIA1 *)

Definition MUL64x (V c : Z) : Z :=
  if decide (V .& 0x8000000000000000 <> 0) then u64 (V << 1) .^ c else u64 (V << 1).

Fixpoint MUL64xPOW (V : Z) (i : nat) (c : Z) : Z :=
  match i with
  | O => V
  | S i => MUL64x (MUL64xPOW V i c) c
  end.

Definition MUL64 (V P c : Z) : Z :=
  for_up 64 (fun i result =>
    if decide ((P >> Z.of_nat i) .& 0x1 <> 0) then result .^ MUL64xPOW V i c else result) 0.

Definition mask8bit (n : Z) : Z := u8 (0xFF .^ ((1 << (8 - n)) - 1)).

Definition f9_iv (count fresh dir : Z) : list Z :=
  [fresh .^ u32 (dir << 15); count .^ u32 (dir << 31); fresh; count].

(** The 64-bit message block [i], most significant byte first. *)
Definition block64 (data : list Z) (i : Z) : Z :=
  (rd data (8 * i) << 56) .| (rd data (8 * i + 1) << 48) .|
  (rd data (8 * i + 2) << 40) .| (rd data (8 * i + 3) << 32) .|
  (rd data (8 * i + 4) << 24) .| (rd data (8 * i + 5) << 16) .|
  (rd data (8 * i + 6) << 8) .| rd data (8 * i + 7).

(** The last block [M_D_2]: the remaining whole bytes, then the remaining bits. *)
Definition last_block (data : list Z) (D length : Z) : Z :=
  let rem_bits := if decide (length mod 64 = 0) then 64 else length mod 64 in
  let n := rem_bits / 8 in
  let M_D_2 := for_up (Z.to_nat n)
    (fun i M => M .| (rd data (8 * (D - 2) + Z.of_nat i) << (8 * (7 - Z.of_nat i)))) 0 in
  let rem_bits := rem_bits mod 8 in
  if decide (0 < rem_bits)
  then M_D_2 .| ((rd data (8 * (D - 2) + n) .& mask8bit rem_bits) << (8 * (7 - n)))
  else M_D_2.

(** The four bytes stored in [out]; [length] counts bits. *)
Definition snow_3g_f9 (key : list Z) (count fresh dir : Z) (data : list Z) (length : Z) : list Z :=
  let z := snow_3g_generate_key_stream 5
             (snow_3g_initialize (load_key key) (f9_iv count fresh dir)) in
  let P := (rd z 0 << 32) .| rd z 1 in
  let Q := (rd z 2 << 32) .| rd z 3 in
  let D := if decide (length mod 64 = 0) then u32 ((length >> 6) + 1)
           else u32 ((length >> 6) + 2) in
  let c := 0x1b in
  let EVAL := for_up (Z.to_nat (u32 (D - 2)))
    (fun i EVAL => let V := EVAL .^ block64 data (Z.of_nat i) in MUL64 V P c) 0 in
  let V := EVAL .^ last_block data D length in
  let EVAL := MUL64 V P c in
  let EVAL := EVAL .^ length in
  let EVAL := MUL64 EVAL Q c in
  map (fun i => ((EVAL >> (56 - i * 8)) .^ (rd z 4 >> (24 - i * 8))) .& 0xff) [0; 1; 2; 3].

(** ** The cipher as an exclusive or with a key stream *)

(** Byte [j] of a sequence of 32-bit words, most significant byte first. *)
Definition ks_byte (KS : list Z) (j : nat) : Z :=
  let i := Z.of_nat j in (rd KS (i / 4) >> (24 - 8 * (i mod 4))) .& 0xff.

Definition f8_keystream (key : list Z) (count bearer dir : Z) (n : nat) : list Z :=
  let KS := snow_3g_generate_key_stream n
              (snow_3g_initialize (load_key key) (f8_iv count bearer dir)) in
  map (ks_byte KS) (seq 0 (4 * n)).

Lemma f8_byte_byte KS j : inw 8 (ks_byte KS j).
Proof. apply (u8_inw (_ >> _)). Qed.

Lemma f8_keystream_bytes key c b d n : bytes (f8_keystream key c b d n).
Proof. apply Forall_map, Forall_forall. intros. apply f8_byte_byte. Qed.

Lemma length_f8_keystream key c b d n : length (f8_keystream key c b d n) = (4 * n)%nat.
Proof. unfold f8_keystream. by rewrite length_map, length_seq. Qed.

(** On a whole number of bytes, [snow_3g_f8] combines the first [4 * n] bytes of
    the buffer with the key stream, [n] being the number of 32-bit words that
    cover the message. *)
Lemma f8_xor key c b d data len n :
  bytes data -> 0 <= len -> len + 31 < 2 ^ 32 -> len mod 8 = 0 ->
  n = Z.to_nat ((len + 31) / 32) -> (4 * n <= length data)%nat ->
  snow_3g_f8 key c b d data len =
    xor_bytes (take (4 * n) data) (f8_keystream key c b d n) ++ drop (4 * n) data.
Proof.
  intros Hd H0 Hlen H8 Hn Hle. unfold snow_3g_f8, f8_keystream. cbv zeta.
  rewrite u32_id by (unfold inw; lia). rewrite <- Hn.
  rewrite decide_False by (rewrite H8; intros []; done).
  set (KS := snow_3g_generate_key_stream _ _).
  rewrite <- (for_up_keystream_inplace (ks_byte KS)) by auto using f8_byte_byte.
  rewrite for_up_mul4. apply for_up_ext. intros i s _.
  unfold ks_byte. cbv zeta.
  assert (forall r, 0 <= r < 4 -> (4 * Z.of_nat i + r) / 4 = Z.of_nat i /\ (4 * Z.of_nat i + r) mod 4 = r)
    as Hr by lia.
  rewrite !Nat2Z.inj_add, Nat2Z.inj_mul. change (Z.of_nat 4) with 4.
  destruct (Hr 1), (Hr 2), (Hr 3), (Hr 0) as [E0 E0']; [lia..|]. rewrite Z.add_0_r in E0, E0'.
  rewrite E0, E0'. change (Z.of_nat 1) with 1. change (Z.of_nat 2) with 2. change (Z.of_nat 3) with 3.
  repeat match goal with H : _ = _ |- _ => rewrite H end. done.
Qed.

(** ** Multiplication in GF(2^64) *)

(** [c] stands for the polynomial [x^64 + c]. *)
Definition poly64 (c : Z) : Z := (1 << 64) .^ c.

(** The product of the polynomials [V] and [P], without reduction. *)
Definition clmul (V P : Z) : Z :=
  for_up 64 (fun i r => if decide (Z.testbit P (Z.of_nat i) = true) then r .^ (V << Z.of_nat i) else r) 0.

Lemma MUL64x_alt V c : MUL64x V c = u64 (V << 1) .^ (if decide (Z.testbit V 63 = true) then c else 0).
Proof.
  unfold MUL64x. change 0x8000000000000000 with (1 << 63).
  pose proof (land_bit_nonzero V 63 ltac:(done)) as H.
  repeat case_decide; try tauto. by rewrite Z.lxor_0_r.
Qed.

Lemma MUL64x_inw V c : inw 64 c -> inw 64 (MUL64x V c).
Proof. intros. rewrite MUL64x_alt. case_decide; auto with words. Qed.

Lemma MUL64xPOW_inw V i c : inw 64 V -> inw 64 c -> inw 64 (MUL64xPOW V i c).
Proof. intros. destruct i; [done|]. by apply MUL64x_inw. Qed.

Lemma MUL64_inw V P c : inw 64 V -> inw 64 c -> inw 64 (MUL64 V P c).
Proof.
  intros. unfold MUL64. apply (for_up_ind _ (fun _ => inw 64)); [by split|].
  intros. case_decide; [|done]. auto using MUL64xPOW_inw with words.
Qed.

Lemma u64_shift_top V : inw 64 V -> Z.testbit V 63 = true -> u64 (V << 1) .^ (V << 1) = 1 << 64.
Proof.
  intros HV Ht. rewrite Z.testbit_true in Ht by done. unfold inw in HV.
  rewrite u64_mod, Z.shiftl_mul_pow2 by done.
  assert ((V * 2 ^ 1) mod 2 ^ 64 = V * 2 ^ 1 - 2 ^ 64) as -> by lia.
  set (y := V * 2 ^ 1 - 2 ^ 64). assert (0 <= y < 2 ^ 64) by lia.
  replace (V * 2 ^ 1) with (1 * 2 ^ 64 + y) by (unfold y; lia).
  rewrite <- lor_add by (done || unfold inw; lia).
  bits_eq. destruct (Z.lt_ge_cases i 64).
  - rewrite (Z.testbit_neg_r 1 (i - 64)) by lia. by destruct (Z.testbit y i).
  - rewrite (inw_testbit 64 y) by (done || unfold inw; lia). by rewrite orb_false_r.
Qed.

Lemma MUL64x_congr V c : inw 64 V -> inw 64 c -> congr (poly64 c) (MUL64x V c) (V << 1).
Proof.
  intros HV Hc. rewrite MUL64x_alt. unfold congr. case_decide as Ht.
  - replace (_ .^ c .^ _) with (u64 (V << 1) .^ (V << 1) .^ c) by bits_eq.
    rewrite u64_shift_top by done. apply multiple_self.
  - rewrite Z.lxor_0_r, u64_id, Z.lxor_nilpotent; [constructor|].
    rewrite not_true_iff_false, Z.testbit_false in Ht by done.
    rewrite Z.shiftl_mul_pow2 by done. unfold inw in *. lia.
Qed.

Lemma MUL64xPOW_congr V i c :
  inw 64 V -> inw 64 c -> congr (poly64 c) (MUL64xPOW V i c) (V << Z.of_nat i).
Proof.
  intros HV Hc. induction i as [|i IH]; cbn [MUL64xPOW]; [by rewrite Z.shiftl_0_r|].
  rewrite MUL64x_congr by auto using MUL64xPOW_inw.
  rewrite Nat2Z.inj_succ, <- Z.add_1_r, <- Z.shiftl_shiftl by lia.
  by apply congr_shiftl.
Qed.

Lemma MUL64_congr V P c : inw 64 V -> inw 64 c -> congr (poly64 c) (MUL64 V P c) (clmul V P).
Proof.
  intros HV Hc. unfold MUL64, clmul. generalize 64%nat; intros m; induction m as [|n IH]; [done|].
  rewrite !for_up_S.
  pose proof (land_bit_nonzero (P >> Z.of_nat n) 0 ltac:(done)) as Hb.
  rewrite Z.shiftr_spec, Z.add_0_l in Hb by done. change (1 << 0) with 0x1 in Hb.
  repeat case_decide; try tauto. by rewrite IH, MUL64xPOW_congr.
Qed.

Lemma MUL64x_lxor a b c : MUL64x (a .^ b) c = MUL64x a c .^ MUL64x b c.
Proof.
  rewrite !MUL64x_alt, Z.shiftl_lxor, Z.lxor_spec.
  assert (forall x y, u64 (x .^ y) = u64 x .^ u64 y) as ->.
  { intros x y. unfold u64. bits_eq. }
  destruct (Z.testbit a 63), (Z.testbit b 63); simpl; repeat case_decide; try done; bits_eq.
Qed.

Lemma MUL64xPOW_lxor a b i c : MUL64xPOW (a .^ b) i c = MUL64xPOW a i c .^ MUL64xPOW b i c.
Proof. induction i as [|i IH]; cbn [MUL64xPOW]; [done|]. by rewrite IH, MUL64x_lxor. Qed.

Lemma MUL64_lxor a b P c : MUL64 (a .^ b) P c = MUL64 a P c .^ MUL64 b P c.
Proof.
  unfold MUL64. generalize 64%nat; intros m; induction m as [|n IH]; [done|].
  rewrite !for_up_S, IH. case_decide; [|done]. rewrite MUL64xPOW_lxor. bits_eq.
Qed.

(** ** The EIA1 hash polynomial *)

(** Iterated multiplication, and the polynomial
    [m_0 P^n + m_1 P^(n-1) + ... + m_(n-1) P] for the multiplication [mul] by a
    fixed element [P]. *)
Section hash.
Variable mul : Z -> Z.

Fixpoint mul_pow (k : nat) (x : Z) : Z :=
  match k with
  | O => x
  | S k => mul (mul_pow k x)
  end.

Fixpoint poly_hash (ms : list Z) : Z :=
  match ms with
  | [] => 0
  | m :: ms' => mul_pow (length ms) m .^ poly_hash ms'
  end.

Hypothesis mul_lxor : forall a b, mul (a .^ b) = mul a .^ mul b.

Lemma mul_pow_lxor k a b : mul_pow k (a .^ b) = mul_pow k a .^ mul_pow k b.
Proof. induction k as [|k IH]; [done|]. simpl. by rewrite IH, mul_lxor. Qed.

Lemma mul_pow_S k a : mul_pow k (mul a) = mul_pow (S k) a.
Proof. induction k as [|k IH]; [done|]. simpl in *. by rewrite IH. Qed.

Lemma mul_pow_0 k : mul_pow k 0 = 0.
Proof. pose proof (mul_pow_lxor k 0 0) as H. by rewrite !Z.lxor_nilpotent in H. Qed.

(** Horner's rule. *)
Lemma horner ms e :
  fold_left (fun e m => mul (e .^ m)) ms e = mul_pow (length ms) e .^ poly_hash ms.
Proof.
  revert e. induction ms as [|m ms IH]; intros e; [by rewrite Z.lxor_0_r|].
  cbn [fold_left poly_hash length]. rewrite IH, mul_pow_S, mul_pow_lxor.
  by rewrite Z.lxor_assoc.
Qed.
End hash.

(** The message blocks of a message of [len] bits. *)
Definition eia1_blocks (data : list Z) (len : Z) : list Z :=
  let D := (len + 63) / 64 + 1 in
  map (fun i => block64 data (Z.of_nat i)) (seq 0 (Z.to_nat (D - 2))) ++ [last_block data D len].

Lemma eia1_horner P ms :
  fold_left (fun e m => MUL64 (e .^ m) P 0x1b) ms 0 = poly_hash (fun x => MUL64 x P 0x1b) ms.
Proof.
  etransitivity; [apply (horner (fun x => MUL64 x P 0x1b)); intros; apply MUL64_lxor|].
  rewrite mul_pow_0; [apply Z.lxor_0_l|intros; apply MUL64_lxor].
Qed.

(** ** Properties *)

(** [MUL64 V P 0x1b] is the product of the polynomials [V] and [P] in
    GF(2)[x] modulo [x^64 + x^4 + x^3 + x + 1], reduced to 64 bits. *)
Theorem MUL64_field V P :
  inw 64 V ->
  inw 64 (MUL64 V P 0x1b) /\ congr (2 ^ 64 + 0x1b) (MUL64 V P 0x1b) (clmul V P).
Proof.
  intros HV. split; [apply MUL64_inw; [done|by split]|].
  change (2 ^ 64 + 0x1b) with (poly64 0x1b). apply MUL64_congr; [done|by split].
Qed.

Lemma MUL64_field_witness :
  let V := 0x8000000000000001 in
  inw 64 (MUL64 V 7 0x1b) /\ congr (2 ^ 64 + 0x1b) (MUL64 V 7 0x1b) (clmul V 7).
Proof. apply MUL64_field. by_decide. Defined.

(** EIA1's code is the evaluation at [P] of the polynomial whose
    coefficients are the message blocks, plus the length, times [Q], its top
    half combined with the fifth key-stream word. *)
Theorem f9_polynomial key count fresh dir data len :
  0 < len < 2 ^ 37 ->
  let z := snow_3g_generate_key_stream 5
             (snow_3g_initialize (load_key key) (f9_iv count fresh dir)) in
  let P := (rd z 0 << 32) .| rd z 1 in
  let Q := (rd z 2 << 32) .| rd z 3 in
  let EVAL := MUL64 (poly_hash (fun x => MUL64 x P 0x1b) (eia1_blocks data len) .^ len) Q 0x1b in
  snow_3g_f9 key count fresh dir data len =
    map (fun i => ((EVAL >> (56 - i * 8)) .^ (rd z 4 >> (24 - i * 8))) .& 0xff) [0; 1; 2; 3].
Proof.
  intros Hlen z P Q EVAL. unfold snow_3g_f9. cbv zeta. fold z P Q.
  set (D := if decide _ then _ else _).
  assert (D = (len + 63) / 64 + 1 /\ 2 <= D < 2 ^ 32) as [HD HDr].
  { unfold D. rewrite shiftr_div by done.
    case_decide; rewrite u32_id by (unfold inw; lia); lia. }
  rewrite (u32_id (D - 2)) by (unfold inw; lia).
  rewrite (for_up_fold (fun e m => MUL64 (e .^ m) P 0x1b) (fun i => block64 data (Z.of_nat i))).
  unfold EVAL. rewrite <- eia1_horner.
  unfold eia1_blocks. cbv zeta. rewrite <- HD, fold_left_app. cbn [fold_left]. reflexivity.
Qed.

Lemma f9_polynomial_witness :
  let z := snow_3g_generate_key_stream 5
             (snow_3g_initialize (load_key (replicate 16 3)) (f9_iv 1 2 0)) in
  let P := (rd z 0 << 32) .| rd z 1 in
  let Q := (rd z 2 << 32) .| rd z 3 in
  let data := replicate 9 0xa5 in
  let EVAL := MUL64 (poly_hash (fun x => MUL64 x P 0x1b) (eia1_blocks data 72) .^ 72) Q 0x1b in
  snow_3g_f9 (replicate 16 3) 1 2 0 data 72 =
    map (fun i => ((EVAL >> (56 - i * 8)) .^ (rd z 4 >> (24 - i * 8))) .& 0xff) [0; 1; 2; 3].
Proof. apply f9_polynomial. lia. Defined.

(** EEA1 in place is its own inverse on whole bytes, on every buffer that
    holds the 32-bit words covering the message; the cells it changes are those
    of these words, including up to three bytes after the message. *)
Theorem f8_involutive key count bearer dir data len :
  bytes data -> 0 <= len -> len + 31 < 2 ^ 32 -> len mod 8 = 0 ->
  (4 * Z.to_nat ((len + 31) / 32) <= length data)%nat ->
  let f data := snow_3g_f8 key count bearer dir data len in
  f (f data) = data.
Proof.
  intros Hd H0 Hl H8 Hle f.
  apply (xor_stream_involutive f (4 * Z.to_nat ((len + 31) / 32))
           (f8_keystream key count bearer dir (Z.to_nat ((len + 31) / 32))));
    auto using f8_keystream_bytes, length_f8_keystream.
  intros. by apply f8_xor.
Qed.

Lemma f8_involutive_witness :
  let f data := snow_3g_f8 (replicate 16 3) 1 2 0 data 40 in
  f (f [1; 2; 3; 4; 5; 6; 7; 8; 9]) = [1; 2; 3; 4; 5; 6; 7; 8; 9].
Proof. apply f8_involutive; [by_decide|lia|lia|done|simpl; lia]. Defined.

(** The cells after a five-byte message are changed too. *)
Example f8_past_the_message :
  let key := replicate 16 0 in
  let data := replicate 8 0 in
  drop 5 (snow_3g_f8 key 0 0 0 data 40) <> drop 5 data.
Proof. vm_compute. congruence. Qed.

End Snow3g.
