(* ===== verification/Kasumi.v ===== *)
(** [src/mme/kasumi.c]: the block cipher KASUMI and the algorithms f8 and f9 built on it.
    The subkeys, file-scope arrays of the C file, are the record [Kasumi.subkeys]. *)

From Stdlib Require Import String.
From S2P Require Import Prelude.

Module Kasumi.

Definition ROL16 (a b : Z) : Z := u16 ((a << b) .| (a >> (16 - b))).

Record subkeys := mkSubkeys {
  KLi1 : list Z; KLi2 : list Z; KOi1 : list Z; KOi2 : list Z; KOi3 : list Z; KIi1 : list Z; KIi2 : list Z; KIi3 : list Z }.

Definition S7 : list Z := [
   54; 50; 62; 56; 22; 34; 94; 96; 38; 6; 63; 93; 2; 18; 123; 33;
   55; 113; 39; 114; 21; 67; 65; 12; 47; 73; 46; 27; 25; 111; 124; 81;
   53; 9; 121; 79; 52; 60; 58; 48; 101; 127; 40; 120; 104; 70; 71; 43;
   20; 122; 72; 61; 23; 109; 13; 100; 77; 1; 16; 7; 82; 10; 105; 98;
   117; 116; 76; 11; 89; 106; 0; 125; 118; 99; 86; 69; 30; 57; 126; 87;
   112; 51; 17; 5; 95; 14; 90; 84; 91; 8; 35; 103; 32; 97; 28; 66;
   102; 31; 26; 45; 75; 4; 85; 92; 37; 74; 80; 49; 68; 29; 115; 44;
   64; 107; 108; 24; 110; 83; 36; 78; 42; 19; 15; 41; 88; 119; 59; 3].

Definition S9 : list Z := [
   167; 239; 161; 379; 391; 334; 9; 338; 38; 226; 48; 358; 452; 385; 90; 397;
   183; 253; 147; 331; 415; 340; 51; 362; 306; 500; 262; 82; 216; 159; 356; 177;
   175; 241; 489; 37; 206; 17; 0; 333; 44; 254; 378; 58; 143; 220; 81; 400;
   95; 3; 315; 245; 54; 235; 218; 405; 472; 264; 172; 494; 371; 290; 399; 76;
   165; 197; 395; 121; 257; 480; 423; 212; 240; 28; 462; 176; 406; 507; 288; 223;
   501; 407; 249; 265; 89; 186; 221; 428; 164; 74; 440; 196; 458; 421; 350; 163;
   232; 158; 134; 354; 13; 250; 491; 142; 191; 69; 193; 425; 152; 227; 366; 135;
   344; 300; 276; 242; 437; 320; 113; 278; 11; 243; 87; 317; 36; 93; 496; 27;
   487; 446; 482; 41; 68; 156; 457; 131; 326; 403; 339; 20; 39; 115; 442; 124;
   475; 384; 508; 53; 112; 170; 479; 151; 126; 169; 73; 268; 279; 321; 168; 364;
   363; 292; 46; 499; 393; 327; 324; 24; 456; 267; 157; 460; 488; 426; 309; 229;
   439; 506; 208; 271; 349; 401; 434; 236; 16; 209; 359; 52; 56; 120; 199; 277;
   465; 416; 252; 287; 246; 6; 83; 305; 420; 345; 153; 502; 65; 61; 244; 282;
   173; 222; 418; 67; 386; 368; 261; 101; 476; 291; 195; 430; 49; 79; 166; 330;
   280; 383; 373; 128; 382; 408; 155; 495; 367; 388; 274; 107; 459; 417; 62; 454;
   132; 225; 203; 316; 234; 14; 301; 91; 503; 286; 424; 211; 347; 307; 140; 374;
   35; 103; 125; 427; 19; 214; 453; 146; 498; 314; 444; 230; 256; 329; 198; 285;
   50; 116; 78; 410; 10; 205; 510; 171; 231; 45; 139; 467; 29; 86; 505; 32;
   72; 26; 342; 150; 313; 490; 431; 238; 411; 325; 149; 473; 40; 119; 174; 355;
   185; 233; 389; 71; 448; 273; 372; 55; 110; 178; 322; 12; 469; 392; 369; 190;
   1; 109; 375; 137; 181; 88; 75; 308; 260; 484; 98; 272; 370; 275; 412; 111;
   336; 318; 4; 504; 492; 259; 304; 77; 337; 435; 21; 357; 303; 332; 483; 18;
   47; 85; 25; 497; 474; 289; 100; 269; 296; 478; 270; 106; 31; 104; 433; 84;
   414; 486; 394; 96; 99; 154; 511; 148; 413; 361; 409; 255; 162; 215; 302; 201;
   266; 351; 343; 144; 441; 365; 108; 298; 251; 34; 182; 509; 138; 210; 335; 133;
   311; 352; 328; 141; 396; 346; 123; 319; 450; 281; 429; 228; 443; 481; 92; 404;
   485; 422; 248; 297; 23; 213; 130; 466; 22; 217; 283; 70; 294; 360; 419; 127;
   312; 377; 7; 468; 194; 2; 117; 295; 463; 258; 224; 447; 247; 187; 80; 398;
   284; 353; 105; 390; 299; 471; 470; 184; 57; 200; 348; 63; 204; 188; 33; 451;
   97; 30; 310; 219; 94; 160; 129; 493; 64; 179; 263; 102; 189; 207; 114; 402;
   438; 477; 387; 122; 192; 42; 381; 5; 145; 118; 180; 449; 293; 323; 136; 380;
   43; 66; 60; 455; 341; 445; 202; 432; 8; 237; 15; 376; 436; 464; 59; 461].

Definition FI (input subkey : Z) : Z :=
  let nine := u16 (input >> 7) in
  let seven := u16 (input .& 0x7F) in
  let nine := u16 (rd S9 nine .^ seven) in
  let seven := u16 (rd S7 seven .^ (nine .& 0x7F)) in
  let seven := seven .^ (subkey >> 9) in
  let nine := nine .^ (subkey .& 0x1FF) in
  let nine := u16 (rd S9 nine .^ seven) in
  let seven := u16 (rd S7 seven .^ (nine .& 0x7F)) in
  u16 ((seven << 9) + nine).

Section cipher.
Variable k : subkeys.

Definition FO (input index : Z) : Z :=
  let left := u16 (input >> 16) in
  let right := u16 input in
  let left := left .^ rd (KOi1 k) index in
  let left := FI left (rd (KIi1 k) index) in
  let left := left .^ right in
  let right := right .^ rd (KOi2 k) index in
  let right := FI right (rd (KIi2 k) index) in
  let right := right .^ left in
  let left := left .^ rd (KOi3 k) index in
  let left := FI left (rd (KIi3 k) index) in
  let left := left .^ right in
  u32 ((right << 16) + left).

Definition FL (input index : Z) : Z :=
  let l := u16 (input >> 16) in
  let r := u16 input in
  let a := u16 (l .& rd (KLi1 k) index) in
  let r := r .^ ROL16 a 1 in
  let b := u16 (r .| rd (KLi2 k) index) in
  let l := l .^ ROL16 b 1 in
  u32 ((l << 16) + r).

(** The body of the loop, from [n] on; it advances [n] by 2. *)
Definition two_rounds (n : Z) (lr : Z * Z) : Z * Z :=
  let '(l, r) := lr in
  let r := r .^ FO (FL l n) n in
  let l := l .^ FL (FO r (n + 1)) (n + 1) in
  (l, r).

Definition word32 (b : list Z) : Z := u32 ((rd b 0 << 24) + (rd b 1 << 16) + (rd b 2 << 8) + rd b 3).
Definition bytes32 (x : Z) : list Z := [u8 (x >> 24); u8 (x >> 16); u8 (x >> 8); u8 x].

(** [data] is a block of eight octets. *)
Definition kasumi (data : list Z) : list Z :=
  let '(l, r) := for_up 4 (fun i => two_rounds (2 * Z.of_nat i)) (word32 data, word32 (drop 4 data)) in
  bytes32 l ++ bytes32 r.

End cipher.

Definition C : list Z := [0x0123; 0x4567; 0x89AB; 0xCDEF; 0xFEDC; 0xBA98; 0x7654; 0x3210].

Definition kasumi_key_schedule (k : list Z) : subkeys :=
  let idx := [0; 1; 2; 3; 4; 5; 6; 7] in
  let key := map (fun n => u16 ((rd k (2 * n) << 8) + rd k (2 * n + 1))) idx in
  let Kprime := map (fun n => u16 (rd key n .^ rd C n)) idx in
  let at_ l d n := rd l ((n + d) .& 0x7) in
  mkSubkeys
    (map (fun n => ROL16 (rd key n) 1) idx) (map (at_ Kprime 2) idx)
    (map (fun n => ROL16 (at_ key 1 n) 5) idx) (map (fun n => ROL16 (at_ key 5 n) 8) idx)
    (map (fun n => ROL16 (at_ key 6 n) 13) idx)
    (map (at_ Kprime 4) idx) (map (at_ Kprime 3) idx) (map (at_ Kprime 7) idx).

(** A key whose octets are combined with a constant. *)
Definition ModKey (key : list Z) (m : Z) : list Z := map (fun b => u8 (b .^ m)) (take 16 key).

(** ** f8 *)

Definition f8_modifier (count bearer dir : Z) : list Z :=
  [u8 (count >> 24); u8 (count >> 16); u8 (count >> 8); u8 count; u8 (bearer << 3) .| u8 (dir << 2); 0; 0; 0].

Definition block_count (blkcnt : Z) : list Z := [0; 0; 0; 0; 0; 0; u8 (blkcnt >> 8); u8 blkcnt].

(** The loop on the blocks.  [pre]: the octets that are done; the result is the pointer and
    the buffer.  [None]: the buffer is left, or the fuel is used up. *)
Fixpoint f8_loop (fuel : nat) (k : subkeys) (A temp : list Z) (blkcnt : Z) (pre data : list Z) (length : Z)
  : option (Z * list Z) :=
  if decide (length > 0) then
    match fuel with
    | O => None
    | S fuel =>
        let temp := kasumi k (xor_bytes (xor_bytes temp A) (block_count blkcnt)) in
        let n := if decide (length >= 64) then 8%nat else Z.to_nat ((length + 7) / 8) in
        if decide (n <= List.length data)%nat then
          f8_loop fuel k A temp (u16 (blkcnt + 1)) (pre ++ xor_bytes (take n data) temp) (drop n data) (length - 64)
        else None
    end
  else Some (Z.of_nat (List.length pre), pre ++ data).

(** An octet of the buffer is masked. *)
Definition mask_octet (p m : Z) (data : list Z) : option (list Z) :=
  if decide (0 <= p < Z.of_nat (length data)) then Some (alter (fun b => u8 (b .& m)) (Z.to_nat p) data) else None.

Definition kasumi_f8 (key : list Z) (count bearer dir : Z) (data : list Z) (length : Z) : option (list Z) :=
  let lastbits := Z.rem (8 - Z.rem length 8) 8 in
  let A := kasumi (kasumi_key_schedule (ModKey key 0x55)) (f8_modifier count bearer dir) in
  '(p, data) ← f8_loop (Z.to_nat ((length + 63) / 64)) (kasumi_key_schedule key) A (replicate 8 0) 0 [] data length;
  mask_octet (if decide (lastbits <> 0) then p - 1 else p) (256 - (1 << lastbits)) data.

(** ** f9 *)

Definition FinalBit : list Z := [0x80; 0x40; 0x20; 0x10; 8; 4; 2; 1].

Definition f9_start (count fresh : Z) : list Z :=
  map (fun n => u8 (count >> (24 - n * 8))) [0; 1; 2; 3] ++ map (fun n => u8 (fresh >> (24 - n * 8))) [0; 1; 2; 3].

(** One block of the chain [A], and the sum [B] of the outputs. *)
Definition chain (k : subkeys) (block : list Z) (AB : list Z * list Z) : list Z * list Z :=
  let A := kasumi k (xor_bytes (fst AB) block) in (A, xor_bytes (snd AB) A).

(** [while (length >= 64)]: the octets that are left, with the chain.  [None]: the buffer
    is left, or the fuel is used up. *)
Fixpoint f9_blocks (fuel : nat) (k : subkeys) (AB : list Z * list Z) (data : list Z) (length : Z)
  : option (list Z * list Z * list Z * Z) :=
  if decide (length >= 64) then
    match fuel with
    | O => None
    | S fuel =>
        if decide (8 <= List.length data)%nat
        then f9_blocks fuel k (chain k (take 8 data) AB) (drop 8 data) (length - 64) else None
    end
  else Some (AB, data, length).

(** [A.b8[n] ^= x]. *)
Definition xor_at (A : list Z) (n : nat) (x : Z) : list Z := alter (fun b => b .^ u8 x) n A.

(** [while (length >= 8)]: [n] octets are combined with the block. *)
Definition whole_octets (A data : list Z) (n : nat) : list Z := xor_bytes (take n A) (take n data) ++ drop n A.

(** The last block, or the last two. *)
Definition f9_last (k : subkeys) (AB : list Z * list Z) (data : list Z) (dir length : Z) : option (list Z * list Z) :=
  let n := Z.to_nat (length / 8) in
  if decide (n <= List.length data)%nat then
    let A := whole_octets (fst AB) data n in
    let length := length mod 8 in
    i ← (if decide (length <> 0) then
           x ← data !! n; Some (if decide (dir <> 0) then x .| rd FinalBit length else x)
         else Some (if decide (dir <> 0) then 0x80 else 0));
    let A := xor_at A n i in
    let n := S n in
    let step A B := let A := kasumi k A in (A, xor_bytes B A) in
    let '(A, B) :=
      if decide (length = 7 /\ n = 8%nat) then
        let '(A, B) := step A (snd AB) in (xor_at A 0 0x80, B)
      else if decide (length = 7) then (xor_at A n 0x80, snd AB)
      else (xor_at A (n - 1) (rd FinalBit (length + 1)), snd AB) in
    Some (step A B)
  else None.

Definition kasumi_f9 (key : list Z) (count fresh dir : Z) (data : list Z) (length : Z) : option (list Z) :=
  let k := kasumi_key_schedule key in
  let A := kasumi k (f9_start count fresh) in
  '(AB, data, length) ← f9_blocks (Z.to_nat (length / 64)) k (A, A) data length;
  '(_, B) ← f9_last k AB data dir length;
  Some (take 4 (kasumi (kasumi_key_schedule (ModKey key 0xAA)) B)).

(** ** Test data of TS 35.203 *)

Example kasumi_vector :
  kasumi (kasumi_key_schedule (hex "2bd6459f82c5b300952c49104881ff48"%string)) (hex "ea024714ad5c4d84"%string) = hex "df1f9b251c0bf45f"%string.
Proof. vm_compute. reflexivity. Qed.

Example f8_vector :
  kasumi_f8 (hex "d3c5d592327fb11c4035c6680af8c6d1"%string) 0x398a59b4 5 1
    (hex "981ba6824c1bfb1ab485472029b71d808ce33e2cc3c0b5fc1f3de8a6dc66b1f0"%string) 253 =
  Some (hex "5bb9431bb1e98bd11b93db7c3d45136559bb86a295aa204ecbebf6f7a5101510"%string).
Proof. vm_compute. reflexivity. Qed.

Example f9_vector :
  kasumi_f9 (hex "2bd6459f82c5b300952c49104881ff48"%string) 0x38a6f056 0x05d2ec49 0
    (hex "6b227737296f393c8079353edc87e2e805d2ec49a4f2d8e0"%string) 189 = Some (hex "f63bd72c"%string).
Proof. vm_compute. reflexivity. Qed.

End Kasumi.
