(* ===== verification/KasumiSpec.v ===== *)
(** KASUMI is the Feistel cipher of TS 35.202, which can be undone, and [Kasumi]'s f8 and f9
    are the functions of TS 35.201. *)

From S2P Require Import Prelude Kasumi.

Module KasumiSpec.
Import Kasumi.

(** ** The Feistel network *)

(** The round functions of TS 35.202, numbered from 0. *)
Definition round_function (k : subkeys) (i : nat) (x : Z) : Z :=
  if Nat.even i then FO k (FL k x (Z.of_nat i)) (Z.of_nat i) else FL k (FO k x (Z.of_nat i)) (Z.of_nat i).

(** L_i = R_(i-1) xor f_i(L_(i-1)), R_i = L_(i-1). *)
Definition feistel (k : subkeys) (i : nat) (lr : Z * Z) : Z * Z := (snd lr .^ round_function k i (fst lr), fst lr).
Definition unfeistel (k : subkeys) (i : nat) (lr : Z * Z) : Z * Z := (snd lr, fst lr .^ round_function k i (snd lr)).

Definition cipher (k : subkeys) (lr : Z * Z) : Z * Z := foldl (fun x i => feistel k i x) lr (seq 0 8).
Definition decipher (k : subkeys) (lr : Z * Z) : Z * Z := foldr (unfeistel k) lr (seq 0 8).

Lemma decipher_cipher k lr : decipher k (cipher k lr) = lr.
Proof.
  assert (forall i x, unfeistel k i (feistel k i x) = x) as H.
  { intros i [l r]. unfold unfeistel, feistel. cbn [fst snd]. by rewrite lxor_cancel_r. }
  unfold cipher, decipher. cbn [foldl foldr seq]. by rewrite !H.
Qed.

Lemma two_rounds_feistel k i lr : Nat.even i = true ->
  feistel k (S i) (feistel k i lr) = two_rounds k (Z.of_nat i) lr.
Proof.
  destruct lr as [l r]. intros Hi. unfold feistel, round_function, two_rounds.
  cbn [fst snd]. rewrite Nat.even_succ, <- Nat.negb_even, Hi. cbn [negb]. by rewrite Nat2Z.inj_succ.
Qed.

Lemma rounds_cipher k lr : for_up 4 (fun i => two_rounds k (2 * Z.of_nat i)) lr = cipher k lr.
Proof.
  unfold cipher. cbn [seq foldl]. rewrite !two_rounds_feistel by done. reflexivity.
Qed.

(** The octets of a block, and its two words. *)
Definition block (lr : Z * Z) : list Z := to_be 4 (fst lr) ++ to_be 4 (snd lr).
Definition two_words (l : list Z) : Z * Z := (be (take 4 l), be (drop 4 l)).

Lemma word32_be l : bytes (take 4 l) -> (4 <= length l)%nat -> word32 l = be (take 4 l).
Proof.
  destruct l as [|a [|b [|c [|d l]]]]; cbn [length]; try lia. intros H _. cbn [take] in H |- *. rewrite take_0 in *.
  apply Forall_cons in H as [Ha H]. apply Forall_cons in H as [Hb H]. apply Forall_cons in H as [Hc H].
  apply Forall_cons in H as [Hd _]. unfold word32. rd_simpl. cbn [be length].
  change (8 * Z.of_nat 3) with 24. change (8 * Z.of_nat 2) with 16. change (8 * Z.of_nat 1) with 8.
  change (8 * Z.of_nat 0) with 0. rewrite !Z.shiftl_mul_pow2 by done.
  unfold inw in *. rewrite u32_id; [|unfold inw]; lia.
Qed.

Lemma bytes32_be x : bytes32 x = to_be 4 x.
Proof.
  unfold bytes32. cbn [to_be]. rewrite !u8_mod, !shiftr_div by done.
  change (8 * Z.of_nat 3) with 24. change (8 * Z.of_nat 2) with 16. change (8 * Z.of_nat 1) with 8.
  change (8 * Z.of_nat 0) with 0. by rewrite Z.div_1_r.
Qed.

Lemma kasumi_eq k l : bytes l -> length l = 8%nat -> kasumi k l = block (cipher k (two_words l)).
Proof.
  intros Hl Ln. unfold kasumi. rewrite rounds_cipher.
  rewrite !word32_be by (try apply Forall_take; try apply Forall_drop; rewrite ?length_drop; done || lia).
  rewrite (take_ge (drop 4 l)) by (rewrite length_drop; lia). fold (two_words l).
  destruct (cipher k (two_words l)) as [x y]. unfold block. cbn [fst snd]. by rewrite !bytes32_be.
Qed.

Lemma length_kasumi k l : length (kasumi k l) = 8%nat.
Proof. unfold kasumi. by destruct (for_up _ _ _). Qed.

Lemma kasumi_bytes k l : bytes (kasumi k l).
Proof. unfold kasumi. destruct (for_up _ _ _). unfold bytes32. repeat constructor; apply u8_inw. Qed.

Lemma round_function_word k i x : inw 32 (round_function k i x).
Proof. unfold round_function, FO, FL. destruct (Nat.even i); apply u32_inw. Qed.

Lemma cipher_words k lr : inw 32 (fst lr) -> inw 32 (snd lr) -> inw 32 (fst (cipher k lr)) /\ inw 32 (snd (cipher k lr)).
Proof.
  unfold cipher. generalize (seq 0 8). intros l. revert lr. induction l as [|i l IH]; intros [a b] Ha Hb; [done|].
  cbn [foldl]. apply IH; cbn [fst snd feistel] in *; [|done]. auto using round_function_word with words.
Qed.

Lemma two_words_block lr : inw 32 (fst lr) -> inw 32 (snd lr) -> two_words (block lr) = lr.
Proof.
  destruct lr as [a b]. cbn [fst snd]. intros Ha Hb. unfold two_words, block. cbn [fst snd].
  rewrite take_app_length', drop_app_length' by (by rewrite length_to_be).
  by rewrite !be_to_be, !Z.mod_small.
Qed.

Lemma block_two_words l : bytes l -> length l = 8%nat -> block (two_words l) = l.
Proof.
  intros Hl Ln. unfold block, two_words. cbn [fst snd].
  rewrite !to_be_length; [by rewrite take_drop|by apply Forall_drop|by rewrite length_drop, Ln|by apply Forall_take|].
  rewrite length_take, Ln. done.
Qed.

Lemma two_words_inw l : bytes l -> length l = 8%nat -> inw 32 (fst (two_words l)) /\ inw 32 (snd (two_words l)).
Proof.
  intros Hl Ln. unfold two_words, inw. cbn [fst snd].
  pose proof (be_bound (take 4 l) (Forall_take _ _ _ Hl)) as H1. pose proof (be_bound (drop 4 l) (Forall_drop _ _ _ Hl)) as H2.
  rewrite length_take, Ln in H1. rewrite length_drop, Ln in H2. split; [exact H1|exact H2].
Qed.

(** KASUMI can be undone. *)
Lemma kasumi_invertible k l : bytes l -> length l = 8%nat -> block (decipher k (two_words (kasumi k l))) = l.
Proof.
  intros Hl Ln. destruct (two_words_inw l Hl Ln) as [H1 H2]. destruct (cipher_words k (two_words l) H1 H2) as [C1 C2].
  rewrite kasumi_eq, two_words_block, decipher_cipher by done. by apply block_two_words.
Qed.

(** ** f9 *)

Section ts35201.
Variable key : list Z.

(** A message of [len] bits as a number, and with the direction, a 1, and zeros up to a
    multiple of 64 bits. *)
Definition octet_count (len : Z) : nat := Z.to_nat ((len + 7) / 8).
Definition message (data : list Z) (len : Z) : Z :=
  be (take (octet_count len) data) / 2 ^ (8 * Z.of_nat (octet_count len) - len).
Definition padded_octets (len : Z) : Z := 8 * ((len + 65) / 64).
Definition padded (data : list Z) (len dir : Z) : Z :=
  (4 * message data len + 2 * (if decide (dir = 0) then 0 else 1) + 1) * 2 ^ (8 * padded_octets len - len - 2).

(** The blocks of 64 bits of a number of [n] octets. *)
Fixpoint chunks (n : nat) (l : list Z) : list (list Z) :=
  match n with O => [] | S n => take 8 l :: chunks n (drop 8 l) end.

Definition ts35201_f9 (count fresh dir : Z) (data : list Z) (len : Z) : list Z :=
  let k := kasumi_key_schedule key in
  let PS := to_be 4 count ++ to_be 4 fresh ++ to_be (Z.to_nat (padded_octets len)) (padded data len dir) in
  let '(_, B) := foldl (fun AB b => chain k b AB) (replicate 8 0, replicate 8 0) (chunks (length PS / 8) PS) in
  take 4 (kasumi (kasumi_key_schedule (map (fun b => b .^ 0xAA) key)) B).

End ts35201.

Lemma f9_blocks_eq k AB data len fuel : 0 <= len -> fuel = Z.to_nat (len / 64) -> (8 * fuel <= length data)%nat ->
  f9_blocks fuel k AB data len = Some (foldl (fun AB b => chain k b AB) AB (chunks fuel data), drop (8 * fuel) data, len mod 64).
Proof.
  revert AB data len. induction fuel as [|fuel IH]; intros AB data len Hl Hf Hd; cbn [f9_blocks chunks foldl].
  - rewrite decide_False by lia. do 2 f_equal. lia.
  - rewrite decide_True by lia. rewrite decide_True by lia. rewrite IH; [|lia|lia|rewrite length_drop; lia].
    rewrite drop_drop. do 2 f_equal; [f_equal|lia]. f_equal. lia.
Qed.

(** Octets that are combined with a block one by one. *)
Lemma whole_octets_eq A data n : length A = 8%nat -> (n <= 8)%nat -> (n <= length data)%nat ->
  whole_octets A data n = xor_bytes A (take n data ++ replicate (8 - n) 0).
Proof.
  intros La Hn Hd. unfold whole_octets. rewrite <- (take_drop n A) at 3.
  rewrite xor_bytes_app by (rewrite !length_take; lia). f_equal.
  assert (length (drop n A) = (8 - n)%nat) as <- by (rewrite length_drop; lia).
  clear. induction (drop n A) as [|x l IH]; [done|]. cbn [length replicate]. unfold xor_bytes in *. cbn [zip_with].
  by rewrite Z.lxor_0_r, <- IH.
Qed.

Lemma xor_at_eq A w n x : length A = length w -> xor_at (xor_bytes A w) n x = xor_bytes A (xor_at w n x).
Proof.
  unfold xor_at, xor_bytes. revert w n. induction A as [|a A IH]; intros [|b w] [|n] L; try done.
  - cbn. by rewrite Z.lxor_assoc.
  - cbn in *. f_equal. apply IH. lia.
Qed.

Lemma xor_at_app l x n r y : length l = n -> xor_at (l ++ x :: r) n y = l ++ (x .^ u8 y) :: r.
Proof. intros <-. unfold xor_at. by rewrite alter_app_r_alt, Nat.sub_diag. Qed.

(** The octet after the whole ones, before the final 1. *)
Definition last_octet (data : list Z) (dir len : Z) : Z :=
  let s := len mod 8 in
  if decide (s <> 0) then let x := rd data (len / 8) in u8 (if decide (dir <> 0) then x .| rd FinalBit s else x)
  else if decide (dir <> 0) then 0x80 else 0.
Definition tail (data : list Z) (dir len : Z) : list Z :=
  let q := Z.to_nat (len / 8) in
  let c := last_octet data dir len in
  take q data ++
  if decide (len mod 8 = 7) then c :: 0x80 :: replicate (Z.to_nat (padded_octets len) - q - 2) 0
  else (c .^ u8 (rd FinalBit (len mod 8 + 1))) :: replicate (Z.to_nat (padded_octets len) - q - 1) 0.

Lemma be_replicate n : be (replicate n 0) = 0.
Proof. induction n as [|n IH]; [done|]. cbn [replicate be]. by rewrite IH. Qed.

(** The last octet, with the direction and the final 1: all the cases of its bits. *)
Lemma last_bits s d : In s [1; 2; 3; 4; 5; 6] -> forall b, inw 8 b -> b mod 2 ^ (8 - s) = 0 ->
  u8 (if (d : bool) then b .| rd FinalBit s else b) .^ u8 (rd FinalBit (s + 1)) = b + ((if d then 2 else 0) + 1) * 2 ^ (6 - s).
Proof.
  intros Hs. cbn [In] in Hs. repeat destruct Hs as [<-|Hs]; [..|done]; destruct d; refine (bytes_forall _ _); vm_compute; reflexivity.
Qed.

Lemma last_bits7 (d : bool) : forall b, inw 8 b -> b mod 2 = 0 ->
  u8 (if d then b .| rd FinalBit 7 else b) = b + (if d then 1 else 0).
Proof. destruct d; refine (bytes_forall _ _); vm_compute; reflexivity. Qed.

(** The bits after the message are zeros. *)
Definition clean (data : list Z) (len : Z) : Prop :=
  be (take (octet_count len) data) mod 2 ^ (8 * Z.of_nat (octet_count len) - len) = 0.

Lemma split_last data q : (q < length data)%nat -> be (take (S q) data) = be (take q data) * 2 ^ 8 + rd data (Z.of_nat q).
Proof.
  intros H. destruct (lookup_lt_is_Some_2 data q H) as [x Hx]. rewrite (take_S_r _ _ _ Hx), be_app.
  rewrite (rd_lookup data (Z.of_nat q) x) by (by rewrite Nat2Z.id). cbn [be length]. change (8 * Z.of_nat 0) with 0. 
  change (8 * Z.of_nat 1) with 8. lia.
Qed.

Lemma be_zeros l n : be (l ++ replicate n 0) = be l * 2 ^ (8 * Z.of_nat n).
Proof. rewrite be_app, be_replicate, length_replicate. lia. Qed.

(** The octets before the zeros, as a number. *)
Definition significant (data : list Z) (dir len : Z) : list Z :=
  take (Z.to_nat (len / 8)) data ++
  if decide (len mod 8 = 7) then [last_octet data dir len; 0x80] else [last_octet data dir len .^ u8 (rd FinalBit (len mod 8 + 1))].

Lemma tail_significant data dir len : (Z.to_nat (len / 8) <= length data)%nat ->
  tail data dir len = significant data dir len ++ replicate (Z.to_nat (padded_octets len) - length (significant data dir len)) 0.
Proof.
  intros H. unfold tail, significant. cbv zeta. case_decide; rewrite length_app, length_take, Nat.min_l by done;
    cbn [length]; rewrite <- app_assoc; cbn [app]; f_equal.
  - do 3 f_equal. lia.
  - do 2 f_equal. lia.
Qed.

Lemma be_significant data dir len : bytes data -> 0 <= len -> (octet_count len <= length data)%nat -> clean data len ->
  be (significant data dir len) =
    (4 * message data len + 2 * (if decide (dir = 0) then 0 else 1) + 1) *
    2 ^ (if decide (len mod 8 = 7) then 7 else 6 - len mod 8).
Proof.
  intros Hb Hl Hc Hz. set (q := Z.to_nat (len / 8)). set (Q := be (take q data)). set (x := rd data (len / 8)).
  unfold significant, clean, message in *. fold q. rewrite be_app. fold Q.
  assert (inw 8 x) as Hx by (by apply rd_byte).
  assert (len mod 8 <> 0 -> octet_count len = S q /\ be (take (S q) data) = Q * 2 ^ 8 + x /\
    8 * Z.of_nat (S q) - len = 8 - len mod 8) as Hs.
  { intros Hs. assert (octet_count len = S q) as E.
    { unfold octet_count, q. replace ((len + 7) / 8) with (Z.succ (len / 8)) by lia. apply Z2Nat.inj_succ. lia. }
    split; [done|]. split; [|unfold q; lia].
    rewrite split_last by lia. unfold x, Q. do 2 f_equal. unfold q. lia. }
  assert (exists d : bool, (if d then 1 else 0) = (if decide (dir = 0) then 0 else 1) /\
    forall X (a b : X), (if decide (dir <> 0) then a else b) = (if d then a else b)) as (d & <- & Hd).
  { destruct (decide (dir = 0)) as [->|]; [by exists false|]. exists true. split; [done|]. intros. by rewrite decide_True. }
  unfold last_octet. fold x. rewrite !Hd. change (2 ^ 8) with 256 in *.
  destruct (decide (len mod 8 = 0)) as [E0|N0]; [|rewrite (decide_True (P := len mod 8 <> 0)) by done; specialize (Hs N0)].
  - rewrite E0. rewrite !decide_False by (congruence || lia). assert (octet_count len = q) as -> by (unfold octet_count, q; f_equal; lia).
    replace (8 * Z.of_nat q - len) with 0 by (unfold q; lia). fold Q. rewrite Z.pow_0_r, Z.div_1_r.
    destruct d; cbn [be length]; change (2 ^ (8 * Z.of_nat 1)) with 256; change (2 ^ (8 * Z.of_nat 0)) with 1.
    + change (128 .^ u8 (rd FinalBit (0 + 1))) with 192. lia.
    + change (0 .^ u8 (rd FinalBit (0 + 1))) with 64. lia.
  - destruct Hs as (Eo & Eb & Ew). rewrite Eo, Eb, Ew in *.
    destruct (decide (len mod 8 = 7)) as [E7|N7].
    + rewrite E7 in *. change (2 ^ (8 - 7)) with 2 in *. rewrite last_bits7 by (done || lia).
      cbn [be length]. change (2 ^ (8 * Z.of_nat 2)) with 65536. change (2 ^ (8 * Z.of_nat 1)) with 256.
      change (2 ^ (8 * Z.of_nat 0)) with 1. destruct d; lia.
    + set (s := len mod 8) in *. assert (In s [1; 2; 3; 4; 5; 6]) as Hin by (unfold s in *; cbn [In]; lia).
      assert (2 ^ (8 - s) = 4 * 2 ^ (6 - s) /\ 256 = 2 ^ s * 2 ^ (8 - s)) as [E1 E2].
      { cbn [In] in Hin. repeat destruct Hin as [<-|Hin]; [..|done]; split; reflexivity. }
      rewrite last_bits; [|done|done|].
      * cbn [be length]. change (2 ^ (8 * Z.of_nat 1)) with 256. change (2 ^ (8 * Z.of_nat 0)) with 1.
        pose proof (Z.div_mod (Q * 256 + x) (2 ^ (8 - s)) ltac:(lia)) as Em. rewrite Hz in Em. destruct d; nia.
      * rewrite E2, Z.mul_assoc in Hz. rewrite Z.add_comm, Z.mod_add in Hz by lia. exact Hz.
Qed.

Lemma be_tail data dir len : bytes data -> 0 <= len -> (octet_count len <= length data)%nat -> clean data len ->
  tail data dir len = to_be (Z.to_nat (padded_octets len)) (padded data len dir).
Proof.
  intros Hb Hl Hc Hz. assert (Z.to_nat (len / 8) <= length data)%nat as Hq by (unfold octet_count in Hc; lia).
  rewrite tail_significant by done.
  set (l := significant data dir len).
  assert (bytes l) as Hbl.
  { unfold l, significant. apply Forall_app_2; [by apply Forall_take|]. 
    assert (inw 8 (last_octet data dir len)) as Ho.
    { unfold last_octet. repeat case_decide; (apply u8_inw || by_decide). }
    case_decide; repeat (apply Forall_cons; split); try apply Forall_nil; auto with words. }
  assert (8 * Z.of_nat (length l) <= 8 * padded_octets len /\
    8 * padded_octets len - len - 2 = (if decide (len mod 8 = 7) then 7 else 6 - len mod 8) + 8 * (padded_octets len - Z.of_nat (length l))) as [L1 L2].
  { unfold l, significant. rewrite length_app, length_take, Nat.min_l by done. unfold padded_octets. case_decide; cbn [length]; lia. }
  rewrite <- (to_be_be (l ++ _)).
  - f_equal; [rewrite length_app, length_replicate; lia|].
    rewrite be_zeros. unfold l at 1. rewrite be_significant by (done || lia). unfold padded. rewrite L2, Z.pow_add_r, Z.mul_assoc.
    + do 3 f_equal. lia.
    + case_decide; lia.
    + lia.
  - apply Forall_app_2; [done|]. apply Forall_replicate. by_decide.
Qed.

Lemma length_tail data dir len : 0 <= len -> (octet_count len <= length data)%nat ->
  length (tail data dir len) = Z.to_nat (padded_octets len).
Proof.
  intros Hl Hc. unfold octet_count in Hc. unfold tail, padded_octets.
  rewrite length_app, length_take, Nat.min_l by lia. case_decide; cbn [length]; rewrite length_replicate; lia.
Qed.

#[local] Opaque kasumi.

Lemma chunk_one l : length l = 8%nat -> chunks 1 l = [l].
Proof. intros L. cbn [chunks]. rewrite take_ge by lia. done. Qed.

(** A block that starts with a 1. *)
Lemma xor_first A : length A = 8%nat -> xor_at A 0 0x80 = xor_bytes A (take 8 (0x80 :: replicate 7 0)).
Proof.
  intros L. do 8 (destruct A as [|? A]; [done|]). destruct A; [|done]. cbn. by rewrite !Z.lxor_0_r.
Qed.

(** The block that is built, before its final 1. *)
Lemma built A data n x : length A = 8%nat -> (n < 8)%nat -> (n <= length data)%nat ->
  xor_at (whole_octets A data n) n x = xor_bytes A (take n data ++ u8 x :: replicate (7 - n) 0).
Proof.
  intros La Hn Hd. rewrite whole_octets_eq by lia. replace (8 - n)%nat with (S (7 - n)) by lia. cbn [replicate].
  rewrite xor_at_eq; [|rewrite length_app, length_take; cbn [length]; rewrite length_replicate; lia].
  rewrite xor_at_app by (rewrite length_take; lia). done.
Qed.

Lemma f9_last_eq k AB data dir len : length (fst AB) = 8%nat -> 0 <= len < 64 -> (octet_count len <= length data)%nat ->
  f9_last k AB data dir len =
    Some (foldl (fun AB b => chain k b AB) AB (chunks (length (tail data dir len) / 8) (tail data dir len))).
Proof.
  intros La Hl Hc. destruct AB as [A B]. cbn [fst] in La. pose proof Hc as Hc'. unfold octet_count in Hc'.
  set (q := Z.to_nat (len / 8)).
  assert (q <= length data)%nat as Hq by (unfold q; lia). assert (q < 8)%nat as Hq8 by (unfold q; lia).
  rewrite length_tail by (done || lia). unfold f9_last. fold q. rewrite decide_True by done. cbn [fst snd].
  assert (exists i, (if decide (len mod 8 <> 0) then x ← data !! q; Some (if decide (dir <> 0) then x .| rd FinalBit (len mod 8) else x)
    else Some (if decide (dir <> 0) then 0x80 else 0)) = Some i /\ u8 i = last_octet data dir len) as (i & -> & Hi).
  { unfold last_octet. case_decide.
    - destruct (lookup_lt_is_Some_2 data q) as [x Hx]; [unfold q; lia|]. rewrite Hx. eexists. split; [done|].
      rewrite (rd_lookup data (len / 8) x Hx). done.
    - eexists. split; [done|]. by case_decide. }
  cbn [mbind option_bind]. rewrite built, Hi by done. unfold tail. fold q. set (c := last_octet data dir len).
  assert (length (take q data) = q) as Lq by (rewrite length_take; lia).
  destruct (decide (len mod 8 = 7)) as [E7|N7]; [destruct (decide (q = 7%nat)) as [Eq|Nq]|].
  - rewrite decide_True by (by rewrite Eq). assert (Z.to_nat (padded_octets len) = 16%nat) as -> by (unfold padded_octets, q in *; lia).
    rewrite Eq. cbn [Nat.div Nat.sub Nat.divmod fst]. rewrite Eq in Lq.
    change (16 - 7 - 2)%nat with 7%nat.
    assert (forall r, chunks 2 (take 7 data ++ c :: 0x80 :: r) = [take 7 data ++ [c]; take 8 (0x80 :: r)]) as ->.
    { intros r. cbn [chunks]. replace (take 7 data ++ c :: 128 :: r) with ((take 7 data ++ [c]) ++ 128 :: r) by (by rewrite <- app_assoc).
      rewrite take_app_length', drop_app_length' by (rewrite length_app, Lq; done). done. }
    change (replicate (7 - 7) 0) with (@nil Z). cbn [foldl]. unfold chain. cbn [fst snd].
    rewrite xor_first by apply length_kasumi. reflexivity.
  - rewrite decide_False by lia. assert (Z.to_nat (padded_octets len) = 8%nat) as -> by (unfold padded_octets, q in *; lia).
    change (8 / 8)%nat with 1%nat. rewrite chunk_one by (rewrite length_app; cbn [length]; rewrite length_replicate; lia).
    replace (7 - q)%nat with (S (8 - q - 2)) by lia. cbn [replicate].
    rewrite xor_at_eq by (rewrite length_app; cbn [length]; rewrite length_replicate; lia).
    replace (take q data ++ c :: 0 :: replicate (8 - q - 2) 0) with ((take q data ++ [c]) ++ 0 :: replicate (8 - q - 2) 0)
      by (by rewrite <- app_assoc).
    rewrite xor_at_app by (rewrite length_app; cbn [length]; lia). rewrite <- app_assoc. reflexivity.
  - rewrite decide_False by tauto. assert (Z.to_nat (padded_octets len) = 8%nat) as -> by (unfold padded_octets, q in *; lia).
    change (8 / 8)%nat with 1%nat. rewrite chunk_one by (rewrite length_app; cbn [length]; rewrite length_replicate; lia).
    replace (8 - q - 1)%nat with (7 - q)%nat by lia. replace (S q - 1)%nat with q by lia.
    rewrite xor_at_eq by (rewrite length_app; cbn [length]; rewrite length_replicate; lia).
    rewrite xor_at_app by lia. reflexivity.
Qed.

(** ** The blocks before the last *)

Lemma tail_split data dir len : 0 <= len -> (octet_count len <= length data)%nat ->
  let m := Z.to_nat (len / 64) in
  tail data dir len = take (8 * m) data ++ tail (drop (8 * m) data) dir (len mod 64).
Proof.
  intros Hl Hc m. unfold octet_count in Hc.
  assert (Z.to_nat (len / 8) = (8 * m + Z.to_nat (len mod 64 / 8))%nat) as Eq by (unfold m; lia).
  assert (len mod 64 mod 8 = len mod 8) as E8 by lia.
  assert (Z.to_nat (padded_octets len) = (8 * m + Z.to_nat (padded_octets (len mod 64)))%nat) as Ep by (unfold padded_octets, m; lia).
  assert (last_octet (drop (8 * m) data) dir (len mod 64) = last_octet data dir len) as El.
  { unfold last_octet. cbv zeta. rewrite E8. assert (rd (drop (8 * m) data) (len mod 64 / 8) = rd data (len / 8)) as ->; [|done].
    unfold rd. rewrite nth_skipn. f_equal. lia. }
  unfold tail. rewrite El, E8, Eq, Ep, <- (take_take_drop data (8 * m)), <- !app_assoc.
  do 2 f_equal. set (q := Z.to_nat (len mod 64 / 8)). set (n := Z.to_nat (padded_octets (len mod 64))).
  by replace (8 * m + n - (8 * m + q))%nat with (n - q)%nat by lia.
Qed.

Lemma chunks_app n k l r : length l = (8 * n)%nat -> chunks (n + k) (l ++ r) = chunks n l ++ chunks k r.
Proof.
  revert l. induction n as [|n IH]; intros l L; [by destruct l|]. cbn [chunks Nat.add app].
  rewrite take_app_le, drop_app_le by lia. rewrite IH by (rewrite length_drop; lia). done.
Qed.

Lemma chunks_take n l : chunks n (take (8 * n) l) = chunks n l.
Proof.
  revert l. induction n as [|n IH]; intros l; [done|]. cbn [chunks].
  rewrite take_take, skipn_firstn_comm, Nat.min_l by lia. replace (8 * S n - 8)%nat with (8 * n)%nat by lia. by rewrite IH.
Qed.

Lemma xor_zeros n l : length l = n -> xor_bytes (replicate n 0) l = l.
Proof. intros <-. unfold xor_bytes. induction l as [|x l IH]; [done|]. cbn. by rewrite IH. Qed.

Lemma ModKey_eq key m : bytes key -> length key = 16%nat -> inw 8 m -> ModKey key m = map (fun b => b .^ m) key.
Proof.
  intros Hk L Hm. unfold ModKey. rewrite take_ge by lia. apply map_ext_in. intros b Hb. apply u8_id, inw_lxor; [done| |done].
  rewrite Forall_forall in Hk. apply Hk. by apply list_elem_of_In.
Qed.

Lemma f9_start_eq count fresh : f9_start count fresh = to_be 4 count ++ to_be 4 fresh.
Proof. rewrite <- !bytes32_be. unfold f9_start, bytes32. cbn. by rewrite !Z.shiftr_0_r. Qed.

Lemma chain_length k b AB : length (fst (chain k b AB)) = 8%nat.
Proof. apply length_kasumi. Qed.

Lemma chain_fold_length k l AB : length (fst AB) = 8%nat -> length (fst (foldl (fun AB b => chain k b AB) AB l)) = 8%nat.
Proof. revert AB. induction l as [|b l IH]; intros AB H; [done|]. cbn [foldl]. apply IH, chain_length. Qed.

(** [kasumi_f9] is the function f9 of TS 35.201, for every message whose last octet has no bits
    after the message. *)
Theorem f9_ts35201 key count fresh dir data len :
  bytes key -> length key = 16%nat -> bytes data -> 0 <= len -> (octet_count len <= length data)%nat -> clean data len ->
  kasumi_f9 key count fresh dir data len = Some (ts35201_f9 key count fresh dir data len).
Proof.
  intros Hk Lk Hb Hl Hc Hz. unfold kasumi_f9, ts35201_f9. cbv zeta. set (k := kasumi_key_schedule key).
  rewrite f9_start_eq. set (start := to_be 4 count ++ to_be 4 fresh). set (m := Z.to_nat (len / 64)).
  assert (length start = 8%nat) as Ls by (unfold start; by rewrite length_app, !length_to_be).
  unfold octet_count in Hc.
  rewrite f9_blocks_eq by (done || lia). cbn [mbind option_bind].
  fold m. set (AB1 := foldl (fun AB b => chain k b AB) _ (chunks m data)).
  rewrite f9_last_eq; [|apply chain_fold_length, length_kasumi|lia|rewrite length_drop; unfold octet_count; lia].
  cbn [mbind option_bind]. rewrite app_assoc. fold start. rewrite <- be_tail by (done || unfold octet_count; lia).
  pose proof (tail_split data dir len Hl ltac:(unfold octet_count; lia)) as Et. cbn zeta in Et. rewrite Et.
  set (T := tail (drop _ data) dir (len mod 64)) in *.
  assert (exists n, length T = (8 * n)%nat) as [n Ln].
  { unfold T. rewrite length_tail by (rewrite ?length_drop; unfold octet_count; lia).
    exists (Z.to_nat ((len mod 64 + 65) / 64)). unfold padded_octets. lia. }
  rewrite Ln. replace (8 * n / 8)%nat with n by (rewrite Nat.mul_comm, Nat.div_mul; lia).
  rewrite !length_app, Ls, length_take, Nat.min_l, Ln by lia. fold m.
  replace ((8 + (8 * m + 8 * n)) / 8)%nat with (1 + (m + n))%nat
    by (rewrite <- (Nat.div_mul (1 + (m + n)) 8) by done; f_equal; lia).
  rewrite (chunks_app 1), (chunks_app m), chunks_take, chunk_one by (rewrite ?length_take; lia).
  rewrite !foldl_app. cbn [foldl]. unfold chain at 4. cbn [fst snd]. rewrite !xor_zeros by (done || apply length_kasumi).
  fold AB1. destruct (foldl _ AB1 (chunks n T)) as [A B]. cbn [mbind option_bind].
  by rewrite ModKey_eq.
Qed.

(** ** f8 *)

(** KSB_(n+1) = KASUMI[A xor BLKCNT xor KSB_n], from the block [i] on. *)
Fixpoint keystream (k : subkeys) (A prev : list Z) (i : Z) (n : nat) : list Z :=
  match n with
  | O => []
  | S n => let b := kasumi k (xor_bytes (xor_bytes prev A) (to_be 8 i)) in b ++ keystream k A b (i + 1) n
  end.

Definition ts35201_f8_keystream (key : list Z) (count bearer dir len : Z) : list Z :=
  let A := kasumi (kasumi_key_schedule (map (fun b => b .^ 0x55) key)) (to_be 4 count ++ [bearer * 8 + dir * 4; 0; 0; 0]) in
  keystream (kasumi_key_schedule key) A (replicate 8 0) 0 (Z.to_nat ((len + 63) / 64)).

Lemma length_kasumi_keystream k A prev i n : length (keystream k A prev i n) = (8 * n)%nat.
Proof. revert prev i. induction n as [|n IH]; intros; [done|]. cbn [keystream]. rewrite length_app, length_kasumi, IH. lia. Qed.

Lemma kasumi_keystream_bytes k A prev i n : bytes (keystream k A prev i n).
Proof.
  revert prev i. induction n as [|n IH]; intros; [constructor|]. cbn [keystream].
  apply Forall_app_2; [apply kasumi_bytes|apply IH].
Qed.

Lemma block_count_be i : inw 16 i -> block_count i = to_be 8 i.
Proof.
  intros Hi. rewrite (to_be_small 2 8) by (done || lia). unfold block_count. cbn [to_be replicate app Nat.sub].
  rewrite !u8_mod, shiftr_div by done. change (8 * Z.of_nat 1) with 8. change (8 * Z.of_nat 0) with 0. by rewrite Z.div_1_r.
Qed.

Lemma f8_loop_eq k A temp i pre data len fuel : fuel = Z.to_nat ((len + 63) / 64) -> 0 <= i ->
  i + Z.of_nat fuel <= 2 ^ 16 -> (octet_count len <= length data)%nat ->
  f8_loop fuel k A temp i pre data len =
    Some (Z.of_nat (length pre + octet_count len),
          pre ++ xor_bytes (take (octet_count len) data) (keystream k A temp i fuel) ++ drop (octet_count len) data).
Proof.
  revert temp i pre data len. induction fuel as [|fuel IH]; intros temp i pre data len Hf Hi Hw Hd; cbn [f8_loop].
  - rewrite decide_False by lia. assert (octet_count len = O) as -> by (unfold octet_count; lia).
    cbn [take drop xor_bytes zip_with app]. do 2 f_equal. lia.
  - rewrite decide_True by lia. cbn [keystream]. rewrite block_count_be by (unfold inw; lia).
    set (b := kasumi k _). pose proof (length_kasumi k (xor_bytes (xor_bytes temp A) (to_be 8 i))) as Lb. fold b in Lb.
    set (n := if decide (len >= 64) then 8%nat else Z.to_nat ((len + 7) / 8)).
    assert (octet_count len = (n + octet_count (len - 64))%nat /\ (n <= 8)%nat /\ (n < 8 -> octet_count (len - 64) = 0)%nat)
      as (En & Hn & H0) by (unfold octet_count, n in *; case_decide; lia).
    rewrite En in *. rewrite decide_True by lia. destruct (decide (fuel = O)) as [->|Hne].
    + assert (octet_count (len - 64) = O) as E0 by (unfold octet_count; lia). rewrite E0, Nat.add_0_r.
      cbn [f8_loop keystream]. rewrite decide_False by lia. rewrite app_nil_r, app_assoc. do 2 f_equal.
      rewrite length_app, length_xor_bytes, length_take, Lb. lia.
    + assert (n = 8%nat) as E8 by (unfold n; rewrite decide_True; lia).
      rewrite u16_id by (unfold inw; lia). rewrite IH; [|lia|lia|lia|rewrite length_drop; lia].
      rewrite length_app, length_xor_bytes, length_take, Lb, Nat.min_l by lia.
      rewrite drop_drop, <- (take_take_drop data n), xor_bytes_app by (rewrite length_take, Lb; lia).
      rewrite <- !app_assoc. do 2 f_equal. lia.
Qed.

(** The bit [i] of a string of octets, the first bit being the most significant one. *)
Definition bit (l : list Z) (i : Z) : bool := Z.testbit (rd l (i / 8)) (7 - i mod 8).

Lemma rd_xor_bytes l ks i : (length l <= length ks)%nat -> 0 <= i < Z.of_nat (length l) ->
  rd (xor_bytes l ks) i = rd l i .^ rd ks i.
Proof.
  intros Hl Hi. destruct (lookup_lt_is_Some_2 l (Z.to_nat i)) as [x Hx]; [lia|].
  destruct (lookup_lt_is_Some_2 ks (Z.to_nat i)) as [y Hy]; [lia|].
  rewrite (rd_lookup l i x), (rd_lookup ks i y) by done. apply rd_lookup. unfold xor_bytes.
  apply lookup_zip_with_Some. eauto.
Qed.

Lemma rd_alter (f : Z -> Z) p l i : (p < length l)%nat -> 0 <= i ->
  rd (alter f p l) i = if decide (i = Z.of_nat p) then f (rd l i) else rd l i.
Proof.
  intros Hp Hi. destruct (lookup_lt_is_Some_2 l p Hp) as [x Hx]. case_decide as D.
  - subst. apply rd_lookup. rewrite Nat2Z.id, list_lookup_alter_eq, Hx.
    by rewrite (rd_lookup l (Z.of_nat p) x) by (by rewrite Nat2Z.id).
  - unfold rd. rewrite !nth_lookup, list_lookup_alter_ne by lia. done.
Qed.

Lemma forall_ranges (P : Z -> Z -> Prop) a n b m : Forall (fun x => Forall (P x) (seqZ b m)) (seqZ a n) ->
  forall x y, a <= x < a + n -> b <= y < b + m -> P x y.
Proof.
  intros H x y Hx Hy. rewrite Forall_forall in H. specialize (H x). rewrite Forall_forall in H.
  apply H; apply elem_of_seqZ; lia.
Qed.

(** The mask keeps the first [8 - n] bits of an octet. *)
Lemma mask_bits n x j : 1 <= n <= 7 -> 0 <= j < 8 ->
  Z.testbit (u8 (x .& (256 - (1 << n)))) (7 - j) = (j <? 8 - n) && Z.testbit x (7 - j).
Proof.
  intros Hn Hj. unfold u8. rewrite !Z.land_spec.
  assert (Z.testbit (256 - (1 << n)) (7 - j) = (j <? 8 - n) /\ Z.testbit 255 (7 - j) = true) as [-> ->].
  2:{ by rewrite andb_true_r, andb_comm. }
  apply (forall_ranges (fun n j => Z.testbit (256 - (1 << n)) (7 - j) = (j <? 8 - n) /\ Z.testbit 255 (7 - j) = true)
    1 7 0 8); [by_decide|lia|lia].
Qed.

Lemma f8_modifier_eq count bearer dir : inw 5 bearer -> 0 <= dir < 2 ->
  f8_modifier count bearer dir = to_be 4 count ++ [bearer * 8 + dir * 4; 0; 0; 0].
Proof.
  intros Hb Hd. rewrite <- bytes32_be. unfold f8_modifier, bytes32. cbn [app].
  assert (u8 (bearer << 3) .| u8 (dir << 2) = bearer * 8 + dir * 4) as ->; [|done].
  apply (forall_ranges (fun b d => u8 (b << 3) .| u8 (d << 2) = b * 8 + d * 4) 0 32 0 2); [by_decide|unfold inw in Hb; lia|lia].
Qed.

(** A buffer whose first [n] octets are combined with a key stream. *)
Lemma xored_prefix n data ks : bytes data -> bytes ks -> (n <= length data)%nat -> (n <= length ks)%nat ->
  let l := xor_bytes (take n data) ks ++ drop n data in
  length l = length data /\ bytes l /\ drop n l = drop n data /\
  forall j, 0 <= j < Z.of_nat n -> rd l j = rd data j .^ rd ks j.
Proof.
  intros Hd Hk Ln Lk l.
  assert (length (xor_bytes (take n data) ks) = n) as Lx by (rewrite length_xor_bytes, length_take; lia).
  split; [unfold l; rewrite length_app, Lx, length_drop; lia|]. split.
  { apply Forall_app_2; [apply xor_bytes_bytes; [by apply Forall_take|done]|by apply Forall_drop]. }
  split; [unfold l; by rewrite drop_app_length'|].
  intros j Hj. unfold l. rewrite rd_app_l by lia. rewrite rd_xor_bytes by (rewrite ?length_take; lia).
  f_equal. rewrite <- (take_drop n data) at 2. rewrite rd_app_l; [done|rewrite length_take; lia].
Qed.

Lemma alter_255 l p : bytes l -> alter (fun b => u8 (b .& 255)) p l = l.
Proof.
  intros H. revert p. induction H as [|x l Hx _ IH]; intros [|p]; [done|done| |]; cbn [alter list_alter]; f_equal; [|apply IH].
  change (x .& 255) with (u8 x). by rewrite !u8_id by (rewrite ?u8_id by done; done).
Qed.

(** [kasumi_f8] is the function f8 of TS 35.201 on the bits of the message, and clears the rest
    of its last octet, in every buffer that has an octet more than a message of whole octets;
    without that octet, the buffer is left. *)
Theorem f8_ts35201 key count bearer dir data len :
  bytes key -> length key = 16%nat -> inw 5 bearer -> 0 <= dir < 2 -> bytes data ->
  0 <= len <= 2 ^ 22 -> (octet_count len <= length data)%nat ->
  if decide (len mod 8 = 0 /\ length data = octet_count len)
  then kasumi_f8 key count bearer dir data len = None
  else exists out, kasumi_f8 key count bearer dir data len = Some out /\ length out = length data /\
    drop (octet_count len) out = drop (octet_count len) data /\
    forall i, 0 <= i < 8 * Z.of_nat (octet_count len) ->
      bit out i = (i <? len) && xorb (bit data i) (bit (ts35201_f8_keystream key count bearer dir len) i).
Proof.
  intros Hk Lk Hbr Hdir Hb Hl Hc. unfold kasumi_f8, ts35201_f8_keystream. cbv zeta.
  rewrite f8_modifier_eq, ModKey_eq by done. set (A := kasumi _ (_ ++ _)). set (k := kasumi_key_schedule key).
  rewrite f8_loop_eq by (done || lia). cbn [mbind option_bind length app]. rewrite Nat.add_0_l.
  set (ks := keystream _ _ _ _ _). set (nb := octet_count len) in *.
  assert (nb <= length ks)%nat as Hks by (unfold ks, nb; rewrite length_kasumi_keystream; unfold octet_count; lia).
  pose proof (xored_prefix nb data ks Hb (kasumi_keystream_bytes _ _ _ _ _) Hc Hks) as (Lb & Bb & Db & Rb).
  set (base := xor_bytes (take nb data) ks ++ drop nb data) in *.
  assert (Z.rem (8 - Z.rem len 8) 8 = if decide (len mod 8 = 0) then 0 else 8 - len mod 8) as ->.
  { rewrite (Z.rem_mod_nonneg len) by lia. case_decide as D; [by rewrite D|]. rewrite Z.rem_mod_nonneg by lia. lia. }
  destruct (decide (len mod 8 = 0)) as [E0|N0].
  - rewrite (decide_False (P := 0 <> 0)) by (intros H; by apply H). change (256 - (1 << 0)) with 255. unfold mask_octet. rewrite Lb.
    case_decide as D.
    { rewrite decide_False by lia. reflexivity. }
    rewrite decide_True by lia.
    eexists. split; [reflexivity|]. rewrite alter_255 by done.
    split; [done|]. split; [done|]. intros i Hi. unfold bit. rewrite Rb by lia.
    rewrite Z.lxor_spec. assert ((i <? len) = true) as ->; [|done]. unfold nb, octet_count in Hi. lia.
  - rewrite (decide_False (P := len mod 8 = 0 /\ _)) by tauto. rewrite decide_True by lia.
    unfold mask_octet. rewrite Lb, decide_True by (unfold nb, octet_count in *; lia).
    eexists. split; [reflexivity|].
    split; [by rewrite length_alter|]. split; [rewrite drop_alter, decide_False by (unfold nb, octet_count; lia); exact Db|].
    intros i Hi. unfold bit. rewrite rd_alter by (rewrite ?Lb; unfold nb, octet_count in *; lia).
    case_decide as D.
    + rewrite mask_bits by lia. rewrite Rb, Z.lxor_spec by lia. f_equal. unfold nb, octet_count in *. lia.
    + rewrite Rb, Z.lxor_spec by lia. assert ((i <? len) = true) as ->; [|done]. unfold nb, octet_count in *. lia.
Qed.

End KasumiSpec.
