(* ===== verification/Alloc.v ===== *)
(** The contract of the fixed-size allocators of [lib/core/include]: what
    [core_pool.h] and [core_index.h] promise to the components that keep their
    objects in a pool.  The free nodes form a queue: allocation takes the first
    one, release appends. *)

From S2P Require Import Prelude.

Class Allocator (P A : Type) `{Countable A} := {
  alloc : P -> option A * P;
  release : P -> A -> P;
  (** what is observed: the free nodes, in order, and all the nodes *)
  frees : P -> list A;
  nodes : P -> list A;
  alloc_ok : P -> Prop;
  frees_nodes : forall p, alloc_ok p -> NoDup (nodes p) /\ NoDup (frees p) /\ frees p ⊆ nodes p;
  alloc_none : forall p, alloc_ok p -> frees p = [] -> alloc p = (None, p);
  alloc_some : forall p x q, alloc_ok p -> frees p = x :: q ->
    exists p', alloc p = (Some x, p') /\ alloc_ok p' /\ frees p' = q /\ nodes p' = nodes p;
  release_used : forall p x, alloc_ok p -> x ∈ nodes p -> x ∉ frees p ->
    alloc_ok (release p x) /\ frees (release p x) = frees p ++ [x] /\
    nodes (release p x) = nodes p
}.

(** A node is in use when it is a node of the pool that is not free. *)
Definition used `{Allocator P A} (p : P) (x : A) : Prop := x ∈ nodes p /\ x ∉ frees p.

#[export] Instance used_dec `{Allocator P A} (p : P) (x : A) : Decision (used p x).
Proof. unfold used. apply _. Defined.

Section allocator.
Context `{Allocator P A}.

(** Allocation gives a node that was not in use, and only changes its status. *)
Lemma alloc_used p x p' :
  alloc_ok p -> alloc p = (Some x, p') ->
  alloc_ok p' /\ ~ used p x /\ forall y, used p' y <-> y = x \/ used p y.
Proof.
  intros Hok Ha. destruct (frees p) as [|x' q] eqn:Hf.
  { rewrite alloc_none in Ha; [done|done|done]. }
  destruct (alloc_some p x' q Hok Hf) as (p'' & Ha' & Hok' & Hf' & Hn').
  rewrite Ha' in Ha. injection Ha as -> ->.
  destruct (frees_nodes p Hok) as (Hn & Hnd & Hsub). rewrite Hf in Hnd, Hsub.
  apply NoDup_cons in Hnd as [Hx _].
  split_and!; [done| |].
  - unfold used. rewrite Hf. intros [_ []]. by left.
  - intros y. unfold used. rewrite Hf, Hf', Hn'. rewrite not_elem_of_cons.
    destruct (decide (y = x)) as [->|]; [|tauto].
    split; [by left|]. intros _. split; [|done]. apply Hsub. by left.
Qed.

Lemma alloc_nodes p x p' : alloc_ok p -> alloc p = (Some x, p') -> nodes p' = nodes p.
Proof.
  intros Hok Ha. destruct (frees p) as [|x' q] eqn:Hf; [by rewrite alloc_none in Ha|].
  destruct (alloc_some p x' q Hok Hf) as (p'' & Ha' & _ & _ & Hn'). congruence.
Qed.

Lemma release_nodes p x : alloc_ok p -> used p x -> nodes (release p x) = nodes p.
Proof. intros Hok [Hn Hf]. by destruct (release_used p x Hok Hn Hf) as (_ & _ & ?). Qed.

(** Release of a node in use makes it free, and only changes its status. *)
Lemma release_unused p x :
  alloc_ok p -> used p x ->
  alloc_ok (release p x) /\ forall y, used (release p x) y <-> y <> x /\ used p y.
Proof.
  intros Hok [Hn Hf]. destruct (release_used p x Hok Hn Hf) as (Hok' & Hf' & Hn').
  split; [done|]. intros y. unfold used. rewrite Hf', Hn'.
  rewrite not_elem_of_app, list_elem_of_singleton. tauto.
Qed.

Lemma alloc_fails p p' : alloc_ok p -> alloc p = (None, p') -> p' = p /\ frees p = [].
Proof.
  intros Hok Ha. destruct (frees p) as [|x q] eqn:Hf.
  - rewrite (alloc_none p Hok Hf) in Ha. by injection Ha.
  - destruct (alloc_some p x q Hok Hf) as (p'' & Ha' & _). congruence.
Qed.
End allocator.
