(* ===== verification/DList.v ===== *)
(** [lib/core/include/core_list.h]: intrusive doubly linked lists.  The memory of
    the nodes is a map from addresses to their two pointers; a list head is the
    pair of pointers to the first and the last node. *)

From S2P Require Import Prelude.

Module DList.

(** [ln_t]; the same structure serves as [list_t], with [next] the first node and
    [prev] the last one. *)
Record ln_t := mkLn { prev : option nat; next : option nat }.
#[export] Instance ln_t_eq_dec : EqDecision ln_t.
Proof. solve_decision. Defined.
Abbreviation memory := (gmap nat ln_t).

Definition node (st : memory) (x : nat) : ln_t := default (mkLn None None) (st !! x).
Definition set_prev (st : memory) (x : nat) (p : option nat) : memory :=
  <[x := mkLn p (next (node st x))]> st.
Definition set_next (st : memory) (x : nat) (n : option nat) : memory :=
  <[x := mkLn (prev (node st x)) n]> st.

Definition list_init : ln_t := mkLn None None.
Definition list_first (h : ln_t) : option nat := next h.
Definition list_last (h : ln_t) : option nat := prev h.
Definition list_next (st : memory) (x : nat) : option nat := next (node st x).
Definition list_prev (st : memory) (x : nat) : option nat := prev (node st x).
Definition list_is_empty (h : ln_t) : bool := bool_decide (next h = None).

Definition list_prepend (st : memory) (h : ln_t) (x : nat) : memory * ln_t :=
  let st := set_prev st x None in
  let st := set_next st x (next h) in
  match next h with
  | Some f => (set_prev st f (Some x), mkLn (prev h) (Some x))
  | None => (st, mkLn (Some x) (Some x))
  end.

Definition list_append (st : memory) (h : ln_t) (x : nat) : memory * ln_t :=
  let st := set_prev st x (prev h) in
  let st := set_next st x None in
  match prev h with
  | Some l => (set_next st l (Some x), mkLn (Some x) (next h))
  | None => (st, mkLn (Some x) (Some x))
  end.

Definition list_insert_prev (st : memory) (h : ln_t) (y x : nat) : memory * ln_t :=
  let st := set_prev st x (prev (node st y)) in
  let st := set_next st x (Some y) in
  let '(st, h) :=
    match prev (node st y) with
    | Some p => (set_next st p (Some x), h)
    | None => (st, mkLn (prev h) (Some x))
    end in
  (set_prev st y (Some x), h).

Definition list_insert_next (st : memory) (h : ln_t) (y x : nat) : memory * ln_t :=
  let st := set_prev st x (Some y) in
  let st := set_next st x (next (node st y)) in
  let '(st, h) :=
    match next (node st y) with
    | Some n => (set_prev st n (Some x), h)
    | None => (st, mkLn (Some x) (next h))
    end in
  (set_next st y (Some x), h).

(** Taking [_iter] out of its list. *)
Definition unlink (st : memory) (h : ln_t) (x : nat) : memory * ln_t :=
  let '(st, h) :=
    match prev (node st x) with
    | Some p => (set_next st p (next (node st x)), h)
    | None => (st, mkLn (prev h) (next (node st x)))
    end in
  match next (node st x) with
  | Some n => (set_prev st n (prev (node st x)), h)
  | None => (st, mkLn (prev (node st x)) (next h))
  end.

(** The loop of [list_remove] from [_iter]; [None] when [fuel] turns are not
    enough, which happens for a cycle only. *)
Fixpoint remove_from (fuel : nat) (st : memory) (h : ln_t) (x : nat) (iter : option nat)
  : option (memory * ln_t) :=
  match iter with
  | None => Some (st, h)
  | Some i =>
      match fuel with
      | O => None
      | S fuel =>
          if decide (i = x) then Some (unlink st h x)
          else remove_from fuel st h x (next (node st i))
      end
  end.
Definition list_remove (fuel : nat) (st : memory) (h : ln_t) (x : nat) : option (memory * ln_t) :=
  remove_from fuel st h x (next h).

(** [list_insert_sorted] with a comparison function that says whether the new
    node is before another. *)
Fixpoint insert_from (fuel : nat) (before : nat -> nat -> bool) (st : memory) (h : ln_t) (x : nat)
    (iter : option nat) : option (memory * ln_t) :=
  match iter with
  | None => Some (list_append st h x)
  | Some i =>
      match fuel with
      | O => None
      | S fuel =>
          if before x i then Some (list_insert_prev st h i x)
          else insert_from fuel before st h x (next (node st i))
      end
  end.
Definition list_insert_sorted (fuel : nat) (before : nat -> nat -> bool) (st : memory) (h : ln_t)
    (x : nat) : option (memory * ln_t) :=
  insert_from fuel before st h x (next h).

(** ** Segments *)

(** The first node of [l], or [n]; the last one, or [p]. *)
Definition fst_of (l : list nat) (n : option nat) : option nat :=
  match l with [] => n | x :: _ => Some x end.
Fixpoint lst_of (p : option nat) (l : list nat) : option nat :=
  match l with [] => p | x :: l => lst_of (Some x) l end.

(** The nodes [l] are linked in order, between [p] and [n]. *)
Fixpoint seg (st : memory) (p : option nat) (l : list nat) (n : option nat) : Prop :=
  match l with
  | [] => True
  | x :: l => node st x = mkLn p (fst_of l n) /\ seg st (Some x) l n
  end.

Definition dlist (st : memory) (h : ln_t) (l : list nat) : Prop :=
  h = mkLn (lst_of None l) (fst_of l None) /\ seg st None l None /\ NoDup l.

Lemma node_insert st x v : node (<[x := v]> st) x = v.
Proof. unfold node. by rewrite lookup_insert_eq. Qed.
Lemma node_insert_ne st x y v : x <> y -> node (<[x := v]> st) y = node st y.
Proof. intros. unfold node. by rewrite lookup_insert_ne. Qed.

Lemma fst_of_app l l' n : fst_of (l ++ l') n = fst_of l (fst_of l' n).
Proof. by destruct l. Qed.
Lemma lst_of_app p l l' : lst_of p (l ++ l') = lst_of (lst_of p l) l'.
Proof. revert p. induction l; intros; simpl; auto. Qed.
Lemma lst_of_snoc p l x : lst_of p (l ++ [x]) = Some x.
Proof. by rewrite lst_of_app. Qed.

Lemma seg_app st p l l' n :
  seg st p (l ++ l') n <-> seg st p l (fst_of l' n) /\ seg st (lst_of p l) l' n.
Proof.
  revert p. induction l as [|x l IH]; intros p; simpl; [tauto|].
  rewrite IH, fst_of_app. tauto.
Qed.

(** Segments only depend on their nodes. *)
Lemma seg_frame st st' p l n :
  (forall x, x ∈ l -> node st' x = node st x) -> seg st p l n -> seg st' p l n.
Proof.
  revert p. induction l as [|x l IH]; intros p Hf; [done|]. intros [Hx Hl].
  split; [rewrite Hf by (by left); done|]. apply IH; [|done]. intros. apply Hf. by right.
Qed.

Lemma seg_insert st p l n x v : x ∉ l -> seg st p l n -> seg (<[x := v]> st) p l n.
Proof.
  intros Hx. apply seg_frame. intros y Hy. apply node_insert_ne. by intros ->.
Qed.

(** Writing the [next] of the last node, or the [prev] of the first one. *)
Lemma seg_set_next st p l x n n' :
  x ∉ l -> seg st p (l ++ [x]) n -> seg (set_next st x n') p (l ++ [x]) n'.
Proof.
  intros Hx. rewrite !seg_app. intros [H1 [H2 _]]. split; [by apply seg_insert|].
  split; [|done]. unfold set_next. by rewrite node_insert, H2.
Qed.
Lemma seg_set_prev st p l x n p' :
  x ∉ l -> seg st p (x :: l) n -> seg (set_prev st x p') p' (x :: l) n.
Proof.
  intros Hx [H1 H2]. split; [unfold set_prev; by rewrite node_insert, H1|]. by apply seg_insert.
Qed.

(** A list is empty or ends with a node. *)
Lemma snoc_cases (l : list nat) : l = [] \/ exists l' x, l = l' ++ [x].
Proof. destruct l as [|x l _] using rev_ind; eauto. Qed.

(** Nothing outside [l] changed. *)
Definition only (l : list nat) (st st' : memory) : Prop := forall y, y ∉ l -> st' !! y = st !! y.

Lemma only_refl l st : only l st st.
Proof. by intros y. Qed.
Lemma only_insert l st st' x v : only l st st' -> x ∈ l -> only l st (<[x := v]> st').
Proof. intros H Hx y Hy. rewrite lookup_insert_ne by (by intros ->). by apply H. Qed.
Lemma only_node l st st' y : only l st st' -> y ∉ l -> node st' y = node st y.
Proof. intros H Hy. unfold node. by rewrite H. Qed.
Lemma only_mono l l' st st' : (forall x, x ∈ l -> x ∈ l') -> only l st st' -> only l' st st'.
Proof. intros Hl H y Hy. apply H. auto. Qed.
Ltac mem_tac := by (repeat first [rewrite elem_of_app | rewrite elem_of_cons]); auto 10.
Ltac only_tac :=
  unfold set_prev, set_next; repeat (apply only_insert; [|mem_tac]); try apply only_refl.

(** ** Operations *)

(** Linking a new node between two segments. *)
Lemma seg_link st p l1 x l2 n :
  seg st p l1 (Some x) -> node st x = mkLn (lst_of p l1) (fst_of l2 n) ->
  seg st (Some x) l2 n -> seg st p (l1 ++ x :: l2) n.
Proof. intros H1 Hx H2. apply seg_app. by split. Qed.

Lemma append_spec st h l x :
  dlist st h l -> x ∉ l ->
  let '(st', h') := list_append st h x in
  dlist st' h' (l ++ [x]) /\ only (x :: l) st st'.
Proof.
  intros (-> & Hs & Hnd) Hx. unfold list_append. cbn [prev next].
  assert (NoDup (l ++ [x])) as Hnd'.
  { apply NoDup_app. split_and!; [done| |apply NoDup_singleton].
    intros y Hy ->%list_elem_of_singleton. done. }
  destruct (snoc_cases l) as [->|(l' & z & ->)].
  - cbn [lst_of]. split; [|only_tac]. split_and!; try done. split; [|done].
    unfold set_next, set_prev. by rewrite !node_insert.
  - rewrite lst_of_snoc. split; [|only_tac].
    assert (z ∉ l') as Hz by (apply NoDup_app in Hnd as (_ & Hd & _); intros Hz; by apply (Hd z Hz), list_elem_of_singleton).
    assert (z <> x) by (intros ->; apply Hx, elem_of_app; right; by left).
    split_and!; [by rewrite !lst_of_app, !fst_of_app; destruct l'| |done].
    apply seg_app. split; [|split; [|done]].
    + apply seg_set_next with (n := None); [done|]. unfold set_next, set_prev. by apply seg_insert, seg_insert.
    + rewrite lst_of_snoc. unfold set_next, set_prev. rewrite node_insert_ne by done. by rewrite !node_insert.
Qed.

(** Inserting a node into a list without duplicates. *)
Lemma NoDup_middle (l1 l2 : list nat) x :
  NoDup (l1 ++ l2) -> x ∉ l1 ++ l2 -> NoDup (l1 ++ x :: l2).
Proof.
  intros Hnd Hx. rewrite <- Permutation_middle. by apply NoDup_cons.
Qed.

Lemma NoDup_parts (l1 l2 : list nat) x :
  NoDup (l1 ++ x :: l2) ->
  (x ∉ l1) /\ (x ∉ l2) /\ NoDup l1 /\ NoDup l2 /\ NoDup (l1 ++ l2) /\ forall y, y ∈ l1 -> y ∉ l2.
Proof.
  intros H. rewrite <- Permutation_middle in H. apply NoDup_cons in H as [Hx H].
  rewrite not_elem_of_app in Hx. pose proof H as H'. apply NoDup_app in H' as (H1 & Hd & H2).
  by destruct Hx; split_and!.
Qed.

(** The part of an operation that makes the node before [x], or the head, point to
    [x]. *)
Lemma seg_relink st l1 z n n' :
  NoDup (l1 ++ [z]) -> seg st None (l1 ++ [z]) n -> seg (set_next st z n') None (l1 ++ [z]) n'.
Proof.
  intros Hnd. apply seg_set_next. by destruct (NoDup_parts _ _ _ Hnd).
Qed.

Lemma insert_prev_spec st h l1 y l2 x :
  dlist st h (l1 ++ y :: l2) -> x ∉ l1 ++ y :: l2 ->
  let '(st', h') := list_insert_prev st h y x in
  dlist st' h' (l1 ++ x :: y :: l2) /\ only (x :: l1 ++ y :: l2) st st'.
Proof.
  intros (-> & Hs & Hnd) Hx. pose proof (NoDup_middle l1 (y :: l2) x Hnd Hx) as Hnd'.
  unfold list_insert_prev. rewrite not_elem_of_app, not_elem_of_cons in Hx.
  destruct Hx as (Hx1 & Hxy & Hx2). destruct (NoDup_parts _ _ _ Hnd) as (Hy1 & Hy2 & _ & _ & _ & Hd).
  apply seg_app in Hs as [Hs1 [Hy Hs2]]. cbn [fst_of] in Hs1.
  set (st1 := set_next (set_prev st x _) x (Some y)).
  assert (node st1 y = mkLn (lst_of None l1) (fst_of l2 None)) as E
    by (unfold st1, set_next, set_prev; by rewrite !node_insert_ne).
  assert (node st1 x = mkLn (lst_of None l1) (Some y)) as Ex
    by (unfold st1, set_next, set_prev; rewrite !node_insert; simpl; by rewrite Hy).
  assert (seg st1 None l1 (Some y)) as Hs1' by (unfold st1, set_next, set_prev; by apply seg_insert, seg_insert).
  assert (seg st1 (Some y) l2 None) as Hs2' by (unfold st1, set_next, set_prev; by apply seg_insert, seg_insert).
  assert (only (x :: l1 ++ y :: l2) st st1) as Ho by only_tac.
  rewrite E. cbn [prev next]. clearbody st1. clear Hy Hs1 Hs2.
  destruct (snoc_cases l1) as [->|(l1' & z & ->)].
  - cbn [lst_of app] in *. split; [|apply only_insert; [done|mem_tac]].
    unfold set_prev. split_and!; [done| |done]. rewrite E. cbn [next seg fst_of].
    rewrite node_insert_ne, node_insert by done. split_and!; try done. by apply seg_insert.
  - rewrite lst_of_snoc in *.
    assert (z ∈ l1' ++ [z]) by (apply elem_of_app; right; by left).
    assert (z <> x /\ z <> y) as [Hzx Hzy] by (split; intros ->; done).
    split; [|unfold set_prev, set_next; repeat (apply only_insert; [|mem_tac]); exact Ho].
    split_and!; [by rewrite !lst_of_app, !fst_of_app; destruct l1'| |done].
    apply seg_link; [|unfold set_prev, set_next; rewrite !node_insert_ne by done; by rewrite lst_of_snoc|].
    + unfold set_prev. apply seg_insert; [done|]. apply seg_relink with (n := Some y); [|done].
      by apply NoDup_app in Hnd as [Hnd _].
    + unfold set_prev. split.
      * rewrite node_insert. unfold set_next. by rewrite node_insert_ne, E.
      * apply seg_insert; [done|]. apply seg_insert; [|done]. by apply Hd.
Qed.

Lemma unlink_spec st h l1 x l2 :
  dlist st h (l1 ++ x :: l2) ->
  let '(st', h') := unlink st h x in
  dlist st' h' (l1 ++ l2) /\ only (l1 ++ l2) st st'.
Proof.
  intros (-> & Hs & Hnd). destruct (NoDup_parts _ _ _ Hnd) as (Hx1 & Hx2 & Hn1 & Hn2 & Hnd' & Hd).
  apply seg_app in Hs as [Hs1 [Hx Hs2]]. cbn [fst_of] in Hs1.
  unfold unlink. rewrite Hx. cbn [prev next].
  (* the node before *)
  assert (exists st1, match lst_of None l1 with
    | Some p => (set_next st p (fst_of l2 None), mkLn (lst_of None (l1 ++ x :: l2)) (fst_of (l1 ++ x :: l2) None))
    | None => (st, mkLn (lst_of None (l1 ++ x :: l2)) (fst_of l2 None))
    end = (st1, mkLn (lst_of None (l1 ++ x :: l2)) (fst_of (l1 ++ l2) None)) /\
    seg st1 None l1 (fst_of l2 None) /\ seg st1 (Some x) l2 None /\ node st1 x = node st x /\
    only (l1 ++ l2) st st1) as (st1 & -> & H1 & H2 & Hx' & Ho).
  { destruct (snoc_cases l1) as [->|(l1' & z & ->)].
    - exists st. by split_and!.
    - assert (z ∈ l1' ++ [z]) as Hz by (apply elem_of_app; right; by left).
      rewrite lst_of_snoc. eexists. split_and!; [by destruct l1'| | | |].
      + by apply seg_relink with (n := Some x).
      + apply seg_insert; [by apply Hd|done].
      + apply node_insert_ne. by intros ->.
      + unfold set_next. apply only_insert; [done|mem_tac]. }
  rewrite Hx', Hx. cbn [prev next]. destruct l2 as [|y l2].
  - cbn [fst_of]. rewrite app_nil_r in *. split; [|done]. by split_and!.
  - cbn [fst_of]. destruct (NoDup_parts _ _ _ Hnd') as (Hy1 & Hy2 & _).
    split; [|unfold set_prev; apply only_insert; [done|mem_tac]].
    split_and!; [by rewrite !lst_of_app| |done]. apply seg_app. split.
    + by apply seg_insert.
    + by apply (seg_set_prev _ (Some x)).
Qed.

Lemma filter_ne_id (l : list nat) x : x ∉ l -> filter (.≠ x) l = l.
Proof.
  induction l as [|z l IH]; [done|]. rewrite filter_cons, not_elem_of_cons. intros [??].
  by rewrite decide_True, IH by done.
Qed.

Lemma remove_from_spec fuel st h l1 l2 x :
  dlist st h (l1 ++ l2) -> x ∉ l1 -> (List.length l2 <= fuel)%nat ->
  exists st' h', remove_from fuel st h x (fst_of l2 None) = Some (st', h') /\
    dlist st' h' (filter (.≠ x) (l1 ++ l2)) /\ only (filter (.≠ x) (l1 ++ l2)) st st'.
Proof.
  revert fuel l1. induction l2 as [|y l2 IH]; intros fuel l1 Hl Hx Hf.
  - exists st, h. assert (filter (.≠ x) (l1 ++ []) = l1) as ->.
    { rewrite app_nil_r. by apply filter_ne_id. }
    rewrite app_nil_r in Hl. split_and!; [by destruct fuel|done|apply only_refl].
  - simpl in Hf. destruct fuel as [|fuel]; [lia|]. cbn [fst_of remove_from]. case_decide as Hy.
    + subst y. pose proof Hl as (_ & _ & Hnd). destruct (NoDup_parts _ _ _ Hnd) as (_ & Hx2 & _).
      assert (filter (.≠ x) (l1 ++ x :: l2) = l1 ++ l2) as ->.
      { by rewrite filter_app, filter_cons, decide_False, !filter_ne_id by auto. }
      pose proof (unlink_spec st h l1 x l2 Hl) as Hu. destruct (unlink st h x) as [st' h'].
      by exists st', h'.
    + assert (node st y = mkLn (lst_of None l1) (fst_of l2 None)) as ->.
      { destruct Hl as (_ & Hs & _). apply seg_app in Hs as [_ [Hy' _]]. done. }
      cbn [next]. rewrite (cons_middle y l1 l2), (assoc_L (++)) in *. apply IH; [done| |lia].
      rewrite not_elem_of_app, list_elem_of_singleton. split; [done|congruence].
Qed.

Lemma remove_spec fuel st h l x :
  dlist st h l -> (List.length l <= fuel)%nat ->
  exists st' h', list_remove fuel st h x = Some (st', h') /\
    dlist st' h' (filter (.≠ x) l) /\ only (filter (.≠ x) l) st st'.
Proof.
  intros Hl Hf. unfold list_remove. assert (next h = fst_of l None) as -> by by destruct Hl as [-> _].
  apply (remove_from_spec fuel st h [] l x); [done|by apply not_elem_of_nil|done].
Qed.

(** The position of a new node in a sorted list. *)
Fixpoint insert_before (before : nat -> nat -> bool) (x : nat) (l : list nat) : list nat :=
  match l with
  | [] => [x]
  | y :: l => if before x y then x :: y :: l else y :: insert_before before x l
  end.

Lemma insert_from_spec fuel before st h l1 l2 x :
  dlist st h (l1 ++ l2) -> x ∉ l1 ++ l2 -> (List.length l2 <= fuel)%nat ->
  exists st' h', insert_from fuel before st h x (fst_of l2 None) = Some (st', h') /\
    dlist st' h' (l1 ++ insert_before before x l2) /\ only (x :: l1 ++ l2) st st'.
Proof.
  revert fuel l1. induction l2 as [|y l2 IH]; intros fuel l1 Hl Hx Hf.
  - pose proof (append_spec st h _ x Hl Hx) as Ha. rewrite app_nil_r in *. cbn [fst_of insert_before].
    destruct (list_append st h x) as [st' h'] eqn:E. exists st', h'.
    split; [destruct fuel; cbn [insert_from]; by rewrite E|]. done.
  - simpl in Hf. destruct fuel as [|fuel]; [lia|]. cbn [fst_of insert_from insert_before].
    destruct (before x y).
    + pose proof (insert_prev_spec st h l1 y l2 x Hl Hx) as Hi.
      destruct (list_insert_prev st h y x) as [st' h']. by exists st', h'.
    + assert (node st y = mkLn (lst_of None l1) (fst_of l2 None)) as ->.
      { destruct Hl as (_ & Hs & _). apply seg_app in Hs as [_ [Hy' _]]. done. }
      cbn [next]. rewrite (cons_middle y l1 l2), (assoc_L (++)) in Hl, Hx.
      destruct (IH fuel (l1 ++ [y]) Hl Hx ltac:(lia)) as (st' & h' & E & Hd & Ho).
      exists st', h'. rewrite <- !(assoc_L (++)) in *. by split_and!.
Qed.

Lemma insert_sorted_spec fuel before st h l x :
  dlist st h l -> x ∉ l -> (List.length l <= fuel)%nat ->
  exists st' h', list_insert_sorted fuel before st h x = Some (st', h') /\
    dlist st' h' (insert_before before x l) /\ only (x :: l) st st'.
Proof.
  intros Hl Hx Hf. unfold list_insert_sorted.
  assert (next h = fst_of l None) as -> by by destruct Hl as [-> _].
  by apply (insert_from_spec fuel before st h [] l x).
Qed.

Lemma insert_before_Permutation before x l : insert_before before x l ≡ₚ x :: l.
Proof.
  induction l as [|y l IH]; [done|]. simpl. destruct (before x y); [done|]. by rewrite IH, Permutation_swap.
Qed.

Lemma prepend_spec st h l x :
  dlist st h l -> x ∉ l ->
  let '(st', h') := list_prepend st h x in
  dlist st' h' (x :: l) /\ only (x :: l) st st'.
Proof.
  intros Hl Hx. destruct l as [|y l].
  - assert (list_prepend st h x = list_append st h x) as ->.
    { destruct Hl as (-> & _). unfold list_prepend, list_append. cbn [prev next fst_of lst_of].
      f_equal. }
    by apply (append_spec st h []).
  - assert (list_prepend st h x = list_insert_prev st h y x) as ->.
    { destruct Hl as (-> & [Hy _] & _). unfold list_prepend, list_insert_prev. cbn [prev next fst_of].
      apply not_elem_of_cons in Hx as [Hxy _]. rewrite Hy. cbn [prev].
      assert (node (set_next (set_prev st x None) x (Some y)) y = node st y) as ->
        by (unfold set_next, set_prev; by rewrite !node_insert_ne).
      by rewrite Hy. }
    by apply (insert_prev_spec st h [] y l).
Qed.

Lemma insert_next_spec st h l1 y l2 x :
  dlist st h (l1 ++ y :: l2) -> x ∉ l1 ++ y :: l2 ->
  let '(st', h') := list_insert_next st h y x in
  dlist st' h' (l1 ++ y :: x :: l2) /\ only (x :: l1 ++ y :: l2) st st'.
Proof.
  intros Hl Hx. pose proof Hl as (Hh & Hs & Hnd).
  apply seg_app in Hs as [_ [Hy Hs2]].
  assert (x <> y) as Hxy by (intros ->; apply Hx, elem_of_app; right; by left).
  assert (node (set_next (set_prev st x (Some y)) x (fst_of l2 None)) y = node st y) as Ey
    by (unfold set_next, set_prev; by rewrite !node_insert_ne).
  assert (node (set_prev st x (Some y)) y = node st y) as Ey0
    by (unfold set_prev; by rewrite node_insert_ne).
  destruct l2 as [|n l2].
  - assert (list_insert_next st h y x = list_append st h x) as ->.
    { unfold list_insert_next, list_append. rewrite Hh, lst_of_app. cbn [prev next fst_of lst_of] in *.
      rewrite Ey0, Hy. cbn [next]. by rewrite Ey, Hy. }
    pose proof (append_spec st h _ x Hl Hx) as Ha. by rewrite <- (assoc_L (++)) in Ha.
  - destruct Hs2 as [Hn _]. cbn [fst_of] in *.
    assert (y <> n) as Hyn by (intros ->; by destruct (NoDup_parts _ _ _ Hnd) as (_ & [? _]%not_elem_of_cons & _)).
    assert (x <> n) as Hxn by (intros ->; apply Hx, elem_of_app; right; right; by left).
    assert (list_insert_next st h y x = list_insert_prev st h n x) as ->.
    { unfold list_insert_next, list_insert_prev. rewrite Ey0, Hy, Hn.
      cbn [prev next]. rewrite Ey, Hy.
      assert (node (set_next (set_prev st x (Some y)) x (Some n)) n = node st n) as En
        by (unfold set_next, set_prev; by rewrite !node_insert_ne).
      rewrite En, Hn. cbn [prev next]. f_equal. set (st1 := set_next _ x _) in *.
      unfold set_prev, set_next. rewrite !node_insert_ne by done. by apply insert_insert_ne. }
    rewrite (cons_middle y l1), (assoc_L (++)) in Hl, Hx.
    pose proof (insert_prev_spec st h (l1 ++ [y]) n l2 x Hl Hx) as Hi.
    by rewrite <- !(assoc_L (++)) in Hi.
Qed.

(** A list survives writes to other nodes. *)
Lemma dlist_frame st st' h l l' :
  dlist st h l -> only l' st st' -> (forall x, x ∈ l -> x ∉ l') -> dlist st' h l.
Proof.
  intros (Hh & Hs & Hnd) Ho Hd. split_and!; [done| |done]. apply (seg_frame st); [|done].
  intros x Hx. by eapply only_node, Hd.
Qed.

(** On a well-linked list every operation of the list macros does what its name
    says to the sequence of nodes, keeps the list well linked in both directions
    with its head right, and only writes to nodes of the list and the one added. *)
Theorem list_macros_refine fuel before st h l x :
  dlist st h l -> x ∉ l -> (List.length l <= fuel)%nat ->
  (let '(st', h') := list_prepend st h x in dlist st' h' (x :: l) /\ only (x :: l) st st') /\
  (let '(st', h') := list_append st h x in dlist st' h' (l ++ [x]) /\ only (x :: l) st st') /\
  (forall l1 y l2, l = l1 ++ y :: l2 ->
    (let '(st', h') := list_insert_prev st h y x in dlist st' h' (l1 ++ x :: y :: l2) /\ only (x :: l) st st') /\
    (let '(st', h') := list_insert_next st h y x in dlist st' h' (l1 ++ y :: x :: l2) /\ only (x :: l) st st')) /\
  (exists st' h', list_insert_sorted fuel before st h x = Some (st', h') /\
    dlist st' h' (insert_before before x l) /\ only (x :: l) st st') /\
  (forall y, exists st' h', list_remove fuel st h y = Some (st', h') /\
    dlist st' h' (filter (.≠ y) l) /\ only (filter (.≠ y) l) st st').
Proof.
  intros Hl Hx Hf. split_and!.
  - by apply prepend_spec.
  - by apply append_spec.
  - intros l1 y l2 ->. split; [by apply insert_prev_spec|by apply insert_next_spec].
  - by apply insert_sorted_spec.
  - intros y. by apply remove_spec.
Qed.

Lemma list_macros_refine_witness :
  let h := mkLn (Some 5%nat) (Some 3%nat) in
  let st : memory := {[3%nat := mkLn None (Some 5%nat); 5%nat := mkLn (Some 3%nat) None]} in
  dlist st h [3; 5]%nat /\
  let '(st', h') := list_prepend st h 4 in dlist st' h' [4; 3; 5]%nat /\ only [4; 3; 5]%nat st st'.
Proof.
  intros h st. assert (dlist st h [3; 5]%nat) as Hl.
  { split_and!; [done|by split_and!|by_decide]. }
  split; [done|].
  apply (list_macros_refine 2 (fun _ _ => true) st h [3; 5]%nat 4); [done|by_decide|done].
Defined.

End DList.
