(* ===== verification/Pool.v ===== *)
(** [lib/core/include/core_pool.h] and [core_index.h]: pools of a fixed number
    of nodes kept in a circular array of free nodes. *)

From S2P Require Import Prelude Alloc.

(** ** Circular arrays *)

Lemma mod_add_inj (h i j n : nat) :
  (i < n)%nat -> (j < n)%nat -> ((h + i) mod n = (h + j) mod n)%nat -> i = j.
Proof.
  intros Hi Hj E.
  pose proof (Nat.div_mod_eq (h + i) n) as E1. pose proof (Nat.div_mod_eq (h + j) n) as E2.
  rewrite E in E1.
  assert (((h + i) / n = (h + j) / n)%nat \/ (h + i) / n < (h + j) / n \/ (h + j) / n < (h + i) / n)%nat
    as [Hq|[Hq|Hq]] by lia; nia.
Qed.

Section ring.
Context {A : Type}.

(** [ring n h q l]: the array [l] of [n] cells holds the queue [q] from
    position [h] on, wrapping around. *)
Definition ring (n h : nat) (q : list A) (l : list (option A)) : Prop :=
  length l = n /\ (h < n)%nat /\ (length q <= n)%nat /\
  forall i x, q !! i = Some x -> l !! ((h + i) mod n)%nat = Some (Some x).

Lemma ring_head n h x q l : ring n h (x :: q) l -> l !! h = Some (Some x).
Proof.
  intros (_ & Hh & _ & Hq). specialize (Hq 0%nat x eq_refl).
  by rewrite Nat.add_0_r, Nat.mod_small in Hq.
Qed.

Lemma ring_pop n h x q l l' :
  ring n h (x :: q) l -> (forall i, i <> h -> l' !! i = l !! i) -> length l' = n ->
  ring n ((h + 1) mod n) q l'.
Proof.
  intros (Hl & Hh & Hn & Hq) Hl' Hlen. simpl in Hn. split_and!; [done| |lia|].
  - apply Nat.mod_upper_bound. lia.
  - intros i y Hi. apply lookup_lt_Some in Hi as Hlt. specialize (Hq (S i) y Hi).
    rewrite Nat.Div0.add_mod_idemp_l, <- Nat.add_assoc.
    rewrite Hl'; [done|]. intros E.
    assert ((h + (1 + i)) mod n = (h + 0) mod n)%nat as E'
      by (rewrite E, Nat.add_0_r, Nat.mod_small; done).
    apply mod_add_inj in E'; lia.
Qed.

Lemma ring_push n h q l x :
  ring n h q l -> (length q < n)%nat ->
  ring n h (q ++ [x]) (<[((h + length q) mod n)%nat := Some x]> l).
Proof.
  intros (Hl & Hh & Hn & Hq) Hlt. split_and!; [by rewrite length_insert|done| |].
  - rewrite length_app. simpl. lia.
  - intros i y Hi. apply lookup_app_Some in Hi as [Hi|[Hge Hi]].
    + apply lookup_lt_Some in Hi as Hi'. rewrite list_lookup_insert_ne; [by apply Hq|].
      intros E. apply mod_add_inj in E; lia.
    + apply list_lookup_singleton_Some in Hi as [Hi ->].
      replace i with (length q) by lia. apply list_lookup_insert_eq.
      rewrite Hl. apply Nat.mod_upper_bound. lia.
Qed.

Lemma ring_init (ns : list A) : (0 < length ns)%nat -> ring (length ns) 0 ns (Some <$> ns).
Proof.
  intros Hn. split_and!; [by rewrite length_fmap|done|done|].
  intros i x Hi. apply lookup_lt_Some in Hi as Hlt.
  rewrite Nat.add_0_l, Nat.mod_small by done. by rewrite list_lookup_fmap, Hi.
Qed.
End ring.

Lemma ring_omap {A} (f : nat -> option A) (q : list A) n :
  (forall i, (i < n)%nat -> f i = q !! i) -> n = length q -> omap f (seq 0 n) = q.
Proof.
  intros Hf ->. assert (forall k, (k <= length q)%nat ->
    omap f (seq 0 k) = take k q) as H.
  { induction k as [|k IH]; intros Hk; [done|].
    destruct (lookup_lt_is_Some_2 q k) as [x Hx]; [lia|].
    rewrite seq_S, omap_app, IH, (take_S_r _ _ _ Hx) by lia. simpl.
    by rewrite Hf, Hx by lia. }
  rewrite H by done. by apply take_ge.
Qed.

Lemma NoDup_length_lt {A} (l k : list A) x :
  NoDup l -> l ⊆ k -> x ∈ k -> x ∉ l -> (length l < length k)%nat.
Proof.
  intros Hnd Hsub Hk Hl.
  assert (NoDup (x :: l)) as H by (by constructor).
  apply (submseteq_length (x :: l) k), NoDup_submseteq; [done|].
  intros y Hy. apply elem_of_cons in Hy as [->|]; auto.
Qed.

(** ** [core_pool.h] *)

Module Pool.
Section pool.
Context {A : Type} `{Countable A}.

(** The nodes [pool[]] are identified by values of [A]; the array of pointers
    [free[]] holds [None] for [NULL]. *)
Record pool := mkPool {
  head : nat; tail : nat; size : nat; avail : nat;
  free : list (option A); nodes : list A
}.

Definition pool_init (ns : list A) : pool :=
  mkPool 0 0 (length ns) (length ns) (Some <$> ns) ns.

Definition pool_alloc_node (p : pool) : option A * pool :=
  if decide (0 < avail p)%nat then
    (mjoin (free p !! head p),
     mkPool ((head p + 1) mod size p) (tail p) (size p) (avail p - 1)
            (<[head p := None]> (free p)) (nodes p))
  else (None, p).

Definition pool_free_node (p : pool) (x : A) : pool :=
  if decide (avail p < size p)%nat then
    mkPool (head p) ((tail p + 1) mod size p) (size p) (avail p + 1)
           (<[tail p := Some x]> (free p)) (nodes p)
  else p.

Definition pool_used (p : pool) : nat := (size p - avail p)%nat.

(** The free nodes, in the order they will be allocated. *)
Definition queue (p : pool) : list A :=
  omap (fun i => mjoin (free p !! ((head p + i) mod size p)%nat)) (seq 0 (avail p)).

(** The representation invariant: the free nodes [q] are a ring of the array. *)
Definition repr (p : pool) (q : list A) : Prop :=
  ring (size p) (head p) q (free p) /\ avail p = length q /\
  tail p = ((head p + avail p) mod size p)%nat.

Lemma repr_init ns : (0 < length ns)%nat -> repr (pool_init ns) ns.
Proof. intros Hn. split_and!; [by apply ring_init|done|]. simpl. by rewrite Nat.Div0.mod_same. Qed.

Lemma repr_alloc_empty p : repr p [] -> pool_alloc_node p = (None, p).
Proof. intros (_ & Ha & _). unfold pool_alloc_node. rewrite decide_False; [done|]. simpl in Ha. lia. Qed.

Lemma repr_alloc p x q :
  repr p (x :: q) -> exists p', pool_alloc_node p = (Some x, p') /\ repr p' q /\ size p' = size p.
Proof.
  intros (Hr & Ha & Ht). unfold pool_alloc_node. simpl in Ha. rewrite decide_True by lia.
  rewrite (ring_head _ _ _ _ _ Hr). simpl. eexists. split_and!; [done| |done].
  split_and!; simpl.
  - eapply ring_pop; [done| |by rewrite length_insert; apply Hr].
    intros i Hi. by rewrite list_lookup_insert_ne.
  - lia.
  - rewrite Ht, Ha, Nat.Div0.add_mod_idemp_l. f_equal. lia.
Qed.

Lemma repr_free p q x :
  repr p q -> (length q < size p)%nat ->
  repr (pool_free_node p x) (q ++ [x]) /\ size (pool_free_node p x) = size p.
Proof.
  intros (Hr & Ha & Ht) Hlt. unfold pool_free_node. rewrite decide_True by lia.
  split; [|done]. split_and!; simpl.
  - rewrite Ht, Ha. by apply ring_push.
  - rewrite length_app. simpl. lia.
  - rewrite Ht, Nat.Div0.add_mod_idemp_l. f_equal. lia.
Qed.

Lemma repr_free_full p q x : repr p q -> length q = size p -> pool_free_node p x = p.
Proof. intros (Hr & Ha & Ht) Hlt. unfold pool_free_node. rewrite decide_False by lia. done. Qed.

Lemma repr_queue p q : repr p q -> queue p = q.
Proof.
  intros ((_ & _ & _ & Hq) & Ha & _). unfold queue. rewrite Ha.
  apply ring_omap; [|done]. intros k Hk.
  destruct (lookup_lt_is_Some_2 q k Hk) as [x Hx]. by rewrite Hx, (Hq k x Hx).
Qed.

Lemma repr_inj p q q' : repr p q -> repr p q' -> q = q'.
Proof. intros H1 H2. by rewrite <- (repr_queue p q), <- (repr_queue p q'). Qed.

(** The invariant: the free nodes are distinct nodes of the pool. *)
Definition pool_ok (p : pool) : Prop :=
  repr p (queue p) /\ size p = length (nodes p) /\ NoDup (nodes p) /\
  NoDup (queue p) /\ queue p ⊆ nodes p.

Lemma pool_ok_init ns : (0 < length ns)%nat -> NoDup ns -> pool_ok (pool_init ns).
Proof.
  intros Hn Hnd. unfold pool_ok. pose proof (repr_init ns Hn) as Hr.
  by rewrite (repr_queue _ _ Hr).
Qed.

Lemma pool_alloc_ok p x q :
  pool_ok p -> queue p = x :: q ->
  exists p', pool_alloc_node p = (Some x, p') /\ pool_ok p' /\ queue p' = q /\ nodes p' = nodes p.
Proof.
  intros (Hr & Hs & Hn & Hnd & Hsub) Hq. rewrite Hq in *.
  destruct (repr_alloc p x q Hr) as (p' & Ha & Hr' & Hs').
  assert (nodes p' = nodes p) as Hn'.
  { unfold pool_alloc_node in Ha. case_decide; injection Ha as _ <-; done. }
  apply NoDup_cons in Hnd as [_ Hnd].
  exists p'. unfold pool_ok. rewrite (repr_queue _ _ Hr'), Hs', Hn'.
  split_and!; try done. intros y Hy. apply Hsub. by right.
Qed.

Lemma pool_free_ok p x :
  pool_ok p -> x ∈ nodes p -> x ∉ queue p ->
  pool_ok (pool_free_node p x) /\ queue (pool_free_node p x) = queue p ++ [x] /\
  nodes (pool_free_node p x) = nodes p.
Proof.
  intros (Hr & Hs & Hn & Hnd & Hsub) Hx Hxq.
  assert (length (queue p) < size p)%nat as Hlt.
  { rewrite Hs. apply (NoDup_length_lt (queue p) (nodes p) x); done. }
  destruct (repr_free p (queue p) x Hr Hlt) as [Hr' Hs'].
  assert (nodes (pool_free_node p x) = nodes p) as Hn'
    by (unfold pool_free_node; by case_decide).
  unfold pool_ok. rewrite (repr_queue _ _ Hr'), Hs', Hn'. split_and!; try done.
  - apply NoDup_app. split_and!; [done| |apply NoDup_singleton].
    intros y Hy. rewrite list_elem_of_singleton. by intros ->.
  - intros y. rewrite elem_of_app, list_elem_of_singleton. intros [Hy| ->]; auto.
Qed.

#[export] Program Instance pool_allocator : Allocator pool A := {|
  alloc := pool_alloc_node;
  release := pool_free_node;
  frees := queue;
  Alloc.nodes := nodes;
  alloc_ok := pool_ok
|}.
Next Obligation. intros p (? & ? & ? & ? & ?). done. Qed.
Next Obligation. intros p (Hr & _) Hq. rewrite Hq in Hr. by apply repr_alloc_empty. Qed.
Next Obligation. apply pool_alloc_ok. Qed.
Next Obligation. apply pool_free_ok. Qed.
End pool.
Arguments pool : clear implicits.
End Pool.

(** ** [core_index.h] *)

Module Index.
Section index.
(** The nodes, of a type [N] with an [index] field; [blank i] is the node
    [memset] to 0 with [index] set to [i]. *)
Context {N : Type} (index : N -> nat) (blank : nat -> N).

(** A pointer [&node_pool[i]] is the position [i]. *)
Record indexp := mkIndexp {
  head : nat; tail : nat; size : nat; avail : nat;
  is_free : list bool; free_pool : list nat; node_pool : list N
}.

(** [ns] is what the node array holds before the call, all its fields but
    [index]. *)
Definition index_init (n : nat) (set_index : nat -> N -> N) (ns : list N) : indexp :=
  mkIndexp 0 0 n n (replicate n true) (seq 0 n) (imap (fun i x => set_index (S i) x) ns).

Definition index_alloc (p : indexp) : option nat * indexp :=
  if decide (0 < avail p)%nat then
    let ptr := nth (head p) (free_pool p) 0%nat in
    let idx := default 0%nat (index <$> (node_pool p !! ptr)) in
    (Some ptr,
     mkIndexp ((head p + 1) mod size p) (tail p) (size p) (avail p - 1)
       (<[(idx - 1)%nat := false]> (is_free p)) (free_pool p)
       (<[ptr := blank idx]> (node_pool p)))
  else (None, p).

Definition index_free (p : indexp) (ptr : nat) : indexp :=
  if decide (avail p < size p)%nat then
    let idx := default 0%nat (index <$> (node_pool p !! ptr)) in
    if decide (is_free p !! (idx - 1)%nat = Some false) then
      mkIndexp (head p) ((tail p + 1) mod size p) (size p) (avail p + 1)
        (<[(idx - 1)%nat := true]> (is_free p)) (<[tail p := ptr]> (free_pool p)) (node_pool p)
    else p
  else p.

(** [index_find]: the pointer for an index, unchecked as in the source. *)
Definition index_find (p : indexp) (i : nat) : nat := (i - 1)%nat.

(** The client stores [x] in the node at [ptr]. *)
Definition set_node (p : indexp) (ptr : nat) (x : N) : indexp :=
  mkIndexp (head p) (tail p) (size p) (avail p) (is_free p) (free_pool p)
           (<[ptr := x]> (node_pool p)).

Definition queue (p : indexp) : list nat :=
  map (fun i => nth ((head p + i) mod size p) (free_pool p) 0%nat) (seq 0 (avail p)).

Hypothesis index_blank : forall i, index (blank i) = i.

(** The invariant: the free nodes form a ring of distinct positions, each node
    carries its own index, and [is_free] tells which ones are free. *)
Definition index_ok (p : indexp) : Prop :=
  ring (size p) (head p) (queue p) (Some <$> free_pool p) /\
  tail p = ((head p + avail p) mod size p)%nat /\
  NoDup (queue p) /\ length (is_free p) = size p /\ length (node_pool p) = size p /\
  (forall i x, node_pool p !! i = Some x -> index x = S i) /\
  (forall i, is_free p !! i = Some true <-> i ∈ queue p).

Lemma length_queue p : length (queue p) = avail p.
Proof. unfold queue. by rewrite length_map, length_seq. Qed.

(** The queue a representation determines. *)
Lemma queue_unique p q :
  ring (size p) (head p) q (Some <$> free_pool p) -> length q = avail p -> queue p = q.
Proof.
  intros (Hl & Hh & Hn & Hq) Hlen. unfold queue. apply list_eq. intros i.
  destruct (Nat.lt_ge_cases i (avail p)) as [Hi|Hi].
  - destruct (lookup_lt_is_Some_2 q i) as [x Hx]; [lia|]. rewrite Hx.
    rewrite list_lookup_fmap, lookup_seq_lt by done. simpl.
    specialize (Hq i x Hx). rewrite list_lookup_fmap in Hq.
    destruct (free_pool p !! _) as [y|] eqn:E; [|done]. injection Hq as ->.
    f_equal. by apply nth_lookup_Some.
  - rewrite list_lookup_fmap, lookup_seq_ge, lookup_ge_None_2 by lia. done.
Qed.

Lemma index_of_node p i : index_ok p -> (i < size p)%nat ->
  default 0%nat (index <$> (node_pool p !! i)) = S i.
Proof.
  intros (_ & _ & _ & _ & Hl & Hix & _) Hi.
  destruct (lookup_lt_is_Some_2 (node_pool p) i) as [x Hx]; [lia|].
  rewrite Hx. simpl. by apply Hix.
Qed.

Lemma queue_range p i : index_ok p -> i ∈ queue p -> (i < size p)%nat.
Proof.
  intros (_ & _ & _ & Hl & _ & _ & Hf) Hi. apply Hf, lookup_lt_Some in Hi. lia.
Qed.

Lemma index_ok_init n set_index ns :
  (0 < n)%nat -> length ns = n -> (forall i x, index (set_index i x) = i) ->
  index_ok (index_init n set_index ns) /\ queue (index_init n set_index ns) = seq 0 n.
Proof.
  intros Hn Hl Hset.
  assert (ring n 0 (seq 0 n) (Some <$> seq 0 n)) as Hr.
  { pose proof (ring_init (seq 0 n)) as H. rewrite length_seq in H. by apply H. }
  assert (queue (index_init n set_index ns) = seq 0 n) as Hq
    by (apply queue_unique; [done|by rewrite length_seq]).
  split; [|done]. unfold index_ok. rewrite Hq. split_and!; simpl.
  - done.
  - symmetry. apply Nat.Div0.mod_same.
  - apply NoDup_seq.
  - apply length_replicate.
  - by rewrite length_imap.
  - intros i x. rewrite list_lookup_imap. intros H. destruct (ns !! i); [|done].
    injection H as <-. apply Hset.
  - intros i. rewrite lookup_replicate, elem_of_seq. intuition lia.
Qed.

Lemma index_alloc_ok p i q :
  index_ok p -> queue p = i :: q ->
  exists p', index_alloc p = (Some i, p') /\ index_ok p' /\ queue p' = q /\ size p' = size p /\
             node_pool p' = <[i := blank (S i)]> (node_pool p).
Proof.
  intros Hok Hq. pose proof (queue_range p i Hok) as Hi. pose proof (index_of_node p i Hok) as Hix.
  rewrite Hq in Hi. specialize (Hi ltac:(left)). specialize (Hix Hi).
  destruct Hok as (Hr & Ht & Hnd & Hlf & Hln & Hnodes & Hfree). rewrite Hq in *.
  pose proof (length_queue p) as Ha. rewrite Hq in Ha. simpl in Ha.
  unfold index_alloc. rewrite decide_True by lia.
  pose proof (ring_head _ _ _ _ _ Hr) as Hhd. rewrite list_lookup_fmap in Hhd.
  destruct (free_pool p !! head p) as [j|] eqn:Ej; [|done]. injection Hhd as ->.
  rewrite (nth_lookup_Some _ _ 0%nat _ Ej), Hix.
  eexists. split; [reflexivity|].
  apply NoDup_cons in Hnd as [Hni Hnd].
  replace (S i - 1)%nat with i by lia.
  match goal with |- index_ok ?p' /\ _ => set (p1 := p') end.
  assert (queue p1 = q) as Hq'.
  { apply queue_unique; simpl; [|lia]. eapply ring_pop; [done|done|]. by apply Hr. }
  split_and!; [|done|done|done]. unfold index_ok. rewrite Hq'. split_and!; simpl.
  - eapply ring_pop; [done|done|]. by apply Hr.
  - rewrite Ht, Nat.Div0.add_mod_idemp_l. f_equal. lia.
  - done.
  - by rewrite length_insert.
  - by rewrite length_insert.
  - intros k x. destruct (decide (k = i)) as [->|Hk].
    + rewrite list_lookup_insert_eq by lia. intros [= <-]. apply index_blank.
    + rewrite list_lookup_insert_ne by done. apply Hnodes.
  - intros k. destruct (decide (k = i)) as [->|Hk].
    + rewrite list_lookup_insert_eq by lia. split; [done|]. by intros ?%Hni.
    + rewrite list_lookup_insert_ne by done. rewrite Hfree, elem_of_cons. tauto.
Qed.

Lemma index_free_ok p i :
  index_ok p -> (i < size p)%nat -> i ∉ queue p ->
  index_ok (index_free p i) /\ queue (index_free p i) = queue p ++ [i] /\
  size (index_free p i) = size p /\ node_pool (index_free p i) = node_pool p.
Proof.
  intros Hok Hi Hni. pose proof (index_of_node p i Hok Hi) as Hix.
  pose proof (fun j => queue_range p j Hok) as Hrg.
  destruct Hok as (Hr & Ht & Hnd & Hlf & Hln & Hnodes & Hfree).
  assert (length (queue p) < size p)%nat as Hlt.
  { rewrite <- (length_seq (size p) 0). apply (NoDup_length_lt _ _ i); [done| |apply elem_of_seq; lia|done].
    intros j Hj%Hrg. apply elem_of_seq. lia. }
  pose proof (length_queue p) as Ha.
  unfold index_free. rewrite decide_True by lia. rewrite Hix. replace (S i - 1)%nat with i by lia.
  destruct (lookup_lt_is_Some_2 (is_free p) i) as [b Hb]; [lia|].
  destruct b; [by apply Hfree in Hb|]. rewrite decide_True by done.
  match goal with |- index_ok ?p' /\ _ => set (p1 := p') end.
  assert (ring (size p) (head p) (queue p ++ [i]) (Some <$> <[tail p := i]> (free_pool p))) as Hr'.
  { rewrite list_fmap_insert, Ht, <- Ha. by apply ring_push. }
  assert (queue p1 = queue p ++ [i]) as Hq'
    by (apply queue_unique; [done|simpl; rewrite length_app; simpl; lia]).
  split_and!; [|done|done|done]. unfold index_ok. rewrite Hq'. split_and!; simpl.
  - done.
  - rewrite Ht, Nat.Div0.add_mod_idemp_l. f_equal. lia.
  - apply NoDup_app. split_and!; [done| |apply NoDup_singleton].
    intros y Hy. rewrite list_elem_of_singleton. by intros ->.
  - by rewrite length_insert.
  - done.
  - done.
  - intros k. rewrite elem_of_app, list_elem_of_singleton. destruct (decide (k = i)) as [->|Hk].
    + rewrite list_lookup_insert_eq by lia. tauto.
    + rewrite list_lookup_insert_ne by done. rewrite Hfree. tauto.
Qed.

(** A second release of a node changes nothing. *)
Lemma index_free_twice p i : index_ok p -> i ∈ queue p -> index_free p i = p.
Proof.
  intros Hok Hi. pose proof (queue_range p i Hok Hi) as Hlt.
  unfold index_free. rewrite (index_of_node p i Hok Hlt). replace (S i - 1)%nat with i by lia.
  apply Hok in Hi. rewrite Hi. repeat case_decide; done.
Qed.

Lemma set_node_ok p i x :
  index_ok p -> index x = S i -> index_ok (set_node p i x) /\ queue (set_node p i x) = queue p.
Proof.
  intros (Hr & Ht & Hnd & Hlf & Hln & Hnodes & Hfree) Hx. split; [|done].
  split_and!; try done; simpl; [by rewrite length_insert|].
  intros k y Hk. apply list_lookup_insert_Some in Hk as [(-> & -> & _)|[_ Hk]]; auto.
Qed.

Program Definition index_allocator : Allocator indexp nat := {|
  alloc := index_alloc;
  release := index_free;
  frees := queue;
  Alloc.nodes := fun p => seq 0 (size p);
  alloc_ok := index_ok
|}.
Next Obligation.
  intros p Hok. split_and!; [apply NoDup_seq|apply Hok|].
  intros i Hi. apply elem_of_seq. cbv beta. pose proof (queue_range p i Hok Hi). lia.
Qed.
Next Obligation.
  intros p Hok Hq. pose proof (length_queue p) as Ha. rewrite Hq in Ha. simpl in Ha.
  unfold index_alloc. by rewrite decide_False by lia.
Qed.
Next Obligation.
  intros p i q Hok Hq. destruct (index_alloc_ok p i q Hok Hq) as (p' & ? & ? & ? & Hs & _).
  exists p'. rewrite Hs. done.
Qed.
Next Obligation.
  intros p i Hok Hi Hni. apply elem_of_seq in Hi.
  destruct (index_free_ok p i Hok) as (? & ? & Hs & _); [lia|done|]. rewrite Hs. done.
Qed.
End index.
Arguments indexp : clear implicits.
End Index.

(** ** Refinement: both pools implement a queue of free nodes *)

Module PoolSpec.

(** What a client does: take a node, or give one back. *)
Inductive op (A : Type) := Take | Give (x : A).
Arguments Take {A}.
Arguments Give {A} x.

(** The results of a sequence of operations, and the final state. *)
Fixpoint run {S A} (take : S -> option A * S) (give : S -> A -> S) (s : S) (ops : list (op A))
  : list (option A) * S :=
  match ops with
  | [] => ([], s)
  | Take :: ops =>
      let '(x, s) := take s in
      let '(xs, s) := run take give s ops in (x :: xs, s)
  | Give x :: ops => run take give (give s x) ops
  end.

(** The specification: the state is the queue of free nodes; [keep] says whether
    a node given back is accepted. *)
Definition take_spec {A} (q : list A) : option A * list A :=
  match q with [] => (None, []) | x :: q => (Some x, q) end.
Definition give_spec {A} (keep : list A -> A -> bool) (q : list A) (x : A) : list A :=
  if keep q x then q ++ [x] else q.

(** A pool accepts whatever it is given until it is full. *)
Definition pool_keep {A} (cap : nat) (q : list A) (x : A) : bool := bool_decide (length q < cap)%nat.
(** An index pool refuses the nodes that are free already. *)
Definition index_keep (q : list nat) (x : nat) : bool := bool_decide (x ∉ q).

Lemma run_simulation {S T A} (take : S -> option A * S) give take' (give' : T -> A -> T)
    (R : S -> T -> Prop) (P : A -> Prop) s t ops :
  (forall s t, R s t -> fst (take s) = fst (take' t) /\ R (snd (take s)) (snd (take' t))) ->
  (forall s t x, R s t -> P x -> R (give s x) (give' t x)) ->
  R s t -> (forall x, Give x ∈ ops -> P x) ->
  fst (run take give s ops) = fst (run take' give' t ops) /\
  R (snd (run take give s ops)) (snd (run take' give' t ops)).
Proof.
  intros Ht Hg. revert s t. induction ops as [|o ops IH]; intros s t HR HP; [done|].
  assert (forall x, Give x ∈ ops -> P x) as HP' by (intros; apply HP; by right).
  destruct o as [|x]; cbn [run].
  - specialize (Ht s t HR). destruct (take s) as [x s'], (take' t) as [x' t'].
    cbn [fst snd] in Ht. destruct Ht as [-> HR']. specialize (IH s' t' HR' HP').
    destruct (run take give s' ops), (run take' give' t' ops). cbn [fst snd] in *.
    destruct IH as [-> ?]. done.
  - apply IH; [|done]. apply Hg; [done|]. apply HP. by left.
Qed.

(** Whatever the sequence of allocations and releases, the circular array of
    [core_pool.h] gives the results of a first-in first-out queue of the free
    nodes, and is exhausted exactly when that queue is empty. *)
Theorem pool_refines_queue {A} `{Countable A} (ns : list A) ops :
  ns <> [] ->
  fst (run Pool.pool_alloc_node Pool.pool_free_node (Pool.pool_init ns) ops) =
    fst (run take_spec (give_spec (pool_keep (length ns))) ns ops).
Proof.
  intros Hns.
  apply (run_simulation _ _ _ _
    (fun p q => Pool.repr p q /\ Pool.size p = length ns) (fun _ => True)).
  - intros p q [Hr Hs]. destruct q as [|x q].
    + by rewrite Pool.repr_alloc_empty.
    + destruct (Pool.repr_alloc p x q Hr) as (p' & -> & Hr' & Hs'). by rewrite <- Hs.
  - intros p q x [Hr Hs] _. unfold give_spec, pool_keep. case_bool_decide as Hlt.
    + rewrite <- Hs in Hlt. by destruct (Pool.repr_free p q x Hr Hlt) as [? ->].
    + rewrite (Pool.repr_free_full p q x Hr); [done|]. destruct Hr as ((_ & _ & Hle & _) & _). lia.
  - split; [|done]. apply Pool.repr_init. destruct ns; [done|]. simpl. lia.
  - done.
Qed.

Lemma pool_refines_queue_witness :
  fst (run Pool.pool_alloc_node Pool.pool_free_node (Pool.pool_init [7; 8])
         [Take; Take; Take; Give 8; Take]) =
    fst (run take_spec (give_spec (pool_keep 2)) [7; 8] [Take; Take; Take; Give 8; Take]).
Proof. apply (pool_refines_queue [7; 8]). done. Defined.

(** The index pool of [core_index.h] gives the results of a queue of free
    positions that ignores a second release, each position being in the queue
    at most once: a node is never handed out again before it is released. *)
Theorem index_refines_queue {N} (index : N -> nat) blank set_index n (ns : list N) ops :
  (forall i, index (blank i) = i) -> (forall i x, index (set_index i x) = i) ->
  (0 < n)%nat -> length ns = n -> (forall i, Give i ∈ ops -> (i < n)%nat) ->
  let res := run (Index.index_alloc index blank) (Index.index_free index)
                 (Index.index_init n set_index ns) ops in
  let spec := run take_spec (give_spec index_keep) (seq 0 n) ops in
  fst res = fst spec /\ Index.queue (snd res) = snd spec /\ NoDup (snd spec).
Proof.
  intros Hb Hset Hn Hns Hops res spec.
  destruct (Index.index_ok_init index n set_index ns Hn Hns Hset) as [Hok0 Hq0].
  destruct (run_simulation (Index.index_alloc index blank) (Index.index_free index)
    take_spec (give_spec index_keep)
    (fun p q => Index.index_ok index p /\ Index.queue p = q /\ Index.size p = n)
    (fun i => (i < n)%nat) (Index.index_init n set_index ns) (seq 0 n) ops)
    as [Hres (Hok & Hq & _)]; [| |done|done|].
  - intros p q (Hok & <- & Hs). destruct (Index.queue p) as [|i q] eqn:Hq.
    + unfold Index.index_alloc. pose proof (Index.length_queue p) as Hl. rewrite Hq in Hl.
      rewrite decide_False by (simpl in Hl; lia). done.
    + destruct (Index.index_alloc_ok index blank Hb p i q Hok Hq) as (p' & -> & ? & ? & Hs' & _).
      rewrite <- Hs. done.
  - intros p q i (Hok & <- & Hs) Hi. unfold give_spec, index_keep. case_bool_decide as Hin.
    + destruct (Index.index_free_ok index p i Hok) as (? & ? & Hs' & _); [lia|done|].
      rewrite <- Hs. done.
    + rewrite Index.index_free_twice; [done|done|]. by destruct (decide (i ∈ Index.queue p)).
  - split_and!; [exact Hres|exact Hq|]. unfold spec. rewrite <- Hq. apply Hok.
Qed.

Lemma index_refines_queue_witness :
  let ops := [Take; Take; Give 0%nat; Give 0%nat; Take; Take] in
  let res := run (Index.index_alloc id id) (Index.index_free id) (Index.index_init 2 const [9; 9]%nat) ops in
  let spec := run take_spec (give_spec index_keep) (seq 0 2) ops in
  fst res = fst spec /\ Index.queue (snd res) = snd spec /\ NoDup (snd spec).
Proof.
  apply index_refines_queue; [done|done|lia|done|].
  intros i. rewrite !elem_of_cons, elem_of_nil. intuition (simplify_eq; lia).
Defined.
End PoolSpec.
