(* ===== verification/Timer.v ===== *)
(** [lib/core/src/timer.c]: timers of one service, [active_list] sorted by expiry
    and [idle_list].  The blocks come from a pool; the two lists are the pointer
    lists of [DList]. *)

From S2P Require Import Prelude Alloc DList.

Module Timer.
Import DList.

Inductive tm_type := TIMER_TYPE_ONE_SHOT | TIMER_TYPE_PERIODIC.
#[export] Instance tm_type_eq_dec : EqDecision tm_type.
Proof. solve_decision. Defined.

Definition MAX_NUM_OF_TIMER : Z := 1024 * 4.

(** [tm_block_t], without the list node; [F] is the type of [expire_func_t] and
    [params] are [param1] to [param6]. *)
Record tm_block {F : Type} := mkTm {
  expire_time : Z; expire_func : F; params : list Z;
  tm_kind : tm_type; running : Z; ex_repeat : Z; duration : Z
}.
Arguments tm_block : clear implicits.
Arguments mkTm {F}.

Section timer.
Context {F P : Type} {AllocP : Allocator P nat}.
Variable null_func : F.

(** The pool of blocks, the blocks, their list nodes, and the service. *)
Record timers := mkTimers {
  timer_pool : P; blocks : gmap nat (tm_block F); links : memory; active_list : ln_t; idle_list : ln_t
}.

(** Enough turns for a walk through any list of blocks. *)
Definition walk (s : timers) : nat := length (nodes (timer_pool s)).

Definition zero_block : tm_block F := mkTm 0 null_func (replicate 6 0) TIMER_TYPE_ONE_SHOT 0 0 0.
Definition block (s : timers) (id : nat) : tm_block F := default zero_block (blocks s !! id).
Definition with_block (s : timers) (id : nat) (f : tm_block F -> tm_block F) : timers :=
  mkTimers (timer_pool s) (<[id := f (block s id)]> (blocks s)) (links s) (active_list s) (idle_list s).

(** [_tm_cmp_func(tm1, tm2) < 0] *)
Definition tm_before (s : timers) (id1 id2 : nat) : bool :=
  bool_decide (expire_time (block s id1) < expire_time (block s id2)).

Definition add_active (s : timers) (id : nat) : option timers :=
  '(st, h) ← list_insert_sorted (walk s) (tm_before s) (links s) (active_list s) id;
  Some (mkTimers (timer_pool s) (blocks s) st h (idle_list s)).
Definition add_idle (s : timers) (id : nat) : option timers :=
  '(st, h) ← list_insert_sorted (walk s) (tm_before s) (links s) (idle_list s) id;
  Some (mkTimers (timer_pool s) (blocks s) st (active_list s) h).
Definition remove_active (s : timers) (id : nat) : option timers :=
  '(st, h) ← list_remove (walk s) (links s) (active_list s) id;
  Some (mkTimers (timer_pool s) (blocks s) st h (idle_list s)).
Definition remove_idle (s : timers) (id : nat) : option timers :=
  '(st, h) ← list_remove (walk s) (links s) (idle_list s) id;
  Some (mkTimers (timer_pool s) (blocks s) st (active_list s) h).

(** [tm_init] and [tm_service_init] on a fresh pool. *)
Definition tm_service_init (p : P) : timers := mkTimers p ∅ ∅ list_init list_init.

(** [tm_create]: the identifier, 0 in the source when there is no block left. *)
Definition tm_create (s : timers) (ty : tm_type) (dur : Z) (f : F) : option (option nat * timers) :=
  match alloc (timer_pool s) with
  | (None, p) => Some (None, mkTimers p (blocks s) (links s) (active_list s) (idle_list s))
  | (Some id, p) =>
      let s := mkTimers p (<[id := zero_block]> (blocks s))
                 (<[id := mkLn None None]> (links s)) (active_list s) (idle_list s) in
      s ← add_idle s id;
      Some (Some id, with_block s id (fun b => mkTm (expire_time b) f (params b) ty (running b) 0 dur))
  end.

(** The block goes back to the pool as it is. *)
Definition tm_delete (s : timers) (id : nat) : option timers :=
  s ← (if decide (running (block s id) = 1) then remove_active s id else remove_idle s id);
  Some (mkTimers (release (timer_pool s) id) (blocks s) (links s) (active_list s) (idle_list s)).

Definition tm_set_duration (s : timers) (id : nat) (dur : Z) : timers :=
  with_block s id (fun b => mkTm (expire_time b) (expire_func b) (params b) (tm_kind b) (running b) (ex_repeat b) dur).

(** [tm_set_param1] to [tm_set_param6] *)
Definition tm_set_param (k : nat) (s : timers) (id : nat) (v : Z) : timers :=
  with_block s id (fun b => mkTm (expire_time b) (expire_func b) (<[(k - 1)%nat := v]> (params b)) (tm_kind b)
                              (running b) (ex_repeat b) (duration b)).

Definition time_as_msec (t : Z) : Z := Z.quot t 1000.

Definition set_expire (t : Z) (b : tm_block F) : tm_block F :=
  mkTm t (expire_func b) (params b) (tm_kind b) (running b) (ex_repeat b) (duration b).
Definition set_running (r : Z) (b : tm_block F) : tm_block F :=
  mkTm (expire_time b) (expire_func b) (params b) (tm_kind b) r (ex_repeat b) (duration b).

(** [tm_start]; [now] is the clock in microseconds.  [c_time_t] has 64 bits. *)
Definition tm_start (s : timers) (id : nat) (now : Z) : option timers :=
  let cur_time := time_as_msec now in
  s ← (if decide (running (block s id) = 1) then remove_active s id else remove_idle s id);
  let s := with_block s id (fun b => set_expire (cur_time + duration b) b) in
  s ← add_active s id;
  Some (with_block s id (set_running 1)).

Definition tm_stop (s : timers) (id : nat) : option timers :=
  if decide (running (block s id) = 0) then Some s
  else
    s ← remove_active s id;
    s ← add_idle s id;
    Some (with_block s id (set_running 0)).

(** What an expiry function does to the rest of the program, and whether it
    returns [CORE_OK]. *)
Context {W : Type}.
Variable call : F -> list Z -> W -> bool * W.

(** One expired timer in [tm_execute_tm_service]; [cur_time] is a [c_uint32_t]. *)
Definition expire_one (s : timers) (id : nat) (cur_time : Z) (w : W) : option (timers * W) :=
  let b := block s id in
  let '(ok, w) := call (expire_func b) (params b) w in
  s ← (if ok || bool_decide (ex_repeat b > 5) then remove_active s id
       else Some (with_block s id (fun b =>
              mkTm (expire_time b) (expire_func b) (params b) (tm_kind b) (running b)
                   (u8 (ex_repeat b + 1)) (duration b))));
  s ← (if decide (tm_kind b = TIMER_TYPE_PERIODIC) then
         let s := with_block s id (fun b => set_expire (u32 (cur_time + duration b)) b) in
         add_active s id
       else
         s ← add_idle s id;
         Some (with_block s id (set_running 0)));
  Some (s, w).

(** The loop of [tm_execute_tm_service]; [None] when [fuel] turns are not enough. *)
Fixpoint execute_loop (fuel : nat) (s : timers) (cur_time : Z) (w : W) : option (timers * W) :=
  match next (active_list s) with
  | None => Some (s, w)
  | Some id =>
      if decide (expire_time (block s id) < cur_time) then
        match fuel with
        | O => None
        | S fuel => '(s, w) ← expire_one s id cur_time w; execute_loop fuel s cur_time w
        end
      else Some (s, w)
  end.
Definition tm_execute_tm_service (fuel : nat) (s : timers) (now : Z) (w : W) : option (timers * W) :=
  execute_loop fuel s (u32 (time_as_msec now)) w.

End timer.
Arguments timers : clear implicits.

End Timer.
