(* ===== verification/TimerSpec.v ===== *)
(** The timers of [Timer] as a map from identifiers to expiry times. *)

From Stdlib Require Import Sorted.
From S2P Require Import Prelude Alloc DList Pool Timer.

Module TimerSpec.
Import DList Timer.

Section timer.
Context {F P : Type} {AllocP : Allocator P nat}.
Variable null_func : F.
Abbreviation block := (block null_func).
Abbreviation add_active := (add_active null_func).
Abbreviation add_idle := (add_idle null_func).
Abbreviation tm_before := (tm_before null_func).

(** ** The two lists *)

(** The lists of the service, whatever the blocks contain. *)
Definition lists_ok (s : timers F P) (act idl : list nat) : Prop :=
  dlist (links s) (active_list s) act /\ dlist (links s) (idle_list s) idl /\
  (forall x, x ∈ act -> x ∉ idl) /\
  (List.length act <= walk s)%nat /\ (List.length idl <= walk s)%nat.

Lemma disjoint_sym (l l' : list nat) : (forall x, x ∈ l -> x ∉ l') -> forall x, x ∈ l' -> x ∉ l.
Proof. intros H x Hx Hx'. by apply (H x). Qed.

Definition set_lists (s : timers F P) (st : memory) (h h' : ln_t) : timers F P :=
  mkTimers (timer_pool s) (blocks s) st h h'.

Lemma only_disjoint (x : nat) (l l' : list nat) : x ∉ l' -> (forall y, y ∈ l -> y ∉ l') -> forall y, y ∈ l' -> y ∉ x :: l.
Proof. intros Hx Hd y Hy [->|Hl]%elem_of_cons; [done|]. by apply (Hd y). Qed.

Lemma add_active_ok s act idl x :
  lists_ok s act idl -> x ∉ act -> x ∉ idl ->
  exists st h, add_active s x = Some (set_lists s st h (idle_list s)) /\
    dlist st h (insert_before (tm_before s) x act) /\ dlist st (idle_list s) idl.
Proof.
  intros (Ha & Hi & Hd & Hla & Hli) Hxa Hxi. unfold Timer.add_active.
  destruct (insert_sorted_spec (walk s) (tm_before s) _ _ act x Ha Hxa Hla) as (st & h & -> & H1 & H2).
  exists st, h. split_and!; [done|done|]. eapply dlist_frame; [exact Hi|exact H2|].
  by apply only_disjoint.
Qed.

Lemma add_idle_ok s act idl x :
  lists_ok s act idl -> x ∉ act -> x ∉ idl ->
  exists st h, add_idle s x = Some (set_lists s st (active_list s) h) /\
    dlist st (active_list s) act /\ dlist st h (insert_before (tm_before s) x idl).
Proof.
  intros (Ha & Hi & Hd & Hla & Hli) Hxa Hxi. unfold Timer.add_idle.
  destruct (insert_sorted_spec (walk s) (tm_before s) _ _ idl x Hi Hxi Hli) as (st & h & -> & H1 & H2).
  exists st, h. split_and!; [done| |done]. eapply dlist_frame; [exact Ha|exact H2|].
  apply only_disjoint; [done|]. by apply disjoint_sym.
Qed.

Lemma remove_active_ok s act idl x :
  lists_ok s act idl ->
  exists st h, remove_active s x = Some (set_lists s st h (idle_list s)) /\
    dlist st h (filter (.≠ x) act) /\ dlist st (idle_list s) idl.
Proof.
  intros (Ha & Hi & Hd & Hla & Hli). unfold remove_active.
  destruct (remove_spec (walk s) _ _ act x Ha Hla) as (st & h & -> & H1 & H2).
  exists st, h. split_and!; [done|done|]. eapply dlist_frame; [exact Hi|exact H2|].
  intros y Hy [_ Hy']%list_elem_of_filter. by apply (Hd y).
Qed.

Lemma remove_idle_ok s act idl x :
  lists_ok s act idl ->
  exists st h, remove_idle s x = Some (set_lists s st (active_list s) h) /\
    dlist st (active_list s) act /\ dlist st h (filter (.≠ x) idl).
Proof.
  intros (Ha & Hi & Hd & Hla & Hli). unfold remove_idle.
  destruct (remove_spec (walk s) _ _ idl x Hi Hli) as (st & h & -> & H1 & H2).
  exists st, h. split_and!; [done| |done]. eapply dlist_frame; [exact Ha|exact H2|].
  intros y Hy [_ Hy']%list_elem_of_filter. by apply (Hd y).
Qed.

(** ** The invariant *)

Definition expiry (s : timers F P) (x : nat) : Z := expire_time (block s x).
Definition sorted_by (e : nat -> Z) : list nat -> Prop := StronglySorted (fun x y => e x <= e y).

(** The active list is sorted by expiry; the blocks in use are those of the two
    lists, and [running] tells which. *)
Definition timer_ok (s : timers F P) (act idl : list nat) : Prop :=
  alloc_ok (timer_pool s) /\
  dlist (links s) (active_list s) act /\ dlist (links s) (idle_list s) idl /\
  (forall x, x ∈ act -> x ∉ idl) /\
  (forall x, used (timer_pool s) x <-> x ∈ act \/ x ∈ idl) /\
  (forall x, x ∈ act -> running (block s x) = 1) /\
  (forall x, x ∈ idl -> running (block s x) = 0) /\
  sorted_by (expiry s) act.
Definition timer_inv (s : timers F P) : Prop := exists act idl, timer_ok s act idl.

(** The abstract state: nothing, an idle timer, or a timer armed until a time. *)
Definition state_of (s : timers F P) (x : nat) : option (option Z) :=
  if decide (used (timer_pool s) x)
  then Some (if decide (running (block s x) = 1) then Some (expiry s x) else None)
  else None.

Lemma used_length (p : P) (l : list nat) :
  (forall x, x ∈ l -> used p x) -> NoDup l -> (List.length l <= List.length (nodes p))%nat.
Proof.
  intros Hl Hnd. apply submseteq_length, NoDup_submseteq; [done|]. intros x Hx. by apply Hl.
Qed.

Lemma timer_ok_lists s act idl : timer_ok s act idl -> lists_ok s act idl.
Proof.
  intros (_ & Ha & Hi & Hd & Hu & _). split_and!; try done; apply used_length;
    try (intros x Hx; apply Hu; auto); [apply Ha|apply Hi].
Qed.

(** ** Sorted lists *)

Lemma insert_before_sorted e x l :
  sorted_by e l -> sorted_by e (insert_before (fun x y => bool_decide (e x < e y)) x l).
Proof.
  unfold sorted_by. induction 1 as [|y l Hs IH Hy]; [by repeat constructor|].
  cbn [insert_before]. case_bool_decide as Hxy.
  - constructor; [by constructor|]. constructor; [lia|]. apply (Forall_impl _ _ _ Hy). lia.
  - constructor; [done|]. rewrite insert_before_Permutation. constructor; [lia|done].
Qed.

Lemma filter_sorted e (f : nat -> Prop) `{!forall x, Decision (f x)} (l : list nat) :
  sorted_by e l -> sorted_by e (filter f l).
Proof.
  unfold sorted_by. induction 1 as [|y l Hs IH Hy]; [constructor|]. rewrite filter_cons.
  case_decide; [|done]. constructor; [done|]. apply Forall_forall. intros z [_ Hz]%list_elem_of_filter.
  by eapply Forall_forall in Hy.
Qed.

Lemma sorted_ext e e' l : (forall x, x ∈ l -> e x = e' x) -> sorted_by e l -> sorted_by e' l.
Proof.
  unfold sorted_by. intros He Hs. induction Hs as [|y l Hs IH Hy]; [constructor|].
  constructor; [apply IH; intros; apply He; by right|]. apply Forall_forall. intros z Hz.
  rewrite <- !He by (by left || by right). by eapply Forall_forall in Hy.
Qed.

Lemma elem_of_filter_ne (x y : nat) (l : list nat) : y ∈ filter (.≠ x) l <-> y <> x /\ y ∈ l.
Proof. by rewrite list_elem_of_filter. Qed.

Lemma not_in_filter_ne (x : nat) (l : list nat) : x ∉ filter (.≠ x) l.
Proof. by intros [? _]%elem_of_filter_ne. Qed.

Lemma elem_of_insert_before b x y l : y ∈ insert_before b x l <-> y = x \/ y ∈ l.
Proof. by rewrite insert_before_Permutation, elem_of_cons. Qed.

Lemma length_filter_le (f : nat -> Prop) `{!forall x, Decision (f x)} (l : list nat) :
  (List.length (filter f l) <= List.length l)%nat.
Proof. apply length_filter. Qed.

(** ** Operations *)

Lemma block_with (s : timers F P) x f y : block (with_block null_func s x f) y = if decide (y = x) then f (block s x) else block s y.
Proof.
  unfold Timer.block, with_block. cbn. case_decide; [subst; by rewrite lookup_insert_eq|].
  by rewrite lookup_insert_ne.
Qed.

Lemma used_dec_in s act idl x :
  timer_ok s act idl -> used (timer_pool s) x ->
  (running (block s x) = 1 /\ x ∈ act /\ (x ∉ idl)) \/ (running (block s x) = 0 /\ (x ∉ act) /\ x ∈ idl).
Proof.
  intros (_ & _ & _ & Hd & Hu & H1 & H0 & _) [Hx|Hx]%Hu; [left|right]; split_and!; auto.
  intros Hx'. by apply (Hd x).
Qed.

(** Taking a block out of the list it is in, as [tm_start] and [tm_delete] do. *)
Lemma detach_ok s act idl x :
  timer_ok s act idl -> used (timer_pool s) x ->
  exists st h h',
    (if decide (running (block s x) = 1) then remove_active s x else remove_idle s x) =
      Some (set_lists s st h h') /\
    lists_ok (set_lists s st h h') (filter (.≠ x) act) (filter (.≠ x) idl).
Proof.
  intros Hok Hx. pose proof (timer_ok_lists s act idl Hok) as Hl.
  assert (forall y, y ∈ filter (.≠ x) act -> y ∉ filter (.≠ x) idl) as Hd.
  { intros y [_ Hy]%elem_of_filter_ne [_ Hy']%elem_of_filter_ne. destruct Hl as (_ & _ & Hd & _).
    by apply (Hd y). }
  pose proof Hl as (_ & _ & _ & Hla & Hli).
  pose proof (length_filter_le (.≠ x) act). pose proof (length_filter_le (.≠ x) idl).
  destruct (used_dec_in s act idl x Hok Hx) as [(-> & Ha & Hi)|(-> & Ha & Hi)].
  - rewrite decide_True by done. destruct (remove_active_ok s act idl x Hl) as (st & h & -> & H1 & H2).
    exists st, h, (idle_list s). split; [done|]. rewrite (filter_ne_id idl) in * by done.
    split_and!; try done; unfold walk in *; cbn; lia.
  - rewrite decide_False by done. destruct (remove_idle_ok s act idl x Hl) as (st & h & -> & H1 & H2).
    exists st, (active_list s), h. split; [done|]. rewrite (filter_ne_id act) in * by done.
    split_and!; try done; unfold walk in *; cbn; lia.
Qed.

(** The state after [x] has been put in the active list, or in the idle list. *)
Lemma armed_ok s s' act idl act' x :
  timer_ok s act idl -> used (timer_pool s) x -> timer_pool s' = timer_pool s ->
  (forall y, y <> x -> block s' y = block s y) -> running (block s' x) = 1 ->
  dlist (links s') (active_list s') act' -> dlist (links s') (idle_list s') (filter (.≠ x) idl) ->
  act' ≡ₚ x :: filter (.≠ x) act -> sorted_by (expiry s') act' ->
  timer_ok s' act' (filter (.≠ x) idl).
Proof.
  intros (Hp & _ & _ & Hd & Hu & H1 & H0 & Hs) Hx Ep Hb Hr Ha Hi Hperm Hs'.
  assert (Hin : forall y, y ∈ act' <-> y = x \/ y <> x /\ y ∈ act).
  { intros y. by rewrite Hperm, elem_of_cons, elem_of_filter_ne. }
  split_and!; try done.
  - by rewrite Ep.
  - intros y Hy%Hin [Hne Hy']%elem_of_filter_ne. destruct Hy as [|[_ Hy]]; [done|]. by apply (Hd y).
  - intros y. rewrite Ep, Hu, Hin, elem_of_filter_ne. apply Hu in Hx.
    destruct (decide (y = x)) as [->|]; tauto.
  - intros y [->|[Hne Hy]]%Hin; [done|]. rewrite Hb by done. auto.
  - intros y [Hne Hy]%elem_of_filter_ne. rewrite Hb by done. auto.
Qed.

Lemma idled_ok s s' act idl idl' x :
  timer_ok s act idl -> used (timer_pool s) x -> timer_pool s' = timer_pool s ->
  (forall y, y <> x -> block s' y = block s y) -> running (block s' x) = 0 ->
  dlist (links s') (active_list s') (filter (.≠ x) act) -> dlist (links s') (idle_list s') idl' ->
  idl' ≡ₚ x :: filter (.≠ x) idl ->
  timer_ok s' (filter (.≠ x) act) idl'.
Proof.
  intros (Hp & _ & _ & Hd & Hu & H1 & H0 & Hs) Hx Ep Hb Hr Ha Hi Hperm.
  assert (Hin : forall y, y ∈ idl' <-> y = x \/ y <> x /\ y ∈ idl).
  { intros y. by rewrite Hperm, elem_of_cons, elem_of_filter_ne. }
  split_and!; try done.
  - by rewrite Ep.
  - intros y [Hne Hy']%elem_of_filter_ne Hy%Hin. destruct Hy as [|[_ Hy]]; [done|]. by apply (Hd y).
  - intros y. rewrite Ep, Hu, Hin, elem_of_filter_ne. apply Hu in Hx.
    destruct (decide (y = x)) as [->|]; tauto.
  - intros y [Hne Hy]%elem_of_filter_ne. rewrite Hb by done. auto.
  - intros y [->|[Hne Hy]]%Hin; [done|]. rewrite Hb by done. auto.
  - apply (sorted_ext (expiry s)); [|by apply filter_sorted].
    intros y [Hne Hy]%elem_of_filter_ne. unfold expiry. by rewrite Hb.
Qed.

(** Two states with the same pool and lists. *)
Definition same_lists (s s' : timers F P) : Prop :=
  timer_pool s' = timer_pool s /\ links s' = links s /\
  active_list s' = active_list s /\ idle_list s' = idle_list s.

Lemma same_lists_ok s s' act idl : same_lists s s' -> lists_ok s act idl -> lists_ok s' act idl.
Proof. unfold lists_ok, walk. by intros (-> & -> & -> & ->). Qed.

Lemma same_lists_trans s1 s2 s3 : same_lists s1 s2 -> same_lists s2 s3 -> same_lists s1 s3.
Proof. intros (H1 & H2 & H3 & H4) (? & ? & ? & ?). split_and!; congruence. Qed.

Lemma same_lists_with (s : timers F P) x f : same_lists s (with_block null_func s x f).
Proof. by split_and!. Qed.
#[local] Hint Resolve same_lists_with : core.

(** Putting a block that is in neither list in the active list, or the idle one. *)
Lemma activate_ok s s2 act idl x :
  timer_ok s act idl -> used (timer_pool s) x -> timer_pool s2 = timer_pool s ->
  lists_ok s2 (filter (.≠ x) act) (filter (.≠ x) idl) ->
  (forall y, y <> x -> block s2 y = block s y) ->
  exists s3 act', add_active s2 x = Some s3 /\ timer_pool s3 = timer_pool s /\ blocks s3 = blocks s2 /\
    act' = insert_before (tm_before s2) x (filter (.≠ x) act) /\
    forall s4, same_lists s3 s4 -> (forall y, y <> x -> block s4 y = block s y) ->
      running (block s4 x) = 1 -> expiry s4 x = expiry s2 x -> timer_ok s4 act' (filter (.≠ x) idl).
Proof.
  intros Hok Hx Ep Hl Hb.
  destruct (add_active_ok s2 _ _ x Hl) as (st & h & E & Ha & Hi); [apply not_in_filter_ne..|].
  eexists _, _. split; [exact E|]. split_and!; [done|done|done|].
  intros s4 (Ep4 & El & Ea & Ei) Hb4 Hr He. cbn in Ep4, El, Ea, Ei.
  eapply armed_ok; try done; [congruence|by rewrite El, Ea|by rewrite El, Ei|apply insert_before_Permutation|].
  set (e2 := expiry s2). change (tm_before s2) with (fun a b => bool_decide (e2 a < e2 b)).
  apply (sorted_ext e2).
  - intros y Hy. unfold e2. destruct (decide (y = x)) as [->|Hne]; [done|]. unfold expiry. by rewrite Hb4, Hb.
  - apply insert_before_sorted. apply (sorted_ext (expiry s)).
    + intros y [Hne _]%elem_of_filter_ne. unfold e2, expiry. by rewrite Hb.
    + apply filter_sorted. by destruct Hok as (_ & _ & _ & _ & _ & _ & _ & Hs).
Qed.

Lemma deactivate_ok s s2 act idl x :
  timer_ok s act idl -> used (timer_pool s) x -> timer_pool s2 = timer_pool s ->
  lists_ok s2 (filter (.≠ x) act) (filter (.≠ x) idl) ->
  exists s3 idl', add_idle s2 x = Some s3 /\ timer_pool s3 = timer_pool s /\ blocks s3 = blocks s2 /\
    idl' ≡ₚ x :: filter (.≠ x) idl /\
    forall s4, same_lists s3 s4 -> (forall y, y <> x -> block s4 y = block s y) ->
      running (block s4 x) = 0 -> timer_ok s4 (filter (.≠ x) act) idl'.
Proof.
  intros Hok Hx Ep Hl.
  destruct (add_idle_ok s2 _ _ x Hl) as (st & h & E & Ha & Hi); [apply not_in_filter_ne..|].
  eexists _, _. split; [exact E|]. split_and!; [done|done|apply insert_before_Permutation|].
  intros s4 (Ep4 & El & Ea & Ei) Hb4 Hr. cbn in Ep4, El, Ea, Ei.
  eapply idled_ok; try done; [congruence|by rewrite El, Ea|by rewrite El, Ei|apply insert_before_Permutation].
Qed.

Lemma start_ok s act idl x now :
  timer_ok s act idl -> used (timer_pool s) x ->
  exists s' act', tm_start null_func s x now = Some s' /\
    timer_ok s' act' (filter (.≠ x) idl) /\ act' ≡ₚ x :: filter (.≠ x) act /\
    timer_pool s' = timer_pool s /\
    block s' x = set_running 1 (set_expire (time_as_msec now + duration (block s x)) (block s x)) /\
    (forall y, y <> x -> block s' y = block s y).
Proof.
  intros Hok Hx. unfold tm_start. destruct (detach_ok s act idl x Hok Hx) as (st & h & h' & -> & Hl).
  cbn [mbind option_bind]. set (s1 := set_lists s st h h') in *.
  set (s2 := with_block null_func s1 x _).
  assert (Hb2 : forall y, y <> x -> block s2 y = block s y)
    by (intros y Hy; unfold s2; by rewrite block_with, decide_False).
  assert (block s2 x = set_expire (time_as_msec now + duration (block s x)) (block s x)) as Hx2
    by (unfold s2; by rewrite block_with, decide_True).
  destruct (activate_ok s s2 act idl x Hok Hx eq_refl Hl Hb2) as (s3 & act' & -> & Ep & Eb & -> & H3).
  cbn [mbind option_bind]. assert (forall y, block s3 y = block s2 y) as Hb3 by (intros y; unfold Timer.block; by rewrite Eb).
  set (s4 := with_block null_func s3 x (set_running 1)).
  assert (block s4 x = set_running 1 (set_expire (time_as_msec now + duration (block s x)) (block s x))) as Hx4
    by (unfold s4; by rewrite block_with, decide_True, Hb3, Hx2).
  assert (Hb4 : forall y, y <> x -> block s4 y = block s y)
    by (intros y Hy; unfold s4; by rewrite block_with, decide_False, Hb3, Hb2).
  exists s4, (insert_before (tm_before s2) x (filter (.≠ x) act)).
  split_and!; try done; [|apply insert_before_Permutation]. apply H3; try done.
  - by rewrite Hx4.
  - unfold expiry. by rewrite Hx4, Hx2.
Qed.

Lemma stop_ok s act idl x :
  timer_ok s act idl -> used (timer_pool s) x ->
  exists s' idl', tm_stop null_func s x = Some s' /\
    timer_ok s' (filter (.≠ x) act) idl' /\ timer_pool s' = timer_pool s /\
    block s' x = set_running 0 (block s x) /\ (forall y, y <> x -> block s' y = block s y).
Proof.
  intros Hok Hx. unfold tm_stop. destruct (detach_ok s act idl x Hok Hx) as (st & h & h' & E & Hl).
  destruct (used_dec_in s act idl x Hok Hx) as [(Hr & Ha & Hi)|(Hr & Ha & Hi)]; rewrite Hr in *.
  - rewrite decide_False, decide_True in * by done. rewrite E. cbn [mbind option_bind].
    destruct (deactivate_ok s (set_lists s st h h') act idl x Hok Hx eq_refl Hl) as (s3 & idl' & -> & Ep & Eb & Hperm & H3).
    cbn [mbind option_bind].
    assert (forall y, block s3 y = block s y) as Hb3 by (intros y; unfold Timer.block; by rewrite Eb).
    eexists _, idl'. split; [reflexivity|]. split_and!; try done.
    + apply H3; [done| |]; intros; rewrite block_with; [by rewrite decide_False|by rewrite decide_True].
    + by rewrite block_with, decide_True, Hb3.
    + intros y Hy. by rewrite block_with, decide_False, Hb3.
  - rewrite decide_True by done. exists s, idl. rewrite filter_ne_id by done. split_and!; try done.
    destruct (block s x); simpl in *; by subst.
Qed.

Lemma delete_ok s act idl x :
  timer_ok s act idl -> used (timer_pool s) x ->
  exists s', tm_delete null_func s x = Some s' /\
    timer_ok s' (filter (.≠ x) act) (filter (.≠ x) idl) /\
    timer_pool s' = release (timer_pool s) x /\ (forall y, block s' y = block s y).
Proof.
  intros Hok Hx. unfold tm_delete. destruct (detach_ok s act idl x Hok Hx) as (st & h & h' & -> & Hl).
  cbn [mbind option_bind]. eexists. split; [reflexivity|].
  destruct Hl as (Ha & Hi & Hd' & _). destruct Hok as (Hp & _ & _ & Hd & Hu & H1 & H0 & Hs).
  destruct (release_unused (timer_pool s) x Hp Hx) as [Hp' Hu'].
  split; [|done]. split_and!; try done.
  - intros y. cbn. rewrite Hu', Hu, !elem_of_filter_ne. tauto.
  - intros y [_ Hy]%elem_of_filter_ne. exact (H1 y Hy).
  - intros y [_ Hy]%elem_of_filter_ne. exact (H0 y Hy).
  - by apply filter_sorted.
Qed.

Lemma create_ok s act idl ty dur f :
  timer_ok s act idl ->
  match tm_create null_func s ty dur f with
  | Some (Some id, s') =>
      (~ used (timer_pool s) id) /\ alloc (timer_pool s) = (Some id, timer_pool s') /\
      (exists idl', idl' ≡ₚ id :: idl /\ timer_ok s' act idl') /\
      block s' id = mkTm 0 f (replicate 6 0) ty 0 0 dur /\
      (forall y, y <> id -> block s' y = block s y)
  | Some (None, s') => s' = s /\ frees (timer_pool s) = []
  | None => False
  end.
Proof.
  intros Hok. pose proof (timer_ok_lists s act idl Hok) as (Ha & Hi & Hd & Hla & Hli).
  pose proof Hok as (Hp & _ & _ & _ & Hu & H1 & H0 & Hs). unfold tm_create.
  destruct (alloc (timer_pool s)) as [[id|] p] eqn:E.
  2:{ destruct (alloc_fails _ _ Hp E) as [-> ?]. split; [by destruct s|done]. }
  destruct (alloc_used _ _ _ Hp E) as (Hp' & Hnew & Hu').
  assert ((id ∉ act) /\ (id ∉ idl)) as [Hna Hni] by (split; intros ?; apply Hnew, Hu; auto).
  set (s1 := mkTimers p (<[id := zero_block null_func]> (blocks s)) (<[id := mkLn None None]> (links s))
               (active_list s) (idle_list s)).
  assert (only [id] (links s) (links s1)) as Ho by (apply only_insert; [apply only_refl|by left]).
  assert (lists_ok s1 act idl) as Hl1.
  { assert (walk s1 = walk s) as Hw by (unfold walk; cbn; by rewrite (alloc_nodes _ _ _ Hp E)).
    unfold lists_ok. rewrite Hw. split_and!; try done; (eapply dlist_frame; [done|exact Ho|]);
      intros y Hy ->%list_elem_of_singleton; done. }
  destruct (add_idle_ok s1 act idl id Hl1 Hna Hni) as (st & h & -> & Ha2 & Hi2).
  cbn [mbind option_bind]. set (s2 := set_lists s1 st (active_list s1) h).
  set (s3 := with_block null_func s2 id _).
  assert (block s1 id = zero_block null_func) as Hb1 by (unfold s1, Timer.block; cbn; by rewrite lookup_insert_eq).
  assert (Hb : forall y, y <> id -> block s1 y = block s y)
    by (intros y Hy; unfold s1, Timer.block; cbn; by rewrite lookup_insert_ne).
  assert (block s3 id = mkTm 0 f (replicate 6 0) ty 0 0 dur) as Hb3.
  { unfold s3. rewrite block_with, decide_True by done. change (block s2 id) with (block s1 id). by rewrite Hb1. }
  assert (Hb3' : forall y, y <> id -> block s3 y = block s y).
  { intros y Hy. unfold s3. rewrite block_with, decide_False by done. by apply Hb. }
  split_and!; try done. eexists. split; [apply (insert_before_Permutation (tm_before s1) id idl)|].
  split_and!; try done; cbn.
  - intros y Hy [->|Hy']%elem_of_insert_before; [done|]. by apply (Hd y).
  - intros y. rewrite Hu', Hu, elem_of_insert_before. tauto.
  - intros y Hy. rewrite Hb3' by (by intros ->). auto.
  - intros y [->|Hy]%elem_of_insert_before; [by rewrite Hb3|]. rewrite Hb3' by (by intros ->). auto.
  - apply (sorted_ext (expiry s)); [|done]. intros y Hy. unfold expiry. rewrite Hb3'; [done|by intros ->].
Qed.

Lemma init_ok p : alloc_ok p -> (forall x, ~ used p x) -> timer_ok (tm_service_init p) [] [].
Proof.
  intros Hp Hu. split_and!; try done; try (by intros x ?%not_elem_of_nil).
  - split_and!; [done|done|apply NoDup_nil_2].
  - split_and!; [done|done|apply NoDup_nil_2].
  - intros x. split; [by intros ?%Hu|]. intros [[]%not_elem_of_nil|[]%not_elem_of_nil].
  - constructor.
Qed.

Lemma state_of_used s x :
  used (timer_pool s) x -> state_of s x = Some (if decide (running (block s x) = 1) then Some (expiry s x) else None).
Proof. intros. unfold state_of. by rewrite decide_True. Qed.

Lemma state_of_same s s' x :
  block s' x = block s x -> (used (timer_pool s') x <-> used (timer_pool s) x) -> state_of s' x = state_of s x.
Proof.
  intros Hb Hu. unfold state_of, expiry. rewrite Hb.
  destruct (decide (used (timer_pool s) x)) as [H|H]; [by rewrite decide_True by by apply Hu|].
  rewrite decide_False; [done|]. by rewrite Hu.
Qed.

(** C28: each operation keeps the two lists well linked, the active one sorted by
    expiry, and changes the abstract state of its timer only: [tm_create] gives an
    idle timer that was not in use, or nothing when every block is in use;
    [tm_start] arms a timer, running or not, [duration] ms from now; [tm_stop]
    makes it idle; [tm_delete] gives the block back.  None of them loops. *)
Theorem timer_operations s x ty dur f now :
  timer_inv s ->
  (match tm_create null_func s ty dur f with
   | Some (Some id, s') => timer_inv s' /\ state_of s id = None /\ state_of s' id = Some None /\
                           (forall y, y <> id -> state_of s' y = state_of s y)
   | Some (None, s') => s' = s /\ frees (timer_pool s) = []
   | None => False
   end) /\
  (state_of s x <> None ->
   (exists s', tm_start null_func s x now = Some s' /\ timer_inv s' /\
      state_of s' x = Some (Some (time_as_msec now + duration (block s x))) /\
      (forall y, y <> x -> state_of s' y = state_of s y)) /\
   (exists s', tm_stop null_func s x = Some s' /\ timer_inv s' /\ state_of s' x = Some None /\
      (forall y, y <> x -> state_of s' y = state_of s y)) /\
   (exists s', tm_delete null_func s x = Some s' /\ timer_inv s' /\ state_of s' x = None /\
      (forall y, y <> x -> state_of s' y = state_of s y))).
Proof.
  intros (act & idl & Hok). split.
  - pose proof (create_ok s act idl ty dur f Hok) as Hc.
    destruct (tm_create null_func s ty dur f) as [[[id|] s']|]; try done.
    destruct Hc as (Hn & Ha & (idl' & _ & Hok') & Hid & Hb). pose proof Hok as (Hp & _).
    destruct (alloc_used _ _ _ Hp Ha) as (_ & _ & Hu). split_and!.
    + by exists act, idl'.
    + unfold state_of. by rewrite decide_False.
    + rewrite state_of_used by (apply Hu; by left). by rewrite Hid.
    + intros y Hy. apply state_of_same; [by apply Hb|]. rewrite Hu. tauto.
  - unfold state_of at 1. case_decide as Hx; [intros _|done]. split_and!.
    + destruct (start_ok s act idl x now Hok Hx) as (s' & act' & E & Hok' & _ & Ep & Hx' & Hb).
      exists s'. split; [done|]. split; [by exists act', (filter (.≠ x) idl)|]. split.
      * rewrite state_of_used by by rewrite Ep. unfold expiry. by rewrite Hx'.
      * intros y Hy. apply state_of_same; [by apply Hb|by rewrite Ep].
    + destruct (stop_ok s act idl x Hok Hx) as (s' & idl' & E & Hok' & Ep & Hx' & Hb).
      exists s'. split; [done|]. split; [by exists (filter (.≠ x) act), idl'|]. split.
      * rewrite state_of_used by by rewrite Ep. by rewrite Hx'.
      * intros y Hy. apply state_of_same; [by apply Hb|by rewrite Ep].
    + destruct (delete_ok s act idl x Hok Hx) as (s' & E & Hok' & Ep & Hb).
      exists s'. split; [done|]. split; [by exists (filter (.≠ x) act), (filter (.≠ x) idl)|].
      pose proof Hok as (Hp & _). destruct (release_unused _ x Hp Hx) as [_ Hu]. split.
      * unfold state_of. rewrite decide_False; [done|]. rewrite Ep, Hu. tauto.
      * intros y Hy. apply state_of_same; [by apply Hb|]. rewrite Ep, Hu. tauto.
Qed.

(** ** Expiry *)

Context {W : Type}.
Variable call : F -> list Z -> W -> bool * W.
Abbreviation expire_one := (expire_one null_func call).
Abbreviation execute_loop := (execute_loop null_func call).

Definition expired (s : timers F P) (cur : Z) (l : list nat) : list nat :=
  filter (fun x => expiry s x < cur) l.

(** What the expiry functions of some timers do, in order; [None] when one fails. *)
Fixpoint fires (s : timers F P) (l : list nat) (w : W) : option W :=
  match l with
  | [] => Some w
  | x :: l =>
      let '(ok, w) := call (expire_func (block s x)) (params (block s x)) w in
      if ok then fires s l w else None
  end.

(** A timer after it has fired. *)
Definition after_expiry (cur : Z) (b : tm_block F) : tm_block F :=
  if decide (tm_kind b = TIMER_TYPE_PERIODIC) then set_expire (u32 (cur + duration b)) b
  else set_running 0 b.

Lemma filter_insert_before (f : nat -> Prop) `{!forall x, Decision (f x)} b x (l : list nat) :
  ~ f x -> filter f (insert_before b x l) = filter f l.
Proof.
  intros Hx. induction l as [|y l IH]; cbn [insert_before].
  - by rewrite filter_cons, decide_False.
  - destruct (b x y).
    + by rewrite filter_cons, decide_False.
    + rewrite !filter_cons, IH. done.
Qed.

Lemma expired_ext s s' cur l : (forall x, x ∈ l -> block s' x = block s x) -> expired s' cur l = expired s cur l.
Proof.
  unfold expired. induction l as [|x l IH]; intros H; [done|]. rewrite !filter_cons.
  rewrite IH by (intros; apply H; by right). unfold expiry. rewrite H by (by left). done.
Qed.

Lemma expire_one_ok s act idl x cur w w' :
  timer_ok s (x :: act) idl ->
  call (expire_func (block s x)) (params (block s x)) w = (true, w') ->
  (tm_kind (block s x) = TIMER_TYPE_PERIODIC -> cur <= u32 (cur + duration (block s x))) ->
  exists s' act' idl', expire_one s x cur w = Some (s', w') /\
    timer_ok s' act' idl' /\ timer_pool s' = timer_pool s /\
    block s' x = after_expiry cur (block s x) /\ (forall y, y <> x -> block s' y = block s y) /\
    expired s' cur act' = expired s cur act.
Proof.
  intros Hok Hcall Hper. pose proof Hok as (_ & (_ & _ & [Hxa _]%NoDup_cons) & _ & _ & Hu & H1 & _).
  assert (used (timer_pool s) x) as Hx by (apply Hu; left; by left).
  assert (filter (.≠ x) (x :: act) = act) as Ef by (rewrite filter_cons, decide_False by auto; by apply filter_ne_id).
  destruct (detach_ok s _ idl x Hok Hx) as (st & h & h' & E & Hl).
  rewrite decide_True in E by (apply H1; by left).
  unfold Timer.expire_one. rewrite Hcall. cbn [orb]. rewrite E. cbn [mbind option_bind].
  unfold after_expiry. case_decide as Hk.
  - set (s2 := with_block null_func (set_lists s st h h') x _).
    assert (Hb2 : forall y, y <> x -> block s2 y = block s y)
      by (intros y Hy; unfold s2; by rewrite block_with, decide_False).
    assert (block s2 x = set_expire (u32 (cur + duration (block s x))) (block s x)) as Hx2
      by (unfold s2; by rewrite block_with, decide_True).
    destruct (activate_ok s s2 _ idl x Hok Hx eq_refl Hl Hb2) as (s3 & act' & -> & Ep & Eb & Ea & H3).
    assert (forall y, block s3 y = block s2 y) as Hb3 by (intros y; unfold Timer.block; by rewrite Eb).
    rewrite Ef in Ea. exists s3, act', (filter (.≠ x) idl). split; [done|].
    assert (timer_ok s3 act' (filter (.≠ x) idl)) as Hok3.
    { apply H3; [by split_and!| | |].
      - intros y Hy. by rewrite Hb3, Hb2.
      - rewrite Hb3, Hx2. apply H1. by left.
      - unfold expiry. by rewrite Hb3. }
    split_and!; [done|done|by rewrite Hb3|by intros y Hy; rewrite Hb3, Hb2|].
    rewrite Ea. unfold expired. rewrite filter_insert_before.
    + apply expired_ext. intros y Hy. rewrite Hb3. apply Hb2. by intros ->.
    + unfold expiry. rewrite Hb3, Hx2. cbn. specialize (Hper Hk). lia.
  - destruct (deactivate_ok s (set_lists s st h h') _ idl x Hok Hx eq_refl Hl)
      as (s3 & idl' & -> & Ep & Eb & Hperm & H3).
    cbn [mbind option_bind]. rewrite Ef in H3.
    assert (forall y, block s3 y = block s y) as Hb3 by (intros y; unfold Timer.block; by rewrite Eb).
    set (s4 := with_block null_func s3 x (set_running 0)).
    assert (block s4 x = set_running 0 (block s x)) as Hx4 by (unfold s4; by rewrite block_with, decide_True, Hb3).
    assert (Hb4 : forall y, y <> x -> block s4 y = block s y)
      by (intros y Hy; unfold s4; by rewrite block_with, decide_False, Hb3).
    exists s4, act, idl'. split_and!; try done.
    + apply H3; try done. by rewrite Hx4.
    + apply expired_ext. intros y Hy. apply Hb4. by intros ->.
Qed.

Lemma sorted_not_expired s x l cur :
  sorted_by (expiry s) (x :: l) -> ~ expiry s x < cur -> expired s cur (x :: l) = [].
Proof.
  intros [_ Hx]%StronglySorted_inv Hn. unfold expired. rewrite filter_cons, decide_False by done.
  induction Hx as [|y l Hy _ IH]; [done|]. by rewrite filter_cons, decide_False by lia.
Qed.

(** Firing depends on the blocks of the timers fired only. *)
Lemma fires_ext s s' l w : (forall x, x ∈ l -> block s' x = block s x) -> fires s' l w = fires s l w.
Proof.
  revert w. induction l as [|x l IH]; intros w H; [done|]. cbn [fires]. rewrite H by (by left).
  destruct (call _ _ w) as [[] w1]; [|done]. apply IH. intros. apply H. by right.
Qed.

Lemma execute_none fuel s act idl cur w :
  timer_ok s act idl -> expired s cur act = [] -> execute_loop fuel s cur w = Some (s, w).
Proof.
  intros (_ & (Hh & _) & _) E. assert (next (active_list s) = fst_of act None) as Hn by by rewrite Hh.
  destruct fuel; cbn [Timer.execute_loop]; rewrite Hn; (destruct act as [|x act]; [done|]); cbn [fst_of];
    (rewrite decide_False; [done|]); intros Hx; unfold expired in E; by rewrite filter_cons, decide_True in E.
Qed.

Lemma execute_done fuel s act idl cur w w' :
  timer_ok s act idl -> expired s cur act = [] -> w = w' ->
  exists s' act' idl', execute_loop fuel s cur w = Some (s', w') /\
    timer_ok s' act' idl' /\ timer_pool s' = timer_pool s /\
    forall x, block s' x = if decide (x ∈ expired s cur act) then after_expiry cur (block s x) else block s x.
Proof.
  intros Hok E <-. exists s, act, idl. rewrite E. split_and!; try done. by eapply execute_none.
Qed.

Lemma execute_ok fuel s act idl cur w w' :
  timer_ok s act idl -> fires s (expired s cur act) w = Some w' ->
  (forall x, x ∈ expired s cur act -> tm_kind (block s x) = TIMER_TYPE_PERIODIC ->
    cur <= u32 (cur + duration (block s x))) ->
  (List.length (expired s cur act) <= fuel)%nat ->
  exists s' act' idl', execute_loop fuel s cur w = Some (s', w') /\
    timer_ok s' act' idl' /\ timer_pool s' = timer_pool s /\
    forall x, block s' x = if decide (x ∈ expired s cur act) then after_expiry cur (block s x) else block s x.
Proof.
  revert s act idl w. induction fuel as [|fuel IH]; intros s act idl w Hok Hf Hper Hfuel.
  { apply Nat.le_0_r, length_zero_iff_nil in Hfuel. apply (execute_done 0 s act idl); [done|done|].
    rewrite Hfuel in Hf. by injection Hf. }
  destruct (decide (expired s cur act = [])) as [E|E].
  { apply (execute_done _ s act idl); [done|done|]. rewrite E in Hf. by injection Hf. }
  pose proof Hok as (_ & (Hh & _ & Hnd) & _ & _ & _ & _ & _ & Hs). cbn [Timer.execute_loop].
  rewrite Hh. cbn [next]. destruct act as [|x act]; [done|]. cbn [fst_of].
  destruct (decide (expire_time (block s x) < cur)) as [Hx|Hx];
    [|by rewrite (sorted_not_expired s x act cur Hs Hx) in E].
  assert (expired s cur (x :: act) = x :: expired s cur act) as Ee
    by (unfold expired; by rewrite filter_cons, decide_True). rewrite Ee in *.
  cbn [fires] in Hf. destruct (call _ _ w) as [[] w1] eqn:Hcall; [|done].
  destruct (expire_one_ok s act idl x cur w w1 Hok Hcall) as (s1 & act1 & idl1 & -> & Hok1 & Ep1 & Hx1 & Hb1 & Ee1).
  { apply Hper. by left. }
  assert (x ∉ expired s cur act) as Hxe.
  { intros [_ Hin]%list_elem_of_filter. apply NoDup_cons in Hnd as [Hn _]. done. }
  cbn [mbind option_bind].
  assert (Hb1' : forall y, y ∈ expired s cur act -> block s1 y = block s y) by (intros y Hy; apply Hb1; by intros ->).
  destruct (IH s1 act1 idl1 w1 Hok1) as (s' & act' & idl' & He & Hok' & Ep' & Hb').
  { rewrite Ee1. rewrite (fires_ext s) by done. done. }
  { rewrite Ee1. intros y Hy. rewrite Hb1' by done. apply Hper. by right. }
  { rewrite Ee1. simpl in Hfuel. lia. }
  exists s', act', idl'. split_and!; [done|done|congruence|]. intros y. rewrite Hb', Ee1.
  destruct (decide (y = x)) as [->|Hne].
  - rewrite decide_False, decide_True by (done || by left). by rewrite Hx1.
  - rewrite (Hb1 y Hne). destruct (decide (y ∈ expired s cur act)).
    + by rewrite decide_True by (by right).
    + by rewrite decide_False by (rewrite not_elem_of_cons; done).
Qed.

(** C29: [tm_execute_tm_service], when the expiry functions succeed, fires exactly the
    armed timers whose expiry time is below the current time in milliseconds cut to 32
    bits, in order of expiry.  So none fires early, and none at all whose expiry time is
    2{^32} ms or more, however late it is; while the clock is below 2{^32} ms, until
    fifty days after the start of 1970, those that fire are all that are due (a timer that
    is started later never fires, [timers_never_fire]).  A one-shot timer that has fired is
    idle; a periodic one is armed one period after the current time, where the cut
    current time plus the period is assumed not to wrap; the other timers are as they
    were.  As many turns as there are timers to fire are enough. *)
Theorem timer_execute fuel s act idl now w w' :
  timer_ok s act idl ->
  let cur := u32 (time_as_msec now) in
  let l := expired s cur act in
  fires s l w = Some w' ->
  (forall x, x ∈ l -> tm_kind (block s x) = TIMER_TYPE_PERIODIC -> cur <= u32 (cur + duration (block s x))) ->
  (List.length l <= fuel)%nat ->
  sorted_by (expiry s) l /\
  (forall x, x ∈ l <-> exists t, state_of s x = Some (Some t) /\ t < cur) /\
  (0 <= time_as_msec now -> forall x, x ∈ l ->
     exists t, state_of s x = Some (Some t) /\ t < time_as_msec now /\ t < 2 ^ 32) /\
  (0 <= time_as_msec now < 2 ^ 32 -> forall x, x ∈ l <-> exists t, state_of s x = Some (Some t) /\ t < time_as_msec now) /\
  exists s', tm_execute_tm_service null_func call fuel s now w = Some (s', w') /\ timer_inv s' /\
    forall x, state_of s' x =
      if decide (x ∈ l)
      then Some (if decide (tm_kind (block s x) = TIMER_TYPE_PERIODIC)
                 then Some (u32 (cur + duration (block s x))) else None)
      else state_of s x.
Proof.
  intros Hok cur l Hf Hper Hfuel.
  destruct (execute_ok fuel s act idl cur w w' Hok Hf Hper Hfuel) as (s' & act' & idl' & He & Hok' & Ep & Hb).
  pose proof Hok as (_ & _ & _ & Hd & Hu & H1 & H0 & Hs).
  assert (Hin : forall x, x ∈ l -> used (timer_pool s) x /\ x ∈ act)
    by (intros x [_ Hx]%list_elem_of_filter; split; [apply Hu|]; auto).
  assert (forall x, x ∈ l <-> exists t, state_of s x = Some (Some t) /\ t < cur) as Hl.
  { intros x. unfold state_of. split.
    + intros Hx. destruct (Hin x Hx) as [Hux Hxa]. apply list_elem_of_filter in Hx as [Hx _].
      exists (expiry s x). rewrite decide_True by done. by rewrite H1.
    + intros (t & Ht & Hlt). case_decide as Hux; [|done]. case_decide as Hr; [|done]. injection Ht as <-.
      apply list_elem_of_filter. split; [done|].
      by destruct (used_dec_in s act idl x Hok Hux) as [(_ & ? & _)|(Hr' & _)]; [|rewrite Hr in Hr']. }
  split; [by apply filter_sorted|]. split; [exact Hl|]. split; [|split].
  - intros Hn x (t & Ht & Hlt)%Hl. exists t. unfold cur in Hlt.
    pose proof (u32_inw (time_as_msec now)) as [_ Hw]. assert (u32 (time_as_msec now) <= time_as_msec now) by (rewrite u32_mod; by apply Z.mod_le). split; [done|]. lia.
  - intros Hn. unfold cur in Hl. rewrite u32_id in Hl by done. exact Hl.
  - exists s'. split; [done|]. split; [by exists act', idl'|]. intros x. fold l in Hb. unfold state_of at 1.
    rewrite Ep. destruct (decide (x ∈ l)) as [Hx|Hx].
    + destruct (Hin x Hx) as [Hux Hxa]. rewrite (decide_True (P := used _ x)) by done.
      unfold expiry. rewrite !Hb, !(decide_True (P := x ∈ l)) by done.
      unfold after_expiry. destruct (decide (tm_kind (block s x) = TIMER_TYPE_PERIODIC)); [|done].
      cbn. by rewrite decide_True by auto.
    + unfold state_of, expiry. by rewrite !Hb, !(decide_False (P := x ∈ l)) by done.
Qed.

(** *** Clocks past 2{^32} ms *)

Lemma with_block_ok s act idl x f :
  (forall b, running (f b) = running b) -> (forall b, expire_time (f b) = expire_time b) ->
  timer_ok s act idl -> timer_ok (with_block null_func s x f) act idl.
Proof.
  intros Hr He (Hp & Ha & Hi & Hd & Hu & H1 & H0 & Hs).
  assert (Hb : forall y, running (block (with_block null_func s x f) y) = running (block s y)).
  { intros y. rewrite block_with. case_decide; [by subst|done]. }
  split_and!; try done; [by intros y Hy; rewrite Hb; auto|by intros y Hy; rewrite Hb; auto|].
  apply (sorted_ext (expiry s)); [|done]. intros y Hy. unfold expiry. rewrite block_with.
  case_decide; [by subst|done].
Qed.

(** The operations of the program, with a clock past 2{^32} ms when a timer is
    started. *)
Inductive late_step : timers F P -> timers F P -> Prop :=
| late_create s ty dur f r s' : inw 32 dur -> tm_create null_func s ty dur f = Some (r, s') -> late_step s s'
| late_start s x now s' : used (timer_pool s) x -> 2 ^ 32 <= time_as_msec now ->
    tm_start null_func s x now = Some s' -> late_step s s'
| late_stop s x s' : used (timer_pool s) x -> tm_stop null_func s x = Some s' -> late_step s s'
| late_delete s x s' : used (timer_pool s) x -> tm_delete null_func s x = Some s' -> late_step s s'
| late_set_duration s x dur : inw 32 dur -> late_step s (tm_set_duration null_func s x dur)
| late_set_param s k x v : late_step s (tm_set_param null_func k s x v)
| late_execute s fuel now w s' w' :
    tm_execute_tm_service null_func call fuel s now w = Some (s', w') -> late_step s s'.

Definition late (s : timers F P) : Prop :=
  exists act idl, timer_ok s act idl /\ (forall x, x ∈ act -> 2 ^ 32 <= expiry s x) /\
    forall x, 0 <= duration (block s x).

Lemma late_none s act idl now :
  (forall x, x ∈ act -> 2 ^ 32 <= expiry s x) -> timer_ok s act idl ->
  expired s (u32 (time_as_msec now)) act = [].
Proof.
  intros Hl _. unfold expired. pose proof (u32_inw (time_as_msec now)) as Hn. unfold inw in Hn.
  induction act as [|x act IH]; [done|]. rewrite filter_cons, decide_False.
  - apply IH. intros. apply Hl. by right.
  - specialize (Hl x ltac:(by left)). lia.
Qed.

Lemma late_inv s s' : late s -> late_step s s' -> late s'.
Proof.
  intros (act & idl & Hok & Hexp & Hdur) Hstep.
  destruct Hstep as [s ty dur f r s' Hd E|s x now s' Hx Hnow E|s x s' Hx E|s x s' Hx E|s x dur Hd|s k x v|s fuel now w s' w' E].
  - pose proof (create_ok s act idl ty dur f Hok) as Hc. rewrite E in Hc. destruct r as [id|].
    + destruct Hc as (Hn & _ & (idl' & Hperm & Hok') & Hid & Hb). exists act, idl'. split; [done|].
      assert (id ∉ act) as Hna by (intros ?; apply Hn; destruct Hok as (_ & _ & _ & _ & Hu & _); apply Hu; auto).
      split; [intros y Hy; unfold expiry; rewrite Hb; [by apply Hexp|by intros ->]|].
      intros y. destruct (decide (y = id)) as [->|]; [rewrite Hid; unfold inw in Hd; simpl; lia|rewrite Hb by done; apply Hdur].
    + destruct Hc as [-> _]. by exists act, idl.
  - destruct (start_ok s act idl x now Hok Hx) as (s1 & act' & E' & Hok' & Hperm & _ & Hx' & Hb).
    rewrite E in E'. injection E' as <-. exists act', (filter (.≠ x) idl). split; [done|]. split.
    + intros y. rewrite Hperm, elem_of_cons, elem_of_filter_ne. unfold expiry. intros [->|[Hy Hya]].
      * rewrite Hx'. cbn. specialize (Hdur x). lia.
      * rewrite Hb by done. by apply Hexp.
    + intros y. destruct (decide (y = x)) as [->|]; [rewrite Hx'; apply Hdur|rewrite Hb by done; apply Hdur].
  - destruct (stop_ok s act idl x Hok Hx) as (s1 & idl' & E' & Hok' & _ & Hx' & Hb).
    rewrite E in E'. injection E' as <-. exists (filter (.≠ x) act), idl'. split; [done|]. split.
    + intros y [Hy Hya]%elem_of_filter_ne. unfold expiry. rewrite Hb by done. by apply Hexp.
    + intros y. destruct (decide (y = x)) as [->|]; [rewrite Hx'; apply Hdur|rewrite Hb by done; apply Hdur].
  - destruct (delete_ok s act idl x Hok Hx) as (s1 & E' & Hok' & _ & Hb).
    rewrite E in E'. injection E' as <-. exists (filter (.≠ x) act), (filter (.≠ x) idl).
    split; [done|]. unfold expiry. split; [|intros y; rewrite Hb; apply Hdur].
    intros y [Hy Hya]%elem_of_filter_ne. rewrite Hb. by apply Hexp.
  - exists act, idl. unfold tm_set_duration. split; [by apply with_block_ok|].
    split; intros y; [intros Hy; specialize (Hexp y Hy)|specialize (Hdur y)]; unfold expiry, inw in *;
      rewrite block_with; case_decide; subst; simpl; (done || lia).
  - exists act, idl. unfold tm_set_param. split; [by apply with_block_ok|].
    split; intros y; [intros Hy; specialize (Hexp y Hy)|specialize (Hdur y)]; unfold expiry in *;
      rewrite block_with; case_decide; subst; simpl; done.
  - unfold tm_execute_tm_service in E. rewrite (execute_none _ s act idl) in E by (done || by eapply late_none).
    injection E as <- _. by exists act, idl.
Qed.

(** The truncation of the current time to 32 bits disables the timers: from an
    empty service, when every timer is started at a clock of 2{^32} ms or more (50
    days after 1970), no call of [tm_execute_tm_service], at any clock, after any
    sequence of operations, fires any timer. *)
Theorem timers_never_fire p s :
  alloc_ok p -> (forall x, ~ used p x) -> rtc late_step (tm_service_init p) s ->
  forall fuel now w, tm_execute_tm_service null_func call fuel s now w = Some (s, w).
Proof.
  intros Hp Hu Hr fuel now w.
  assert (late (tm_service_init p)) as Hl.
  { exists [], []. split; [by apply init_ok|]. split; [by intros x ?%not_elem_of_nil|done]. }
  assert (late s) as (act & idl & Hok & Hexp & _).
  { clear -Hr Hl. induction Hr as [|s1 s2 s3 H1 H2 IH]; [done|]. apply IH. by eapply late_inv. }
  apply (execute_none _ s act idl); [done|]. by eapply late_none.
Qed.

End timer.

(** ** A service with a pool of three blocks *)

Section sample.
#[local] Existing Instance Pool.pool_allocator.

Definition sample_pool : Pool.pool nat := Pool.pool_init [1; 2; 3]%nat.
Definition sample_service : timers unit (Pool.pool nat) := tm_service_init sample_pool.
(** An expiry function that logs its first parameter. *)
Definition log_call (_ : unit) (ps : list Z) (w : list Z) : bool * list Z := (true, w ++ take 1 ps).

Lemma sample_ok : timer_ok tt sample_service [] [].
Proof.
  apply init_ok.
  - apply Pool.pool_ok_init; [simpl; lia|by_decide].
  - intros x [H1 H2]. by apply H2.
Qed.

(** One timer of 10 ms, created, then started 5 s after the epoch. *)
Definition sample_created : timers unit (Pool.pool nat) :=
  default sample_service (snd <$> tm_create tt sample_service TIMER_TYPE_ONE_SHOT 10 tt).
Definition sample_started : timers unit (Pool.pool nat) :=
  default sample_service (tm_start tt sample_created 1 5000000).

Lemma sample_started_ok : timer_ok tt sample_started [1]%nat [].
Proof.
  pose proof (create_ok tt _ _ _ TIMER_TYPE_ONE_SHOT 10 tt sample_ok) as Hc.
  assert (tm_create tt sample_service TIMER_TYPE_ONE_SHOT 10 tt = Some (Some 1%nat, sample_created)) as E
    by (vm_compute; reflexivity).
  rewrite E in Hc. destruct Hc as (_ & _ & (idl & Hp & Hok) & _).
  apply Permutation_singleton_r in Hp as ->.
  destruct (start_ok tt sample_created [] [1%nat] 1 5000000 Hok) as (s & act & Es & Hs & Hp & _).
  { apply Hok. right. by left. }
  assert (tm_start tt sample_created 1 5000000 = Some sample_started) as E' by (vm_compute; reflexivity).
  rewrite Es in E'. injection E' as ->. by apply Permutation_singleton_r in Hp as ->.
Qed.

Lemma timer_operations_witness :
  timer_inv tt sample_service /\
  match tm_create tt sample_service TIMER_TYPE_ONE_SHOT 10 tt with
  | Some (Some id, s') => timer_inv tt s' /\ state_of tt sample_service id = None /\ state_of tt s' id = Some None /\
                          (forall y, y <> id -> state_of tt s' y = state_of tt sample_service y)
  | Some (None, s') => s' = sample_service /\ frees (timer_pool sample_service) = []
  | None => False
  end.
Proof.
  assert (timer_inv tt sample_service) as Hi by (exists [], []; apply sample_ok). split; [exact Hi|].
  apply (timer_operations tt sample_service 1 TIMER_TYPE_ONE_SHOT 10 tt 0 Hi).
Defined.

Lemma timer_execute_witness :
  exists s', tm_execute_tm_service tt log_call 1 (tm_set_param tt 1 sample_started 1 42) 5011000 [] =
    Some (s', [42]) /\ timer_inv tt s' /\ state_of tt s' 1 = Some None.
Proof.
  assert (timer_ok tt (tm_set_param tt 1 sample_started 1 42) [1]%nat []) as Hok
    by (apply with_block_ok; [done|done|apply sample_started_ok]).
  destruct (timer_execute tt log_call 1 _ _ _ 5011000 [] [42] Hok) as (_ & _ & _ & _ & s' & E & Hi & Hs).
  - by vm_compute.
  - intros x Hx%list_elem_of_filter. destruct Hx as [_ ->%list_elem_of_singleton]. by vm_compute.
  - vm_compute. lia.
  - exists s'. split; [exact E|]. split; [exact Hi|]. rewrite Hs. by vm_compute.
Defined.

(** The timer started at 2{^32} ms, and the clock a minute later. *)
Lemma timers_never_fire_witness :
  let s := default sample_service (tm_start tt sample_created 1 (2 ^ 32 * 1000)) in
  rtc (late_step tt log_call) sample_service s /\
  tm_execute_tm_service tt log_call 1 s (2 ^ 32 * 1000 + 60000000) [] = Some (s, []).
Proof.
  intros s.
  assert (rtc (late_step tt log_call) sample_service s) as Hr.
  { eapply rtc_l; [apply (late_create tt log_call _ TIMER_TYPE_ONE_SHOT 10 tt (Some 1%nat) sample_created);
      [by_decide|vm_compute; reflexivity]|].
    eapply rtc_once, (late_start tt log_call _ 1 (2 ^ 32 * 1000)); [by_decide|by vm_compute|vm_compute; reflexivity]. }
  split; [exact Hr|]. apply (timers_never_fire tt log_call sample_pool s); [apply sample_ok| |exact Hr].
  intros x [H1 H2]. by apply H2.
Defined.

(** An expiry function that fails leaves the timer in both lists: the idle list is
    reached from the active one, whose head still designates the timer. *)
Example failing_expiry :
  exists s, expire_one tt (fun _ _ w => (false, w)) sample_started 1 6000 tt = Some (s, tt) /\
    next (active_list s) = Some 1%nat /\ next (idle_list s) = Some 1%nat.
Proof. eexists. vm_compute. done. Qed.
End sample.
End TimerSpec.
