(* ===== verification/TimerService.v ===== *)
(** What the timers promise to the components that own them: the operations of
    [core_timer.h] and [core_event.h] that these use, and their effect on what can
    be observed of each timer.  [Timer] provides them. *)

From S2P Require Import Prelude Alloc DList Pool Timer TimerSpec.

(** A timer in use: the event it raises, its parameter, and whether it runs. *)
Record tm_view := mkView { tv_event : Z; tv_param : Z; tv_armed : bool }.
#[export] Instance tm_view_eq_dec : EqDecision tm_view.
Proof. solve_decision. Defined.

Class TimerService (T : Type) := {
  (** No result: the process has crashed.  No timer: the identifier is 0. *)
  timer_create : T -> Z -> Z -> option (option nat * T);
  timer_set_param1 : T -> nat -> Z -> T;
  tm_start : T -> nat -> T;
  tm_stop : T -> nat -> T;
  tm_delete : T -> nat -> T;
  tm_see : T -> nat -> option tm_view;
  timers_ok : T -> Prop;
  timer_create_ok : forall t ev dur, timers_ok t ->
    match timer_create t ev dur with
    | Some (Some id, t') => timers_ok t' /\ tm_see t id = None /\ tm_see t' id = Some (mkView ev 0 false) /\
                            forall y, y <> id -> tm_see t' y = tm_see t y
    | Some (None, t') => t' = t
    | None => True
    end;
  timer_set_param1_ok : forall t id v w, timers_ok t -> tm_see t id = Some w ->
    timers_ok (timer_set_param1 t id v) /\
    tm_see (timer_set_param1 t id v) id = Some (mkView (tv_event w) v (tv_armed w)) /\
    forall y, y <> id -> tm_see (timer_set_param1 t id v) y = tm_see t y;
  tm_start_ok : forall t id w, timers_ok t -> tm_see t id = Some w ->
    timers_ok (tm_start t id) /\ tm_see (tm_start t id) id = Some (mkView (tv_event w) (tv_param w) true) /\
    forall y, y <> id -> tm_see (tm_start t id) y = tm_see t y;
  tm_stop_ok : forall t id w, timers_ok t -> tm_see t id = Some w ->
    timers_ok (tm_stop t id) /\ tm_see (tm_stop t id) id = Some (mkView (tv_event w) (tv_param w) false) /\
    forall y, y <> id -> tm_see (tm_stop t id) y = tm_see t y;
  tm_delete_ok : forall t id w, timers_ok t -> tm_see t id = Some w ->
    timers_ok (tm_delete t id) /\ tm_see (tm_delete t id) id = None /\
    forall y, y <> id -> tm_see (tm_delete t id) y = tm_see t y
}.

(** ** The timers of [timer.c] *)

Module ClockedTimers.

Section service.
Context {F P : Type} {AllocP : Allocator P nat}.
Variable null_func : F.
(** The [expire_func] of the service. *)
Variable expire_func : F.

(** The service with the clock it reads, in microseconds. *)
Record clocked := mkClocked { now : Z; service : Timer.timers F P }.

Definition with_service (t : clocked) (s : option (Timer.timers F P)) : clocked :=
  match s with Some s => mkClocked (now t) s | None => t end.

(** [event_timer_create] of the macro [timer_create]: the event is [param1] of the
    timer.  Without a block [tm_set_param1] writes through the identifier 0 before
    the identifier is checked. *)
Definition event_timer_create (t : clocked) (ev dur : Z) : option (option nat * clocked) :=
  match Timer.tm_create null_func (service t) Timer.TIMER_TYPE_ONE_SHOT dur expire_func with
  | Some (Some id, s) => Some (Some id, mkClocked (now t) (Timer.tm_set_param null_func 1 s id ev))
  | Some (None, _) | None => None
  end.

Definition see (t : clocked) (id : nat) : option tm_view :=
  if decide (used (Timer.timer_pool (service t)) id) then
    let b := Timer.block null_func (service t) id in
    Some (mkView (rd (Timer.params b) 0) (rd (Timer.params b) 1) (bool_decide (Timer.running b = 1)))
  else None.

(** Every timer has room for its parameters. *)
Definition params_ok (s : Timer.timers F P) : Prop :=
  forall id, used (Timer.timer_pool s) id -> length (Timer.params (Timer.block null_func s id)) = 6%nat.

Definition clocked_ok (t : clocked) : Prop :=
  TimerSpec.timer_inv null_func (service t) /\ params_ok (service t).

Import TimerSpec.

(** Two services that agree on a timer. *)
Lemma see_same t t' id :
  (used (Timer.timer_pool (service t')) id <-> used (Timer.timer_pool (service t)) id) ->
  Timer.block null_func (service t') id = Timer.block null_func (service t) id ->
  see t' id = see t id.
Proof.
  unfold see. intros Hu ->. destruct (decide (used (Timer.timer_pool (service t)) id)) as [H|H].
  - by rewrite decide_True by by apply Hu.
  - rewrite decide_False; [done|]. by rewrite Hu.
Qed.

Lemma see_used t id w : see t id = Some w -> used (Timer.timer_pool (service t)) id.
Proof. unfold see. by case_decide. Qed.

Lemma see_block t id w : see t id = Some w ->
  let b := Timer.block null_func (service t) id in
  w = mkView (rd (Timer.params b) 0) (rd (Timer.params b) 1) (bool_decide (Timer.running b = 1)).
Proof. unfold see. case_decide; [|done]. by intros [= <-]. Qed.

Lemma see_at t id b :
  used (Timer.timer_pool (service t)) id -> Timer.block null_func (service t) id = b ->
  see t id = Some (mkView (rd (Timer.params b) 0) (rd (Timer.params b) 1) (bool_decide (Timer.running b = 1))).
Proof. unfold see. intros Hu <-. by rewrite decide_True. Qed.

Lemma rd_insert (l : list Z) k i v :
  (k < length l)%nat -> rd (<[k := v]> l) (Z.of_nat i) = if decide (i = k) then v else rd l (Z.of_nat i).
Proof.
  intros Hk. unfold rd. rewrite !Nat2Z.id. case_decide as Hi.
  - subst. by rewrite (nth_lookup_Some _ _ _ v) by by apply list_lookup_insert_eq.
  - rewrite !nth_lookup. by rewrite list_lookup_insert_ne.
Qed.

Lemma params_after s s' x (b : Timer.tm_block F) :
  params_ok s -> (forall y, used (Timer.timer_pool s') y -> y = x \/ used (Timer.timer_pool s) y) ->
  Timer.block null_func s' x = b -> length (Timer.params b) = 6%nat ->
  (forall y, y <> x -> Timer.block null_func s' y = Timer.block null_func s y) -> params_ok s'.
Proof.
  intros Hp Hu Hx Hb Hy id Hid. destruct (decide (id = x)) as [->|Hne]; [by rewrite Hx|].
  rewrite Hy by done. destruct (Hu id Hid); [done|]. by apply Hp.
Qed.

(** Writing a parameter. *)
Lemma set_param_ok k t id v w :
  (1 <= k <= 6)%nat -> clocked_ok t -> see t id = Some w ->
  let t' := mkClocked (now t) (Timer.tm_set_param null_func k (service t) id v) in
  clocked_ok t' /\
  see t' id = Some (mkView (if decide (k = 1%nat) then v else tv_event w)
                           (if decide (k = 2%nat) then v else tv_param w) (tv_armed w)) /\
  forall y, y <> id -> see t' y = see t y.
Proof.
  intros Hk [(act & idl & Hok) Hp] Hs t'. pose proof (see_used t id w Hs) as Hu.
  rewrite (see_block t id w Hs). cbn [tv_event tv_param tv_armed].
  assert (Hb : forall y, Timer.block null_func (service t') y =
    if decide (y = id) then
      let b := Timer.block null_func (service t) id in
      Timer.mkTm (Timer.expire_time b) (Timer.expire_func b) (<[(k - 1)%nat := v]> (Timer.params b))
        (Timer.tm_kind b) (Timer.running b) (Timer.ex_repeat b) (Timer.duration b)
    else Timer.block null_func (service t) y) by (intros y; unfold t'; cbn [service]; unfold Timer.tm_set_param; by rewrite block_with).
  split_and!.
  - split; [exists act, idl; by apply with_block_ok|].
    eapply (params_after (service t) _ id); [done|auto|by rewrite Hb, decide_True| |].
    + cbn. rewrite length_insert. by apply Hp.
    + intros y Hy. by rewrite Hb, decide_False.
  - specialize (Hp id Hu). rewrite (see_at t' id _ Hu (Hb id)), decide_True by done. cbv zeta.
    cbn [Timer.params Timer.running tv_event tv_param tv_armed]. set (ps := Timer.params _) in *.
    pose proof (rd_insert ps (k - 1) 0 v ltac:(lia)) as E0. pose proof (rd_insert ps (k - 1) 1 v ltac:(lia)) as E1.
    change (Z.of_nat 0) with 0 in E0. change (Z.of_nat 1) with 1 in E1. rewrite E0, E1.
    do 2 f_equal; repeat case_decide; (done || lia).
  - intros y Hy. apply see_same; [done|]. by rewrite Hb, decide_False.
Qed.

Lemma create_spec t ev dur :
  clocked_ok t ->
  match event_timer_create t ev dur with
  | Some (Some id, t') => clocked_ok t' /\ see t id = None /\ see t' id = Some (mkView ev 0 false) /\
                          forall y, y <> id -> see t' y = see t y
  | Some (None, t') => t' = t
  | None => True
  end.
Proof.
  intros [(act & idl & Hok) Hp]. unfold event_timer_create.
  pose proof (create_ok null_func _ _ _ Timer.TIMER_TYPE_ONE_SHOT dur expire_func Hok) as Hc.
  destruct (Timer.tm_create _ _ _ _ _) as [[[id|] s]|]; [|done..].
  destruct Hc as (Hn & Ha & (idl' & _ & Hok') & Hid & Hb). pose proof Hok as (Hal & _).
  destruct (alloc_used _ _ _ Hal Ha) as (_ & _ & Hu).
  set (t1 := mkClocked (now t) s).
  assert (clocked_ok t1) as Hok1.
  { split; [by exists act, idl'|]. eapply (params_after (service t) s id); [done| |exact Hid|done|done].
    intros y Hy. by apply Hu. }
  assert (see t1 id = Some (mkView 0 0 false)) as Hs1 by (erewrite see_at; [|apply Hu; by left|exact Hid]; done).
  destruct (set_param_ok 1 t1 id ev _ ltac:(lia) Hok1 Hs1) as (H1 & H2 & H3).
  split_and!; [done|unfold see; by rewrite decide_False|done|].
  intros y Hy. rewrite H3 by done. apply see_same; [|by apply Hb]. cbn. rewrite Hu. tauto.
Qed.

Definition start (t : clocked) (id : nat) : clocked :=
  with_service t (Timer.tm_start null_func (service t) id (now t)).
Definition stop (t : clocked) (id : nat) : clocked := with_service t (Timer.tm_stop null_func (service t) id).
Definition delete (t : clocked) (id : nat) : clocked := with_service t (Timer.tm_delete null_func (service t) id).

Lemma start_spec t id w : clocked_ok t -> see t id = Some w ->
  clocked_ok (start t id) /\ see (start t id) id = Some (mkView (tv_event w) (tv_param w) true) /\
  forall y, y <> id -> see (start t id) y = see t y.
Proof.
  intros [(act & idl & Hok) Hp] Hs. pose proof (see_used t id w Hs) as Hu.
  rewrite (see_block t id w Hs). unfold start.
  destruct (start_ok null_func _ _ _ id (now t) Hok Hu) as (s & act' & -> & Hok' & _ & Ep & Hx & Hb).
  cbn [with_service]. split_and!.
  - split; [by exists act', (filter (.≠ id) idl)|].
    eapply (params_after (service t) s id); [done|rewrite Ep; auto|exact Hx|by apply Hp|done].
  - erewrite see_at; [|cbn; rewrite Ep; done|exact Hx]. done.
  - intros y Hy. apply see_same; [by cbn; rewrite Ep|by apply Hb].
Qed.

Lemma stop_spec t id w : clocked_ok t -> see t id = Some w ->
  clocked_ok (stop t id) /\ see (stop t id) id = Some (mkView (tv_event w) (tv_param w) false) /\
  forall y, y <> id -> see (stop t id) y = see t y.
Proof.
  intros [(act & idl & Hok) Hp] Hs. pose proof (see_used t id w Hs) as Hu.
  rewrite (see_block t id w Hs). unfold stop.
  destruct (stop_ok null_func _ _ _ id Hok Hu) as (s & idl' & -> & Hok' & Ep & Hx & Hb).
  cbn [with_service]. split_and!.
  - split; [by exists (filter (.≠ id) act), idl'|].
    eapply (params_after (service t) s id); [done|rewrite Ep; auto|exact Hx|by apply Hp|done].
  - erewrite see_at; [|cbn; rewrite Ep; done|exact Hx]. done.
  - intros y Hy. apply see_same; [by cbn; rewrite Ep|by apply Hb].
Qed.

Lemma delete_spec t id w : clocked_ok t -> see t id = Some w ->
  clocked_ok (delete t id) /\ see (delete t id) id = None /\
  forall y, y <> id -> see (delete t id) y = see t y.
Proof.
  intros [(act & idl & Hok) Hp] Hs. pose proof (see_used t id w Hs) as Hu. unfold delete.
  destruct (delete_ok null_func _ _ _ id Hok Hu) as (s & -> & Hok' & Ep & Hb).
  pose proof Hok as (Hal & _). destruct (release_unused _ id Hal Hu) as [_ Hu']. cbn [with_service].
  split_and!.
  - split; [by exists (filter (.≠ id) act), (filter (.≠ id) idl)|].
    intros y Hy. cbn [service] in *. rewrite Hb. apply Hp. rewrite Ep, Hu' in Hy. tauto.
  - unfold see. cbn. rewrite decide_False; [done|]. rewrite Ep, Hu'. tauto.
  - intros y Hy. apply see_same; [|by apply Hb]. cbn. rewrite Ep, Hu'. tauto.
Qed.

Lemma set_param1_spec t id v w : clocked_ok t -> see t id = Some w ->
  let t' := mkClocked (now t) (Timer.tm_set_param null_func 2 (service t) id v) in
  clocked_ok t' /\ see t' id = Some (mkView (tv_event w) v (tv_armed w)) /\
  forall y, y <> id -> see t' y = see t y.
Proof.
  intros Hok Hs. destruct (set_param_ok 2 t id v w ltac:(lia) Hok Hs) as (H1 & H2 & H3).
  split_and!; [exact H1|exact H2|exact H3].
Qed.

(** The timers of [timer.c] keep the promise. *)
Definition clocked_timers : TimerService clocked := {|
  timer_create := event_timer_create;
  timer_set_param1 t id v := mkClocked (now t) (Timer.tm_set_param null_func 2 (service t) id v);
  tm_start := start;
  tm_stop := stop;
  tm_delete := delete;
  tm_see := see;
  timers_ok := clocked_ok;
  timer_create_ok := create_spec;
  timer_set_param1_ok := set_param1_spec;
  tm_start_ok := start_spec;
  tm_stop_ok := stop_spec;
  tm_delete_ok := delete_spec
|}.

End service.
End ClockedTimers.
