(* ===== verification/Hash.v ===== *)
(** [lib/core/src/hash.c]: hash tables.  An entry holds the address of its key,
    not a copy: the octets of the keys are read from the memory at the time of
    each call. *)

From S2P Require Import Prelude.

Module Hash.

Definition HASH_KEY_STRING : Z := -1.
Definition INITIAL_MAX : Z := 15.

(** ** The default hash function *)

(** One round of the times 33 hash, on [unsigned int]. *)
Definition times33 (hash p : Z) : Z := u32 (hash * 33 + p).

(** The octets up to the first NUL. *)
Fixpoint cstring (key : list Z) : list Z :=
  match key with
  | [] => []
  | p :: key => if decide (p = 0) then [] else p :: cstring key
  end.

(** The hash and the value of [*klen] after the call. *)
Definition hashfunc_default (key : list Z) (klen hash : Z) : Z * Z :=
  if decide (klen = HASH_KEY_STRING) then
    (foldl times33 hash (cstring key), Z.of_nat (length (cstring key)))
  else (foldl times33 hash (take (Z.to_nat klen) key), klen).

Definition core_hashfunc_default (key : list Z) (klen : Z) : Z * Z := hashfunc_default key klen 0.

Section hash.
(** [K]: addresses of keys; [V]: pointers that are not NULL. *)
Context {K V : Type}.

Record hash_entry := mkEntry { e_hash : Z; e_key : K; e_klen : Z; e_val : V }.

(** [array]: the chain of each bucket; [free]: the recycled entries. *)
Record hash_t := mkHash {
  array : list (list hash_entry);
  count : Z; max : Z; seed : Z;
  hash_func : option (list Z -> Z -> Z * Z);
  free : list hash_entry
}.

(** The octets from an address on. *)
Definition memory := K -> list Z.

Definition set_array (ht : hash_t) (a : list (list hash_entry)) : hash_t :=
  mkHash a (count ht) (max ht) (seed ht) (hash_func ht) (free ht).
Definition set_chain (ht : hash_t) (i : nat) (c : list hash_entry) : hash_t :=
  set_array ht (<[i := c]> (array ht)).
Definition set_count (ht : hash_t) (n : Z) : hash_t :=
  mkHash (array ht) n (max ht) (seed ht) (hash_func ht) (free ht).
Definition set_free (ht : hash_t) (l : list hash_entry) : hash_t :=
  mkHash (array ht) (count ht) (max ht) (seed ht) (hash_func ht) l.

(** ** Creation *)

Definition alloc_array (max : Z) : list (list hash_entry) := replicate (Z.to_nat (max + 1)) [].

(** [entropy]: the time and the addresses the seed is made of. *)
Definition hash_make (entropy : Z) : hash_t :=
  mkHash (alloc_array INITIAL_MAX) 0 INITIAL_MAX (u32 (entropy - 1)) None [].
Definition hash_make_custom (entropy : Z) (hash_func : list Z -> Z -> Z * Z) : hash_t :=
  mkHash (alloc_array INITIAL_MAX) 0 INITIAL_MAX (u32 (entropy - 1)) (Some hash_func) [].

(** ** Iteration *)

(** [this], the entries that follow it in its chain ([next]) and the index of
    the next bucket. *)
Record hash_index := mkIndex { this : hash_entry; next : list hash_entry; index : nat }.

(** The loop [while (!hi->this)] of [hash_next], on the [n] buckets left. *)
Fixpoint next_bucket (n : nat) (ht : hash_t) (index : nat) : option hash_index :=
  match n with
  | O => None
  | S n =>
      match array ht !! index with
      | Some (he :: c) => Some (mkIndex he c (S index))
      | _ => next_bucket n ht (S index)
      end
  end.
Definition hash_next_from (ht : hash_t) (next : list hash_entry) (index : nat) : option hash_index :=
  match next with
  | he :: c => Some (mkIndex he c index)
  | [] => next_bucket (Z.to_nat (max ht + 1) - index) ht index
  end.
Definition hash_next (ht : hash_t) (hi : hash_index) : option hash_index :=
  hash_next_from ht (next hi) (index hi).
Definition hash_first (ht : hash_t) : option hash_index := hash_next_from ht [] 0.

(** The entries met by [for (hi = hash_first(ht); hi; hi = hash_next(hi))] while
    the table does not change, for [n] steps. *)
Fixpoint iterate (n : nat) (ht : hash_t) (hi : option hash_index) : list hash_entry :=
  match n, hi with
  | S n, Some hi => this hi :: iterate n ht (hash_next ht hi)
  | _, _ => []
  end.
Definition entries (ht : hash_t) : list hash_entry :=
  iterate (length (concat (array ht))) ht (hash_first ht).

(** ** Expansion *)

Definition push (a : list (list hash_entry)) (i : nat) (he : hash_entry) : list (list hash_entry) :=
  alter (cons he) i a.
Definition expand_array (ht : hash_t) : hash_t :=
  let new_max := u32 (max ht * 2 + 1) in
  let new_array := foldl (fun a he => push a (Z.to_nat (e_hash he .& new_max)) he)
                         (alloc_array new_max) (entries ht) in
  mkHash new_array (count ht) new_max (seed ht) (hash_func ht) (free ht).

(** ** Look-up and update *)

Definition hash_of (ht : hash_t) (key : list Z) (klen : Z) : Z * Z :=
  match hash_func ht with
  | Some f => f key klen
  | None => hashfunc_default key klen (seed ht)
  end.

(** The comparison of the scan; [memcmp] of the [klen] octets. *)
Definition matches (mem : memory) (hash klen : Z) (key : K) (he : hash_entry) : bool :=
  bool_decide (e_hash he = hash) && bool_decide (e_klen he = klen) &&
  bool_decide (take (Z.to_nat klen) (mem (e_key he)) = take (Z.to_nat klen) (mem key)).

(** The position in the chain at which the scan stops. *)
Fixpoint scan (p : hash_entry -> bool) (c : list hash_entry) : nat :=
  match c with
  | [] => 0
  | he :: c => if p he then 0 else S (scan p c)
  end%nat.

Definition chain (ht : hash_t) (i : nat) : list hash_entry := default [] (array ht !! i).

(** The table, and the bucket and the position of the pointer returned. *)
Definition find_entry (mem : memory) (ht : hash_t) (key : K) (klen : Z) (val : option V)
  : hash_t * (nat * nat) :=
  let '(hash, klen) := hash_of ht (mem key) klen in
  let i := Z.to_nat (hash .& max ht) in
  let c := chain ht i in
  let j := scan (matches mem hash klen key) c in
  match c !! j, val with
  | None, Some v =>
      let he := mkEntry hash key klen v in
      let ht := set_free ht (tail (free ht)) in
      let ht := set_chain ht i (c ++ [he]) in
      (set_count ht (u32 (count ht + 1)), (i, j))
  | _, _ => (ht, (i, j))
  end.

Definition hash_get (mem : memory) (ht : hash_t) (key : K) (klen : Z) : option V :=
  let '(ht, (i, j)) := find_entry mem ht key klen None in
  match chain ht i !! j with
  | Some he => Some (e_val he)
  | None => None
  end.

Definition set_val (he : hash_entry) (v : V) : hash_entry :=
  mkEntry (e_hash he) (e_key he) (e_klen he) v.

Definition hash_set (mem : memory) (ht : hash_t) (key : K) (klen : Z) (val : option V) : hash_t :=
  let '(ht, (i, j)) := find_entry mem ht key klen val in
  match chain ht i !! j, val with
  | Some old, None =>
      let ht := set_chain ht i (delete j (chain ht i)) in
      let ht := set_free ht (old :: free ht) in
      set_count ht (u32 (count ht - 1))
  | Some he, Some v =>
      let ht := set_chain ht i (<[j := set_val he v]> (chain ht i)) in
      if decide (count ht > max ht) then expand_array ht else ht
  | None, _ => ht
  end.

Definition hash_get_or_set (mem : memory) (ht : hash_t) (key : K) (klen : Z) (val : option V)
  : option V * hash_t :=
  let '(ht, (i, j)) := find_entry mem ht key klen val in
  match chain ht i !! j with
  | Some he => (Some (e_val he), if decide (count ht > max ht) then expand_array ht else ht)
  | None => (None, ht)
  end.

Definition hash_count (ht : hash_t) : Z := count ht.

(** [n]: a bound on the number of entries the loop meets. *)
Fixpoint clear_loop (n : nat) (mem : memory) (ht : hash_t) (hi : option hash_index) : hash_t :=
  match n, hi with
  | S n, Some hi =>
      let ht := hash_set mem ht (e_key (this hi)) (e_klen (this hi)) None in
      clear_loop n mem ht (hash_next ht hi)
  | _, _ => ht
  end.
Definition hash_clear (mem : memory) (ht : hash_t) : hash_t :=
  clear_loop (length (concat (array ht))) mem ht (hash_first ht).

(** [comp] on the state the callback works on; true when no call returned 0. *)
Fixpoint do_loop {S : Type} (n : nat) (comp : S -> K -> Z -> V -> S * bool) (rec : S)
    (ht : hash_t) (hi : option hash_index) : S * bool :=
  match n, hi with
  | Datatypes.S n, Some hi =>
      let '(rec, rv) := comp rec (e_key (this hi)) (e_klen (this hi)) (e_val (this hi)) in
      if rv then do_loop n comp rec ht (hash_next ht hi) else (rec, false)
  | _, _ => (rec, true)
  end.
Definition hash_do {S : Type} (comp : S -> K -> Z -> V -> S * bool) (rec : S) (ht : hash_t) : S * bool :=
  do_loop (length (concat (array ht))) comp rec ht (hash_first ht).

End hash.

#[global] Arguments hash_entry : clear implicits.
#[global] Arguments hash_t : clear implicits.
#[global] Arguments hash_index : clear implicits.
#[global] Arguments memory : clear implicits.

End Hash.
