(* ===== verification/HashSpec.v ===== *)
(** The hash tables of [Hash] as finite maps from the octets of the keys to the
    values, as long as the memory the keys are in does not change. *)

From S2P Require Import Prelude Hash.

Module HashSpec.
Import Hash.

(** ** Lists of lists *)

Section concat.
Context {A : Type}.
Implicit Types (a : list (list A)) (c : list A).

Lemma concat_split a i c :
  a !! i = Some c -> concat a = concat (take i a) ++ c ++ concat (drop (S i) a).
Proof. intros H. rewrite <- (take_drop_middle a i c H) at 1. by rewrite concat_app. Qed.

Lemma concat_insert a i c c' :
  a !! i = Some c -> concat (<[i := c']> a) = concat (take i a) ++ c' ++ concat (drop (S i) a).
Proof.
  intros H. apply lookup_lt_Some in H.
  rewrite (concat_split _ i c') by (by rewrite list_lookup_insert_eq).
  rewrite take_insert_ge by lia. by rewrite drop_insert_lt by lia.
Qed.

Lemma elem_of_concat a x : x ∈ concat a <-> exists i c, a !! i = Some c /\ x ∈ c.
Proof.
  rewrite list_elem_of_In, in_concat. split.
  - intros (c & Hc & Hx). apply list_elem_of_In, list_elem_of_lookup in Hc as [i Hi].
    exists i, c. split; [done|]. by apply list_elem_of_In.
  - intros (i & c & Hi & Hx). exists c. split; apply list_elem_of_In; [|done].
    by eapply list_elem_of_lookup_2.
Qed.

Lemma concat_replicate_nil n : concat (replicate n (@nil A)) = [].
Proof. by induction n. Qed.

Lemma push_perm a i x : (i < length a)%nat -> concat (alter (cons x) i a) ≡ₚ x :: concat a.
Proof.
  intros [c Hc]%lookup_lt_is_Some_2.
  rewrite (concat_split (alter (cons x) i a) i (x :: c)).
  2: { by rewrite list_lookup_alter_eq, Hc. }
  rewrite take_alter_ge, drop_alter_lt by lia. rewrite (concat_split a i c Hc).
  by rewrite Permutation_middle.
Qed.
End concat.

Lemma delete_list_insert {A} (l : list A) j x : delete j (<[j := x]> l) = delete j l.
Proof. revert j. induction l as [|y l IH]; intros [|j]; [done..|]. cbn. f_equal. apply IH. Qed.

(** ** Scanning a chain *)

Section scan.
Context {K V : Type} (p : hash_entry K V -> bool).

Lemma scan_some c he :
  c !! scan p c = Some he -> p he = true.
Proof.
  induction c as [|x c IH]; [done|]. cbn. destruct (p x) eqn:E; [|exact IH].
  by intros [= <-].
Qed.

Lemma scan_none c :
  c !! scan p c = None -> scan p c = length c /\ forall he, he ∈ c -> p he = false.
Proof.
  induction c as [|x c IH]; [by split; [|intros ? ?%elem_of_nil]|].
  cbn. destruct (p x) eqn:E; [done|]. intros [-> H]%IH. split; [done|].
  intros he [->|Hh]%elem_of_cons; [done|by apply H].
Qed.
End scan.

(** ** The hash functions *)

(** [h] gives the hash of a key from its octets alone. *)
Definition hashes {K V} (ht : hash_t K V) (h : list Z -> Z) : Prop :=
  forall s rest, hash_of ht (s ++ rest) (Z.of_nat (length s)) = (h s, Z.of_nat (length s)).

Lemma default_hashes {K V} (ht : hash_t K V) :
  hash_func ht = None -> hashes ht (foldl times33 (seed ht)).
Proof.
  intros E s rest. unfold hash_of, hashfunc_default. rewrite E.
  rewrite decide_False by (unfold HASH_KEY_STRING; lia).
  by rewrite Nat2Z.id, take_app_length.
Qed.

Lemma cstring_app s rest : Forall (fun p => p <> 0) s -> cstring (s ++ 0 :: rest) = s.
Proof.
  induction 1 as [|p s Hp _ IH]; [done|]. cbn. rewrite decide_False by done. by rewrite IH.
Qed.

(** A key given as a string hashes as its octets without the NUL. *)
Lemma string_key {K V} (ht : hash_t K V) s rest :
  hash_func ht = None -> Forall (fun p => p <> 0) s ->
  hash_of ht (s ++ 0 :: rest) HASH_KEY_STRING = (foldl times33 (seed ht) s, Z.of_nat (length s)).
Proof.
  intros E Hs. unfold hash_of, hashfunc_default. rewrite E, decide_True by done.
  by rewrite cstring_app.
Qed.

(** ** Well-formed tables *)

Section spec.
Context {K V : Type} (mem : memory K) (h : list Z -> Z).
Implicit Types (ht : hash_t K V) (e : hash_entry K V).

(** The octets of the key of an entry. *)
Definition octets e : list Z := take (Z.to_nat (e_klen e)) (mem (e_key e)).
Definition pair_of e : list Z * V := (octets e, e_val e).
Definition all ht : list (hash_entry K V) := concat (array ht).

(** The finite map a table stands for. *)
Definition map_of ht : gmap (list Z) V := list_to_map (pair_of <$> all ht).

Definition entry_ok e : Prop :=
  0 <= e_klen e <= Z.of_nat (length (mem (e_key e))) /\ e_hash e = h (octets e).
Definition bucket (m hash : Z) : nat := Z.to_nat (hash .& m).
Definition is_max (m : Z) : Prop := exists k, 4 <= k <= 31 /\ m = Z.ones k.

Record wf ht : Prop := mkWf {
  wf_hashes : hashes ht h;
  wf_max : is_max (max ht);
  wf_length : Z.of_nat (length (array ht)) = max ht + 1;
  wf_entries : Forall entry_ok (all ht);
  wf_buckets : forall i c e, array ht !! i = Some c -> e ∈ c -> i = bucket (max ht) (e_hash e);
  wf_keys : NoDup (octets <$> all ht);
  wf_count : count ht = Z.of_nat (length (all ht)) }.

(** The key [s] is passed as [key], [klen]. *)
Definition names ht (key : K) (klen : Z) (s : list Z) : Prop :=
  hash_of ht (mem key) klen = (h s, Z.of_nat (length s)) /\ take (length s) (mem key) = s.

Lemma names_exact ht key s rest :
  hashes ht h -> mem key = s ++ rest -> names ht key (Z.of_nat (length s)) s.
Proof. intros H E. split; rewrite E; [apply H|apply take_app_length]. Qed.

Lemma names_entry ht e : hashes ht h -> entry_ok e -> names ht (e_key e) (e_klen e) (octets e).
Proof.
  intros H [Hl _]. assert (Z.of_nat (length (octets e)) = e_klen e) as L
    by (unfold octets; rewrite length_take; lia).
  split.
  - specialize (H (octets e) (drop (Z.to_nat (e_klen e)) (mem (e_key e)))).
    unfold octets at 1 in H. rewrite take_drop in H. by rewrite L in H |- *.
  - unfold octets at 2. f_equal. lia.
Qed.

Lemma is_max_pos m : is_max m -> 15 <= m < 2 ^ 31.
Proof.
  intros (k & Hk & ->). rewrite Z.ones_equiv. unfold Z.pred.
  pose proof (Z.pow_le_mono_r 2 4 k). pose proof (Z.pow_le_mono_r 2 k 31). lia.
Qed.

Lemma bucket_lt ht hash : wf ht -> (bucket (max ht) hash < length (array ht))%nat.
Proof.
  intros H. pose proof (wf_length _ H). destruct (wf_max _ H) as (k & Hk & E).
  unfold bucket. rewrite E in *. rewrite Z.land_ones by lia.
  rewrite Z.ones_equiv in *. unfold Z.pred in *.
  assert (0 < 2 ^ k) as Hp by (apply Z.pow_pos_nonneg; lia).
  pose proof (Z.mod_pos_bound hash (2 ^ k) Hp). lia.
Qed.

Lemma map_of_lookup ht s v :
  wf ht -> map_of ht !! s = Some v <-> exists e, e ∈ all ht /\ octets e = s /\ e_val e = v.
Proof.
  intros H. unfold map_of. rewrite <- elem_of_list_to_map.
  - rewrite list_elem_of_fmap. unfold pair_of. split.
    + intros (e & [= -> ->] & He). eauto.
    + intros (e & He & <- & <-). eauto.
  - rewrite <- list_fmap_compose. exact (wf_keys _ H).
Qed.

Lemma map_of_perm ht ht' : wf ht -> all ht ≡ₚ all ht' -> map_of ht = map_of ht'.
Proof.
  intros H E. unfold map_of. apply list_to_map_proper; [|by rewrite E].
  rewrite <- list_fmap_compose. exact (wf_keys _ H).
Qed.

Lemma size_map_of ht : wf ht -> Z.of_nat (size (map_of ht)) = count ht.
Proof.
  intros H. rewrite (wf_count _ H). f_equal. unfold map_of.
  assert (NoDup (pair_of <$> all ht).*1) as N
    by (rewrite <- list_fmap_compose; exact (wf_keys _ H)).
  pose proof (map_to_list_to_map _ N) as E. rewrite <- length_map_to_list, E. apply length_fmap.
Qed.

(** ** Iteration *)

Lemma next_bucket_spec ht n i :
  (length (array ht) <= i + n)%nat ->
  match next_bucket n ht i with
  | None => concat (drop i (array ht)) = []
  | Some hi => concat (drop i (array ht)) = this hi :: next hi ++ concat (drop (index hi) (array ht))
  end.
Proof.
  revert i. induction n as [|n IH]; intros i Hn; cbn.
  { by rewrite drop_ge by lia. }
  specialize (IH (S i) ltac:(lia)). destruct (array ht !! i) as [c|] eqn:E.
  - rewrite (drop_S _ _ _ E). destruct c; [exact IH|done].
  - apply lookup_ge_None in E. rewrite drop_ge by lia. rewrite drop_ge in IH by lia. exact IH.
Qed.

(** What an iterator has still to meet. *)
Definition ahead ht (hi : option (hash_index K V)) : list (hash_entry K V) :=
  match hi with
  | Some hi => this hi :: next hi ++ concat (drop (index hi) (array ht))
  | None => []
  end.

Lemma ahead_next_from ht nx i :
  Z.of_nat (length (array ht)) = max ht + 1 ->
  ahead ht (hash_next_from ht nx i) = nx ++ concat (drop i (array ht)).
Proof.
  intros L. unfold hash_next_from. destruct nx; [|done].
  pose proof (next_bucket_spec ht (Z.to_nat (max ht + 1) - i) i ltac:(lia)) as H.
  by destruct (next_bucket _ ht i).
Qed.

Lemma iterate_ahead ht n hi :
  Z.of_nat (length (array ht)) = max ht + 1 -> iterate n ht hi = take n (ahead ht hi).
Proof.
  intros L. revert hi. induction n as [|n IH]; intros hi; [done|].
  destruct hi as [hi|]; [|done]. cbn [iterate ahead take]. f_equal.
  rewrite IH. unfold hash_next. by rewrite ahead_next_from.
Qed.

(** A loop over a table that does not change meets every entry once, bucket by
    bucket. *)
Lemma entries_all ht : Z.of_nat (length (array ht)) = max ht + 1 -> entries ht = all ht.
Proof.
  intros L. unfold entries. rewrite iterate_ahead by done.
  unfold hash_first. rewrite ahead_next_from by done. by apply take_ge.
Qed.

(** ** Changes of one chain *)

Lemma all_set_chain ht i c c' :
  array ht !! i = Some c ->
  all (set_chain ht i c') = concat (take i (array ht)) ++ c' ++ concat (drop (S i) (array ht)).
Proof. intros H. unfold all, set_chain. cbn. by rewrite (concat_insert _ _ c). Qed.

Lemma all_chain ht i c :
  array ht !! i = Some c ->
  all ht = concat (take i (array ht)) ++ c ++ concat (drop (S i) (array ht)).
Proof. apply concat_split. Qed.

Lemma wf_set_chain ht i c c' n l :
  wf ht -> array ht !! i = Some c -> Forall entry_ok c' ->
  (forall e, e ∈ c' -> i = bucket (max ht) (e_hash e)) ->
  NoDup (octets <$> all (set_chain ht i c')) ->
  n = count ht + Z.of_nat (length c') - Z.of_nat (length c) ->
  wf (set_count (set_free (set_chain ht i c') l) n).
Proof.
  intros H Hc Hok Hb Hnd Hn. pose proof (wf_entries _ H) as He. pose proof (wf_count _ H) as Hcount.
  rewrite (all_chain _ _ _ Hc) in He, Hcount.
  apply Forall_app in He as [He1 [_ He2]%Forall_app].
  assert (all (set_count (set_free (set_chain ht i c') l) n) =
    concat (take i (array ht)) ++ c' ++ concat (drop (S i) (array ht))) as Ea
    by exact (all_set_chain _ _ _ _ Hc).
  rewrite (all_set_chain _ _ _ _ Hc) in Hnd.
  split; rewrite ?Ea; try apply H.
  - change (Z.of_nat (length (<[i := c']> (array ht))) = max ht + 1). rewrite length_insert. apply H.
  - by repeat (apply Forall_app_2; try done).
  - intros i' x e Hi. apply list_lookup_insert_Some in Hi as [(-> & -> & _)|[_ Hi]]; [apply Hb|].
    by apply (wf_buckets _ H).
  - exact Hnd.
  - cbn. rewrite !length_app in *. lia.
Qed.

(** ** The scan *)

Lemma matches_octets ht e key klen s :
  names ht key klen s -> entry_ok e ->
  matches mem (h s) (Z.of_nat (length s)) key e = true <-> octets e = s.
Proof.
  intros [_ Hs] [Hl Hh]. unfold matches. rewrite Nat2Z.id, Hs.
  rewrite !andb_true_iff, !bool_decide_eq_true. split.
  - intros [[_ E] <-]. unfold octets. by rewrite E, Nat2Z.id.
  - intros <-. rewrite Hh. unfold octets. rewrite length_take.
    split_and!; [done|lia|]. by rewrite Nat.min_l by lia.
Qed.

Lemma scan_spec ht key klen s :
  wf ht -> names ht key klen s ->
  let i := bucket (max ht) (h s) in
  let j := scan (matches mem (h s) (Z.of_nat (length s)) key) (chain ht i) in
  array ht !! i = Some (chain ht i) /\
  match chain ht i !! j with
  | Some e => octets e = s
  | None => j = length (chain ht i) /\ forall e, e ∈ all ht -> octets e <> s
  end.
Proof.
  intros H Hs i j. destruct (lookup_lt_is_Some_2 _ _ (bucket_lt ht (h s) H)) as [c Hc].
  fold i in Hc. assert (chain ht i = c) as Ec by (unfold chain; by rewrite Hc).
  subst j. rewrite Ec. split; [done|].
  pose proof (wf_entries _ H) as He. rewrite Forall_forall in He.
  destruct (c !! _) as [e|] eqn:Ej.
  - pose proof (scan_some _ _ _ Ej) as M. apply (matches_octets ht) with (klen := klen) in M; [done|done|].
    apply He. apply elem_of_concat. exists i, c. split; [done|]. by eapply list_elem_of_lookup_2.
  - apply scan_none in Ej as [Ej Hn]. split; [done|]. intros e Hin Ho.
    pose proof (He e Hin) as Hok. apply elem_of_concat in Hin as (i' & c' & Hi' & Hin).
    assert (i' = i) as ->.
    { rewrite (wf_buckets _ H i' c' e Hi' Hin). destruct Hok as [_ ->]. by rewrite Ho. }
    rewrite Hc in Hi'. injection Hi' as <-. specialize (Hn e Hin).
    apply (matches_octets ht e key klen s Hs Hok) in Ho. congruence.
Qed.

(** ** Adding, replacing and removing an entry *)

Definition ltm (l : list (hash_entry K V)) : gmap (list Z) V := list_to_map (pair_of <$> l).

Lemma map_of_cons ht e l :
  wf ht -> all ht ≡ₚ e :: l ->
  map_of ht = <[octets e := e_val e]> (ltm l) /\ ltm l !! octets e = None.
Proof.
  intros H E. pose proof (wf_keys _ H) as N. rewrite E in N. apply NoDup_cons in N as [Hn _].
  split.
  - unfold map_of. rewrite (list_to_map_proper _ (pair_of <$> e :: l)); [done| |by rewrite E].
    rewrite <- list_fmap_compose. exact (wf_keys _ H).
  - apply not_elem_of_list_to_map. rewrite <- list_fmap_compose. exact Hn.
Qed.

(** The entries when the chain [i] becomes [c']. *)
Lemma all_split ht i c :
  array ht !! i = Some c -> exists l, all ht ≡ₚ c ++ l /\
    forall c' l' n, all (set_count (set_free (set_chain ht i c') l') n) ≡ₚ c' ++ l.
Proof.
  intros Hc. exists (concat (take i (array ht)) ++ concat (drop (S i) (array ht))). split.
  - rewrite (all_chain _ _ _ Hc). by rewrite Permutation_app_swap_app.
  - intros c' l' n. change (all _) with (all (set_chain ht i c')).
    rewrite (all_set_chain _ _ _ _ Hc). by rewrite Permutation_app_swap_app.
Qed.

Lemma octets_set_val e v : octets (set_val e v) = octets e.
Proof. done. Qed.

Lemma chain_bucket ht i c e :
  wf ht -> array ht !! i = Some c -> e ∈ c -> entry_ok e /\ i = bucket (max ht) (e_hash e).
Proof.
  intros H Hc He. split; [|by eapply wf_buckets].
  pose proof (wf_entries _ H) as Hw. rewrite Forall_forall in Hw. apply Hw, elem_of_concat. eauto.
Qed.

(** A new entry at the end of its chain. *)
Lemma added ht key klen s v l :
  wf ht -> names ht key klen s -> (forall e, e ∈ all ht -> octets e <> s) ->
  let i := bucket (max ht) (h s) in
  let e := mkEntry (h s) key (Z.of_nat (length s)) v in
  let ht' := set_count (set_free (set_chain ht i (chain ht i ++ [e])) l) (count ht + 1) in
  wf ht' /\ map_of ht' = <[s := v]> (map_of ht).
Proof.
  intros H Hs Hnew i e ht'. destruct (scan_spec ht key klen s H Hs) as [Hc _]. fold i in Hc.
  destruct (all_split ht i _ Hc) as (r & E & E').
  assert (octets e = s) as Eo by (unfold octets; cbn; rewrite Nat2Z.id; apply Hs).
  assert (all ht' ≡ₚ e :: all ht) as Ea.
  { unfold ht'. rewrite E', E. rewrite <- (assoc_L (++)). symmetry. apply Permutation_middle. }
  assert (wf ht') as H'.
  { unfold ht'. eapply wf_set_chain; [done|exact Hc| | | |].
    - apply Forall_app_2; [|apply Forall_singleton].
      + apply Forall_forall. intros x Hx. by apply (chain_bucket ht i _ x H Hc).
      + split; [|by rewrite Eo]. cbn. destruct Hs as [_ <-]. rewrite length_take. lia.
    - intros x [Hx| ->%list_elem_of_singleton]%elem_of_app; [|done].
      by apply (chain_bucket ht i _ x H Hc).
    - change (NoDup (octets <$> all ht')). rewrite Ea. cbn. apply NoDup_cons. split; [|apply H].
      rewrite Eo. intros (x & Ex & Hx)%list_elem_of_fmap. by apply (Hnew x).
    - rewrite length_app. cbn. lia. }
  split; [done|]. destruct (map_of_cons ht' e _ H' Ea) as [-> _]. by rewrite Eo.
Qed.

(** A new value for the entry at position [j] of chain [i]. *)
Lemma replaced ht i j e v :
  wf ht -> array ht !! i = Some (chain ht i) -> chain ht i !! j = Some e ->
  let ht' := set_chain ht i (<[j := set_val e v]> (chain ht i)) in
  wf ht' /\ map_of ht' = <[octets e := v]> (map_of ht).
Proof.
  intros H Hc Hj ht'. destruct (all_split ht i _ Hc) as (r & E & E').
  set (r' := delete j (chain ht i) ++ r).
  assert (all ht ≡ₚ e :: r') as Ea by (rewrite E, (delete_Permutation _ _ _ Hj); done).
  assert (ht' = set_count (set_free ht' (free ht)) (count ht)) as Eh by (unfold ht'; by destruct ht).
  assert (all ht' ≡ₚ set_val e v :: r') as Ea'.
  { rewrite Eh. unfold ht' at 1. rewrite E'.
    rewrite (delete_Permutation (<[j:=_]> _) j (set_val e v)).
    - by rewrite delete_list_insert.
    - apply list_lookup_insert_eq. by eapply lookup_lt_Some. }
  assert (wf ht') as H'.
  { rewrite Eh. unfold ht' at 1. eapply wf_set_chain; [done|exact Hc| | | |].
    - apply Forall_forall. intros x Hx. apply elem_of_insert_inv in Hx as [->|Hx].
      + apply list_elem_of_lookup_2 in Hj. by apply (chain_bucket ht i _ e H Hc) in Hj as [? _].
      + by apply (chain_bucket ht i _ x H Hc).
    - intros x Hx. apply elem_of_insert_inv in Hx as [->|Hx].
      + apply list_elem_of_lookup_2 in Hj. by apply (chain_bucket ht i _ e H Hc) in Hj as [_ ?].
      + by apply (chain_bucket ht i _ x H Hc).
    - change (NoDup (octets <$> all ht')). rewrite Ea'. cbn. rewrite octets_set_val.
      pose proof (wf_keys _ H) as N. by rewrite Ea in N.
    - rewrite length_insert. lia. }
  split; [done|]. destruct (map_of_cons ht' _ _ H' Ea') as [-> _].
  destruct (map_of_cons ht _ _ H Ea) as [-> _]. rewrite octets_set_val. cbn. by rewrite insert_insert_eq.
Qed.

(** The removal of the entry at position [j] of chain [i]. *)
Lemma removed ht i j e l :
  wf ht -> array ht !! i = Some (chain ht i) -> chain ht i !! j = Some e ->
  let ht' := set_count (set_free (set_chain ht i (delete j (chain ht i))) l) (count ht - 1) in
  wf ht' /\ map_of ht' = delete (octets e) (map_of ht) /\ all ht ≡ₚ e :: all ht'.
Proof.
  intros H Hc Hj ht'. destruct (all_split ht i _ Hc) as (r & E & E').
  assert (all ht ≡ₚ e :: all ht') as Ea.
  { unfold ht'. rewrite E', E. by rewrite (delete_Permutation _ _ _ Hj) at 1. }
  assert (wf ht') as H'.
  { unfold ht'. eapply wf_set_chain; [done|exact Hc| | | |].
    - apply Forall_forall. intros x Hx%list_elem_of_delete_inv. by apply (chain_bucket ht i _ x H Hc).
    - intros x Hx%list_elem_of_delete_inv. by apply (chain_bucket ht i _ x H Hc).
    - change (NoDup (octets <$> all ht')). pose proof (wf_keys _ H) as N. rewrite Ea in N.
      by apply NoDup_cons in N as [_ N].
    - apply lookup_lt_Some in Hj as L. rewrite length_delete by eauto. lia. }
  split_and!; [done| |done]. destruct (map_of_cons ht _ _ H Ea) as [-> Hn].
  rewrite delete_insert_eq, delete_id by exact Hn. done.
Qed.

(** ** Expansion *)

Lemma pushed m l a :
  (forall e, e ∈ l -> (bucket m (e_hash e) < length a)%nat) ->
  let a' := foldl (fun a e => push a (bucket m (e_hash e)) e) a l in
  length a' = length a /\ concat a' ≡ₚ l ++ concat a /\
  forall i c (e : hash_entry K V), a' !! i = Some c -> e ∈ c ->
    i = bucket m (e_hash e) \/ exists c0, a !! i = Some c0 /\ e ∈ c0.
Proof.
  revert a. induction l as [|x l IH]; intros a Hl; cbn.
  { split_and!; [done|done|]. eauto. }
  pose proof (Hl x (list_elem_of_here _ _)) as Hx.
  destruct (IH (push a (bucket m (e_hash x)) x)) as (L & P & B).
  { intros e He. unfold push. rewrite length_alter. apply Hl. by right. }
  split_and!.
  - rewrite L. apply length_alter.
  - rewrite P. unfold push. rewrite push_perm by done. symmetry. apply Permutation_middle.
  - intros i c e Hi He. destruct (B i c e Hi He) as [->|(c0 & Hc0 & He0)]; [by left|].
    unfold push in Hc0. rewrite list_lookup_alter in Hc0. case_decide as Ei; [|by eauto].
    subst i. destruct (a !! _) as [c1|] eqn:Ha; [|done]. injection Hc0 as <-.
    apply elem_of_cons in He0 as [->|He0]; [by left|]. right. by exists c1.
Qed.

Lemma max_double m :
  is_max m -> m < 2 ^ 31 - 1 -> is_max (u32 (m * 2 + 1)) /\ u32 (m * 2 + 1) = m * 2 + 1.
Proof.
  intros (k & Hk & ->) Hm.
  assert (k <= 30) as Hk'.
  { destruct (decide (k = 31)) as [->|]; [|lia]. vm_compute in Hm. discriminate. }
  assert (Z.ones k * 2 + 1 = Z.ones (k + 1)) as E.
  { rewrite !Z.ones_equiv, Z.pow_add_r by lia. unfold Z.pred. lia. }
  assert (inw 32 (Z.ones k * 2 + 1)) as W.
  { rewrite E, Z.ones_equiv. unfold inw, Z.pred.
    pose proof (Z.pow_le_mono_r 2 (k + 1) 32). pose proof (Z.pow_pos_nonneg 2 (k + 1)). lia. }
  rewrite u32_id by done. split; [|done]. exists (k + 1). split; [lia|done].
Qed.

Lemma expanded ht :
  wf ht -> max ht < 2 ^ 31 - 1 ->
  let ht' := expand_array ht in
  wf ht' /\ all ht' ≡ₚ all ht /\ count ht' = count ht /\ max ht' = max ht * 2 + 1.
Proof.
  intros H Hm ht'. destruct (max_double _ (wf_max _ H) Hm) as [M E].
  pose proof (is_max_pos _ M) as Hp.
  assert (length (@alloc_array K V (u32 (max ht * 2 + 1))) = Z.to_nat (max ht * 2 + 2)) as L.
  { unfold alloc_array. rewrite length_replicate. f_equal. lia. }
  unfold ht', expand_array. cbv zeta. rewrite (entries_all ht (wf_length _ H)).
  destruct (pushed (u32 (max ht * 2 + 1)) (all ht) (alloc_array (u32 (max ht * 2 + 1))))
    as (L' & P & B).
  { intros e _. rewrite L. destruct M as (k & Hk & Ek). unfold bucket. rewrite E in Ek |- *. rewrite Ek.
    rewrite Z.land_ones by lia. rewrite Z.ones_equiv in Ek. unfold Z.pred in Ek.
    assert (0 < 2 ^ k) as Hp2 by lia. pose proof (Z.mod_pos_bound (e_hash e) (2 ^ k) Hp2). lia. }
  assert (concat (@alloc_array K V (u32 (max ht * 2 + 1))) = []) as N
    by apply concat_replicate_nil.
  rewrite N, app_nil_r in P. split_and!; [|exact P|done|exact E].
  split; cbn; [apply H|done| | | | |].
  - fold (bucket (u32 (max ht * 2 + 1))). unfold bucket in L'. rewrite L', L. lia.
  - unfold all. cbn. unfold bucket in P. rewrite P. apply H.
  - intros i c e Hi He. destruct (B i c e Hi He) as [?|(c0 & Hc0 & He0)]; [done|].
    apply lookup_replicate in Hc0 as [-> _]. by apply elem_of_nil in He0.
  - unfold all. cbn. unfold bucket in P. rewrite P. apply H.
  - unfold all. cbn. unfold bucket in P. rewrite P. apply H.
Qed.

(** ** The operations *)

(** The load factor [hash_set] keeps. *)
Definition loaded ht : Prop := count ht <= max ht.

Lemma map_of_scan ht key klen s :
  wf ht -> names ht key klen s ->
  let c := chain ht (bucket (max ht) (h s)) in
  e_val <$> c !! scan (matches mem (h s) (Z.of_nat (length s)) key) c = map_of ht !! s.
Proof.
  intros H Hs c. destruct (scan_spec ht key klen s H Hs) as [Hc Hj]. subst c.
  destruct (_ !! scan _ _) as [e|] eqn:E; cbn.
  - symmetry. apply map_of_lookup; [done|]. exists e. split_and!; [|done|done].
    apply elem_of_concat. eauto using list_elem_of_lookup_2.
  - destruct Hj as [_ Hn]. symmetry. apply eq_None_ne_Some_2. intros v Hv.
    apply map_of_lookup in Hv as (e & He & Ho & _); [|done]. by apply (Hn e).
Qed.

(** The expansion a call may end with. *)
Lemma maybe_expanded ht m :
  wf ht -> map_of ht = m -> count ht <= max ht + 1 -> count ht < 2 ^ 31 ->
  let ht' := if decide (count ht > max ht) then expand_array ht else ht in
  wf ht' /\ loaded ht' /\ map_of ht' = m.
Proof.
  intros H <- Hl Hc ht'. subst ht'. case_decide as Hd; [|by split_and!; [|unfold loaded; lia|]].
  destruct (expanded ht H ltac:(lia)) as (H' & P & Ec & Em).
  pose proof (is_max_pos _ (wf_max _ H)).
  split_and!; [done|unfold loaded; lia|by apply map_of_perm].
Qed.

(** What [find_entry] returns for a value to store, and for NULL. *)
Lemma find_some ht key klen s v :
  wf ht -> count ht < 2 ^ 32 - 1 -> names ht key klen s ->
  exists ht1 i j e,
    find_entry mem ht key klen (Some v) = (ht1, (i, j)) /\ wf ht1 /\
    array ht1 !! i = Some (chain ht1 i) /\ chain ht1 i !! j = Some e /\ octets e = s /\
    e_val e = default v (map_of ht !! s) /\ map_of ht1 = <[s := e_val e]> (map_of ht) /\
    count ht1 <= count ht + 1 /\ max ht1 = max ht.
Proof.
  intros H Hc Hs. destruct (scan_spec ht key klen s H Hs) as [Hch Hj].
  pose proof (map_of_scan ht key klen s H Hs) as Hm. cbv zeta in Hm.
  unfold find_entry. pose proof Hs as [-> _]. fold (bucket (max ht) (h s)).
  set (i := bucket (max ht) (h s)) in *. set (j := scan _ _) in *.
  assert (0 <= count ht) as Hpos by (rewrite (wf_count _ H); lia).
  destruct (chain ht i !! j) as [e|] eqn:E.
  - exists ht, i, j, e. rewrite <- Hm. cbn [default fmap option_fmap option_map].
    split_and!; try done; try lia. symmetry. by apply insert_id.
  - destruct Hj as [Ej Hn]. destruct (added ht key klen s v (tail (free ht)) H Hs Hn) as [H' M].
    fold i in H', M. change (u32 (count _ + 1)) with (u32 (count ht + 1)).
    rewrite u32_id by (unfold inw; lia).
    set (e := mkEntry (h s) key (Z.of_nat (length s)) v) in *.
    set (ht1 := set_count _ _) in H', M. change (set_count _ _) with ht1.
    assert (array ht1 !! i = Some (chain ht i ++ [e])) as Ha.
    { subst ht1. cbn. rewrite list_lookup_insert_eq; [done|]. by eapply lookup_lt_Some. }
    assert (chain ht1 i = chain ht i ++ [e]) as Ech by (unfold chain at 1; by rewrite Ha).
    exists ht1, i, j, e. rewrite <- Hm. split_and!; try done.
    + by rewrite Ech.
    + rewrite Ech, Ej. by apply list_lookup_middle.
    + unfold octets. cbn. rewrite Nat2Z.id. apply Hs.
Qed.

Lemma find_null ht key klen s :
  wf ht -> names ht key klen s ->
  exists j, let i := bucket (max ht) (h s) in
    find_entry mem ht key klen None = (ht, (i, j)) /\
    array ht !! i = Some (chain ht i) /\ e_val <$> chain ht i !! j = map_of ht !! s /\
    forall e, chain ht i !! j = Some e -> octets e = s.
Proof.
  intros H Hs. destruct (scan_spec ht key klen s H Hs) as [Hch Hj].
  pose proof (map_of_scan ht key klen s H Hs) as Hm. cbv zeta in Hm.
  exists (scan (matches mem (h s) (Z.of_nat (length s)) key) (chain ht (bucket (max ht) (h s)))).
  cbv zeta. unfold find_entry. pose proof Hs as [-> _]. fold (bucket (max ht) (h s)).
  split_and!; [by destruct (chain ht _ !! scan _ _)|done|exact Hm|]. intros e E. by rewrite E in Hj.
Qed.

Lemma get_lookup ht key klen s :
  wf ht -> names ht key klen s -> hash_get mem ht key klen = map_of ht !! s.
Proof.
  intros H Hs. destruct (find_null ht key klen s H Hs) as (j & E & _ & <- & _).
  unfold hash_get. rewrite E. by destruct (_ !! j).
Qed.

Lemma set_some ht key klen s v :
  wf ht -> loaded ht -> count ht < 2 ^ 31 - 1 -> names ht key klen s ->
  let ht' := hash_set mem ht key klen (Some v) in
  wf ht' /\ loaded ht' /\ map_of ht' = <[s := v]> (map_of ht).
Proof.
  intros H Hl Hc Hs ht'.
  destruct (find_some ht key klen s v H ltac:(lia) Hs)
    as (ht1 & i & j & e & E & H1 & Ha & Hj & Ho & _ & M & Hn & Hm).
  subst ht'. unfold hash_set. rewrite E, Hj.
  destruct (replaced ht1 i j e v H1 Ha Hj) as [H2 M2].
  rewrite Ho, M, insert_insert_eq in M2. unfold loaded in Hl.
  apply maybe_expanded; [done..| |]; cbn; lia.
Qed.

Lemma get_or_set_some ht key klen s v :
  wf ht -> loaded ht -> count ht < 2 ^ 31 - 1 -> names ht key klen s ->
  let '(r, ht') := hash_get_or_set mem ht key klen (Some v) in
  let w := default v (map_of ht !! s) in
  r = Some w /\ wf ht' /\ loaded ht' /\ map_of ht' = <[s := w]> (map_of ht).
Proof.
  intros H Hl Hc Hs.
  destruct (find_some ht key klen s v H ltac:(lia) Hs)
    as (ht1 & i & j & e & E & H1 & Ha & Hj & Ho & Hv & M & Hn & Hm).
  unfold hash_get_or_set. rewrite E, Hj. cbv zeta. rewrite <- Hv. split; [done|].
  unfold loaded in Hl. apply maybe_expanded; [done..| |]; lia.
Qed.

Lemma set_none ht key klen s :
  wf ht -> loaded ht -> names ht key klen s ->
  let ht' := hash_set mem ht key klen None in
  wf ht' /\ loaded ht' /\ map_of ht' = delete s (map_of ht).
Proof.
  intros H Hl Hs ht'. destruct (find_null ht key klen s H Hs) as (j & E & Ha & Hm & Ho).
  subst ht'. unfold hash_set. rewrite E. destruct (chain ht _ !! j) as [e|] eqn:Ej.
  - destruct (removed ht _ j e (e :: free ht) H Ha Ej) as (H' & M & P).
    assert (1 <= count ht < 2 ^ 32).
    { pose proof (is_max_pos _ (wf_max _ H)). unfold loaded in Hl.
      rewrite (wf_count _ H), P in *. cbn [length] in *. lia. }
    change (u32 _) with (u32 (count ht - 1)). rewrite u32_id by (unfold inw; lia).
    rewrite (Ho e eq_refl) in M. split_and!; [exact H'| |exact M].
    unfold loaded in *. cbn. lia.
  - split_and!; [done..|]. rewrite delete_id; [done|]. by rewrite <- Hm.
Qed.

(** ** Loops over the table *)

Lemma hash_do_all {S} (comp : S -> K -> Z -> V -> S * bool) (rec : S) ht n hi :
  Z.of_nat (length (array ht)) = max ht + 1 -> (length (ahead ht hi) <= n)%nat ->
  do_loop n comp rec ht hi =
  (fix go l rec :=
     match l with
     | [] => (rec, true)
     | e :: l =>
         let '(rec, rv) := comp rec (e_key e) (e_klen e) (e_val e) in
         if rv then go l rec else (rec, false)
     end) (ahead ht hi) rec.
Proof.
  intros L. revert rec hi. induction n as [|n IH]; intros rec [hi|] Hn; try done.
  { cbn in Hn. lia. }
  cbn [do_loop]. unfold ahead at 1. destruct (comp _ _ _ _) as [rec' []]; [|done].
  assert (ahead ht (hash_next ht hi) = next hi ++ concat (drop (index hi) (array ht))) as E
    by by apply ahead_next_from.
  rewrite IH, E; [done|]. rewrite E. cbn in Hn. lia.
Qed.

(** The buckets of the entries in hand have been passed. *)
Definition passed ht (hi : option (hash_index K V)) : Prop :=
  match hi with
  | Some hi => Forall (fun e => (bucket (max ht) (e_hash e) < index hi)%nat) (this hi :: next hi)
  | None => True
  end.

Lemma passed_bucket ht n i : wf ht -> passed ht (next_bucket n ht i).
Proof.
  intros H. revert i. induction n as [|n IH]; intros i; cbn; [done|].
  destruct (array ht !! i) as [[|e c]|] eqn:E; [apply IH| |apply IH].
  cbn. apply Forall_forall. intros x Hx. rewrite <- (wf_buckets _ H i (e :: c) x E Hx). lia.
Qed.

Lemma passed_next_from ht nx i :
  wf ht -> Forall (fun e => (bucket (max ht) (e_hash e) < i)%nat) nx ->
  passed ht (hash_next_from ht nx i).
Proof. intros H Hn. destruct nx as [|e nx]; [by apply passed_bucket|done]. Qed.

Lemma cleared n ht hi :
  wf ht -> loaded ht -> passed ht hi -> all ht ≡ₚ ahead ht hi -> (length (all ht) <= n)%nat ->
  let ht' := clear_loop n mem ht hi in wf ht' /\ loaded ht' /\ all ht' = [].
Proof.
  revert ht hi. induction n as [|n IH]; intros ht hi H Hl Hp P Hn; cbn.
  { split_and!; [done..|]. apply nil_length_inv. lia. }
  destruct hi as [hi|]; [|split_and!; [done..|]; by apply Permutation_nil_r].
  set (e := this hi) in *. cbn [ahead] in P. fold e in P.
  assert (e ∈ all ht) as He by (rewrite P; left).
  pose proof (wf_entries _ H) as Hok. rewrite Forall_forall in Hok. specialize (Hok e He).
  pose proof (names_entry ht e (wf_hashes _ H) Hok) as Hs.
  destruct (find_null ht _ _ _ H Hs) as (j & E & Ha & Hm & Ho).
  destruct (set_none ht _ _ _ H Hl Hs) as (H' & Hl' & _). cbv zeta in *.
  assert (map_of ht !! octets e = Some (e_val e)) as Hv by (apply map_of_lookup; eauto).
  rewrite Hv in Hm. apply fmap_Some in Hm as (e' & Ej & _). specialize (Ho e' Ej).
  destruct (removed ht _ j e' (e' :: free ht) H Ha Ej) as (_ & _ & P').
  unfold hash_set in H', Hl' |- *. rewrite E, Ej in H', Hl' |- *.
  change (u32 (count _ - 1)) with (u32 (count ht - 1)) in H', Hl' |- *.
  set (ht' := set_count _ _) in H', Hl' |- *. change (all ht ≡ₚ e' :: all ht') in P'.
  assert (e' = e) as ->.
  { pose proof (wf_keys _ H) as N. rewrite P' in He, N. apply elem_of_cons in He as [?|He]; [done|].
    apply NoDup_cons in N as [N _]. destruct N. rewrite Ho. by apply list_elem_of_fmap_2. }
  set (b := bucket (max ht) (h (octets e))) in *.
  assert (b < index hi)%nat as Hb.
  { apply Forall_cons in Hp as [Hb _]. fold e in Hb. destruct Hok as [_ Hh]. by rewrite Hh in Hb. }
  assert (ahead ht' (hash_next ht' hi) = next hi ++ concat (drop (index hi) (array ht))) as Ea.
  { unfold hash_next. rewrite ahead_next_from by exact (wf_length _ H'). do 2 f_equal.
    apply drop_insert_lt. exact Hb. }
  rewrite P in P'. apply Permutation_cons_inv in P'.
  apply IH; [done|done| | |].
  - unfold hash_next. apply passed_next_from; [done|]. by apply Forall_cons in Hp as [_ Hp].
  - by rewrite Ea.
  - rewrite <- P'. rewrite P in Hn. cbn [length] in Hn. lia.
Qed.

Lemma clear_empty ht :
  wf ht -> loaded ht ->
  let ht' := hash_clear mem ht in wf ht' /\ loaded ht' /\ map_of ht' = ∅ /\ count ht' = 0.
Proof.
  intros H Hl ht'. pose proof (wf_length _ H) as L.
  destruct (cleared (length (all ht)) ht (hash_first ht)) as (H' & Hl' & E); [done|done| | |done|].
  - by apply passed_bucket.
  - unfold hash_first. by rewrite ahead_next_from.
  - change (clear_loop _ _ _ _) with ht' in H', Hl', E. split_and!; [done|done| |].
    + unfold map_of. by rewrite E.
    + by rewrite (wf_count _ H'), E.
Qed.

Lemma made entropy :
  (forall s, h s = foldl times33 (u32 (entropy - 1)) s) ->
  wf (hash_make entropy) /\ loaded (hash_make entropy) /\ map_of (hash_make entropy) = ∅.
Proof.
  intros Hh. split_and!; [|by vm_compute|done].
  split; [|by exists 4|done|apply Forall_nil_2| |apply NoDup_nil_2|done].
  - intros s rest. rewrite Hh. by apply default_hashes.
  - intros i c e Hi He. change (array _) with (@replicate (list (hash_entry K V)) 16 []) in Hi.
    apply lookup_replicate in Hi as [-> _]. by apply elem_of_nil in He.
Qed.

(** ** Refinement *)

(** A call names its key by an address and a length; the map by its octets. *)
Inductive op (A : Type) :=
  | Get (key : A)
  | Set_ (key : A) (val : option V)
  | GetOrSet (key : A) (val : V)
  | Clear
  | Count.
#[local] Arguments Clear {A}.
#[local] Arguments Count {A}.
Inductive result := Value (val : option V) | Number (n : Z) | Nothing.

Definition hash_step ht (o : op (K * Z)) : result * hash_t K V :=
  match o with
  | Get _ (key, klen) => (Value (hash_get mem ht key klen), ht)
  | Set_ _ (key, klen) val => (Nothing, hash_set mem ht key klen val)
  | GetOrSet _ (key, klen) val =>
      let '(r, ht) := hash_get_or_set mem ht key klen (Some val) in (Value r, ht)
  | Clear => (Nothing, hash_clear mem ht)
  | Count => (Number (hash_count ht), ht)
  end.

Definition map_step (m : gmap (list Z) V) (o : op (list Z)) : result * gmap (list Z) V :=
  match o with
  | Get _ s => (Value (m !! s), m)
  | Set_ _ s (Some v) => (Nothing, <[s := v]> m)
  | Set_ _ s None => (Nothing, delete s m)
  | GetOrSet _ s v => let w := default v (m !! s) in (Value (Some w), <[s := w]> m)
  | Clear => (Nothing, ∅)
  | Count => (Number (Z.of_nat (size m)), m)
  end.

Fixpoint run {T A : Type} (step : T -> op A -> result * T) (t : T) (l : list (op A)) : list result * T :=
  match l with
  | [] => ([], t)
  | o :: l => let '(r, t) := step t o in let '(rs, t) := run step t l in (r :: rs, t)
  end.

Inductive op_rel (R : K * Z -> list Z -> Prop) : op (K * Z) -> op (list Z) -> Prop :=
  | rel_get k s : R k s -> op_rel R (Get _ k) (Get _ s)
  | rel_set k s v : R k s -> op_rel R (Set_ _ k v) (Set_ _ s v)
  | rel_get_or_set k s v : R k s -> op_rel R (GetOrSet _ k v) (GetOrSet _ s v)
  | rel_clear : op_rel R Clear Clear
  | rel_count : op_rel R Count Count.

(** The hash function of a table, which no operation changes. *)
Definition func_of ht : option (list Z -> Z -> Z * Z) * Z := (hash_func ht, seed ht).
Definition named ht (k : K * Z) (s : list Z) : Prop := names ht k.1 k.2 s.

Lemma named_func ht ht' k s : func_of ht' = func_of ht -> named ht k s -> named ht' k s.
Proof. intros [= Ef Es]. unfold named, names, hash_of. by rewrite Ef, Es. Qed.

Lemma find_func ht key klen val : func_of (find_entry mem ht key klen val).1 = func_of ht.
Proof.
  unfold find_entry. destruct (hash_of ht _ _). destruct (_ !! _); [done|]. by destruct val.
Qed.

Lemma set_func ht key klen val : func_of (hash_set mem ht key klen val) = func_of ht.
Proof.
  unfold hash_set. rewrite <- (find_func ht key klen val).
  destruct (find_entry _ _ _ _ _) as [ht' [i j]]. destruct (_ !! _), val; try done.
  by case_decide.
Qed.

Lemma clear_func n ht hi : func_of (clear_loop n mem ht hi) = func_of ht.
Proof.
  revert ht hi. induction n as [|n IH]; intros ht [hi|]; [done..| |done].
  cbn. by rewrite IH, set_func.
Qed.

Lemma step_func ht o : func_of (hash_step ht o).2 = func_of ht.
Proof.
  destruct o as [[key klen]|[key klen] val|[key klen] val| |]; cbn; [done|apply set_func| |apply clear_func|done].
  unfold hash_get_or_set. rewrite <- (find_func ht key klen (Some val)).
  destruct (find_entry _ _ _ _ _) as [ht' [i j]]. destruct (_ !! _); [|done]. by case_decide.
Qed.

Lemma step_refines ht o o' :
  wf ht -> loaded ht -> count ht < 2 ^ 31 - 1 -> op_rel (named ht) o o' ->
  let '(r, ht') := hash_step ht o in
  (r, map_of ht') = map_step (map_of ht) o' /\ wf ht' /\ loaded ht' /\ count ht' <= count ht + 1.
Proof.
  intros H Hl Hc Ho.
  assert (forall ht' s w, wf ht' -> map_of ht' = <[s := w]> (map_of ht) -> count ht' <= count ht + 1) as Hsz.
  { intros ht' s w H' E. rewrite <- !size_map_of, E by done.
    destruct (map_of ht !! s) eqn:Es; [rewrite map_size_insert_Some by eauto|rewrite map_size_insert_None by done]; lia. }
  destruct Ho as [[key klen] s Hs|[key klen] s [v|] Hs|[key klen] s v Hs| |]; cbn [hash_step map_step];
    try (unfold named in Hs; cbn in Hs).
  - rewrite (get_lookup ht key klen s) by done. split_and!; (done || lia).
  - destruct (set_some ht key klen s v) as (H' & Hl' & E); [done..|]. rewrite E. eauto.
  - destruct (set_none ht key klen s) as (H' & Hl' & E); [done..|]. rewrite E.
    split_and!; [done..|]. rewrite <- !size_map_of, E by done.
    pose proof (map_size_delete s (map_of ht)) as ->. destruct (map_of ht !! s); cbn; lia.
  - pose proof (get_or_set_some ht key klen s v H Hl Hc Hs) as X. cbv zeta in X.
    destruct (hash_get_or_set _ _ _ _ _) as [r ht']. destruct X as (-> & H' & Hl' & E).
    rewrite E. eauto.
  - destruct (clear_empty ht H Hl) as (H' & Hl' & E & Ec). cbv zeta in *. rewrite E.
    split_and!; [done..|]. rewrite Ec, (wf_count _ H). lia.
  - unfold hash_count. rewrite size_map_of by done. split_and!; (done || lia).
Qed.

Lemma run_refines l l' ht :
  wf ht -> loaded ht -> count ht + Z.of_nat (length l) < 2 ^ 31 ->
  Forall2 (op_rel (named ht)) l l' ->
  let '(rs, ht') := run hash_step ht l in
  (rs, map_of ht') = run map_step (map_of ht) l' /\ wf ht' /\ loaded ht'.
Proof.
  revert l' ht. induction l as [|o l IH]; intros l' ht H Hl Hc Hr.
  { apply Forall2_nil_inv_l in Hr as ->. done. }
  apply Forall2_cons_inv_l in Hr as (o' & l2 & Ho & Hr & ->). cbn [run length] in *.
  pose proof (step_refines ht o o' H Hl ltac:(lia) Ho) as X. pose proof (step_func ht o) as F.
  destruct (hash_step ht o) as [r ht']. destruct X as (E & H' & Hl' & Hc').
  rewrite <- E. specialize (IH l2 ht' H' Hl' ltac:(lia)).
  destruct (run hash_step ht' l) as [rs ht'']. destruct IH as (<- & ? & ?).
  - eapply Forall2_impl; [exact Hr|]. intros a b []; constructor; by eapply named_func.
  - done.
Qed.

End spec.

(** C30: The hash table of [hash.c] implements a finite map from key octets to
    values.  From the table [hash_make] returns, whatever its seed, on any sequence
    of fewer than 2^31 calls of [hash_get], [hash_set], [hash_get_or_set],
    [hash_clear] and [hash_count], every call returns what the finite map returns,
    through the expansions of the array, as long as the memory in which the keys
    are does not change.  The table stays well formed, with no more entries than
    its maximum index. *)
Theorem hash_refines {K V} (mem : memory K) entropy (l : list (op (V := V) (K * Z))) l' :
  let ht := hash_make entropy in
  let h := foldl times33 (seed ht) in
  Z.of_nat (length l) < 2 ^ 31 ->
  Forall2 (op_rel (named mem h ht)) l l' ->
  let '(rs, ht') := run (hash_step mem) ht l in
  (rs, map_of mem ht') = run map_step ∅ l' /\ wf mem h ht' /\ loaded ht'.
Proof.
  intros ht h Hl Hr. destruct (made (K := K) (V := V) mem h entropy) as (H & Hld & E); [done|].
  rewrite <- E. exact (run_refines mem h l l' ht H Hld Hl Hr).
Qed.

(** Addresses of the witness: a string, and an IMSI with the octets that follow it. *)
Definition sample_memory : memory nat := fun k =>
  match k with
  | 0%nat => [105; 110; 116; 0; 7]
  | 1%nat => [0; 1; 1; 9; 9]
  | _ => [0; 1; 1; 8]
  end.

Lemma hash_refines_witness :
  let l := [Set_ _ (0%nat, HASH_KEY_STRING) (Some 5%nat); Set_ _ (1%nat, 3) (Some 6%nat);
            Get _ (2%nat, 3); Set_ _ (2%nat, 3) None; Count _; Get _ (1%nat, 3)] in
  (run (hash_step sample_memory) (hash_make 77) l).1 =
  [Nothing; Nothing; Value (Some 6%nat); Nothing; Number 1; Value None].
Proof.
  intros l.
  pose proof (hash_refines (V := nat) sample_memory 77 l
    [Set_ _ [105; 110; 116] (Some 5%nat); Set_ _ [0; 1; 1] (Some 6%nat);
     Get _ [0; 1; 1]; Set_ _ [0; 1; 1] None; Count _; Get _ [0; 1; 1]] ltac:(done)) as X.
  cbv zeta in X. destruct (run (hash_step sample_memory) (hash_make 77) l) as [rs ht].
  destruct X as (E & _); [repeat (constructor; try (split; reflexivity))|].
  by injection E.
Defined.

(** The table does not own its keys: once the octets at the address of a key
    change, a look-up of the old octets no longer finds the entry, and the table
    still holds it. *)
Lemma key_overwritten {K V} (mem : memory K) h (ht : hash_t K V) key klen s :
  wf mem h ht -> names mem h ht key klen s -> (forall e, e ∈ all ht -> octets mem e <> s) ->
  hash_get mem ht key klen = None.
Proof.
  intros H Hs Hn. rewrite (get_lookup mem h ht key klen s H Hs).
  apply eq_None_ne_Some_2. intros v Hv. apply (map_of_lookup mem h) in Hv as (e & He & Ho & _); [|done].
  by apply (Hn e).
Qed.

(** A change of memory that leaves the keys of a table alone. *)
Lemma memory_changed {K V} (mem mem' : memory K) h (ht : hash_t K V) :
  wf mem h ht -> (forall e, e ∈ all ht -> mem' (e_key e) = mem (e_key e)) ->
  wf mem' h ht /\ map_of mem' ht = map_of mem ht.
Proof.
  intros H Hm.
  assert (forall e, e ∈ all ht -> octets mem' e = octets mem e) as Ho
    by (intros e He; unfold octets; by rewrite (Hm e He)).
  assert (octets mem' <$> all ht = octets mem <$> all ht) as El.
  { apply list_fmap_ext. intros i e He. apply Ho. by eapply list_elem_of_lookup_2. }
  split.
  - destruct H as [Hh Hmax Hl He Hb Hk Hc]. split; try done; [|by rewrite El].
    rewrite Forall_forall in He |- *. intros e Hin. destruct (He e Hin) as [L E].
    split; [by rewrite Hm|by rewrite Ho].
  - unfold map_of. f_equal. apply list_fmap_ext. intros i e He.
    unfold pair_of. rewrite Ho; [done|by eapply list_elem_of_lookup_2].
Qed.

End HashSpec.
