(* ===== verification/Pkbuf.v ===== *)
(** [lib/core/src/unix/pkbuf.c]: packet buffers.  A [pkbuf] is a window
    ([payload], [len]) on a cluster of bytes. *)

From S2P Require Import Prelude.

(** Memory accesses of [memcpy]: [get mem off n] reads [n] bytes at [off],
    [put mem off l] writes [l] at [off]. *)
Definition get (mem : list Z) (off n : Z) : list Z := take (Z.to_nat n) (drop (Z.to_nat off) mem).
Definition put (mem : list Z) (off : Z) (l : list Z) : list Z := list_inserts (Z.to_nat off) l mem.

Lemma length_get mem off n :
  0 <= off -> 0 <= n -> off + n <= Z.of_nat (length mem) -> length (get mem off n) = Z.to_nat n.
Proof. intros. unfold get. rewrite length_take, length_drop. lia. Qed.

Lemma get_bytes mem off n : bytes mem -> bytes (get mem off n).
Proof. intros. by apply Forall_take, Forall_drop. Qed.

Lemma put_app a b c l :
  length b = length l -> put (a ++ b ++ c) (Z.of_nat (length a)) l = a ++ l ++ c.
Proof.
  intros Hl. unfold put. rewrite Nat2Z.id.
  rewrite <- (Nat.add_0_r (length a)), list_inserts_app_r. f_equal.
  apply list_inserts_0_r. done.
Qed.

Lemma get_app a b c n : n = Z.of_nat (length b) -> get (a ++ b ++ c) (Z.of_nat (length a)) n = b.
Proof. intros ->. unfold get. by rewrite !Nat2Z.id, drop_app_length, take_app_length. Qed.

Lemma get_app_r a b i n : 0 <= i -> get (a ++ b) (Z.of_nat (length a) + i) n = get b i n.
Proof.
  intros. unfold get. f_equal. rewrite skipn_app, (drop_ge a), app_nil_l by lia. f_equal. lia.
Qed.

(** A range of a list as the middle of a concatenation. *)
Lemma split3 (l : list Z) off n :
  0 <= off -> 0 <= n -> off + n <= Z.of_nat (length l) ->
  exists a b c, l = a ++ b ++ c /\ off = Z.of_nat (length a) /\ n = Z.of_nat (length b).
Proof.
  intros. exists (take (Z.to_nat off) l), (get l off n), (drop (Z.to_nat n) (drop (Z.to_nat off) l)).
  unfold get. rewrite !take_drop, !length_take, length_drop. split_and!; [done|lia|lia].
Qed.

Lemma put_prefix a b off l :
  0 <= off -> off + Z.of_nat (length l) <= Z.of_nat (length a) ->
  put (a ++ b) off l = put a off l ++ b.
Proof.
  intros H0 H1. destruct (split3 a off (Z.of_nat (length l))) as (x & y & z & -> & -> & Hl); [lia..|].
  rewrite <- !(assoc_L (++)), !put_app by lia. by rewrite <- !(assoc_L (++)).
Qed.

(** A write as the three parts of the memory it leaves. *)
Lemma put_split m off l :
  (off + length l <= length m)%nat ->
  put m (Z.of_nat off) l = take off m ++ l ++ drop (off + length l) m.
Proof.
  intros Hl. pose proof (put_app (take off m) (take (length l) (drop off m)) (drop (off + length l) m) l) as H.
  rewrite !length_take, length_drop, Nat.min_l in H by lia. rewrite <- H by lia.
  rewrite Nat.min_l by lia. f_equal. by rewrite <- drop_drop, !take_drop.
Qed.

Lemma put_bytes m off l : bytes m -> bytes l -> bytes (put m off l).
Proof.
  intros Hm Hl. unfold put. revert Hl. generalize (Z.to_nat off).
  induction l as [|z l IH]; intros i Hl; [done|]. cbn [list_inserts].
  apply Forall_cons in Hl as [Hz Hl]. apply Forall_insert; [by apply IH|done].
Qed.

Lemma length_put m off l : length (put m off l) = length m.
Proof. apply length_inserts. Qed.

Lemma get_put m off l :
  0 <= off -> off + Z.of_nat (length l) <= Z.of_nat (length m) ->
  get (put m off l) off (Z.of_nat (length l)) = l.
Proof.
  intros H0 H1. destruct (split3 m off (Z.of_nat (length l))) as (x & y & z & -> & -> & Hl); [lia..|].
  rewrite put_app by lia. by apply get_app.
Qed.

Lemma get_prefix a b off n :
  0 <= off -> 0 <= n -> off + n <= Z.of_nat (length a) -> get (a ++ b) off n = get a off n.
Proof.
  intros H0 H1 H2. destruct (split3 a off n) as (x & y & z & -> & -> & ->); [lia..|].
  rewrite <- !(assoc_L (++)). by rewrite !get_app.
Qed.

(** ** Arrays *)

(** A store of [memcpy]: no result when it leaves the array. *)
Definition store (l : list Z) (off : nat) (v : list Z) : option (list Z) :=
  if decide (off + length v <= length l)%nat then Some (put l (Z.of_nat off) v) else None.
Definition load (l : list Z) (off n : nat) : option (list Z) :=
  if decide (off + n <= length l)%nat then Some (take n (drop off l)) else None.

Lemma store_app a b c l :
  length b = length l -> store (a ++ b ++ c) (length a) l = Some (a ++ l ++ c).
Proof.
  intros Hl. unfold store. rewrite decide_True by (rewrite !length_app; lia).
  by rewrite put_app.
Qed.

Lemma load_app a b c n : n = length b -> load (a ++ b ++ c) (length a) n = Some b.
Proof.
  intros ->. unfold load. rewrite decide_True by (rewrite !length_app; lia).
  by rewrite drop_app_length, take_app_length.
Qed.

(** Overwriting the beginning of a region. *)
Lemma put_over pre old post l :
  (length l <= length old)%nat ->
  put (pre ++ old ++ post) (Z.of_nat (length pre)) l = (pre ++ l) ++ drop (length l) old ++ post.
Proof.
  intros Hl. rewrite <- (take_drop (length l) old) at 1.
  rewrite <- !(assoc_L (++)), put_app; [done|]. rewrite length_take. lia.
Qed.

Module Pkbuf.

Record pkbuf := mkPkbuf {
  next : option nat;   (** address of the next pkbuf of the chain *)
  clbuf : nat;         (** address of the cluster buffer *)
  payload : Z;         (** offset of [payload] from the start of the cluster *)
  tot_len : Z;
  len : Z;
  flags : Z
}.

(** [pkbuf_header]: [true] for [CORE_OK]; on an error nothing changes. *)
Definition pkbuf_header (p : pkbuf) (increment : Z) : bool * pkbuf :=
  if decide (increment = 0) then (true, p)
  else if decide (0 < increment /\ payload p < increment) then (false, p)
  else if decide (increment < 0 /\ len p < - increment) then (false, p)
  else (true, mkPkbuf (next p) (clbuf p) (payload p - increment)
                      (u16 (tot_len p + increment)) (u16 (len p + increment)) (flags p)).

(** A packet buffer with the contents of its cluster. *)
Record buf := mkBuf { pk : pkbuf; mem : list Z }.

(** [pkbuf_header] on the two. *)
Definition header (b : buf) (n : Z) : bool * buf :=
  let '(ok, p) := pkbuf_header (pk b) n in (ok, mkBuf p (mem b)).

(** ** The window of a buffer *)

(** The cluster of [b] is [pre ++ m ++ post] and its payload is [m]. *)
Definition view (b : buf) (pre m post : list Z) : Prop :=
  mem b = pre ++ m ++ post /\ payload (pk b) = Z.of_nat (length pre) /\
  len (pk b) = Z.of_nat (length m) /\ Z.of_nat (length m) < 2 ^ 16.

Definition payload_bytes (b : buf) : list Z := get (mem b) (payload (pk b)) (len (pk b)).

Lemma view_payload b pre m post : view b pre m post -> payload_bytes b = m.
Proof. intros (E & Hp & Hl & _). unfold payload_bytes. rewrite E, Hp, Hl. by apply get_app. Qed.

Lemma header_push b pre h m post n :
  view b (pre ++ h) m post -> n = Z.of_nat (length h) -> h <> [] ->
  Z.of_nat (length h + length m) < 2 ^ 16 ->
  exists b', header b n = (true, b') /\ view b' pre (h ++ m) post.
Proof.
  intros (E & Hp & Hl & Hm) -> Hh Hlt. rewrite length_app in Hp.
  assert (length h <> 0)%nat by (by destruct h).
  unfold header, pkbuf_header. rewrite decide_False by lia.
  rewrite decide_False by lia. rewrite decide_False by lia.
  eexists. split; [reflexivity|]. split_and!; cbn [mem pk payload len].
  - by rewrite E, <- !(assoc_L (++)).
  - lia.
  - rewrite u16_id, length_app by (unfold inw; lia). lia.
  - rewrite length_app. lia.
Qed.

Lemma header_pop b pre h m post n :
  view b pre (h ++ m) post -> n = - Z.of_nat (length h) -> h <> [] ->
  exists b', header b n = (true, b') /\ view b' (pre ++ h) m post.
Proof.
  intros (E & Hp & Hl & Hm) -> Hh. rewrite length_app in *.
  assert (length h <> 0)%nat by (by destruct h).
  unfold header, pkbuf_header. rewrite decide_False by lia.
  rewrite decide_False by lia. rewrite decide_False by lia.
  eexists. split; [reflexivity|]. split_and!; cbn [mem pk payload len].
  - by rewrite E, <- !(assoc_L (++)).
  - rewrite length_app. lia.
  - rewrite u16_id by (unfold inw; lia). lia.
  - lia.
Qed.

Lemma view_put b pre x m post l :
  view b pre (x ++ m) post -> length l = length x ->
  view (mkBuf (pk b) (put (mem b) (payload (pk b)) l)) pre (l ++ m) post.
Proof.
  intros (E & Hp & Hl & Hm) Hlen. split_and!; cbn [mem pk]; [|done| |].
  - rewrite E, Hp, <- !(assoc_L (++)). by apply put_app.
  - rewrite Hl, !length_app. lia.
  - rewrite length_app in *. lia.
Qed.

End Pkbuf.
