(* ===== verification/AesSpec.v ===== *)
(** AES-128 as FIPS 197 defines it (state of bytes, S-box computed from the field
    inverse, SubBytes, ShiftRows, MixColumns, AddRoundKey, KeyExpansion), and the
    proof that the table-driven code of [lib/core/src/aes.c] computes it. *)

From S2P Require Import Prelude Aes.

Module AesSpec.
Import Aes.

(** ** FIPS 197 *)

(** Multiplication by [x] in GF(2^8). *)
Definition xtime (b : Z) : Z := if decide (b < 0x80) then b << 1 else ((b << 1) .& 0xff) .^ 0x1b.

Definition gf_mul (a b : Z) : Z :=
  snd (for_up 8 (fun i '(a, r) =>
    (xtime a, if Z.testbit b (Z.of_nat i) then r .^ a else r)) (a, 0)).

(** The inverse, [a^254]; 0 for 0. *)
Definition gf_inv (a : Z) : Z :=
  let a2 := gf_mul a a in let a4 := gf_mul a2 a2 in let a8 := gf_mul a4 a4 in
  let a16 := gf_mul a8 a8 in let a32 := gf_mul a16 a16 in let a64 := gf_mul a32 a32 in
  let a128 := gf_mul a64 a64 in
  gf_mul a128 (gf_mul a64 (gf_mul a32 (gf_mul a16 (gf_mul a8 (gf_mul a4 a2))))).

Definition rotl8 (b n : Z) : Z := ((b << n) .& 0xff) .| (b >> (8 - n)).

Definition sbox (x : Z) : Z :=
  let b := gf_inv x in
  b .^ rotl8 b 1 .^ rotl8 b 2 .^ rotl8 b 3 .^ rotl8 b 4 .^ 0x63.

(** A column (or word) of four bytes, and the state of four columns. *)
Record quad := Q { q0 : Z; q1 : Z; q2 : Z; q3 : Z }.
Record block := B { c0 : quad; c1 : quad; c2 : quad; c3 : quad }.

Definition quad_map (f : Z -> Z) (q : quad) : quad := Q (f (q0 q)) (f (q1 q)) (f (q2 q)) (f (q3 q)).
Definition quad_xor (a b : quad) : quad :=
  Q (q0 a .^ q0 b) (q1 a .^ q1 b) (q2 a .^ q2 b) (q3 a .^ q3 b).

Definition sub_bytes (s : block) : block :=
  B (quad_map sbox (c0 s)) (quad_map sbox (c1 s)) (quad_map sbox (c2 s)) (quad_map sbox (c3 s)).

(** Row [r] moves left by [r] columns. *)
Definition shift_rows (s : block) : block :=
  B (Q (q0 (c0 s)) (q1 (c1 s)) (q2 (c2 s)) (q3 (c3 s)))
    (Q (q0 (c1 s)) (q1 (c2 s)) (q2 (c3 s)) (q3 (c0 s)))
    (Q (q0 (c2 s)) (q1 (c3 s)) (q2 (c0 s)) (q3 (c1 s)))
    (Q (q0 (c3 s)) (q1 (c0 s)) (q2 (c1 s)) (q3 (c2 s))).

Definition mul3 (b : Z) : Z := xtime b .^ b.

Definition mix_column (q : quad) : quad :=
  Q (xtime (q0 q) .^ mul3 (q1 q) .^ q2 q .^ q3 q)
    (q0 q .^ xtime (q1 q) .^ mul3 (q2 q) .^ q3 q)
    (q0 q .^ q1 q .^ xtime (q2 q) .^ mul3 (q3 q))
    (mul3 (q0 q) .^ q1 q .^ q2 q .^ xtime (q3 q)).

Definition mix_columns (s : block) : block :=
  B (mix_column (c0 s)) (mix_column (c1 s)) (mix_column (c2 s)) (mix_column (c3 s)).

Definition add_round_key (s k : block) : block :=
  B (quad_xor (c0 s) (c0 k)) (quad_xor (c1 s) (c1 k))
    (quad_xor (c2 s) (c2 k)) (quad_xor (c3 s) (c3 k)).

(** Key expansion: the list of words, extended one word at a time. *)
Definition zero_quad : quad := Q 0 0 0 0.
Definition sub_word (q : quad) : quad := quad_map sbox q.
Definition rot_word (q : quad) : quad := Q (q1 q) (q2 q) (q3 q) (q0 q).
Fixpoint rc (j : nat) : Z := match j with O => 1 | S j => xtime (rc j) end.

(** Word [i + 4], from the words before it. *)
Definition next_word (i : nat) (w : list quad) : quad :=
  let temp := nth (i + 3) w zero_quad in
  let temp := if decide (i mod 4 = 0)%nat
              then quad_xor (sub_word (rot_word temp)) (Q (rc (i / 4)) 0 0 0) else temp in
  quad_xor (nth i w zero_quad) temp.

Definition block_of_bytes (p : list Z) : block :=
  let col i := Q (rd p i) (rd p (i + 1)) (rd p (i + 2)) (rd p (i + 3)) in
  B (col 0) (col 4) (col 8) (col 12).

Definition bytes_of_quad (q : quad) : list Z := [q0 q; q1 q; q2 q; q3 q].
Definition bytes_of_block (s : block) : list Z :=
  bytes_of_quad (c0 s) ++ bytes_of_quad (c1 s) ++ bytes_of_quad (c2 s) ++ bytes_of_quad (c3 s).

Definition key_expansion (key : list Z) : list quad :=
  let k := block_of_bytes key in
  for_up 40 (fun i w => w ++ [next_word i w]) [c0 k; c1 k; c2 k; c3 k].

Definition round_key (w : list quad) (r : nat) : block :=
  let word i := nth (4 * r + i) w zero_quad in B (word 0%nat) (word 1%nat) (word 2%nat) (word 3%nat).

Definition aes128 (key plaintext : list Z) : list Z :=
  let w := key_expansion key in
  let s := add_round_key (block_of_bytes plaintext) (round_key w 0) in
  let s := for_up 9 (fun i s =>
    add_round_key (mix_columns (shift_rows (sub_bytes s))) (round_key w (S i))) s in
  let s := add_round_key (shift_rows (sub_bytes s)) (round_key w 10) in
  bytes_of_block s.

(** ** Words of bytes *)

(** The big-endian word of a column, as [GETU32] computes it. *)
Definition W (q : quad) : Z := (q0 q << 24) .^ (q1 q << 16) .^ (q2 q << 8) .^ q3 q.

Definition quad_ok (q : quad) : Prop := inw 8 (q0 q) /\ inw 8 (q1 q) /\ inw 8 (q2 q) /\ inw 8 (q3 q).
Definition block_ok (s : block) : Prop :=
  quad_ok (c0 s) /\ quad_ok (c1 s) /\ quad_ok (c2 s) /\ quad_ok (c3 s).

Lemma W_sum q : quad_ok q -> W q = q0 q * 2 ^ 24 + q1 q * 2 ^ 16 + q2 q * 2 ^ 8 + q3 q.
Proof.
  intros (H0 & H1 & H2 & H3). unfold W. rewrite !Z.lxor_assoc.
  rewrite (lxor_add (q2 q) (q3 q) 8) by done. unfold inw in *.
  rewrite (lxor_add (q1 q) _ 16) by (unfold inw; lia).
  rewrite (lxor_add (q0 q) _ 24) by (unfold inw; lia). lia.
Qed.

Lemma W_bytes q : quad_ok q ->
  W q >> 24 = q0 q /\ (W q >> 16) .& 0xff = q1 q /\
  (W q >> 8) .& 0xff = q2 q /\ W q .& 0xff = q3 q.
Proof.
  intros H. rewrite (W_sum q H). destruct H as (H0 & H1 & H2 & H3). unfold inw in *.
  rewrite !(land_ones_mod _ 8 0xff) by done. rewrite !shiftr_div by done.
  split_and!; lia.
Qed.

Lemma W_u8 q : quad_ok q -> PUTU32 (W q) = bytes_of_quad q.
Proof.
  intros H. unfold PUTU32, u8, bytes_of_quad. destruct (W_bytes q H) as (-> & -> & -> & ->).
  f_equal. apply u8_id. apply H.
Qed.

Lemma W_xor a b : W (quad_xor a b) = W a .^ W b.
Proof. unfold W, quad_xor. simpl. rewrite !Z.shiftl_lxor. bits_eq. Qed.

Lemma quad_xor_ok a b : quad_ok a -> quad_ok b -> quad_ok (quad_xor a b).
Proof. intros (?&?&?&?) (?&?&?&?). split_and!; simpl; by apply inw_lxor. Qed.

(** ** The tables *)

Lemma sbox_byte x : inw 8 x -> inw 8 (sbox x).
Proof. revert x. refine (bytes_forall _ _). vm_compute. reflexivity. Qed.

Lemma Te_spec x : inw 8 x ->
  rd Te0 x = W (Q (xtime (sbox x)) (sbox x) (sbox x) (mul3 (sbox x))) /\
  rd Te1 x = W (Q (mul3 (sbox x)) (xtime (sbox x)) (sbox x) (sbox x)) /\
  rd Te2 x = W (Q (sbox x) (mul3 (sbox x)) (xtime (sbox x)) (sbox x)) /\
  rd Te3 x = W (Q (sbox x) (sbox x) (mul3 (sbox x)) (xtime (sbox x))).
Proof. revert x. refine (bytes_forall _ _). vm_compute. reflexivity. Qed.

Lemma Te4_spec x : inw 8 x ->
  rd Te4 x .& 0xff000000 = sbox x << 24 /\ rd Te4 x .& 0x00ff0000 = sbox x << 16 /\
  rd Te4 x .& 0x0000ff00 = sbox x << 8 /\ rd Te4 x .& 0x000000ff = sbox x.
Proof. revert x. refine (bytes_forall _ _). vm_compute. reflexivity. Qed.

Lemma xtime_byte x : inw 8 x -> inw 8 (xtime x).
Proof. revert x. refine (bytes_forall _ _). vm_compute. reflexivity. Qed.

Lemma mul3_byte x : inw 8 x -> inw 8 (mul3 x).
Proof. intros. apply inw_lxor; [done|by apply xtime_byte|done]. Qed.

#[local] Opaque sbox xtime mul3.

Create HintDb aes discriminated.
#[export] Hint Resolve sbox_byte xtime_byte mul3_byte inw_lxor : aes.

(** ** The rounds *)

(** The code's state for a block of bytes. *)
Definition st (s : block) : state := mkState (W (c0 s)) (W (c1 s)) (W (c2 s)) (W (c3 s)).

Lemma te_line_spec a b c d k :
  quad_ok a -> quad_ok b -> quad_ok c -> quad_ok d ->
  te_line (W a) (W b) (W c) (W d) (W k) =
    W (quad_xor (mix_column (quad_map sbox (Q (q0 a) (q1 b) (q2 c) (q3 d)))) k).
Proof.
  intros Ha Hb Hc Hd. unfold te_line.
  destruct (W_bytes a Ha) as (-> & _), (W_bytes b Hb) as (_ & -> & _),
    (W_bytes c Hc) as (_ & _ & -> & _), (W_bytes d Hd) as (_ & _ & _ & ->).
  destruct Ha as (Ha & _), Hb as (_ & Hb & _), Hc as (_ & _ & Hc & _), Hd as (_ & _ & _ & Hd).
  destruct (Te_spec _ Ha) as (-> & _), (Te_spec _ Hb) as (_ & -> & _),
    (Te_spec _ Hc) as (_ & _ & -> & _), (Te_spec _ Hd) as (_ & _ & _ & ->).
  rewrite <- !W_xor. unfold quad_xor, mix_column, quad_map. cbn [q0 q1 q2 q3]. reflexivity.
Qed.

Lemma last_line_spec a b c d k :
  quad_ok a -> quad_ok b -> quad_ok c -> quad_ok d ->
  last_line (W a) (W b) (W c) (W d) (W k) =
    W (quad_xor (quad_map sbox (Q (q0 a) (q1 b) (q2 c) (q3 d))) k).
Proof.
  intros Ha Hb Hc Hd. unfold last_line.
  destruct (W_bytes a Ha) as (-> & _), (W_bytes b Hb) as (_ & -> & _),
    (W_bytes c Hc) as (_ & _ & -> & _), (W_bytes d Hd) as (_ & _ & _ & ->).
  destruct Ha as (Ha & _), Hb as (_ & Hb & _), Hc as (_ & _ & Hc & _), Hd as (_ & _ & _ & Hd).
  destruct (Te4_spec _ Ha) as (-> & _), (Te4_spec _ Hb) as (_ & -> & _),
    (Te4_spec _ Hc) as (_ & _ & -> & _), (Te4_spec _ Hd) as (_ & _ & _ & ->).
  rewrite W_xor. reflexivity.
Qed.

(** The round-key words of the code are the words of the specification. *)
Lemma rd_map_W ws i : (i < length ws)%nat -> rd (map W ws) (Z.of_nat i) = W (nth i ws zero_quad).
Proof.
  intros Hi. unfold rd. rewrite Nat2Z.id. by rewrite (nth_indep _ 0 (W zero_quad)), map_nth by (rewrite length_map; done).
Qed.

Lemma rd_round_key ws r j :
  (4 * r + j < length ws)%nat ->
  rd (map W ws) (4 * Z.of_nat r + Z.of_nat j) = W (nth (4 * r + j) ws zero_quad).
Proof. intros. rewrite <- rd_map_W by done. f_equal. lia. Qed.

Lemma round_key_words ws r :
  (4 * r + 3 < length ws)%nat ->
  rd (map W ws) (4 * Z.of_nat r) = W (c0 (round_key ws r)) /\
  rd (map W ws) (4 * Z.of_nat r + 1) = W (c1 (round_key ws r)) /\
  rd (map W ws) (4 * Z.of_nat r + 2) = W (c2 (round_key ws r)) /\
  rd (map W ws) (4 * Z.of_nat r + 3) = W (c3 (round_key ws r)).
Proof.
  intros H. split_and!.
  - rewrite <- (Z.add_0_r (4 * _)). apply (rd_round_key ws r 0). lia.
  - apply (rd_round_key ws r 1). lia.
  - apply (rd_round_key ws r 2). lia.
  - apply (rd_round_key ws r 3). lia.
Qed.

Lemma full_round_spec ws r s :
  block_ok s -> (4 * r + 3 < length ws)%nat ->
  full_round (map W ws) r (st s) =
    st (add_round_key (mix_columns (shift_rows (sub_bytes s))) (round_key ws r)).
Proof.
  intros (H0 & H1 & H2 & H3) Hr. unfold full_round. cbv zeta.
  destruct (round_key_words ws r Hr) as (-> & -> & -> & ->).
  unfold st at 1 2 3 4 5 6 7 8 9 10 11 12 13 14 15 16. cbn [w0 w1 w2 w3].
  by rewrite !te_line_spec by done.
Qed.

Lemma last_round_spec ws r s :
  block_ok s -> (4 * r + 3 < length ws)%nat ->
  last_round (map W ws) r (st s) = st (add_round_key (shift_rows (sub_bytes s)) (round_key ws r)).
Proof.
  intros (H0 & H1 & H2 & H3) Hr. unfold last_round. cbv zeta.
  destruct (round_key_words ws r Hr) as (-> & -> & -> & ->).
  unfold st at 1 2 3 4 5 6 7 8 9 10 11 12 13 14 15 16. cbn [w0 w1 w2 w3].
  by rewrite !last_line_spec by done.
Qed.

(** ** Well-formedness of blocks and of the key schedule *)

Lemma quad_map_ok f q : (forall x, inw 8 x -> inw 8 (f x)) -> quad_ok q -> quad_ok (quad_map f q).
Proof. intros Hf (?&?&?&?). split_and!; simpl; auto. Qed.

Lemma shift_sub_ok s : block_ok s -> block_ok (shift_rows (sub_bytes s)).
Proof.
  intros ((?&?&?&?) & (?&?&?&?) & (?&?&?&?) & (?&?&?&?)).
  unfold block_ok, quad_ok. simpl. split_and!; by apply sbox_byte.
Qed.

Lemma mix_column_ok q : quad_ok q -> quad_ok (mix_column q).
Proof. intros (?&?&?&?). split_and!; simpl; repeat apply inw_lxor; auto with aes; lia. Qed.

Lemma add_round_key_ok s k : block_ok s -> block_ok k -> block_ok (add_round_key s k).
Proof. intros (?&?&?&?) (?&?&?&?). split_and!; by apply quad_xor_ok. Qed.

Lemma mix_columns_ok s : block_ok s -> block_ok (mix_columns s).
Proof. intros (?&?&?&?). split_and!; by apply mix_column_ok. Qed.

Lemma nth_quad_ok ws i : Forall quad_ok ws -> quad_ok (nth i ws zero_quad).
Proof.
  intros H. destruct (nth_in_or_default i ws zero_quad) as [Hin| ->]; [|by repeat split].
  rewrite Forall_forall in H. apply H. by apply list_elem_of_In.
Qed.

Lemma round_key_ok ws r : Forall quad_ok ws -> block_ok (round_key ws r).
Proof. intros. split_and!; by apply nth_quad_ok. Qed.

Lemma block_of_bytes_ok p : bytes p -> length p = 16%nat -> block_ok (block_of_bytes p).
Proof.
  intros Hp Hl. unfold block_ok, quad_ok. simpl. split_and!; (apply rd_Forall; [done|lia]).
Qed.

(** ** The key schedule *)

Definition ext (i : nat) (w : list quad) : list quad := w ++ [next_word i w].

Lemma ks_core_spec t : quad_ok t -> ks_core (W t) = W (sub_word (rot_word t)).
Proof.
  intros Ht. unfold ks_core. destruct (W_bytes t Ht) as (-> & -> & -> & ->).
  destruct Ht as (H0 & H1 & H2 & H3).
  destruct (Te4_spec _ H1) as (-> & _), (Te4_spec _ H2) as (_ & -> & _),
    (Te4_spec _ H3) as (_ & _ & -> & _), (Te4_spec _ H0) as (_ & _ & _ & ->). reflexivity.
Qed.

Lemma rcon_spec i : (i < 10)%nat -> rd rcon (Z.of_nat i) = W (Q (rc i) 0 0 0) /\ inw 8 (rc i).
Proof.
  intros Hi.
  assert (forallb (fun i => bool_decide (rd rcon (Z.of_nat i) = W (Q (rc i) 0 0 0) /\ inw 8 (rc i)))
            (seq 0 10) = true) as H by (vm_compute; reflexivity).
  rewrite forallb_forall in H. eapply bool_decide_eq_true, H, in_seq. lia.
Qed.

Lemma Forall_quad4 a b c d :
  quad_ok a -> quad_ok b -> quad_ok c -> quad_ok d -> Forall quad_ok [a; b; c; d].
Proof. intros. rewrite !Forall_cons. by split_and!. Qed.

(** The step of the code for four words at a time. *)
Lemma expand128_spec i ws :
  (i < 10)%nat -> length ws = (4 * i + 4)%nat -> Forall quad_ok ws ->
  let ws' := ext (4 * i + 3) (ext (4 * i + 2) (ext (4 * i + 1) (ext (4 * i) ws))) in
  expand128 i (map W ws) = map W ws' /\ Forall quad_ok ws'.
Proof.
  intros Hi Hl Hok.
  destruct (rcon_spec i Hi) as [Hrc Hrcb].
  set (n j := nth (4 * i + j) ws zero_quad).
  assert (forall j, quad_ok (n j)) as Hn by (intros; by apply nth_quad_ok).
  set (r4 := quad_xor (n 0%nat) (quad_xor (sub_word (rot_word (n 3%nat))) (Q (rc i) 0 0 0))).
  set (r5 := quad_xor (n 1%nat) r4). set (r6 := quad_xor (n 2%nat) r5). set (r7 := quad_xor (n 3%nat) r6).
  assert (ext (4 * i) ws = ws ++ [r4]) as ->.
  { unfold ext, next_word. rewrite decide_True by lia.
    replace (4 * i / 4)%nat with i by lia. unfold r4, n. by rewrite Nat.add_0_r. }
  assert (forall k w, (0 < k < 4)%nat -> next_word (4 * i + k) w =
    quad_xor (nth (4 * i + k) w zero_quad) (nth (4 * i + k + 3) w zero_quad)) as Hnext.
  { intros k w Hk. unfold next_word. by rewrite decide_False by lia. }
  assert (ext (4 * i + 1) (ws ++ [r4]) = ws ++ [r4; r5]) as ->.
  { unfold ext. rewrite (Hnext 1%nat) by lia. rewrite app_nth1, app_nth2 by lia.
    replace (4 * i + 1 + 3 - length ws)%nat with 0%nat by lia.
    by rewrite <- (assoc_L (++)). }
  assert (ext (4 * i + 2) (ws ++ [r4; r5]) = ws ++ [r4; r5; r6]) as ->.
  { unfold ext. rewrite (Hnext 2%nat) by lia. rewrite app_nth1, app_nth2 by lia.
    replace (4 * i + 2 + 3 - length ws)%nat with 1%nat by lia.
    by rewrite <- (assoc_L (++)). }
  assert (ext (4 * i + 3) (ws ++ [r4; r5; r6]) = ws ++ [r4; r5; r6; r7]) as ->.
  { unfold ext. rewrite (Hnext 3%nat) by lia. rewrite app_nth1, app_nth2 by lia.
    replace (4 * i + 3 + 3 - length ws)%nat with 2%nat by lia.
    by rewrite <- (assoc_L (++)). }
  assert (quad_ok r4) as H4.
  { apply quad_xor_ok; [done|]. apply quad_xor_ok; [apply quad_map_ok; [apply sbox_byte|]|].
    - destruct (Hn 3%nat) as (?&?&?&?). by unfold quad_ok.
    - unfold quad_ok. simpl. split_and!; [done|by split..]. }
  pose proof (quad_xor_ok _ _ (Hn 1%nat) H4 : quad_ok r5) as H5.
  pose proof (quad_xor_ok _ _ (Hn 2%nat) H5 : quad_ok r6) as H6.
  pose proof (quad_xor_ok _ _ (Hn 3%nat) H6 : quad_ok r7) as H7.
  split; [|apply Forall_app_2; [done|by apply Forall_quad4]].
  pose proof (rd_round_key ws i 0 ltac:(lia)) as E0. rewrite Z.add_0_r in E0.
  pose proof (rd_round_key ws i 1 ltac:(lia) : rd _ (_ + 1) = W (n 1%nat)) as E1.
  pose proof (rd_round_key ws i 2 ltac:(lia) : rd _ (_ + 2) = W (n 2%nat)) as E2.
  pose proof (rd_round_key ws i 3 ltac:(lia) : rd _ (_ + 3) = W (n 3%nat)) as E3.
  unfold expand128. cbv zeta. rewrite E0, E1, E2, E3. fold (n 0%nat).
  rewrite ks_core_spec, Hrc by done.
  rewrite map_app. f_equal. cbn [map]. unfold r7, r6, r5, r4. rewrite !W_xor, !Z.lxor_assoc. done.
Qed.

Lemma key_expansion_spec key :
  bytes key -> length key = 16%nat ->
  aes_setup_enc key 128 = (map W (key_expansion key), 10%nat) /\
  Forall quad_ok (key_expansion key) /\ length (key_expansion key) = 44%nat.
Proof.
  intros Hk Hl. unfold aes_setup_enc, key_expansion. cbv zeta. rewrite decide_True by done.
  destruct (block_of_bytes_ok key Hk Hl) as (H0 & H1 & H2 & H3).
  set (k := [c0 _; _; _; _]).
  change (map (GETU32 key) [0; 4; 8; 12]) with (map W k).
  fold ext. change 40%nat with (4 * 10)%nat. rewrite for_up_mul4.
  set (step := fun i s => _).
  assert (forall m, (m <= 10)%nat ->
    for_up m expand128 (map W k) = map W (for_up m step k) /\
    Forall quad_ok (for_up m step k) /\ length (for_up m step k) = (4 * m + 4)%nat) as H.
  { induction m as [|m IH]; intros Hm; [split_and!; [done|by apply Forall_quad4|done]|].
    destruct IH as (E & Hok & Hlen); [lia|]. rewrite !for_up_S, E.
    destruct (expand128_spec m (for_up m step k)) as [E' Hok']; [lia|done|done|].
    split_and!; [done|done|]. unfold step at 1, ext. rewrite !length_app. simpl. lia. }
  destruct (H 10%nat) as (-> & ? & ?); [lia|]. done.
Qed.

(** ** Properties *)

Lemma rounds_spec ws s n :
  Forall quad_ok ws -> block_ok s -> (4 * n + 3 < length ws)%nat ->
  let spec := for_up n (fun i s =>
    add_round_key (mix_columns (shift_rows (sub_bytes s))) (round_key ws (S i))) s in
  for_up n (fun i => full_round (map W ws) (S i)) (st s) = st spec /\ block_ok spec.
Proof.
  intros Hws Hs. induction n as [|n IH]; intros Hn; [done|]. rewrite !for_up_S.
  destruct IH as [-> Hok]; [lia|]. split.
  - apply full_round_spec; [done|lia].
  - apply add_round_key_ok; [|by apply round_key_ok]. by apply mix_columns_ok, shift_sub_ok.
Qed.

Lemma load_block_spec ws p :
  bytes p -> length p = 16%nat -> (3 < length ws)%nat ->
  load_block (map W ws) p = st (add_round_key (block_of_bytes p) (round_key ws 0)).
Proof.
  intros Hp Hl Hws. destruct (round_key_words ws 0 ltac:(lia)) as (E0 & E1 & E2 & E3).
  change (4 * Z.of_nat 0) with 0 in *. rewrite Z.add_0_l in E1, E2, E3. unfold load_block. rewrite E0, E1, E2, E3.
  unfold st, add_round_key. cbn [c0 c1 c2 c3]. by rewrite !W_xor.
Qed.

(** C39: on a 16-byte key and a 16-byte block, the table-driven key expansion and
    the unrolled encryption compute AES-128 as FIPS 197 defines it. *)
Theorem aes128_fips key p :
  bytes key -> length key = 16%nat -> bytes p -> length p = 16%nat ->
  aes_encrypt (fst (aes_setup_enc key 128)) (snd (aes_setup_enc key 128)) p = aes128 key p.
Proof.
  intros Hk Lk Hp Lp. destruct (key_expansion_spec key Hk Lk) as (-> & Hws & Lws).
  unfold aes128. cbv zeta. set (ws := key_expansion key) in *. cbn [fst snd].
  unfold aes_encrypt. cbv zeta. rewrite load_block_spec by (done || lia).
  set (s0 := add_round_key _ _).
  assert (block_ok s0) as H0
    by (apply add_round_key_ok; [by apply block_of_bytes_ok|by apply round_key_ok]).
  destruct (rounds_spec ws s0 9 Hws H0 ltac:(lia)) as [-> H9].
  rewrite decide_False by lia. rewrite last_round_spec by (done || lia).
  set (s := add_round_key (shift_rows _) _).
  assert (block_ok s) as (?&?&?&?)
    by (apply add_round_key_ok; [by apply shift_sub_ok|by apply round_key_ok]).
  clearbody s. unfold st. cbn [w0 w1 w2 w3]. rewrite !W_u8 by assumption. reflexivity.
Qed.

Lemma aes128_fips_witness :
  let key := replicate 16 0x2b in
  aes_encrypt (fst (aes_setup_enc key 128)) (snd (aes_setup_enc key 128)) (replicate 16 0x32) =
    aes128 key (replicate 16 0x32).
Proof. apply aes128_fips; by_decide. Defined.

End AesSpec.
