(* ===== verification/AesModes.v ===== *)
(** CTR mode and CMAC ([aes_ctr128_encrypt] of [lib/core/src/aes.c],
    [lib/core/src/aes_cmac.c]): the counter, the key stream, the subkeys. *)

From S2P Require Import Prelude Aes AesSpec.

Module AesModes.
Import Aes AesSpec.

Lemma length_aes_encrypt rk n p : length (aes_encrypt rk n p) = 16%nat.
Proof. reflexivity. Qed.

Lemma aes_encrypt_bytes rk n p : bytes (aes_encrypt rk n p).
Proof.
  unfold aes_encrypt. cbv zeta. set (s := last_round _ _ _). clearbody s. unfold PUTU32.
  repeat (apply Forall_cons; split; [apply u8_inw|]). constructor.
Qed.

#[local] Opaque aes_encrypt.

(** ** The counter *)

(** The loop of [ctr128_inc] from the last byte up: [i] bytes done. *)
Lemma ctr128_inc_loop c i :
  bytes c -> length c = 16%nat -> (i <= 16)%nat ->
  let '(c', carry) := for_up i (fun i '(counter, c) =>
    let n := (15 - i)%nat in
    let c := u32 (c + rd counter (Z.of_nat n)) in
    (<[n := u8 c]> counter, c >> 8)) (c, 1) in
  exists suf, c' = take (16 - i) c ++ suf /\ length suf = i /\ bytes suf /\ 0 <= carry <= 1 /\
    be suf + carry * 2 ^ (8 * Z.of_nat i) = be (drop (16 - i) c) + 1.
Proof.
  intros Bc Lc. induction i as [|i IH]; intros Hi.
  - exists []. rewrite drop_ge, take_ge, app_nil_r by lia. done.
  - rewrite for_up_S. destruct (for_up i _ _) as [c' carry].
    destruct IH as (suf & -> & Ls & Bs & Hc & He); [lia|].
    destruct (lookup_lt_is_Some_2 c (15 - i)) as [b Hb]; [lia|].
    assert (inw 8 b) as Bb by (by eapply Forall_lookup_1 in Hb).
    assert (take (16 - i) c = take (15 - i) c ++ [b]) as Ht.
    { replace (16 - i)%nat with (S (15 - i)) by lia. by apply take_S_r. }
    assert (drop (16 - S i) c = b :: drop (16 - i) c) as Hd.
    { replace (16 - S i)%nat with (15 - i)%nat by lia.
      replace (16 - i)%nat with (S (15 - i)) by lia. by apply drop_S. }
    assert (length (take (15 - i) c) = (15 - i)%nat) as Lt by (rewrite length_take; lia).
    rewrite Ht. cbv beta iota zeta. rewrite (rd_lookup _ _ b) by
      (rewrite Nat2Z.id, <- (assoc_L (++)), lookup_app_r by lia; by rewrite Lt, Nat.sub_diag).
    unfold inw in Bb. rewrite u32_id by (unfold inw; lia).
    exists (u8 (carry + b) :: suf). rewrite Hd. split_and!.
    + rewrite <- (assoc_L (++)), insert_app_r_alt by lia. rewrite Lt, Nat.sub_diag.
      by replace (16 - S i)%nat with (15 - i)%nat by lia.
    + simpl. lia.
    + constructor; [apply u8_inw|done].
    + rewrite shiftr_div; lia.
    + rewrite shiftr_div; lia.
    + cbn [be]. rewrite u8_mod, shiftr_div by lia. rewrite length_drop, Lc, Ls.
      replace (16 - (16 - i))%nat with i by lia.
      rewrite Nat2Z.inj_succ, Z.mul_succ_r, Z.pow_add_r by lia.
      pose proof (Z.div_mod (carry + b) (2 ^ 8) ltac:(lia)). nia.
Qed.

Lemma ctr128_inc_spec c :
  bytes c -> length c = 16%nat ->
  bytes (ctr128_inc c) /\ length (ctr128_inc c) = 16%nat /\
  be (ctr128_inc c) = (be c + 1) mod 2 ^ 128.
Proof.
  intros Bc Lc. pose proof (ctr128_inc_loop c 16 Bc Lc ltac:(lia)) as H.
  unfold ctr128_inc. destruct (for_up 16 _ _) as [c' carry].
  destruct H as (suf & -> & Ls & Bs & Hc & He). cbn [fst]. simpl (take _ _ ++ _).
  rewrite Nat.sub_diag in *. simpl (take 0 _ ++ _). rewrite drop_0 in He.
  split_and!; [done|done|]. pose proof (be_bound suf Bs) as Hb. rewrite Ls in Hb.
  change (8 * Z.of_nat 16) with 128 in *. rewrite <- He.
  rewrite Z.mod_add by lia. symmetry. by apply Z.mod_small.
Qed.

#[local] Opaque ctr128_inc.

(** ** The key stream *)

(** [n] blocks of key stream, from counter value [ivec]. *)
Fixpoint ctr_stream (n : nat) (rk : list Z) (nrounds : nat) (ivec : list Z) : list Z :=
  match n with
  | O => []
  | S n => aes_encrypt rk nrounds ivec ++ ctr_stream n rk nrounds (ctr128_inc ivec)
  end.

Lemma length_ctr_stream n rk nr iv : length (ctr_stream n rk nr iv) = (16 * n)%nat.
Proof.
  revert iv. induction n as [|n IH]; intros iv; [done|]. cbn [ctr_stream].
  rewrite length_app, length_aes_encrypt, IH. lia.
Qed.

(** The counter block after [n] increments. *)
Definition ctr_after (n : nat) (ivec : list Z) : list Z := for_up n (fun _ => ctr128_inc) ivec.

Lemma ctr_after_S n ivec : ctr_after n (ctr128_inc ivec) = ctr_after (S n) ivec.
Proof.
  unfold ctr_after. by rewrite for_up_S, for_up_iter.
Qed.

Lemma ctr_loop_xor fuel rk nr iv inp :
  (length inp < 16 * fuel)%nat ->
  ctr_loop fuel rk nr iv inp =
    (xor_bytes inp (ctr_stream fuel rk nr iv), ctr_after ((length inp + 15) / 16) iv).
Proof.
  revert iv inp. induction fuel as [|fuel IH]; intros iv inp Hl; [lia|]. cbn [ctr_loop ctr_stream].
  case_decide as H16; [|case_decide as H0].
  - rewrite IH by (rewrite length_drop; lia). rewrite ctr_after_S, length_drop. f_equal.
    + rewrite <- (take_drop 16 inp) at 3. rewrite xor_bytes_app; [done|].
      rewrite length_aes_encrypt, length_take. lia.
    + f_equal. lia.
  - rewrite xor_bytes_take by (rewrite length_aes_encrypt; lia).
    replace ((length inp + 15) / 16)%nat with 1%nat by lia.
    unfold ctr_after. by rewrite for_up_S, for_up_0.
  - by destruct inp.
Qed.

(** The stream for the counter values [v], [v + 1], ... modulo 2^128. *)
Definition ctr_spec (key : list Z) (v : Z) (n : nat) : list Z :=
  concat (map (fun i => aes128 key (to_be 16 (v + Z.of_nat i))) (seq 0 n)).

Lemma ctr_spec_S key v n :
  ctr_spec key v (S n) = aes128 key (to_be 16 v) ++ ctr_spec key (v + 1) n.
Proof.
  unfold ctr_spec. cbn [seq map concat]. rewrite Z.add_0_r. f_equal.
  rewrite <- seq_shift, map_map. f_equal. apply map_ext. intros i. do 2 f_equal. lia.
Qed.

Lemma ctr_spec_mod key v n : ctr_spec key (v mod 2 ^ 128) n = ctr_spec key v n.
Proof.
  unfold ctr_spec. f_equal. apply map_ext. intros i. f_equal.
  rewrite <- (to_be_mod 16 _ 16), <- (to_be_mod 16 (v + _) 16) by done.
  change (8 * Z.of_nat 16) with 128. by rewrite Zplus_mod_idemp_l.
Qed.

Lemma ctr_stream_spec key n ivec :
  bytes key -> length key = 16%nat -> bytes ivec -> length ivec = 16%nat ->
  ctr_stream n (fst (aes_setup_enc key 128)) (snd (aes_setup_enc key 128)) ivec =
    ctr_spec key (be ivec) n.
Proof.
  intros Bk Lk. revert ivec. induction n as [|n IH]; intros ivec Bi Li; [done|].
  destruct (ctr128_inc_spec ivec Bi Li) as (Bi' & Li' & E).
  cbn [ctr_stream]. rewrite ctr_spec_S, IH, E, ctr_spec_mod by done. f_equal.
  rewrite <- Li at 1. rewrite to_be_be by done. by apply aes128_fips.
Qed.

Lemma ctr_stream_take n m rk nr iv l :
  (length l <= 16 * n)%nat ->
  xor_bytes l (ctr_stream (n + m) rk nr iv) = xor_bytes l (ctr_stream n rk nr iv).
Proof.
  revert iv l. induction n as [|n IH]; intros iv l Hl; [by destruct l; [|simpl in Hl; lia]|].
  cbn [ctr_stream Nat.add]. rewrite <- (take_drop 16 l).
  destruct (decide (length l < 16)%nat).
  - rewrite (drop_ge l), app_nil_r, take_ge by lia.
    by rewrite !xor_bytes_take by (rewrite length_aes_encrypt; lia).
  - rewrite !xor_bytes_app by (rewrite length_aes_encrypt, length_take; lia).
    by rewrite IH by (rewrite length_drop; lia).
Qed.

Lemma length_aes128 key p :
  bytes key -> length key = 16%nat -> bytes p -> length p = 16%nat -> length (aes128 key p) = 16%nat.
Proof. intros. rewrite <- aes128_fips by done. apply length_aes_encrypt. Qed.

Lemma ctr_after_spec n ivec :
  bytes ivec -> length ivec = 16%nat -> ctr_after n ivec = to_be 16 (be ivec + Z.of_nat n).
Proof.
  intros Bi Li.
  assert (bytes (ctr_after n ivec) /\ length (ctr_after n ivec) = 16%nat /\
          be (ctr_after n ivec) = (be ivec + Z.of_nat n) mod 2 ^ 128) as (B & L & E).
  { unfold ctr_after. induction n as [|n IH].
    - split_and!; [done|done|]. simpl for_up. rewrite Z.add_0_r. symmetry. apply Z.mod_small.
      pose proof (be_bound ivec Bi) as Hb. rewrite Li in Hb. exact Hb.
    - rewrite for_up_S. destruct IH as (B & L & E).
      destruct (ctr128_inc_spec _ B L) as (B' & L' & ->). split_and!; [done|done|].
      rewrite E, Zplus_mod_idemp_l. f_equal. lia. }
  rewrite <- (to_be_length 16 (ctr_after n ivec)), E by done.
  change 128 with (8 * Z.of_nat 16). by apply to_be_mod.
Qed.

Lemma ctr128_involutive key ivec inp :
  inp <> [] ->
  exists c ivec', aes_ctr128_encrypt key ivec inp = Some (c, ivec') /\ length c = length inp /\
                  aes_ctr128_encrypt key ivec c = Some (inp, ivec').
Proof.
  intros Hne. unfold aes_ctr128_encrypt. destruct (aes_setup_enc key 128) as [rk nr].
  rewrite decide_False by (by destruct inp). rewrite ctr_loop_xor by lia.
  set (ks := ctr_stream _ _ _ _).
  assert (length ks = (16 * S (length inp))%nat) as Lks by apply length_ctr_stream.
  assert (length (xor_bytes inp ks) = length inp) as Lx by (rewrite length_xor_bytes; lia).
  exists (xor_bytes inp ks), (ctr_after ((length inp + 15) / 16) ivec). split_and!; [done|done|].
  rewrite Lx, decide_False by (by destruct inp).
  rewrite ctr_loop_xor by lia. fold ks. by rewrite xor_bytes_involutive, Lx by lia.
Qed.

(** ** CMAC *)

(** Multiplication by [x] in GF(2)[x] modulo [x^128 + x^7 + x^2 + x + 1]. *)
Definition gf128_double (v : Z) : Z :=
  if Z.testbit v 127 then (v << 1) .^ (2 ^ 128 + 0x87) else v << 1.

Lemma shifted_byte b c :
  inw 8 b -> inw 8 c ->
  (u8 (b << 1) .& 0xfe) .| (if decide (c .& 0x80 <> 0) then 1 else 0) =
    2 * (b mod 2 ^ 7) + c / 2 ^ 7.
Proof.
  intros Hb Hc. revert c Hc. revert b Hb.
  assert (forall b, inw 8 b -> u8 (b << 1) .& 0xfe = (b mod 2 ^ 7) << 1) as H1
    by (refine (bytes_forall _ _); vm_compute; reflexivity).
  assert (forall c, inw 8 c -> (if decide (c .& 0x80 <> 0) then 1 else 0) = c / 2 ^ 7) as H2
    by (refine (bytes_forall _ _); vm_compute; reflexivity).
  intros b Hb c Hc. rewrite H1, H2 by done. rewrite lor_add; [lia|lia|].
  unfold inw in *. lia.
Qed.

Lemma last_byte b : inw 8 b -> u8 (b << 1) .& 0xfe = 2 * (b mod 2 ^ 7).
Proof. revert b. refine (bytes_forall _ _). vm_compute. reflexivity. Qed.

Lemma list16 (l : list Z) :
  length l = 16%nat -> exists a b c d e f g h i j k m n o p q,
    l = [a; b; c; d; e; f; g; h; i; j; k; m; n; o; p; q].
Proof.
  intros H. do 16 (destruct l as [|? l]; [done|]). destruct l; [|done]. eauto 17.
Qed.

Lemma shift_left_spec l :
  bytes l -> length l = 16%nat ->
  bytes (shift_left l) /\ length (shift_left l) = 16%nat /\
  be (shift_left l) = (2 * be l) mod 2 ^ 128.
Proof.
  intros Bl Ll. destruct (list16 l Ll) as (a&b&c&d&e&f&g&h&i&j&k&m&n&o&p&q&->). clear Ll.
  rewrite !Forall_cons in Bl. decompose [and] Bl. clear Bl.
  unfold shift_left. cbn [map].
  cbv [rd Z.to_nat Z.add Pos.add Pos.succ Pos.to_nat Pos.iter_op Nat.add nth Init.Nat.add].
  rewrite !shifted_byte, last_byte by assumption. cbn [app].
  split; [|split; [reflexivity|]].
  - repeat (apply Forall_cons; split; [unfold inw in *; lia|]). constructor.
  - cbn [be length]. unfold inw in *. lia.
Qed.
Lemma double_spec l :
  bytes l -> length l = 16%nat ->
  bytes (double l) /\ length (double l) = 16%nat /\ be (double l) = gf128_double (be l).
Proof.
  intros Bl Ll. destruct (shift_left_spec l Bl Ll) as (Bs & Ls & E).
  pose proof (be_bound l Bl) as Hb. rewrite Ll in Hb. change (8 * Z.of_nat 16) with 128 in Hb.
  assert (rd l 0 .& 0x80 = 0 <-> Z.testbit (be l) 127 = false) as Htop.
  { destruct l as [|b l']; [done|]. injection Ll as Ll'.
    apply Forall_cons in Bl as [Bb Bl']. pose proof (be_bound l' Bl') as Hb'.
    change (rd (b :: l') 0) with b. cbn [be] in *. rewrite Ll' in *.
    pose proof (land_bit_nonzero b 7 ltac:(done)) as Hbit. change (1 << 7) with 0x80 in Hbit.
    replace (Z.testbit (b * _ + be l') 127) with (Z.testbit b 7).
    - clear -Hbit. destruct (Z.testbit b 7), (decide (b .& 128 = 0)); intuition congruence.
    - change (8 * Z.of_nat 15) with 120 in *.
      rewrite <- lor_add, Z.lor_spec, Z.shiftl_spec by (done || lia).
      rewrite (inw_testbit 120 (be l')) by (done || lia). by rewrite orb_false_r. }
  unfold double, gf128_double. rewrite Z.shiftl_mul_pow2 by done. case_decide as H0.
  - apply Htop in H0. rewrite H0. split_and!; [done|done|]. rewrite E.
    rewrite Z.testbit_false in H0 by done. rewrite Z.mod_small; lia.
  - destruct (Z.testbit (be l) 127) eqn:Ht; [|tauto]. rewrite Z.testbit_true in Ht by done.
    assert (bytes rb /\ length rb = 16%nat) as [Brb Lrb] by (split; by_decide).
    split_and!; [by apply xor_bytes_bytes|by rewrite length_xor_bytes, Ls|].
    rewrite be_xor by congruence. rewrite E. change (be rb) with 0x87.
    set (y := (2 * be l) mod 2 ^ 128).
    replace (be l * 2 ^ 1) with (1 * 2 ^ 128 + y) by (unfold y; lia).
    replace (2 ^ 128 + 0x87) with (1 * 2 ^ 128 + 0x87) by lia.
    rewrite <- !lxor_add by (done || unfold inw, y; lia). bits_eq.
Qed.

(** AES-CMAC as RFC 4493 defines it: the message is cut into blocks, the last
    one is combined with a subkey. *)
Definition cmac_spec (key msg : list Z) : list Z :=
  let L := be (aes128 key (replicate 16 0)) in
  let K1 := to_be 16 (gf128_double L) in
  let K2 := to_be 16 (gf128_double (gf128_double L)) in
  let n := ((length msg - 1) / 16)%nat in
  let last := drop (16 * n) msg in
  let M_last :=
    if decide (length last = 16%nat) then xor_bytes last K1
    else xor_bytes (last ++ 0x80 :: replicate (15 - length last) 0) K2 in
  let X := fold_left (fun x m => aes128 key (xor_bytes x m))
             (map (fun i => take 16 (drop (16 * i) msg)) (seq 0 n)) (replicate 16 0) in
  aes128 key (xor_bytes M_last X).

Lemma aes_setup_encrypt key p :
  bytes key -> length key = 16%nat -> bytes p -> length p = 16%nat ->
  (let '(rk, nrounds) := aes_setup_enc key 128 in aes_encrypt rk nrounds p) = aes128 key p.
Proof. intros. rewrite <- aes128_fips by done. by destruct (aes_setup_enc key 128). Qed.

Lemma generate_subkey_spec key :
  bytes key -> length key = 16%nat ->
  let L := be (aes128 key (replicate 16 0)) in
  generate_subkey key = (to_be 16 (gf128_double L), to_be 16 (gf128_double (gf128_double L))).
Proof.
  intros Bk Lk L. unfold L. rewrite <- aes128_fips by by_decide || done. unfold generate_subkey.
  destruct (aes_setup_enc key 128) as [rk nr]. cbn [fst snd]. cbv zeta.
  destruct (double_spec (aes_encrypt rk nr (replicate 16 0))) as (B1 & L1 & E1);
    [apply aes_encrypt_bytes|apply length_aes_encrypt|].
  destruct (double_spec _ B1 L1) as (B2 & L2 & E2).
  rewrite <- E1, <- E2. f_equal; symmetry; by apply to_be_length.
Qed.

Lemma fold_ok (f g : list Z -> list Z -> list Z) (I : list Z -> Prop) ms x :
  (forall x m, I x -> m ∈ ms -> f x m = g x m /\ I (g x m)) -> I x ->
  fold_left f ms x = fold_left g ms x /\ I (fold_left g ms x).
Proof.
  revert x. induction ms as [|m ms IH]; intros x H Hx; [done|]. cbn [fold_left].
  destruct (H x m Hx) as [-> Hg]; [left|]. apply IH; [|done]. intros. apply H; [done|by right].
Qed.

Definition is_block (l : list Z) : Prop := bytes l /\ length l = 16%nat.

Lemma block_xor x m : is_block x -> is_block m -> is_block (xor_bytes x m).
Proof.
  intros [Bx Lx] [Bm Lm]. split; [by apply xor_bytes_bytes|]. by rewrite length_xor_bytes, Lx, Lm.
Qed.

Lemma aes128_block key p :
  bytes key -> length key = 16%nat -> is_block p -> is_block (aes128 key p).
Proof.
  intros Bk Lk [Bp Lp]. split; [|by apply length_aes128].
  rewrite <- aes128_fips by done. apply aes_encrypt_bytes.
Qed.

Lemma blocks_ok msg m n :
  bytes msg -> m ∈ map (fun i => take 16 (drop (16 * i) msg)) (seq 0 n) ->
  (16 * n <= length msg)%nat -> is_block m.
Proof.
  intros Bm Hin Hn. apply list_elem_of_fmap in Hin as (i & -> & Hi).
  apply elem_of_seq in Hi. split; [by apply Forall_take, Forall_drop|].
  rewrite length_take, length_drop. lia.
Qed.

Lemma m_last_spec msg bs k1 k2 :
  bytes msg -> is_block k1 -> is_block k2 -> (bs <= length msg)%nat -> (length (drop bs msg) <= 16)%nat ->
  let last := drop bs msg in
  let M := if decide (length last = 16%nat) then xor_bytes last k1
           else xor_bytes (last ++ 0x80 :: replicate (15 - length last) 0) k2 in
  forall r, (length last <> 16%nat -> r = length last) ->
  m_last msg bs r (bool_decide (length last = 16%nat)) k1 k2 = M /\ is_block M.
Proof.
  intros Bm H1 H2 Hbs Hl last M r Hr. pose proof (length_drop msg bs) as Ld. fold last in Ld, Hl.
  assert (bytes last) as Bl by (by apply Forall_drop).
  unfold m_last, M. fold last. case_decide as E.
  - rewrite bool_decide_true by done. rewrite take_ge by lia. split; [done|].
    by apply block_xor.
  - rewrite bool_decide_false by done. rewrite Hr by done.
    rewrite take_ge by lia. split; [done|]. apply block_xor; [|done]. split.
    + apply Forall_app. split; [done|]. apply Forall_cons. split; [by split|].
      apply Forall_replicate. by split.
    + rewrite length_app. cbn [length]. rewrite length_replicate. lia.
Qed.

(** Whether the last block is complete, and how many octets it has otherwise. *)
Definition last_flag (len : nat) : bool := bool_decide (len <> 0 /\ len mod 16 = 0)%nat.

(** The code of a whole message, whatever its length. *)
Definition cmac (key msg : list Z) : list Z :=
  let len := length msg in
  cmac_blocks key msg (S ((len - 1) / 16)) (len mod 16) (last_flag len).

Lemma length_cmac_blocks key msg n r flag : length (cmac_blocks key msg n r flag) = 16%nat.
Proof.
  unfold cmac_blocks. destruct (generate_subkey key), (aes_setup_enc key 128). apply length_aes_encrypt.
Qed.

(** What is behind the message does not matter. *)
Lemma cmac_blocks_prefix key msg rest n r (flag : bool) :
  ((n - 1) * 16 + (if flag then 16 else r) <= length msg)%nat ->
  cmac_blocks key (msg ++ rest) n r flag = cmac_blocks key msg n r flag.
Proof.
  intros Hn. unfold cmac_blocks. destruct (generate_subkey key) as [k1 k2], (aes_setup_enc key 128) as [rk nr].
  assert (forall i w, (i + w <= length msg)%nat -> take w (drop i (msg ++ rest)) = take w (drop i msg)) as Ht.
  { intros i w Hi. rewrite drop_app_le by lia. apply take_app_le. rewrite length_drop. lia. }
  cbv zeta. assert (m_last (msg ++ rest) ((n - 1) * 16) r flag k1 k2 = m_last msg ((n - 1) * 16) r flag k1 k2) as ->.
  { unfold m_last. destruct flag; by rewrite Ht by lia. }
  rewrite (for_up_ext _ (fun i x => aes_encrypt rk nr (xor_bytes x (take 16 (drop (i * 16) msg))))); [done|].
  intros i x Hi. rewrite Ht; [done|]. destruct flag; nia.
Qed.

Lemma cmac_calculate_whole key msg rest :
  Z.of_nat (length msg) <= 2 ^ 31 ->
  aes_cmac_calculate key (msg ++ rest) (Z.of_nat (length msg)) = Some (cmac key msg).
Proof.
  intros Hl. unfold aes_cmac_calculate, cmac. set (len := length msg) in *. rewrite u32_id by (unfold inw; lia).
  assert ((if decide ((Z.of_nat len + 15) / 16 = 0) then (1, false)
           else ((Z.of_nat len + 15) / 16, bool_decide (Z.of_nat len mod 16 = 0))) =
          (Z.of_nat (S ((len - 1) / 16)), last_flag len)) as ->.
  { unfold last_flag. case_decide; f_equal; [lia| |lia|].
    - symmetry. apply bool_decide_eq_false. lia.
    - apply bool_decide_ext. lia. }
  assert ((Z.of_nat (S ((len - 1) / 16)) - 1) * 16 + (if last_flag len then 16 else Z.of_nat len mod 16) = Z.of_nat len) as E.
  { unfold last_flag. case_bool_decide; lia. }
  rewrite decide_False by lia. rewrite decide_False by (rewrite length_app; fold len; lia).
  rewrite Nat2Z.id. replace (Z.to_nat (Z.of_nat len mod 16)) with (len mod 16)%nat by lia.
  rewrite cmac_blocks_prefix by (fold len; destruct (last_flag len); lia). reflexivity.
Qed.

(** Past 2{^31} octets [bs] leaves the range of [int]. *)
Lemma cmac_calculate_overflow key msg len : 2 ^ 31 < len < 2 ^ 32 - 15 -> aes_cmac_calculate key msg len = None.
Proof.
  intros Hl. unfold aes_cmac_calculate. rewrite u32_id by (unfold inw; lia).
  rewrite decide_False by lia. by rewrite decide_True by lia.
Qed.

(** The last 15 lengths of a [c_uint32_t] wrap: there are no blocks, and one that is
    not complete is made of the first octets. *)
Lemma cmac_calculate_wraps key msg rest len :
  2 ^ 32 - 15 <= len < 2 ^ 32 -> Z.of_nat (length msg) = len mod 16 ->
  aes_cmac_calculate key (msg ++ rest) len = Some (cmac key msg).
Proof.
  intros Hl Hr. unfold aes_cmac_calculate, cmac.
  assert (u32 (len + 15) / 16 = 0) as ->.
  { rewrite u32_mod. replace (len + 15) with (len + 15 - 2 ^ 32 + 1 * 2 ^ 32) by lia.
    rewrite Z.mod_add, Z.mod_small by lia. apply Z.div_small. lia. }
  rewrite decide_True, decide_False by lia. rewrite decide_False by (rewrite length_app; lia).
  rewrite <- Hr, Nat2Z.id.
  replace ((length msg - 1) / 16)%nat with 0%nat by lia.
  replace (length msg mod 16)%nat with (length msg) by lia.
  replace (last_flag (length msg)) with false by (symmetry; apply bool_decide_eq_false; lia).
  rewrite cmac_blocks_prefix by (cbn [Z.to_nat Pos.to_nat Pos.iter_op]; lia). reflexivity.
Qed.

Lemma cmac_whole key msg :
  bytes key -> length key = 16%nat -> bytes msg -> cmac key msg = cmac_spec key msg.
Proof.
  intros Bk Lk Bm. unfold cmac, cmac_blocks, cmac_spec. rewrite generate_subkey_spec by done.
  pose proof (fun p => aes_setup_encrypt key p Bk Lk) as HE.
  cbv zeta. set (K1 := to_be 16 _). set (K2 := to_be 16 _).
  assert (bytes K1 /\ bytes K2 /\ length K1 = 16%nat /\ length K2 = 16%nat) as (B1 & B2 & L1 & L2)
    by (split_and!; apply to_be_bytes || apply length_to_be).
  clearbody K1 K2. destruct (aes_setup_enc key 128) as [rk nr].
  set (n := ((length msg - 1) / 16)%nat).
  assert (last_flag (length msg) = bool_decide (length (drop (16 * n) msg) = 16%nat)) as ->.
  { unfold last_flag. apply bool_decide_ext. rewrite length_drop. unfold n. lia. }
  replace (S n - 1)%nat with n by lia.
  rewrite (for_up_fold (fun x m => aes_encrypt rk nr (xor_bytes x m))
                       (fun i => take 16 (drop (i * 16) msg))).
  replace (map (fun i => take 16 (drop (i * 16) msg)) (seq 0 n))
    with (map (fun i => take 16 (drop (16 * i) msg)) (seq 0 n))
    by (apply map_ext; intros; by rewrite Nat.mul_comm).
  destruct (fold_ok (fun x m => aes_encrypt rk nr (xor_bytes x m))
              (fun x m => aes128 key (xor_bytes x m)) is_block
              (map (fun i => take 16 (drop (16 * i) msg)) (seq 0 n)) (replicate 16 0)) as [-> HX].
  { intros x m Hx Hm.
    assert (is_block m) as Hb by (apply (blocks_ok msg m n); [done|done|unfold n; lia]).
    pose proof (block_xor x m Hx Hb) as [Bx Lx]. rewrite HE by done. split; [done|].
    by apply aes128_block. }
  { split; by_decide. }
  replace (n * 16)%nat with (16 * n)%nat by lia.
  destruct (m_last_spec msg (16 * n) K1 K2) with (r := (length msg mod 16)%nat) as [-> HM];
    [done|done|done|unfold n; lia|rewrite length_drop; unfold n; lia|rewrite length_drop; unfold n; lia|].
  destruct (block_xor _ _ HM HX). by rewrite HE.
Qed.

(** ** Properties *)

(** CTR encryption combines the input with the AES-128 encryptions (FIPS
    197) of successive values of the counter block, read as a big-endian number
    and incremented modulo 2^128 (for any number [n] of blocks that covers it),
    and leaves the counter block advanced by the number of blocks used. *)
Theorem ctr128_counter key ivec inp n :
  bytes key -> length key = 16%nat -> bytes ivec -> length ivec = 16%nat ->
  inp <> [] -> (length inp <= 16 * n)%nat ->
  aes_ctr128_encrypt key ivec inp =
    Some (xor_bytes inp (ctr_spec key (be ivec) n),
          to_be 16 (be ivec + Z.of_nat ((length inp + 15) / 16))).
Proof.
  intros Bk Lk Bi Li Hne Hn. unfold aes_ctr128_encrypt.
  pose proof (ctr_stream_spec key) as Hs. destruct (aes_setup_enc key 128) as [rk nr].
  rewrite decide_False by (by destruct inp). rewrite ctr_loop_xor by lia. cbn [fst snd] in Hs.
  rewrite <- !Hs by done. rewrite ctr_after_spec by done. do 2 f_equal.
  assert (ctr_stream (S (length inp)) rk nr ivec = ctr_stream (n + (S (length inp) - n)) rk nr ivec \/
          (length inp < n)%nat) as [->|Hlt] by (destruct (decide (n <= S (length inp))%nat);
            [left; f_equal; lia|right; lia]).
  - by rewrite ctr_stream_take by lia.
  - replace n with (S (length inp) + (n - S (length inp)))%nat by lia.
    by rewrite (ctr_stream_take (S (length inp))) by lia.
Qed.

Lemma ctr128_counter_witness :
  let key := replicate 16 7 in let ivec := replicate 16 0xff in
  aes_ctr128_encrypt key ivec (replicate 17 1) =
    Some (xor_bytes (replicate 17 1) (ctr_spec key (be ivec) 2), to_be 16 (be ivec + 2)).
Proof. apply ctr128_counter; first [by_decide|simpl; lia|done]. Defined.

(** C40: the CMAC computed is that of RFC 4493, over AES-128 as FIPS 197 defines
    it, for a message of at most 2{^31} octets (the empty one included), whatever
    follows it in memory, and verifying compares with it.  For a length beyond that
    the [int] that holds the offset of the last block overflows; and the lengths from
    2{^32} - 15 on wrap to no block at all: the code is then that of the first
    [len mod 16] octets. *)
Theorem cmac_rfc4493 key msg rest :
  bytes key -> length key = 16%nat -> bytes msg ->
  (Z.of_nat (length msg) <= 2 ^ 31 ->
     aes_cmac_calculate key (msg ++ rest) (Z.of_nat (length msg)) = Some (cmac_spec key msg) /\
     forall mac, aes_cmac_verify mac key (msg ++ rest) (Z.of_nat (length msg)) =
       Some (bool_decide (cmac_spec key msg = take 16 mac))) /\
  (forall len, 2 ^ 31 < len < 2 ^ 32 - 15 -> aes_cmac_calculate key msg len = None) /\
  (forall len, 2 ^ 32 - 15 <= len < 2 ^ 32 -> Z.of_nat (length msg) = len mod 16 ->
     aes_cmac_calculate key (msg ++ rest) len = Some (cmac_spec key msg)).
Proof.
  intros Bk Lk Bm. rewrite <- cmac_whole by done. split_and!.
  - intros Hl. unfold aes_cmac_verify. by rewrite cmac_calculate_whole by done.
  - intros len. apply cmac_calculate_overflow.
  - intros len. apply cmac_calculate_wraps.
Qed.

Lemma cmac_rfc4493_witness :
  let key := replicate 16 7 in
  aes_cmac_calculate key (replicate 17 1 ++ [9]) 17 = Some (cmac_spec key (replicate 17 1)) /\
  aes_cmac_verify (cmac_spec key (replicate 17 1)) key (replicate 17 1 ++ [9]) 17 = Some true.
Proof.
  destruct (cmac_rfc4493 (replicate 16 7) (replicate 17 1) [9]) as [H _]; [by_decide|by_decide|by_decide|].
  destruct (H ltac:(by_decide)) as [H1 H2]. split; [exact H1|]. etransitivity; [apply H2|by vm_compute].
Defined.

End AesModes.
