(* ===== verification/Sha2.v ===== *)
(** [lib/core/src/sha2.c]: SHA-224, SHA-256, SHA-384 and SHA-512.

    The four hash functions of the file have one text: [sha224_*] and
    [sha256_*] differ in the initial value, the size of the digest and nothing
    else, [sha384_*]/[sha512_*] are the same statements on 64-bit words.  The
    section [Sha2] below is that text, with the constants and macros that vary
    in a record [algo]; each function of the file is its instance. *)

From Stdlib Require String.
From S2P Require Import Prelude Pkbuf.

Module Sha2.
Import String.StringSyntax.

(** ** The macros *)

Definition SHFR (x n : Z) : Z := x >> n.
(** [ROTR] on a [w]-bit unsigned operand: the left shift drops the high bits. *)
Definition ROTR (w x n : Z) : Z := (x >> n) .| trunc w (x << (w - n)).
Definition CH (x y z : Z) : Z := (x .& y) .^ (Z.lnot x .& z).
Definition MAJ (x y z : Z) : Z := (x .& y) .^ (x .& z) .^ (y .& z).

Definition SHA256_F1 (x : Z) : Z := ROTR 32 x 2 .^ ROTR 32 x 13 .^ ROTR 32 x 22.
Definition SHA256_F2 (x : Z) : Z := ROTR 32 x 6 .^ ROTR 32 x 11 .^ ROTR 32 x 25.
Definition SHA256_F3 (x : Z) : Z := ROTR 32 x 7 .^ ROTR 32 x 18 .^ SHFR x 3.
Definition SHA256_F4 (x : Z) : Z := ROTR 32 x 17 .^ ROTR 32 x 19 .^ SHFR x 10.

Definition SHA512_F1 (x : Z) : Z := ROTR 64 x 28 .^ ROTR 64 x 34 .^ ROTR 64 x 39.
Definition SHA512_F2 (x : Z) : Z := ROTR 64 x 14 .^ ROTR 64 x 18 .^ ROTR 64 x 41.
Definition SHA512_F3 (x : Z) : Z := ROTR 64 x 1 .^ ROTR 64 x 8 .^ SHFR x 7.
Definition SHA512_F4 (x : Z) : Z := ROTR 64 x 19 .^ ROTR 64 x 61 .^ SHFR x 6.

(** The bytes [UNPACK32] and [UNPACK64] store, from the lowest address up. *)
Definition UNPACK32 (x : Z) : list Z := [u8 (x >> 24); u8 (x >> 16); u8 (x >> 8); u8 x].
Definition UNPACK64 (x : Z) : list Z :=
  [u8 (x >> 56); u8 (x >> 48); u8 (x >> 40); u8 (x >> 32);
   u8 (x >> 24); u8 (x >> 16); u8 (x >> 8); u8 x].

(** [PACK32(&str[o], &x)]. *)
Definition PACK32 (str : list Z) (o : Z) : Z :=
  rd str (o + 3) .| (rd str (o + 2) << 8) .| (rd str (o + 1) << 16) .| (rd str o << 24).
Definition PACK64 (str : list Z) (o : Z) : Z :=
  rd str (o + 7) .| (rd str (o + 6) << 8) .| (rd str (o + 5) << 16) .|
  (rd str (o + 4) << 24) .| (rd str (o + 3) << 32) .| (rd str (o + 2) << 40) .|
  (rd str (o + 1) << 48) .| (rd str o << 56).

(** ** The constants *)

Definition sha224_h0 : list Z :=
  [0xc1059ed8; 0x367cd507; 0x3070dd17; 0xf70e5939;
   0xffc00b31; 0x68581511; 0x64f98fa7; 0xbefa4fa4].

Definition sha256_h0 : list Z :=
  [0x6a09e667; 0xbb67ae85; 0x3c6ef372; 0xa54ff53a;
   0x510e527f; 0x9b05688c; 0x1f83d9ab; 0x5be0cd19].

Definition sha384_h0 : list Z :=
  [0xcbbb9d5dc1059ed8; 0x629a292a367cd507; 0x9159015a3070dd17;
   0x152fecd8f70e5939; 0x67332667ffc00b31; 0x8eb44a8768581511;
   0xdb0c2e0d64f98fa7; 0x47b5481dbefa4fa4].

Definition sha512_h0 : list Z :=
  [0x6a09e667f3bcc908; 0xbb67ae8584caa73b; 0x3c6ef372fe94f82b;
   0xa54ff53a5f1d36f1; 0x510e527fade682d1; 0x9b05688c2b3e6c1f;
   0x1f83d9abfb41bd6b; 0x5be0cd19137e2179].

(** Words of 32 bits, from text. *)
Fixpoint words32 (l : list Z) : list Z :=
  match l with
  | a :: b :: c :: d :: l => be [a; b; c; d] :: words32 l
  | _ => []
  end.

#[local] Open Scope string_scope.
Definition sha256_k : list Z := Eval vm_compute in words32 (hex "
    428a2f9871374491 b5c0fbcfe9b5dba5 3956c25b59f111f1 923f82a4ab1c5ed5
    d807aa9812835b01 243185be550c7dc3 72be5d7480deb1fe 9bdc06a7c19bf174
    e49b69c1efbe4786 0fc19dc6240ca1cc 2de92c6f4a7484aa 5cb0a9dc76f988da
    983e5152a831c66d b00327c8bf597fc7 c6e00bf3d5a79147 06ca635114292967
    27b70a852e1b2138 4d2c6dfc53380d13 650a7354766a0abb 81c2c92e92722c85
    a2bfe8a1a81a664b c24b8b70c76c51a3 d192e819d6990624 f40e3585106aa070
    19a4c1161e376c08 2748774c34b0bcb5 391c0cb34ed8aa4a 5b9cca4f682e6ff3
    748f82ee78a5636f 84c878148cc70208 90befffaa4506ceb bef9a3f7c67178f2").
#[local] Close Scope string_scope.

Definition sha512_k : list Z :=
  [0x428a2f98d728ae22; 0x7137449123ef65cd; 0xb5c0fbcfec4d3b2f;
   0xe9b5dba58189dbbc; 0x3956c25bf348b538; 0x59f111f1b605d019;
   0x923f82a4af194f9b; 0xab1c5ed5da6d8118; 0xd807aa98a3030242;
   0x12835b0145706fbe; 0x243185be4ee4b28c; 0x550c7dc3d5ffb4e2;
   0x72be5d74f27b896f; 0x80deb1fe3b1696b1; 0x9bdc06a725c71235;
   0xc19bf174cf692694; 0xe49b69c19ef14ad2; 0xefbe4786384f25e3;
   0x0fc19dc68b8cd5b5; 0x240ca1cc77ac9c65; 0x2de92c6f592b0275;
   0x4a7484aa6ea6e483; 0x5cb0a9dcbd41fbd4; 0x76f988da831153b5;
   0x983e5152ee66dfab; 0xa831c66d2db43210; 0xb00327c898fb213f;
   0xbf597fc7beef0ee4; 0xc6e00bf33da88fc2; 0xd5a79147930aa725;
   0x06ca6351e003826f; 0x142929670a0e6e70; 0x27b70a8546d22ffc;
   0x2e1b21385c26c926; 0x4d2c6dfc5ac42aed; 0x53380d139d95b3df;
   0x650a73548baf63de; 0x766a0abb3c77b2a8; 0x81c2c92e47edaee6;
   0x92722c851482353b; 0xa2bfe8a14cf10364; 0xa81a664bbc423001;
   0xc24b8b70d0f89791; 0xc76c51a30654be30; 0xd192e819d6ef5218;
   0xd69906245565a910; 0xf40e35855771202a; 0x106aa07032bbd1b8;
   0x19a4c116b8d2d0c8; 0x1e376c085141ab53; 0x2748774cdf8eeb99;
   0x34b0bcb5e19b48a8; 0x391c0cb3c5c95a63; 0x4ed8aa4ae3418acb;
   0x5b9cca4f7763e373; 0x682e6ff3d6b2b8a3; 0x748f82ee5defb2fc;
   0x78a5636f43172f60; 0x84c87814a1f0ab72; 0x8cc702081a6439ec;
   0x90befffa23631e28; 0xa4506cebde82bde9; 0xbef9a3f7b2c67915;
   0xc67178f2e372532b; 0xca273eceea26619c; 0xd186b8c721c0c207;
   0xeada7dd6cde0eb1e; 0xf57d4f7fee6ed178; 0x06f067aa72176fba;
   0x0a637dc5a2c898a6; 0x113f9804bef90dae; 0x1b710b35131c471b;
   0x28db77f523047d84; 0x32caab7b40c72493; 0x3c9ebe0a15c9bebc;
   0x431d67c49c100d4c; 0x4cc5d4becb3e42b6; 0x597f299cfc657e2a;
   0x5fcb6fab3ad6faec; 0x6c44198c4a475817].

(** What varies between the four functions. *)
Record algo := mkAlgo {
  word : Z;                       (** width of a word of the state *)
  log_word : Z;                   (** log2 of its size in bytes *)
  log_block : Z;                  (** log2 of the size of a block in bytes *)
  BLOCK_SIZE : Z;
  DIGEST_SIZE : Z;
  room : Z;                       (** bytes the padding needs at least: 9 or 17 *)
  rounds : nat;
  out_words : nat;                (** words of the state the digest keeps *)
  h0 : list Z;
  k : list Z;
  F1 : Z -> Z;
  F2 : Z -> Z;
  F3 : Z -> Z;
  F4 : Z -> Z;
  PACK : list Z -> Z -> Z;
  UNPACK : Z -> list Z;
}.

Definition SHA224 : algo :=
  mkAlgo 32 2 6 64 28 9 64 7 sha224_h0 sha256_k SHA256_F1 SHA256_F2 SHA256_F3 SHA256_F4
    PACK32 UNPACK32.
Definition SHA256 : algo :=
  mkAlgo 32 2 6 64 32 9 64 8 sha256_h0 sha256_k SHA256_F1 SHA256_F2 SHA256_F3 SHA256_F4
    PACK32 UNPACK32.
Definition SHA384 : algo :=
  mkAlgo 64 3 7 128 48 17 80 6 sha384_h0 sha512_k SHA512_F1 SHA512_F2 SHA512_F3 SHA512_F4
    PACK64 UNPACK64.
Definition SHA512 : algo :=
  mkAlgo 64 3 7 128 64 17 80 8 sha512_h0 sha512_k SHA512_F1 SHA512_F2 SHA512_F3 SHA512_F4
    PACK64 UNPACK64.

(** [sha256_ctx] and [sha512_ctx]: [block] holds two blocks. *)
Record ctx := mkCtx {
  tot_len : Z;
  len : Z;
  block : list Z;
  h : list Z;
}.

(** Conversion of a [c_uint32_t] to [int]. *)
Definition as_int (z : Z) : Z := if decide (z < 2 ^ 31) then z else z - 2 ^ 32.

Section Sha2.
Variable A : algo.

Abbreviation wrap := (trunc (word A)).

(** [SHA256_SCR(j)]: the value stored in [w[j]]. *)
Definition SCR (w : list Z) (j : Z) : Z :=
  wrap (F4 A (rd w (j - 2)) + rd w (j - 7) + F3 A (rd w (j - 15)) + rd w (j - 16)).

(** The array [w]; every cell is written before it is read. *)
Definition schedule (sub_block : list Z) : list Z :=
  let w := for_up 16 (fun j w => <[j := PACK A sub_block (Z.of_nat j << log_word A)]> w)
    (replicate (rounds A) 0) in
  for_up (rounds A - 16) (fun j w =>
    let j := (16 + j)%nat in <[j := SCR w (Z.of_nat j)]> w) w.

(** One iteration of the loop on [wv]. *)
Definition round (w : list Z) (j : nat) (wv : list Z) : list Z :=
  let t1 := wrap (rd wv 7 + F2 A (rd wv 4) + CH (rd wv 4) (rd wv 5) (rd wv 6) +
    rd (k A) (Z.of_nat j) + rd w (Z.of_nat j)) in
  let t2 := wrap (F1 A (rd wv 0) + MAJ (rd wv 0) (rd wv 1) (rd wv 2)) in
  [wrap (t1 + t2); rd wv 0; rd wv 1; rd wv 2; wrap (rd wv 3 + t1); rd wv 4; rd wv 5; rd wv 6].

(** The body of the loop on the blocks: [ctx->h] after one block. *)
Definition transf_block (sub_block : list Z) (hs : list Z) : list Z :=
  let wv := for_up (rounds A) (round (schedule sub_block)) hs in
  for_up 8 (fun j hs => <[j := wrap (rd hs (Z.of_nat j) + rd wv (Z.of_nat j))]> hs) hs.

Definition transf (c : ctx) (message : list Z) (block_nb : Z) : ctx :=
  let hs := for_up (Z.to_nat (as_int block_nb)) (fun i hs =>
    transf_block (drop (Z.to_nat (Z.of_nat i << log_block A)) message) hs) (h c) in
  mkCtx (tot_len c) (len c) (block c) hs.

(** [c] is the storage of the context before the call. *)
Definition init (c : ctx) : ctx :=
  mkCtx 0 0 (block c) (h0 A).

Definition update (c : ctx) (message : list Z) (mlen : Z) : ctx :=
  let tmp_len := u32 (BLOCK_SIZE A - len c) in
  let rem_len := if decide (mlen < tmp_len) then mlen else tmp_len in
  let c := mkCtx (tot_len c) (len c) (put (block c) (len c) (get message 0 rem_len)) (h c) in
  if decide (u32 (len c + mlen) < BLOCK_SIZE A) then
    mkCtx (tot_len c) (u32 (len c + mlen)) (block c) (h c)
  else
    let new_len := u32 (mlen - rem_len) in
    let block_nb := new_len / BLOCK_SIZE A in
    let shifted_message := drop (Z.to_nat rem_len) message in
    let c := transf c (block c) 1 in
    let c := transf c shifted_message block_nb in
    let rem_len := new_len mod BLOCK_SIZE A in
    mkCtx (u32 (tot_len c + u32 ((block_nb + 1) << log_block A))) rem_len
      (put (block c) 0 (get shifted_message (block_nb << log_block A) rem_len)) (h c).

(** The context after [sha256_final] and the digest it writes. *)
Definition final (c : ctx) : ctx * list Z :=
  let block_nb := 1 + (if decide (BLOCK_SIZE A - room A < len c mod BLOCK_SIZE A) then 1 else 0) in
  let len_b := u32 (u32 (tot_len c + len c) << 3) in
  let pm_len := block_nb << log_block A in
  let b := put (block c) (len c) (replicate (Z.to_nat (pm_len - len c)) 0) in
  let b := <[Z.to_nat (len c) := 0x80]> b in
  let b := put b (pm_len - 4) (UNPACK32 len_b) in
  let c := transf (mkCtx (tot_len c) (len c) b (h c)) b block_nb in
  (c, flat_map (fun i => UNPACK A (rd (h c) (Z.of_nat i))) (seq 0 (out_words A))).

(** [sha256(message, len, digest)]; [c] is the local context, uninitialised. *)
Definition hash (c : ctx) (message : list Z) (mlen : Z) : list Z :=
  snd (final (update (init c) message mlen)).

End Sha2.

(** ** The functions of the file *)

Definition sha256_transf := transf SHA256.
Definition sha256 := hash SHA256.
Definition sha256_init := init SHA256.
Definition sha256_update := update SHA256.
Definition sha256_final := final SHA256.

Definition sha512_transf := transf SHA512.
Definition sha512 := hash SHA512.
Definition sha512_init := init SHA512.
Definition sha512_update := update SHA512.
Definition sha512_final := final SHA512.

Definition sha384 := hash SHA384.
Definition sha384_init := init SHA384.
Definition sha384_update := update SHA384.
Definition sha384_final := final SHA384.

Definition sha224 := hash SHA224.
Definition sha224_init := init SHA224.
Definition sha224_update := update SHA224.
Definition sha224_final := final SHA224.

(** ** Test vectors (FIPS 180-2, appendix) *)

#[local] Open Scope string_scope.

(** Storage for a context, with arbitrary contents. *)
Definition fresh (A : algo) : ctx := mkCtx 7 9 (replicate (Z.to_nat (2 * BLOCK_SIZE A)) 0xaa) [].

Example sha256_abc :
  sha256 (fresh SHA256) [0x61; 0x62; 0x63] 3 =
  hex "ba7816bf 8f01cfea 414140de 5dae2223 b00361a3 96177a9c b410ff61 f20015ad".
Proof. vm_compute. reflexivity. Qed.

Example sha224_abc :
  sha224 (fresh SHA224) [0x61; 0x62; 0x63] 3 =
  hex "23097d22 3405d822 8642a477 bda255b3 2aadbce4 bda0b3f7 e36c9da7".
Proof. vm_compute. reflexivity. Qed.

Example sha512_abc :
  sha512 (fresh SHA512) [0x61; 0x62; 0x63] 3 =
  hex "ddaf35a193617aba cc417349ae204131 12e6fa4e89a97ea2 0a9eeee64b55d39a
       2192992a274fc1a8 36ba3c23a3feebbd 454d4423643ce80e 2a9ac94fa54ca49f".
Proof. vm_compute. reflexivity. Qed.

Example sha384_abc :
  sha384 (fresh SHA384) [0x61; 0x62; 0x63] 3 =
  hex "cb00753f45a35e8b b5a03d699ac65007 272c32ab0eded163 1a8b605a43ff5bed
       8086072ba1e7cc23 58baeca134c825a7".
Proof. vm_compute. reflexivity. Qed.

End Sha2.
