(* ===== verification/Sha2Spec.v ===== *)
(** SHA-2 as FIPS 180-4 defines it, and the proof that [Sha2] implements it:
    the compression function, the streaming interface as a refinement of the
    list of bytes absorbed so far, and the four hash functions. *)

From S2P Require Import Prelude Pkbuf Sha2.

(** ** The standard *)

Module Fips.

(** Section 3.2: operations on [w]-bit words. *)
Definition rotr (w n x : Z) : Z := x / 2 ^ n + (x mod 2 ^ n) * 2 ^ (w - n).
Definition shr (n x : Z) : Z := x / 2 ^ n.
Definition compl (w x : Z) : Z := 2 ^ w - 1 - x.

(** Section 4.1. *)
Definition Ch (w x y z : Z) : Z := (x .& y) .^ (compl w x .& z).
Definition Maj (x y z : Z) : Z := (x .& y) .^ (x .& z) .^ (y .& z).

(** The constants of sections 4.2 and 5.3: leading bits of the fractional
    parts of square and cube roots of the first primes. *)
Definition is_prime (n : nat) : bool :=
  bool_decide (2 <= n)%nat &&
  forallb (fun d => negb (Nat.eqb (n mod d) 0)) (seq 2 (Nat.sqrt n - 1)).
Definition primes : list Z := map Z.of_nat (List.filter is_prime (seq 0 410)).

(** The integer cube root of [x], given [n] more bits than [acc]. *)
Fixpoint cbrt_bits (n : nat) (x acc : Z) : Z :=
  match n with
  | O => acc
  | S n =>
      let a := acc + 2 ^ Z.of_nat n in
      cbrt_bits n x (if decide (a ^ 3 <= x) then a else acc)
  end.
Definition cbrt (x : Z) : Z := cbrt_bits (Z.to_nat (Z.log2 x)) x 0.

(** The first [w] bits of the fractional part of the cube root of [p]. *)
Definition cbrt_frac (w p : Z) : Z := cbrt (p * 2 ^ (3 * w)) mod 2 ^ w.
(** Bits [s] to [s + w] of the fractional part of the square root of [p]. *)
Definition sqrt_frac (s w p : Z) : Z := Z.sqrt (p * 2 ^ (2 * (s + w))) mod 2 ^ w.

(** The working variables, and the hash value. *)
Record vars := V { a : Z; b : Z; c : Z; d : Z; e : Z; f : Z; g : Z; h : Z }.
Definition vars_of (l : list Z) : vars :=
  V (rd l 0) (rd l 1) (rd l 2) (rd l 3) (rd l 4) (rd l 5) (rd l 6) (rd l 7).
Definition words (v : vars) : list Z := [a v; b v; c v; d v; e v; f v; g v; h v].

(** What the standard fixes for each of the functions. *)
Record fips := mkFips {
  wb : nat;                          (** bytes of a word *)
  Sigma0 : Z -> Z;
  Sigma1 : Z -> Z;
  sigma0 : Z -> Z;
  sigma1 : Z -> Z;
  nrounds : nat;
  K : list Z;
  H0 : vars;
  keep : nat;                        (** words of the digest *)
}.

Definition rot3 (w x i j l : Z) : Z := rotr w i x .^ rotr w j x .^ rotr w l x.
Definition rot2 (w x i j l : Z) : Z := rotr w i x .^ rotr w j x .^ shr l x.

Definition small (h0 : vars) : nat -> fips :=
  mkFips 4 (fun x => rot3 32 x 2 13 22) (fun x => rot3 32 x 6 11 25)
    (fun x => rot2 32 x 7 18 3) (fun x => rot2 32 x 17 19 10)
    64 (map (cbrt_frac 32) (take 64 primes)) h0.
Definition large (h0 : vars) : nat -> fips :=
  mkFips 8 (fun x => rot3 64 x 28 34 39) (fun x => rot3 64 x 14 18 41)
    (fun x => rot2 64 x 1 8 7) (fun x => rot2 64 x 19 61 6)
    80 (map (cbrt_frac 64) (take 80 primes)) h0.

Definition sha224 : fips := small (vars_of (map (sqrt_frac 32 32) (take 8 (drop 8 primes)))) 7.
Definition sha256 : fips := small (vars_of (map (sqrt_frac 0 32) (take 8 primes))) 8.
Definition sha384 : fips := large (vars_of (map (sqrt_frac 0 64) (take 8 (drop 8 primes)))) 6.
Definition sha512 : fips := large (vars_of (map (sqrt_frac 0 64) (take 8 primes))) 8.

Section Fips.
Variable S : fips.
Abbreviation w := (8 * Z.of_nat (wb S)).
Definition B : nat := 16 * wb S.

(** The message schedule: [next] is [W_t] for [t] the number of words so far. *)
Definition next (W : list Z) : Z :=
  let t := Z.of_nat (length W) in
  (sigma1 S (rd W (t - 2)) + rd W (t - 7) + sigma0 S (rd W (t - 15)) + rd W (t - 16)) mod 2 ^ w.
Definition ext (_ : nat) (W : list Z) : list Z := W ++ [next W].
Definition parse (M : list Z) : list Z :=
  map (fun i => be (take (wb S) (drop (wb S * i) M))) (seq 0 16).
Definition W (M : list Z) : list Z := for_up (nrounds S - 16) ext (parse M).

Definition step (Ws : list Z) (t : nat) (v : vars) : vars :=
  let T1 := (h v + Sigma1 S (e v) + Ch w (e v) (f v) (g v) + rd (K S) (Z.of_nat t) +
    rd Ws (Z.of_nat t)) mod 2 ^ w in
  let T2 := (Sigma0 S (a v) + Maj (a v) (b v) (c v)) mod 2 ^ w in
  V ((T1 + T2) mod 2 ^ w) (a v) (b v) (c v) ((d v + T1) mod 2 ^ w) (e v) (f v) (g v).

Definition add (v v' : vars) : vars :=
  let p x y := (x + y) mod 2 ^ w in
  V (p (a v) (a v')) (p (b v) (b v')) (p (c v) (c v')) (p (d v) (d v'))
    (p (e v) (e v')) (p (f v) (f v')) (p (g v) (g v')) (p (h v) (h v')).

(** Section 6: the hash computation on one block. *)
Definition compress (v : vars) (M : list Z) : vars := add v (for_up (nrounds S) (step (W M)) v).

(** Section 5.1: [l + 1 + k = 7/8 B] modulo [B], then the length in bits. *)
Definition pad (M : list Z) : list Z :=
  let k := (Z.of_nat B - 2 * Z.of_nat (wb S) - 1 - Z.of_nat (length M)) mod Z.of_nat B in
  M ++ 0x80 :: replicate (Z.to_nat k) 0 ++ to_be (2 * wb S) (8 * Z.of_nat (length M)).

(** Section 5.2: [n] blocks. *)
Fixpoint blocks (n : nat) (M : list Z) : list (list Z) :=
  match n with
  | O => []
  | Datatypes.S n => take B M :: blocks n (drop B M)
  end.

Definition digest (v : vars) : list Z := concat (map (to_be (wb S)) (take (keep S) (words v))).

Definition hash (M : list Z) : list Z :=
  let P := pad M in
  digest (fold_left compress (blocks (length P / B) P) (H0 S)).

End Fips.

End Fips.

(** ** The compression function *)

Module Sha2Spec.
Import Sha2.

Lemma rotr_inw w n x : 0 <= n <= w -> inw w x -> inw w (Fips.rotr w n x).
Proof.
  intros Hn [Hx Hx']. unfold Fips.rotr, inw.
  pose proof (Z.mod_pos_bound x (2 ^ n) ltac:(lia)).
  assert (2 ^ w = 2 ^ n * 2 ^ (w - n)) as E by (rewrite <- Z.pow_add_r by lia; f_equal; lia).
  assert (0 <= x / 2 ^ n < 2 ^ (w - n)).
  { split; [apply Z.div_pos; lia|]. apply Z.div_lt_upper_bound; lia. }
  nia.
Qed.

Lemma ROTR_rotr w n x : 0 <= n <= w -> inw w x -> ROTR w x n = Fips.rotr w n x.
Proof.
  intros Hn Hx. unfold ROTR, Fips.rotr. rewrite Z.lor_comm.
  assert (trunc w (x << (w - n)) = (x mod 2 ^ n) << (w - n)) as ->.
  { rewrite trunc_mod, !Z.shiftl_mul_pow2 by lia.
    replace (2 ^ w) with (2 ^ n * 2 ^ (w - n)) by (rewrite <- Z.pow_add_r by lia; f_equal; lia).
    rewrite Z.mul_mod_distr_r by lia. done. }
  rewrite lor_add, shiftr_div by (try apply inw_shiftr; try replace (w - n + n) with w by lia; (lia || done)).
  lia.
Qed.

Lemma CH_Ch w x y z : 0 <= w -> inw w x -> inw w z -> CH x y z = Fips.Ch w x y z.
Proof.
  intros Hw Hx Hz. unfold CH, Fips.Ch. f_equal.
  replace (Fips.compl w x) with (trunc w (Z.lnot x)).
  - rewrite <- (trunc_id w z) at 1 by done. unfold trunc. rewrite <- Z.land_assoc. f_equal. apply Z.land_comm.
  - rewrite trunc_mod by done. unfold Fips.compl, Z.lnot. unfold inw in Hx.
    rewrite <- (Z.mod_small (2 ^ w - 1 - x) (2 ^ w)) by lia.
    rewrite <- (Z.mod_add (Z.pred _) 1) by lia. f_equal. lia.
Qed.

Lemma UNPACK32_be z : UNPACK32 z = to_be 4 z.
Proof.
  unfold UNPACK32. cbn [to_be]. rewrite !u8_mod, !shiftr_div by lia.
  change (2 ^ (8 * Z.of_nat 0)) with 1. by rewrite Z.div_1_r.
Qed.

Lemma UNPACK64_be z : UNPACK64 z = to_be 8 z.
Proof.
  unfold UNPACK64. cbn [to_be]. rewrite !u8_mod, !shiftr_div by lia.
  change (2 ^ (8 * Z.of_nat 0)) with 1. by rewrite Z.div_1_r.
Qed.

(** What the constants of the code owe to the standard. *)
Class implements (A : algo) (S : Fips.fips) : Prop := {
  i_wb : (0 < Fips.wb S)%nat;
  i_word : word A = 8 * Z.of_nat (Fips.wb S);
  i_log_word : 2 ^ log_word A = Z.of_nat (Fips.wb S);
  i_log_block : 2 ^ log_block A = Z.of_nat (Fips.B S);
  i_logs : 0 <= log_word A /\ 0 <= log_block A;
  i_block : BLOCK_SIZE A = Z.of_nat (Fips.B S);
  i_block_small : (16 <= Fips.B S <= 128)%nat;
  i_digest : DIGEST_SIZE A = Z.of_nat (Fips.keep S * Fips.wb S);
  i_len4 : (4 <= 2 * Fips.wb S)%nat;
  i_room : room A = 2 * Z.of_nat (Fips.wb S) + 1;
  i_rounds : rounds A = Fips.nrounds S;
  i_rounds_16 : (16 <= rounds A)%nat;
  i_out : out_words A = Fips.keep S;
  i_out_8 : (out_words A <= 8)%nat;
  i_h0 : h0 A = Fips.words (Fips.H0 S);
  i_h0_inw : Forall (inw (word A)) (h0 A);
  i_k : k A = Fips.K S;
  i_F1 x : inw (word A) x -> F1 A x = Fips.Sigma0 S x;
  i_F2 x : inw (word A) x -> F2 A x = Fips.Sigma1 S x;
  i_F3 x : inw (word A) x -> F3 A x = Fips.sigma0 S x;
  i_F4 x : inw (word A) x -> F4 A x = Fips.sigma1 S x;
  i_PACK l o : bytes l -> (o + Fips.wb S <= length l)%nat ->
    PACK A l (Z.of_nat o) = be (take (Fips.wb S) (drop o l));
  i_UNPACK x : UNPACK A x = to_be (Fips.wb S) x;
}.

Section Compress.
Context (A : algo) (S : Fips.fips) `{I : !implements A S}.

Abbreviation wb := (Fips.wb S).
Abbreviation B := (Fips.B S).

Lemma word_pos : 0 < word A.
Proof. rewrite i_word. pose proof i_wb. lia. Qed.

Lemma wrap_mod z : trunc (word A) z = z mod 2 ^ (8 * Z.of_nat wb).
Proof. rewrite trunc_mod by (pose proof word_pos; lia). by rewrite i_word. Qed.

Lemma wrap_inw z : inw (word A) (trunc (word A) z).
Proof. apply trunc_inw. pose proof word_pos. lia. Qed.

Lemma shl_word j : Z.of_nat j << log_word A = Z.of_nat (wb * j).
Proof. rewrite Z.shiftl_mul_pow2, i_log_word by apply i_logs. lia. Qed.

Lemma shl_block j : j << log_block A = j * Z.of_nat B.
Proof. by rewrite Z.shiftl_mul_pow2, i_log_block by apply i_logs. Qed.

(** *** The message schedule *)

Lemma length_parse M : length (Fips.parse S M) = 16%nat.
Proof. unfold Fips.parse. by rewrite length_map, length_seq. Qed.

Lemma parse_inw M : bytes M -> Forall (inw (word A)) (Fips.parse S M).
Proof.
  intros HM. apply Forall_forall. intros z (i & -> & _)%list_elem_of_fmap_1.
  pose proof (be_bound (take wb (drop (wb * i) M)) ltac:(by apply Forall_take, Forall_drop)) as Hb.
  rewrite i_word. unfold inw. rewrite length_take in Hb. split; [lia|].
  eapply Z.lt_le_trans; [apply Hb|]. apply Z.pow_le_mono_r; lia.
Qed.

Lemma length_W n M : length (for_up n (Fips.ext S) (Fips.parse S M)) = (16 + n)%nat.
Proof.
  induction n as [|n IH]; [apply length_parse|].
  rewrite for_up_S. unfold Fips.ext at 1. rewrite length_app, IH. simpl. lia.
Qed.

Lemma W_inw n M : bytes M -> Forall (inw (word A)) (for_up n (Fips.ext S) (Fips.parse S M)).
Proof.
  intros HM. apply (for_up_ind _ (fun _ => Forall (inw (word A)))); [by apply parse_inw|].
  intros i W _ HW. apply Forall_app_2; [done|]. apply Forall_singleton. unfold Fips.next.
  rewrite <- wrap_mod. apply wrap_inw.
Qed.

Lemma rd_inw l i : Forall (inw (word A)) l -> inw (word A) (rd l i).
Proof.
  intros Hl. unfold rd. destruct (nth_in_or_default (Z.to_nat i) l 0) as [Hin| ->].
  - apply list_elem_of_In in Hin. by eapply Forall_forall.
  - unfold inw. pose proof word_pos. lia.
Qed.

Lemma load_parse M :
  bytes M -> (B <= length M)%nat ->
  for_up 16 (fun j w => <[j := PACK A M (Z.of_nat j << log_word A)]> w) (replicate (rounds A) 0) =
    Fips.parse S M ++ replicate (rounds A - 16) 0.
Proof.
  intros HM Hl. pose proof i_rounds_16. unfold Fips.B in Hl.
  rewrite (for_up_write (fun j => PACK A M (Z.of_nat j << log_word A))) by (rewrite length_replicate; lia).
  rewrite drop_replicate. f_equal. unfold Fips.parse. apply map_ext_in. intros j [_ Hj]%in_seq.
  rewrite shl_word, i_PACK by (done || nia). done.
Qed.

(** [SHA256_SCR(j)] computes the next word. *)
Lemma SCR_next W rest :
  Forall (inw (word A)) W -> (16 <= length W)%nat ->
  SCR A (W ++ rest) (Z.of_nat (length W)) = Fips.next S W.
Proof.
  intros HW Hl. unfold SCR, Fips.next. rewrite wrap_mod, !rd_app_l by lia.
  by rewrite i_F3, i_F4 by (apply rd_inw; done).
Qed.

Lemma schedule_W M :
  bytes M -> (B <= length M)%nat -> schedule A M = Fips.W S M.
Proof.
  intros HM Hl. unfold schedule, Fips.W. rewrite load_parse, <- i_rounds by done.
  enough (forall n, (n <= rounds A - 16)%nat ->
    for_up n (fun j w => let j := (16 + j)%nat in <[j := SCR A w (Z.of_nat j)]> w)
      (Fips.parse S M ++ replicate (rounds A - 16) 0) =
    for_up n (Fips.ext S) (Fips.parse S M) ++ replicate (rounds A - 16 - n) 0) as E.
  { rewrite E, Nat.sub_diag by done. apply app_nil_r. }
  induction n as [|n IH]; intros Hn; [by rewrite Nat.sub_0_r|].
  rewrite !for_up_S, IH by lia. clear IH.
  pose proof (length_W n M) as Ln. pose proof (W_inw n M HM) as Hw.
  set (W := for_up n _ _) in *. change (Fips.ext S n W) with (W ++ [Fips.next S W]).
  cbv zeta. rewrite <- Ln, SCR_next by (done || lia).
  rewrite insert_app_r_alt, Nat.sub_diag by lia.
  replace (rounds A - 16 - n)%nat with (Datatypes.S (rounds A - 16 - Datatypes.S n)) by lia.
  simpl. by rewrite <- (assoc_L (++)).
Qed.

(** *** The rounds *)

Definition vars_inw (v : Fips.vars) : Prop := Forall (inw (word A)) (Fips.words v).

Lemma round_step w j v :
  vars_inw v ->
  round A w j (Fips.words v) = Fips.words (Fips.step S w j v).
Proof.
  intros Hv. unfold vars_inw, Fips.words in Hv. rewrite !Forall_cons in Hv. destruct_and! Hv.
  unfold round, Fips.step, Fips.words.
  rewrite !wrap_mod, i_k. cbn [Fips.a Fips.b Fips.c Fips.d Fips.e Fips.f Fips.g Fips.h].
  cbn [rd nth Z.to_nat Pos.to_nat Pos.iter_op Nat.add].
  rewrite i_F1, i_F2 by done.
  rewrite (CH_Ch (8 * Z.of_nat wb)) by (rewrite <- ?i_word; (done || (pose proof word_pos; lia))).
  done.
Qed.

Lemma step_inw w j v : vars_inw v -> vars_inw (Fips.step S w j v).
Proof.
  unfold vars_inw, Fips.words, Fips.step. rewrite !Forall_cons. intros Hv. destruct_and! Hv.
  rewrite <- !wrap_mod. split_and!; try done; apply wrap_inw.
Qed.

Lemma rounds_steps w n v :
  vars_inw v ->
  for_up n (round A w) (Fips.words v) = Fips.words (for_up n (Fips.step S w) v) /\
  vars_inw (for_up n (Fips.step S w) v).
Proof.
  intros Hv. induction n as [|n [IH IH']]; [done|]. rewrite !for_up_S, IH.
  split; [by apply round_step|by apply step_inw].
Qed.

Lemma transf_block_compress M v :
  bytes M -> (B <= length M)%nat -> vars_inw v ->
  transf_block A M (Fips.words v) = Fips.words (Fips.compress S v M).
Proof.
  intros HM Hl Hv. unfold transf_block, Fips.compress. rewrite schedule_W, i_rounds by done.
  destruct (rounds_steps (Fips.W S M) (Fips.nrounds S) v Hv) as [-> _].
  set (v' := for_up _ _ v).
  rewrite (for_up_update (fun j x => trunc (word A) (x + rd (Fips.words v') (Z.of_nat j)))) by (simpl; lia).
  unfold Fips.words. cbn [take drop imap app Datatypes.length]. simpl. rewrite !wrap_mod. done.
Qed.

Lemma compress_inw M v : vars_inw v -> vars_inw (Fips.compress S v M).
Proof.
  intros _. unfold vars_inw, Fips.words, Fips.compress, Fips.add. cbn [Fips.a Fips.b Fips.c Fips.d Fips.e Fips.f Fips.g Fips.h].
  rewrite <- !wrap_mod. repeat (apply Forall_cons; split; [apply wrap_inw|]). constructor.
Qed.

(** *** Blocks *)

Lemma parse_take M : Fips.parse S (take B M) = Fips.parse S M.
Proof.
  unfold Fips.parse. apply map_ext_in. intros i [_ Hi]%in_seq. f_equal.
  rewrite !take_drop_commute, take_take. do 2 f_equal. unfold Fips.B. nia.
Qed.

Lemma compress_take v M : Fips.compress S v (take B M) = Fips.compress S v M.
Proof. unfold Fips.compress, Fips.W. by rewrite parse_take. Qed.

Lemma blocks_app n m M M' :
  length M = (B * n)%nat -> Fips.blocks S (n + m) (M ++ M') = Fips.blocks S n M ++ Fips.blocks S m M'.
Proof.
  revert M. induction n as [|n IH]; intros M Hl.
  - destruct M; [done|]. simpl in Hl. lia.
  - cbn [Fips.blocks Nat.add app]. rewrite take_app_le, drop_app_le by lia.
    f_equal. apply IH. rewrite length_drop. lia.
Qed.

Lemma blocks_prefix n M M' : (B * n <= length M)%nat -> Fips.blocks S n (M ++ M') = Fips.blocks S n M.
Proof.
  intros Hl. assert (length (take (B * n) M) = (B * n)%nat) as Ht by (rewrite length_take; lia).
  pose proof (blocks_app n 0 _ (drop (B * n) M ++ M') Ht) as E.
  pose proof (blocks_app n 0 _ (drop (B * n) M) Ht) as E'.
  rewrite (assoc_L (++)) in E. rewrite take_drop in E, E'.
  cbn [Fips.blocks] in E, E'. by rewrite Nat.add_0_r, <- E' in *.
Qed.

Lemma blocks_S_r n M :
  (B * Datatypes.S n <= length M)%nat ->
  Fips.blocks S (Datatypes.S n) M = Fips.blocks S n M ++ [take B (drop (B * n) M)].
Proof.
  intros Hl. rewrite <- (take_drop (B * n) M) at 1. rewrite <- (Nat.add_1_r n).
  rewrite blocks_app by (rewrite length_take; lia). f_equal.
  rewrite <- (take_drop (B * n) M) at 2. symmetry. apply blocks_prefix. rewrite length_take. lia.
Qed.

Abbreviation fold := (fold_left (Fips.compress S)).

Lemma fold_inw l v : vars_inw v -> vars_inw (fold l v).
Proof. revert v. induction l as [|M l IH]; intros v Hv; [done|]. by apply IH, compress_inw. Qed.

Lemma transf_fold c M n v :
  h c = Fips.words v -> vars_inw v -> bytes M -> (B * n <= length M)%nat -> Z.of_nat n < 2 ^ 31 ->
  transf A c M (Z.of_nat n) =
    mkCtx (tot_len c) (len c) (block c) (Fips.words (fold (Fips.blocks S n M) v)).
Proof.
  intros Hh Hv HM. unfold transf, as_int. rewrite Hh. intros Hl Hn.
  rewrite decide_True, Nat2Z.id by done. f_equal. clear Hn.
  induction n as [|n IH]; [done|].
  rewrite for_up_S, IH, blocks_S_r, fold_left_app by lia. cbn [fold_left].
  rewrite compress_take, shl_block.
  replace (Z.to_nat (Z.of_nat n * Z.of_nat B)) with (B * n)%nat by lia.
  apply transf_block_compress; [by apply Forall_drop|rewrite length_drop; lia|by apply fold_inw].
Qed.

(** *** The streaming interface: a context stands for the bytes absorbed *)

Definition storage (c : ctx) : Prop := length (block c) = (2 * B)%nat /\ bytes (block c).

Record absorbs (c : ctx) (M : list Z) : Prop := {
  ab_tot : tot_len c = Z.of_nat (B * (length M / B));
  ab_len : len c = Z.of_nat (length M mod B);
  ab_storage : storage c;
  ab_tail : take (length M mod B) (block c) = drop (B * (length M / B)) M;
  ab_h : h c = Fips.words (fold (Fips.blocks S (length M / B) M) (Fips.H0 S));
  ab_bytes : bytes M;
  ab_small : 8 * Z.of_nat (length M) < 2 ^ 32;
}.

Lemma H0_inw : vars_inw (Fips.H0 S).
Proof. unfold vars_inw. rewrite <- i_h0. apply i_h0_inw. Qed.

Lemma B_bounds : (16 <= B <= 128)%nat.
Proof. apply i_block_small. Qed.

Lemma divmod_add q r :
  (r < B)%nat -> ((B * q + r) / B = q /\ (B * q + r) mod B = r)%nat.
Proof.
  intros Hr. split; symmetry; [by eapply Nat.div_unique|by eapply Nat.mod_unique].
Qed.

(** The shape of a message: [q] whole blocks and a tail of [r] bytes. *)
Lemma absorbs_intro c M q r :
  length M = (B * q + r)%nat -> (r < B)%nat ->
  tot_len c = Z.of_nat (B * q) -> len c = Z.of_nat r -> storage c ->
  take r (block c) = drop (B * q) M ->
  h c = Fips.words (fold (Fips.blocks S q M) (Fips.H0 S)) ->
  bytes M -> 8 * Z.of_nat (length M) < 2 ^ 32 -> absorbs c M.
Proof.
  intros Hl Hr. destruct (divmod_add q r Hr) as [E1 E2]. intros.
  constructor; rewrite ?Hl, ?E1, ?E2; rewrite <- ?Hl; done.
Qed.

Lemma absorbs_elim c M :
  absorbs c M -> exists q r, length M = (B * q + r)%nat /\ (r < B)%nat /\
    tot_len c = Z.of_nat (B * q) /\ len c = Z.of_nat r /\
    take r (block c) = drop (B * q) M /\
    h c = Fips.words (fold (Fips.blocks S q M) (Fips.H0 S)).
Proof.
  intros [? ? ? ? ? ? ?]. exists (length M / B)%nat, (length M mod B)%nat. pose proof B_bounds.
  split_and!; try done; [apply Nat.div_mod; lia|apply Nat.mod_upper_bound; lia].
Qed.

Lemma init_absorbs c : storage c -> absorbs (init A c) [].
Proof.
  intros Hc. pose proof B_bounds. apply (absorbs_intro _ _ 0 0); try done; try lia.
  - by rewrite Nat.mul_0_r.
  - by rewrite Nat.mul_0_r.
  - by rewrite take_0, drop_nil.
  - apply i_h0.
Qed.

(** The bytes that fit in the current block are appended to it. *)
Lemma fill_block c M m q r n :
  storage c -> (r < B)%nat -> length M = (B * q + r)%nat ->
  take r (block c) = drop (B * q) M -> bytes m -> (n <= length m)%nat -> (r + n <= B)%nat ->
  let b := put (block c) (Z.of_nat r) (get m 0 (Z.of_nat n)) in
  length b = (2 * B)%nat /\ bytes b /\ take (r + n) b = drop (B * q) M ++ take n m.
Proof.
  intros [Hl Hb] Hr HM Ht Bm Hn Hrn b. unfold b, get. rewrite drop_0, Nat2Z.id.
  split_and!; [by rewrite length_put|by apply put_bytes, Forall_take|].
  assert (length (take n m) = n) as Ln by (rewrite length_take; lia).
  rewrite put_split by lia. rewrite (assoc_L (++)), Ht, take_app_length'; [done|].
  rewrite length_app, length_drop. lia.
Qed.

Lemma update_absorbs_short c M m :
  absorbs c M -> bytes m -> 8 * Z.of_nat (length (M ++ m)) < 2 ^ 32 ->
  (length M mod B + length m < B)%nat ->
  absorbs (update A c m (Z.of_nat (length m))) (M ++ m).
Proof.
  intros HA Bm Hs Hfit. pose proof B_bounds. pose proof (ab_storage c M HA) as Hst.
  pose proof (ab_bytes c M HA) as BM.
  destruct (absorbs_elim c M HA) as (q & r & Hl & Hr & Ht & Hlen & Htail & Hh).
  destruct (divmod_add q r Hr) as [_ E]. rewrite Hl, E in Hfit. clear HA E.
  destruct (fill_block c M m q r (length m) Hst Hr Hl Htail Bm) as (L1 & B1 & T1); [lia..|].
  unfold update. cbv zeta. cbn [len tot_len block h]. rewrite i_block, Hlen.
  rewrite !u32_id by (unfold inw; lia).
  rewrite (decide_True (P := Z.of_nat (length m) < _)) by lia. rewrite decide_True by lia.
  rewrite length_app in Hs. rewrite firstn_all in T1.
  apply (absorbs_intro _ _ q (r + length m)); cbn [len tot_len block h]; try done.
  - rewrite length_app. lia.
  - lia.
  - rewrite T1, drop_app_le by lia. done.
  - by rewrite blocks_prefix by lia.
  - by apply Forall_app_2.
  - rewrite length_app. lia.
Qed.

(** The blocks of [M ++ m1 ++ m2] where [m1] completes the last block of [M]. *)
Lemma blocks_complete q M m1 m2 n :
  (B * q <= length M)%nat -> length (drop (B * q) M ++ m1) = B ->
  Fips.blocks S (q + (1 + n)) (M ++ m1 ++ m2) =
    Fips.blocks S q M ++ (drop (B * q) M ++ m1) :: Fips.blocks S n m2.
Proof.
  intros Hq Hl. rewrite <- (take_drop (B * q) M) at 1. rewrite <- (assoc_L (++)).
  rewrite blocks_app by (rewrite length_take; lia). f_equal.
  - rewrite <- (take_drop (B * q) M) at 2. symmetry. apply blocks_prefix. rewrite length_take. lia.
  - rewrite (assoc_L (++)). rewrite blocks_app by lia. cbn [Fips.blocks]. by rewrite take_ge by lia.
Qed.

(** What [update] computes when the block gets full. *)
Lemma update_full c m r v :
  len c = Z.of_nat r -> h c = Fips.words v -> vars_inw v -> storage c -> bytes m ->
  (r < B)%nat -> (B <= r + length m)%nat -> Z.of_nat (r + length m) < 2 ^ 29 ->
  let b := put (block c) (Z.of_nat r) (get m 0 (Z.of_nat (B - r))) in
  let m2 := drop (B - r) m in
  let n2 := (length m2 / B)%nat in
  let r2 := (length m2 mod B)%nat in
  update A c m (Z.of_nat (length m)) =
    mkCtx (u32 (tot_len c + u32 ((Z.of_nat n2 + 1) << log_block A))) (Z.of_nat r2)
      (put b 0 (take r2 (drop (B * n2) m2)))
      (Fips.words (fold (Fips.blocks S n2 m2) (Fips.compress S v b))).
Proof.
  intros Hlen Hh Hv [Lb Bb] Bm Hr Hfit Hs b m2 n2 r2. pose proof B_bounds.
  assert (bytes b) as B1 by (apply put_bytes; [done|]; by apply get_bytes).
  assert (length b = 2 * B)%nat as L1 by (unfold b; by rewrite length_put).
  assert (length m2 = length m - (B - r))%nat as L2 by apply length_drop.
  unfold update. cbv zeta. cbn [len tot_len block h]. rewrite i_block, Hlen.
  rewrite !u32_id by (unfold inw; lia). rewrite decide_False by lia.
  rewrite decide_False by lia.
  replace (Z.of_nat B - Z.of_nat r) with (Z.of_nat (B - r)) by lia.
  rewrite (u32_id (Z.of_nat (length m) - _)) by (unfold inw; lia).
  replace (Z.of_nat (length m) - Z.of_nat (B - r)) with (Z.of_nat (length m2)) by lia.
  rewrite <- Nat2Z.inj_div, <- Nat2Z.inj_mod, Nat2Z.id. fold m2 n2 r2 b.
  pose proof (transf_fold (mkCtx (tot_len c) (Z.of_nat r) b (h c)) b 1 v Hh Hv B1
    ltac:(lia) ltac:(lia)) as E1. change (Z.of_nat 1) with 1 in E1. rewrite E1.
  cbn [tot_len len block Fips.blocks fold_left]. rewrite compress_take.
  assert (B * n2 <= length m2)%nat as Hn2 by apply Nat.Div0.mul_div_le.
  rewrite (transf_fold _ m2 n2 (Fips.compress S v b));
    [|done|by apply compress_inw|by apply Forall_drop|done|nia].
  cbn [tot_len len block h]. unfold get. rewrite !shl_block, Nat2Z.id.
  by replace (Z.to_nat (Z.of_nat n2 * Z.of_nat B)) with (B * n2)%nat by lia.
Qed.

Lemma update_absorbs_long c M m :
  absorbs c M -> bytes m -> 8 * Z.of_nat (length (M ++ m)) < 2 ^ 32 ->
  (B <= length M mod B + length m)%nat ->
  absorbs (update A c m (Z.of_nat (length m))) (M ++ m).
Proof.
  intros HA Bm Hs Hfit. pose proof B_bounds. pose proof (ab_storage c M HA) as Hst.
  pose proof (ab_bytes c M HA) as BM.
  destruct (absorbs_elim c M HA) as (q & r & Hl & Hr & Ht & Hlen & Htail & Hh).
  destruct (divmod_add q r Hr) as [_ E]. rewrite Hl, E in Hfit. clear HA E.
  destruct (fill_block c M m q r (B - r) Hst Hr Hl Htail Bm) as (L1 & B1 & T1); [lia..|].
  replace (r + (B - r))%nat with B in T1 by lia. pose proof Hs as Hs'. rewrite length_app in Hs.
  assert (vars_inw (fold (Fips.blocks S q M) (Fips.H0 S))) as Hv by apply fold_inw, H0_inw.
  rewrite (update_full c m r _ Hlen Hh Hv Hst Bm Hr Hfit) by lia.
  set (b := put (block c) _ _) in *. set (m2 := drop (B - r) m).
  assert (length m2 = length m - (B - r))%nat as L2 by apply length_drop.
  pose proof (Nat.div_mod (length m2) B ltac:(lia)) as Hdm.
  pose proof (Nat.mod_upper_bound (length m2) B ltac:(lia)) as Hmod.
  set (n2 := (length m2 / B)%nat) in *. set (r2 := (length m2 mod B)%nat) in *.
  assert (length (take r2 (drop (B * n2) m2)) = r2) as Lr2 by (rewrite length_take, length_drop; lia).
  assert (length (drop (B * q) M ++ take (B - r) m) = B) as Lf
    by (rewrite length_app, length_drop, length_take; lia).
  replace (M ++ m) with (M ++ take (B - r) m ++ m2) by (unfold m2; by rewrite take_drop).
  apply (absorbs_intro _ _ (q + (1 + n2)) r2); cbn [tot_len len block h]; try done.
  - rewrite !length_app, length_take. lia.
  - rewrite Ht, shl_block.
    replace ((Z.of_nat n2 + 1) * Z.of_nat B) with (Z.of_nat (B * n2 + B)) by lia.
    rewrite (u32_id (Z.of_nat (B * n2 + B))), u32_id by (unfold inw; lia). lia.
  - split; cbn [block]; [by rewrite length_put|].
    apply put_bytes; [done|]. by do 3 (apply Forall_take || apply Forall_drop).
  - rewrite (put_split _ 0) by lia. rewrite take_0. cbn [app]. rewrite take_app_length' by done.
    rewrite take_ge by (rewrite length_drop; lia).
    rewrite <- (take_drop (B * q) M), <- (assoc_L (++)), (assoc_L (++) (drop _ _)).
    rewrite !drop_app_ge by (rewrite ?length_app, ?length_take, ?length_drop; lia).
    f_equal. rewrite ?length_app, ?length_take, ?length_drop. nia.
  - rewrite blocks_complete, fold_left_app by (done || lia). cbn [fold_left].
    by rewrite <- T1, compress_take.
  - apply Forall_app_2; [done|]. unfold m2. by rewrite take_drop.
  - unfold m2. by rewrite take_drop.
Qed.

Lemma update_absorbs c M m :
  absorbs c M -> bytes m -> 8 * Z.of_nat (length (M ++ m)) < 2 ^ 32 ->
  absorbs (update A c m (Z.of_nat (length m))) (M ++ m).
Proof.
  intros. destruct (Nat.lt_ge_cases (length M mod B + length m) B).
  - by apply update_absorbs_short.
  - by apply update_absorbs_long.
Qed.

(** *** The padding *)

(** The block buffer [final] compresses, when it appends [n] blocks: the tail,
    the bit 1, zeros, and the length in the last four bytes. *)
Lemma padded b t n z :
  length b = (2 * B)%nat -> take (length t) b = t -> (n <= 2)%nat -> (length t + 5 <= B * n)%nat ->
  let pm := Z.of_nat (B * n) in
  let b1 := put b (Z.of_nat (length t)) (replicate (Z.to_nat (pm - Z.of_nat (length t))) 0) in
  put (<[length t := 0x80]> b1) (pm - 4) (UNPACK32 z) =
    (t ++ 0x80 :: replicate (B * n - length t - 5) 0 ++ UNPACK32 z) ++ drop (B * n) b.
Proof.
  intros Lb Ht Hn Hl pm b1. pose proof B_bounds.
  assert (b1 = t ++ replicate (B * n - length t) 0 ++ drop (B * n) b) as ->.
  { unfold b1, pm. replace (Z.to_nat _) with (B * n - length t)%nat by lia.
    rewrite put_split by (rewrite length_replicate; nia). rewrite Ht, length_replicate.
    do 3 f_equal. lia. }
  rewrite insert_app_r_alt, Nat.sub_diag by lia.
  set (j := (B * n - length t - 5)%nat).
  replace (B * n - length t)%nat with (1 + j + 4)%nat by lia.
  rewrite !replicate_add. cbn [replicate app insert list_insert].
  set (zs := replicate j 0).
  pose proof (put_app (t ++ 0x80 :: zs) [0; 0; 0; 0] (drop (B * n) b) (UNPACK32 z) eq_refl) as E.
  replace (Z.of_nat (length (t ++ 0x80 :: zs))) with (pm - 4) in E.
  - rewrite <- !(assoc_L (++)) in E. cbn [app] in E. rewrite <- !(assoc_L (++)). cbn [app].
    rewrite <- !(assoc_L (++)). exact E.
  - rewrite length_app. cbn [length]. unfold zs. rewrite length_replicate. unfold pm. lia.
Qed.

(** The padding of the standard, from the tail of the message. *)
Lemma pad_tail M q r n :
  length M = (B * q + r)%nat -> (r < B)%nat -> 8 * Z.of_nat (length M) < 2 ^ 32 -> (4 <= 2 * wb)%nat ->
  n = (if decide (Z.of_nat B - room A < Z.of_nat r)%Z then 2 else 1)%nat ->
  (r + 5 <= B * n)%nat /\
  Fips.pad S M = M ++ 0x80 :: replicate (B * n - r - 5) 0 ++ UNPACK32 (8 * Z.of_nat (length M)).
Proof.
  intros Hl Hr Hs H4 Hn. pose proof B_bounds. rewrite i_room in Hn.
  assert (B = 16 * wb)%nat as HB by done.
  assert (r + 1 + 2 * wb <= B * n /\ B * n - r - 1 - 2 * wb < B)%nat as [H1 H2]
    by (case_decide; subst n; lia).
  split; [lia|]. unfold Fips.pad. do 2 f_equal.
  assert ((Z.of_nat B - 2 * Z.of_nat wb - 1 - Z.of_nat (length M)) mod Z.of_nat B =
    Z.of_nat (B * n - r - 1 - 2 * wb)) as ->.
  { symmetry. apply (Z.mod_unique_pos _ _ (1 - Z.of_nat n - Z.of_nat q)); [lia|]. rewrite Hl.
    rewrite Nat2Z.inj_add, !Nat2Z.inj_sub, !Nat2Z.inj_mul by lia. lia. }
  rewrite Nat2Z.id, (to_be_small 4 (2 * wb)), UNPACK32_be, (assoc_L (++)), <- replicate_add by lia.
  do 2 f_equal. lia.
Qed.

Lemma flat_map_words v n :
  (n <= 8)%nat ->
  flat_map (fun i => UNPACK A (rd (Fips.words v) (Z.of_nat i))) (seq 0 n) =
    concat (map (to_be wb) (take n (Fips.words v))).
Proof.
  intros Hn. rewrite flat_map_concat_map. f_equal.
  do 9 (destruct n as [|n]; [cbn; by rewrite ?i_UNPACK|]). lia.
Qed.

(** What [final] compresses: [last], the tail of the message with its padding. *)
Lemma final_last c M :
  absorbs c M -> exists q n last,
    Fips.pad S M = take (B * q) M ++ last /\ length last = (B * n)%nat /\
    length (take (B * q) M) = (B * q)%nat /\
    snd (final A c) =
      Fips.digest S (fold (Fips.blocks S n last) (fold (Fips.blocks S q M) (Fips.H0 S))).
Proof.
  intros HA. pose proof B_bounds. destruct (ab_storage c M HA) as [Lb Bb].
  pose proof (ab_bytes c M HA) as BM. pose proof (ab_small c M HA) as Hs.
  destruct (absorbs_elim c M HA) as (q & r & Hl & Hr & Ht & Hlen & Htail & Hh). clear HA.
  assert (length (drop (B * q) M) = r) as Lt by (rewrite length_drop; lia).
  set (n := (if decide (Z.of_nat B - room A < Z.of_nat r)%Z then 2 else 1)%nat).
  assert (n <= 2)%nat as Hn by (unfold n; case_decide; lia).
  destruct (pad_tail M q r n Hl Hr Hs i_len4 eq_refl) as [Hfit Hpad].
  pose proof (padded (block c) (drop (B * q) M) n (8 * Z.of_nat (length M)) Lb) as Hp.
  rewrite Lt in Hp. specialize (Hp Htail Hn Hfit). cbv zeta in Hp.
  set (last := drop (B * q) M ++ _) in Hp.
  assert (length last = (B * n)%nat) as Ll
    by (unfold last; rewrite !length_app, Lt; cbn [length]; rewrite length_app, length_replicate;
        change (length (UNPACK32 _)) with 4%nat; lia).
  assert (bytes last) as Bl.
  { unfold last. rewrite UNPACK32_be. apply Forall_app_2; [by apply Forall_drop|].
    apply Forall_cons; split; [unfold inw; lia|]. apply Forall_app_2; [|apply to_be_bytes].
    apply Forall_replicate. unfold inw. lia. }
  exists q, n, last. split_and!.
  - by rewrite Hpad, <- (take_drop (B * q) M) at 1; rewrite <- (assoc_L (++)).
  - done.
  - rewrite length_take. lia.
  - unfold final. cbv zeta. rewrite Hlen, i_block, (Z.mod_small (Z.of_nat r)) by lia.
    assert (1 + (if decide (Z.of_nat B - room A < Z.of_nat r) then 1 else 0) = Z.of_nat n) as ->
      by (unfold n; case_decide; reflexivity).
    rewrite shl_block. replace (Z.of_nat n * Z.of_nat B) with (Z.of_nat (B * n)) by lia.
    rewrite Ht, (u32_id (Z.of_nat (B * q) + Z.of_nat r)), Z.shiftl_mul_pow2 by (unfold inw; lia).
    rewrite u32_id, Nat2Z.id by (unfold inw; lia).
    replace ((Z.of_nat (B * q) + Z.of_nat r) * 2 ^ 3) with (8 * Z.of_nat (length M)) by lia.
    rewrite Hp, (transf_fold _ _ n (fold (Fips.blocks S q M) (Fips.H0 S)));
      [|done|apply fold_inw, H0_inw|by apply Forall_app_2, Forall_drop|rewrite length_app; lia|lia].
    cbn [snd h]. rewrite blocks_prefix, flat_map_words, i_out by (apply i_out_8 || lia). done.
Qed.

Lemma final_absorbs c M : absorbs c M -> snd (final A c) = Fips.hash S M.
Proof.
  intros HA. pose proof B_bounds.
  destruct (final_last c M HA) as (q & n & last & Hpad & Ll & Lq & ->).
  unfold Fips.hash. rewrite Hpad, length_app, Ll, Lq.
  replace ((B * q + B * n) / B)%nat with (q + n)%nat
    by (rewrite <- Nat.mul_add_distr_l, Nat.mul_comm, Nat.div_mul; lia).
  rewrite blocks_app, fold_left_app by done. do 2 f_equal.
  rewrite <- (take_drop (B * q) M) at 1. symmetry. f_equal. symmetry. apply blocks_prefix. lia.
Qed.

(** Absorbing the chunks of a message one after the other. *)
Definition absorb (c : ctx) (ms : list (list Z)) : ctx :=
  fold_left (fun c m => update A c m (Z.of_nat (length m))) ms c.

Lemma absorb_absorbs ms c M :
  absorbs c M -> Forall (Forall (inw 8)) ms -> 8 * Z.of_nat (length (M ++ concat ms)) < 2 ^ 32 ->
  absorbs (absorb c ms) (M ++ concat ms).
Proof.
  revert c M. induction ms as [|m ms IH]; intros c M HA Hms Hs; cbn [concat] in *.
  - by rewrite app_nil_r.
  - apply Forall_cons in Hms as [Hm Hms]. rewrite (assoc_L (++)) in *. apply IH; [|done|done].
    apply update_absorbs; [done|done|]. rewrite length_app in Hs. lia.
Qed.

Lemma chunks_hash c ms :
  storage c -> Forall (Forall (inw 8)) ms -> 8 * Z.of_nat (length (concat ms)) < 2 ^ 32 ->
  snd (final A (absorb (init A c) ms)) = Fips.hash S (concat ms).
Proof.
  intros Hc Hms Hs. apply final_absorbs. apply (absorb_absorbs ms _ []); [|done|done].
  by apply init_absorbs.
Qed.

Lemma hash_fips c M :
  storage c -> bytes M -> 8 * Z.of_nat (length M) < 2 ^ 32 ->
  hash A c M (Z.of_nat (length M)) = Fips.hash S M.
Proof.
  intros Hc HM Hs. pose proof (chunks_hash c [M] Hc) as E. cbn [concat] in E.
  rewrite app_nil_r in E. apply E; [|done]. by apply Forall_singleton.
Qed.

Lemma length_fips_hash M : length (Fips.hash S M) = (Fips.keep S * wb)%nat.
Proof.
  assert (forall l, length (concat (map (to_be wb) l)) = (length l * wb)%nat) as E.
  { induction l as [|z l IH]; [done|]. cbn [map concat length Nat.mul].
    by rewrite length_app, length_to_be, IH. }
  pose proof i_out_8 as H8. rewrite i_out in H8.
  unfold Fips.hash, Fips.digest. rewrite E, length_take. cbn [length Fips.words]. f_equal. lia.
Qed.

Lemma fips_hash_bytes M : bytes (Fips.hash S M).
Proof.
  unfold Fips.hash, Fips.digest. induction (take _ _); [done|].
  apply Forall_app_2; [apply to_be_bytes|done].
Qed.

End Compress.

(** ** The four functions implement the standard *)

Lemma rd_drop l o i : 0 <= i -> rd l (Z.of_nat o + i) = rd (drop o l) i.
Proof.
  intros Hi. unfold rd. rewrite !nth_lookup, lookup_drop. do 2 f_equal. lia.
Qed.

Lemma bytes_split n l :
  bytes l -> (n < length l)%nat ->
  exists x, drop n l = x :: drop (Datatypes.S n) l /\ inw 8 x.
Proof.
  intros Hl Hn. destruct (lookup_lt_is_Some_2 l n Hn) as [x Hx].
  exists x. split; [by apply drop_S|by eapply Forall_lookup_1 in Hx].
Qed.

Lemma lor_next n a x : 0 <= n -> inw n a -> a .| (x << n) = x * 2 ^ n + a.
Proof. intros. rewrite Z.lor_comm. by apply lor_add. Qed.

Ltac eval_rd :=
  unfold rd;
  repeat match goal with |- context [Z.to_nat ?z] =>
    let n := eval vm_compute in (Z.to_nat z) in change (Z.to_nat z) with n end;
  cbn -[Z.lor Z.shiftl Z.mul Z.add drop]; rewrite take_0; cbn -[Z.lor Z.shiftl Z.mul Z.add drop].

Lemma PACK32_be l o :
  bytes l -> (o + 4 <= length l)%nat -> PACK32 l (Z.of_nat o) = be (take 4 (drop o l)).
Proof.
  intros Hl Ho. unfold PACK32. rewrite <- (Z.add_0_r (Z.of_nat o)) at 4. rewrite !rd_drop by lia.
  do 4 match goal with |- context [drop ?n l] =>
    destruct (bytes_split n l Hl) as (? & -> & ?); [lia|] end.
  eval_rd. unfold inw in *.
  rewrite (lor_next 8), (lor_next 16), (lor_next 24) by (unfold inw; lia). lia.
Qed.

Lemma PACK64_be l o :
  bytes l -> (o + 8 <= length l)%nat -> PACK64 l (Z.of_nat o) = be (take 8 (drop o l)).
Proof.
  intros Hl Ho. unfold PACK64. rewrite <- (Z.add_0_r (Z.of_nat o)) at 8. rewrite !rd_drop by lia.
  do 8 match goal with |- context [drop ?n l] =>
    destruct (bytes_split n l Hl) as (? & -> & ?); [lia|] end.
  eval_rd. unfold inw in *.
  rewrite (lor_next 8), (lor_next 16), (lor_next 24), (lor_next 32), (lor_next 40), (lor_next 48),
    (lor_next 56) by (unfold inw; lia). lia.
Qed.

Lemma SHFR_shr x n : 0 <= n -> SHFR x n = Fips.shr n x.
Proof. apply shiftr_div. Qed.

(** The macros [F1] .. [F4] are the functions of sections 4.1.2 and 4.1.3. *)
Ltac rotations :=
  intros x Hx; cbn [word] in Hx;
  cbn [F1 F2 F3 F4 Fips.Sigma0 Fips.Sigma1 Fips.sigma0 Fips.sigma1 Fips.small Fips.large];
  unfold SHA256_F1, SHA256_F2, SHA256_F3, SHA256_F4, SHA512_F1, SHA512_F2, SHA512_F3, SHA512_F4,
    Fips.rot3, Fips.rot2;
  rewrite !ROTR_rotr by (done || lia); rewrite ?SHFR_shr by lia; done.

(** The numeric side conditions; computing them would evaluate the constants. *)
Ltac constants :=
  first [reflexivity | unfold Fips.B; cbn [Fips.wb Fips.small Fips.large rounds log_word log_block]; lia].

Lemma small_implements D n hs v :
  (n <= 8)%nat -> D = Z.of_nat (n * 4) -> hs = Fips.words v -> Forall (inw 32) hs ->
  implements (mkAlgo 32 2 6 64 D 9 64 n hs sha256_k SHA256_F1 SHA256_F2 SHA256_F3 SHA256_F4
    PACK32 UNPACK32) (Fips.small v n).
Proof.
  intros Hn -> Hh Hi. constructor.
  1-7, 9-12: constants.
  - reflexivity.
  - reflexivity.
  - exact Hn.
  - exact Hh.
  - exact Hi.
  - vm_cast_no_check (eq_refl (Fips.K (Fips.small v n))).
  - rotations.
  - rotations.
  - rotations.
  - rotations.
  - apply PACK32_be.
  - apply UNPACK32_be.
Qed.

Lemma large_implements D n hs v :
  (n <= 8)%nat -> D = Z.of_nat (n * 8) -> hs = Fips.words v -> Forall (inw 64) hs ->
  implements (mkAlgo 64 3 7 128 D 17 80 n hs sha512_k SHA512_F1 SHA512_F2 SHA512_F3 SHA512_F4
    PACK64 UNPACK64) (Fips.large v n).
Proof.
  intros Hn -> Hh Hi. constructor.
  1-7, 9-12: constants.
  - reflexivity.
  - reflexivity.
  - exact Hn.
  - exact Hh.
  - exact Hi.
  - vm_cast_no_check (eq_refl (Fips.K (Fips.large v n))).
  - rotations.
  - rotations.
  - rotations.
  - rotations.
  - apply PACK64_be.
  - apply UNPACK64_be.
Qed.

#[export] Instance sha224_implements : implements SHA224 Fips.sha224.
Proof. apply small_implements; [lia|done|by vm_compute|by_decide]. Qed.
#[export] Instance sha256_implements : implements SHA256 Fips.sha256.
Proof. apply small_implements; [lia|done|by vm_compute|by_decide]. Qed.
#[export] Instance sha384_implements : implements SHA384 Fips.sha384.
Proof. apply large_implements; [lia|done|by vm_compute|by_decide]. Qed.
#[export] Instance sha512_implements : implements SHA512 Fips.sha512.
Proof. apply large_implements; [lia|done|by vm_compute|by_decide]. Qed.

(** The functions of the file and the ones of the standard. *)
Inductive standard : algo -> Fips.fips -> Prop :=
  | std_224 : standard SHA224 Fips.sha224
  | std_256 : standard SHA256 Fips.sha256
  | std_384 : standard SHA384 Fips.sha384
  | std_512 : standard SHA512 Fips.sha512.

#[export] Instance standard_implements A S : standard A S -> implements A S.
Proof. intros []; apply _. Qed.

(** C38: SHA-224, SHA-256, SHA-384 and SHA-512 are the functions of FIPS 180-4,
    through the streaming interface: a context in any initial storage,
    [init]ialised and fed the chunks of a message of less than 2^29 bytes by
    any sequence of calls of [update] (of empty chunks, chunks that fit the
    current block, chunks of many blocks), yields at [final] the digest that
    the standard assigns to the whole message; the one-shot functions yield
    the same.  The constants of the standard are the roots of primes it
    defines, not a copy of the tables of the code. *)
Theorem sha2_streaming A S c ms :
  standard A S ->
  Z.of_nat (length (block c)) = 2 * BLOCK_SIZE A -> bytes (block c) ->
  Forall (Forall (inw 8)) ms -> Z.of_nat (length (concat ms)) < 2 ^ 29 ->
  snd (final A (absorb A (init A c) ms)) = Fips.hash S (concat ms) /\
  hash A c (concat ms) (Z.of_nat (length (concat ms))) = Fips.hash S (concat ms) /\
  Z.of_nat (length (Fips.hash S (concat ms))) = DIGEST_SIZE A.
Proof.
  intros HS Hl Hb Hms Hs. pose proof (standard_implements A S HS) as I.
  assert (storage S c) as Hc by (split; [rewrite i_block in Hl; lia|done]).
  split_and!.
  - apply (chunks_hash A S); [done|done|lia].
  - apply (hash_fips A S); [done|by apply Forall_concat|lia].
  - by rewrite (length_fips_hash A S), i_digest.
Qed.

Lemma sha2_streaming_witness :
  snd (sha256_final (absorb SHA256 (sha256_init (fresh SHA256)) [[0x61]; []; replicate 130 0x62])) =
    Fips.hash Fips.sha256 (0x61 :: replicate 130 0x62).
Proof.
  destruct (sha2_streaming SHA256 Fips.sha256 (fresh SHA256) [[0x61]; []; replicate 130 0x62])
    as [H _]; [constructor|reflexivity|by_decide|by_decide|reflexivity|exact H].
Defined.

End Sha2Spec.
