(* ===== verification/Hmac.v ===== *)
(** [lib/core/src/sha2_hmac.c]: HMAC over the hash functions of [Sha2].

    As in [sha2.c], the four families [hmac_sha224_*] .. [hmac_sha512_*] have
    one text; the section [Hmac] is that text over an [algo] of [Sha2], and the
    functions of the file are its instances.  [Rfc2104] states the standard. *)

From Stdlib Require String.
From S2P Require Import Prelude Pkbuf Sha2 Sha2Spec.

Module Hmac.
Import Sha2.

(** [hmac_sha256_ctx]. *)
Record hmac_ctx := mkHmac {
  ctx_inside : ctx;
  ctx_outside : ctx;
  ctx_inside_reinit : ctx;
  ctx_outside_reinit : ctx;
  block_ipad : list Z;
  block_opad : list Z;
}.

Section Hmac.
Variable A : algo.

(** [hmac_sha256_init(ctx, key, key_size)]; [tmp] is the local context of the
    hash of a long key, uninitialised. *)
Definition hmac_init (tmp : ctx) (c : hmac_ctx) (key : list Z) (key_size : Z) : hmac_ctx :=
  let '(key_used, num, ipad, opad) :=
    if decide (key_size = BLOCK_SIZE A) then (key, BLOCK_SIZE A, block_ipad c, block_opad c)
    else
      let '(key_used, num) :=
        if decide (key_size > BLOCK_SIZE A) then (hash A tmp key key_size, DIGEST_SIZE A)
        else (key, key_size) in
      let fill := u32 (BLOCK_SIZE A - num) in
      (key_used, num,
       put (block_ipad c) num (replicate (Z.to_nat fill) 0x36),
       put (block_opad c) num (replicate (Z.to_nat fill) 0x5c)) in
  let '(ipad, opad) := for_up (Z.to_nat num) (fun i '(ipad, opad) =>
    (<[i := u8 (rd key_used (Z.of_nat i) .^ 0x36)]> ipad,
     <[i := u8 (rd key_used (Z.of_nat i) .^ 0x5c)]> opad)) (ipad, opad) in
  let inside := update A (init A (ctx_inside c)) ipad (BLOCK_SIZE A) in
  let outside := update A (init A (ctx_outside c)) opad (BLOCK_SIZE A) in
  mkHmac inside outside inside outside ipad opad.

Definition hmac_reinit (c : hmac_ctx) : hmac_ctx :=
  mkHmac (ctx_inside_reinit c) (ctx_outside_reinit c) (ctx_inside_reinit c) (ctx_outside_reinit c)
    (block_ipad c) (block_opad c).

Definition hmac_update (c : hmac_ctx) (message : list Z) (message_len : Z) : hmac_ctx :=
  mkHmac (update A (ctx_inside c) message message_len) (ctx_outside c)
    (ctx_inside_reinit c) (ctx_outside_reinit c) (block_ipad c) (block_opad c).

(** The context after the call and the bytes written to [mac].  The local array
    [mac_temp] has [DIGEST_SIZE] bytes: there is no result when more are asked for,
    which the [memcpy] would read behind it. *)
Definition hmac_final (c : hmac_ctx) (mac_size : Z) : option (hmac_ctx * list Z) :=
  let '(inside, digest_inside) := final A (ctx_inside c) in
  let outside := update A (ctx_outside c) digest_inside (DIGEST_SIZE A) in
  let '(outside, mac_temp) := final A outside in
  if decide (mac_size <= DIGEST_SIZE A) then
    Some (mkHmac inside outside (ctx_inside_reinit c) (ctx_outside_reinit c) (block_ipad c) (block_opad c),
          get mac_temp 0 mac_size)
  else None.

(** [hmac_sha256(key, key_size, message, message_len, mac, mac_size)]; [c] and
    [tmp] are the local contexts. *)
Definition hmac (tmp : ctx) (c : hmac_ctx) (key : list Z) (key_size : Z)
    (message : list Z) (message_len mac_size : Z) : option (list Z) :=
  let c := hmac_init tmp c key key_size in
  let c := hmac_update c message message_len in
  snd <$> hmac_final c mac_size.

End Hmac.

Definition hmac_sha224_init := hmac_init SHA224.
Definition hmac_sha224_reinit := hmac_reinit.
Definition hmac_sha224_update := hmac_update SHA224.
Definition hmac_sha224_final := hmac_final SHA224.
Definition hmac_sha224 := hmac SHA224.

Definition hmac_sha256_init := hmac_init SHA256.
Definition hmac_sha256_reinit := hmac_reinit.
Definition hmac_sha256_update := hmac_update SHA256.
Definition hmac_sha256_final := hmac_final SHA256.
Definition hmac_sha256 := hmac SHA256.

Definition hmac_sha384_init := hmac_init SHA384.
Definition hmac_sha384_reinit := hmac_reinit.
Definition hmac_sha384_update := hmac_update SHA384.
Definition hmac_sha384_final := hmac_final SHA384.
Definition hmac_sha384 := hmac SHA384.

Definition hmac_sha512_init := hmac_init SHA512.
Definition hmac_sha512_reinit := hmac_reinit.
Definition hmac_sha512_update := hmac_update SHA512.
Definition hmac_sha512_final := hmac_final SHA512.
Definition hmac_sha512 := hmac SHA512.

(** Storage for a context, with arbitrary contents. *)
Definition fresh_hmac (A : algo) : hmac_ctx :=
  mkHmac (fresh A) (fresh A) (fresh A) (fresh A)
    (replicate (Z.to_nat (BLOCK_SIZE A)) 0xbb) (replicate (Z.to_nat (BLOCK_SIZE A)) 0xcc).

Import String.StringSyntax.
#[local] Open Scope string_scope.

(** RFC 4231, test cases 1 and 6. *)
Example hmac_sha256_vector :
  hmac_sha256 (fresh SHA256) (fresh_hmac SHA256) (replicate 20 0x0b) 20
    (hex "4869205468657265") 8 32 =
  Some (hex "b0344c61d8db38535ca8afceaf0bf12b881dc200c9833da726e9376c2e32cff7").
Proof. vm_compute. reflexivity. Qed.

Example hmac_sha512_long_key :
  hmac_sha512 (fresh SHA512) (fresh_hmac SHA512) (replicate 131 0xaa) 131
    (hex "54657374205573696e67204c6172676572205468616e20426c6f636b2d53697a
          65204b6579202d2048617368204b6579204669727374") 54 64 =
  Some (hex "80b24263c7c1a3ebb71493c1dd7be8b49b46d1f41b4aeec1121b013783f8f352
       6b56d037e05f2598bd0fd2215d6a1e5295e64f73f63f0aec8b915a985d786598").
Proof. vm_compute. reflexivity. Qed.

End Hmac.

(** ** RFC 2104 *)

Module Rfc2104.

(** [H] is the hash function, [B] the length of its blocks in bytes. *)
Definition key_block (H : list Z -> list Z) (B : nat) (K : list Z) : list Z :=
  let K := if decide (B < length K)%nat then H K else K in
  K ++ replicate (B - length K) 0.

Definition hmac (H : list Z -> list Z) (B : nat) (K text : list Z) : list Z :=
  let K := key_block H B K in
  H (xor_bytes K (replicate B 0x5c) ++ H (xor_bytes K (replicate B 0x36) ++ text)).

End Rfc2104.

Module HmacSpec.
Import Sha2 Sha2Spec Hmac.

Section Hmac.
Context (A : algo) (S : Fips.fips) `{I : !implements A S}.

Abbreviation B := (Fips.B S).
Abbreviation Hash := (Fips.hash S).

Lemma for_up_pair (f g : nat -> list Z -> list Z) n a b :
  for_up n (fun i '(a, b) => (f i a, g i b)) (a, b) = (for_up n f a, for_up n g b).
Proof. induction n as [|n IH]; [done|]. by rewrite !for_up_S, IH. Qed.

(** A block of storage of [B] bytes set up with a key of at most [B] bytes. *)
Lemma pad_block K p z :
  bytes K -> (length K <= B)%nat -> length p = B -> inw 8 z ->
  for_up (length K) (fun i p => <[i := u8 (rd K (Z.of_nat i) .^ z)]> p)
    (put p (Z.of_nat (length K)) (replicate (B - length K) z)) =
  xor_bytes (K ++ replicate (B - length K) 0) (replicate B z).
Proof.
  intros HK Hl Hp Hz.
  rewrite (for_up_write (fun i => u8 (rd K (Z.of_nat i) .^ z))) by (rewrite length_put; lia).
  rewrite put_split, drop_app_length' by (rewrite ?length_take, ?length_replicate; lia).
  rewrite length_replicate, drop_ge, app_nil_r by lia.
  replace B with (length K + (B - length K))%nat at 3 by lia. rewrite replicate_add.
  rewrite xor_bytes_app by (rewrite length_replicate; done). f_equal.
  - apply list_eq. intros i. unfold xor_bytes. rewrite lookup_zip_with, list_lookup_fmap.
    destruct (Nat.lt_ge_cases i (length K)) as [Hi|Hi].
    + rewrite lookup_seq_lt, lookup_replicate_2 by done.
      destruct (lookup_lt_is_Some_2 K i Hi) as [x Hx]. rewrite Hx. simpl.
      rewrite (rd_lookup K _ x) by (by rewrite Nat2Z.id). rewrite u8_id; [done|].
      apply inw_lxor; [lia|by eapply Forall_lookup_1 in Hx|done].
    + by rewrite lookup_seq_ge, (lookup_ge_None_2 K) by lia.
  - unfold xor_bytes. generalize (B - length K)%nat. intros n. induction n as [|n IH]; [done|].
    cbn. by rewrite <- IH.
Qed.

Lemma rfc_key_block_length K :
  (length (Hash []) <= B)%nat -> length (Rfc2104.key_block Hash B K) = B.
Proof.
  intros Hd. unfold Rfc2104.key_block.
  assert (forall K', (length K' <= B)%nat -> length (K' ++ replicate (B - length K') 0) = B) as E
    by (intros; rewrite length_app, length_replicate; lia).
  case_decide; apply E; [|lia]. by rewrite (length_fips_hash A S), <- (length_fips_hash A S []).
Qed.

(** What the context holds: [T] bytes of text after a key [K]. *)
Definition pads (K : list Z) (z : Z) : list Z :=
  xor_bytes (Rfc2104.key_block Hash B K) (replicate B z).

Record keyed (c : hmac_ctx) (K T : list Z) : Prop := {
  k_in : absorbs S (ctx_inside c) (pads K 0x36 ++ T);
  k_out : absorbs S (ctx_outside c) (pads K 0x5c);
  k_in' : absorbs S (ctx_inside_reinit c) (pads K 0x36);
  k_out' : absorbs S (ctx_outside_reinit c) (pads K 0x5c);
}.

Definition hmac_storage (c : hmac_ctx) : Prop :=
  storage S (ctx_inside c) /\ storage S (ctx_outside c) /\
  length (block_ipad c) = B /\ length (block_opad c) = B.

Lemma digest_fits : (length (Hash []) <= B)%nat.
Proof.
  rewrite (length_fips_hash A S). pose proof (i_out_8 (A := A) (S := S)) as H8.
  rewrite (i_out (A := A) (S := S)) in H8. unfold Fips.B. nia.
Qed.

Lemma pads_length K z : length (pads K z) = B.
Proof.
  unfold pads. rewrite length_xor_bytes, rfc_key_block_length, length_replicate by apply digest_fits. lia.
Qed.

Lemma pads_bytes K z : bytes K -> inw 8 z -> bytes (pads K z).
Proof.
  intros HK Hz. apply xor_bytes_bytes; [|by apply Forall_replicate].
  apply Forall_app_2; [|apply Forall_replicate; unfold inw; lia].
  case_decide; [apply (fips_hash_bytes S)|done].
Qed.

(** The two blocks after [hmac_init] has written a key [K] of at most [B] bytes. *)
Lemma init_loop K ipad opad :
  bytes K -> (length K <= B)%nat -> length ipad = B -> length opad = B ->
  let p z b := put b (Z.of_nat (length K)) (replicate (Z.to_nat (u32 (Z.of_nat B - Z.of_nat (length K)))) z) in
  for_up (Z.to_nat (Z.of_nat (length K))) (fun i '(a, b) =>
    (<[i := u8 (rd K (Z.of_nat i) .^ 0x36)]> a, <[i := u8 (rd K (Z.of_nat i) .^ 0x5c)]> b))
    (p 0x36 ipad, p 0x5c opad) =
  (xor_bytes (K ++ replicate (B - length K) 0) (replicate B 0x36),
   xor_bytes (K ++ replicate (B - length K) 0) (replicate B 0x5c)).
Proof.
  intros HK Hl Hi Ho p. subst p. cbv beta. pose proof (B_bounds A S). rewrite Nat2Z.id.
  rewrite u32_id by (unfold inw; lia).
  replace (Z.to_nat (Z.of_nat B - Z.of_nat (length K))) with (B - length K)%nat by lia.
  rewrite (for_up_pair (fun i => <[i := u8 (rd K (Z.of_nat i) .^ 0x36)]>)
    (fun i => <[i := u8 (rd K (Z.of_nat i) .^ 0x5c)]>)).
  by rewrite !pad_block by (done || by_decide).
Qed.

Lemma init_loop_full K ipad opad :
  bytes K -> length K = B -> length ipad = B -> length opad = B ->
  for_up (Z.to_nat (Z.of_nat B)) (fun i '(a, b) =>
    (<[i := u8 (rd K (Z.of_nat i) .^ 0x36)]> a, <[i := u8 (rd K (Z.of_nat i) .^ 0x5c)]> b))
    (ipad, opad) =
  (xor_bytes (K ++ replicate (B - length K) 0) (replicate B 0x36),
   xor_bytes (K ++ replicate (B - length K) 0) (replicate B 0x5c)).
Proof.
  intros HK Hl Hi Ho. rewrite <- (init_loop K ipad opad) by (done || lia). cbv zeta beta.
  by rewrite Hl, Z.sub_diag.
Qed.

(** [hmac_init] runs the two hash contexts on the padded keys of the standard. *)
Lemma hmac_init_pads tmp c K :
  storage S tmp -> hmac_storage c -> bytes K -> Z.of_nat (length K) < 2 ^ 29 ->
  hmac_init A tmp c K (Z.of_nat (length K)) =
    let i := update A (init A (ctx_inside c)) (pads K 0x36) (BLOCK_SIZE A) in
    let o := update A (init A (ctx_outside c)) (pads K 0x5c) (BLOCK_SIZE A) in
    mkHmac i o i o (pads K 0x36) (pads K 0x5c).
Proof.
  intros Ht (_ & _ & Hi & Ho) HK Hs. pose proof (B_bounds A S).
  unfold hmac_init, pads, Rfc2104.key_block. rewrite i_block.
  case_decide as Hfull; [|case_decide as Hlong].
  - rewrite decide_False by lia. by rewrite init_loop_full by (done || lia).
  - rewrite decide_True by lia. rewrite (hash_fips A S) by (done || lia).
    rewrite (i_digest (A := A) (S := S)), <- (length_fips_hash A S K).
    rewrite init_loop; [done|apply (fips_hash_bytes S)| |done|done].
    rewrite (length_fips_hash A S), <- (length_fips_hash A S []). apply digest_fits.
  - rewrite decide_False by lia. by rewrite init_loop by (done || lia).
Qed.

Lemma hmac_init_keyed tmp c K :
  storage S tmp -> hmac_storage c -> bytes K -> Z.of_nat (length K) < 2 ^ 29 ->
  keyed (hmac_init A tmp c K (Z.of_nat (length K))) K [].
Proof.
  intros Ht Hc HK Hs. rewrite hmac_init_pads by done. destruct Hc as (Hi & Ho & _).
  pose proof (B_bounds A S).
  assert (forall c z, storage S c -> inw 8 z ->
    absorbs S (update A (init A c) (pads K z) (BLOCK_SIZE A)) (pads K z)) as E.
  { intros c' z Hc' Hz. rewrite (i_block (S := S)), <- (pads_length K z).
    apply (update_absorbs A S _ [] (pads K z));
      [by apply init_absorbs|by apply pads_bytes|]. cbn [app]. rewrite pads_length. lia. }
  constructor; cbn; rewrite ?app_nil_r; apply E; (done || by_decide).
Qed.

Lemma hmac_update_keyed c K T m :
  keyed c K T -> bytes m -> Z.of_nat (B + length T + length m) < 2 ^ 29 ->
  keyed (hmac_update A c m (Z.of_nat (length m))) K (T ++ m).
Proof.
  intros [Hi Ho Hi' Ho'] Hm Hs. constructor; cbn; try done.
  rewrite (assoc_L (++)). apply (update_absorbs A S); [done|done|].
  rewrite !length_app, pads_length. lia.
Qed.

(** [hmac_final] yields the code and leaves the contexts [reinit] restores. *)
Lemma hmac_final_keyed c K T n :
  keyed c K T -> n <= DIGEST_SIZE A ->
  exists c', hmac_final A c n = Some (c', take (Z.to_nat n) (Rfc2104.hmac Hash B K T)) /\
    keyed (hmac_reinit c') K [].
Proof.
  intros [Hi Ho Hi' Ho'] Hn. unfold hmac_final. pose proof (B_bounds A S).
  pose proof (final_absorbs A S _ _ Hi) as E.
  destruct (final A (ctx_inside c)) as [inside d]. cbn [snd] in E. subst d.
  set (d := Hash (pads K 0x36 ++ T)).
  assert (length d = length (Hash [])) as Ld by (unfold d; by rewrite !(length_fips_hash A S)).
  pose proof digest_fits. pose proof (length_fips_hash A S (pads K 0x36 ++ T)) as L. fold d in L.
  rewrite (i_digest (A := A) (S := S)), <- L in Hn |- *.
  assert (absorbs S (update A (ctx_outside c) d (Z.of_nat (length d))) (pads K 0x5c ++ d)) as HA.
  { apply (update_absorbs A S); [done|apply (fips_hash_bytes S)|].
    rewrite length_app, pads_length. lia. }
  pose proof (final_absorbs A S _ _ HA) as E.
  destruct (final A _) as [outside m]. cbn [snd] in E. subst m. rewrite decide_True by done.
  eexists. split; [unfold get; by rewrite drop_0|].
  constructor; cbn; rewrite ?app_nil_r; done.
Qed.

Lemma hmac_final_overread c n : DIGEST_SIZE A < n -> hmac_final A c n = None.
Proof. intros Hn. unfold hmac_final. do 2 destruct (final A _). by rewrite decide_False by lia. Qed.

(** A sequence of calls of [hmac_update]. *)
Definition hmac_feed (c : hmac_ctx) (ms : list (list Z)) : hmac_ctx :=
  fold_left (fun c m => hmac_update A c m (Z.of_nat (length m))) ms c.

Lemma hmac_feed_keyed ms c K T :
  keyed c K T -> Forall (Forall (inw 8)) ms ->
  Z.of_nat (B + length T + length (concat ms)) < 2 ^ 29 ->
  keyed (hmac_feed c ms) K (T ++ concat ms).
Proof.
  revert c T. induction ms as [|m ms IH]; intros c T Hk Hms Hs; cbn [concat] in *.
  - by rewrite app_nil_r.
  - apply Forall_cons in Hms as [Hm Hms]. rewrite length_app in Hs. rewrite (assoc_L (++)).
    apply IH; [|done|rewrite length_app; lia]. apply hmac_update_keyed; [done|done|lia].
Qed.

End Hmac.

(** C37: HMAC is RFC 2104 over the hash functions of FIPS 180-4, for keys of less than
    2{^29} bytes, texts that with the block of the key have less than 2{^29} bytes, and
    codes that are not longer than the digest.  For such a key (shorter than a block, a
    block, longer and so hashed), [hmac_final] after [hmac_init] and any sequence of
    calls of [hmac_update] writes the first [mac_size] bytes of
    [H(K ^ opad || H(K ^ ipad || text))] for the concatenation of the texts; after
    [hmac_reinit] the same context authenticates another text with the same key; and
    the one-shot function is the same code.  A longer code than the digest is read
    behind the array that holds it. *)
Theorem hmac_rfc2104 A S tmp c key ms ms' n n' :
  standard A S -> storage S tmp -> hmac_storage S c -> bytes key ->
  Forall (Forall (inw 8)) ms -> Forall (Forall (inw 8)) ms' ->
  Z.of_nat (length key) < 2 ^ 29 ->
  BLOCK_SIZE A + Z.of_nat (length (concat ms)) < 2 ^ 29 ->
  BLOCK_SIZE A + Z.of_nat (length (concat ms')) < 2 ^ 29 ->
  0 <= n <= DIGEST_SIZE A -> 0 <= n' <= DIGEST_SIZE A ->
  let mac text n := take (Z.to_nat n) (Rfc2104.hmac (Fips.hash S) (Fips.B S) key text) in
  (exists c1 c2,
     hmac_final A (hmac_feed A (hmac_init A tmp c key (Z.of_nat (length key))) ms) n = Some (c1, mac (concat ms) n) /\
     hmac_final A (hmac_feed A (hmac_reinit c1) ms') n' = Some (c2, mac (concat ms') n')) /\
  hmac A tmp c key (Z.of_nat (length key)) (concat ms) (Z.of_nat (length (concat ms))) n =
    Some (mac (concat ms) n) /\
  (forall c0 n0, DIGEST_SIZE A < n0 -> hmac_final A c0 n0 = None).
Proof.
  intros HS Ht Hc HK Hms Hms' Hs1 Hs2 Hs3 Hn Hn' mac. pose proof (standard_implements A S HS) as I.
  rewrite (i_block (S := S)) in *.
  assert (keyed S (hmac_init A tmp c key (Z.of_nat (length key))) key []) as Hk
    by (by apply (hmac_init_keyed A S)).
  assert (forall c ms n, keyed S c key [] -> Forall (Forall (inw 8)) ms ->
    Z.of_nat (Fips.B S) + Z.of_nat (length (concat ms)) < 2 ^ 29 -> 0 <= n <= DIGEST_SIZE A ->
    exists c', hmac_final A (hmac_feed A c ms) n = Some (c', mac (concat ms) n) /\
      keyed S (hmac_reinit c') key []) as E.
  { intros c0 ms0 n0 Hk0 Hms0 Hs0 Hn0. apply (hmac_final_keyed A S); [|lia].
    apply (hmac_feed_keyed A S ms0 c0 key []); [done|done|]. rewrite length_nil. lia. }
  split_and!.
  - destruct (E _ ms n Hk Hms Hs2 Hn) as (c1 & E1 & K1). destruct (E _ ms' n' K1 Hms' Hs3 Hn') as (c2 & E2 & _).
    by exists c1, c2.
  - destruct (E _ [concat ms] n Hk) as (c' & E3 & _); [|cbn [concat]; by rewrite app_nil_r|done|].
    { apply Forall_singleton. by apply Forall_concat. }
    cbn [concat] in E3. rewrite app_nil_r in E3. unfold hmac. cbn [hmac_feed fold_left] in E3. by rewrite E3.
  - intros c0 n0. apply hmac_final_overread.
Qed.

Lemma hmac_rfc2104_witness :
  let mac text n := Some (take n (Rfc2104.hmac (Fips.hash Fips.sha256) 64 (replicate 70 1) text)) in
  let c := hmac_init SHA256 (fresh SHA256) (fresh_hmac SHA256) (replicate 70 1) 70 in
  (exists c1, hmac_final SHA256 (hmac_feed SHA256 c [[1; 2]; [3]]) 32 = (c1,.) <$> mac [1; 2; 3] 32%nat /\
     exists c2, hmac_final SHA256 (hmac_feed SHA256 (hmac_reinit c1) [replicate 80 4]) 16 = (c2,.) <$> mac (replicate 80 4) 16%nat) /\
  hmac_sha256 (fresh SHA256) (fresh_hmac SHA256) (replicate 70 1) 70 [1; 2; 3] 3 32 = mac [1; 2; 3] 32%nat.
Proof.
  destruct (hmac_rfc2104 SHA256 Fips.sha256 (fresh SHA256) (fresh_hmac SHA256) (replicate 70 1)
    [[1; 2]; [3]] [replicate 80 4] 32 16) as ((c1 & c2 & E1 & E2) & E3 & _).
  - constructor.
  - split; [reflexivity|by_decide].
  - split_and!; [split; [reflexivity|by_decide]|split; [reflexivity|by_decide]|reflexivity|reflexivity].
  - by_decide.
  - by_decide.
  - by_decide.
  - reflexivity.
  - reflexivity.
  - reflexivity.
  - by_decide.
  - by_decide.
  - split; [exists c1; split; [exact E1|exists c2; exact E2]|exact E3].
Defined.

End HmacSpec.
