(* ===== verification/Milenage.v ===== *)
(** [src/hss/milenage.c]: the authentication and key generation functions of
    TS 35.206, AUTN generation and verification, resynchronisation. *)

From Stdlib Require String.
From S2P Require Import Prelude Pkbuf Aes AesSpec AesModes.

Module Milenage.
Import Aes.

(** A pointer argument that may be [NULL]: the buffer it points to. *)
Abbreviation buffer := (option (list Z)).

(** [if (p) memcpy(p, l, n);] *)
Definition store (p : buffer) (l : list Z) : buffer := (fun b => put b 0 l) <$> p.

(** An automatic array; it is written before it is read. *)
Definition array (n : nat) : list Z := replicate n 0.

(** [memcmp(a, b, n)] on unsigned bytes: the sign of the first difference. *)
Fixpoint memcmp (a b : list Z) (n : nat) : Z :=
  match n with
  | O => 0
  | S n =>
      if decide (rd a 0 < rd b 0) then -1 else if decide (rd a 0 > rd b 0) then 1
      else memcmp (drop 1 a) (drop 1 b) n
  end.

(** [for (i = 0; i < n; i++) t[(i + k) % 16] = a[i] ^ b[i];] *)
Definition xor_loop (n k : nat) (a b t : list Z) : list Z :=
  for_up n (fun i t => <[((i + k) mod 16)%nat := u8 (rd a (Z.of_nat i) .^ rd b (Z.of_nat i))]> t) t.

(** The return value and the block written to [out]. *)
Definition aes_128_encrypt_block (key input : list Z) : Z * list Z :=
  let '(rk, nrounds) := aes_setup_enc key 128 in
  (0, aes_encrypt rk nrounds input).

(** The result and the buffers [mac_a] and [mac_s] after the call. *)
Definition milenage_f1 (opc k rand sqn amf : list Z) (mac_a mac_s : buffer)
    : Z * buffer * buffer :=
  let tmp1 := xor_loop 16 0 rand opc (array 16) in
  let '(r, tmp1) := aes_128_encrypt_block k tmp1 in
  if decide (r <> 0) then (-1, mac_a, mac_s) else
  let tmp2 := put (array 16) 0 (get sqn 0 6) in
  let tmp2 := put tmp2 6 (get amf 0 2) in
  let tmp2 := put tmp2 8 (get tmp2 0 8) in
  let tmp3 := xor_loop 16 8 tmp2 opc (array 16) in
  let tmp3 := xor_loop 16 0 tmp3 tmp1 tmp3 in
  let '(r, tmp1) := aes_128_encrypt_block k tmp3 in
  if decide (r <> 0) then (-1, mac_a, mac_s) else
  let tmp1 := xor_loop 16 0 tmp1 opc tmp1 in
  (0, store mac_a (get tmp1 0 8), store mac_s (get tmp1 8 8)).

(** The rotation, the constant and the encryption of f3, f4 and f5*:
    [tmp1[(i + rot) % 16] = tmp2[i] ^ opc[i]; tmp1[15] ^= c;] and the block
    cipher.  The first component is its result. *)
Definition out_block (k tmp2 opc : list Z) (rot : nat) (c : Z) : Z * list Z :=
  let tmp1 := xor_loop 16 rot tmp2 opc (array 16) in
  let tmp1 := <[15%nat := rd tmp1 15 .^ c]> tmp1 in
  aes_128_encrypt_block k tmp1.

(** The result and the five buffers after the call. *)
Definition milenage_f2345 (opc k rand : list Z) (res ck ik ak akstar : buffer)
    : Z * (buffer * buffer * buffer * buffer * buffer) :=
  let tmp1 := xor_loop 16 0 rand opc (array 16) in
  let '(r, tmp2) := aes_128_encrypt_block k tmp1 in
  if decide (r <> 0) then (-1, (res, ck, ik, ak, akstar)) else
  (* f2 and f5 *)
  let '(r, tmp3) := out_block k tmp2 opc 0 1 in
  if decide (r <> 0) then (-1, (res, ck, ik, ak, akstar)) else
  let tmp3 := xor_loop 16 0 tmp3 opc tmp3 in
  let res := store res (get tmp3 8 8) in
  let ak := store ak (get tmp3 0 6) in
  (* f3 *)
  let '(r, ck) :=
    match ck with
    | Some b => let '(r, o) := out_block k tmp2 opc 12 2 in
                let b := put b 0 o in (r, Some (xor_loop 16 0 b opc b))
    | None => (0, None)
    end in
  if decide (r <> 0) then (-1, (res, ck, ik, ak, akstar)) else
  (* f4 *)
  let '(r, ik) :=
    match ik with
    | Some b => let '(r, o) := out_block k tmp2 opc 8 4 in
                let b := put b 0 o in (r, Some (xor_loop 16 0 b opc b))
    | None => (0, None)
    end in
  if decide (r <> 0) then (-1, (res, ck, ik, ak, akstar)) else
  (* f5* *)
  let '(r, akstar) :=
    match akstar with
    | Some b => let '(r, tmp1) := out_block k tmp2 opc 4 8 in
                (r, Some (xor_loop 6 0 tmp1 opc b))
    | None => (0, None)
    end in
  if decide (r <> 0) then (-1, (res, ck, ik, ak, akstar)) else
  (0, (res, ck, ik, ak, akstar)).

(** The bytes a buffer holds; [default []] stands for a null dereference and is
    never reached where the code passes an array. *)
Definition deref (p : buffer) : list Z := default [] p.

(** What [milenage_generate] leaves in [autn], [ik], [ck], [ak], [res] and
    [*res_len]. *)
Record vector := mkVector {
  v_autn : list Z; v_ik : list Z; v_ck : list Z; v_ak : list Z; v_res : list Z; v_res_len : Z }.

Definition milenage_generate (opc amf k sqn rand : list Z) (o : vector) : vector :=
  let failed o := mkVector (v_autn o) (v_ik o) (v_ck o) (v_ak o) (v_res o) 0 in
  if decide (v_res_len o < 8) then failed o else
  let '(r, mac_a, _) := milenage_f1 opc k rand sqn amf (Some (array 8)) None in
  if decide (r <> 0) then failed o else
  let '(r, (res, ck, ik, ak, _)) :=
    milenage_f2345 opc k rand (Some (v_res o)) (Some (v_ck o)) (Some (v_ik o)) (Some (v_ak o)) None in
  let o := mkVector (v_autn o) (deref ik) (deref ck) (deref ak) (deref res) (v_res_len o) in
  if decide (r <> 0) then failed o else
  let autn := xor_loop 6 0 sqn (v_ak o) (v_autn o) in
  let autn := put autn 6 (get amf 0 2) in
  let autn := put autn 8 (get (deref mac_a) 0 8) in
  mkVector autn (v_ik o) (v_ck o) (v_ak o) (v_res o) 8.

(** The result and the buffer [sqn]. *)
Definition milenage_auts (opc k rand auts sqn : list Z) : Z * list Z :=
  let amf := [0; 0] in
  let '(r, (_, _, _, _, ak)) := milenage_f2345 opc k rand None None None None (Some (array 6)) in
  if decide (r <> 0) then (-1, sqn) else
  let sqn := xor_loop 6 0 auts (deref ak) sqn in
  let '(r, _, mac_s) := milenage_f1 opc k rand sqn amf None (Some (array 8)) in
  if decide (r <> 0 \/ memcmp (deref mac_s) (drop 6 auts) 8 <> 0) then (-1, sqn) else (0, sqn).

(** The result and the buffers [sres] and [kc]. *)
Definition gsm_milenage (opc k rand sres kc : list Z) : Z * list Z * list Z :=
  let '(r, (res, ck, ik, _, _)) :=
    milenage_f2345 opc k rand (Some (array 8)) (Some (array 16)) (Some (array 16)) None None in
  if decide (r <> 0) then (-1, sres, kc) else
  let res := deref res in let ck := deref ck in let ik := deref ik in
  let kc := for_up 8 (fun i kc =>
    <[i := u8 (rd ck (Z.of_nat i) .^ rd ck (Z.of_nat (i + 8)) .^
               rd ik (Z.of_nat i) .^ rd ik (Z.of_nat (i + 8)))]> kc) kc in
  let sres := for_up 4 (fun i sres =>
    <[i := u8 (rd res (Z.of_nat i) .^ rd res (Z.of_nat (i + 4)))]> sres) sres in
  (0, sres, kc).

(** What [milenage_check] leaves in its output buffers. *)
Record checked := mkChecked {
  c_ik : list Z; c_ck : list Z; c_res : list Z; c_res_len : Z; c_auts : list Z }.

Definition milenage_check (opc k sqn rand autn : list Z) (o : checked) : Z * checked :=
  let '(r, (res, ck, ik, ak, _)) :=
    milenage_f2345 opc k rand (Some (c_res o)) (Some (c_ck o)) (Some (c_ik o)) (Some (array 6)) None in
  let o := mkChecked (deref ik) (deref ck) (deref res) (c_res_len o) (c_auts o) in
  if decide (r <> 0) then (-1, o) else
  let o := mkChecked (c_ik o) (c_ck o) (c_res o) 8 (c_auts o) in
  let rx_sqn := xor_loop 6 0 autn (deref ak) (array 6) in
  if decide (memcmp rx_sqn sqn 6 <= 0) then
    let auts_amf := [0; 0] in
    let '(r, (_, _, _, _, ak)) := milenage_f2345 opc k rand None None None None ak in
    if decide (r <> 0) then (-1, o) else
    let auts := xor_loop 6 0 sqn (deref ak) (c_auts o) in
    let '(r, _, mac_s) := milenage_f1 opc k rand sqn auts_amf None (Some (drop 6 auts)) in
    let o := mkChecked (c_ik o) (c_ck o) (c_res o) (c_res_len o) (put auts 6 (deref mac_s)) in
    if decide (r <> 0) then (-1, o) else (-2, o)
  else
  let amf := drop 6 autn in
  let '(r, mac_a, _) := milenage_f1 opc k rand rx_sqn amf (Some (array 8)) None in
  if decide (r <> 0) then (-1, o) else
  if decide (memcmp (deref mac_a) (drop 8 autn) 8 <> 0) then (-1, o) else (0, o).

(** The buffer [opc]. *)
Definition milenage_opc (k op opc : list Z) : list Z :=
  let '(_, out) := aes_128_encrypt_block k op in
  let opc := put opc 0 out in
  xor_loop 16 0 opc op opc.

(** TS 35.207, test set 1. *)
Import String.StringSyntax.
#[local] Open Scope string_scope.

Definition test_k := hex "465b5ce8b199b49faa5f0a2ee238a6bc".
Definition test_rand := hex "23553cbe9637a89d218ae64dae47bf35".
Definition test_sqn := hex "ff9bb4d0b607".
Definition test_amf := hex "b9b9".
Definition test_op := hex "cdc202d5123e20f62b6d676ac72cb318".
Definition test_opc := milenage_opc test_k test_op (array 16).

Example milenage_set1 :
  test_opc = hex "cd63cb71954a9f4e48a5994e37a02baf" /\
  milenage_f1 test_opc test_k test_rand test_sqn test_amf (Some (array 8)) (Some (array 8)) =
    (0, Some (hex "4a9ffac354dfafb3"), Some (hex "01cfaf9ec4e871e9")) /\
  milenage_f2345 test_opc test_k test_rand (Some (array 8)) (Some (array 16)) (Some (array 16))
    (Some (array 6)) (Some (array 6)) =
    (0, (Some (hex "a54211d5e3ba50bf"), Some (hex "b40ba9a3c58b2a05bbf0d987b21bf8cb"),
         Some (hex "f769bcd751044604127672711c6d3441"), Some (hex "aa689c648370"),
         Some (hex "451e8beca43b"))).
Proof. vm_compute. done. Qed.

End Milenage.
