(* ===== verification/MilenageSpec.v ===== *)
(** TS 35.206 as the standard states it, on 128-bit numbers, and the proof that
    [Milenage] implements it over the AES of FIPS 197. *)

From S2P Require Import Prelude Pkbuf Aes AesSpec AesModes Milenage.

(** ** The standard *)

Module Ts35206.

(** Rotation of a 128-bit value by [r] positions towards the most significant bit. *)
Definition rot (x r : Z) : Z := (x * 2 ^ r) mod 2 ^ 128 + x / 2 ^ (128 - r).

Section Ts35206.
Variable E : Z -> Z.     (** the block cipher under the subscriber key *)
Variable OPc : Z.
Variable RAND : Z.

Definition TEMP : Z := E (RAND .^ OPc).
Definition IN1 (SQN AMF : Z) : Z := SQN * 2 ^ 80 + AMF * 2 ^ 64 + SQN * 2 ^ 16 + AMF.
Definition OUT1 (SQN AMF : Z) : Z := E (TEMP .^ rot (IN1 SQN AMF .^ OPc) 64 .^ 0) .^ OPc.
Definition OUT (r c : Z) : Z := E (rot (TEMP .^ OPc) r .^ c) .^ OPc.
Definition OUT2 : Z := OUT 0 1.
Definition OUT3 : Z := OUT 32 2.
Definition OUT4 : Z := OUT 64 4.
Definition OUT5 : Z := OUT 96 8.

Definition f1 (SQN AMF : Z) : list Z := to_be 8 (OUT1 SQN AMF / 2 ^ 64).
Definition f1star (SQN AMF : Z) : list Z := to_be 8 (OUT1 SQN AMF mod 2 ^ 64).
Definition f2 : list Z := to_be 8 (OUT2 mod 2 ^ 64).
Definition f3 : list Z := to_be 16 OUT3.
Definition f4 : list Z := to_be 16 OUT4.
Definition f5 : list Z := to_be 6 (OUT2 / 2 ^ 80).
Definition f5star : list Z := to_be 6 (OUT5 / 2 ^ 80).
End Ts35206.

(** AES-128 on 128-bit numbers. *)
Definition E (K : list Z) (x : Z) : Z := be (AesSpec.aes128 K (to_be 16 x)).

Definition opc (K OP : list Z) : list Z := to_be 16 (be OP .^ E K (be OP)).

End Ts35206.

Module MilenageSpec.
Import Aes AesSpec AesModes Milenage.

(** ** Bytes as numbers *)

Definition is_block (n : nat) (l : list Z) : Prop := bytes l /\ length l = n.

Lemma be_take_drop n l :
  bytes l -> (n <= length l)%nat ->
  be (take n l) = be l / 2 ^ (8 * Z.of_nat (length l - n)) /\
  be (drop n l) = be l mod 2 ^ (8 * Z.of_nat (length l - n)).
Proof.
  intros Hl Hn. pose proof (be_bound (drop n l) ltac:(by apply Forall_drop)) as Hd.
  rewrite length_drop in Hd. rewrite <- (take_drop n l) at 2 5. rewrite be_app, length_drop.
  split; [rewrite Z.div_add_l, Z.div_small by lia; lia|].
  rewrite Z.add_comm, Z.mod_add, Z.mod_small by lia. done.
Qed.

Lemma take_be n l :
  bytes l -> (n <= length l)%nat -> take n l = to_be n (be l / 2 ^ (8 * Z.of_nat (length l - n))).
Proof.
  intros Hl Hn. destruct (be_take_drop n l Hl Hn) as [<- _].
  symmetry. apply to_be_length; [by apply Forall_take|rewrite length_take; lia].
Qed.

Lemma drop_be n l :
  bytes l -> (n <= length l)%nat ->
  drop n l = to_be (length l - n) (be l mod 2 ^ (8 * Z.of_nat (length l - n))).
Proof.
  intros Hl Hn. destruct (be_take_drop n l Hl Hn) as [_ <-].
  symmetry. apply to_be_length; [by apply Forall_drop|rewrite length_drop; lia].
Qed.

Lemma is_block_xor n a b : is_block n a -> is_block n b -> is_block n (xor_bytes a b).
Proof.
  intros [Ba La] [Bb Lb]. split; [by apply xor_bytes_bytes|rewrite length_xor_bytes; lia].
Qed.

Lemma be_xor_block n a b : is_block n a -> is_block n b -> be (xor_bytes a b) = be a .^ be b.
Proof. intros [Ba La] [Bb Lb]. apply be_xor; congruence || done. Qed.

Lemma to_be_block n l : is_block n l -> to_be n (be l) = l.
Proof. intros [Bl Ll]. by apply to_be_length. Qed.

(** ** The loops *)

Lemma map_xor n a b :
  bytes a -> bytes b -> (n <= length a)%nat -> (n <= length b)%nat ->
  map (fun i => u8 (rd a (Z.of_nat i) .^ rd b (Z.of_nat i))) (seq 0 n) =
    xor_bytes (take n a) (take n b).
Proof.
  intros Ba Bb La Lb. apply list_eq. intros i. unfold xor_bytes.
  rewrite lookup_zip_with, list_lookup_fmap. destruct (Nat.lt_ge_cases i n) as [Hi|Hi].
  - rewrite lookup_seq_lt, !lookup_take_lt by done.
    destruct (lookup_lt_is_Some_2 a i) as [x Hx]; [lia|].
    destruct (lookup_lt_is_Some_2 b i) as [y Hy]; [lia|]. rewrite Hx, Hy. simpl.
    rewrite (rd_lookup a _ x), (rd_lookup b _ y) by (by rewrite Nat2Z.id). rewrite u8_id; [done|].
    apply inw_lxor; [lia|by eapply Forall_lookup_1 in Hx|by eapply Forall_lookup_1 in Hy].
  - by rewrite lookup_seq_ge, (lookup_take_ge a) by done.
Qed.

Lemma xor_loop_write n a b t :
  bytes a -> bytes b -> (n <= 16)%nat ->
  (n <= length a)%nat -> (n <= length b)%nat -> (n <= length t)%nat ->
  xor_loop n 0 a b t = xor_bytes (take n a) (take n b) ++ drop n t.
Proof.
  intros Ba Bb Hn La Lb Lt. rewrite <- map_xor by done. rewrite <- for_up_write by done.
  unfold xor_loop. revert Hn. induction n as [|n IH]; intros Hn; [done|].
  rewrite !for_up_S, IH by lia. by rewrite Nat.add_0_r, Nat.mod_small by lia.
Qed.

Lemma xor_loop_block n a b t :
  is_block n a -> is_block n b -> length t = n -> (n <= 16)%nat -> xor_loop n 0 a b t = xor_bytes a b.
Proof.
  intros [Ba La] [Bb Lb] Lt Hn. rewrite xor_loop_write by (done || lia).
  by rewrite !take_ge, drop_ge, app_nil_r by lia.
Qed.

Lemma xor_loop_rot k a b :
  (k = 0 \/ k = 4 \/ k = 8 \/ k = 12)%nat -> is_block 16 a -> is_block 16 b ->
  let x := xor_bytes a b in
  xor_loop 16 k a b (array 16) = drop (16 - k) x ++ take (16 - k) x.
Proof.
  intros Hk [Ba La] [Bb Lb] x. unfold x.
  rewrite <- (take_ge a 16), <- (take_ge b 16), <- map_xor by (done || lia).
  destruct Hk as [-> | [-> | [-> | ->]]]; rewrite ?take_ge by lia; reflexivity.
Qed.

Lemma is_block_rot n m x : is_block n x -> is_block n (drop m x ++ take m x).
Proof.
  intros [Bx Lx]. split; [apply Forall_app_2; [by apply Forall_drop|by apply Forall_take]|].
  rewrite length_app, length_drop, length_take. lia.
Qed.

Lemma be_rot m x :
  (m <= 16)%nat -> is_block 16 x ->
  be (drop m x ++ take m x) = Ts35206.rot (be x) (8 * Z.of_nat m).
Proof.
  intros Hm [Bx Lx]. rewrite be_app, length_take, Lx, Nat.min_l by lia.
  destruct (be_take_drop m x Bx ltac:(lia)) as [-> ->]. rewrite Lx. unfold Ts35206.rot.
  replace (8 * Z.of_nat (16 - m)) with (128 - 8 * Z.of_nat m) by lia. f_equal.
  replace (2 ^ 128) with (2 ^ (128 - 8 * Z.of_nat m) * 2 ^ (8 * Z.of_nat m))
    by (rewrite <- Z.pow_add_r by lia; f_equal; lia).
  rewrite Z.mul_mod_distr_r by lia. done.
Qed.

(** [tmp1[15] ^= c]. *)
Lemma xor_last l c :
  is_block 16 l -> inw 8 c ->
  is_block 16 (<[15%nat := rd l 15 .^ c]> l) /\ be (<[15%nat := rd l 15 .^ c]> l) = be l .^ c.
Proof.
  intros [Bl Ll] Hc. destruct (lookup_lt_is_Some_2 l 15) as [z Hz]; [lia|].
  pose proof (Forall_lookup_1 _ _ _ _ Bl Hz) as Bz. cbv beta in Bz.
  rewrite (rd_lookup l 15 z) by done.
  assert (l = take 15 l ++ [z]) as E.
  { rewrite <- (take_drop 15 l) at 1. f_equal. erewrite drop_S by done.
    rewrite drop_ge by lia. done. }
  assert (<[15%nat := z .^ c]> l = take 15 l ++ [z .^ c]) as ->.
  { rewrite E at 1. rewrite insert_app_r_alt by (rewrite length_take; lia).
    rewrite length_take, Nat.min_l, Nat.sub_diag by lia. done. }
  assert (inw 8 (z .^ c)) as Bzc by (apply inw_lxor; (lia || done)).
  split.
  - split; [apply Forall_app_2; [by apply Forall_take|by apply Forall_singleton]|].
    by rewrite length_app, length_take, Ll.
  - rewrite E at 2. rewrite !be_app. change (length [_]) with 1%nat.
    cbn [be length]. change (2 ^ (8 * Z.of_nat 0)) with 1. rewrite !Z.mul_1_r, !Z.add_0_r.
    change (8 * Z.of_nat 1) with 8. rewrite <- !lxor_add by done. symmetry. apply Z.lxor_assoc.
Qed.

Lemma in1_bytes sqn amf :
  length sqn = 6%nat -> length amf = 2%nat ->
  let tmp2 := put (put (array 16) 0 (get sqn 0 6)) 6 (get amf 0 2) in
  put tmp2 8 (get tmp2 0 8) = (sqn ++ amf) ++ (sqn ++ amf).
Proof.
  intros Ls La. do 7 (destruct sqn as [|? sqn]; try discriminate Ls).
  do 3 (destruct amf as [|? amf]; try discriminate La). reflexivity.
Qed.

Lemma memcmp_spec n a b :
  bytes a -> bytes b -> (n <= length a)%nat -> (n <= length b)%nat ->
  (memcmp a b n = 0 <-> take n a = take n b) /\
  (memcmp a b n <= 0 <-> be (take n a) <= be (take n b)).
Proof.
  revert a b. induction n as [|n IH]; intros a b Ba Bb La Lb; [done|].
  destruct a as [|x a]; [simpl in La; lia|]. destruct b as [|y b]; [simpl in Lb; lia|].
  apply Forall_cons in Ba as [Bx Ba]. apply Forall_cons in Bb as [By Bb]. simpl in La, Lb.
  cbn [memcmp take drop be]. change (rd (x :: a) 0) with x. change (rd (y :: b) 0) with y.
  rewrite !drop_0. destruct (IH a b Ba Bb) as [IH1 IH2]; [lia..|].
  pose proof (be_bound (take n a) ltac:(by apply Forall_take)) as Ha.
  pose proof (be_bound (take n b) ltac:(by apply Forall_take)) as Hb.
  rewrite length_take, Nat.min_l in Ha, Hb by lia. rewrite !length_take, !Nat.min_l by lia.
  case_decide as H1; [|case_decide as H2].
  - split; [split; [done|intros [= -> _]; lia]|nia].
  - split; [split; [done|intros [= -> _]; lia]|nia].
  - assert (x = y) as -> by lia. rewrite IH1, IH2. split; [split; [by intros ->|by intros [= ?]]|lia].
Qed.

(** A buffer argument of [n] bytes, and the buffer after [l] is stored in it. *)
Definition room (n : nat) (p : buffer) : Prop := forall b, p = Some b -> length b = n.
Definition filled (p : buffer) (l : list Z) : buffer := (fun _ => l) <$> p.

Lemma put_all b l : length b = length l -> put b 0 l = l.
Proof.
  intros Hl. rewrite (put_split b 0) by lia. rewrite take_0, drop_ge by lia. apply app_nil_r.
Qed.

Lemma store_filled n p l : room n p -> length l = n -> store p l = filled p l.
Proof.
  intros Hp Hl. destruct p as [b|]; [|done]. cbn. f_equal. pose proof (Hp b eq_refl).
  apply put_all. congruence.
Qed.

Lemma get_take l n : get l 0 (Z.of_nat n) = take n l.
Proof. unfold get. by rewrite drop_0, Nat2Z.id. Qed.

(** ** The functions *)

Section Functions.
Context (K opc rand : list Z).
Context (HK : is_block 16 K) (Hopc : is_block 16 opc) (Hrand : is_block 16 rand).

Abbreviation E := (Ts35206.E K).
Abbreviation OPc := (be opc).
Abbreviation RAND := (be rand).

Lemma encrypt_block p :
  is_block 16 p -> exists o,
    aes_128_encrypt_block K p = (0, o) /\ is_block 16 o /\ be o = E (be p).
Proof.
  intros [Bp Lp]. destruct HK as [BK LK]. unfold aes_128_encrypt_block.
  pose proof (aes128_fips K p BK LK Bp Lp) as F.
  destruct (aes_setup_enc K 128) as [rk nr]. cbn [fst snd] in F.
  exists (aes_encrypt rk nr p). split_and!; [done| |].
  - split; [apply aes_encrypt_bytes|apply length_aes_encrypt].
  - unfold Ts35206.E. by rewrite F, to_be_length.
Qed.

Definition temp : list Z := snd (aes_128_encrypt_block K (xor_bytes rand opc)).

Lemma temp_spec :
  aes_128_encrypt_block K (xor_loop 16 0 rand opc (array 16)) = (0, temp) /\
  is_block 16 temp /\ be temp = Ts35206.TEMP E OPc RAND.
Proof.
  rewrite xor_loop_block by done. unfold temp.
  destruct (encrypt_block (xor_bytes rand opc)) as (o & -> & Ho & Eo); [by apply is_block_xor|].
  cbn [snd]. split_and!; [done|done|]. rewrite Eo. unfold Ts35206.TEMP. f_equal. by apply (be_xor_block 16).
Qed.

Lemma out_block_spec rot c r :
  (rot = 0 \/ rot = 4 \/ rot = 8 \/ rot = 12)%nat -> inw 8 c ->
  r = 8 * Z.of_nat (16 - rot) \/ (rot = 0%nat /\ r = 0) ->
  exists o, out_block K temp opc rot c = (0, o) /\ is_block 16 o /\
    be (xor_bytes o opc) = Ts35206.OUT E OPc RAND r c.
Proof.
  intros Hrot Hc Hr. destruct temp_spec as (_ & Ht & Et). unfold out_block.
  rewrite xor_loop_rot by done.
  assert (is_block 16 (xor_bytes temp opc)) as Hx by by apply is_block_xor.
  destruct (xor_last (drop (16 - rot) (xor_bytes temp opc) ++ take (16 - rot) (xor_bytes temp opc)) c)
    as [Hl El]; [by apply is_block_rot|done|].
  destruct (encrypt_block _ Hl) as (o & -> & Ho & Eo). exists o. split_and!; [done|done|].
  rewrite (be_xor_block 16), Eo, El by done. unfold Ts35206.OUT. do 3 f_equal.
  rewrite be_rot, (be_xor_block 16), Et by (done || lia).
  destruct Hr as [-> | [-> ->]]; [done|]. unfold Ts35206.rot.
  pose proof (be_bound _ (proj1 Hx)) as Hb. rewrite (proj2 Hx), (be_xor_block 16), Et in Hb by done.
  change (8 * Z.of_nat (16 - 0)) with 128. change (8 * Z.of_nat 16) with 128 in Hb.
  rewrite Z.mod_mul, Z.sub_diag, Z.div_1_r, Z.mul_1_r, Z.mod_small, Z.div_small by lia. lia.
Qed.

(** ** f1 and f1* *)

(** f1 and f1*, with [NULL] or room for 8 bytes at each output. *)
Lemma milenage_f1_spec sqn amf mac_a mac_s :
  is_block 6 sqn -> is_block 2 amf -> room 8 mac_a -> room 8 mac_s ->
  milenage_f1 opc K rand sqn amf mac_a mac_s =
    (0, filled mac_a (Ts35206.f1 E OPc RAND (be sqn) (be amf)),
        filled mac_s (Ts35206.f1star E OPc RAND (be sqn) (be amf))).
Proof.
  intros [Bs Ls] [Ba La] Ra Rs. unfold milenage_f1.
  destruct temp_spec as (-> & Ht & Et). rewrite decide_False by lia. cbv zeta.
  rewrite in1_bytes by done. set (in1 := (sqn ++ amf) ++ sqn ++ amf).
  assert (is_block 16 in1) as Hi.
  { unfold in1. split; [by repeat apply Forall_app_2|]. rewrite !length_app. lia. }
  assert (be in1 = Ts35206.IN1 (be sqn) (be amf)) as Ei.
  { unfold in1, Ts35206.IN1. rewrite !be_app, !length_app, Ls, La.
    change (8 * Z.of_nat (6 + 2)) with 64. change (8 * Z.of_nat 2) with 16. lia. }
  rewrite xor_loop_rot by (tauto || done).
  assert (is_block 16 (xor_bytes in1 opc)) as Hx by by apply is_block_xor.
  pose proof (is_block_rot 16 (16 - 8) _ Hx) as Hr. pose proof (be_rot (16 - 8) _ ltac:(lia) Hx) as Er.
  rewrite (be_xor_block 16) in Er by done.
  set (tmp3 := drop _ _ ++ _) in *. rewrite xor_loop_block by (apply Hr || done).
  destruct (encrypt_block (xor_bytes tmp3 temp)) as (o & -> & Ho & Eo); [by apply is_block_xor|].
  rewrite decide_False by lia. rewrite xor_loop_block by (apply Ho || done || lia).
  assert (is_block 16 (xor_bytes o opc)) as [Bu Lu] by by apply is_block_xor.
  assert (be (xor_bytes o opc) = Ts35206.OUT1 E OPc RAND (be sqn) (be amf)) as Eu.
  { rewrite !(be_xor_block 16), Eo, (be_xor_block 16), Er, Et by done.
    unfold Ts35206.OUT1. rewrite Z.lxor_0_r, (Z.lxor_comm (Ts35206.rot _ _)).
    by rewrite Ei. }
  change 8 with (Z.of_nat 8) at 1. rewrite get_take. unfold get.
  rewrite (take_ge (drop _ _)) by (rewrite length_drop; simpl; lia).
  unfold Ts35206.f1, Ts35206.f1star. rewrite <- Eu.
  rewrite take_be, drop_be by (done || simpl; lia). rewrite Lu.
  rewrite !(store_filled 8) by (done || apply length_to_be). done.
Qed.

(** The step [if (ck) { ... }] of f3 and f4. *)
Lemma keyed_output p rot c r :
  (rot = 0 \/ rot = 4 \/ rot = 8 \/ rot = 12)%nat -> inw 8 c ->
  r = 8 * Z.of_nat (16 - rot) -> room 16 p ->
  match p with
  | Some b => let '(r, o) := out_block K temp opc rot c in
              (r, Some (xor_loop 16 0 (put b 0 o) opc (put b 0 o)))
  | None => (0, None)
  end = (0, filled p (to_be 16 (Ts35206.OUT E OPc RAND r c))).
Proof.
  intros Hrot Hc Hr Hp. destruct p as [b|]; [|done].
  destruct (out_block_spec rot c r Hrot Hc (or_introl Hr)) as (o & -> & Ho & Eo).
  pose proof (store_filled 16 (Some b) o Hp (proj2 Ho)) as Hput. cbn in Hput.
  injection Hput as Hput. rewrite Hput, xor_loop_block by (apply Ho || done || lia).
  rewrite <- Eo, to_be_block by by apply is_block_xor. done.
Qed.

(** f2 .. f5*, with [NULL] or room for the result at each output. *)
Lemma milenage_f2345_spec res ck ik ak akstar :
  room 16 ck -> room 16 ik -> room 6 ak -> room 6 akstar ->
  milenage_f2345 opc K rand res ck ik ak akstar =
    (0, (store res (Ts35206.f2 E OPc RAND), filled ck (Ts35206.f3 E OPc RAND),
         filled ik (Ts35206.f4 E OPc RAND), filled ak (Ts35206.f5 E OPc RAND),
         filled akstar (Ts35206.f5star E OPc RAND))).
Proof.
  intros Rc Ri Ra Rs. unfold milenage_f2345.
  destruct temp_spec as (-> & _). rewrite decide_False by lia. cbv zeta.
  destruct (out_block_spec 0 1 0) as (o & -> & Ho & Eo); [by left|by_decide|by right|].
  rewrite decide_False by lia. rewrite xor_loop_block by (apply Ho || done || lia).
  assert (is_block 16 (xor_bytes o opc)) as [Bu Lu] by by apply is_block_xor.
  rewrite (keyed_output ck 12 2 32), (keyed_output ik 8 4 64) by (tauto || done || by_decide).
  rewrite !decide_False by lia.
  assert (match akstar with
    | Some b => let '(r, tmp1) := out_block K temp opc 4 8 in (r, Some (xor_loop 6 0 tmp1 opc b))
    | None => (0, None)
    end = (0, filled akstar (Ts35206.f5star E OPc RAND))) as ->.
  { destruct akstar as [b|]; [|done].
    destruct (out_block_spec 4 8 96) as (o' & -> & Ho' & Eo'); [tauto|by_decide|by left|].
    destruct Ho' as [Bo' Lo'], Hopc as [Bp Lp]. pose proof (Rs b eq_refl).
    rewrite xor_loop_write, drop_ge, app_nil_r by (assumption || lia). 
    unfold Ts35206.f5star, Ts35206.OUT5. rewrite <- Eo'.
    assert (is_block 16 (xor_bytes o' opc)) as [Bx Lx] by by apply is_block_xor.
    pose proof (take_be 6 (xor_bytes o' opc) Bx ltac:(lia)) as Et. rewrite Lx in Et.
    change (8 * Z.of_nat (16 - 6)) with 80 in Et. rewrite <- Et.
    unfold filled, xor_bytes. by rewrite zip_with_take. }
  rewrite decide_False by lia. unfold get.
  change (Z.to_nat 0) with 0%nat. change (Z.to_nat 8) with 8%nat. change (Z.to_nat 6) with 6%nat.
  rewrite drop_0, (take_ge (drop 8 _)) by (rewrite length_drop; lia).
  rewrite (drop_be 8), (take_be 6), Lu, Eo by (done || lia).
  rewrite (store_filled 6 ak) by (done || apply length_to_be).
  change (8 * Z.of_nat (16 - 8)) with 64. change (8 * Z.of_nat (16 - 6)) with 80.
  change (16 - 8)%nat with 8%nat. unfold Ts35206.f2, Ts35206.f3, Ts35206.f4, Ts35206.f5.
  unfold Ts35206.OUT2, Ts35206.OUT3, Ts35206.OUT4. reflexivity.
Qed.

(** ** AUTN: generation, verification, resynchronisation *)

Abbreviation AK := (Ts35206.f5 E OPc RAND).
Abbreviation AKstar := (Ts35206.f5star E OPc RAND).

Lemma AK_block : is_block 6 AK.
Proof. split; [apply to_be_bytes|apply length_to_be]. Qed.

Lemma AKstar_block : is_block 6 AKstar.
Proof. split; [apply to_be_bytes|apply length_to_be]. Qed.

Lemma length_f1 x y : length (Ts35206.f1 E OPc RAND x y) = 8%nat.
Proof. apply length_to_be. Qed.
Lemma length_f1star x y : length (Ts35206.f1star E OPc RAND x y) = 8%nat.
Proof. apply length_to_be. Qed.

(** The token of TS 33.102: SQN concealed, AMF, MAC-A. *)
Definition AUTN (sqn amf : list Z) : list Z :=
  xor_bytes sqn AK ++ amf ++ Ts35206.f1 E OPc RAND (be sqn) (be amf).

(** The token of a synchronisation failure: SQN_MS concealed with f5*, MAC-S
    for the dummy AMF. *)
Definition AUTS (sqn_ms : list Z) : list Z :=
  xor_bytes sqn_ms AKstar ++ Ts35206.f1star E OPc RAND (be sqn_ms) 0.

(** Writing the next field of a buffer whose beginning is done. *)
Lemma put_next z a b t n :
  z = Z.of_nat n -> length a = n -> (n + length b <= length t)%nat ->
  put (a ++ drop n t) z b = (a ++ b) ++ drop (n + length b) t.
Proof.
  intros -> <- Lt. rewrite <- (take_drop (length b) (drop _ t)), put_app, drop_drop, <- (assoc_L (++)); [done|].
  rewrite length_take, length_drop. lia.
Qed.

Lemma xor_loop_6 a b t :
  is_block 6 a -> is_block 6 b -> (6 <= length t)%nat -> xor_loop 6 0 a b t = xor_bytes a b ++ drop 6 t.
Proof.
  intros [Ba La] [Bb Lb] Lt. rewrite xor_loop_write by (assumption || lia). by rewrite !take_ge by lia.
Qed.

Lemma get_all l z : z = Z.of_nat (length l) -> get l 0 z = l.
Proof. intros ->. rewrite get_take. by apply take_ge. Qed.

Lemma room_Some n l : length l = n -> room n (Some l).
Proof. by intros ? ? [= <-]. Qed.
Lemma room_None n : room n None.
Proof. done. Qed.

(** The side conditions on buffers and fields. *)
Ltac sizes :=
  lazymatch goal with
  | |- is_block 6 (Ts35206.f5 _ _ _) => apply AK_block
  | |- is_block 6 (Ts35206.f5star _ _ _) => apply AKstar_block
  | H : is_block ?n ?l |- is_block ?n ?l => exact H
  | |- room _ None => apply room_None
  | |- room _ (Some _) => apply room_Some; first [assumption | reflexivity | rewrite length_drop; lia]
  | |- _ => lia
  end.

Lemma milenage_generate_spec sqn amf o :
  is_block 6 sqn -> is_block 2 amf -> 8 <= v_res_len o ->
  length (v_autn o) = 16%nat -> length (v_ik o) = 16%nat -> length (v_ck o) = 16%nat ->
  length (v_ak o) = 6%nat ->
  milenage_generate opc amf K sqn rand o =
    mkVector (AUTN sqn amf) (Ts35206.f4 E OPc RAND) (Ts35206.f3 E OPc RAND) AK
      (put (v_res o) 0 (Ts35206.f2 E OPc RAND)) 8.
Proof.
  intros Hs Ha Hr L1 L2 L3 L4. unfold milenage_generate. rewrite decide_False by lia.
  rewrite milenage_f1_spec by sizes. rewrite decide_False by lia.
  rewrite milenage_f2345_spec by sizes.
  rewrite decide_False by lia. cbn [store filled fmap option_fmap option_map deref default v_ak v_autn v_ik v_ck v_res].
  unfold id. f_equal. pose proof (is_block_xor 6 _ _ Hs AK_block) as [_ Lx].
  rewrite xor_loop_6 by sizes.
  destruct Ha as [_ La].
  rewrite (get_all amf 2), (get_all _ 8) by (by rewrite ?La, ?length_f1).
  rewrite (put_next 6 _ amf (v_autn o) 6) by (rewrite ?La; lia). rewrite La.
  rewrite (put_next 8 _ _ (v_autn o) 8) by (rewrite ?length_app, ?La, ?length_f1; lia).
  rewrite length_f1, drop_ge, app_nil_r by lia. unfold AUTN. by rewrite <- (assoc_L (++)).
Qed.

(** The comparison of a received code [l] with a computed one. *)
Lemma mac_compare m l :
  is_block 8 m -> is_block 8 l -> memcmp m l 8 = 0 <-> l = m.
Proof.
  intros [Bm Lm] [Bl Ll]. destruct (memcmp_spec 8 m l) as [-> _]; [done|done|lia|lia|].
  by rewrite !take_ge by lia.
Qed.

Lemma f1_block x y : is_block 8 (Ts35206.f1 E OPc RAND x y).
Proof. split; [apply to_be_bytes|apply length_to_be]. Qed.
Lemma f1star_block x y : is_block 8 (Ts35206.f1star E OPc RAND x y).
Proof. split; [apply to_be_bytes|apply length_to_be]. Qed.

Lemma drop_block n m l : is_block (n + m) l -> is_block m (drop n l).
Proof. intros [Bl Ll]. split; [by apply Forall_drop|rewrite length_drop; lia]. Qed.
Lemma take_block n m l : is_block (n + m) l -> is_block n (take n l).
Proof. intros [Bl Ll]. split; [by apply Forall_take|rewrite length_take; lia]. Qed.

(** [milenage_f1] reads two bytes at [amf]. *)
Lemma milenage_f1_amf sqn amf mac_a mac_s :
  milenage_f1 opc K rand sqn amf mac_a mac_s = milenage_f1 opc K rand sqn (take 2 amf) mac_a mac_s.
Proof.
  unfold milenage_f1. assert (get (take 2 amf) 0 2 = get amf 0 2) as ->; [|done].
  unfold get. by rewrite !drop_0, take_take.
Qed.

(** [milenage_auts] recovers SQN_MS and accepts exactly the tokens that carry
    the right MAC-S for it. *)
Lemma milenage_auts_spec auts sqn :
  is_block 14 auts -> length sqn = 6%nat ->
  let sqn_ms := xor_bytes (take 6 auts) AKstar in
  milenage_auts opc K rand auts sqn =
    ((if decide (drop 6 auts = Ts35206.f1star E OPc RAND (be sqn_ms) 0) then 0 else -1), sqn_ms).
Proof.
  intros [Ba La] Ls sqn_ms. unfold milenage_auts. rewrite milenage_f2345_spec by sizes.
  rewrite decide_False by lia. cbn [store filled fmap option_fmap option_map deref default]. unfold id.
  assert (bytes (take 6 auts)) as Bt by (by apply Forall_take). assert (length (take 6 auts) = 6%nat) as Lt by (rewrite length_take; lia).
  replace (xor_loop 6 0 auts AKstar sqn) with sqn_ms; [|symmetry].
  2: { rewrite xor_loop_write, drop_ge, app_nil_r by (apply AKstar_block || lia || done).
       rewrite (take_ge AKstar) by (rewrite (proj2 AKstar_block); lia). done. }
  assert (is_block 6 sqn_ms) as Hs by (apply is_block_xor; [done|apply AKstar_block]).
  assert (is_block 2 [0; 0]) as H0 by (split; [by_decide|done]).
  rewrite milenage_f1_spec by sizes. cbn [store filled fmap option_fmap option_map deref default]. unfold id.
  change (be [0; 0]) with 0.
  pose proof (mac_compare _ (drop 6 auts) (f1star_block (be sqn_ms) 0) (drop_block 6 8 auts (conj Ba La))) as Hm.
  repeat case_decide; try done; tauto.
Qed.

Lemma AUTS_block sqn_ms : is_block 6 sqn_ms -> is_block 14 (AUTS sqn_ms).
Proof.
  intros Hs. pose proof (is_block_xor 6 _ _ Hs AKstar_block) as [Bx Lx].
  split; [apply Forall_app_2; [done|apply to_be_bytes]|]. unfold AUTS. by rewrite length_app, Lx, length_f1star.
Qed.

(** The token [milenage_check] produces is accepted and yields SQN_MS. *)
Lemma AUTS_accepted sqn_ms buf :
  is_block 6 sqn_ms -> length buf = 6%nat ->
  milenage_auts opc K rand (AUTS sqn_ms) buf = (0, sqn_ms).
Proof.
  intros Hs Lb. rewrite milenage_auts_spec by (assumption || by apply AUTS_block). cbv zeta.
  pose proof (is_block_xor 6 _ _ Hs AKstar_block) as [_ Lx].
  unfold AUTS. rewrite take_app_length', drop_app_length' by done.
  rewrite xor_bytes_involutive by (rewrite (proj2 Hs), (proj2 AKstar_block); lia).
  by rewrite decide_True.
Qed.

(** [milenage_check] on every token. *)
Lemma milenage_check_spec sqn_ms autn o :
  is_block 6 sqn_ms -> is_block 16 autn ->
  length (c_ik o) = 16%nat -> length (c_ck o) = 16%nat -> length (c_auts o) = 14%nat ->
  let sqn := xor_bytes (take 6 autn) AK in
  let amf := take 2 (drop 6 autn) in
  let o' auts := mkChecked (Ts35206.f4 E OPc RAND) (Ts35206.f3 E OPc RAND)
    (put (c_res o) 0 (Ts35206.f2 E OPc RAND)) 8 auts in
  milenage_check opc K sqn_ms rand autn o =
    if decide (be sqn <= be sqn_ms) then (-2, o' (AUTS sqn_ms))
    else if decide (drop 8 autn = Ts35206.f1 E OPc RAND (be sqn) (be amf)) then (0, o' (c_auts o))
    else (-1, o' (c_auts o)).
Proof.
  intros Hs [Ba La] L1 L2 L4 sqn amf o'. unfold milenage_check.
  rewrite milenage_f2345_spec by sizes. rewrite decide_False by lia.
  cbn [store filled fmap option_fmap option_map deref default c_ik c_ck c_res c_res_len c_auts]. unfold id.
  assert (is_block 6 sqn) as Hsqn by (apply is_block_xor; [by apply (take_block 6 10)|apply AK_block]).
  replace (xor_loop 6 0 autn AK (array 6)) with sqn; [|symmetry].
  2: { rewrite xor_loop_write, drop_ge, app_nil_r by (apply AK_block || reflexivity || lia || assumption).
       rewrite (take_ge AK) by (rewrite (proj2 AK_block); lia). reflexivity. }
  destruct (memcmp_spec 6 sqn sqn_ms) as [_ Hcmp]; [apply Hsqn|apply Hs|rewrite (proj2 Hsqn); lia|rewrite (proj2 Hs); lia|].
  rewrite !take_ge in Hcmp by (rewrite ?(proj2 Hsqn), ?(proj2 Hs); lia).
  rewrite (decide_ext _ _ _ _ Hcmp). case_decide as Hle.
  - rewrite milenage_f2345_spec by sizes. rewrite decide_False by lia.
    cbn [store filled fmap option_fmap option_map deref default]. unfold id.
    rewrite xor_loop_6 by sizes. pose proof (is_block_xor 6 _ _ Hs AKstar_block) as [_ Lx].
    assert (is_block 2 [0; 0]) as H0 by (split; [by_decide|done]).
    rewrite drop_app_length' by done.
    rewrite milenage_f1_spec by sizes.
    rewrite decide_False by lia. cbn [store filled fmap option_fmap option_map deref default]. unfold id.
    rewrite (put_next 6 _ _ (c_auts o) 6) by (rewrite ?length_f1star; (done || lia)).
    rewrite length_f1star, (drop_ge (c_auts o)), app_nil_r by lia. reflexivity.
  - rewrite milenage_f1_amf. fold amf.
    assert (is_block 2 amf) as Hamf by (apply (take_block 2 8), (drop_block 6 10); done).
    rewrite milenage_f1_spec by sizes. rewrite decide_False by lia.
    cbn [store filled fmap option_fmap option_map deref default]. unfold id.
    pose proof (mac_compare _ (drop 8 autn) (f1_block (be sqn) (be amf)) (drop_block 8 8 autn (conj Ba La))) as Hm.
    repeat case_decide; try reflexivity; tauto.
Qed.

(** ** OPc and the GSM triplet *)

Lemma milenage_opc_spec op buf :
  is_block 16 op -> length buf = 16%nat -> milenage_opc K op buf = Ts35206.opc K op.
Proof.
  intros Ho Lb. unfold milenage_opc. destruct (encrypt_block op Ho) as (o & -> & Hb & Eo).
  rewrite <- (app_nil_l buf), <- (drop_0 buf), (put_next 0 [] o buf 0) by (rewrite ?(proj2 Hb), ?Lb; (done || lia)).
  rewrite (proj2 Hb), drop_ge, app_nil_r by lia. cbn [app].
  rewrite xor_loop_block by (apply Hb || done || lia).
  unfold Ts35206.opc. rewrite Z.lxor_comm, <- Eo, <- (be_xor_block 16) by done.
  symmetry. by apply to_be_block, is_block_xor.
Qed.

(** The exclusive or of the halves of a block, cell by cell. *)
Lemma halves n l :
  is_block (n + n) l ->
  map (fun i => rd l (Z.of_nat i) .^ rd l (Z.of_nat (i + n))) (seq 0 n) = xor_bytes (take n l) (drop n l).
Proof.
  intros [Bl Ll]. transitivity (xor_bytes (take n (take n l)) (take n (drop n l))).
  2: { by rewrite take_take, Nat.min_id, (take_ge (drop n l)) by (rewrite length_drop; lia). }
  rewrite <- map_xor by (try apply Forall_take; try apply Forall_drop; rewrite ?length_take, ?length_drop; (done || lia)).
  apply map_ext_in. intros i [_ Hi]%in_seq.
  rewrite u8_id by (apply inw_lxor; [lia|apply rd_byte, Forall_take; done|apply rd_byte, Forall_drop; done]).
  unfold rd. rewrite !Nat2Z.id, !nth_lookup, lookup_take_lt, lookup_drop by lia. do 3 f_equal. lia.
Qed.

(** The triplet of TS 55.205 (conversion functions c2 and c3 of TS 33.102). *)
Definition gsm_sres : list Z :=
  let res := Ts35206.f2 E OPc RAND in xor_bytes (take 4 res) (drop 4 res).
Definition gsm_kc : list Z :=
  let ck := Ts35206.f3 E OPc RAND in let ik := Ts35206.f4 E OPc RAND in
  xor_bytes (xor_bytes (take 8 ck) (drop 8 ck)) (xor_bytes (take 8 ik) (drop 8 ik)).

Lemma gsm_milenage_spec sres kc :
  length sres = 4%nat -> length kc = 8%nat ->
  gsm_milenage opc K rand sres kc = (0, gsm_sres, gsm_kc).
Proof.
  intros Ls Lk. unfold gsm_milenage, gsm_sres, gsm_kc. rewrite milenage_f2345_spec by sizes.
  rewrite decide_False by lia. cbn [store filled fmap option_fmap option_map deref default]. unfold id.
  rewrite put_all by reflexivity.
  assert (is_block 8 (Ts35206.f2 E OPc RAND)) as H2 by (split; [apply to_be_bytes|apply length_to_be]).
  assert (is_block 16 (Ts35206.f3 E OPc RAND)) as H3 by (split; [apply to_be_bytes|apply length_to_be]).
  assert (is_block 16 (Ts35206.f4 E OPc RAND)) as H4 by (split; [apply to_be_bytes|apply length_to_be]).
  set (res := Ts35206.f2 _ _ _) in *. set (ck := Ts35206.f3 _ _ _) in *. set (ik := Ts35206.f4 _ _ _) in *.
  clearbody res ck ik.
  rewrite (for_up_write (fun i => u8 (rd ck (Z.of_nat i) .^ rd ck (Z.of_nat (i + 8)) .^
    rd ik (Z.of_nat i) .^ rd ik (Z.of_nat (i + 8))))), (drop_ge kc), app_nil_r by lia.
  rewrite (for_up_write (fun i => u8 (rd res (Z.of_nat i) .^ rd res (Z.of_nat (i + 4))))),
    (drop_ge sres), app_nil_r by lia.
  f_equal; [f_equal|].
  - rewrite <- (halves 4) by done. apply map_ext. intros i.
    apply u8_id, inw_lxor; [lia|apply rd_byte, H2|apply rd_byte, H2].
  - rewrite <- !(halves 8) by done. unfold xor_bytes.
    rewrite zip_with_fmap_l, zip_with_fmap_r, zip_with_diag.
    apply map_ext. intros i. rewrite u8_id by (repeat (apply inw_lxor; [lia| |]); apply rd_byte, H3 || apply rd_byte, H4).
    by rewrite !Z.lxor_assoc.
Qed.

End Functions.

(** C35: the functions of TS 35.206: with [NULL] or room for the value at each
    output pointer, [milenage_f1] stores f1 and f1* and [milenage_f2345] stores
    f2, f3, f4, f5 and f5*, as the standard defines them on 128-bit numbers
    with its rotations r1..r5 and constants c1..c5 over AES-128, and leaves the
    [NULL] outputs out; [milenage_opc] derives OPc; [gsm_milenage] the GSM
    triplet of TS 55.205.  None of them fails. *)
Theorem milenage_ts35206 K op opc rand sqn amf mac_a mac_s res ck ik ak akstar sres kc buf :
  is_block 16 K -> is_block 16 op -> is_block 16 opc -> is_block 16 rand ->
  is_block 6 sqn -> is_block 2 amf ->
  room 8 mac_a -> room 8 mac_s ->
  room 8 res -> room 16 ck -> room 16 ik -> room 6 ak -> room 6 akstar ->
  length sres = 4%nat -> length kc = 8%nat -> length buf = 16%nat ->
  let E := Ts35206.E K in let OPc := be opc in let RAND := be rand in
  milenage_opc K op buf = Ts35206.opc K op /\
  milenage_f1 opc K rand sqn amf mac_a mac_s =
    (0, filled mac_a (Ts35206.f1 E OPc RAND (be sqn) (be amf)),
        filled mac_s (Ts35206.f1star E OPc RAND (be sqn) (be amf))) /\
  milenage_f2345 opc K rand res ck ik ak akstar =
    (0, (filled res (Ts35206.f2 E OPc RAND), filled ck (Ts35206.f3 E OPc RAND),
         filled ik (Ts35206.f4 E OPc RAND), filled ak (Ts35206.f5 E OPc RAND),
         filled akstar (Ts35206.f5star E OPc RAND))) /\
  gsm_milenage opc K rand sres kc = (0, gsm_sres K opc rand, gsm_kc K opc rand).
Proof.
  intros. split_and!.
  - by apply milenage_opc_spec.
  - by apply milenage_f1_spec.
  - rewrite milenage_f2345_spec by done. by rewrite (store_filled 8) by (done || apply length_to_be).
  - by apply gsm_milenage_spec.
Qed.

Lemma milenage_ts35206_witness :
  milenage_f1 test_opc test_k test_rand test_sqn test_amf (Some (array 8)) None =
    (0, Some (Ts35206.f1 (Ts35206.E test_k) (be test_opc) (be test_rand) (be test_sqn) (be test_amf)), None).
Proof.
  destruct (milenage_ts35206 test_k test_op test_opc test_rand test_sqn test_amf (Some (array 8)) None
    None None None None None (array 4) (array 8) (array 16)) as (_ & H & _);
    [..|exact H]; try (split; [by_decide|reflexivity]); try reflexivity; try apply room_None.
  by apply room_Some.
Defined.

End MilenageSpec.
