(* ===== verification/Kdf.v ===== *)
(** Key derivation: [src/mme/mme_kdf.c] and [src/hss/hss_auc.c].  The spec is
    the generic KDF of TS 33.220, annex B, instantiated as TS 33.401, annex A. *)

From S2P Require Import Prelude Pkbuf Sha2 Sha2Spec Hmac Milenage MilenageSpec.

Module Kdf.
Import Sha2 Hmac Milenage.

(** The local variables of [hmac_sha256] and [hmac_sha256_init], uninitialised. *)
Record locals := mkLocals { l_sha : ctx; l_hmac : hmac_ctx }.

(** All calls ask for 32 bytes, the size of the digest, so that there is a result
    ([hmac256_result]). *)
Definition hmac256 (m : locals) (key : list Z) (key_size : Z) (s : list Z) (s_len : Z) (n : Z) : list Z :=
  default [] (hmac_sha256 (l_sha m) (l_hmac m) key key_size s s_len n).

(** The buffer [knas] after the call. *)
Definition mme_kdf_nas (m : locals) (algorithm_type_distinguishers algorithm_identity : Z)
    (kasme knas : list Z) : list Z :=
  let s := [0x15;
            algorithm_type_distinguishers; 0x00; 0x01;
            algorithm_identity; 0x00; 0x01] in
  let out := put (array 32) 0 (hmac256 m kasme 32 s 7 32) in
  put knas 0 (get out 16 16).

Definition mme_kdf_enb (m : locals) (kasme : list Z) (ul_count : Z) (kenb : list Z) : list Z :=
  let s := <[0%nat := 0x11]> (array 7) in
  let ul_count := bswap32 ul_count in
  let s := put s 1 (le32 ul_count) in
  let s := <[6%nat := 0x04]> (<[5%nat := 0x00]> s) in
  put kenb 0 (hmac256 m kasme 32 s 7 32).

Definition mme_kdf_nh (m : locals) (kasme sync_input kenb : list Z) : list Z :=
  let s := <[0%nat := 0x12]> (array 35) in
  let s := put s 1 (get sync_input 0 32) in
  let s := <[34%nat := 0x20]> (<[33%nat := 0x00]> s) in
  put kenb 0 (hmac256 m kasme 32 s 35 32).

Definition FC_VALUE : Z := 0x10.

Definition hss_auc_kasme (m : locals) (ck ik plmn_id sqn ak kasme : list Z) : list Z :=
  let k := put (put (array 32) 0 (get ck 0 16)) 16 (get ik 0 16) in
  let s := <[0%nat := FC_VALUE]> (array 14) in
  let s := put s 1 (get plmn_id 0 3) in
  let s := <[5%nat := 0x03]> (<[4%nat := 0x00]> s) in
  let s := for_up 6 (fun i s =>
    <[(6 + i)%nat := u8 (rd sqn (Z.of_nat i) .^ rd ak (Z.of_nat i))]> s) s in
  let s := <[13%nat := 0x06]> (<[12%nat := 0x00]> s) in
  put kasme 0 (hmac256 m k 32 s 14 32).

(** [auts] is RAND || AUTS; the buffers [sqn_ms] and [mac_s] after the call. *)
Definition hss_auc_sqn (opc k auts sqn_ms mac_s : list Z) : list Z * list Z :=
  let amf := [0; 0] in
  let conc_sqn_ms := drop 16 auts in
  let '(_, (_, _, _, _, ak)) := milenage_f2345 opc k auts None None None None (Some (array 6)) in
  let sqn_ms := xor_loop 6 0 (deref ak) conc_sqn_ms sqn_ms in
  let '(_, _, mac_s) := milenage_f1 opc k auts sqn_ms amf None (Some mac_s) in
  (sqn_ms, deref mac_s).

End Kdf.

(** ** TS 33.220, annex B.2, and TS 33.401, annex A *)

Module Ts33401.

(** [S = FC || P0 || L0 || P1 || L1 || ...] with two-byte lengths, and the key
    HMAC-SHA-256(Key, S). *)
Definition S (FC : Z) (P : list (list Z)) : list Z :=
  FC :: concat (map (fun p => p ++ to_be 2 (Z.of_nat (length p))) P).
Definition KDF (key : list Z) (FC : Z) (P : list (list Z)) : list Z :=
  Rfc2104.hmac (Fips.hash Fips.sha256) 64 key (S FC P).

(** A.2: K_ASME, from CK || IK, the serving network and SQN (+) AK. *)
Definition kasme (CK IK SN SQN_AK : list Z) : list Z := KDF (CK ++ IK) 0x10 [SN; SQN_AK].
(** A.3: K_eNB, from the uplink NAS COUNT. *)
Definition kenb (KASME : list Z) (count : Z) : list Z := KDF KASME 0x11 [to_be 4 count].
(** A.4: NH, from the previous NH, or the K_eNB for the first one. *)
Definition nh (KASME sync_input : list Z) : list Z := KDF KASME 0x12 [sync_input].
(** A.7: the 128 least significant bits, for an algorithm type and identity. *)
Definition knas (KASME : list Z) (ty id : Z) : list Z := drop 16 (KDF KASME 0x15 [[ty]; [id]]).

End Ts33401.

Module KdfSpec.
Import Sha2 Sha2Spec Hmac HmacSpec Milenage MilenageSpec Kdf.

(** Storage for the local variables. *)
Definition locals_ok (m : locals) : Prop :=
  storage Fips.sha256 (l_sha m) /\ hmac_storage Fips.sha256 (l_hmac m).

(** The calls of [hmac_sha256] have a result. *)
Lemma hmac256_result m key key_size s s_len :
  hmac_sha256 (l_sha m) (l_hmac m) key key_size s s_len 32 = Some (hmac256 m key key_size s s_len 32).
Proof. unfold hmac256, hmac_sha256, hmac, hmac_final. by do 2 destruct (final SHA256 _). Qed.

Lemma hmac256_kdf m key s :
  locals_ok m -> is_block 32 key -> bytes s -> (length s <= 64)%nat ->
  hmac256 m key 32 s (Z.of_nat (length s)) 32 = Rfc2104.hmac (Fips.hash Fips.sha256) 64 key s.
Proof.
  intros [Hs Hh] [Bk Lk] Bs Ls.
  pose proof (hmac_init_keyed SHA256 Fips.sha256 (l_sha m) (l_hmac m) key Hs Hh Bk ltac:(lia)) as Hk.
  pose proof (hmac_update_keyed SHA256 Fips.sha256 _ key [] s Hk Bs) as Hu.
  destruct (hmac_final_keyed SHA256 Fips.sha256 _ key _ 32 (Hu ltac:(cbn; lia)) ltac:(done)) as (c' & E & _).
  rewrite Lk in E. change (Z.of_nat 32) with 32 in E. unfold hmac256, hmac_sha256, hmac. cbv zeta. rewrite E.
  cbn [fmap option_fmap option_map snd default app]. apply take_ge. unfold Rfc2104.hmac. rewrite (length_fips_hash SHA256 Fips.sha256). reflexivity.
Qed.

Lemma length_kdf key FC P : length (Ts33401.KDF key FC P) = 32%nat.
Proof. unfold Ts33401.KDF, Rfc2104.hmac. rewrite (length_fips_hash SHA256 Fips.sha256). reflexivity. Qed.

Lemma put_kdf b key FC P :
  length b = 32%nat ->
  put b 0 (Rfc2104.hmac (Fips.hash Fips.sha256) 64 key (Ts33401.S FC P)) = Ts33401.KDF key FC P.
Proof. intros Hb. apply put_all. rewrite Hb. symmetry. apply length_kdf. Qed.

Lemma kdf_bytes key FC P : bytes (Ts33401.KDF key FC P).
Proof. apply (fips_hash_bytes Fips.sha256). Qed.

Lemma nas_string m ty id kasme knas :
  locals_ok m -> is_block 32 kasme -> inw 8 ty -> inw 8 id -> length knas = 16%nat ->
  mme_kdf_nas m ty id kasme knas = Ts33401.knas kasme ty id.
Proof.
  intros Hm Hk Ht Hi Hl. unfold mme_kdf_nas. set (s := [0x15; _; _; _; _; _; _]).
  assert (s = Ts33401.S 0x15 [[ty]; [id]]) as Es by reflexivity. clearbody s. subst s. cbv zeta.
  change 7 with (Z.of_nat (length (Ts33401.S 0x15 [[ty]; [id]]))).
  rewrite hmac256_kdf; [|done|done| |cbn; lia].
  2: { repeat (apply Forall_cons; split; [first [by_decide | done]|]). done. }
  fold (Ts33401.KDF kasme 0x15 [[ty]; [id]]). unfold Ts33401.knas.
  pose proof (length_kdf kasme 0x15 [[ty]; [id]]) as L. set (out := Ts33401.KDF _ _ _) in *. clearbody out.
  rewrite (put_all (array 32) out) by (by rewrite L). unfold get.
  rewrite (take_ge (drop _ _)) by (rewrite length_drop, L; reflexivity).
  apply put_all. rewrite length_drop, L, Hl. reflexivity.
Qed.

Lemma enb_string m kasme count kenb :
  locals_ok m -> is_block 32 kasme -> length kenb = 32%nat ->
  mme_kdf_enb m kasme count kenb = Ts33401.kenb kasme count.
Proof.
  intros Hm Hk Hl. unfold mme_kdf_enb. cbv zeta. rewrite le32_bswap32.
  change (<[6%nat:=4]> _) with (Ts33401.S 0x11 [to_be 4 count]).
  change 7 with (Z.of_nat (length (Ts33401.S 0x11 [to_be 4 count]))).
  rewrite hmac256_kdf; [|done|done| |cbn; lia].
  - by apply put_kdf.
  - apply Forall_cons; split; [by_decide|]. cbn [map concat].
    apply Forall_app_2; [apply Forall_app_2; apply to_be_bytes|done].
Qed.

Lemma nh_string m kasme sync kenb :
  locals_ok m -> is_block 32 kasme -> is_block 32 sync -> length kenb = 32%nat ->
  mme_kdf_nh m kasme sync kenb = Ts33401.nh kasme sync.
Proof.
  intros Hm Hk [Bs Ls] Hl. unfold mme_kdf_nh. rewrite (get_all sync) by (by rewrite Ls).
  assert (<[34%nat:=32]> (<[33%nat:=0]> (put (<[0%nat:=18]> (array 35)) 1 sync)) =
    Ts33401.S 0x12 [sync]) as ->.
  { unfold Ts33401.S. cbn [map concat]. rewrite Ls, app_nil_r.
    pose proof (put_app [18] (replicate 32 0) [0; 0] sync ltac:(by rewrite Ls)) as E.
    change (<[0%nat:=18]> (array 35)) with ([18] ++ replicate 32 0 ++ [0; 0]).
    change 1 with (Z.of_nat (length [18])). rewrite E, (assoc_L (++)).
    rewrite insert_app_r_alt by (rewrite length_app, Ls; cbn; lia). rewrite length_app, Ls.
    rewrite insert_app_r_alt by (rewrite length_app, Ls; cbn; lia). rewrite length_app, Ls.
    reflexivity. }
  assert (length (Ts33401.S 0x12 [sync]) = 35%nat) as L
    by (unfold Ts33401.S; cbn [map concat length]; rewrite app_nil_r, length_app, Ls; reflexivity).
  change 35 with (Z.of_nat 35) at 1. rewrite <- L.
  rewrite hmac256_kdf; [|done|done| |lia].
  - by apply put_kdf.
  - apply Forall_cons; split; [by_decide|]. cbn [map concat]. rewrite app_nil_r.
    apply Forall_app_2; [done|apply to_be_bytes].
Qed.

(** The bytes [s] of [hss_auc_kasme]. *)
Lemma kasme_string plmn_id sqn ak :
  is_block 3 plmn_id -> is_block 6 sqn -> is_block 6 ak ->
  let s := <[0%nat := FC_VALUE]> (array 14) in
  let s := put s 1 (get plmn_id 0 3) in
  let s := <[5%nat := 0x03]> (<[4%nat := 0x00]> s) in
  let s := for_up 6 (fun i s =>
    <[(6 + i)%nat := u8 (rd sqn (Z.of_nat i) .^ rd ak (Z.of_nat i))]> s) s in
  <[13%nat := 0x06]> (<[12%nat := 0x00]> s) = Ts33401.S 0x10 [plmn_id; xor_bytes sqn ak].
Proof.
  intros [Bp Lp] Hs Ha s. pose proof (is_block_xor 6 sqn ak Hs Ha) as [_ Lx].
  destruct Hs as [Bs Ls], Ha as [Ba La].
  pose proof (map_xor 6 sqn ak Bs Ba ltac:(lia) ltac:(lia)) as M.
  rewrite !take_ge in M by lia. unfold Ts33401.S. cbn [map concat]. rewrite Lp, Lx, <- M.
  do 4 (destruct plmn_id as [|? plmn_id]; try discriminate Lp). reflexivity.
Qed.

Lemma auc_kasme_string m ck ik plmn_id sqn ak kasme :
  locals_ok m -> is_block 16 ck -> is_block 16 ik -> is_block 3 plmn_id ->
  is_block 6 sqn -> is_block 6 ak -> length kasme = 32%nat ->
  hss_auc_kasme m ck ik plmn_id sqn ak kasme = Ts33401.kasme ck ik plmn_id (xor_bytes sqn ak).
Proof.
  intros Hm [Bc Lc] [Bi Li] Hp Hs Ha Hl. unfold hss_auc_kasme. cbv zeta.
  rewrite (kasme_string plmn_id sqn ak Hp Hs Ha).
  rewrite (get_all ck), (get_all ik) by (by rewrite ?Lc, ?Li).
  assert (put (put (array 32) 0 ck) 16 ik = ck ++ ik) as ->.
  { change (array 32) with ([] ++ drop 0 (array 32)).
    rewrite (put_next 0 [] ck _ 0) by (rewrite ?Lc; (done || cbn; lia)). rewrite Lc.
    rewrite (put_next 16 _ ik) by (rewrite ?Lc, ?Li; (done || cbn; lia)).
    rewrite Li. apply app_nil_r. }
  pose proof (is_block_xor 6 sqn ak Hs Ha) as [Bx Lx]. destruct Hp as [Bp Lp].
  set (s := Ts33401.S 0x10 [plmn_id; xor_bytes sqn ak]).
  assert (length s = 14%nat) as L
    by (unfold s, Ts33401.S; cbn [map concat length]; rewrite !length_app, Lp, Lx; reflexivity).
  change 14 with (Z.of_nat 14). rewrite <- L. rewrite hmac256_kdf; [|done| | |lia].
  - by apply put_kdf.
  - split; [by apply Forall_app_2|]. by rewrite length_app, Lc, Li.
  - apply Forall_cons; split; [by_decide|]. cbn [map concat].
    repeat apply Forall_app_2; try done; apply to_be_bytes.
Qed.

(** C36: the key hierarchy of TS 33.401: K_ASME at the HSS, the NAS keys, K_eNB
    and NH at the MME are the keys its annex A derives with HMAC-SHA-256 from
    the parent key and the encoded parameters (the octet strings [S] with the
    FC values, the parameters and their two-byte lengths), whatever the local
    storage of the hash held. *)
Theorem key_hierarchy m ck ik plmn_id sqn ak ty id count kasme sync b16 b32 :
  locals_ok m -> is_block 16 ck -> is_block 16 ik -> is_block 3 plmn_id ->
  is_block 6 sqn -> is_block 6 ak -> is_block 32 kasme -> is_block 32 sync ->
  inw 8 ty -> inw 8 id -> length b16 = 16%nat -> length b32 = 32%nat ->
  hss_auc_kasme m ck ik plmn_id sqn ak b32 = Ts33401.kasme ck ik plmn_id (xor_bytes sqn ak) /\
  mme_kdf_nas m ty id kasme b16 = Ts33401.knas kasme ty id /\
  mme_kdf_enb m kasme count b32 = Ts33401.kenb kasme count /\
  mme_kdf_nh m kasme sync b32 = Ts33401.nh kasme sync.
Proof.
  intros. split_and!; [by apply auc_kasme_string|by apply nas_string|by apply enb_string|by apply nh_string].
Qed.

Lemma key_hierarchy_witness :
  let m := mkLocals (fresh SHA256) (fresh_hmac SHA256) in
  hss_auc_kasme m (replicate 16 1) (replicate 16 2) [0x02; 0xf8; 0x39] (replicate 6 3) (replicate 6 4)
    (replicate 32 0) =
  Ts33401.kasme (replicate 16 1) (replicate 16 2) [0x02; 0xf8; 0x39] (replicate 6 7).
Proof.
  destruct (key_hierarchy (mkLocals (fresh SHA256) (fresh_hmac SHA256)) (replicate 16 1) (replicate 16 2)
    [0x02; 0xf8; 0x39] (replicate 6 3) (replicate 6 4) 1 2 5 (replicate 32 8) (replicate 32 9)
    (replicate 16 0) (replicate 32 0)) as [H _]; [..|exact H];
    try (split; [by_decide|reflexivity]); try by_decide; try reflexivity.
Defined.

End KdfSpec.
