(* ===== verification/Misc.v ===== *)
(** [lib/core/src/misc.c]: hexadecimal text, big-endian integers, BCD digits,
    bounded string copy. *)

From Stdlib Require String.
From S2P Require Import Prelude.

Module Misc.

(** ** Definitions *)

(** The C library's classification of characters, in the C locale. *)
Definition c_isspace (c : Z) : bool := bool_decide (c = 32 \/ 9 <= c <= 13).
Definition c_isdigit (c : Z) : bool := bool_decide (48 <= c <= 57).
Definition c_islower (c : Z) : bool := bool_decide (97 <= c <= 122).

(** [hex] in [core_ascii_to_hex]. *)
Definition digit_value (c : Z) : Z :=
  if c_isdigit c then c - 48 else if c_islower c then c - 97 + 10 else c - 65 + 10.

(** The loop of [core_ascii_to_hex]: [j] bytes of [out] are complete, [k] digits
    have been read. *)
Fixpoint ascii_loop (inp : list Z) (j k : nat) (out : list Z) (out_len : nat) : list Z :=
  match inp with
  | [] => out
  | c :: inp =>
      if decide (j < out_len)%nat then
        if c_isspace c then ascii_loop inp j k out out_len
        else
          let hex := digit_value c in
          if Nat.even k then ascii_loop inp j (S k) (<[j := u8 (hex << 4)]> out) out_len
          else ascii_loop inp (S j) (S k) (<[j := u8 (rd out (Z.of_nat j) .| hex)]> out) out_len
      else out
  end.
Definition core_ascii_to_hex (inp out : list Z) (out_len : nat) : list Z :=
  ascii_loop inp 0 0 out out_len.

(** A digit of [sprintf("%02X")]. *)
Definition hex_upper (d : Z) : Z := if decide (d < 10) then 48 + d else 55 + d.

(** The string [core_hex_to_ascii] leaves in [out], without its terminator. *)
Definition core_hex_to_ascii (inp : list Z) (in_len out_len : nat) : list Z :=
  let l := if decide (out_len < in_len)%nat then out_len else in_len in
  for_up l (fun i p =>
    let b := rd inp (Z.of_nat i) .& 0xff in
    let p := p ++ [hex_upper (b / 16); hex_upper (b mod 16)] in
    if decide ((Z.of_nat i .& 3 = 3) /\ i <> (l - 1)%nat) then p ++ [32] else p) [].

Definition core_uint64_to_buffer (num : Z) (size : nat) (buffer : list Z) : list Z :=
  for_up size (fun i b => <[i := (num >> (Z.of_nat (size - 1 - i) * 8)) .& 0xff]> b) buffer.

Definition core_buffer_to_uint64 (buffer : list Z) (size : nat) : Z :=
  for_up size (fun i num => u64 (num .| (rd buffer (Z.of_nat i) << (Z.of_nat (size - 1 - i) * 8)))) 0.

(** [inp] is the string without its terminator; the buffer and [*out_len]. *)
Definition core_bcd_to_buffer (inp out : list Z) : list Z * Z :=
  let in_len := length inp in
  let out := for_up in_len (fun i out =>
    let j := (i / 2)%nat in
    if Nat.odd i then <[j := u8 (rd out (Z.of_nat j) .| (((rd inp (Z.of_nat i) - 0x30) << 4) .& 0xf0))]> out
    else <[j := (rd inp (Z.of_nat i) - 0x30) .& 0x0f]> out) out in
  let out_len := ((in_len + 1) / 2)%nat in
  if Nat.odd in_len
  then (<[(out_len - 1)%nat := u8 (rd out (Z.of_nat (out_len - 1)) .| 0xf0)]> out, Z.of_nat out_len)
  else (out, Z.of_nat out_len).

(** The string [core_buffer_to_bcd] leaves in [out], without its terminator;
    [in_len] is at least 1. *)
Definition core_buffer_to_bcd (inp : list Z) (in_len : nat) : list Z :=
  let s := for_up (in_len - 1) (fun i s =>
    s ++ [0x30 + (rd inp (Z.of_nat i) .& 0x0f); 0x30 + ((rd inp (Z.of_nat i) .& 0xf0) >> 4)]) [] in
  let last := rd inp (Z.of_nat (in_len - 1)) in
  if decide (last .& 0xf0 = 0xf0) then s ++ [0x30 + (last .& 0x0f)]
  else s ++ [0x30 + (last .& 0x0f); 0x30 + ((last .& 0xf0) >> 4)].

(** The string [core_cpystrn] leaves in [dst] ([dst_size] at least 1), without
    its terminator: [src] up to its terminator or [dst_size - 1] characters. *)
Fixpoint core_cpystrn (src : list Z) (dst_size : nat) : list Z :=
  match dst_size, src with
  | S (S n), c :: src => if decide (c = 0) then [] else c :: core_cpystrn src (S n)
  | _, _ => []
  end.

Import String.StringSyntax.
#[local] Open Scope string_scope.

Definition chars (s : String.string) : list Z :=
  map (fun c => Z.of_N (Ascii.N_of_ascii c)) (String.list_ascii_of_string s).

Example hex_to_ascii_test :
  core_hex_to_ascii (hex "465b5ce8b199b49faa5f0a2ee238a6bc") 16 128 =
  chars "465B5CE8 B199B49F AA5F0A2E E238A6BC".
Proof. vm_compute. reflexivity. Qed.

Example bcd_test :
  core_bcd_to_buffer (chars "001010123456789") (replicate 8 0xee) = (hex "00010121436587f9", 8) /\
  core_buffer_to_bcd (hex "00010121436587f9") 8 = chars "001010123456789".
Proof. vm_compute. done. Qed.

(** ** Hexadecimal text *)

Lemma hex_upper_value d :
  0 <= d < 16 -> c_isspace (hex_upper d) = false /\ digit_value (hex_upper d) = d.
Proof.
  intros Hd. enough (16 <= d \/ c_isspace (hex_upper d) = false /\ digit_value (hex_upper d) = d) as [?|?];
    [lia|done|].
  assert (inw 8 d) as Hb by (unfold inw; lia). clear Hd. revert d Hb.
  refine (bytes_forall _ _). vm_compute. reflexivity.
Qed.

Lemma ascii_byte b rest j k out out_len :
  inw 8 b -> (j < out_len)%nat -> (out_len <= length out)%nat -> Nat.even k = true ->
  ascii_loop (hex_upper (b / 16) :: hex_upper (b mod 16) :: rest) j k out out_len =
    ascii_loop rest (S j) (S (S k)) (<[j := b]> out) out_len.
Proof.
  intros Hb Hj Hout Hk. unfold inw in Hb.
  destruct (hex_upper_value (b / 16) ltac:(lia)) as [S1 V1].
  destruct (hex_upper_value (b mod 16) ltac:(lia)) as [S2 V2].
  cbn [ascii_loop]. rewrite decide_True, S1 by done. cbv zeta. rewrite V1, Hk.
  rewrite decide_True, S2, V2 by done.
  assert (Nat.even (S k) = false) as -> by (by rewrite Nat.even_succ, <- Nat.negb_even, Hk).
  rewrite list_insert_insert_eq. do 2 f_equal.
  rewrite (rd_lookup _ _ (u8 ((b / 16) << 4))) by (rewrite Nat2Z.id; apply list_lookup_insert_eq; lia).
  rewrite (u8_id ((b / 16) << 4)), lor_add by (unfold inw; rewrite ?Z.shiftl_mul_pow2; lia).
  rewrite u8_id by (unfold inw; lia). lia.
Qed.

Lemma length_ascii_loop s j k out n : length (ascii_loop s j k out n) = length out.
Proof.
  revert j k out. induction s as [|c s IH]; intros j k out; [done|]. cbn [ascii_loop].
  repeat case_match; try done; by rewrite IH, ?length_insert.
Qed.

Lemma ascii_loop_bytes s j k out n : bytes out -> bytes (ascii_loop s j k out n).
Proof.
  revert j k out. induction s as [|c s IH]; intros j k out Ho; [done|]. cbn [ascii_loop].
  repeat case_match; try done; apply IH; try done; apply Forall_insert; (done || apply u8_inw).
Qed.

(** The text of the bytes from the [i]th, in a text of [l] bytes. *)
Fixpoint hex_text (l i : nat) (bs : list Z) : list Z :=
  match bs with
  | [] => []
  | b :: bs =>
      [hex_upper (b / 16); hex_upper (b mod 16)] ++
      (if decide ((Z.of_nat i .& 3 = 3) /\ i <> (l - 1)%nat) then [32] else []) ++ hex_text l (S i) bs
  end.

Lemma hex_text_app l i bs bs' : hex_text l i (bs ++ bs') = hex_text l i bs ++ hex_text l (i + length bs) bs'.
Proof.
  revert i. induction bs as [|b bs IH]; intros i; cbn [hex_text app length]; [by rewrite Nat.add_0_r|].
  rewrite IH, <- !(assoc_L (++)), Nat.add_succ_r. done.
Qed.

Lemma hex_to_ascii_text bs out_len :
  bytes bs -> (length bs <= out_len)%nat ->
  core_hex_to_ascii bs (length bs) out_len = hex_text (length bs) 0 bs.
Proof.
  intros Hb Hl. unfold core_hex_to_ascii. rewrite decide_False by lia.
  enough (forall n, (n <= length bs)%nat -> for_up n (fun i p =>
    let b := rd bs (Z.of_nat i) .& 0xff in
    let p := p ++ [hex_upper (b / 16); hex_upper (b mod 16)] in
    if decide ((Z.of_nat i .& 3 = 3) /\ i <> (length bs - 1)%nat) then p ++ [32] else p) [] =
    hex_text (length bs) 0 (take n bs)) as E by (rewrite E, firstn_all; done).
  induction n as [|n IH]; intros Hn; [done|]. rewrite for_up_S, IH by lia.
  destruct (lookup_lt_is_Some_2 bs n) as [b Hn']; [lia|].
  assert (inw 8 b) as Bb by (by eapply Forall_lookup_1 in Hn').
  rewrite (take_S_r _ _ b), hex_text_app, length_take, Nat.min_l by (done || lia).
  rewrite (rd_lookup _ _ b) by (by rewrite Nat2Z.id). change (b .& 0xff) with (u8 b). rewrite u8_id by done.
  cbv zeta. cbn [hex_text]. rewrite Nat.add_0_l, app_nil_r. case_decide; rewrite <- ?(assoc_L (++)); done.
Qed.

Lemma ascii_text l i bs k out n :
  bytes bs -> (i + length bs <= n)%nat -> (n <= length out)%nat -> Nat.even k = true ->
  ascii_loop (hex_text l i bs) i k out n = take i out ++ bs ++ drop (i + length bs) out.
Proof.
  revert i k out. induction bs as [|b bs IH]; intros i k out Hb Hi Hl Hk.
  - cbn. rewrite Nat.add_0_r. by rewrite take_drop.
  - apply Forall_cons in Hb as [Hb Hbs]. cbn [length] in Hi. cbn [hex_text app length].
    rewrite ascii_byte by (done || lia).
    assert (forall rest, ascii_loop ((if decide ((Z.of_nat i .& 3 = 3) /\ i <> (l - 1)%nat) then [32] else []) ++ rest)
      (S i) (S (S k)) (<[i := b]> out) n =
      ascii_loop rest (S i) (S (S k)) (<[i := b]> out) n) as ->.
    { intros rest. case_decide; [|done]. cbn [app ascii_loop].
      case_decide; [done|]. destruct rest; cbn [ascii_loop]; [done|]. by rewrite decide_False by lia. }
    rewrite <- Nat.add_succ_comm. rewrite IH by (rewrite ?length_insert; (done || lia)).
    rewrite drop_insert_lt by lia.
    rewrite (take_S_r _ _ b) by (apply list_lookup_insert_eq; lia).
    rewrite take_insert_ge, <- (assoc_L (++)) by lia. done.
Qed.

(** [core_ascii_to_hex] reads back exactly the
    bytes [core_hex_to_ascii] printed (with its spaces every four bytes), into
    the first bytes of any buffer that has room for them, and leaves the rest of
    the buffer alone. *)
Lemma hex_roundtrip bs out text_room n :
  bytes bs -> (length bs <= text_room)%nat -> (length bs <= n)%nat -> (n <= length out)%nat ->
  core_ascii_to_hex (core_hex_to_ascii bs (length bs) text_room) out n = bs ++ drop (length bs) out.
Proof.
  intros Hb Hr Hn Ho. rewrite hex_to_ascii_text by done. unfold core_ascii_to_hex.
  by apply (ascii_text (length bs) 0 bs 0 out).
Qed.

(** ** Big-endian integers *)

Lemma uint64_to_buffer_be num size buffer :
  length buffer = size -> core_uint64_to_buffer num size buffer = to_be size num.
Proof.
  intros <-. unfold core_uint64_to_buffer.
  rewrite (for_up_write (fun i => (num >> (Z.of_nat (length buffer - 1 - i) * 8)) .& 0xff)) by done.
  rewrite drop_ge, app_nil_r by done. generalize (length buffer). clear buffer. intros n.
  induction n as [|n IH]; [done|]. cbn [seq map to_be]. rewrite <- seq_shift, map_map, <- IH. f_equal.
  - replace (S n - 1 - 0)%nat with n by lia. rewrite shiftr_div, Z.mul_comm by lia. apply u8_mod.
  - apply map_ext. intros i. by replace (S n - 1 - S i)%nat with (n - 1 - i)%nat by lia.
Qed.

Lemma buffer_to_uint64_be buffer size :
  bytes buffer -> length buffer = size -> (size <= 8)%nat -> core_buffer_to_uint64 buffer size = be buffer.
Proof.
  intros Hb Hl H8. unfold core_buffer_to_uint64.
  enough (forall n, (n <= size)%nat ->
    for_up n (fun i num => u64 (num .| (rd buffer (Z.of_nat i) << (Z.of_nat (size - 1 - i) * 8)))) 0 =
    be (take n buffer) * 2 ^ (8 * Z.of_nat (size - n))) as E.
  { rewrite E, Nat.sub_diag, take_ge by lia. lia. }
  induction n as [|n IH]; intros Hn; [done|]. rewrite for_up_S, IH by lia.
  destruct (lookup_lt_is_Some_2 buffer n) as [b Hn']; [lia|].
  assert (inw 8 b) as Bb by (by eapply Forall_lookup_1 in Hn').
  rewrite (rd_lookup _ _ b) by (by rewrite Nat2Z.id). rewrite (take_S_r _ _ b) by done. rewrite be_app.
  change (length [b]) with 1%nat. cbn [be length]. change (2 ^ (8 * Z.of_nat 0)) with 1.
  replace (size - n)%nat with (S (size - S n)) by lia. replace (size - 1 - n)%nat with (size - S n)%nat by lia.
  pose proof (be_bound (take n buffer) ltac:(by apply Forall_take)) as Hbd.
  rewrite length_take, Nat.min_l in Hbd by lia. set (x := be (take n buffer)) in *.
  set (m := (size - S n)%nat) in *. change (8 * Z.of_nat 1) with 8.
  replace (8 * Z.of_nat (S m)) with (8 + 8 * Z.of_nat m) by lia. rewrite Z.pow_add_r by lia.
  assert ((x * (2 ^ 8 * 2 ^ (8 * Z.of_nat m))) .| (b << (Z.of_nat m * 8)) = (x * 2 ^ 8 + b) * 2 ^ (8 * Z.of_nat m)) as ->.
  { rewrite Z.mul_assoc, <- (Z.shiftl_mul_pow2 (x * 2 ^ 8)), (Z.mul_comm (Z.of_nat m)) by lia.
    rewrite <- Z.shiftl_lor, <- (Z.shiftl_mul_pow2 x), lor_add, !Z.shiftl_mul_pow2 by (done || lia).
    done. }
  rewrite u64_id; [lia|]. unfold inw in *. split; [nia|].
  assert (x * 2 ^ 8 + b < 2 ^ (8 * Z.of_nat n + 8)) by (rewrite Z.pow_add_r by lia; lia).
  apply (Z.lt_le_trans _ (2 ^ (8 * Z.of_nat n + 8) * 2 ^ (8 * Z.of_nat m))); [nia|].
  rewrite <- Z.pow_add_r by lia. apply Z.pow_le_mono_r; lia.
Qed.

(** ** BCD *)

(** Digits in pairs, the first in the low nibble, an odd last one with filler 15. *)
Fixpoint bcd (s : list Z) : list Z :=
  match s with
  | [] => []
  | [a] => [(a - 0x30) .& 0x0f .| 0xf0]
  | a :: b :: s => ((a - 0x30) .& 0x0f) .| (((b - 0x30) << 4) .& 0xf0) :: bcd s
  end.

Definition digits (s : list Z) : Prop := Forall (fun c => 0x30 <= c <= 0x39) s.

Lemma digit_nibbles a b :
  0x30 <= a <= 0x39 -> 0x30 <= b <= 0x39 ->
  let x := ((a - 0x30) .& 0x0f) .| (((b - 0x30) << 4) .& 0xf0) in
  let y := ((a - 0x30) .& 0x0f) .| 0xf0 in
  inw 8 x /\ 0x30 + (x .& 0x0f) = a /\ 0x30 + ((x .& 0xf0) >> 4) = b /\ x .& 0xf0 <> 0xf0 /\
  inw 8 y /\ 0x30 + (y .& 0x0f) = a /\ y .& 0xf0 = 0xf0.
Proof.
  intros Ha Hb. assert (a = 48 \/ a = 49 \/ a = 50 \/ a = 51 \/ a = 52 \/ a = 53 \/ a = 54 \/ a = 55 \/ a = 56 \/ a = 57) as A by lia.
  assert (b = 48 \/ b = 49 \/ b = 50 \/ b = 51 \/ b = 52 \/ b = 53 \/ b = 54 \/ b = 55 \/ b = 56 \/ b = 57) as Bd by lia.
  clear Ha Hb. unfold inw. destruct_or! A; destruct_or! Bd; subst; vm_compute; intuition congruence.
Qed.

Abbreviation pair a b := (((a - 0x30) .& 0x0f) .| (((b - 0x30) << 4) .& 0xf0)).

Lemma bcd_pairs n p q : length p = (2 * n)%nat -> bcd (p ++ q) = bcd p ++ bcd q /\ length (bcd p) = n.
Proof.
  revert p. induction n as [|n IH]; intros p Hp.
  - destruct p; [done|]. simpl in Hp. lia.
  - destruct p as [|a [|b p]]; [simpl in Hp; lia..|]. destruct (IH p) as [E L]; [simpl in Hp; lia|].
    cbn [app bcd length]. by rewrite E, L.
Qed.

(** A list of even or odd length as its pairs and what is left. *)
Lemma halve (s : list Z) :
  exists n p r, s = p ++ r /\ length p = (2 * n)%nat /\ (r = [] \/ exists a, r = [a]).
Proof.
  exists (length s / 2)%nat, (take (2 * (length s / 2)) s), (drop (2 * (length s / 2)) s).
  pose proof (Nat.div_mod (length s) 2 ltac:(lia)). pose proof (Nat.mod_upper_bound (length s) 2 ltac:(lia)).
  split_and!; [by rewrite take_drop|rewrite length_take; lia|].
  destruct (drop _ s) as [|a [|b r]] eqn:E; [by left|right; by exists a|].
  apply (f_equal length) in E. rewrite length_drop in E. cbn [length] in E. lia.
Qed.

Lemma last_pair n (p : list Z) :
  length p = (2 * S n)%nat -> exists q a b, p = q ++ [a; b] /\ length q = (2 * n)%nat.
Proof.
  intros Hp. exists (take (2 * n) p). destruct (drop (2 * n) p) as [|a [|b [|c l]]] eqn:E;
    try (apply (f_equal length) in E; rewrite length_drop in E; cbn [length] in E; lia).
  exists a, b. split; [by rewrite <- (take_drop (2 * n) p), E at 1|rewrite length_take; lia].
Qed.

Abbreviation bcd_step inp := (fun i out =>
    let j := (i / 2)%nat in
    if Nat.odd i then <[j := u8 (rd out (Z.of_nat j) .| (((rd inp (Z.of_nat i) - 0x30) << 4) .& 0xf0))]> out
    else <[j := (rd inp (Z.of_nat i) - 0x30) .& 0x0f]> out).

Lemma odd_double i : Nat.odd (2 * i) = false.
Proof. rewrite <- Nat.negb_even. replace (Nat.even (2 * i)) with true; [done|]. symmetry. apply Nat.even_spec. by exists i. Qed.
Lemma odd_double_1 i : Nat.odd (2 * i + 1) = true.
Proof. apply Nat.odd_spec. by exists i. Qed.

Lemma rd_at pre c post : rd (pre ++ c :: post) (Z.of_nat (length pre)) = c.
Proof. apply rd_lookup. rewrite Nat2Z.id. by apply list_lookup_middle. Qed.

Lemma bcd_even i pre c post (x y : list Z) z :
  length pre = (2 * i)%nat -> length x = i ->
  bcd_step (pre ++ c :: post) (2 * i)%nat (x ++ z :: y) = x ++ ((c - 0x30) .& 0x0f) :: y.
Proof.
  intros Hp Hx. cbv beta zeta. rewrite odd_double.
  replace (2 * i / 2)%nat with i by (apply (Nat.div_unique _ 2 i 0); lia).
  rewrite <- Hp, rd_at, insert_app_r_alt by lia. by rewrite Hx, Nat.sub_diag.
Qed.

Lemma bcd_odd i pre c post (x y : list Z) z :
  length pre = (2 * i + 1)%nat -> length x = i -> inw 8 z ->
  bcd_step (pre ++ c :: post) (2 * i + 1)%nat (x ++ z :: y) = x ++ (z .| (((c - 0x30) << 4) .& 0xf0)) :: y.
Proof.
  intros Hp Hx Hz. cbv beta zeta. rewrite odd_double_1.
  replace ((2 * i + 1) / 2)%nat with i by (apply (Nat.div_unique _ 2 i 1); lia).
  rewrite <- Hp, rd_at, <- Hx, rd_at, u8_id by (apply inw_lor; [lia|done|apply inw_land_r; by_decide]).
  by rewrite insert_app_r_alt, Nat.sub_diag by lia.
Qed.

Lemma bcd_loop inp n p r out :
  inp = p ++ r -> length p = (2 * n)%nat -> (n <= length out)%nat ->
  for_up (2 * n) (bcd_step inp) out = bcd p ++ drop n out.
Proof.
  intros -> . revert p r. induction n as [|n IH]; intros p r Hp Ho.
  - destruct p; [done|]. simpl in Hp. lia.
  - destruct (last_pair n p Hp) as (q & a & b & -> & Hq).
    replace (2 * S n)%nat with (S (S (2 * n))) by lia. rewrite !for_up_S, <- (assoc_L (++)).
    rewrite (IH q ([a; b] ++ r) Hq ltac:(lia)). destruct (bcd_pairs n q [a; b] Hq) as [E L].
    destruct (lookup_lt_is_Some_2 out n) as [z Hz]; [lia|]. rewrite (drop_S _ _ _ Hz).
    cbn [app]. rewrite (bcd_even n) by done.
    replace (S (2 * n)) with (2 * n + 1)%nat by lia.
    change (q ++ a :: b :: r) with (q ++ [a] ++ b :: r). rewrite (assoc_L (++)).
    rewrite (bcd_odd n) by (rewrite ?length_app, ?Hq; simpl; (done || lia || apply inw_land_r; by_decide)).
    rewrite E. cbn [bcd]. by rewrite <- (assoc_L (++)).
Qed.

Lemma bcd_to_buffer_spec inp out :
  ((length inp + 1) / 2 <= length out)%nat ->
  core_bcd_to_buffer inp out =
    (bcd inp ++ drop ((length inp + 1) / 2) out, Z.of_nat ((length inp + 1) / 2)).
Proof.
  intros Ho. unfold core_bcd_to_buffer.
  destruct (halve inp) as (n & p & r & E & Hp & [-> | (a & ->)]); rewrite E, length_app, Hp in *; cbn [length] in *.
  - rewrite Nat.add_0_r in *. replace ((2 * n + 1) / 2)%nat with n in * by (apply (Nat.div_unique _ 2 n 1); lia).
    rewrite odd_double, app_nil_r.
    by rewrite (bcd_loop p n p []) by (rewrite ?app_nil_r; done).
  - replace ((2 * n + 1 + 1) / 2)%nat with (n + 1)%nat in * by (apply (Nat.div_unique _ 2 (n + 1) 0); lia).
    rewrite odd_double_1.
    replace (2 * n + 1)%nat with (S (2 * n)) by lia. rewrite for_up_S.
    rewrite (bcd_loop _ n p [a]) by (done || lia). destruct (bcd_pairs n p [a] Hp) as [E' L].
    destruct (lookup_lt_is_Some_2 out n) as [z Hz]; [lia|]. rewrite (drop_S _ _ _ Hz).
    rewrite (bcd_even n) by done. replace (n + 1 - 1)%nat with n by lia.
    replace (rd _ (Z.of_nat n)) with ((a - 0x30) .& 0x0f) by (rewrite <- L at 2; by rewrite rd_at).
    rewrite insert_app_r_alt, L, Nat.sub_diag by lia. rewrite E'. cbn [bcd list_insert insert].
    rewrite u8_id by (apply inw_lor; [lia|apply inw_land_r; by_decide|by_decide]).
    rewrite Nat.add_1_r, <- (assoc_L (++)). done.
Qed.

(** The digits of the bytes of [bcd s], in order. *)
Lemma buffer_to_bcd_loop s rest n p r :
  s = p ++ r -> length p = (2 * n)%nat -> digits s ->
  for_up n (fun i t =>
    t ++ [0x30 + (rd (bcd s ++ rest) (Z.of_nat i) .& 0x0f);
          0x30 + ((rd (bcd s ++ rest) (Z.of_nat i) .& 0xf0) >> 4)]) [] = p.
Proof.
  intros Hs Hp Hd. revert p r Hs Hp. induction n as [|n IH]; intros p r Hs Hp.
  - destruct p; [done|]. simpl in Hp. lia.
  - destruct (last_pair n p Hp) as (q & a & b & -> & Hq).
    rewrite <- (assoc_L (++)) in Hs. rewrite for_up_S, (IH q _ Hs Hq).
    destruct (bcd_pairs n q ([a; b] ++ r) Hq) as [E L].
    unfold digits in Hd. rewrite Hs in Hd. apply Forall_app in Hd as [_ Hd]. cbn [app] in Hd.
    apply Forall_cons in Hd as [Ha Hd]. apply Forall_cons in Hd as [Hb _].
    destruct (digit_nibbles a b Ha Hb) as (_ & E1 & E2 & _).
    rewrite Hs, E, <- (assoc_L (++)). cbn [app bcd]. rewrite <- L, rd_at. by rewrite E1, E2.
Qed.

Lemma bcd_buffer_roundtrip s rest :
  digits s -> s <> [] -> core_buffer_to_bcd (bcd s ++ rest) ((length s + 1) / 2) = s.
Proof.
  intros Hd Hne. unfold core_buffer_to_bcd. cbv zeta.
  destruct (halve s) as (m & p & r & E & Hp & [-> | (a & ->)]); rewrite E, length_app, Hp; cbn [length].
  - rewrite app_nil_r in E. subst p. destruct m as [|m]; [by destruct s|].
    replace ((2 * S m + 0 + 1) / 2)%nat with (S m) by (apply (Nat.div_unique _ 2 (S m) 1); lia).
    replace (S m - 1)%nat with m by lia. destruct (last_pair m s Hp) as (q & a & b & -> & Hq).
    rewrite app_nil_r, (buffer_to_bcd_loop _ rest m q [a; b]) by done.
    destruct (bcd_pairs m q [a; b] Hq) as [-> L].
    apply Forall_app in Hd as [_ Hd]. apply Forall_cons in Hd as [Ha Hd]. apply Forall_cons in Hd as [Hb _].
    destruct (digit_nibbles a b Ha Hb) as (_ & E1 & E2 & E3 & _).
    rewrite <- (assoc_L (++)). cbn [app bcd]. rewrite <- L, rd_at, decide_False by done. by rewrite E1, E2.
  - replace ((2 * m + 1 + 1) / 2)%nat with (S m) by (apply (Nat.div_unique _ 2 (S m) 0); lia).
    replace (S m - 1)%nat with m by lia. rewrite E in Hd.
    rewrite (buffer_to_bcd_loop _ rest m p [a]) by done. destruct (bcd_pairs m p [a] Hp) as [-> L].
    apply Forall_app in Hd as [_ Hd]. apply Forall_cons in Hd as [Ha _].
    destruct (digit_nibbles a a Ha Ha) as (_ & _ & _ & _ & _ & E1 & E2).
    rewrite <- (assoc_L (++)). cbn [app bcd]. rewrite <- L, rd_at, decide_True by done. by rewrite E1.
Qed.

(** The textual codings of the program round-trip on every input they are
    meant for: hexadecimal text (with its spaces every four bytes), which is how
    the HSS stores RAND in the database; big-endian integers of up to eight
    bytes, which is how SQN travels; and BCD digits, odd or even in number,
    which is how IMSI and MSISDN are packed, into storage with any contents. *)
Theorem text_roundtrips bs out text_room buf num s out' :
  bytes bs -> (length bs <= text_room)%nat -> (length bs <= length out)%nat ->
  bytes buf -> (length buf <= 8)%nat ->
  digits s -> s <> [] -> ((length s + 1) / 2 <= length out')%nat ->
  core_ascii_to_hex (core_hex_to_ascii bs (length bs) text_room) out (length bs) =
    bs ++ drop (length bs) out /\
  core_uint64_to_buffer (core_buffer_to_uint64 buf (length buf)) (length buf) (replicate (length buf) 0) = buf /\
  core_buffer_to_uint64 (core_uint64_to_buffer num (length buf) buf) (length buf) =
    num mod 2 ^ (8 * Z.of_nat (length buf)) /\
  let '(b, n) := core_bcd_to_buffer s out' in
  n = Z.of_nat ((length s + 1) / 2) /\ core_buffer_to_bcd b (Z.to_nat n) = s.
Proof.
  intros Hb Hr Ho Hbuf H8 Hs Hne Ho'. split_and!.
  - by apply hex_roundtrip.
  - rewrite uint64_to_buffer_be, buffer_to_uint64_be by (rewrite ?length_replicate; done). by apply to_be_length.
  - rewrite uint64_to_buffer_be by done.
    rewrite buffer_to_uint64_be by (apply to_be_bytes || apply length_to_be || done). apply be_to_be.
  - rewrite bcd_to_buffer_spec by done. split; [done|]. rewrite Nat2Z.id. by apply bcd_buffer_roundtrip.
Qed.

Lemma text_roundtrips_witness :
  core_buffer_to_bcd (fst (core_bcd_to_buffer (chars "001010123456789") (replicate 8 0xee))) 8 =
    chars "001010123456789".
Proof.
  destruct (text_roundtrips (replicate 16 0xab) (replicate 16 0) 128 (replicate 6 0x81) 77
    (chars "001010123456789") (replicate 8 0xee)) as (_ & _ & _ & _ & H); [..|exact H];
    first [by_decide | discriminate].
Defined.

End Misc.
