(* ===== verification/Types3gpp.v ===== *)
(** [lib/core/src/3gpp_types.c]: PLMN identities, access point names and protocol
    configuration options. *)

From S2P Require Import Prelude Pkbuf.

(** Tracking areas, cells and temporary identities; [plmn_id] is given by its three
    octets. *)
Module Areas.
Record tai_t := mkTai { plmn_id : list Z; tac : Z }.
Record e_cgi_t := mkEcgi { cgi_plmn_id : list Z; cell_id : Z }.
Record guti_t := mkGuti { guti_plmn_id : list Z; mme_gid : Z; mme_code : Z; m_tmsi : Z }.
End Areas.

Module Types3gpp.

(** ** PLMN identities *)

(** [plmn_id_t]: six digits of four bits; the even ones are in the high halves of
    the three bytes. *)
Record plmn_id := mkPlmn { mcc1 : Z; mcc2 : Z; mcc3 : Z; mnc1 : Z; mnc2 : Z; mnc3 : Z }.

Definition plmn_bytes (p : plmn_id) : list Z :=
  [(mcc2 p << 4) .| mcc1 p; (mnc1 p << 4) .| mcc3 p; (mnc3 p << 4) .| mnc2 p].
Definition plmn_of_bytes (l : list Z) : plmn_id :=
  mkPlmn (rd l 0 .& 0xf) (rd l 0 >> 4) (rd l 1 .& 0xf) (rd l 1 >> 4) (rd l 2 .& 0xf) (rd l 2 >> 4).

Definition PLMN_ID_DIGIT1 (x : Z) : Z := (x / 100) mod 10.
Definition PLMN_ID_DIGIT2 (x : Z) : Z := (x / 10) mod 10.
Definition PLMN_ID_DIGIT3 (x : Z) : Z := x mod 10.

Definition plmn_id_mcc (p : plmn_id) : Z := u16 (mcc1 p * 100 + mcc2 p * 10 + mcc3 p).
Definition plmn_id_mnc (p : plmn_id) : Z :=
  u16 (if decide (mnc1 p = 0xf) then mnc2 p * 10 + mnc3 p
       else mnc1 p * 100 + mnc2 p * 10 + mnc3 p).
Definition plmn_id_mnc_len (p : plmn_id) : Z := if decide (mnc1 p = 0xf) then 2 else 3.

Definition plmn_id_build (mcc mnc mnc_len : Z) : plmn_id :=
  mkPlmn (PLMN_ID_DIGIT1 mcc) (PLMN_ID_DIGIT2 mcc) (PLMN_ID_DIGIT3 mcc)
    (if decide (mnc_len = 2) then 0xf else PLMN_ID_DIGIT1 mnc)
    (PLMN_ID_DIGIT2 mnc) (PLMN_ID_DIGIT3 mnc).

(** ** Access point names *)

Definition DOT : Z := 0x2e.

(** The iterations of the loop of [apn_build] from [i] on, [n] of them left; [j]
    characters of the label have been seen. *)
Fixpoint apn_build_loop (n : nat) (dst src : list Z) (i j : nat) : option (list Z) :=
  match n with
  | O => store dst (i - j) [u8 (Z.of_nat j)]
  | S n =>
      c ← src !! i;
      if decide (c = DOT) then
        dst ← store dst (i - j) [u8 (Z.of_nat j)];
        apn_build_loop n dst src (S i) 0
      else
        dst ← store dst (i + 1) [c];
        apn_build_loop n dst src (S i) (S j)
  end.

(** [apn_build]: the array [dst] and the result; none when an access is outside of
    an array. *)
Definition apn_build (dst src : list Z) (length : nat) : option (list Z * Z) :=
  dst ← apn_build_loop length dst src 0 0;
  Some (dst, Z.of_nat length + 1).

Fixpoint apn_parse_loop (fuel : nat) (dst src : list Z) (length i j : nat) : option (list Z * Z) :=
  match fuel with
  | O => None
  | S fuel =>
      len ← src !! i;
      label ← load src (i + 1) (Z.to_nat len);
      dst ← store dst j label;
      let i := (i + 1 + Z.to_nat len)%nat in
      let j := (j + Z.to_nat len)%nat in
      if decide (i < length)%nat then
        dst ← store dst j [DOT];
        apn_parse_loop fuel dst src length i (j + 1)
      else
        dst ← store dst j [0];
        Some (dst, Z.of_nat j)
  end.

(** [apn_parse]; every iteration reads a byte of [src] that no other has read. *)
Definition apn_parse (dst src : list Z) (length : nat) : option (list Z * Z) :=
  apn_parse_loop (List.length src) dst src length 0 0.

(** ** Protocol configuration options *)

(** [data] is what the pointer points to. *)
Record pco_id := mkPcoId { id : Z; len : Z; data : list Z }.

(** [pco_t]: the first byte holds [ext], [spare] and [configuration_protocol]. *)
Record pco := mkPco { head : Z; num_of_id : Z; ids : list pco_id }.

Definition MAX_NUM_OF_PROTOCOL_OR_CONTAINER_ID : nat := 8.

(** The loop of [pco_parse], [n] iterations of which remain: the identifiers read
    and the offset after them, or an error. *)
Fixpoint pco_parse_loop (n : nat) (bs : list Z) (data_len size : Z) : option (list pco_id * Z) :=
  match n with
  | O => Some ([], size)
  | S n =>
      if decide (data_len <= size) then Some ([], size)
      else if decide (data_len < size + 2) then None
      else
        let id := (rd bs size << 8) .| rd bs (size + 1) in
        let size := size + 2 in
        if decide (data_len < size + 1) then None
        else
          let len := rd bs size in
          let size := size + 1 in
          '(l, e) ← pco_parse_loop n bs data_len (size + len);
          Some (mkPcoId id len (get bs size len) :: l, e)
  end.

(** [pco_parse]: the structure and the result, none for the error -1. *)
Definition pco_parse (bs : list Z) (data_len : Z) : option (pco * Z) :=
  if decide (data_len = 0) then None
  else
    '(l, size) ← pco_parse_loop MAX_NUM_OF_PROTOCOL_OR_CONTAINER_ID bs data_len 1;
    if decide (size = data_len)
    then Some (mkPco (rd bs 0 .& 0x87) (Z.of_nat (length l)) l, size) else None.

(** The loop of [pco_build] over the identifiers that remain. *)
Fixpoint pco_build_loop (bs : list Z) (data_len : Z) (l : list pco_id) (size : Z)
  : option (list Z * Z) :=
  match l with
  | [] => Some (bs, size)
  | i :: l =>
      if decide (data_len < size + 2) then None
      else
        let bs := put bs size (to_be 2 (id i)) in
        let size := size + 2 in
        if decide (data_len < size + 1) then None
        else
          let bs := put bs size [len i] in
          let size := size + 1 in
          if decide (data_len < size + len i) then None
          else
            let bs := put bs size (take (Z.to_nat (len i)) (data i)) in
            pco_build_loop bs data_len l (size + len i)
  end.

(** [pco_build]: the memory at [data] and the result, none for the error -1. *)
Definition pco_build (bs : list Z) (data_len : Z) (p : pco) : option (list Z * Z) :=
  if decide (data_len < 1) then None
  else if decide (Z.of_nat MAX_NUM_OF_PROTOCOL_OR_CONTAINER_ID < num_of_id p) then None
  else pco_build_loop (put bs 0 [head p]) data_len (take (Z.to_nat (num_of_id p)) (ids p)) 1.

End Types3gpp.

Module Types3gppSpec.
Import Types3gpp.

(** ** Names as lists of labels *)

Fixpoint dotted (ls : list (list Z)) : list Z :=
  match ls with
  | [] => []
  | [l] => l
  | l :: ls => l ++ DOT :: dotted ls
  end.

(** Section 9.1 of TS 23.003: each label after its length. *)
Definition labels (ls : list (list Z)) : list Z :=
  concat (map (fun l => Z.of_nat (length l) :: l) ls).

Definition is_label (l : list Z) : Prop := Forall (fun c => c <> DOT) l /\ (length l < 256)%nat.

Lemma length_labels ls : ls <> [] -> length (labels ls) = S (length (dotted ls)).
Proof.
  induction ls as [|l ls IH]; [done|]. intros _. destruct ls as [|l' ls].
  - unfold labels. cbn. by rewrite app_nil_r.
  - change (labels (l :: l' :: ls)) with ((Z.of_nat (length l) :: l) ++ labels (l' :: ls)).
    change (dotted (l :: l' :: ls)) with (l ++ DOT :: dotted (l' :: ls)).
    rewrite !length_app, IH by done. cbn [length]. lia.
Qed.

Lemma apn_build_label D x cur cs old post src todo n :
  Forall (fun c => c <> DOT) cs -> length old = length cs ->
  drop (length D + length cur) src = cs ++ todo ->
  apn_build_loop (length cs + n) (D ++ x :: cur ++ old ++ post) src (length D + length cur) (length cur) =
  apn_build_loop n (D ++ x :: (cur ++ cs) ++ post) src (length D + length (cur ++ cs)) (length (cur ++ cs)).
Proof.
  revert cur old. induction cs as [|c cs IH]; intros cur old Hc Ho Hs.
  { destruct old; [|done]. by rewrite app_nil_r. }
  destruct old as [|o old]; [done|]. apply Forall_cons in Hc as [Hc Hcs].
  cbn [length Nat.add apn_build_loop]. injection Ho as Ho.
  assert (src !! (length D + length cur)%nat = Some c) as ->.
  { by rewrite <- (Nat.add_0_r (_ + _)), <- lookup_drop, Hs. }
  cbn. rewrite decide_False by done.
  replace (D ++ x :: cur ++ o :: old ++ post) with ((D ++ x :: cur) ++ [o] ++ (old ++ post))
    by (by rewrite <- (assoc_L (++))).
  replace (length D + length cur + 1)%nat with (length (D ++ x :: cur))
    by (rewrite length_app; cbn; lia).
  rewrite store_app by done. cbn.
  specialize (IH (cur ++ [c]) old Hcs Ho).
  rewrite length_app, Nat.add_1_r, <- plus_n_Sm in IH.
  replace ((D ++ x :: cur) ++ c :: old ++ post) with (D ++ x :: (cur ++ [c]) ++ old ++ post)
    by (by rewrite <- !(assoc_L (++))).
  rewrite IH.
  - by replace ((cur ++ [c]) ++ cs) with (cur ++ c :: cs) by (by rewrite <- (assoc_L (++))).
  - replace (S (length D + length cur)) with (length D + length cur + 1)%nat by lia.
    by rewrite <- drop_drop, Hs.
Qed.

Lemma apn_build_labels ls D src todo x old post :
  ls <> [] -> Forall is_label ls -> length old = length (dotted ls) ->
  drop (length D) src = dotted ls ++ todo ->
  apn_build_loop (length (dotted ls)) (D ++ x :: old ++ post) src (length D) 0 =
    Some (D ++ labels ls ++ post).
Proof.
  revert D x old. induction ls as [|l ls IH]; intros D x old Hne Hls Ho Hs; [done|].
  apply Forall_cons in Hls as [[Hdot Hlen] Hls].
  destruct ls as [|l' ls].
  - cbn [dotted] in *. pose proof (apn_build_label D x [] l old post src todo 0 Hdot Ho) as E.
    cbn [length] in E. rewrite !Nat.add_0_r in E. cbn [app length] in E. rewrite E by done.
    cbn [apn_build_loop]. rewrite Nat.add_sub, u8_id by (unfold inw; lia).
    change (D ++ x :: l ++ post) with (D ++ [x] ++ (l ++ post)). rewrite store_app by done.
    unfold labels. cbn. by rewrite app_nil_r.
  - change (dotted (l :: l' :: ls)) with (l ++ DOT :: dotted (l' :: ls)) in *.
    set (more := dotted (l' :: ls)) in *. rewrite length_app in *. cbn [length] in *.
    destruct (list_split_at (length l) old) as (o1 & o2 & -> & Ho1); [lia|].
    rewrite length_app in Ho. destruct o2 as [|y o2]; cbn [length] in Ho; [lia|].
    pose proof (apn_build_label D x [] l o1 ((y :: o2) ++ post) src (DOT :: more ++ todo)
                  (S (length more)) Hdot Ho1) as E.
    cbn [length] in E. rewrite !Nat.add_0_r in E. cbn [app length] in E.
    replace ((o1 ++ y :: o2) ++ post) with (o1 ++ y :: o2 ++ post) by (by rewrite <- (assoc_L (++))).
    rewrite E by (rewrite Hs; by rewrite <- (assoc_L (++))). clear E.
    cbn [apn_build_loop].
    assert (src !! (length D + length l)%nat = Some DOT) as ->.
    { rewrite <- lookup_drop, Hs, <- (assoc_L (++)), lookup_app_r, Nat.sub_diag by lia. done. }
    cbn [mbind option_bind]. rewrite decide_True by done. rewrite Nat.add_sub, u8_id by (unfold inw; lia).
    change (D ++ x :: l ++ y :: o2 ++ post) with (D ++ [x] ++ (l ++ y :: o2 ++ post)).
    rewrite store_app by done. cbn [mbind option_bind app].
    specialize (IH (D ++ Z.of_nat (length l) :: l) y o2).
    rewrite length_app in IH. cbn [length] in IH. rewrite <- plus_n_Sm, <- (assoc_L (++)) in IH.
    rewrite <- app_comm_cons in IH. rewrite IH; [|done|done|lia|].
    + change (labels (l :: l' :: ls)) with ((Z.of_nat (length l) :: l) ++ labels (l' :: ls)).
      by rewrite <- !(assoc_L (++)).
    + rewrite <- Nat.add_succ_r, <- drop_drop, Hs, <- (assoc_L (++)).
      rewrite <- Nat.add_1_r, <- drop_drop, drop_app_length. done.
Qed.

(** [apn_build] writes the labels of a dotted name. *)
Lemma apn_build_spec ls dst rest :
  ls <> [] -> Forall is_label ls -> (length (dotted ls) < length dst)%nat ->
  apn_build dst (dotted ls ++ rest) (length (dotted ls)) =
    Some (labels ls ++ drop (S (length (dotted ls))) dst, Z.of_nat (length (dotted ls)) + 1).
Proof.
  intros Hne Hls Hd. destruct dst as [|x dst]; [cbn in Hd; lia|]. cbn in Hd.
  destruct (list_split_at (length (dotted ls)) dst) as (old & post & -> & Ho); [lia|].
  unfold apn_build. pose proof (apn_build_labels ls [] (dotted ls ++ rest) rest x old post) as E.
  cbn [app length] in E. rewrite E by done. cbn [mbind option_bind drop].
  by rewrite drop_app_length'.
Qed.

(** The loop of [apn_parse] turns labels into the dotted name and terminates it. *)
Lemma apn_parse_labels ls P D todo old post fuel len :
  ls <> [] -> Forall is_label ls -> length old = length (labels ls) ->
  len = (length P + length (labels ls))%nat -> (length ls <= fuel)%nat ->
  apn_parse_loop fuel (D ++ old ++ post) (P ++ labels ls ++ todo) len (length P) (length D) =
    Some (D ++ dotted ls ++ 0 :: post, Z.of_nat (length D + length (dotted ls))).
Proof.
  revert P D old fuel. induction ls as [|l ls IH]; intros P D old fuel Hne Hls Ho Hlen Hf; [done|].
  apply Forall_cons in Hls as [[Hdot Hl] Hls]. destruct fuel as [|fuel]; [cbn in Hf; lia|].
  change (labels (l :: ls)) with ((Z.of_nat (length l) :: l) ++ labels ls) in *.
  rewrite length_app in *. cbn [length] in *.
  destruct (list_split_at (length l) old) as (o1 & o2 & -> & Ho1); [lia|].
  rewrite length_app in Ho. destruct o2 as [|y o2]; cbn [length] in Ho; [lia|].
  cbn [apn_parse_loop]. rewrite lookup_app_r, Nat.sub_diag by lia. cbn [app lookup list_lookup mbind option_bind].
  replace (P ++ Z.of_nat (length l) :: (l ++ labels ls) ++ todo)
    with ((P ++ [Z.of_nat (length l)]) ++ l ++ labels ls ++ todo) by (by rewrite <- !(assoc_L (++))).
  replace (length P + 1)%nat with (length (P ++ [Z.of_nat (length l)])) by (by rewrite length_app).
  rewrite load_app by (by rewrite Nat2Z.id). cbn [mbind option_bind].
  replace ((o1 ++ y :: o2) ++ post) with (o1 ++ y :: o2 ++ post) by (by rewrite <- (assoc_L (++))).
  rewrite store_app by done. cbn [mbind option_bind].
  rewrite Nat2Z.id, (length_app P). cbn [length].
  change (y :: o2 ++ post) with ([y] ++ (o2 ++ post)). rewrite (assoc_L (++) D l), <- (length_app D l).
  rewrite !store_app by done. cbn [mbind option_bind].
  destruct ls as [|l' ls].
  - destruct o2; [|cbn in Ho; lia]. rewrite decide_False by (cbn in *; lia).
    cbn [dotted]. by rewrite <- !(assoc_L (++)), !length_app.
  - rewrite decide_True by (rewrite length_labels in * by done; lia).
    change (dotted (l :: l' :: ls)) with (l ++ DOT :: dotted (l' :: ls)).
    specialize (IH (P ++ Z.of_nat (length l) :: l) ((D ++ l) ++ [DOT]) o2 fuel).
    rewrite <- !(assoc_L (++)) in *. rewrite !length_app in *. cbn [length app] in *.
    replace (length P + 1 + length l)%nat with (length P + S (length l))%nat by lia.
    replace (length D + length l + 1)%nat with (length D + (length l + 1))%nat by lia.
    rewrite IH by (done || lia). do 3 f_equal. lia.
Qed.

Lemma apn_parse_spec ls dst rest :
  ls <> [] -> Forall is_label ls -> (length (dotted ls) < length dst)%nat ->
  apn_parse dst (labels ls ++ rest) (length (labels ls)) =
    Some (dotted ls ++ 0 :: drop (S (length (dotted ls))) dst, Z.of_nat (length (dotted ls))).
Proof.
  intros Hne Hls Hd. pose proof (length_labels ls Hne) as HL.
  destruct (list_split_at (length (labels ls)) dst) as (old & post & -> & Ho); [lia|].
  unfold apn_parse. pose proof (apn_parse_labels ls [] [] rest old post (length (labels ls ++ rest))
    (length (labels ls))) as E. cbn [app length Nat.add] in E.
  rewrite E; [|done..|].
  - by rewrite <- HL, drop_app_length'.
  - rewrite length_app. assert (length ls <= length (labels ls))%nat; [|lia].
    unfold labels. clear. induction ls as [|l ls IH]; cbn; [lia|]. rewrite length_app. lia.
Qed.

(** A name of labels of at most 255 characters survives the wire: [apn_build]
    writes the labels of TS 23.003 and [apn_parse] turns them into the name again,
    with a terminator, as long as the arrays have room for one more byte. *)
Theorem apn_roundtrip ls dst1 rest1 dst2 rest2 :
  ls <> [] -> Forall is_label ls ->
  (length (dotted ls) < length dst1)%nat -> (length (dotted ls) < length dst2)%nat ->
  apn_build dst1 (dotted ls ++ rest1) (length (dotted ls)) =
    Some (labels ls ++ drop (length (labels ls)) dst1, Z.of_nat (length (labels ls))) /\
  apn_parse dst2 (labels ls ++ rest2) (length (labels ls)) =
    Some (dotted ls ++ 0 :: drop (length (labels ls)) dst2, Z.of_nat (length (dotted ls))).
Proof.
  intros Hne Hls H1 H2. split.
  - rewrite length_labels, apn_build_spec by done. do 2 f_equal. lia.
  - rewrite apn_parse_spec, length_labels by done. done.
Qed.

Import String.StringSyntax.
#[local] Open Scope string_scope.

Definition chars (s : String.string) : list Z :=
  map (fun c => Z.of_N (Ascii.N_of_ascii c)) (String.list_ascii_of_string s).

#[local] Open Scope list_scope.
#[local] Open Scope Z_scope.

Lemma apn_roundtrip_witness :
  let ls := [chars "internet"; chars "mnc001"; chars "mcc001"; chars "gprs"] in
  dotted ls = chars "internet.mnc001.mcc001.gprs" /\
  apn_build (replicate 100 0) (dotted ls ++ []) 27 = Some (labels ls ++ replicate 72 0, 28).
Proof.
  intros ls. split; [reflexivity|].
  apply (apn_roundtrip ls (replicate 100 0) [] (replicate 100 0) []); [done| |by_decide..].
  repeat (constructor; [split; [repeat (constructor; [done|]); constructor|by_decide]|]). constructor.
Defined.

(** The first byte of a name that comes from the network is the number of bytes
    [apn_parse] copies, whatever room [dst] has. *)
Lemma apn_parse_overflow dst n src length :
  (List.length dst < Z.to_nat n)%nat -> apn_parse dst (n :: src) length = None.
Proof.
  intros Hn. unfold apn_parse. cbn [List.length apn_parse_loop lookup list_lookup mbind option_bind].
  destruct (load _ _ _) as [l|] eqn:El; [|done]. cbn [mbind option_bind].
  unfold load in El. case_decide; [|done]. injection El as <-.
  unfold store. rewrite decide_False; [done|]. rewrite length_take, length_drop. cbn in *. lia.
Qed.

(** ** Protocol configuration options *)

Definition id_bytes (i : pco_id) : list Z := to_be 2 (id i) ++ len i :: data i.
Definition pco_bytes (p : pco) : list Z := head p :: concat (map id_bytes (ids p)).

Definition wf_id (i : pco_id) : Prop :=
  inw 16 (id i) /\ inw 8 (len i) /\ len i = Z.of_nat (length (data i)).
Definition wf_pco (p : pco) : Prop :=
  head p .& 0x87 = head p /\ num_of_id p = Z.of_nat (length (ids p)) /\
  (length (ids p) <= MAX_NUM_OF_PROTOCOL_OR_CONTAINER_ID)%nat /\ Forall wf_id (ids p).

Lemma length_id_bytes i : length (id_bytes i) = (3 + length (data i))%nat.
Proof. unfold id_bytes. rewrite length_app, length_to_be. cbn. lia. Qed.

Lemma pco_build_loop_spec l pre old post data_len :
  Forall wf_id l -> length old = length (concat (map id_bytes l)) ->
  Z.of_nat (length pre + length old) <= data_len ->
  pco_build_loop (pre ++ old ++ post) data_len l (Z.of_nat (length pre)) =
    Some (pre ++ concat (map id_bytes l) ++ post, Z.of_nat (length pre + length old)).
Proof.
  revert pre old. induction l as [|i l IH]; intros pre old Hl Ho Hd; cbn [map concat] in *.
  { destruct old; [|done]. cbn. do 2 f_equal. lia. }
  apply Forall_cons in Hl as [(Hid & Hb & Hlen) Hl].
  rewrite length_app, length_id_bytes in Ho.
  destruct old as [|a [|b [|c old]]]; cbn [length] in *; try lia.
  destruct (list_split_at (length (data i)) old) as (o1 & o2 & -> & Ho1); [lia|].
  rewrite length_app in *. cbn [pco_build_loop]. rewrite !decide_False by lia.
  change (pre ++ (a :: b :: c :: o1 ++ o2) ++ post) with (pre ++ [a; b] ++ (c :: (o1 ++ o2) ++ post)).
  rewrite put_app by done.
  replace (Z.of_nat (length pre) + 2) with (Z.of_nat (length (pre ++ to_be 2 (id i))))
    by (rewrite length_app, length_to_be; lia).
  rewrite (assoc_L (++) pre). change (c :: (o1 ++ o2) ++ post) with ([c] ++ ((o1 ++ o2) ++ post)).
  rewrite put_app by done.
  replace (Z.of_nat (length (pre ++ to_be 2 (id i))) + 1)
    with (Z.of_nat (length ((pre ++ to_be 2 (id i)) ++ [len i]))) by (rewrite (length_app _ [_]); cbn [length]; lia).
  rewrite (assoc_L (++) _ [len i]), <- (assoc_L (++) o1).
  assert (take (Z.to_nat (len i)) (data i) = data i) as -> by (apply take_ge; lia).
  rewrite put_app by done. rewrite (assoc_L (++) _ (data i)).
  replace (Z.of_nat (length ((pre ++ to_be 2 (id i)) ++ [len i])) + len i)
    with (Z.of_nat (length (((pre ++ to_be 2 (id i)) ++ [len i]) ++ data i)))
    by (rewrite (length_app _ (data i)); lia).
  rewrite IH; [|done|lia|].
  - rewrite !length_app, length_to_be. cbn [length]. unfold id_bytes. rewrite <- !(assoc_L (++)).
    do 2 f_equal. lia.
  - rewrite !length_app, length_to_be. cbn [length]. lia.
Qed.

Lemma get_id i bs : wf_id i -> get (id_bytes i ++ bs) 3 (len i) = data i.
Proof.
  intros (_ & _ & Hl). unfold get, id_bytes. cbn [to_be app]. rewrite Hl, Nat2Z.id.
  apply take_app_length.
Qed.

Lemma rd_id i bs :
  wf_id i -> (rd (id_bytes i ++ bs) 0 << 8) .| rd (id_bytes i ++ bs) 1 = id i /\ rd (id_bytes i ++ bs) 2 = len i.
Proof.
  intros (Hi & Hb & Hl). unfold id_bytes. cbn [to_be app]. rd_simpl. split; [|done].
  rewrite lor_add by (unfold inw; lia). unfold inw in Hi. lia.
Qed.

Lemma pco_parse_loop_spec l n pre post :
  Forall wf_id l -> (length l <= n)%nat ->
  pco_parse_loop n (pre ++ concat (map id_bytes l) ++ post)
    (Z.of_nat (length pre + length (concat (map id_bytes l)))) (Z.of_nat (length pre)) =
    Some (l, Z.of_nat (length pre + length (concat (map id_bytes l)))).
Proof.
  revert n pre. induction l as [|i l IH]; intros n pre Hl Hn; cbn [map concat] in *.
  { cbn [length]. rewrite Nat.add_0_r. destruct n; [done|]. cbn. by rewrite decide_True by lia. }
  apply Forall_cons in Hl as [(Hid & Hb & Hlen) Hl]. destruct n as [|n]; [cbn in Hn; lia|].
  specialize (IH n (pre ++ id_bytes i) Hl ltac:(cbn in Hn; lia)).
  rewrite !length_app, length_id_bytes in *. cbn [pco_parse_loop]. rewrite !decide_False by lia.
  rewrite <- !(assoc_L (++)) in *. set (bs := concat _ ++ post) in *.
  pose proof (rd_app_r pre (id_bytes i ++ bs) 0) as E0. rewrite Z.add_0_r in E0. rewrite E0 by done.
  rewrite <- !Z.add_assoc, !rd_app_r, get_app_r by lia.
  change (2 + 1) with 3. destruct (rd_id i bs) as [-> ->]; [done|]. rewrite get_id by done.
  replace (Z.of_nat (length pre) + (2 + (1 + len i))) with (Z.of_nat (length pre + (3 + length (data i)))) by lia.
  rewrite Nat.add_assoc, IH. cbn [mbind option_bind]. by destruct i.
Qed.

(** What [pco_build] writes, [pco_parse] reads back: the same options, for every
    structure whose identifiers fit in their fields and whose bytes fit at [data]. *)
Theorem pco_roundtrip p old post data_len :
  wf_pco p -> length old = length (pco_bytes p) -> Z.of_nat (length old) <= data_len ->
  let n := Z.of_nat (length (pco_bytes p)) in
  pco_build (old ++ post) data_len p = Some (pco_bytes p ++ post, n) /\
  pco_parse (pco_bytes p ++ post) n = Some (p, n).
Proof.
  intros (Hh & Hn & Hm & Hids) Ho Hd n. unfold n, pco_bytes in *. cbn [length] in *.
  destruct old as [|x old]; [done|]. injection Ho as Ho. cbn [length] in Hd. split.
  - unfold pco_build. rewrite !decide_False by lia.
    change ((x :: old) ++ post) with ([] ++ [x] ++ (old ++ post)).
    rewrite (put_app [] [x]) by done. rewrite Hn, Nat2Z.id, take_ge by done.
    pose proof (pco_build_loop_spec (ids p) [head p] old post data_len Hids Ho) as E.
    change (Z.of_nat (length [head p])) with 1 in E.
    rewrite app_nil_l, E by (cbn; lia). cbn [app length Nat.add]. do 3 f_equal. lia.
  - unfold pco_parse. rewrite decide_False by lia.
    pose proof (pco_parse_loop_spec (ids p) MAX_NUM_OF_PROTOCOL_OR_CONTAINER_ID [head p] post Hids Hm) as E.
    change (Z.of_nat (length [head p])) with 1 in E.
    cbn [app length Nat.add] in E. cbn [app]. rewrite E. cbn [mbind option_bind].
    rewrite decide_True by done. change (rd (head p :: _) 0) with (head p).
    rewrite Hh, <- Hn. by destruct p.
Qed.

Lemma pco_roundtrip_witness :
  let p := mkPco 0x80 2 [mkPcoId 0x8021 4 [1; 2; 0; 4]; mkPcoId 0xd 0 []] in
  pco_build (replicate 251 0) 251 p = Some (hex "8080210401020004000d00" ++ replicate 240 0, 11).
Proof.
  intros p. apply (pco_roundtrip p (replicate 11 0) (replicate 240 0) 251); [|done..].
  split_and!; [done|done|by_decide|]. repeat (constructor; [by_decide|]). constructor.
Defined.

(** ** PLMN identities *)

Lemma digits_value x : 0 <= x < 1000 ->
  PLMN_ID_DIGIT1 x * 100 + PLMN_ID_DIGIT2 x * 10 + PLMN_ID_DIGIT3 x = x.
Proof. unfold PLMN_ID_DIGIT1, PLMN_ID_DIGIT2, PLMN_ID_DIGIT3. lia. Qed.

(** Country and network code, and the length of the latter, are recovered from
    the identity that is built from them, through its three bytes. *)
Theorem plmn_roundtrip mcc mnc mnc_len :
  0 <= mcc < 1000 -> mnc_len = 2 /\ 0 <= mnc < 100 \/ mnc_len = 3 /\ 0 <= mnc < 1000 ->
  let p := plmn_id_build mcc mnc mnc_len in
  plmn_of_bytes (plmn_bytes p) = p /\ bytes (plmn_bytes p) /\
  plmn_id_mcc p = mcc /\ plmn_id_mnc p = mnc /\ plmn_id_mnc_len p = mnc_len.
Proof.
  intros Hc Hn p. pose proof (digits_value mcc Hc) as Ec.
  assert (0 <= mnc < 1000) as Hm by lia. pose proof (digits_value mnc Hm) as En.
  assert (forall x, 0 <= x < 1000 -> 0 <= PLMN_ID_DIGIT1 x < 10 /\ 0 <= PLMN_ID_DIGIT2 x < 10 /\ 0 <= PLMN_ID_DIGIT3 x < 10)
    as Hd by (unfold PLMN_ID_DIGIT1, PLMN_ID_DIGIT2, PLMN_ID_DIGIT3; lia).
  pose proof (Hd mcc Hc). pose proof (Hd mnc Hm).
  assert (forall a b, 0 <= a < 16 -> 0 <= b < 16 -> ((a << 4) .| b) .& 0xf = b /\ ((a << 4) .| b) >> 4 = a /\ inw 8 ((a << 4) .| b)) as Hb.
  { intros a b Ha Hb. rewrite lor_add by (unfold inw; lia).
    rewrite (land_ones_mod _ 4), shiftr_div by done. unfold inw. lia. }
  unfold p, plmn_id_build, plmn_of_bytes, plmn_bytes, plmn_id_mcc, plmn_id_mnc, plmn_id_mnc_len.
  cbn [mcc1 mcc2 mcc3 mnc1 mnc2 mnc3]. rd_simpl.
  assert (forall d, d = 15 \/ d = PLMN_ID_DIGIT1 mnc -> 0 <= d < 16) as Hx by lia.
  destruct Hn as [[-> Hn]|[-> Hn]]; cbn [decide decide_rel]; repeat case_decide; try lia.
  all: rewrite !u16_id by (unfold inw; lia).
  all: split_and!; try lia; [f_equal; apply Hb; lia|].
  all: repeat constructor; apply Hb; lia.
Qed.

Lemma plmn_roundtrip_witness :
  let p := plmn_id_build 208 93 2 in
  plmn_bytes p = hex "02f839" /\ plmn_id_mcc p = 208 /\ plmn_id_mnc p = 93 /\ plmn_id_mnc_len p = 2.
Proof.
  intros p. split; [reflexivity|]. apply (plmn_roundtrip 208 93 2); [lia|]. left. lia.
Defined.

End Types3gppSpec.
