(* ===== verification/NasIes.v ===== *)
(** [lib/nas/nas_ies.c]: encoding and decoding of the information elements of NAS
    messages.

    An element is a C structure, given by the bytes the compiler lays out (packed,
    little-endian): the fields that [ntohs] or [ntohl] convert are reversed in
    place.  A decoder copies from the packet into the structure and answers the
    number of bytes taken, or -1; an encoder copies out of it.  Neither compares
    the length that comes with an element with the size of the structure: an access
    outside of an object has no result. *)

From S2P Require Import Prelude Pkbuf Misc Types3gpp.

Module NasIes.
Import Pkbuf.

(** ** Structures *)

(** The bytes of a structure; [buffer] is what the pointer of a container points to,
    where the structure has one, and [st] the rest. *)
Record ie := mkIe { st : list Z; buffer : option (list Z) }.

(** After [memset]. *)
Definition zero (sizeof : nat) : ie := mkIe (replicate sizeof 0) None.

(** Conversion to [c_int16_t]. *)
Definition i16 (z : Z) : Z :=
  let z := z mod 2 ^ 16 in if decide (z < 2 ^ 15) then z else z - 2 ^ 16.

(** [ntohs], [ntohl], [htons] and [htonl] of the field of [n] bytes at [off]. *)
Definition ntoh (off n : nat) (l : list Z) : list Z :=
  take off l ++ reverse (take n (drop off l)) ++ drop (off + n) l.

(** The number in the first [n] bytes of [l], least significant first. *)
Definition le_value (n : nat) (l : list Z) : Z := be (reverse (take n l)).

(** [memcpy] from and to the cluster. *)
Definition mload (b : buf) (off : Z) (n : nat) : option (list Z) :=
  if decide (0 <= off) then load (mem b) (Z.to_nat off) n else None.
Definition mstore (b : buf) (off : Z) (l : list Z) : option buf :=
  if decide (0 <= off) then m ← store (mem b) (Z.to_nat off) l; Some (mkBuf (pk b) m)
  else None.

(** The [n] bytes from a pointer on, as far as the cluster goes. *)
Definition mfrom (b : buf) (off n : Z) : option (list Z) :=
  if decide (0 <= off <= Z.of_nat (length (mem b))) then Some (get (mem b) off n) else None.

(** The result, the packet and the structure after the call. *)
Definition decoder : Type := ie -> buf -> option (Z * buf * ie).
Definition encoder : Type := buf -> ie -> option (Z * buf * ie).

(** ** The shapes of the functions *)

(** A structure of [sizeof] bytes, of which [size] are copied; [f] converts the
    fields. *)
Definition decode_v (size : nat) (f : list Z -> list Z) : decoder := fun v b =>
  let n := Z.of_nat size in
  let '(ok, b) := header b (i16 (- n)) in
  if negb ok then Some (-1, b, v)
  else
    src ← mload b (payload (pk b) - n) size;
    s ← store (st v) 0 src;
    Some (i16 n, b, mkIe (f s) (buffer v)).

Definition encode_v (size : nat) (f : list Z -> list Z) : encoder := fun b v =>
  let n := Z.of_nat size in
  let target := f (st v) in
  let '(ok, b) := header b (i16 (- n)) in
  if negb ok then Some (-1, b, v)
  else
    src ← load target 0 size;
    b ← mstore b (payload (pk b) - n) src;
    Some (i16 n, b, v).

(** Half an octet, read with the octet of the type. *)
Definition decode_tv1 : decoder := fun v b =>
  src ← mload b (payload (pk b) - 1) 1;
  s ← store (st v) 0 src;
  Some (0, b, mkIe s (buffer v)).

(** A structure that begins with its length, in [w] bytes (the size of the field
    [length]). *)
Definition decode_lv (w : nat) (f : list Z -> list Z) : decoder := fun v b =>
  src ← mload b (payload (pk b)) w;
  s ← store (st v) 0 src;
  let n := u16 (le_value w src + Z.of_nat w) in
  let '(ok, b) := header b (i16 (- n)) in
  if negb ok then Some (-1, b, mkIe s (buffer v))
  else
    src ← mload b (payload (pk b) - n) (Z.to_nat n);
    s ← store s 0 src;
    Some (i16 n, b, mkIe (f s) (buffer v)).

Definition encode_lv (w : nat) (f : list Z -> list Z) : encoder := fun b v =>
  let n := u16 (le_value w (st v) + Z.of_nat w) in
  let target := f (st v) in
  let '(ok, b) := header b (i16 (- n)) in
  if negb ok then Some (-1, b, v)
  else
    src ← load target 0 (Z.to_nat n);
    b ← mstore b (payload (pk b) - n) src;
    Some (i16 n, b, v).

(** A container: the bytes stay in the packet and the structure points to them. *)
Definition decode_container : decoder := fun v b =>
  src ← mload b (payload (pk b)) 2;
  let length := be src in
  let s := reverse src in
  let n := u16 (length + 2) in
  let '(ok, b) := header b (i16 (- n)) in
  if negb ok then Some (-1, b, mkIe s (buffer v))
  else
    bs ← mfrom b (payload (pk b) - n + 2) length;
    Some (i16 n, b, mkIe s (Some bs)).

Definition encode_container : encoder := fun b v =>
  match buffer v with
  | None => Some (-1, b, v)
  | Some bs =>
      let length := le_value 2 (st v) in
      let '(ok, b) := header b (-2) in
      if negb ok then Some (-1, b, v)
      else
        b ← mstore b (payload (pk b) - 2) (reverse (take 2 (st v)));
        let '(ok, b) := header b (i16 (- length)) in
        if negb ok then Some (-1, b, v)
        else
          src ← load bs 0 (Z.to_nat length);
          b ← mstore b (payload (pk b) - length) src;
          Some (i16 (length + 2), b, v)
  end.

(** ** Elements with functions of their own *)

Definition nas_encode_optional_type (b : buf) (type : Z) : option (Z * buf) :=
  let '(ok, b) := header b (-1) in
  if negb ok then Some (-1, b)
  else b ← mstore b (payload (pk b) - 1) [type]; Some (1, b).

(** The type of identity is in the low three bits of the octet after the length;
    the octet's high four are spare. *)
Definition identity_type (l : list Z) : Z := rd l 1 .& 0x7.
Definition set_spare (l : list Z) : list Z := <[1%nat := 0xf0 .| (rd l 1 .& 0xf)]> l.

Definition NAS_MOBILE_IDENTITY_TMSI : Z := 4.
Definition NAS_EPS_MOBILE_IDENTITY_GUTI : Z := 6.

Definition nas_decode_mobile_identity : decoder :=
  decode_lv 1 (fun s => if decide (identity_type s = NAS_MOBILE_IDENTITY_TMSI)
                        then ntoh 2 4 s else s).
Definition nas_encode_mobile_identity : encoder :=
  encode_lv 1 (fun s => if decide (identity_type s = NAS_MOBILE_IDENTITY_TMSI)
                        then set_spare (ntoh 2 4 s) else s).

(** [mme_gid] is at offset 5, [m_tmsi] at offset 8. *)
Definition nas_decode_eps_mobile_identity : decoder :=
  decode_lv 1 (fun s => if decide (identity_type s = NAS_EPS_MOBILE_IDENTITY_GUTI)
                        then ntoh 8 4 (ntoh 5 2 s) else s).
Definition nas_encode_eps_mobile_identity : encoder :=
  encode_lv 1 (fun s => if decide (identity_type s = NAS_EPS_MOBILE_IDENTITY_GUTI)
                        then ntoh 8 4 (ntoh 5 2 (set_spare s)) else s).

(** Three bytes into an integer of four. *)
Definition nas_decode_p_tmsi_signature : decoder := decode_v 3 (ntoh 0 4).

(** The copy is taken before the conversion, which is made in the message. *)
Definition nas_encode_p_tmsi_signature : encoder := fun b v =>
  '(n, b, _) ← encode_v 3 (fun s => s) b v;
  Some (n, b, mkIe (ntoh 0 4 (st v)) (buffer v)).

(** The name is parsed into an array of [MAX_APN_LEN] bytes on the stack (of which
    only bytes that [apn_parse] wrote are read). *)
Definition nas_decode_access_point_name : decoder := fun v b =>
  '(n, b, v) ← decode_lv 1 (fun s => s) v b;
  if decide (n < 0) then Some (n, b, v)
  else
    let name := drop 1 (st v) in
    '(apn, length) ← Types3gpp.apn_parse (replicate 100 0) name (Z.to_nat (rd (st v) 0));
    let length := u8 length in
    let text := Misc.core_cpystrn apn (S (Z.to_nat (Z.min length 100))) in
    name ← store name 0 (text ++ [0]);
    Some (n, b, mkIe (length :: name) (buffer v)).

Definition nas_encode_access_point_name : encoder := fun b v =>
  '(name, length) ← Types3gpp.apn_build (drop 1 (st v)) (drop 1 (st v)) (Z.to_nat (rd (st v) 0));
  '(n, b, _) ← encode_lv 1 (fun s => s) b (mkIe (u8 length :: name) (buffer v));
  Some (n, b, v).

(** ** The sizes of the structures *)

Definition sizeof_additional_information : nat := 256.
Definition sizeof_device_properties : nat := 1.
Definition sizeof_eps_bearer_context_status : nat := 3.
Definition sizeof_supported_codec_list : nat := 33.
Definition sizeof_location_area_identification : nat := 5.
Definition sizeof_mobile_identity : nat := 9.
Definition sizeof_mobile_station_classmark_2 : nat := 4.
Definition sizeof_mobile_station_classmark_3 : nat := 33.
Definition sizeof_plmn_list : nat := 46.
Definition sizeof_additional_update_result : nat := 1.
Definition sizeof_additional_update_type : nat := 1.
Definition sizeof_authentication_failure_parameter : nat := 15.
Definition sizeof_eps_attach_result : nat := 1.
Definition sizeof_eps_attach_type : nat := 1.
Definition sizeof_eps_mobile_identity : nat := 12.
Definition sizeof_eps_network_feature_support : nat := 3.
Definition sizeof_eps_update_result : nat := 1.
Definition sizeof_eps_update_type : nat := 1.
Definition sizeof_esm_message_container : nat := 2.
Definition sizeof_gprs_timer : nat := 1.
Definition sizeof_gprs_timer_2 : nat := 2.
Definition sizeof_gprs_timer_3 : nat := 2.
Definition sizeof_identity_type_2 : nat := 1.
Definition sizeof_imeisv_request : nat := 1.
Definition sizeof_ksi_and_sequence_number : nat := 1.
Definition sizeof_authentication_parameter_autn : nat := 17.
Definition sizeof_ms_network_capability : nat := 5.
Definition sizeof_ms_network_feature_support : nat := 1.
Definition sizeof_key_set_identifier : nat := 1.
Definition sizeof_message_container : nat := 251.
Definition sizeof_security_algorithms : nat := 1.
Definition sizeof_network_name : nat := 257.
Definition sizeof_network_resource_identifier_container : nat := 3.
Definition sizeof_nonce : nat := 4.
Definition sizeof_paging_identity : nat := 1.
Definition sizeof_p_tmsi_signature : nat := 4.
Definition sizeof_extended_emm_cause : nat := 1.
Definition sizeof_service_type : nat := 1.
Definition sizeof_short_mac : nat := 2.
Definition sizeof_time_zone : nat := 1.
Definition sizeof_authentication_parameter_rand : nat := 16.
Definition sizeof_time_zone_and_time : nat := 7.
Definition sizeof_tmsi_status : nat := 1.
Definition sizeof_tracking_area_identity : nat := 5.
Definition sizeof_tracking_area_identity_list : nat := 97.
Definition sizeof_ue_network_capability : nat := 8.
Definition sizeof_ue_radio_capability_information_update_needed : nat := 1.
Definition sizeof_ue_security_capability : nat := 6.
Definition sizeof_emergency_number_list : nat := 50.
Definition sizeof_cli : nat := 13.
Definition sizeof_ss_code : nat := 1.
Definition sizeof_authentication_response_parameter : nat := 17.
Definition sizeof_lcs_indicator : nat := 1.
Definition sizeof_lcs_client_identity : nat := 256.
Definition sizeof_generic_message_container_type : nat := 1.
Definition sizeof_generic_message_container : nat := 2.
Definition sizeof_voice_domain_preference_and_ue_usage_setting : nat := 2.
Definition sizeof_guti_type : nat := 1.
Definition sizeof_extended_drx_parameters : nat := 2.
Definition sizeof_ciphering_key_sequence_number : nat := 1.
Definition sizeof_csfb_response : nat := 1.
Definition sizeof_daylight_saving_time : nat := 2.
Definition sizeof_detach_type : nat := 1.
Definition sizeof_drx_parameter : nat := 2.
Definition sizeof_emm_cause : nat := 1.
Definition sizeof_access_point_name : nat := 101.
Definition sizeof_protocol_configuration_options : nat := 252.
Definition sizeof_quality_of_service : nat := 21.
Definition sizeof_radio_priority : nat := 1.
Definition sizeof_re_attempt_indicator : nat := 2.
Definition sizeof_request_type : nat := 1.
Definition sizeof_traffic_flow_aggregate_description : nat := 256.
Definition sizeof_traffic_flow_template : nat := 256.
Definition sizeof_transaction_identifier : nat := 3.
Definition sizeof_wlan_offload_acceptability : nat := 1.
Definition sizeof_nbifom_container : nat := 256.
Definition sizeof_apn_aggregate_maximum_bit_rate : nat := 7.
Definition sizeof_header_compression_configuration : nat := 260.
Definition sizeof_control_plane_only_indication : nat := 1.
Definition sizeof_extended_protocol_configuration_options : nat := 2.
Definition sizeof_header_compression_configuration_status : nat := 3.
Definition sizeof_serving_plmn_rate_control : nat := 3.
Definition sizeof_connectivity_type : nat := 1.
Definition sizeof_eps_quality_of_service : nat := 14.
Definition sizeof_esm_cause : nat := 1.
Definition sizeof_esm_information_transfer_flag : nat := 1.
Definition sizeof_linked_eps_bearer_identity : nat := 1.
Definition sizeof_llc_service_access_point_identifier : nat := 1.
Definition sizeof_packet_flow_identifier : nat := 2.
Definition sizeof_pdn_address : nat := 14.

(** ** Elements *)

Definition nas_decode_additional_information : decoder := decode_lv 1 (fun s => s).
Definition nas_encode_additional_information : encoder := encode_lv 1 (fun s => s).
Definition nas_decode_device_properties : decoder := decode_tv1.
Definition nas_encode_device_properties : encoder := encode_v sizeof_device_properties (fun s => s).
Definition nas_decode_eps_bearer_context_status : decoder := decode_lv 1 (fun s => s).
Definition nas_encode_eps_bearer_context_status : encoder := encode_lv 1 (fun s => s).
Definition nas_decode_supported_codec_list : decoder := decode_lv 1 (fun s => s).
Definition nas_encode_supported_codec_list : encoder := encode_lv 1 (fun s => s).
Definition nas_decode_location_area_identification : decoder := decode_v sizeof_location_area_identification (ntoh 3 2).
Definition nas_encode_location_area_identification : encoder := encode_v sizeof_location_area_identification (ntoh 3 2).
Definition nas_decode_mobile_station_classmark_2 : decoder := decode_lv 1 (fun s => s).
Definition nas_encode_mobile_station_classmark_2 : encoder := encode_lv 1 (fun s => s).
Definition nas_decode_mobile_station_classmark_3 : decoder := decode_lv 1 (fun s => s).
Definition nas_encode_mobile_station_classmark_3 : encoder := encode_lv 1 (fun s => s).
Definition nas_decode_plmn_list : decoder := decode_lv 1 (fun s => s).
Definition nas_encode_plmn_list : encoder := encode_lv 1 (fun s => s).
Definition nas_decode_additional_update_result : decoder := decode_tv1.
Definition nas_encode_additional_update_result : encoder := encode_v sizeof_additional_update_result (fun s => s).
Definition nas_decode_additional_update_type : decoder := decode_tv1.
Definition nas_encode_additional_update_type : encoder := encode_v sizeof_additional_update_type (fun s => s).
Definition nas_decode_authentication_failure_parameter : decoder := decode_lv 1 (fun s => s).
Definition nas_encode_authentication_failure_parameter : encoder := encode_lv 1 (fun s => s).
Definition nas_decode_eps_attach_result : decoder := decode_v sizeof_eps_attach_result (fun s => s).
Definition nas_encode_eps_attach_result : encoder := encode_v sizeof_eps_attach_result (fun s => s).
Definition nas_decode_eps_attach_type : decoder := decode_v sizeof_eps_attach_type (fun s => s).
Definition nas_encode_eps_attach_type : encoder := encode_v sizeof_eps_attach_type (fun s => s).
Definition nas_decode_eps_network_feature_support : decoder := decode_lv 1 (fun s => s).
Definition nas_encode_eps_network_feature_support : encoder := encode_lv 1 (fun s => s).
Definition nas_decode_eps_update_result : decoder := decode_v sizeof_eps_update_result (fun s => s).
Definition nas_encode_eps_update_result : encoder := encode_v sizeof_eps_update_result (fun s => s).
Definition nas_decode_eps_update_type : decoder := decode_v sizeof_eps_update_type (fun s => s).
Definition nas_encode_eps_update_type : encoder := encode_v sizeof_eps_update_type (fun s => s).
Definition nas_decode_esm_message_container : decoder := decode_container.
Definition nas_encode_esm_message_container : encoder := encode_container.
Definition nas_decode_gprs_timer : decoder := decode_v sizeof_gprs_timer (fun s => s).
Definition nas_encode_gprs_timer : encoder := encode_v sizeof_gprs_timer (fun s => s).
Definition nas_decode_gprs_timer_2 : decoder := decode_lv 1 (fun s => s).
Definition nas_encode_gprs_timer_2 : encoder := encode_lv 1 (fun s => s).
Definition nas_decode_gprs_timer_3 : decoder := decode_lv 1 (fun s => s).
Definition nas_encode_gprs_timer_3 : encoder := encode_lv 1 (fun s => s).
Definition nas_decode_identity_type_2 : decoder := decode_v sizeof_identity_type_2 (fun s => s).
Definition nas_encode_identity_type_2 : encoder := encode_v sizeof_identity_type_2 (fun s => s).
Definition nas_decode_imeisv_request : decoder := decode_tv1.
Definition nas_encode_imeisv_request : encoder := encode_v sizeof_imeisv_request (fun s => s).
Definition nas_decode_ksi_and_sequence_number : decoder := decode_v sizeof_ksi_and_sequence_number (fun s => s).
Definition nas_encode_ksi_and_sequence_number : encoder := encode_v sizeof_ksi_and_sequence_number (fun s => s).
Definition nas_decode_authentication_parameter_autn : decoder := decode_lv 1 (fun s => s).
Definition nas_encode_authentication_parameter_autn : encoder := encode_lv 1 (fun s => s).
Definition nas_decode_ms_network_capability : decoder := decode_lv 1 (fun s => s).
Definition nas_encode_ms_network_capability : encoder := encode_lv 1 (fun s => s).
Definition nas_decode_ms_network_feature_support : decoder := decode_tv1.
Definition nas_encode_ms_network_feature_support : encoder := encode_v sizeof_ms_network_feature_support (fun s => s).
Definition nas_decode_key_set_identifier : decoder := decode_tv1.
Definition nas_encode_key_set_identifier : encoder := encode_v sizeof_key_set_identifier (fun s => s).
Definition nas_decode_message_container : decoder := decode_lv 1 (fun s => s).
Definition nas_encode_message_container : encoder := encode_lv 1 (fun s => s).
Definition nas_decode_security_algorithms : decoder := decode_v sizeof_security_algorithms (fun s => s).
Definition nas_encode_security_algorithms : encoder := encode_v sizeof_security_algorithms (fun s => s).
Definition nas_decode_network_name : decoder := decode_lv 1 (fun s => s).
Definition nas_encode_network_name : encoder := encode_lv 1 (fun s => s).
Definition nas_decode_network_resource_identifier_container : decoder := decode_lv 1 (fun s => s).
Definition nas_encode_network_resource_identifier_container : encoder := encode_lv 1 (fun s => s).
Definition nas_decode_nonce : decoder := decode_v sizeof_nonce (ntoh 0 4).
Definition nas_encode_nonce : encoder := encode_v sizeof_nonce (ntoh 0 4).
Definition nas_decode_paging_identity : decoder := decode_v sizeof_paging_identity (fun s => s).
Definition nas_encode_paging_identity : encoder := encode_v sizeof_paging_identity (fun s => s).
Definition nas_decode_extended_emm_cause : decoder := decode_tv1.
Definition nas_encode_extended_emm_cause : encoder := encode_v sizeof_extended_emm_cause (fun s => s).
Definition nas_decode_service_type : decoder := decode_v sizeof_service_type (fun s => s).
Definition nas_encode_service_type : encoder := encode_v sizeof_service_type (fun s => s).
Definition nas_decode_short_mac : decoder := decode_v sizeof_short_mac (ntoh 0 2).
Definition nas_encode_short_mac : encoder := encode_v sizeof_short_mac (ntoh 0 2).
Definition nas_decode_time_zone : decoder := decode_v sizeof_time_zone (fun s => s).
Definition nas_encode_time_zone : encoder := encode_v sizeof_time_zone (fun s => s).
Definition nas_decode_authentication_parameter_rand : decoder := decode_v sizeof_authentication_parameter_rand (fun s => s).
Definition nas_encode_authentication_parameter_rand : encoder := encode_v sizeof_authentication_parameter_rand (fun s => s).
Definition nas_decode_time_zone_and_time : decoder := decode_v sizeof_time_zone_and_time (fun s => s).
Definition nas_encode_time_zone_and_time : encoder := encode_v sizeof_time_zone_and_time (fun s => s).
Definition nas_decode_tmsi_status : decoder := decode_tv1.
Definition nas_encode_tmsi_status : encoder := encode_v sizeof_tmsi_status (fun s => s).
Definition nas_decode_tracking_area_identity : decoder := decode_v sizeof_tracking_area_identity (ntoh 3 2).
Definition nas_encode_tracking_area_identity : encoder := encode_v sizeof_tracking_area_identity (ntoh 3 2).
Definition nas_decode_tracking_area_identity_list : decoder := decode_lv 1 (fun s => s).
Definition nas_encode_tracking_area_identity_list : encoder := encode_lv 1 (fun s => s).
Definition nas_decode_ue_network_capability : decoder := decode_lv 1 (fun s => s).
Definition nas_encode_ue_network_capability : encoder := encode_lv 1 (fun s => s).
Definition nas_decode_ue_radio_capability_information_update_needed : decoder := decode_tv1.
Definition nas_encode_ue_radio_capability_information_update_needed : encoder := encode_v sizeof_ue_radio_capability_information_update_needed (fun s => s).
Definition nas_decode_ue_security_capability : decoder := decode_lv 1 (fun s => s).
Definition nas_encode_ue_security_capability : encoder := encode_lv 1 (fun s => s).
Definition nas_decode_emergency_number_list : decoder := decode_lv 2 (fun s => s).
Definition nas_encode_emergency_number_list : encoder := encode_lv 2 (fun s => s).
Definition nas_decode_cli : decoder := decode_lv 1 (fun s => s).
Definition nas_encode_cli : encoder := encode_lv 1 (fun s => s).
Definition nas_decode_ss_code : decoder := decode_v sizeof_ss_code (fun s => s).
Definition nas_encode_ss_code : encoder := encode_v sizeof_ss_code (fun s => s).
Definition nas_decode_authentication_response_parameter : decoder := decode_lv 1 (fun s => s).
Definition nas_encode_authentication_response_parameter : encoder := encode_lv 1 (fun s => s).
Definition nas_decode_lcs_indicator : decoder := decode_v sizeof_lcs_indicator (fun s => s).
Definition nas_encode_lcs_indicator : encoder := encode_v sizeof_lcs_indicator (fun s => s).
Definition nas_decode_lcs_client_identity : decoder := decode_lv 1 (fun s => s).
Definition nas_encode_lcs_client_identity : encoder := encode_lv 1 (fun s => s).
Definition nas_decode_generic_message_container_type : decoder := decode_v sizeof_generic_message_container_type (fun s => s).
Definition nas_encode_generic_message_container_type : encoder := encode_v sizeof_generic_message_container_type (fun s => s).
Definition nas_decode_generic_message_container : decoder := decode_container.
Definition nas_encode_generic_message_container : encoder := encode_container.
Definition nas_decode_voice_domain_preference_and_ue_usage_setting : decoder := decode_lv 1 (fun s => s).
Definition nas_encode_voice_domain_preference_and_ue_usage_setting : encoder := encode_lv 1 (fun s => s).
Definition nas_decode_guti_type : decoder := decode_tv1.
Definition nas_encode_guti_type : encoder := encode_v sizeof_guti_type (fun s => s).
Definition nas_decode_extended_drx_parameters : decoder := decode_lv 1 (fun s => s).
Definition nas_encode_extended_drx_parameters : encoder := encode_lv 1 (fun s => s).
Definition nas_decode_ciphering_key_sequence_number : decoder := decode_tv1.
Definition nas_encode_ciphering_key_sequence_number : encoder := encode_v sizeof_ciphering_key_sequence_number (fun s => s).
Definition nas_decode_csfb_response : decoder := decode_tv1.
Definition nas_encode_csfb_response : encoder := encode_v sizeof_csfb_response (fun s => s).
Definition nas_decode_daylight_saving_time : decoder := decode_lv 1 (fun s => s).
Definition nas_encode_daylight_saving_time : encoder := encode_lv 1 (fun s => s).
Definition nas_decode_detach_type : decoder := decode_v sizeof_detach_type (fun s => s).
Definition nas_encode_detach_type : encoder := encode_v sizeof_detach_type (fun s => s).
Definition nas_decode_drx_parameter : decoder := decode_v sizeof_drx_parameter (fun s => s).
Definition nas_encode_drx_parameter : encoder := encode_v sizeof_drx_parameter (fun s => s).
Definition nas_decode_emm_cause : decoder := decode_v sizeof_emm_cause (fun s => s).
Definition nas_encode_emm_cause : encoder := encode_v sizeof_emm_cause (fun s => s).
Definition nas_decode_protocol_configuration_options : decoder := decode_lv 1 (fun s => s).
Definition nas_encode_protocol_configuration_options : encoder := encode_lv 1 (fun s => s).
Definition nas_decode_quality_of_service : decoder := decode_lv 1 (fun s => s).
Definition nas_encode_quality_of_service : encoder := encode_lv 1 (fun s => s).
Definition nas_decode_radio_priority : decoder := decode_tv1.
Definition nas_encode_radio_priority : encoder := encode_v sizeof_radio_priority (fun s => s).
Definition nas_decode_re_attempt_indicator : decoder := decode_lv 1 (fun s => s).
Definition nas_encode_re_attempt_indicator : encoder := encode_lv 1 (fun s => s).
Definition nas_decode_request_type : decoder := decode_v sizeof_request_type (fun s => s).
Definition nas_encode_request_type : encoder := encode_v sizeof_request_type (fun s => s).
Definition nas_decode_traffic_flow_aggregate_description : decoder := decode_lv 1 (fun s => s).
Definition nas_encode_traffic_flow_aggregate_description : encoder := encode_lv 1 (fun s => s).
Definition nas_decode_traffic_flow_template : decoder := decode_lv 1 (fun s => s).
Definition nas_encode_traffic_flow_template : encoder := encode_lv 1 (fun s => s).
Definition nas_decode_transaction_identifier : decoder := decode_lv 1 (fun s => s).
Definition nas_encode_transaction_identifier : encoder := encode_lv 1 (fun s => s).
Definition nas_decode_wlan_offload_acceptability : decoder := decode_tv1.
Definition nas_encode_wlan_offload_acceptability : encoder := encode_v sizeof_wlan_offload_acceptability (fun s => s).
Definition nas_decode_nbifom_container : decoder := decode_lv 1 (fun s => s).
Definition nas_encode_nbifom_container : encoder := encode_lv 1 (fun s => s).
Definition nas_decode_apn_aggregate_maximum_bit_rate : decoder := decode_lv 1 (fun s => s).
Definition nas_encode_apn_aggregate_maximum_bit_rate : encoder := encode_lv 1 (fun s => s).
Definition nas_decode_header_compression_configuration : decoder := decode_lv 1 (ntoh 2 2).
Definition nas_encode_header_compression_configuration : encoder := encode_lv 1 (ntoh 2 2).
Definition nas_decode_control_plane_only_indication : decoder := decode_tv1.
Definition nas_encode_control_plane_only_indication : encoder := encode_v sizeof_control_plane_only_indication (fun s => s).
Definition nas_decode_extended_protocol_configuration_options : decoder := decode_container.
Definition nas_encode_extended_protocol_configuration_options : encoder := encode_container.
Definition nas_decode_header_compression_configuration_status : decoder := decode_lv 1 (fun s => s).
Definition nas_encode_header_compression_configuration_status : encoder := encode_lv 1 (fun s => s).
Definition nas_decode_serving_plmn_rate_control : decoder := decode_lv 1 (fun s => s).
Definition nas_encode_serving_plmn_rate_control : encoder := encode_lv 1 (fun s => s).
Definition nas_decode_connectivity_type : decoder := decode_tv1.
Definition nas_encode_connectivity_type : encoder := encode_v sizeof_connectivity_type (fun s => s).
Definition nas_decode_eps_quality_of_service : decoder := decode_lv 1 (fun s => s).
Definition nas_encode_eps_quality_of_service : encoder := encode_lv 1 (fun s => s).
Definition nas_decode_esm_cause : decoder := decode_v sizeof_esm_cause (fun s => s).
Definition nas_encode_esm_cause : encoder := encode_v sizeof_esm_cause (fun s => s).
Definition nas_decode_esm_information_transfer_flag : decoder := decode_tv1.
Definition nas_encode_esm_information_transfer_flag : encoder := encode_v sizeof_esm_information_transfer_flag (fun s => s).
Definition nas_decode_linked_eps_bearer_identity : decoder := decode_v sizeof_linked_eps_bearer_identity (fun s => s).
Definition nas_encode_linked_eps_bearer_identity : encoder := encode_v sizeof_linked_eps_bearer_identity (fun s => s).
Definition nas_decode_llc_service_access_point_identifier : decoder := decode_v sizeof_llc_service_access_point_identifier (fun s => s).
Definition nas_encode_llc_service_access_point_identifier : encoder := encode_v sizeof_llc_service_access_point_identifier (fun s => s).
Definition nas_decode_packet_flow_identifier : decoder := decode_lv 1 (fun s => s).
Definition nas_encode_packet_flow_identifier : encoder := encode_lv 1 (fun s => s).
Definition nas_decode_pdn_address : decoder := decode_lv 1 (fun s => s).
Definition nas_encode_pdn_address : encoder := encode_lv 1 (fun s => s).

End NasIes.
