(* ===== verification/NasMessage.v ===== *)
(** [lib/nas/nas_decoder.c] and [lib/nas/nas_encoder.c]: the steps that the
    functions for the messages are made of.  [NasDecoder] and [NasEncoder] hold the
    functions themselves, one for each message. *)

From stdpp Require Export strings.
From S2P Require Import Prelude Pkbuf NasIes.

Module NasMessage.
Import Pkbuf NasIes.

(** ** Messages *)

(** The structure of a message: the names of its fields and their sizes. *)
Definition struct : Type := list (string * nat).

(** A member of the union of a message, that is, a value of its structure. *)
Record body := mkBody { presencemask : Z; fields : gmap string ie }.

(** After [memset]. *)
Definition zero_fields (s : struct) : gmap string ie :=
  list_to_map (map (fun '(f, n) => (f, zero n)) s).
Definition zero_body (s : struct) : body := mkBody 0 (zero_fields s).

Definition set_field (m : body) (f : string) (v : ie) : body :=
  mkBody (presencemask m) (<[f := v]> (fields m)).
Definition set_present (m : body) (bit : Z) : body :=
  mkBody (presencemask m .| bit) (fields m).

(** [nas_message_t]: [emm.h] (two bytes) or [esm.h] (three), and the member of the
    union that the message type selects. *)
Record nas_message := mkMessage { hdr : list Z; nas : body }.

(** [nas_emm_header_t] and [nas_esm_header_t]. *)
Definition protocol_discriminator (h : list Z) : Z := rd h 0 .& 0xf.
Definition security_header_type (h : list Z) : Z := rd h 0 >> 4.
Definition emm_message_type (h : list Z) : Z := rd h 1.
Definition esm_message_type (h : list Z) : Z := rd h 2.

Definition NAS_HEADROOM : Z := 16.
Definition NAS_SECURITY_HEADER_FOR_SERVICE_REQUEST_MESSAGE : Z := 12.
Definition NAS_PROTOCOL_DISCRIMINATOR_ESM : Z := 0x2.
Definition NAS_PROTOCOL_DISCRIMINATOR_EMM : Z := 0x7.

(** ** Decoding *)

(** The function of a message: the bytes decoded or -1, the packet and the
    structure. *)
Definition message_decoder : Type := body -> buf -> option (Z * buf * body).

Definition decode_field (f : string) (d : decoder) : message_decoder := fun m b =>
  v ← fields m !! f;
  '(n, b, v) ← d v b;
  Some (n, b, set_field m f v).

(** The elements that are always there. *)
Fixpoint decode_mandatory (l : list (string * decoder)) (m : body) (b : buf) (decoded : Z)
  : option (Z * buf * body) :=
  match l with
  | [] => Some (decoded, b, m)
  | (f, d) :: l =>
      '(n, b, m) ← decode_field f d m b;
      if decide (n < 0) then Some (-1, b, m) else decode_mandatory l m b (decoded + n)
  end.

(** A case of the switch on the type of an element. *)
Record case := mkCase { c_type : Z; c_present : Z; c_field : string; c_decode : decoder }.

(** The loop on what is left of the packet.  Every iteration takes at least the
    octet of the type. *)
Fixpoint decode_optional (fuel : nat) (cases : list case) (m : body) (b : buf) (decoded : Z)
  : option (Z * buf * body) :=
  match fuel with
  | O => None
  | S fuel =>
      if decide (len (pk b) > 0) then
        src ← mload b (payload (pk b)) 1;
        let octet := rd src 0 in
        let type := if decide (0x80 <= octet) then octet .& 0xf0 else octet in
        let '(ok, b) := header b (-1) in
        if negb ok then Some (-1, b, m)
        else
          let decoded := decoded + 1 in
          match List.find (fun c => bool_decide (c_type c = type)) cases with
          | None => decode_optional fuel cases m b decoded
          | Some c =>
              '(n, b, m) ← decode_field (c_field c) (c_decode c) m b;
              if decide (n < 0) then Some (-1, b, m)
              else decode_optional fuel cases (set_present m (c_present c)) b (decoded + n)
          end
      else Some (decoded, b, m)
  end.

Definition decode_message (mandatory : list (string * decoder)) (cases : list case)
  : message_decoder := fun m b =>
  '(n, b, m) ← decode_mandatory mandatory m b 0;
  if decide (n < 0) then Some (-1, b, m)
  else decode_optional (S (Z.to_nat (len (pk b)))) cases m b n.

(** A message without optional elements. *)
Definition decode_fixed (mandatory : list (string * decoder)) : message_decoder := fun m b =>
  decode_mandatory mandatory m b 0.

(** A row of the switch on the message type: the member of the union, and the
    function called, if there is one. *)
Definition decode_switch : Type := list (Z * (struct * option message_decoder)).

Definition switch {A} (l : list (Z * A)) (type : Z) : option A :=
  snd <$> List.find (fun r => bool_decide (fst r = type)) l.

(** The end of both decoding functions: [size] is a [c_uint16_t], and so is
    [decoded]; [n] is what the function of the message returned. *)
Definition decode_out (h : list Z) (decoded : Z) (b : buf) (m : body)
  : option (bool * buf * nas_message) :=
  let '(ok, b) := header b (i16 decoded) in Some (ok, b, mkMessage h m).

Definition decode_call (h : list Z) (decoded : Z) (f : message_decoder) (s : struct) (b : buf)
  : option (bool * buf * nas_message) :=
  '(n, b, m) ← f (zero_body s) b;
  let size := u16 n in
  if decide (size >= 0) then decode_out h (u16 (decoded + size)) b m
  else Some (false, b, mkMessage h m).

(** The body of [nas_esm_decode], and of [nas_emm_decode] but for service requests:
    [size] is the size of the header and [message_type] a field of it. *)
Definition decode_by_type (message_type : list Z -> Z) (rows : decode_switch) (h : list Z) (b : buf)
  : option (bool * buf * nas_message) :=
  let decoded := Z.of_nat (length h) in
  match switch rows (message_type h) with
  | Some (s, Some f) => decode_call h decoded f s b
  | _ => decode_out h decoded b (zero_body [])
  end.

(** ** Encoding *)

Definition message_encoder : Type := buf -> body -> option (Z * buf * body).

Definition encode_field (f : string) (e : encoder) : message_encoder := fun b m =>
  v ← fields m !! f;
  '(n, b, v) ← e b v;
  Some (n, b, set_field m f v).

Fixpoint encode_mandatory (l : list (string * encoder)) (b : buf) (m : body) (encoded : Z)
  : option (Z * buf * body) :=
  match l with
  | [] => Some (encoded, b, m)
  | (f, e) :: l =>
      '(n, b, m) ← encode_field f e b m;
      if decide (n < 0) then Some (-1, b, m) else encode_mandatory l b m (encoded + n)
  end.

(** An element that is encoded when its bit is set; one of half an octet holds its
    type itself. *)
Record optional := mkOptional {
  o_present : Z; o_type : Z; o_field : string; o_encode : encoder; o_half : bool
}.

(** The assignment to the field [type], the high half of the octet. *)
Definition set_type (v : ie) (type : Z) : ie :=
  mkIe (<[0%nat := (rd (st v) 0 .& 0xf) .| ((type >> 4) << 4)]> (st v)) (buffer v).

(** An error ends the function with what has been encoded so far. *)
Fixpoint encode_optional (l : list optional) (b : buf) (m : body) (encoded : Z)
  : option (Z * buf * body) :=
  match l with
  | [] => Some (encoded, b, m)
  | o :: l =>
      if decide (presencemask m .& o_present o = 0) then encode_optional l b m encoded
      else if o_half o then
        v ← fields m !! o_field o;
        let m := set_field m (o_field o) (set_type v (o_type o)) in
        '(n, b, m) ← encode_field (o_field o) (o_encode o) b m;
        if decide (n < 0) then Some (encoded, b, m) else encode_optional l b m (encoded + n)
      else
        '(n, b) ← nas_encode_optional_type b (o_type o);
        if decide (n < 0) then Some (encoded, b, m)
        else
          let encoded := encoded + n in
          '(n, b, m) ← encode_field (o_field o) (o_encode o) b m;
          if decide (n < 0) then Some (encoded, b, m) else encode_optional l b m (encoded + n)
  end.

Definition encode_message (mandatory : list (string * encoder)) (options : list optional)
  : message_encoder := fun b m =>
  '(n, b, m) ← encode_mandatory mandatory b m 0;
  if decide (n < 0) then Some (-1, b, m) else encode_optional options b m n.

Definition encode_switch : Type := list (Z * option message_encoder).

(** The assignment to [pkbuf->len]. *)
Definition set_len (b : buf) (n : Z) : buf :=
  let p := pk b in
  mkBuf (mkPkbuf (next p) (clbuf p) (payload p) (tot_len p) (u16 n) (flags p)) (mem b).

(** The end of both encoding functions. *)
Definition encode_out (h : list Z) (encoded : Z) (b : buf) (m : body)
  : option (bool * option buf * nas_message) :=
  let '(ok, b) := header b (i16 encoded) in
  if negb ok then Some (false, Some b, mkMessage h m)
  else Some (true, Some (set_len b encoded), mkMessage h m).

Definition encode_call (h : list Z) (encoded : Z) (f : message_encoder) (b : buf) (m : body)
  : option (bool * option buf * nas_message) :=
  '(n, b, m) ← f b m;
  if decide (n >= 0) then encode_out h (encoded + n) b m
  else Some (false, Some b, mkMessage h m).

(** After the header has been written: the switch.  A type that it does not know
    frees the packet. *)
Definition encode_by_type (type : Z) (rows : encode_switch) (h : list Z) (b : buf) (m : body)
  : option (bool * option buf * nas_message) :=
  let encoded := Z.of_nat (length h) in
  match switch rows type with
  | None => Some (false, None, mkMessage h m)
  | Some None => encode_out h encoded b m
  | Some (Some f) => encode_call h encoded f b m
  end.

End NasMessage.
