(* ===== verification/NasTables.v ===== *)
(** [lib/nas/nas_message.h]: the structures of the messages and their types. *)

From S2P Require Import Prelude Pkbuf NasIes NasMessage.

Module NasTables.
Import NasIes NasMessage.

(** ** Message types *)

Definition NAS_ATTACH_REQUEST : Z := 65.
Definition NAS_ATTACH_ACCEPT : Z := 66.
Definition NAS_ATTACH_COMPLETE : Z := 67.
Definition NAS_ATTACH_REJECT : Z := 68.
Definition NAS_DETACH_REQUEST : Z := 69.
Definition NAS_DETACH_ACCEPT : Z := 70.
Definition NAS_TRACKING_AREA_UPDATE_REQUEST : Z := 72.
Definition NAS_TRACKING_AREA_UPDATE_ACCEPT : Z := 73.
Definition NAS_TRACKING_AREA_UPDATE_COMPLETE : Z := 74.
Definition NAS_TRACKING_AREA_UPDATE_REJECT : Z := 75.
Definition NAS_EXTENDED_SERVICE_REQUEST : Z := 76.
Definition NAS_SERVICE_REJECT : Z := 78.
Definition NAS_GUTI_REALLOCATION_COMMAND : Z := 80.
Definition NAS_GUTI_REALLOCATION_COMPLETE : Z := 81.
Definition NAS_AUTHENTICATION_REQUEST : Z := 82.
Definition NAS_AUTHENTICATION_RESPONSE : Z := 83.
Definition NAS_AUTHENTICATION_REJECT : Z := 84.
Definition NAS_IDENTITY_REQUEST : Z := 85.
Definition NAS_IDENTITY_RESPONSE : Z := 86.
Definition NAS_AUTHENTICATION_FAILURE : Z := 92.
Definition NAS_SECURITY_MODE_COMMAND : Z := 93.
Definition NAS_SECURITY_MODE_COMPLETE : Z := 94.
Definition NAS_SECURITY_MODE_REJECT : Z := 95.
Definition NAS_EMM_STATUS : Z := 96.
Definition NAS_EMM_INFORMATION : Z := 97.
Definition NAS_DOWNLINK_NAS_TRANSPORT : Z := 98.
Definition NAS_UPLINK_NAS_TRANSPORT : Z := 99.
Definition NAS_CS_SERVICE_NOTIFICATION : Z := 100.
Definition NAS_UPLINK_GENERIC_NAS_TRANSPORT : Z := 101.
Definition NAS_DOWNLINK_GENERIC_NAS_TRANSPORT : Z := 104.
Definition NAS_ACTIVATE_DEFAULT_EPS_BEARER_CONTEXT_REQUEST : Z := 193.
Definition NAS_ACTIVATE_DEFAULT_EPS_BEARER_CONTEXT_ACCEPT : Z := 194.
Definition NAS_ACTIVATE_DEFAULT_EPS_BEARER_CONTEXT_REJECT : Z := 195.
Definition NAS_ACTIVATE_DEDICATED_EPS_BEARER_CONTEXT_REQUEST : Z := 197.
Definition NAS_ACTIVATE_DEDICATED_EPS_BEARER_CONTEXT_ACCEPT : Z := 198.
Definition NAS_ACTIVATE_DEDICATED_EPS_BEARER_CONTEXT_REJECT : Z := 199.
Definition NAS_MODIFY_EPS_BEARER_CONTEXT_REQUEST : Z := 201.
Definition NAS_MODIFY_EPS_BEARER_CONTEXT_ACCEPT : Z := 202.
Definition NAS_MODIFY_EPS_BEARER_CONTEXT_REJECT : Z := 203.
Definition NAS_DEACTIVATE_EPS_BEARER_CONTEXT_REQUEST : Z := 205.
Definition NAS_DEACTIVATE_EPS_BEARER_CONTEXT_ACCEPT : Z := 206.
Definition NAS_PDN_CONNECTIVITY_REQUEST : Z := 208.
Definition NAS_PDN_CONNECTIVITY_REJECT : Z := 209.
Definition NAS_PDN_DISCONNECT_REQUEST : Z := 210.
Definition NAS_PDN_DISCONNECT_REJECT : Z := 211.
Definition NAS_BEARER_RESOURCE_ALLOCATION_REQUEST : Z := 212.
Definition NAS_BEARER_RESOURCE_ALLOCATION_REJECT : Z := 213.
Definition NAS_BEARER_RESOURCE_MODIFICATION_REQUEST : Z := 214.
Definition NAS_BEARER_RESOURCE_MODIFICATION_REJECT : Z := 215.
Definition NAS_ESM_INFORMATION_REQUEST : Z := 217.
Definition NAS_ESM_INFORMATION_RESPONSE : Z := 218.
Definition NAS_ESM_STATUS : Z := 232.

(** ** Structures *)

Definition nas_attach_request_t : struct :=
  [("eps_attach_type", sizeof_eps_attach_type);
   ("eps_mobile_identity", sizeof_eps_mobile_identity);
   ("ue_network_capability", sizeof_ue_network_capability);
   ("esm_message_container", sizeof_esm_message_container);
   ("old_p_tmsi_signature", sizeof_p_tmsi_signature);
   ("additional_guti", sizeof_eps_mobile_identity);
   ("last_visited_registered_tai", sizeof_tracking_area_identity);
   ("drx_parameter", sizeof_drx_parameter);
   ("ms_network_capability", sizeof_ms_network_capability);
   ("old_location_area_identification", sizeof_location_area_identification);
   ("tmsi_status", sizeof_tmsi_status);
   ("mobile_station_classmark_2", sizeof_mobile_station_classmark_2);
   ("mobile_station_classmark_3", sizeof_mobile_station_classmark_3);
   ("supported_codecs", sizeof_supported_codec_list);
   ("additional_update_type", sizeof_additional_update_type);
   ("voice_domain_preference_and_ue_usage_setting", sizeof_voice_domain_preference_and_ue_usage_setting);
   ("device_properties", sizeof_device_properties);
   ("old_guti_type", sizeof_guti_type);
   ("ms_network_feature_support", sizeof_ms_network_feature_support);
   ("tmsi_based_nri_container", sizeof_network_resource_identifier_container);
   ("t3324_value", sizeof_gprs_timer_2);
   ("t3412_extended_value", sizeof_gprs_timer_3);
   ("extended_drx_parameters", sizeof_extended_drx_parameters)].

Definition nas_attach_accept_t : struct :=
  [("eps_attach_result", sizeof_eps_attach_result);
   ("t3412_value", sizeof_gprs_timer);
   ("tai_list", sizeof_tracking_area_identity_list);
   ("esm_message_container", sizeof_esm_message_container);
   ("guti", sizeof_eps_mobile_identity);
   ("location_area_identification", sizeof_location_area_identification);
   ("ms_identity", sizeof_mobile_identity);
   ("emm_cause", sizeof_emm_cause);
   ("t3402_value", sizeof_gprs_timer);
   ("t3423_value", sizeof_gprs_timer);
   ("equivalent_plmns", sizeof_plmn_list);
   ("emergency_number_list", sizeof_emergency_number_list);
   ("eps_network_feature_support", sizeof_eps_network_feature_support);
   ("additional_update_result", sizeof_additional_update_result);
   ("t3412_extended_value", sizeof_gprs_timer_3);
   ("t3324_value", sizeof_gprs_timer_2);
   ("extended_drx_parameters", sizeof_extended_drx_parameters)].

Definition nas_attach_complete_t : struct :=
  [("esm_message_container", sizeof_esm_message_container)].

Definition nas_attach_reject_t : struct :=
  [("emm_cause", sizeof_emm_cause);
   ("esm_message_container", sizeof_esm_message_container);
   ("t3346_value", sizeof_gprs_timer_2);
   ("t3402_value", sizeof_gprs_timer_2);
   ("extended_emm_cause", sizeof_extended_emm_cause)].

Definition nas_detach_request_from_ue_t : struct :=
  [("detach_type", sizeof_detach_type);
   ("eps_mobile_identity", sizeof_eps_mobile_identity)].

Definition nas_detach_request_to_ue_t : struct :=
  [("detach_type", sizeof_detach_type);
   ("emm_cause", sizeof_emm_cause)].

Definition nas_tracking_area_update_request_t : struct :=
  [("eps_update_type", sizeof_eps_update_type);
   ("old_guti", sizeof_eps_mobile_identity);
   ("non_current_native_nas_key_set_identifier", sizeof_key_set_identifier);
   ("gprs_ciphering_key_sequence_number", sizeof_ciphering_key_sequence_number);
   ("old_p_tmsi_signature", sizeof_p_tmsi_signature);
   ("additional_guti", sizeof_eps_mobile_identity);
   ("nonceue", sizeof_nonce);
   ("ue_network_capability", sizeof_ue_network_capability);
   ("last_visited_registered_tai", sizeof_tracking_area_identity);
   ("drx_parameter", sizeof_drx_parameter);
   ("ue_radio_capability_information_update_needed", sizeof_ue_radio_capability_information_update_needed);
   ("eps_bearer_context_status", sizeof_eps_bearer_context_status);
   ("ms_network_capability", sizeof_ms_network_capability);
   ("old_location_area_identification", sizeof_location_area_identification);
   ("tmsi_status", sizeof_tmsi_status);
   ("mobile_station_classmark_2", sizeof_mobile_station_classmark_2);
   ("mobile_station_classmark_3", sizeof_mobile_station_classmark_3);
   ("supported_codecs", sizeof_supported_codec_list);
   ("additional_update_type", sizeof_additional_update_type);
   ("voice_domain_preference_and_ue_usage_setting", sizeof_voice_domain_preference_and_ue_usage_setting);
   ("old_guti_type", sizeof_guti_type);
   ("device_properties", sizeof_device_properties);
   ("ms_network_feature_support", sizeof_ms_network_feature_support);
   ("tmsi_based_nri_container", sizeof_network_resource_identifier_container);
   ("t3324_value", sizeof_gprs_timer_2);
   ("t3412_extended_value", sizeof_gprs_timer_3);
   ("extended_drx_parameters", sizeof_extended_drx_parameters)].

Definition nas_tracking_area_update_accept_t : struct :=
  [("eps_update_result", sizeof_eps_update_result);
   ("t3412_value", sizeof_gprs_timer);
   ("guti", sizeof_eps_mobile_identity);
   ("tai_list", sizeof_tracking_area_identity_list);
   ("eps_bearer_context_status", sizeof_eps_bearer_context_status);
   ("location_area_identification", sizeof_location_area_identification);
   ("ms_identity", sizeof_mobile_identity);
   ("emm_cause", sizeof_emm_cause);
   ("t3402_value", sizeof_gprs_timer);
   ("t3423_value", sizeof_gprs_timer);
   ("equivalent_plmns", sizeof_plmn_list);
   ("emergency_number_list", sizeof_emergency_number_list);
   ("eps_network_feature_support", sizeof_eps_network_feature_support);
   ("additional_update_result", sizeof_additional_update_result);
   ("t3412_extended_value", sizeof_gprs_timer_3);
   ("t3324_value", sizeof_gprs_timer_2);
   ("extended_drx_parameters", sizeof_extended_drx_parameters);
   ("header_compression_configuration_status", sizeof_header_compression_configuration_status)].

Definition nas_tracking_area_update_reject_t : struct :=
  [("emm_cause", sizeof_emm_cause);
   ("t3346_value", sizeof_gprs_timer_2);
   ("extended_emm_cause", sizeof_extended_emm_cause)].

Definition nas_extended_service_request_t : struct :=
  [("service_type", sizeof_service_type);
   ("m_tmsi", sizeof_mobile_identity);
   ("csfb_response", sizeof_csfb_response);
   ("eps_bearer_context_status", sizeof_eps_bearer_context_status);
   ("device_properties", sizeof_device_properties)].

Definition nas_service_request_t : struct :=
  [("ksi_and_sequence_number", sizeof_ksi_and_sequence_number);
   ("message_authentication_code", sizeof_short_mac)].

Definition nas_service_reject_t : struct :=
  [("emm_cause", sizeof_emm_cause);
   ("t3442_value", sizeof_gprs_timer);
   ("t3346_value", sizeof_gprs_timer_2)].

Definition nas_guti_reallocation_command_t : struct :=
  [("guti", sizeof_eps_mobile_identity);
   ("tai_list", sizeof_tracking_area_identity_list)].

Definition nas_authentication_request_t : struct :=
  [("nas_key_set_identifierasme", sizeof_key_set_identifier);
   ("authentication_parameter_rand", sizeof_authentication_parameter_rand);
   ("authentication_parameter_autn", sizeof_authentication_parameter_autn)].

Definition nas_authentication_response_t : struct :=
  [("authentication_response_parameter", sizeof_authentication_response_parameter)].

Definition nas_identity_request_t : struct :=
  [("identity_type", sizeof_identity_type_2)].

Definition nas_identity_response_t : struct :=
  [("mobile_identity", sizeof_mobile_identity)].

Definition nas_authentication_failure_t : struct :=
  [("emm_cause", sizeof_emm_cause);
   ("authentication_failure_parameter", sizeof_authentication_failure_parameter)].

Definition nas_security_mode_command_t : struct :=
  [("selected_nas_security_algorithms", sizeof_security_algorithms);
   ("nas_key_set_identifier", sizeof_key_set_identifier);
   ("replayed_ue_security_capabilities", sizeof_ue_security_capability);
   ("imeisv_request", sizeof_imeisv_request);
   ("replayed_nonceue", sizeof_nonce);
   ("noncemme", sizeof_nonce)].

Definition nas_security_mode_complete_t : struct :=
  [("imeisv", sizeof_mobile_identity)].

Definition nas_security_mode_reject_t : struct :=
  [("emm_cause", sizeof_emm_cause)].

Definition nas_emm_status_t : struct :=
  [("emm_cause", sizeof_emm_cause)].

Definition nas_emm_information_t : struct :=
  [("full_name_for_network", sizeof_network_name);
   ("short_name_for_network", sizeof_network_name);
   ("local_time_zone", sizeof_time_zone);
   ("universal_time_and_local_time_zone", sizeof_time_zone_and_time);
   ("network_daylight_saving_time", sizeof_daylight_saving_time)].

Definition nas_downlink_nas_transport_t : struct :=
  [("nas_message_container", sizeof_message_container)].

Definition nas_uplink_nas_transport_t : struct :=
  [("nas_message_container", sizeof_message_container)].

Definition nas_cs_service_notification_t : struct :=
  [("paging_identity", sizeof_paging_identity);
   ("cli", sizeof_cli);
   ("ss_code", sizeof_ss_code);
   ("lcs_indicator", sizeof_lcs_indicator);
   ("lcs_client_identity", sizeof_lcs_client_identity)].

Definition nas_uplink_generic_nas_transport_t : struct :=
  [("generic_message_container_type", sizeof_generic_message_container_type);
   ("generic_message_container", sizeof_generic_message_container);
   ("additional_information", sizeof_additional_information)].

Definition nas_downlink_generic_nas_transport_t : struct :=
  [("generic_message_container_type", sizeof_generic_message_container_type);
   ("generic_message_container", sizeof_generic_message_container);
   ("additional_information", sizeof_additional_information)].

Definition nas_activate_default_eps_bearer_context_request_t : struct :=
  [("eps_qos", sizeof_eps_quality_of_service);
   ("access_point_name", sizeof_access_point_name);
   ("pdn_address", sizeof_pdn_address);
   ("transaction_identifier", sizeof_transaction_identifier);
   ("negotiated_qos", sizeof_quality_of_service);
   ("negotiated_llc_sapi", sizeof_llc_service_access_point_identifier);
   ("radio_priority", sizeof_radio_priority);
   ("packet_flow_identifier", sizeof_packet_flow_identifier);
   ("apn_ambr", sizeof_apn_aggregate_maximum_bit_rate);
   ("esm_cause", sizeof_esm_cause);
   ("protocol_configuration_options", sizeof_protocol_configuration_options);
   ("connectivity_type", sizeof_connectivity_type);
   ("wlan_offload_indication", sizeof_wlan_offload_acceptability);
   ("nbifom_container", sizeof_nbifom_container);
   ("header_compression_configuration", sizeof_header_compression_configuration);
   ("control_plane_only_indication", sizeof_control_plane_only_indication);
   ("extended_protocol_configuration_options", sizeof_extended_protocol_configuration_options);
   ("serving_plmn_rate_control", sizeof_serving_plmn_rate_control)].

Definition nas_activate_default_eps_bearer_context_accept_t : struct :=
  [("protocol_configuration_options", sizeof_protocol_configuration_options);
   ("extended_protocol_configuration_options", sizeof_extended_protocol_configuration_options)].

Definition nas_activate_default_eps_bearer_context_reject_t : struct :=
  [("esm_cause", sizeof_esm_cause);
   ("protocol_configuration_options", sizeof_protocol_configuration_options);
   ("extended_protocol_configuration_options", sizeof_extended_protocol_configuration_options)].

Definition nas_activate_dedicated_eps_bearer_context_request_t : struct :=
  [("linked_eps_bearer_identity", sizeof_linked_eps_bearer_identity);
   ("eps_qos", sizeof_eps_quality_of_service);
   ("tft", sizeof_traffic_flow_template);
   ("transaction_identifier", sizeof_transaction_identifier);
   ("negotiated_qos", sizeof_quality_of_service);
   ("negotiated_llc_sapi", sizeof_llc_service_access_point_identifier);
   ("radio_priority", sizeof_radio_priority);
   ("packet_flow_identifier", sizeof_packet_flow_identifier);
   ("protocol_configuration_options", sizeof_protocol_configuration_options);
   ("wlan_offload_indication", sizeof_wlan_offload_acceptability);
   ("nbifom_container", sizeof_nbifom_container);
   ("extended_protocol_configuration_options", sizeof_extended_protocol_configuration_options)].

Definition nas_activate_dedicated_eps_bearer_context_accept_t : struct :=
  [("protocol_configuration_options", sizeof_protocol_configuration_options);
   ("nbifom_container", sizeof_nbifom_container);
   ("extended_protocol_configuration_options", sizeof_extended_protocol_configuration_options)].

Definition nas_activate_dedicated_eps_bearer_context_reject_t : struct :=
  [("esm_cause", sizeof_esm_cause);
   ("protocol_configuration_options", sizeof_protocol_configuration_options);
   ("nbifom_container", sizeof_nbifom_container);
   ("extended_protocol_configuration_options", sizeof_extended_protocol_configuration_options)].

Definition nas_modify_eps_bearer_context_request_t : struct :=
  [("new_eps_qos", sizeof_eps_quality_of_service);
   ("tft", sizeof_traffic_flow_template);
   ("new_qos", sizeof_quality_of_service);
   ("negotiated_llc_sapi", sizeof_llc_service_access_point_identifier);
   ("radio_priority", sizeof_radio_priority);
   ("packet_flow_identifier", sizeof_packet_flow_identifier);
   ("apn_ambr", sizeof_apn_aggregate_maximum_bit_rate);
   ("protocol_configuration_options", sizeof_protocol_configuration_options);
   ("wlan_offload_indication", sizeof_wlan_offload_acceptability);
   ("nbifom_container", sizeof_nbifom_container);
   ("header_compression_configuration", sizeof_header_compression_configuration);
   ("extended_protocol_configuration_options", sizeof_extended_protocol_configuration_options)].

Definition nas_modify_eps_bearer_context_accept_t : struct :=
  [("protocol_configuration_options", sizeof_protocol_configuration_options);
   ("nbifom_container", sizeof_nbifom_container);
   ("extended_protocol_configuration_options", sizeof_extended_protocol_configuration_options)].

Definition nas_modify_eps_bearer_context_reject_t : struct :=
  [("esm_cause", sizeof_esm_cause);
   ("protocol_configuration_options", sizeof_protocol_configuration_options);
   ("nbifom_container", sizeof_nbifom_container);
   ("extended_protocol_configuration_options", sizeof_extended_protocol_configuration_options)].

Definition nas_deactivate_eps_bearer_context_request_t : struct :=
  [("esm_cause", sizeof_esm_cause);
   ("protocol_configuration_options", sizeof_protocol_configuration_options);
   ("t3396_value", sizeof_gprs_timer_3);
   ("wlan_offload_indication", sizeof_wlan_offload_acceptability);
   ("nbifom_container", sizeof_nbifom_container);
   ("extended_protocol_configuration_options", sizeof_extended_protocol_configuration_options)].

Definition nas_deactivate_eps_bearer_context_accept_t : struct :=
  [("protocol_configuration_options", sizeof_protocol_configuration_options);
   ("extended_protocol_configuration_options", sizeof_extended_protocol_configuration_options)].

Definition nas_pdn_connectivity_request_t : struct :=
  [("request_type", sizeof_request_type);
   ("esm_information_transfer_flag", sizeof_esm_information_transfer_flag);
   ("access_point_name", sizeof_access_point_name);
   ("protocol_configuration_options", sizeof_protocol_configuration_options);
   ("device_properties", sizeof_device_properties);
   ("nbifom_container", sizeof_nbifom_container);
   ("header_compression_configuration", sizeof_header_compression_configuration);
   ("extended_protocol_configuration_options", sizeof_extended_protocol_configuration_options)].

Definition nas_pdn_connectivity_reject_t : struct :=
  [("esm_cause", sizeof_esm_cause);
   ("protocol_configuration_options", sizeof_protocol_configuration_options);
   ("back_off_timer_value", sizeof_gprs_timer_3);
   ("re_attempt_indicator", sizeof_re_attempt_indicator);
   ("nbifom_container", sizeof_nbifom_container);
   ("extended_protocol_configuration_options", sizeof_extended_protocol_configuration_options)].

Definition nas_pdn_disconnect_request_t : struct :=
  [("linked_eps_bearer_identity", sizeof_linked_eps_bearer_identity);
   ("protocol_configuration_options", sizeof_protocol_configuration_options);
   ("extended_protocol_configuration_options", sizeof_extended_protocol_configuration_options)].

Definition nas_pdn_disconnect_reject_t : struct :=
  [("esm_cause", sizeof_esm_cause);
   ("protocol_configuration_options", sizeof_protocol_configuration_options);
   ("extended_protocol_configuration_options", sizeof_extended_protocol_configuration_options)].

Definition nas_bearer_resource_allocation_request_t : struct :=
  [("linked_eps_bearer_identity", sizeof_linked_eps_bearer_identity);
   ("traffic_flow_aggregate", sizeof_traffic_flow_aggregate_description);
   ("required_traffic_flow_qos", sizeof_eps_quality_of_service);
   ("protocol_configuration_options", sizeof_protocol_configuration_options);
   ("device_properties", sizeof_device_properties);
   ("nbifom_container", sizeof_nbifom_container);
   ("extended_protocol_configuration_options", sizeof_extended_protocol_configuration_options)].

Definition nas_bearer_resource_allocation_reject_t : struct :=
  [("esm_cause", sizeof_esm_cause);
   ("protocol_configuration_options", sizeof_protocol_configuration_options);
   ("back_off_timer_value", sizeof_gprs_timer_3);
   ("re_attempt_indicator", sizeof_re_attempt_indicator);
   ("nbifom_container", sizeof_nbifom_container);
   ("extended_protocol_configuration_options", sizeof_extended_protocol_configuration_options)].

Definition nas_bearer_resource_modification_request_t : struct :=
  [("eps_bearer_identity_for_packet_filter", sizeof_linked_eps_bearer_identity);
   ("traffic_flow_aggregate", sizeof_traffic_flow_aggregate_description);
   ("required_traffic_flow_qos", sizeof_eps_quality_of_service);
   ("esm_cause", sizeof_esm_cause);
   ("protocol_configuration_options", sizeof_protocol_configuration_options);
   ("device_properties", sizeof_device_properties);
   ("nbifom_container", sizeof_nbifom_container);
   ("header_compression_configuration", sizeof_header_compression_configuration);
   ("extended_protocol_configuration_options", sizeof_extended_protocol_configuration_options)].

Definition nas_bearer_resource_modification_reject_t : struct :=
  [("esm_cause", sizeof_esm_cause);
   ("protocol_configuration_options", sizeof_protocol_configuration_options);
   ("back_off_timer_value", sizeof_gprs_timer_3);
   ("re_attempt_indicator", sizeof_re_attempt_indicator);
   ("nbifom_container", sizeof_nbifom_container);
   ("extended_protocol_configuration_options", sizeof_extended_protocol_configuration_options)].

Definition nas_esm_information_response_t : struct :=
  [("access_point_name", sizeof_access_point_name);
   ("protocol_configuration_options", sizeof_protocol_configuration_options);
   ("extended_protocol_configuration_options", sizeof_extended_protocol_configuration_options)].

Definition nas_esm_status_t : struct :=
  [("esm_cause", sizeof_esm_cause)].

End NasTables.
