(* ===== verification/NasDecoder.v ===== *)
(** [lib/nas/nas_decoder.c]: the decoding functions of the messages.  A case has
    the type of its element, its bit in [presencemask], the field it fills and the
    function it calls. *)

From S2P Require Import Prelude Pkbuf NasIes NasMessage NasTables.

Module NasDecoder.
Import Pkbuf NasIes NasMessage NasTables.
#[local] Open Scope Z_scope.

Definition nas_decode_attach_request : message_decoder :=
  decode_message
    [("eps_attach_type", nas_decode_eps_attach_type);
     ("eps_mobile_identity", nas_decode_eps_mobile_identity);
     ("ue_network_capability", nas_decode_ue_network_capability);
     ("esm_message_container", nas_decode_esm_message_container)]
    [mkCase 0x19 0x1 "old_p_tmsi_signature" nas_decode_p_tmsi_signature;
     mkCase 0x50 0x2 "additional_guti" nas_decode_eps_mobile_identity;
     mkCase 0x52 0x4 "last_visited_registered_tai" nas_decode_tracking_area_identity;
     mkCase 0x5c 0x8 "drx_parameter" nas_decode_drx_parameter;
     mkCase 0x31 0x10 "ms_network_capability" nas_decode_ms_network_capability;
     mkCase 0x13 0x20 "old_location_area_identification" nas_decode_location_area_identification;
     mkCase 0x90 0x40 "tmsi_status" nas_decode_tmsi_status;
     mkCase 0x11 0x80 "mobile_station_classmark_2" nas_decode_mobile_station_classmark_2;
     mkCase 0x20 0x100 "mobile_station_classmark_3" nas_decode_mobile_station_classmark_3;
     mkCase 0x40 0x200 "supported_codecs" nas_decode_supported_codec_list;
     mkCase 0xf0 0x400 "additional_update_type" nas_decode_additional_update_type;
     mkCase 0x5d 0x800 "voice_domain_preference_and_ue_usage_setting" nas_decode_voice_domain_preference_and_ue_usage_setting;
     mkCase 0xd0 0x1000 "device_properties" nas_decode_device_properties;
     mkCase 0xe0 0x2000 "old_guti_type" nas_decode_guti_type;
     mkCase 0xc0 0x4000 "ms_network_feature_support" nas_decode_ms_network_feature_support;
     mkCase 0x10 0x8000 "tmsi_based_nri_container" nas_decode_network_resource_identifier_container;
     mkCase 0x6a 0x10000 "t3324_value" nas_decode_gprs_timer_2;
     mkCase 0x5e 0x20000 "t3412_extended_value" nas_decode_gprs_timer_3;
     mkCase 0x6e 0x40000 "extended_drx_parameters" nas_decode_extended_drx_parameters].

Definition nas_decode_attach_accept : message_decoder :=
  decode_message
    [("eps_attach_result", nas_decode_eps_attach_result);
     ("t3412_value", nas_decode_gprs_timer);
     ("tai_list", nas_decode_tracking_area_identity_list);
     ("esm_message_container", nas_decode_esm_message_container)]
    [mkCase 0x50 0x1 "guti" nas_decode_eps_mobile_identity;
     mkCase 0x13 0x2 "location_area_identification" nas_decode_location_area_identification;
     mkCase 0x23 0x4 "ms_identity" nas_decode_mobile_identity;
     mkCase 0x53 0x8 "emm_cause" nas_decode_emm_cause;
     mkCase 0x17 0x10 "t3402_value" nas_decode_gprs_timer;
     mkCase 0x59 0x20 "t3423_value" nas_decode_gprs_timer;
     mkCase 0x4a 0x40 "equivalent_plmns" nas_decode_plmn_list;
     mkCase 0x34 0x80 "emergency_number_list" nas_decode_emergency_number_list;
     mkCase 0x64 0x100 "eps_network_feature_support" nas_decode_eps_network_feature_support;
     mkCase 0xf0 0x200 "additional_update_result" nas_decode_additional_update_result;
     mkCase 0x5e 0x400 "t3412_extended_value" nas_decode_gprs_timer_3;
     mkCase 0x6a 0x800 "t3324_value" nas_decode_gprs_timer_2;
     mkCase 0x6e 0x1000 "extended_drx_parameters" nas_decode_extended_drx_parameters].

Definition nas_decode_attach_complete : message_decoder :=
  decode_fixed
    [("esm_message_container", nas_decode_esm_message_container)].

Definition nas_decode_attach_reject : message_decoder :=
  decode_message
    [("emm_cause", nas_decode_emm_cause)]
    [mkCase 0x78 0x1 "esm_message_container" nas_decode_esm_message_container;
     mkCase 0x5f 0x2 "t3346_value" nas_decode_gprs_timer_2;
     mkCase 0x16 0x4 "t3402_value" nas_decode_gprs_timer_2;
     mkCase 0xa0 0x8 "extended_emm_cause" nas_decode_extended_emm_cause].

Definition nas_decode_detach_request_from_ue : message_decoder :=
  decode_fixed
    [("detach_type", nas_decode_detach_type);
     ("eps_mobile_identity", nas_decode_eps_mobile_identity)].

Definition nas_decode_detach_request_to_ue : message_decoder :=
  decode_message
    [("detach_type", nas_decode_detach_type)]
    [mkCase 0x53 0x1 "emm_cause" nas_decode_emm_cause].

Definition nas_decode_tracking_area_update_request : message_decoder :=
  decode_message
    [("eps_update_type", nas_decode_eps_update_type);
     ("old_guti", nas_decode_eps_mobile_identity)]
    [mkCase 0xb0 0x1 "non_current_native_nas_key_set_identifier" nas_decode_key_set_identifier;
     mkCase 0x80 0x2 "gprs_ciphering_key_sequence_number" nas_decode_ciphering_key_sequence_number;
     mkCase 0x19 0x4 "old_p_tmsi_signature" nas_decode_p_tmsi_signature;
     mkCase 0x50 0x8 "additional_guti" nas_decode_eps_mobile_identity;
     mkCase 0x55 0x10 "nonceue" nas_decode_nonce;
     mkCase 0x58 0x20 "ue_network_capability" nas_decode_ue_network_capability;
     mkCase 0x52 0x40 "last_visited_registered_tai" nas_decode_tracking_area_identity;
     mkCase 0x5c 0x80 "drx_parameter" nas_decode_drx_parameter;
     mkCase 0xa0 0x100 "ue_radio_capability_information_update_needed" nas_decode_ue_radio_capability_information_update_needed;
     mkCase 0x57 0x200 "eps_bearer_context_status" nas_decode_eps_bearer_context_status;
     mkCase 0x31 0x400 "ms_network_capability" nas_decode_ms_network_capability;
     mkCase 0x13 0x800 "old_location_area_identification" nas_decode_location_area_identification;
     mkCase 0x90 0x1000 "tmsi_status" nas_decode_tmsi_status;
     mkCase 0x11 0x2000 "mobile_station_classmark_2" nas_decode_mobile_station_classmark_2;
     mkCase 0x20 0x4000 "mobile_station_classmark_3" nas_decode_mobile_station_classmark_3;
     mkCase 0x40 0x8000 "supported_codecs" nas_decode_supported_codec_list;
     mkCase 0xf0 0x10000 "additional_update_type" nas_decode_additional_update_type;
     mkCase 0x5d 0x20000 "voice_domain_preference_and_ue_usage_setting" nas_decode_voice_domain_preference_and_ue_usage_setting;
     mkCase 0xe0 0x40000 "old_guti_type" nas_decode_guti_type;
     mkCase 0xd0 0x80000 "device_properties" nas_decode_device_properties;
     mkCase 0xc0 0x100000 "ms_network_feature_support" nas_decode_ms_network_feature_support;
     mkCase 0x10 0x200000 "tmsi_based_nri_container" nas_decode_network_resource_identifier_container;
     mkCase 0x6a 0x400000 "t3324_value" nas_decode_gprs_timer_2;
     mkCase 0x5e 0x800000 "t3412_extended_value" nas_decode_gprs_timer_3;
     mkCase 0x6e 0x1000000 "extended_drx_parameters" nas_decode_extended_drx_parameters].

Definition nas_decode_tracking_area_update_accept : message_decoder :=
  decode_message
    [("eps_update_result", nas_decode_eps_update_result)]
    [mkCase 0x5a 0x1 "t3412_value" nas_decode_gprs_timer;
     mkCase 0x50 0x2 "guti" nas_decode_eps_mobile_identity;
     mkCase 0x54 0x4 "tai_list" nas_decode_tracking_area_identity_list;
     mkCase 0x57 0x8 "eps_bearer_context_status" nas_decode_eps_bearer_context_status;
     mkCase 0x13 0x10 "location_area_identification" nas_decode_location_area_identification;
     mkCase 0x23 0x20 "ms_identity" nas_decode_mobile_identity;
     mkCase 0x53 0x40 "emm_cause" nas_decode_emm_cause;
     mkCase 0x17 0x80 "t3402_value" nas_decode_gprs_timer;
     mkCase 0x59 0x100 "t3423_value" nas_decode_gprs_timer;
     mkCase 0x4a 0x200 "equivalent_plmns" nas_decode_plmn_list;
     mkCase 0x34 0x400 "emergency_number_list" nas_decode_emergency_number_list;
     mkCase 0x64 0x800 "eps_network_feature_support" nas_decode_eps_network_feature_support;
     mkCase 0xf0 0x1000 "additional_update_result" nas_decode_additional_update_result;
     mkCase 0x5e 0x2000 "t3412_extended_value" nas_decode_gprs_timer_3;
     mkCase 0x6a 0x4000 "t3324_value" nas_decode_gprs_timer_2;
     mkCase 0x6e 0x8000 "extended_drx_parameters" nas_decode_extended_drx_parameters;
     mkCase 0x68 0x10000 "header_compression_configuration_status" nas_decode_header_compression_configuration_status].

Definition nas_decode_tracking_area_update_reject : message_decoder :=
  decode_message
    [("emm_cause", nas_decode_emm_cause)]
    [mkCase 0x5f 0x1 "t3346_value" nas_decode_gprs_timer_2;
     mkCase 0xa0 0x2 "extended_emm_cause" nas_decode_extended_emm_cause].

Definition nas_decode_extended_service_request : message_decoder :=
  decode_message
    [("service_type", nas_decode_service_type);
     ("m_tmsi", nas_decode_mobile_identity)]
    [mkCase 0xb0 0x1 "csfb_response" nas_decode_csfb_response;
     mkCase 0x57 0x2 "eps_bearer_context_status" nas_decode_eps_bearer_context_status;
     mkCase 0xd0 0x4 "device_properties" nas_decode_device_properties].

Definition nas_decode_service_request : message_decoder :=
  decode_fixed
    [("ksi_and_sequence_number", nas_decode_ksi_and_sequence_number);
     ("message_authentication_code", nas_decode_short_mac)].

Definition nas_decode_service_reject : message_decoder :=
  decode_message
    [("emm_cause", nas_decode_emm_cause)]
    [mkCase 0x5f 0x1 "t3346_value" nas_decode_gprs_timer_2].

Definition nas_decode_guti_reallocation_command : message_decoder :=
  decode_message
    [("guti", nas_decode_eps_mobile_identity)]
    [mkCase 0x54 0x1 "tai_list" nas_decode_tracking_area_identity_list].

Definition nas_decode_authentication_request : message_decoder :=
  decode_fixed
    [("nas_key_set_identifierasme", nas_decode_key_set_identifier);
     ("authentication_parameter_rand", nas_decode_authentication_parameter_rand);
     ("authentication_parameter_autn", nas_decode_authentication_parameter_autn)].

Definition nas_decode_authentication_response : message_decoder :=
  decode_fixed
    [("authentication_response_parameter", nas_decode_authentication_response_parameter)].

Definition nas_decode_identity_request : message_decoder :=
  decode_fixed
    [("identity_type", nas_decode_identity_type_2)].

Definition nas_decode_identity_response : message_decoder :=
  decode_fixed
    [("mobile_identity", nas_decode_mobile_identity)].

Definition nas_decode_authentication_failure : message_decoder :=
  decode_message
    [("emm_cause", nas_decode_emm_cause)]
    [mkCase 0x30 0x1 "authentication_failure_parameter" nas_decode_authentication_failure_parameter].

Definition nas_decode_security_mode_command : message_decoder :=
  decode_message
    [("selected_nas_security_algorithms", nas_decode_security_algorithms);
     ("nas_key_set_identifier", nas_decode_key_set_identifier);
     ("replayed_ue_security_capabilities", nas_decode_ue_security_capability)]
    [mkCase 0xc0 0x1 "imeisv_request" nas_decode_imeisv_request;
     mkCase 0x55 0x2 "replayed_nonceue" nas_decode_nonce;
     mkCase 0x56 0x4 "noncemme" nas_decode_nonce].

Definition nas_decode_security_mode_complete : message_decoder :=
  decode_message
    []
    [mkCase 0x23 0x1 "imeisv" nas_decode_mobile_identity].

Definition nas_decode_security_mode_reject : message_decoder :=
  decode_fixed
    [("emm_cause", nas_decode_emm_cause)].

Definition nas_decode_emm_status : message_decoder :=
  decode_fixed
    [("emm_cause", nas_decode_emm_cause)].

Definition nas_decode_emm_information : message_decoder :=
  decode_message
    []
    [mkCase 0x43 0x1 "full_name_for_network" nas_decode_network_name;
     mkCase 0x45 0x2 "short_name_for_network" nas_decode_network_name;
     mkCase 0x46 0x4 "local_time_zone" nas_decode_time_zone;
     mkCase 0x47 0x8 "universal_time_and_local_time_zone" nas_decode_time_zone_and_time;
     mkCase 0x49 0x10 "network_daylight_saving_time" nas_decode_daylight_saving_time].

Definition nas_decode_downlink_nas_transport : message_decoder :=
  decode_fixed
    [("nas_message_container", nas_decode_message_container)].

Definition nas_decode_uplink_nas_transport : message_decoder :=
  decode_fixed
    [("nas_message_container", nas_decode_message_container)].

Definition nas_decode_cs_service_notification : message_decoder :=
  decode_message
    [("paging_identity", nas_decode_paging_identity)]
    [mkCase 0x60 0x1 "cli" nas_decode_cli;
     mkCase 0x61 0x2 "ss_code" nas_decode_ss_code;
     mkCase 0x62 0x4 "lcs_indicator" nas_decode_lcs_indicator;
     mkCase 0x63 0x8 "lcs_client_identity" nas_decode_lcs_client_identity].

Definition nas_decode_uplink_generic_nas_transport : message_decoder :=
  decode_message
    [("generic_message_container_type", nas_decode_generic_message_container_type);
     ("generic_message_container", nas_decode_generic_message_container)]
    [mkCase 0x65 0x1 "additional_information" nas_decode_additional_information].

Definition nas_decode_downlink_generic_nas_transport : message_decoder :=
  decode_message
    [("generic_message_container_type", nas_decode_generic_message_container_type);
     ("generic_message_container", nas_decode_generic_message_container)]
    [mkCase 0x65 0x1 "additional_information" nas_decode_additional_information].

Definition nas_decode_activate_default_eps_bearer_context_request : message_decoder :=
  decode_message
    [("eps_qos", nas_decode_eps_quality_of_service);
     ("access_point_name", nas_decode_access_point_name);
     ("pdn_address", nas_decode_pdn_address)]
    [mkCase 0x5d 0x1 "transaction_identifier" nas_decode_transaction_identifier;
     mkCase 0x30 0x2 "negotiated_qos" nas_decode_quality_of_service;
     mkCase 0x32 0x4 "negotiated_llc_sapi" nas_decode_llc_service_access_point_identifier;
     mkCase 0x80 0x8 "radio_priority" nas_decode_radio_priority;
     mkCase 0x34 0x10 "packet_flow_identifier" nas_decode_packet_flow_identifier;
     mkCase 0x5e 0x20 "apn_ambr" nas_decode_apn_aggregate_maximum_bit_rate;
     mkCase 0x58 0x40 "esm_cause" nas_decode_esm_cause;
     mkCase 0x27 0x80 "protocol_configuration_options" nas_decode_protocol_configuration_options;
     mkCase 0xb0 0x100 "connectivity_type" nas_decode_connectivity_type;
     mkCase 0xc0 0x200 "wlan_offload_indication" nas_decode_wlan_offload_acceptability;
     mkCase 0x33 0x400 "nbifom_container" nas_decode_nbifom_container;
     mkCase 0x66 0x800 "header_compression_configuration" nas_decode_header_compression_configuration;
     mkCase 0x90 0x1000 "control_plane_only_indication" nas_decode_control_plane_only_indication;
     mkCase 0x7b 0x2000 "extended_protocol_configuration_options" nas_decode_extended_protocol_configuration_options;
     mkCase 0x6e 0x4000 "serving_plmn_rate_control" nas_decode_serving_plmn_rate_control].

Definition nas_decode_activate_default_eps_bearer_context_accept : message_decoder :=
  decode_message
    []
    [mkCase 0x27 0x1 "protocol_configuration_options" nas_decode_protocol_configuration_options;
     mkCase 0x7b 0x2 "extended_protocol_configuration_options" nas_decode_extended_protocol_configuration_options].

Definition nas_decode_activate_default_eps_bearer_context_reject : message_decoder :=
  decode_message
    [("esm_cause", nas_decode_esm_cause)]
    [mkCase 0x27 0x1 "protocol_configuration_options" nas_decode_protocol_configuration_options;
     mkCase 0x7b 0x2 "extended_protocol_configuration_options" nas_decode_extended_protocol_configuration_options].

Definition nas_decode_activate_dedicated_eps_bearer_context_request : message_decoder :=
  decode_message
    [("linked_eps_bearer_identity", nas_decode_linked_eps_bearer_identity);
     ("eps_qos", nas_decode_eps_quality_of_service);
     ("tft", nas_decode_traffic_flow_template)]
    [mkCase 0x5d 0x1 "transaction_identifier" nas_decode_transaction_identifier;
     mkCase 0x30 0x2 "negotiated_qos" nas_decode_quality_of_service;
     mkCase 0x32 0x4 "negotiated_llc_sapi" nas_decode_llc_service_access_point_identifier;
     mkCase 0x80 0x8 "radio_priority" nas_decode_radio_priority;
     mkCase 0x34 0x10 "packet_flow_identifier" nas_decode_packet_flow_identifier;
     mkCase 0x27 0x20 "protocol_configuration_options" nas_decode_protocol_configuration_options;
     mkCase 0xc0 0x40 "wlan_offload_indication" nas_decode_wlan_offload_acceptability;
     mkCase 0x33 0x80 "nbifom_container" nas_decode_nbifom_container;
     mkCase 0x7b 0x100 "extended_protocol_configuration_options" nas_decode_extended_protocol_configuration_options].

Definition nas_decode_activate_dedicated_eps_bearer_context_accept : message_decoder :=
  decode_message
    []
    [mkCase 0x27 0x1 "protocol_configuration_options" nas_decode_protocol_configuration_options;
     mkCase 0x33 0x2 "nbifom_container" nas_decode_nbifom_container;
     mkCase 0x7b 0x4 "extended_protocol_configuration_options" nas_decode_extended_protocol_configuration_options].

Definition nas_decode_activate_dedicated_eps_bearer_context_reject : message_decoder :=
  decode_message
    [("esm_cause", nas_decode_esm_cause)]
    [mkCase 0x27 0x1 "protocol_configuration_options" nas_decode_protocol_configuration_options;
     mkCase 0x33 0x2 "nbifom_container" nas_decode_nbifom_container;
     mkCase 0x7b 0x4 "extended_protocol_configuration_options" nas_decode_extended_protocol_configuration_options].

Definition nas_decode_modify_eps_bearer_context_request : message_decoder :=
  decode_message
    []
    [mkCase 0x5b 0x1 "new_eps_qos" nas_decode_eps_quality_of_service;
     mkCase 0x36 0x2 "tft" nas_decode_traffic_flow_template;
     mkCase 0x30 0x4 "new_qos" nas_decode_quality_of_service;
     mkCase 0x32 0x8 "negotiated_llc_sapi" nas_decode_llc_service_access_point_identifier;
     mkCase 0x80 0x10 "radio_priority" nas_decode_radio_priority;
     mkCase 0x34 0x20 "packet_flow_identifier" nas_decode_packet_flow_identifier;
     mkCase 0x5e 0x40 "apn_ambr" nas_decode_apn_aggregate_maximum_bit_rate;
     mkCase 0x27 0x80 "protocol_configuration_options" nas_decode_protocol_configuration_options;
     mkCase 0xc0 0x100 "wlan_offload_indication" nas_decode_wlan_offload_acceptability;
     mkCase 0x33 0x200 "nbifom_container" nas_decode_nbifom_container;
     mkCase 0x66 0x400 "header_compression_configuration" nas_decode_header_compression_configuration;
     mkCase 0x7b 0x800 "extended_protocol_configuration_options" nas_decode_extended_protocol_configuration_options].

Definition nas_decode_modify_eps_bearer_context_accept : message_decoder :=
  decode_message
    []
    [mkCase 0x27 0x1 "protocol_configuration_options" nas_decode_protocol_configuration_options;
     mkCase 0x33 0x2 "nbifom_container" nas_decode_nbifom_container;
     mkCase 0x7b 0x4 "extended_protocol_configuration_options" nas_decode_extended_protocol_configuration_options].

Definition nas_decode_modify_eps_bearer_context_reject : message_decoder :=
  decode_message
    [("esm_cause", nas_decode_esm_cause)]
    [mkCase 0x27 0x1 "protocol_configuration_options" nas_decode_protocol_configuration_options;
     mkCase 0x33 0x2 "nbifom_container" nas_decode_nbifom_container;
     mkCase 0x7b 0x4 "extended_protocol_configuration_options" nas_decode_extended_protocol_configuration_options].

Definition nas_decode_deactivate_eps_bearer_context_request : message_decoder :=
  decode_message
    [("esm_cause", nas_decode_esm_cause)]
    [mkCase 0x27 0x1 "protocol_configuration_options" nas_decode_protocol_configuration_options;
     mkCase 0x37 0x2 "t3396_value" nas_decode_gprs_timer_3;
     mkCase 0xc0 0x4 "wlan_offload_indication" nas_decode_wlan_offload_acceptability;
     mkCase 0x33 0x8 "nbifom_container" nas_decode_nbifom_container;
     mkCase 0x7b 0x10 "extended_protocol_configuration_options" nas_decode_extended_protocol_configuration_options].

Definition nas_decode_deactivate_eps_bearer_context_accept : message_decoder :=
  decode_message
    []
    [mkCase 0x27 0x1 "protocol_configuration_options" nas_decode_protocol_configuration_options;
     mkCase 0x7b 0x2 "extended_protocol_configuration_options" nas_decode_extended_protocol_configuration_options].

Definition nas_decode_pdn_connectivity_request : message_decoder :=
  decode_message
    [("request_type", nas_decode_request_type)]
    [mkCase 0xd0 0x1 "esm_information_transfer_flag" nas_decode_esm_information_transfer_flag;
     mkCase 0x28 0x2 "access_point_name" nas_decode_access_point_name;
     mkCase 0x27 0x4 "protocol_configuration_options" nas_decode_protocol_configuration_options;
     mkCase 0xc0 0x8 "device_properties" nas_decode_device_properties;
     mkCase 0x33 0x10 "nbifom_container" nas_decode_nbifom_container;
     mkCase 0x66 0x20 "header_compression_configuration" nas_decode_header_compression_configuration;
     mkCase 0x7b 0x40 "extended_protocol_configuration_options" nas_decode_extended_protocol_configuration_options].

Definition nas_decode_pdn_connectivity_reject : message_decoder :=
  decode_message
    [("esm_cause", nas_decode_esm_cause)]
    [mkCase 0x27 0x1 "protocol_configuration_options" nas_decode_protocol_configuration_options;
     mkCase 0x37 0x2 "back_off_timer_value" nas_decode_gprs_timer_3;
     mkCase 0x6b 0x4 "re_attempt_indicator" nas_decode_re_attempt_indicator;
     mkCase 0x33 0x8 "nbifom_container" nas_decode_nbifom_container;
     mkCase 0x7b 0x10 "extended_protocol_configuration_options" nas_decode_extended_protocol_configuration_options].

Definition nas_decode_pdn_disconnect_request : message_decoder :=
  decode_message
    [("linked_eps_bearer_identity", nas_decode_linked_eps_bearer_identity)]
    [mkCase 0x27 0x1 "protocol_configuration_options" nas_decode_protocol_configuration_options;
     mkCase 0x7b 0x2 "extended_protocol_configuration_options" nas_decode_extended_protocol_configuration_options].

Definition nas_decode_pdn_disconnect_reject : message_decoder :=
  decode_message
    [("esm_cause", nas_decode_esm_cause)]
    [mkCase 0x27 0x1 "protocol_configuration_options" nas_decode_protocol_configuration_options;
     mkCase 0x7b 0x2 "extended_protocol_configuration_options" nas_decode_extended_protocol_configuration_options].

Definition nas_decode_bearer_resource_allocation_request : message_decoder :=
  decode_message
    [("linked_eps_bearer_identity", nas_decode_linked_eps_bearer_identity);
     ("traffic_flow_aggregate", nas_decode_traffic_flow_aggregate_description);
     ("required_traffic_flow_qos", nas_decode_eps_quality_of_service)]
    [mkCase 0x27 0x1 "protocol_configuration_options" nas_decode_protocol_configuration_options;
     mkCase 0xc0 0x2 "device_properties" nas_decode_device_properties;
     mkCase 0x33 0x4 "nbifom_container" nas_decode_nbifom_container;
     mkCase 0x7b 0x8 "extended_protocol_configuration_options" nas_decode_extended_protocol_configuration_options].

Definition nas_decode_bearer_resource_allocation_reject : message_decoder :=
  decode_message
    [("esm_cause", nas_decode_esm_cause)]
    [mkCase 0x27 0x1 "protocol_configuration_options" nas_decode_protocol_configuration_options;
     mkCase 0x37 0x2 "back_off_timer_value" nas_decode_gprs_timer_3;
     mkCase 0x6b 0x4 "re_attempt_indicator" nas_decode_re_attempt_indicator;
     mkCase 0x33 0x8 "nbifom_container" nas_decode_nbifom_container;
     mkCase 0x7b 0x10 "extended_protocol_configuration_options" nas_decode_extended_protocol_configuration_options].

Definition nas_decode_bearer_resource_modification_request : message_decoder :=
  decode_message
    [("eps_bearer_identity_for_packet_filter", nas_decode_linked_eps_bearer_identity);
     ("traffic_flow_aggregate", nas_decode_traffic_flow_aggregate_description)]
    [mkCase 0x5b 0x1 "required_traffic_flow_qos" nas_decode_eps_quality_of_service;
     mkCase 0x58 0x2 "esm_cause" nas_decode_esm_cause;
     mkCase 0x27 0x4 "protocol_configuration_options" nas_decode_protocol_configuration_options;
     mkCase 0xc0 0x8 "device_properties" nas_decode_device_properties;
     mkCase 0x33 0x10 "nbifom_container" nas_decode_nbifom_container;
     mkCase 0x66 0x20 "header_compression_configuration" nas_decode_header_compression_configuration;
     mkCase 0x7b 0x40 "extended_protocol_configuration_options" nas_decode_extended_protocol_configuration_options].

Definition nas_decode_bearer_resource_modification_reject : message_decoder :=
  decode_message
    [("esm_cause", nas_decode_esm_cause)]
    [mkCase 0x27 0x1 "protocol_configuration_options" nas_decode_protocol_configuration_options;
     mkCase 0x37 0x2 "back_off_timer_value" nas_decode_gprs_timer_3;
     mkCase 0x6b 0x4 "re_attempt_indicator" nas_decode_re_attempt_indicator;
     mkCase 0x33 0x8 "nbifom_container" nas_decode_nbifom_container;
     mkCase 0x7b 0x10 "extended_protocol_configuration_options" nas_decode_extended_protocol_configuration_options].

Definition nas_decode_esm_information_response : message_decoder :=
  decode_message
    []
    [mkCase 0x28 0x1 "access_point_name" nas_decode_access_point_name;
     mkCase 0x27 0x2 "protocol_configuration_options" nas_decode_protocol_configuration_options;
     mkCase 0x7b 0x4 "extended_protocol_configuration_options" nas_decode_extended_protocol_configuration_options].

Definition nas_decode_esm_status : message_decoder :=
  decode_fixed
    [("esm_cause", nas_decode_esm_cause)].

Definition nas_emm_decoders : decode_switch :=
  [(NAS_ATTACH_REQUEST, (nas_attach_request_t, Some nas_decode_attach_request));
   (NAS_ATTACH_ACCEPT, (nas_attach_accept_t, Some nas_decode_attach_accept));
   (NAS_ATTACH_COMPLETE, (nas_attach_complete_t, Some nas_decode_attach_complete));
   (NAS_ATTACH_REJECT, (nas_attach_reject_t, Some nas_decode_attach_reject));
   (NAS_DETACH_REQUEST, (nas_detach_request_from_ue_t, Some nas_decode_detach_request_from_ue));
   (NAS_DETACH_ACCEPT, ([], None));
   (NAS_TRACKING_AREA_UPDATE_REQUEST, (nas_tracking_area_update_request_t, Some nas_decode_tracking_area_update_request));
   (NAS_TRACKING_AREA_UPDATE_ACCEPT, (nas_tracking_area_update_accept_t, Some nas_decode_tracking_area_update_accept));
   (NAS_TRACKING_AREA_UPDATE_COMPLETE, ([], None));
   (NAS_TRACKING_AREA_UPDATE_REJECT, (nas_tracking_area_update_reject_t, Some nas_decode_tracking_area_update_reject));
   (NAS_EXTENDED_SERVICE_REQUEST, (nas_extended_service_request_t, Some nas_decode_extended_service_request));
   (NAS_SERVICE_REJECT, (nas_service_reject_t, Some nas_decode_service_reject));
   (NAS_GUTI_REALLOCATION_COMMAND, (nas_guti_reallocation_command_t, Some nas_decode_guti_reallocation_command));
   (NAS_GUTI_REALLOCATION_COMPLETE, ([], None));
   (NAS_AUTHENTICATION_REQUEST, (nas_authentication_request_t, Some nas_decode_authentication_request));
   (NAS_AUTHENTICATION_RESPONSE, (nas_authentication_response_t, Some nas_decode_authentication_response));
   (NAS_AUTHENTICATION_REJECT, ([], None));
   (NAS_IDENTITY_REQUEST, (nas_identity_request_t, Some nas_decode_identity_request));
   (NAS_IDENTITY_RESPONSE, (nas_identity_response_t, Some nas_decode_identity_response));
   (NAS_AUTHENTICATION_FAILURE, (nas_authentication_failure_t, Some nas_decode_authentication_failure));
   (NAS_SECURITY_MODE_COMMAND, (nas_security_mode_command_t, Some nas_decode_security_mode_command));
   (NAS_SECURITY_MODE_COMPLETE, (nas_security_mode_complete_t, Some nas_decode_security_mode_complete));
   (NAS_SECURITY_MODE_REJECT, (nas_security_mode_reject_t, Some nas_decode_security_mode_reject));
   (NAS_EMM_STATUS, (nas_emm_status_t, Some nas_decode_emm_status));
   (NAS_EMM_INFORMATION, (nas_emm_information_t, Some nas_decode_emm_information));
   (NAS_DOWNLINK_NAS_TRANSPORT, (nas_downlink_nas_transport_t, Some nas_decode_downlink_nas_transport));
   (NAS_UPLINK_NAS_TRANSPORT, (nas_uplink_nas_transport_t, Some nas_decode_uplink_nas_transport));
   (NAS_CS_SERVICE_NOTIFICATION, (nas_cs_service_notification_t, Some nas_decode_cs_service_notification));
   (NAS_UPLINK_GENERIC_NAS_TRANSPORT, (nas_uplink_generic_nas_transport_t, Some nas_decode_uplink_generic_nas_transport));
   (NAS_DOWNLINK_GENERIC_NAS_TRANSPORT, (nas_downlink_generic_nas_transport_t, Some nas_decode_downlink_generic_nas_transport))].

Definition nas_esm_decoders : decode_switch :=
  [(NAS_ACTIVATE_DEFAULT_EPS_BEARER_CONTEXT_REQUEST, (nas_activate_default_eps_bearer_context_request_t, Some nas_decode_activate_default_eps_bearer_context_request));
   (NAS_ACTIVATE_DEFAULT_EPS_BEARER_CONTEXT_ACCEPT, (nas_activate_default_eps_bearer_context_accept_t, Some nas_decode_activate_default_eps_bearer_context_accept));
   (NAS_ACTIVATE_DEFAULT_EPS_BEARER_CONTEXT_REJECT, (nas_activate_default_eps_bearer_context_reject_t, Some nas_decode_activate_default_eps_bearer_context_reject));
   (NAS_ACTIVATE_DEDICATED_EPS_BEARER_CONTEXT_REQUEST, (nas_activate_dedicated_eps_bearer_context_request_t, Some nas_decode_activate_dedicated_eps_bearer_context_request));
   (NAS_ACTIVATE_DEDICATED_EPS_BEARER_CONTEXT_ACCEPT, (nas_activate_dedicated_eps_bearer_context_accept_t, Some nas_decode_activate_dedicated_eps_bearer_context_accept));
   (NAS_ACTIVATE_DEDICATED_EPS_BEARER_CONTEXT_REJECT, (nas_activate_dedicated_eps_bearer_context_reject_t, Some nas_decode_activate_dedicated_eps_bearer_context_reject));
   (NAS_MODIFY_EPS_BEARER_CONTEXT_REQUEST, (nas_modify_eps_bearer_context_request_t, Some nas_decode_modify_eps_bearer_context_request));
   (NAS_MODIFY_EPS_BEARER_CONTEXT_ACCEPT, (nas_modify_eps_bearer_context_accept_t, Some nas_decode_modify_eps_bearer_context_accept));
   (NAS_MODIFY_EPS_BEARER_CONTEXT_REJECT, (nas_modify_eps_bearer_context_reject_t, Some nas_decode_modify_eps_bearer_context_reject));
   (NAS_DEACTIVATE_EPS_BEARER_CONTEXT_REQUEST, (nas_deactivate_eps_bearer_context_request_t, Some nas_decode_deactivate_eps_bearer_context_request));
   (NAS_DEACTIVATE_EPS_BEARER_CONTEXT_ACCEPT, (nas_deactivate_eps_bearer_context_accept_t, Some nas_decode_deactivate_eps_bearer_context_accept));
   (NAS_PDN_CONNECTIVITY_REQUEST, (nas_pdn_connectivity_request_t, Some nas_decode_pdn_connectivity_request));
   (NAS_PDN_CONNECTIVITY_REJECT, (nas_pdn_connectivity_reject_t, Some nas_decode_pdn_connectivity_reject));
   (NAS_PDN_DISCONNECT_REQUEST, (nas_pdn_disconnect_request_t, Some nas_decode_pdn_disconnect_request));
   (NAS_PDN_DISCONNECT_REJECT, (nas_pdn_disconnect_reject_t, Some nas_decode_pdn_disconnect_reject));
   (NAS_BEARER_RESOURCE_ALLOCATION_REQUEST, (nas_bearer_resource_allocation_request_t, Some nas_decode_bearer_resource_allocation_request));
   (NAS_BEARER_RESOURCE_ALLOCATION_REJECT, (nas_bearer_resource_allocation_reject_t, Some nas_decode_bearer_resource_allocation_reject));
   (NAS_BEARER_RESOURCE_MODIFICATION_REQUEST, (nas_bearer_resource_modification_request_t, Some nas_decode_bearer_resource_modification_request));
   (NAS_BEARER_RESOURCE_MODIFICATION_REJECT, (nas_bearer_resource_modification_reject_t, Some nas_decode_bearer_resource_modification_reject));
   (NAS_ESM_INFORMATION_REQUEST, ([], None));
   (NAS_ESM_INFORMATION_RESPONSE, (nas_esm_information_response_t, Some nas_decode_esm_information_response));
   (NAS_ESM_STATUS, (nas_esm_status_t, Some nas_decode_esm_status))].

(** [nas_emm_decode]: whether it returns [CORE_OK], the packet and the message. *)
Definition nas_emm_decode (b : buf) : option (bool * buf * nas_message) :=
  let '(ok, b) := header b (-2) in
  if negb ok then Some (false, b, mkMessage (replicate 2 0) (zero_body []))
  else
    h ← mload b (payload (pk b) - 2) 2;
    if decide (security_header_type h >= NAS_SECURITY_HEADER_FOR_SERVICE_REQUEST_MESSAGE) then
      let '(ok, b) := header b 1 in
      if negb ok then Some (false, b, mkMessage h (zero_body []))
      else decode_call h 1 nas_decode_service_request nas_service_request_t b
    else decode_by_type emm_message_type nas_emm_decoders h b.

Definition nas_esm_decode (b : buf) : option (bool * buf * nas_message) :=
  let '(ok, b) := header b (-3) in
  if negb ok then Some (false, b, mkMessage (replicate 3 0) (zero_body []))
  else
    h ← mload b (payload (pk b) - 3) 3;
    decode_by_type esm_message_type nas_esm_decoders h b.

End NasDecoder.
