(* ===== verification/NasEncoder.v ===== *)
(** [lib/nas/nas_encoder.c]: the encoding functions of the messages.  An optional
    element has its bit in [presencemask], its type, its field, the function that
    encodes it, and whether it is half an octet. *)

From S2P Require Import Prelude Pkbuf NasIes NasMessage NasTables.

Module NasEncoder.
Import Pkbuf NasIes NasMessage NasTables.
#[local] Open Scope Z_scope.

Definition nas_encode_attach_request : message_encoder :=
  encode_message
    [("eps_attach_type", nas_encode_eps_attach_type);
     ("eps_mobile_identity", nas_encode_eps_mobile_identity);
     ("ue_network_capability", nas_encode_ue_network_capability);
     ("esm_message_container", nas_encode_esm_message_container)]
    [mkOptional 0x1 0x19 "old_p_tmsi_signature" nas_encode_p_tmsi_signature false;
     mkOptional 0x2 0x50 "additional_guti" nas_encode_eps_mobile_identity false;
     mkOptional 0x4 0x52 "last_visited_registered_tai" nas_encode_tracking_area_identity false;
     mkOptional 0x8 0x5c "drx_parameter" nas_encode_drx_parameter false;
     mkOptional 0x10 0x31 "ms_network_capability" nas_encode_ms_network_capability false;
     mkOptional 0x20 0x13 "old_location_area_identification" nas_encode_location_area_identification false;
     mkOptional 0x40 0x90 "tmsi_status" nas_encode_tmsi_status true;
     mkOptional 0x80 0x11 "mobile_station_classmark_2" nas_encode_mobile_station_classmark_2 false;
     mkOptional 0x100 0x20 "mobile_station_classmark_3" nas_encode_mobile_station_classmark_3 false;
     mkOptional 0x200 0x40 "supported_codecs" nas_encode_supported_codec_list false;
     mkOptional 0x400 0xf0 "additional_update_type" nas_encode_additional_update_type true;
     mkOptional 0x800 0x5d "voice_domain_preference_and_ue_usage_setting" nas_encode_voice_domain_preference_and_ue_usage_setting false;
     mkOptional 0x1000 0xd0 "device_properties" nas_encode_device_properties true;
     mkOptional 0x2000 0xe0 "old_guti_type" nas_encode_guti_type true;
     mkOptional 0x4000 0xc0 "ms_network_feature_support" nas_encode_ms_network_feature_support true;
     mkOptional 0x8000 0x10 "tmsi_based_nri_container" nas_encode_network_resource_identifier_container false;
     mkOptional 0x10000 0x6a "t3324_value" nas_encode_gprs_timer_2 false;
     mkOptional 0x20000 0x5e "t3412_extended_value" nas_encode_gprs_timer_3 false;
     mkOptional 0x40000 0x6e "extended_drx_parameters" nas_encode_extended_drx_parameters false].

Definition nas_encode_attach_accept : message_encoder :=
  encode_message
    [("eps_attach_result", nas_encode_eps_attach_result);
     ("t3412_value", nas_encode_gprs_timer);
     ("tai_list", nas_encode_tracking_area_identity_list);
     ("esm_message_container", nas_encode_esm_message_container)]
    [mkOptional 0x1 0x50 "guti" nas_encode_eps_mobile_identity false;
     mkOptional 0x2 0x13 "location_area_identification" nas_encode_location_area_identification false;
     mkOptional 0x4 0x23 "ms_identity" nas_encode_mobile_identity false;
     mkOptional 0x8 0x53 "emm_cause" nas_encode_emm_cause false;
     mkOptional 0x10 0x17 "t3402_value" nas_encode_gprs_timer false;
     mkOptional 0x20 0x59 "t3423_value" nas_encode_gprs_timer false;
     mkOptional 0x40 0x4a "equivalent_plmns" nas_encode_plmn_list false;
     mkOptional 0x80 0x34 "emergency_number_list" nas_encode_emergency_number_list false;
     mkOptional 0x100 0x64 "eps_network_feature_support" nas_encode_eps_network_feature_support false;
     mkOptional 0x200 0xf0 "additional_update_result" nas_encode_additional_update_result true;
     mkOptional 0x400 0x5e "t3412_extended_value" nas_encode_gprs_timer_3 false;
     mkOptional 0x800 0x6a "t3324_value" nas_encode_gprs_timer_2 false;
     mkOptional 0x1000 0x6e "extended_drx_parameters" nas_encode_extended_drx_parameters false].

Definition nas_encode_attach_complete : message_encoder :=
  encode_message
    [("esm_message_container", nas_encode_esm_message_container)]
    [].

Definition nas_encode_attach_reject : message_encoder :=
  encode_message
    [("emm_cause", nas_encode_emm_cause)]
    [mkOptional 0x1 0x78 "esm_message_container" nas_encode_esm_message_container false;
     mkOptional 0x2 0x5f "t3346_value" nas_encode_gprs_timer_2 false;
     mkOptional 0x4 0x16 "t3402_value" nas_encode_gprs_timer_2 false;
     mkOptional 0x8 0xa0 "extended_emm_cause" nas_encode_extended_emm_cause true].

Definition nas_encode_detach_request_from_ue : message_encoder :=
  encode_message
    [("detach_type", nas_encode_detach_type);
     ("eps_mobile_identity", nas_encode_eps_mobile_identity)]
    [].

Definition nas_encode_detach_request_to_ue : message_encoder :=
  encode_message
    [("detach_type", nas_encode_detach_type)]
    [mkOptional 0x1 0x53 "emm_cause" nas_encode_emm_cause false].

Definition nas_encode_tracking_area_update_request : message_encoder :=
  encode_message
    [("eps_update_type", nas_encode_eps_update_type);
     ("old_guti", nas_encode_eps_mobile_identity)]
    [mkOptional 0x1 0xb0 "non_current_native_nas_key_set_identifier" nas_encode_key_set_identifier true;
     mkOptional 0x2 0x80 "gprs_ciphering_key_sequence_number" nas_encode_ciphering_key_sequence_number true;
     mkOptional 0x4 0x19 "old_p_tmsi_signature" nas_encode_p_tmsi_signature false;
     mkOptional 0x8 0x50 "additional_guti" nas_encode_eps_mobile_identity false;
     mkOptional 0x10 0x55 "nonceue" nas_encode_nonce false;
     mkOptional 0x20 0x58 "ue_network_capability" nas_encode_ue_network_capability false;
     mkOptional 0x40 0x52 "last_visited_registered_tai" nas_encode_tracking_area_identity false;
     mkOptional 0x80 0x5c "drx_parameter" nas_encode_drx_parameter false;
     mkOptional 0x100 0xa0 "ue_radio_capability_information_update_needed" nas_encode_ue_radio_capability_information_update_needed true;
     mkOptional 0x200 0x57 "eps_bearer_context_status" nas_encode_eps_bearer_context_status false;
     mkOptional 0x400 0x31 "ms_network_capability" nas_encode_ms_network_capability false;
     mkOptional 0x800 0x13 "old_location_area_identification" nas_encode_location_area_identification false;
     mkOptional 0x1000 0x90 "tmsi_status" nas_encode_tmsi_status true;
     mkOptional 0x2000 0x11 "mobile_station_classmark_2" nas_encode_mobile_station_classmark_2 false;
     mkOptional 0x4000 0x20 "mobile_station_classmark_3" nas_encode_mobile_station_classmark_3 false;
     mkOptional 0x8000 0x40 "supported_codecs" nas_encode_supported_codec_list false;
     mkOptional 0x10000 0xf0 "additional_update_type" nas_encode_additional_update_type true;
     mkOptional 0x20000 0x5d "voice_domain_preference_and_ue_usage_setting" nas_encode_voice_domain_preference_and_ue_usage_setting false;
     mkOptional 0x40000 0xe0 "old_guti_type" nas_encode_guti_type true;
     mkOptional 0x80000 0xd0 "device_properties" nas_encode_device_properties true;
     mkOptional 0x100000 0xc0 "ms_network_feature_support" nas_encode_ms_network_feature_support true;
     mkOptional 0x200000 0x10 "tmsi_based_nri_container" nas_encode_network_resource_identifier_container false;
     mkOptional 0x400000 0x6a "t3324_value" nas_encode_gprs_timer_2 false;
     mkOptional 0x800000 0x5e "t3412_extended_value" nas_encode_gprs_timer_3 false;
     mkOptional 0x1000000 0x6e "extended_drx_parameters" nas_encode_extended_drx_parameters false].

Definition nas_encode_tracking_area_update_accept : message_encoder :=
  encode_message
    [("eps_update_result", nas_encode_eps_update_result)]
    [mkOptional 0x1 0x5a "t3412_value" nas_encode_gprs_timer false;
     mkOptional 0x2 0x50 "guti" nas_encode_eps_mobile_identity false;
     mkOptional 0x4 0x54 "tai_list" nas_encode_tracking_area_identity_list false;
     mkOptional 0x8 0x57 "eps_bearer_context_status" nas_encode_eps_bearer_context_status false;
     mkOptional 0x10 0x13 "location_area_identification" nas_encode_location_area_identification false;
     mkOptional 0x20 0x23 "ms_identity" nas_encode_mobile_identity false;
     mkOptional 0x40 0x53 "emm_cause" nas_encode_emm_cause false;
     mkOptional 0x80 0x17 "t3402_value" nas_encode_gprs_timer false;
     mkOptional 0x100 0x59 "t3423_value" nas_encode_gprs_timer false;
     mkOptional 0x200 0x4a "equivalent_plmns" nas_encode_plmn_list false;
     mkOptional 0x400 0x34 "emergency_number_list" nas_encode_emergency_number_list false;
     mkOptional 0x800 0x64 "eps_network_feature_support" nas_encode_eps_network_feature_support false;
     mkOptional 0x1000 0xf0 "additional_update_result" nas_encode_additional_update_result true;
     mkOptional 0x2000 0x5e "t3412_extended_value" nas_encode_gprs_timer_3 false;
     mkOptional 0x4000 0x6a "t3324_value" nas_encode_gprs_timer_2 false;
     mkOptional 0x8000 0x6e "extended_drx_parameters" nas_encode_extended_drx_parameters false;
     mkOptional 0x10000 0x68 "header_compression_configuration_status" nas_encode_header_compression_configuration_status false].

Definition nas_encode_tracking_area_update_reject : message_encoder :=
  encode_message
    [("emm_cause", nas_encode_emm_cause)]
    [mkOptional 0x1 0x5f "t3346_value" nas_encode_gprs_timer_2 false;
     mkOptional 0x2 0xa0 "extended_emm_cause" nas_encode_extended_emm_cause true].

Definition nas_encode_extended_service_request : message_encoder :=
  encode_message
    [("service_type", nas_encode_service_type);
     ("m_tmsi", nas_encode_mobile_identity)]
    [mkOptional 0x1 0xb0 "csfb_response" nas_encode_csfb_response true;
     mkOptional 0x2 0x57 "eps_bearer_context_status" nas_encode_eps_bearer_context_status false;
     mkOptional 0x4 0xd0 "device_properties" nas_encode_device_properties true].

Definition nas_encode_service_request : message_encoder :=
  encode_message
    [("ksi_and_sequence_number", nas_encode_ksi_and_sequence_number);
     ("message_authentication_code", nas_encode_short_mac)]
    [].

Definition nas_encode_service_reject : message_encoder :=
  encode_message
    [("emm_cause", nas_encode_emm_cause)]
    [mkOptional 0x1 0x5f "t3346_value" nas_encode_gprs_timer_2 false].

Definition nas_encode_guti_reallocation_command : message_encoder :=
  encode_message
    [("guti", nas_encode_eps_mobile_identity)]
    [mkOptional 0x1 0x54 "tai_list" nas_encode_tracking_area_identity_list false].

Definition nas_encode_authentication_request : message_encoder :=
  encode_message
    [("nas_key_set_identifierasme", nas_encode_key_set_identifier);
     ("authentication_parameter_rand", nas_encode_authentication_parameter_rand);
     ("authentication_parameter_autn", nas_encode_authentication_parameter_autn)]
    [].

Definition nas_encode_authentication_response : message_encoder :=
  encode_message
    [("authentication_response_parameter", nas_encode_authentication_response_parameter)]
    [].

Definition nas_encode_identity_request : message_encoder :=
  encode_message
    [("identity_type", nas_encode_identity_type_2)]
    [].

Definition nas_encode_identity_response : message_encoder :=
  encode_message
    [("mobile_identity", nas_encode_mobile_identity)]
    [].

Definition nas_encode_authentication_failure : message_encoder :=
  encode_message
    [("emm_cause", nas_encode_emm_cause)]
    [mkOptional 0x1 0x30 "authentication_failure_parameter" nas_encode_authentication_failure_parameter false].

Definition nas_encode_security_mode_command : message_encoder :=
  encode_message
    [("selected_nas_security_algorithms", nas_encode_security_algorithms);
     ("nas_key_set_identifier", nas_encode_key_set_identifier);
     ("replayed_ue_security_capabilities", nas_encode_ue_security_capability)]
    [mkOptional 0x1 0xc0 "imeisv_request" nas_encode_imeisv_request true;
     mkOptional 0x2 0x55 "replayed_nonceue" nas_encode_nonce false;
     mkOptional 0x4 0x56 "noncemme" nas_encode_nonce false].

Definition nas_encode_security_mode_complete : message_encoder :=
  encode_message
    []
    [mkOptional 0x1 0x23 "imeisv" nas_encode_mobile_identity false].

Definition nas_encode_security_mode_reject : message_encoder :=
  encode_message
    [("emm_cause", nas_encode_emm_cause)]
    [].

Definition nas_encode_emm_status : message_encoder :=
  encode_message
    [("emm_cause", nas_encode_emm_cause)]
    [].

Definition nas_encode_emm_information : message_encoder :=
  encode_message
    []
    [mkOptional 0x1 0x43 "full_name_for_network" nas_encode_network_name false;
     mkOptional 0x2 0x45 "short_name_for_network" nas_encode_network_name false;
     mkOptional 0x4 0x46 "local_time_zone" nas_encode_time_zone false;
     mkOptional 0x8 0x47 "universal_time_and_local_time_zone" nas_encode_time_zone_and_time false;
     mkOptional 0x10 0x49 "network_daylight_saving_time" nas_encode_daylight_saving_time false].

Definition nas_encode_downlink_nas_transport : message_encoder :=
  encode_message
    [("nas_message_container", nas_encode_message_container)]
    [].

Definition nas_encode_uplink_nas_transport : message_encoder :=
  encode_message
    [("nas_message_container", nas_encode_message_container)]
    [].

Definition nas_encode_cs_service_notification : message_encoder :=
  encode_message
    [("paging_identity", nas_encode_paging_identity)]
    [mkOptional 0x1 0x60 "cli" nas_encode_cli false;
     mkOptional 0x2 0x61 "ss_code" nas_encode_ss_code false;
     mkOptional 0x4 0x62 "lcs_indicator" nas_encode_lcs_indicator false;
     mkOptional 0x8 0x63 "lcs_client_identity" nas_encode_lcs_client_identity false].

Definition nas_encode_uplink_generic_nas_transport : message_encoder :=
  encode_message
    [("generic_message_container_type", nas_encode_generic_message_container_type);
     ("generic_message_container", nas_encode_generic_message_container)]
    [mkOptional 0x1 0x65 "additional_information" nas_encode_additional_information false].

Definition nas_encode_downlink_generic_nas_transport : message_encoder :=
  encode_message
    [("generic_message_container_type", nas_encode_generic_message_container_type);
     ("generic_message_container", nas_encode_generic_message_container)]
    [mkOptional 0x1 0x65 "additional_information" nas_encode_additional_information false].

Definition nas_encode_activate_default_eps_bearer_context_request : message_encoder :=
  encode_message
    [("eps_qos", nas_encode_eps_quality_of_service);
     ("access_point_name", nas_encode_access_point_name);
     ("pdn_address", nas_encode_pdn_address)]
    [mkOptional 0x1 0x5d "transaction_identifier" nas_encode_transaction_identifier false;
     mkOptional 0x2 0x30 "negotiated_qos" nas_encode_quality_of_service false;
     mkOptional 0x4 0x32 "negotiated_llc_sapi" nas_encode_llc_service_access_point_identifier false;
     mkOptional 0x8 0x80 "radio_priority" nas_encode_radio_priority true;
     mkOptional 0x10 0x34 "packet_flow_identifier" nas_encode_packet_flow_identifier false;
     mkOptional 0x20 0x5e "apn_ambr" nas_encode_apn_aggregate_maximum_bit_rate false;
     mkOptional 0x40 0x58 "esm_cause" nas_encode_esm_cause false;
     mkOptional 0x80 0x27 "protocol_configuration_options" nas_encode_protocol_configuration_options false;
     mkOptional 0x100 0xb0 "connectivity_type" nas_encode_connectivity_type true;
     mkOptional 0x200 0xc0 "wlan_offload_indication" nas_encode_wlan_offload_acceptability true;
     mkOptional 0x400 0x33 "nbifom_container" nas_encode_nbifom_container false;
     mkOptional 0x800 0x66 "header_compression_configuration" nas_encode_header_compression_configuration false;
     mkOptional 0x1000 0x90 "control_plane_only_indication" nas_encode_control_plane_only_indication true;
     mkOptional 0x2000 0x7b "extended_protocol_configuration_options" nas_encode_extended_protocol_configuration_options false;
     mkOptional 0x4000 0x6e "serving_plmn_rate_control" nas_encode_serving_plmn_rate_control false].

Definition nas_encode_activate_default_eps_bearer_context_accept : message_encoder :=
  encode_message
    []
    [mkOptional 0x1 0x27 "protocol_configuration_options" nas_encode_protocol_configuration_options false;
     mkOptional 0x2 0x7b "extended_protocol_configuration_options" nas_encode_extended_protocol_configuration_options false].

Definition nas_encode_activate_default_eps_bearer_context_reject : message_encoder :=
  encode_message
    [("esm_cause", nas_encode_esm_cause)]
    [mkOptional 0x1 0x27 "protocol_configuration_options" nas_encode_protocol_configuration_options false;
     mkOptional 0x2 0x7b "extended_protocol_configuration_options" nas_encode_extended_protocol_configuration_options false].

Definition nas_encode_activate_dedicated_eps_bearer_context_request : message_encoder :=
  encode_message
    [("linked_eps_bearer_identity", nas_encode_linked_eps_bearer_identity);
     ("eps_qos", nas_encode_eps_quality_of_service);
     ("tft", nas_encode_traffic_flow_template)]
    [mkOptional 0x1 0x5d "transaction_identifier" nas_encode_transaction_identifier false;
     mkOptional 0x2 0x30 "negotiated_qos" nas_encode_quality_of_service false;
     mkOptional 0x4 0x32 "negotiated_llc_sapi" nas_encode_llc_service_access_point_identifier false;
     mkOptional 0x8 0x80 "radio_priority" nas_encode_radio_priority true;
     mkOptional 0x10 0x34 "packet_flow_identifier" nas_encode_packet_flow_identifier false;
     mkOptional 0x20 0x27 "protocol_configuration_options" nas_encode_protocol_configuration_options false;
     mkOptional 0x40 0xc0 "wlan_offload_indication" nas_encode_wlan_offload_acceptability true;
     mkOptional 0x80 0x33 "nbifom_container" nas_encode_nbifom_container false;
     mkOptional 0x100 0x7b "extended_protocol_configuration_options" nas_encode_extended_protocol_configuration_options false].

Definition nas_encode_activate_dedicated_eps_bearer_context_accept : message_encoder :=
  encode_message
    []
    [mkOptional 0x1 0x27 "protocol_configuration_options" nas_encode_protocol_configuration_options false;
     mkOptional 0x2 0x33 "nbifom_container" nas_encode_nbifom_container false;
     mkOptional 0x4 0x7b "extended_protocol_configuration_options" nas_encode_extended_protocol_configuration_options false].

Definition nas_encode_activate_dedicated_eps_bearer_context_reject : message_encoder :=
  encode_message
    [("esm_cause", nas_encode_esm_cause)]
    [mkOptional 0x1 0x27 "protocol_configuration_options" nas_encode_protocol_configuration_options false;
     mkOptional 0x2 0x33 "nbifom_container" nas_encode_nbifom_container false;
     mkOptional 0x4 0x7b "extended_protocol_configuration_options" nas_encode_extended_protocol_configuration_options false].

Definition nas_encode_modify_eps_bearer_context_request : message_encoder :=
  encode_message
    []
    [mkOptional 0x1 0x5b "new_eps_qos" nas_encode_eps_quality_of_service false;
     mkOptional 0x2 0x36 "tft" nas_encode_traffic_flow_template false;
     mkOptional 0x4 0x30 "new_qos" nas_encode_quality_of_service false;
     mkOptional 0x8 0x32 "negotiated_llc_sapi" nas_encode_llc_service_access_point_identifier false;
     mkOptional 0x10 0x80 "radio_priority" nas_encode_radio_priority true;
     mkOptional 0x20 0x34 "packet_flow_identifier" nas_encode_packet_flow_identifier false;
     mkOptional 0x40 0x5e "apn_ambr" nas_encode_apn_aggregate_maximum_bit_rate false;
     mkOptional 0x80 0x27 "protocol_configuration_options" nas_encode_protocol_configuration_options false;
     mkOptional 0x100 0xc0 "wlan_offload_indication" nas_encode_wlan_offload_acceptability true;
     mkOptional 0x200 0x33 "nbifom_container" nas_encode_nbifom_container false;
     mkOptional 0x400 0x66 "header_compression_configuration" nas_encode_header_compression_configuration false;
     mkOptional 0x800 0x7b "extended_protocol_configuration_options" nas_encode_extended_protocol_configuration_options false].

Definition nas_encode_modify_eps_bearer_context_accept : message_encoder :=
  encode_message
    []
    [mkOptional 0x1 0x27 "protocol_configuration_options" nas_encode_protocol_configuration_options false;
     mkOptional 0x2 0x33 "nbifom_container" nas_encode_nbifom_container false;
     mkOptional 0x4 0x7b "extended_protocol_configuration_options" nas_encode_extended_protocol_configuration_options false].

Definition nas_encode_modify_eps_bearer_context_reject : message_encoder :=
  encode_message
    [("esm_cause", nas_encode_esm_cause)]
    [mkOptional 0x1 0x27 "protocol_configuration_options" nas_encode_protocol_configuration_options false;
     mkOptional 0x2 0x33 "nbifom_container" nas_encode_nbifom_container false;
     mkOptional 0x4 0x7b "extended_protocol_configuration_options" nas_encode_extended_protocol_configuration_options false].

Definition nas_encode_deactivate_eps_bearer_context_request : message_encoder :=
  encode_message
    [("esm_cause", nas_encode_esm_cause)]
    [mkOptional 0x1 0x27 "protocol_configuration_options" nas_encode_protocol_configuration_options false;
     mkOptional 0x2 0x37 "t3396_value" nas_encode_gprs_timer_3 false;
     mkOptional 0x4 0xc0 "wlan_offload_indication" nas_encode_wlan_offload_acceptability true;
     mkOptional 0x8 0x33 "nbifom_container" nas_encode_nbifom_container false;
     mkOptional 0x10 0x7b "extended_protocol_configuration_options" nas_encode_extended_protocol_configuration_options false].

Definition nas_encode_deactivate_eps_bearer_context_accept : message_encoder :=
  encode_message
    []
    [mkOptional 0x1 0x27 "protocol_configuration_options" nas_encode_protocol_configuration_options false;
     mkOptional 0x2 0x7b "extended_protocol_configuration_options" nas_encode_extended_protocol_configuration_options false].

Definition nas_encode_pdn_connectivity_request : message_encoder :=
  encode_message
    [("request_type", nas_encode_request_type)]
    [mkOptional 0x1 0xd0 "esm_information_transfer_flag" nas_encode_esm_information_transfer_flag true;
     mkOptional 0x2 0x28 "access_point_name" nas_encode_access_point_name false;
     mkOptional 0x4 0x27 "protocol_configuration_options" nas_encode_protocol_configuration_options false;
     mkOptional 0x8 0xc0 "device_properties" nas_encode_device_properties true;
     mkOptional 0x10 0x33 "nbifom_container" nas_encode_nbifom_container false;
     mkOptional 0x20 0x66 "header_compression_configuration" nas_encode_header_compression_configuration false;
     mkOptional 0x40 0x7b "extended_protocol_configuration_options" nas_encode_extended_protocol_configuration_options false].

Definition nas_encode_pdn_connectivity_reject : message_encoder :=
  encode_message
    [("esm_cause", nas_encode_esm_cause)]
    [mkOptional 0x1 0x27 "protocol_configuration_options" nas_encode_protocol_configuration_options false;
     mkOptional 0x2 0x37 "back_off_timer_value" nas_encode_gprs_timer_3 false;
     mkOptional 0x4 0x6b "re_attempt_indicator" nas_encode_re_attempt_indicator false;
     mkOptional 0x8 0x33 "nbifom_container" nas_encode_nbifom_container false;
     mkOptional 0x10 0x7b "extended_protocol_configuration_options" nas_encode_extended_protocol_configuration_options false].

Definition nas_encode_pdn_disconnect_request : message_encoder :=
  encode_message
    [("linked_eps_bearer_identity", nas_encode_linked_eps_bearer_identity)]
    [mkOptional 0x1 0x27 "protocol_configuration_options" nas_encode_protocol_configuration_options false;
     mkOptional 0x2 0x7b "extended_protocol_configuration_options" nas_encode_extended_protocol_configuration_options false].

Definition nas_encode_pdn_disconnect_reject : message_encoder :=
  encode_message
    [("esm_cause", nas_encode_esm_cause)]
    [mkOptional 0x1 0x27 "protocol_configuration_options" nas_encode_protocol_configuration_options false;
     mkOptional 0x2 0x7b "extended_protocol_configuration_options" nas_encode_extended_protocol_configuration_options false].

Definition nas_encode_bearer_resource_allocation_request : message_encoder :=
  encode_message
    [("linked_eps_bearer_identity", nas_encode_linked_eps_bearer_identity);
     ("traffic_flow_aggregate", nas_encode_traffic_flow_aggregate_description);
     ("required_traffic_flow_qos", nas_encode_eps_quality_of_service)]
    [mkOptional 0x1 0x27 "protocol_configuration_options" nas_encode_protocol_configuration_options false;
     mkOptional 0x2 0xc0 "device_properties" nas_encode_device_properties true;
     mkOptional 0x4 0x33 "nbifom_container" nas_encode_nbifom_container false;
     mkOptional 0x8 0x7b "extended_protocol_configuration_options" nas_encode_extended_protocol_configuration_options false].

Definition nas_encode_bearer_resource_allocation_reject : message_encoder :=
  encode_message
    [("esm_cause", nas_encode_esm_cause)]
    [mkOptional 0x1 0x27 "protocol_configuration_options" nas_encode_protocol_configuration_options false;
     mkOptional 0x2 0x37 "back_off_timer_value" nas_encode_gprs_timer_3 false;
     mkOptional 0x4 0x6b "re_attempt_indicator" nas_encode_re_attempt_indicator false;
     mkOptional 0x8 0x33 "nbifom_container" nas_encode_nbifom_container false;
     mkOptional 0x10 0x7b "extended_protocol_configuration_options" nas_encode_extended_protocol_configuration_options false].

Definition nas_encode_bearer_resource_modification_request : message_encoder :=
  encode_message
    [("eps_bearer_identity_for_packet_filter", nas_encode_linked_eps_bearer_identity);
     ("traffic_flow_aggregate", nas_encode_traffic_flow_aggregate_description)]
    [mkOptional 0x1 0x5b "required_traffic_flow_qos" nas_encode_eps_quality_of_service false;
     mkOptional 0x2 0x58 "esm_cause" nas_encode_esm_cause false;
     mkOptional 0x4 0x27 "protocol_configuration_options" nas_encode_protocol_configuration_options false;
     mkOptional 0x8 0xc0 "device_properties" nas_encode_device_properties true;
     mkOptional 0x10 0x33 "nbifom_container" nas_encode_nbifom_container false;
     mkOptional 0x20 0x66 "header_compression_configuration" nas_encode_header_compression_configuration false;
     mkOptional 0x40 0x7b "extended_protocol_configuration_options" nas_encode_extended_protocol_configuration_options false].

Definition nas_encode_bearer_resource_modification_reject : message_encoder :=
  encode_message
    [("esm_cause", nas_encode_esm_cause)]
    [mkOptional 0x1 0x27 "protocol_configuration_options" nas_encode_protocol_configuration_options false;
     mkOptional 0x2 0x37 "back_off_timer_value" nas_encode_gprs_timer_3 false;
     mkOptional 0x4 0x6b "re_attempt_indicator" nas_encode_re_attempt_indicator false;
     mkOptional 0x8 0x33 "nbifom_container" nas_encode_nbifom_container false;
     mkOptional 0x10 0x7b "extended_protocol_configuration_options" nas_encode_extended_protocol_configuration_options false].

Definition nas_encode_esm_information_response : message_encoder :=
  encode_message
    []
    [mkOptional 0x1 0x28 "access_point_name" nas_encode_access_point_name false;
     mkOptional 0x2 0x27 "protocol_configuration_options" nas_encode_protocol_configuration_options false;
     mkOptional 0x4 0x7b "extended_protocol_configuration_options" nas_encode_extended_protocol_configuration_options false].

Definition nas_encode_esm_status : message_encoder :=
  encode_message
    [("esm_cause", nas_encode_esm_cause)]
    [].

Definition nas_emm_encoders : encode_switch :=
  [(NAS_ATTACH_REQUEST, Some nas_encode_attach_request);
   (NAS_ATTACH_ACCEPT, Some nas_encode_attach_accept);
   (NAS_ATTACH_COMPLETE, Some nas_encode_attach_complete);
   (NAS_ATTACH_REJECT, Some nas_encode_attach_reject);
   (NAS_DETACH_REQUEST, Some nas_encode_detach_request_to_ue);
   (NAS_DETACH_ACCEPT, None);
   (NAS_TRACKING_AREA_UPDATE_REQUEST, Some nas_encode_tracking_area_update_request);
   (NAS_TRACKING_AREA_UPDATE_ACCEPT, Some nas_encode_tracking_area_update_accept);
   (NAS_TRACKING_AREA_UPDATE_COMPLETE, None);
   (NAS_TRACKING_AREA_UPDATE_REJECT, Some nas_encode_tracking_area_update_reject);
   (NAS_EXTENDED_SERVICE_REQUEST, Some nas_encode_extended_service_request);
   (NAS_SERVICE_REJECT, Some nas_encode_service_reject);
   (NAS_GUTI_REALLOCATION_COMMAND, Some nas_encode_guti_reallocation_command);
   (NAS_GUTI_REALLOCATION_COMPLETE, None);
   (NAS_AUTHENTICATION_REQUEST, Some nas_encode_authentication_request);
   (NAS_AUTHENTICATION_RESPONSE, Some nas_encode_authentication_response);
   (NAS_AUTHENTICATION_REJECT, None);
   (NAS_IDENTITY_REQUEST, Some nas_encode_identity_request);
   (NAS_IDENTITY_RESPONSE, Some nas_encode_identity_response);
   (NAS_AUTHENTICATION_FAILURE, Some nas_encode_authentication_failure);
   (NAS_SECURITY_MODE_COMMAND, Some nas_encode_security_mode_command);
   (NAS_SECURITY_MODE_COMPLETE, Some nas_encode_security_mode_complete);
   (NAS_SECURITY_MODE_REJECT, Some nas_encode_security_mode_reject);
   (NAS_EMM_STATUS, Some nas_encode_emm_status);
   (NAS_EMM_INFORMATION, Some nas_encode_emm_information);
   (NAS_DOWNLINK_NAS_TRANSPORT, Some nas_encode_downlink_nas_transport);
   (NAS_UPLINK_NAS_TRANSPORT, Some nas_encode_uplink_nas_transport);
   (NAS_CS_SERVICE_NOTIFICATION, Some nas_encode_cs_service_notification);
   (NAS_UPLINK_GENERIC_NAS_TRANSPORT, Some nas_encode_uplink_generic_nas_transport);
   (NAS_DOWNLINK_GENERIC_NAS_TRANSPORT, Some nas_encode_downlink_generic_nas_transport)].

Definition nas_esm_encoders : encode_switch :=
  [(NAS_ACTIVATE_DEFAULT_EPS_BEARER_CONTEXT_REQUEST, Some nas_encode_activate_default_eps_bearer_context_request);
   (NAS_ACTIVATE_DEFAULT_EPS_BEARER_CONTEXT_ACCEPT, Some nas_encode_activate_default_eps_bearer_context_accept);
   (NAS_ACTIVATE_DEFAULT_EPS_BEARER_CONTEXT_REJECT, Some nas_encode_activate_default_eps_bearer_context_reject);
   (NAS_ACTIVATE_DEDICATED_EPS_BEARER_CONTEXT_REQUEST, Some nas_encode_activate_dedicated_eps_bearer_context_request);
   (NAS_ACTIVATE_DEDICATED_EPS_BEARER_CONTEXT_ACCEPT, Some nas_encode_activate_dedicated_eps_bearer_context_accept);
   (NAS_ACTIVATE_DEDICATED_EPS_BEARER_CONTEXT_REJECT, Some nas_encode_activate_dedicated_eps_bearer_context_reject);
   (NAS_MODIFY_EPS_BEARER_CONTEXT_REQUEST, Some nas_encode_modify_eps_bearer_context_request);
   (NAS_MODIFY_EPS_BEARER_CONTEXT_ACCEPT, Some nas_encode_modify_eps_bearer_context_accept);
   (NAS_MODIFY_EPS_BEARER_CONTEXT_REJECT, Some nas_encode_modify_eps_bearer_context_reject);
   (NAS_DEACTIVATE_EPS_BEARER_CONTEXT_REQUEST, Some nas_encode_deactivate_eps_bearer_context_request);
   (NAS_DEACTIVATE_EPS_BEARER_CONTEXT_ACCEPT, Some nas_encode_deactivate_eps_bearer_context_accept);
   (NAS_PDN_CONNECTIVITY_REQUEST, Some nas_encode_pdn_connectivity_request);
   (NAS_PDN_CONNECTIVITY_REJECT, Some nas_encode_pdn_connectivity_reject);
   (NAS_PDN_DISCONNECT_REQUEST, Some nas_encode_pdn_disconnect_request);
   (NAS_PDN_DISCONNECT_REJECT, Some nas_encode_pdn_disconnect_reject);
   (NAS_BEARER_RESOURCE_ALLOCATION_REQUEST, Some nas_encode_bearer_resource_allocation_request);
   (NAS_BEARER_RESOURCE_ALLOCATION_REJECT, Some nas_encode_bearer_resource_allocation_reject);
   (NAS_BEARER_RESOURCE_MODIFICATION_REQUEST, Some nas_encode_bearer_resource_modification_request);
   (NAS_BEARER_RESOURCE_MODIFICATION_REJECT, Some nas_encode_bearer_resource_modification_reject);
   (NAS_ESM_INFORMATION_REQUEST, None);
   (NAS_ESM_INFORMATION_RESPONSE, Some nas_encode_esm_information_response);
   (NAS_ESM_STATUS, Some nas_encode_esm_status)].

(** [nas_emm_encode]: whether it returns [CORE_OK], the pointer [pkbuf] it gives
    out and the message.  [alloc] is the packet that [pkbuf_alloc(NAS_HEADROOM, MAX_SDU_LEN)]
    returns. *)
Definition nas_emm_encode (alloc : option buf) (msg : nas_message)
  : option (bool * option buf * nas_message) :=
  match alloc with
  | None => Some (false, None, msg)
  | Some b =>
      let h := take 2 (hdr msg) in
      let '(ok, b) := header b (-2) in
      if negb ok then Some (false, Some b, msg)
      else
        b ← mstore b (payload (pk b) - 2) h;
        if decide (security_header_type h >= NAS_SECURITY_HEADER_FOR_SERVICE_REQUEST_MESSAGE) then
          let '(ok, b) := header b 1 in
          if negb ok then Some (false, Some b, msg)
          else encode_call h 1 nas_encode_service_request b (nas msg)
        else encode_by_type (emm_message_type h) nas_emm_encoders h b (nas msg)
  end.

Definition nas_esm_encode (alloc : option buf) (msg : nas_message)
  : option (bool * option buf * nas_message) :=
  match alloc with
  | None => Some (false, None, msg)
  | Some b =>
      let h := take 3 (hdr msg) in
      let '(ok, b) := header b (-3) in
      if negb ok then Some (false, Some b, msg)
      else
        b ← mstore b (payload (pk b) - 3) h;
        encode_by_type (esm_message_type h) nas_esm_encoders h b (nas msg)
  end.

(** The two headers of the union begin with the same octet.  [pkbuf] is the value
    of that pointer before the call. *)
Definition nas_plain_encode (pkbuf alloc : option buf) (msg : nas_message)
  : option (bool * option buf * nas_message) :=
  if decide (protocol_discriminator (hdr msg) = NAS_PROTOCOL_DISCRIMINATOR_EMM)
  then nas_emm_encode alloc msg
  else if decide (protocol_discriminator (hdr msg) = NAS_PROTOCOL_DISCRIMINATOR_ESM)
  then nas_esm_encode alloc msg
  else Some (false, pkbuf, msg).

End NasEncoder.
