(* ===== verification/NasSafety.v ===== *)
(** What decoding a NAS message does to the packet, whatever the packet holds, and
    that the loop on the optional elements ends. *)

From S2P Require Import Prelude Pkbuf Misc Types3gpp NasIes NasMessage NasTables NasDecoder.

Module NasSafety.
Import Pkbuf NasIes NasMessage NasTables NasDecoder.
#[local] Open Scope Z_scope.

(** ** Decoders of elements *)

(** A packet whose length is that of [pkbuf->len]. *)
Definition sized (b : buf) : Prop := 0 <= len (pk b) < 2 ^ 16.

(** From [b] to [b'] the payload has moved by [n] octets; nothing is written. *)
Definition moved (n : Z) (b b' : buf) : Prop :=
  sized b' /\ payload (pk b') = payload (pk b) + n /\ len (pk b') = len (pk b) - n.

(** A decoder does not write to the packet, and moves past what it says it took. *)
Class Steady (d : decoder) : Prop :=
  steady v b n b' v' : sized b -> d v b = Some (n, b', v') ->
    mem b' = mem b /\ (0 <= n -> moved n b b').

Lemma moved_refl b : sized b -> moved 0 b b.
Proof. intros H. split_and!; [done|lia..]. Qed.

Lemma moved_trans n1 n2 b b1 b2 : moved n1 b b1 -> moved n2 b1 b2 -> moved (n1 + n2) b b2.
Proof. intros (_ & P1 & L1) (H & P2 & L2). split_and!; [done|lia..]. Qed.

Lemma header_mem b n ok b' : header b n = (ok, b') -> mem b' = mem b.
Proof. unfold header. destruct (pkbuf_header _ _). by intros [= <- <-]. Qed.

Lemma header_moved b n b' : sized b -> n <= 0 -> header b n = (true, b') -> moved (- n) b b'.
Proof.
  unfold header, pkbuf_header, sized. intros Hb Hn.
  repeat case_decide; intros [= <-]; split_and!; cbn; try (split; cbn); lia || rewrite ?u16_id; unfold inw; lia.
Qed.

Lemma i16_nonneg n : 0 <= i16 n -> 0 <= n < 2 ^ 16 -> n < 2 ^ 15 /\ i16 n = n /\ i16 (- n) = - n.
Proof. unfold i16. intros. repeat case_decide; lia. Qed.

(** The tail of a decoder that moves by [n], reads, and answers [i16 n]. *)
Lemma taken n b b' : 0 <= n < 2 ^ 16 -> sized b -> header b (i16 (- n)) = (true, b') ->
  0 <= i16 n -> moved (i16 n) b b'.
Proof.
  intros Hn Hb Hh Hi. destruct (i16_nonneg n Hi Hn) as (Hlt & -> & E). rewrite E in Hh.
  rewrite <- (Z.opp_involutive n). apply header_moved; [done|lia|done].
Qed.

Ltac dec_step H :=
  match type of H with
  | (x ← ?e; _) = Some _ => let E := fresh "E" in destruct e eqn:E; cbn [mbind option_bind] in H; [|discriminate H]
  | (let '(_, _) := ?e in _) = _ => let E := fresh "Eh" in destruct e as [[] ?] eqn:E; cbn [negb] in H
  | Some _ = Some _ => injection H as <- <- <-
  end.

#[export] Instance decode_v_steady size f :
  TCEq (bool_decide (Z.of_nat size < 2 ^ 16)) true -> Steady (decode_v size f).
Proof.
  intros Hs%TCEq_eq%bool_decide_eq_true_1 v b n b' v' Hb H. unfold decode_v in H. repeat dec_step H.
  - split; [by eapply header_mem|]. by apply taken; [lia|..].
  - split; [by eapply header_mem|lia].
Qed.

#[export] Instance decode_tv1_steady : Steady decode_tv1.
Proof.
  intros v b n b' v' Hb H. unfold decode_tv1 in H. repeat dec_step H.
  split; [done|]. intros _. by apply moved_refl.
Qed.

#[export] Instance decode_lv_steady w f : Steady (decode_lv w f).
Proof.
  intros v b n b' v' Hb H. unfold decode_lv in H. repeat dec_step H.
  - split; [by eapply header_mem|]. by apply taken; [apply u16_inw|..].
  - split; [by eapply header_mem|lia].
Qed.

#[export] Instance decode_container_steady : Steady decode_container.
Proof.
  intros v b n b' v' Hb H. unfold decode_container in H. repeat dec_step H.
  - split; [by eapply header_mem|]. by apply taken; [apply u16_inw|..].
  - split; [by eapply header_mem|lia].
Qed.

#[export] Instance access_point_name_steady : Steady nas_decode_access_point_name.
Proof.
  intros v b n b' v' Hb H. unfold nas_decode_access_point_name in H.
  destruct (decode_lv 1 (fun s => s) v b) as [[[n1 b1] v1]|] eqn:E1; cbn [mbind option_bind] in H; [|discriminate H].
  pose proof (steady v b n1 b1 v1 Hb E1) as Hst. case_decide; [by injection H as <- <- <-|].
  destruct (Types3gpp.apn_parse _ _ _) as [[]|]; cbn [mbind option_bind] in H; [|discriminate H].
  by repeat dec_step H.
Qed.

(** ** Decoders of messages *)

(** The same for a function that fills a structure. *)
Definition steady_message (f : message_decoder) : Prop := forall m b n b' m',
  sized b -> f m b = Some (n, b', m') -> mem b' = mem b /\ (0 <= n -> moved n b b').

Lemma decode_field_steady f d : Steady d -> steady_message (decode_field f d).
Proof.
  intros Hd m b n b' m' Hb H. unfold decode_field in H.
  destruct (fields m !! f) as [v|]; cbn [mbind option_bind] in H; [|discriminate H].
  destruct (d v b) as [[[n1 b1] v1]|] eqn:E; cbn [mbind option_bind] in H; [|discriminate H].
  injection H as <- <- <-. by eapply steady.
Qed.

(** [decoded] counts what has been taken since the packet was [b0]. *)
Definition so_far (b0 b : buf) (decoded : Z) : Prop :=
  mem b = mem b0 /\ moved decoded b0 b.

Lemma so_far_step b0 b decoded n b' :
  so_far b0 b decoded -> mem b' = mem b /\ (0 <= n -> moved n b b') -> 0 <= n ->
  so_far b0 b' (decoded + n).
Proof. intros [Em Hm] [Em' Hn] H. split; [congruence|]. eapply moved_trans; [done|by apply Hn]. Qed.

Lemma decode_mandatory_steady l :
  Forall (fun r => Steady r.2) l -> forall b0 b decoded m n b' m', 0 <= decoded -> so_far b0 b decoded ->
  decode_mandatory l m b decoded = Some (n, b', m') ->
  mem b' = mem b0 /\ (0 <= n -> so_far b0 b' n).
Proof.
  induction 1 as [|[f d] l Hd Hl IH]; intros b0 b decoded m n b' m' Hdec Hs H; cbn [decode_mandatory] in H.
  - injection H as <- <- <-. split; [apply Hs|done].
  - destruct (decode_field f d m b) as [[[n1 b1] m1]|] eqn:E; cbn [mbind option_bind] in H; [|discriminate H].
    assert (sized b) as Hb by apply Hs. pose proof (decode_field_steady f d Hd m b n1 b1 m1 Hb E) as Hst.
    case_decide.
    + injection H as <- <- <-. split; [|lia]. destruct Hs, Hst. congruence.
    + eapply (IH b0 b1); [|apply (so_far_step b0 b decoded n1 b1 Hs Hst); lia|exact H]. lia.
Qed.

Lemma decode_optional_steady cases :
  Forall (fun c => Steady (c_decode c)) cases -> forall fuel b0 b decoded m n b' m', 0 <= decoded ->
  so_far b0 b decoded -> decode_optional fuel cases m b decoded = Some (n, b', m') ->
  mem b' = mem b0 /\ (0 <= n -> so_far b0 b' n).
Proof.
  intros Hcases. induction fuel as [|fuel IH]; intros b0 b decoded m n b' m' Hdec Hs H; [done|].
  assert (sized b) as Hb by apply Hs. pose proof Hs as [Em _].
  cbn [decode_optional] in H. case_decide as Hlen; [|injection H as <- <- <-; by split].
  destruct (mload b _ 1) as [src|]; cbn [mbind option_bind] in H; [|discriminate H].
  destruct (header b (-1)) as [[] b1] eqn:Eh; cbn [negb] in H; pose proof (header_mem _ _ _ _ Eh) as Em1.
  2: { injection H as <- <- <-. split; [congruence|lia]. }
  assert (so_far b0 b1 (decoded + 1)) as Hs1.
  { eapply so_far_step; [done| |done]. split; [done|]. intros _. by apply (header_moved b (-1) b1). }
  destruct (List.find _ cases) as [c|] eqn:Ef; [|by eapply (IH b0 b1); [|exact Hs1|exact H]; lia].
  apply find_some in Ef as [Hin%list_elem_of_In _]. rewrite Forall_forall in Hcases.
  destruct (decode_field _ _ m b1) as [[[n1 b2] m1]|] eqn:E; cbn [mbind option_bind] in H; [|discriminate H].
  assert (sized b1) as Hb1 by apply Hs1.
  pose proof (decode_field_steady _ _ (Hcases c Hin) m b1 n1 b2 m1 Hb1 E) as Hst. case_decide.
  - injection H as <- <- <-. split; [|lia]. destruct Hs1, Hst. congruence.
  - eapply (IH b0 b2); [|apply (so_far_step b0 b1 _ n1 b2 Hs1 Hst); lia|exact H]. lia.
Qed.


(** A function over elements whose decoders are steady. *)
Inductive steady_code : message_decoder -> Prop :=
| steady_fixed M : Forall (fun r => Steady r.2) M -> steady_code (decode_fixed M)
| steady_loop M cases : Forall (fun r => Steady r.2) M -> Forall (fun c => Steady (c_decode c)) cases ->
    steady_code (decode_message M cases).

Lemma steady_code_message f : steady_code f -> steady_message f.
Proof.
  intros Hf m b n b' m' Hb H.
  assert (so_far b b 0) as Hs by (split; [done|by apply moved_refl]).
  assert (forall P : Prop, mem b' = mem b /\ (0 <= n -> so_far b b' n) -> (so_far b b' n -> P) ->
    mem b' = mem b /\ (0 <= n -> P)) as Hout by (intros P [H1 H2] H3; split; [done|auto]).
  apply (Hout (moved n b b')); [|by intros []]. clear Hout. destruct Hf as [M HM|M cases HM HC].
  - by apply (decode_mandatory_steady M HM b b 0 m n b' m').
  - unfold decode_message in H.
    destruct (decode_mandatory M m b 0) as [[[n1 b1] m1]|] eqn:E; cbn [mbind option_bind] in H; [|discriminate H].
    destruct (decode_mandatory_steady M HM b b 0 m n1 b1 m1 ltac:(done) Hs E) as [Em Hs1]. case_decide.
    + injection H as <- <- <-. split; [done|lia].
    + eapply (decode_optional_steady cases HC _ b b1 n1); [lia| |exact H]. apply Hs1. lia.
Qed.

(** ** The tables *)

(** A row of a switch: its function, if it has one, is over steady elements. *)
Definition steady_row (r : Z * (struct * option message_decoder)) : Prop :=
  from_option steady_code True r.2.2.

(** Elements are told apart by the shapes of their decoders. *)
#[local] Typeclasses Opaque decode_v decode_tv1 decode_lv decode_container nas_decode_access_point_name.

Ltac steady_elements := repeat (constructor; [cbn [snd c_decode]; apply _|]); constructor.

Ltac steady_message_code :=
  lazymatch goal with |- steady_code ?f => unfold f end;
  lazymatch goal with
  | |- steady_code (decode_fixed ?M) => apply (steady_fixed M); steady_elements
  | |- steady_code (decode_message ?M ?c) => apply (steady_loop M c); steady_elements
  end.

Ltac steady_rows :=
  repeat (constructor; [unfold steady_row; cbn [from_option snd]; first [exact I|steady_message_code]|]); constructor.

Lemma emm_decoders_steady : Forall steady_row nas_emm_decoders.
Proof. unfold nas_emm_decoders. steady_rows. Qed.

Lemma esm_decoders_steady : Forall steady_row nas_esm_decoders.
Proof. unfold nas_esm_decoders. steady_rows. Qed.

Lemma service_request_steady : steady_code nas_decode_service_request.
Proof. steady_message_code. Qed.

(** The functions that [nas_emm_decode] and [nas_esm_decode] call. *)
Definition called (f : message_decoder) : Prop :=
  f = nas_decode_service_request \/
  exists t s, (t, (s, Some f)) ∈ nas_emm_decoders \/ (t, (s, Some f)) ∈ nas_esm_decoders.

Lemma called_steady f : called f -> steady_code f.
Proof.
  intros [->|(t & s & H)]; [apply service_request_steady|].
  pose proof emm_decoders_steady as He. pose proof esm_decoders_steady as Hs.
  rewrite Forall_forall in He, Hs. by destruct H as [H|H]; [apply (He _ H)|apply (Hs _ H)].
Qed.

(** ** Whole packets *)

(** On any packet, each of the functions for the messages leaves the packet's
    cluster alone, and if it succeeds it has moved the payload forward by exactly the
    number of octets that it returns, all of which were in the packet. *)
Theorem nas_decode_consumes f m b n b' m' :
  called f -> sized b -> f m b = Some (n, b', m') ->
  mem b' = mem b /\
  (0 <= n -> n <= len (pk b) /\ payload (pk b') = payload (pk b) + n /\ len (pk b') = len (pk b) - n).
Proof.
  intros Hf Hb H. destruct (steady_code_message f (called_steady f Hf) m b n b' m' Hb H) as [Hm Hn].
  split; [done|]. intros Hpos. destruct (Hn Hpos) as (Hs & Hp & Hl). unfold sized in Hs. lia.
Qed.


(** ** Examples *)

(** A packet whose payload is [l], with as much headroom as NAS messages have. *)
Definition packet (l : list Z) : buf :=
  mkBuf (mkPkbuf None 0 16 (Z.of_nat (length l)) (Z.of_nat (length l)) 0) (replicate 16 0 ++ l).

(** An EMM INFORMATION message (without its header) with a time zone and an element
    that is not known. *)
Definition sample_information : list Z := [0x46; 0x40; 0x11; 0x46; 0x04].

Lemma nas_decode_consumes_witness :
  exists n b' m', nas_decode_emm_information (zero_body nas_emm_information_t) (packet sample_information) =
      Some (n, b', m') /\ n = 5 /\ payload (pk b') = 21 /\ len (pk b') = 0.
Proof.
  destruct (nas_decode_emm_information (zero_body nas_emm_information_t) (packet sample_information))
    as [[[n b'] m']|] eqn:E; [|by vm_compute in E].
  exists n, b', m'. split; [done|].
  assert (n = 5) as Hn by (vm_compute in E; congruence). subst n.
  destruct (nas_decode_consumes nas_decode_emm_information (zero_body nas_emm_information_t)
    (packet sample_information) 5 b' m') as [_ H]; [|by split_and!|exact E|].
  - right. exists NAS_EMM_INFORMATION, nas_emm_information_t. left. by repeat constructor.
  - by destruct (H ltac:(done)) as (_ & -> & ->).
Defined.


End NasSafety.
