(* ===== verification/NasIesSpec.v ===== *)
(** What the functions of [NasIes] promise to the functions of the messages: an
    element that is encoded is decoded again.  The promise is a class, with an
    instance for every pair of functions that keeps it; the P-TMSI signature does
    not. *)

From S2P Require Import Prelude Pkbuf Misc Types3gpp NasIes.

Module NasIesSpec.
Import Pkbuf NasIes.

(** ** The interface *)

(** [wire v] is what the encoder writes for [v] and [norm v] what the decoder makes
    of it in a structure of [size] bytes that are all zero. *)
Class IeCodec (size : nat) (e : encoder) (d : decoder) := {
  ok : ie -> Prop;
  wire : ie -> list Z;
  norm : ie -> ie;
  encode_ok : forall v b pre old m post,
    ok v -> view b pre (old ++ m) post -> length old = length (wire v) ->
    exists b', e b v = Some (Z.of_nat (length (wire v)), b', v) /\ view b' (pre ++ wire v) m post;
  decode_ok : forall v b pre m post,
    ok v -> view b pre (wire v ++ m) post ->
    exists b', d (zero size) b = Some (Z.of_nat (length (wire v)), b', norm v) /\
               view b' (pre ++ wire v) m post
}.
Arguments ok {_ _ _ _}.
Arguments wire {_ _ _ _}.
Arguments norm {_ _ _ _}.

(** The same for half an octet, which is decoded after the octet that holds it. *)
Class HalfCodec (e : encoder) (d : decoder) := {
  half_encode_ok : forall v x b pre y m post,
    st v = [x] -> view b pre (y :: m) post ->
    exists b', e b v = Some (1, b', v) /\ view b' (pre ++ [x]) m post;
  half_decode_ok : forall x b pre m post,
    view b (pre ++ [x]) m post -> d (zero 1) b = Some (0, b, mkIe [x] None)
}.

(** ** Reading and writing next to the payload *)

Lemma le_value_1 x l : le_value 1 (x :: l) = x.
Proof. change (le_value 1 (x :: l)) with (x * 2 ^ (8 * Z.of_nat 0) + 0). lia. Qed.

Lemma i16_neg n : 0 <= n <= 2 ^ 15 -> i16 (- n) = - n.
Proof. unfold i16. intros. case_decide; lia. Qed.
Lemma i16_pos n : 0 <= n < 2 ^ 15 -> i16 n = n.
Proof. unfold i16. intros. case_decide; lia. Qed.

Lemma mload_behind b pre h m post n :
  view b (pre ++ h) m post -> n = length h -> mload b (payload (pk b) - Z.of_nat n) n = Some h.
Proof.
  intros (E & Hp & _) ->. unfold mload. rewrite Hp, length_app, decide_True by lia.
  replace (Z.to_nat _) with (length pre) by lia.
  rewrite E, <- (assoc_L (++)). by apply load_app.
Qed.

Lemma mload_front b pre h m post n :
  view b pre (h ++ m) post -> n = length h -> mload b (payload (pk b)) n = Some h.
Proof.
  intros (E & Hp & _) ->. unfold mload. rewrite Hp, decide_True, Nat2Z.id by lia.
  rewrite E, <- (assoc_L (++)). by apply load_app.
Qed.

Lemma mstore_behind b pre old m post l n :
  view b (pre ++ old) m post -> length old = length l -> n = Z.of_nat (length l) ->
  exists b', mstore b (payload (pk b) - n) l = Some b' /\ view b' (pre ++ l) m post.
Proof.
  intros (E & Hp & Hl & Hm) Ho ->. unfold mstore. rewrite Hp, length_app, decide_True by lia.
  replace (Z.to_nat _) with (length pre) by lia.
  rewrite E, <- (assoc_L (++)), store_app by done. cbn [mbind option_bind].
  eexists. split; [done|]. split_and!; cbn [mem pk].
  - by rewrite <- (assoc_L (++)).
  - rewrite Hp, !length_app. lia.
  - done.
  - done.
Qed.

(** Moving past [h], read or about to be written. *)
Lemma header_past b pre h m post n :
  view b pre (h ++ m) post -> n = Z.of_nat (length h) -> n <= 2 ^ 15 ->
  exists b', header b (i16 (- n)) = (true, b') /\ view b' (pre ++ h) m post.
Proof.
  intros Hv -> Hn. rewrite i16_neg by lia. destruct h as [|x h].
  - exists b. cbn [app] in Hv. rewrite app_nil_r. split; [|done].
    unfold header. cbn. by destruct b.
  - destruct (header_pop b pre (x :: h) m post (- Z.of_nat (length (x :: h)))) as (b' & -> & Hv');
      [done..|]. by exists b'.
Qed.

Lemma store_zero size l :
  (length l <= size)%nat -> store (replicate size 0) 0 l = Some (l ++ replicate (size - length l) 0).
Proof.
  intros Hl. unfold store. rewrite decide_True by (rewrite length_replicate; lia).
  rewrite put_split by (rewrite length_replicate; lia). cbn [take app Nat.add].
  by rewrite drop_replicate.
Qed.

(** ** Fixed structures *)

Lemma decode_v_ok size g b pre h m post :
  view b pre (h ++ m) post -> length h = size -> Z.of_nat size < 2 ^ 15 ->
  exists b', decode_v size g (zero size) b = Some (Z.of_nat size, b', mkIe (g h) None) /\
             view b' (pre ++ h) m post.
Proof.
  intros Hv Hh Hs. unfold decode_v.
  destruct (header_past b pre h m post (Z.of_nat size)) as (b' & -> & Hv'); [done|lia..|].
  cbn [negb]. rewrite (mload_behind b' pre h m post) by done. cbn [mbind option_bind zero st].
  rewrite store_zero by lia. cbn [mbind option_bind]. rewrite Hh, Nat.sub_diag, app_nil_r, i16_pos by lia.
  by exists b'.
Qed.

Lemma encode_v_ok size f v b pre old m post :
  view b pre (old ++ m) post -> length (f (st v)) = size -> length old = size ->
  Z.of_nat size < 2 ^ 15 ->
  exists b', encode_v size f b v = Some (Z.of_nat size, b', v) /\ view b' (pre ++ f (st v)) m post.
Proof.
  intros Hv Hf Ho Hs. unfold encode_v.
  destruct (header_past b pre old m post (Z.of_nat size)) as (b' & -> & Hv'); [done|lia..|].
  cbn [negb]. unfold load. rewrite decide_True by lia. cbn [mbind option_bind]. rewrite drop_0.
  rewrite take_ge by lia.
  destruct (mstore_behind b' pre old m post (f (st v)) (Z.of_nat size)) as (b2 & -> & Hv2); [done|lia..|].
  cbn [mbind option_bind]. rewrite i16_pos by lia. by exists b2.
Qed.

(** [f] and [g] leave the size alone. *)
Definition v_codec size f g (Hsize : Z.of_nat size < 2 ^ 15) (Hf : forall s, length (f s) = length s)
  : IeCodec size (encode_v size f) (decode_v size g).
Proof.
  refine {| ok v := length (st v) = size; wire v := f (st v); norm v := mkIe (g (f (st v))) None |}.
  - intros v b pre old m post Hok Hv Ho. rewrite Hf, Hok in *. apply (encode_v_ok size f v b pre old); try done.
    by rewrite Hf.
  - intros v b pre m post Hok Hv. rewrite Hf, Hok.
    apply (decode_v_ok size g b pre (f (st v)) m post); [done|by rewrite Hf|done].
Defined.

Lemma half_codec : HalfCodec (encode_v 1 (fun s => s)) decode_tv1.
Proof.
  split.
  - intros v x b pre y m post Hx Hv.
    pose proof (encode_v_ok 1 (fun s => s) v b pre [y] m post) as H. rewrite Hx in H. by apply H.
  - intros x b pre m post Hv. unfold decode_tv1.
    pose proof (mload_behind b pre [x] m post 1 Hv eq_refl) as E. change (Z.of_nat 1) with 1 in E.
    by rewrite E.
Qed.

(** ** Structures with their length *)

Section lv.
Context (w size : nat).

(** The bytes of [v] that are sent. *)
Definition lv_size (v : ie) : nat := Z.to_nat (le_value w (st v) + Z.of_nat w).

Definition lv_ok (v : ie) : Prop :=
  length (st v) = size /\ bytes (take w (st v)) /\ (lv_size v <= size)%nat.

Context (Hsize : Z.of_nat size < 2 ^ 15).

(** [f] leaves the length alone. *)
Definition keeps_length (f : list Z -> list Z) : Prop :=
  forall s, length s = size -> length (f s) = size /\ take w (f s) = take w s.

Lemma le_value_bound l : bytes (take w l) -> 0 <= le_value w l.
Proof. intros Hl. unfold le_value. apply (be_bound (reverse (take w l))). by apply Forall_reverse. Qed.

Lemma lv_size_bound v : lv_ok v -> le_value w (st v) + Z.of_nat w = Z.of_nat (lv_size v) /\
  (w <= lv_size v)%nat /\ Z.of_nat (lv_size v) < 2 ^ 15.
Proof. intros (Hl & Hb & Hs). pose proof (le_value_bound _ Hb). unfold lv_size in *. lia. Qed.

Lemma le_value_take l l' : take w l = take w l' -> le_value w l = le_value w l'.
Proof. unfold le_value. by intros ->. Qed.

Lemma encode_lv_ok f v b pre old m post :
  keeps_length f -> lv_ok v -> view b pre (old ++ m) post -> length old = lv_size v ->
  exists b', encode_lv w f b v = Some (Z.of_nat (lv_size v), b', v) /\
             view b' (pre ++ take (lv_size v) (f (st v))) m post.
Proof.
  intros Hf Hok Hv Ho. destruct (lv_size_bound v Hok) as (En & Hn & Hn'). destruct Hok as (Hl & Hb & Hs).
  unfold encode_lv. rewrite En, u16_id by (unfold inw; lia).
  destruct (header_past b pre old m post (Z.of_nat (lv_size v))) as (b' & -> & Hv'); [done|lia..|].
  destruct (Hf _ Hl) as [Hlf _]. cbn [negb]. unfold load. rewrite Nat2Z.id, decide_True by lia.
  cbn [mbind option_bind]. rewrite drop_0.
  destruct (mstore_behind b' pre old m post (take (lv_size v) (f (st v))) (Z.of_nat (lv_size v)))
    as (b2 & -> & Hv2); [done|rewrite length_take; lia..|].
  cbn [mbind option_bind]. rewrite i16_pos by lia. by exists b2.
Qed.

(** What the decoder makes of the bytes [h] it copies. *)
Definition received (g : list Z -> list Z) (h : list Z) : ie := mkIe (g (h ++ replicate (size - length h) 0)) None.

Lemma decode_lv_ok g b pre h m post :
  view b pre (h ++ m) post -> (w <= length h <= size)%nat ->
  le_value w h + Z.of_nat w = Z.of_nat (length h) ->
  exists b', decode_lv w g (zero size) b = Some (Z.of_nat (length h), b', received g h) /\
             view b' (pre ++ h) m post.
Proof.
  intros Hv Hh En. unfold decode_lv.
  rewrite <- (take_drop w h), <- (assoc_L (++)) in Hv.
  rewrite (mload_front _ _ _ _ _ w Hv) by (rewrite length_take; lia). cbn [mbind option_bind zero st buffer].
  rewrite (assoc_L (++)), take_drop in Hv.
  rewrite store_zero by (rewrite length_take; lia). cbn [mbind option_bind].
  assert (le_value w (take w h) = le_value w h) as -> by (apply le_value_take; by rewrite take_take, Nat.min_id).
  rewrite En, u16_id by (unfold inw; lia).
  destruct (header_past b pre h m post (Z.of_nat (length h))) as (b' & -> & Hv'); [done|lia..|].
  cbn [negb]. rewrite Nat2Z.id, (mload_behind b' pre h m post) by done. cbn [mbind option_bind].
  unfold store. rewrite decide_True by (rewrite length_app, length_replicate, !length_take; lia).
  cbn [mbind option_bind]. rewrite i16_pos by lia. exists b'. split; [|done]. do 4 f_equal.
  rewrite put_split by (rewrite length_app, length_replicate, !length_take; lia).
  unfold received. rewrite take_0, app_nil_l, skipn_app, (drop_ge (take w h)) by (rewrite length_take; lia).
  rewrite app_nil_l, drop_replicate, length_take. do 4 f_equal. lia.
Qed.

Definition lv_codec f g (Hf : keeps_length f) : IeCodec size (encode_lv w f) (decode_lv w g).
Proof.
  refine {| ok := lv_ok; wire v := take (lv_size v) (f (st v));
            norm v := received g (take (lv_size v) (f (st v))) |}.
  - intros v b pre old m post Hok Hv Ho. pose proof Hok as (Hl & _ & Hs). destruct (Hf _ Hl) as [Hlf _].
    rewrite length_take, Nat.min_l in * by lia. by apply (encode_lv_ok f v b pre old).
  - intros v b pre m post Hok Hv. pose proof (lv_size_bound v Hok) as (En & Hn & _).
    destruct Hok as (Hl & Hb & Hs). destruct (Hf _ Hl) as [Hlf Ht].
    assert (length (take (lv_size v) (f (st v))) = lv_size v) as Hlt by (rewrite length_take; lia).
    apply decode_lv_ok; [done|lia|]. rewrite Hlt, <- En. f_equal. apply le_value_take.
    by rewrite take_take, Nat.min_l, Ht.
Defined.
End lv.

(** A structure whose unused bytes are zero comes back as it was. *)
Lemma lv_plain_norm w size v :
  lv_ok w size v -> buffer v = None -> drop (lv_size w v) (st v) = replicate (size - lv_size w v) 0 ->
  received size (fun s => s) (take (lv_size w v) (st v)) = v.
Proof.
  intros (Hl & _ & Hs) Hb Hz. unfold received. rewrite length_take, Nat.min_l, <- Hz, take_drop by lia.
  destruct v. cbn in *. by subst.
Qed.

(** ** Containers *)

Definition container_ok (v : ie) : Prop :=
  exists bs, buffer v = Some bs /\ Z.of_nat (length bs) + 2 < 2 ^ 15 /\
             st v = reverse (to_be 2 (Z.of_nat (length bs))).

Definition container_wire (v : ie) : list Z := reverse (st v) ++ default [] (buffer v).

Lemma container_length v (bs : list Z) :
  Z.of_nat (length bs) + 2 < 2 ^ 15 -> st v = reverse (to_be 2 (Z.of_nat (length bs))) ->
  le_value 2 (st v) = Z.of_nat (length bs) /\ length (st v) = 2%nat.
Proof.
  intros Hl ->. unfold le_value. rewrite length_reverse, length_to_be. split; [|done].
  rewrite take_ge, reverse_involutive by (rewrite length_reverse, length_to_be; done).
  rewrite be_to_be. lia.
Qed.

Definition container_codec : IeCodec 2 encode_container decode_container.
Proof.
  refine {| ok := container_ok; wire := container_wire; norm v := mkIe (st v) (buffer v) |}.
  - intros v b pre old m post (bs & Hbs & Hl & Hst) Hv Ho.
    destruct (container_length v bs Hl Hst) as [El Els].
    unfold container_wire in *. rewrite Hbs in *. cbn [from_option id] in *.
    rewrite length_app, length_reverse, Els in *.
    destruct (list_split_at 2 old) as (o1 & o2 & -> & Ho1); [lia|]. rewrite length_app in Ho.
    unfold encode_container. rewrite Hbs, El. rewrite <- (assoc_L (++)) in Hv.
    destruct (header_past b pre o1 _ post 2 Hv) as (b1 & E1 & Hv1); [lia..|].
    change (i16 (- (2))) with (-2) in E1. rewrite E1. cbn [negb]. rewrite take_ge by lia.
    destruct (mstore_behind b1 pre o1 (o2 ++ m) post (reverse (st v)) 2) as (b2 & -> & Hv2);
      [done|rewrite length_reverse; lia..|]. cbn [mbind option_bind].
    destruct (header_past b2 _ o2 m post (Z.of_nat (length bs)) Hv2) as (b3 & -> & Hv3); [lia..|].
    cbn [negb]. unfold load. rewrite Nat2Z.id, decide_True by lia. cbn [mbind option_bind]. rewrite drop_0.
    rewrite take_ge by lia.
    destruct (mstore_behind b3 _ o2 m post bs (Z.of_nat (length bs)) Hv3) as (b4 & -> & Hv4); [lia..|].
    cbn [mbind option_bind]. rewrite i16_pos by lia. exists b4.
    split; [do 3 f_equal; lia|]. by rewrite (assoc_L (++)).
  - intros v b pre m post (bs & Hbs & Hl & Hst) Hv.
    destruct (container_length v bs Hl Hst) as [El Els].
    unfold container_wire in *. rewrite Hbs in *. cbn [from_option id] in *. unfold decode_container.
    pose proof Hv as Hv0. rewrite <- (assoc_L (++)) in Hv0.
    rewrite (mload_front _ _ _ _ _ 2 Hv0) by (by rewrite length_reverse). cbn [mbind option_bind].
    assert (be (reverse (st v)) = Z.of_nat (length bs)) as ->.
    { rewrite <- El. unfold le_value. by rewrite take_ge by lia. }
    rewrite u16_id by (unfold inw; lia). rewrite length_app, length_reverse, Els.
    destruct (header_past b pre _ m post (Z.of_nat (length bs) + 2) Hv) as (b' & -> & Hv');
      [rewrite length_app, length_reverse; lia|lia|]. cbn [negb].
    destruct Hv' as (E & Hp & Hv'). unfold mfrom. rewrite Hp, E.
    rewrite !length_app, length_reverse, Els, decide_True by lia. cbn [mbind option_bind].
    replace (Z.of_nat (length pre + (2 + length bs)) - (Z.of_nat (length bs) + 2) + 2)
      with (Z.of_nat (length (pre ++ reverse (st v)))) by (rewrite length_app, length_reverse; lia).
    replace ((pre ++ reverse (st v) ++ bs) ++ m ++ post)
      with ((pre ++ reverse (st v)) ++ bs ++ (m ++ post)) by (by rewrite <- !(assoc_L (++))).
    rewrite get_app by done. rewrite reverse_involutive, i16_pos by lia. exists b'.
    split; [do 3 f_equal; lia|]. split_and!; [done|done|apply Hv'..].
Defined.

(** ** Conversions of fields *)

Lemma length_ntoh off n l : length (ntoh off n l) = length l.
Proof.
  unfold ntoh. rewrite !length_app, length_reverse, !length_take, !length_drop. lia.
Qed.

Lemma take_ntoh k off n l : (k <= off)%nat -> (off <= length l)%nat -> take k (ntoh off n l) = take k l.
Proof.
  intros Hk Hl. unfold ntoh. rewrite take_app_le by (rewrite length_take; lia).
  by rewrite take_take, Nat.min_l by lia.
Qed.

Lemma ntoh_ntoh off n l : (off + n <= length l)%nat -> ntoh off n (ntoh off n l) = l.
Proof.
  intros Hl. unfold ntoh at 1. set (a := take off l). set (b := take n (drop off l)).
  assert (length a = off) as Ha by (unfold a; rewrite length_take; lia).
  assert (length (reverse b) = n) as Hb by (unfold b; rewrite length_reverse, length_take, length_drop; lia).
  assert (ntoh off n l = a ++ reverse b ++ drop (off + n) l) as -> by done.
  rewrite take_app_length' by done.
  rewrite drop_app_length' by done. rewrite take_app_length' by done.
  rewrite reverse_involutive, <- drop_drop, drop_app_length' by done. rewrite drop_app_length' by done.
  unfold a, b. by rewrite <- drop_drop, !take_drop.
Qed.

Lemma set_spare_length l : length (set_spare l) = length l /\ take 1 (set_spare l) = take 1 l.
Proof. unfold set_spare. rewrite length_insert, take_insert_ge by lia. done. Qed.

(** ** Access point names *)

(** [v] holds the name of the labels [ls], none of which has a null character. *)
Definition apn_labels (v : ie) (ls : list (list Z)) : Prop :=
  ls <> [] /\ Forall Types3gppSpec.is_label ls /\ Forall (fun c => c <> 0) (Types3gppSpec.dotted ls) /\
  (length (Types3gppSpec.dotted ls) < 100)%nat /\
  exists rest, st v = Z.of_nat (length (Types3gppSpec.dotted ls)) :: Types3gppSpec.dotted ls ++ rest /\
    length (st v) = sizeof_access_point_name.

Definition apn_ok (v : ie) : Prop := exists ls, apn_labels v ls.

Definition apn_wire (v : ie) : list Z :=
  match Types3gpp.apn_build (drop 1 (st v)) (drop 1 (st v)) (Z.to_nat (rd (st v) 0)) with
  | Some (name, n) => n :: take (Z.to_nat n) name
  | None => []
  end.

(** The name, and zeros. *)
Definition apn_norm (v : ie) : ie :=
  let n := Z.to_nat (rd (st v) 0) in
  mkIe (take (S n) (st v) ++ replicate (sizeof_access_point_name - S n) 0) None.

Lemma apn_build_name v ls :
  apn_labels v ls ->
  let n := length (Types3gppSpec.dotted ls) in
  Types3gpp.apn_build (drop 1 (st v)) (drop 1 (st v)) (Z.to_nat (rd (st v) 0)) =
    Some (Types3gppSpec.labels ls ++ drop (S n) (drop 1 (st v)), Z.of_nat n + 1) /\
  length (Types3gppSpec.labels ls) = S n /\ apn_wire v = (Z.of_nat n + 1) :: Types3gppSpec.labels ls.
Proof.
  intros (Hne & Hls & Hc & Hn & rest & Hst & Hl) n.
  pose proof (Types3gppSpec.length_labels ls Hne) as HL.
  assert (Types3gpp.apn_build (drop 1 (st v)) (drop 1 (st v)) (Z.to_nat (rd (st v) 0)) =
    Some (Types3gppSpec.labels ls ++ drop (S n) (drop 1 (st v)), Z.of_nat n + 1)) as E.
  { rewrite Hst. rewrite skipn_cons, drop_0. change (rd (_ :: _) 0) with (Z.of_nat n). rewrite Nat2Z.id.
    apply Types3gppSpec.apn_build_spec; [done|done|].
    rewrite Hst in Hl. cbn [length] in Hl. rewrite length_app in *. unfold sizeof_access_point_name in Hl. lia. }
  split_and!; [done|done|]. unfold apn_wire. rewrite E.
  f_equal. rewrite take_app_le by lia. apply take_ge. lia.
Qed.

Lemma core_cpystrn_all l rest :
  Forall (fun c => c <> 0) l -> Misc.core_cpystrn (l ++ 0 :: rest) (S (length l)) = l.
Proof.
  induction 1 as [|c l Hc Hl IH]; [done|]. cbn [length app].
  change (Misc.core_cpystrn (c :: l ++ 0 :: rest) (S (S (length l))))
    with (if decide (c = 0) then [] else c :: Misc.core_cpystrn (l ++ 0 :: rest) (S (length l))).
  by rewrite decide_False, IH by done.
Qed.

Lemma apn_encode_ok v b pre old m post :
  apn_ok v -> view b pre (old ++ m) post -> length old = length (apn_wire v) ->
  exists b', nas_encode_access_point_name b v = Some (Z.of_nat (length (apn_wire v)), b', v) /\
             view b' (pre ++ apn_wire v) m post.
Proof.
  intros (ls & Hv) Hview Ho.
  destruct (apn_build_name v ls Hv) as (E & HL & Ew). rewrite Ew in *.
  unfold nas_encode_access_point_name. rewrite E. cbn [mbind option_bind].
  pose proof Hv as (Hne & Hls & Hc & Hn & rest & Hst & Hl). set (n := length (Types3gppSpec.dotted ls)) in *.
  rewrite u8_id by (unfold inw; lia). set (u := mkIe _ _).
  set (h := Z.of_nat n + 1 :: Types3gppSpec.labels ls) in *.
  assert (le_value 1 (st u) = Z.of_nat n + 1) as Hu.
  { apply le_value_1. }
  assert (lv_size 1 u = length h) as Hs by (unfold lv_size, h; rewrite Hu; cbn [length]; lia).
  assert (st u = h ++ drop (S n) (drop 1 (st v))) as Hst' by done.
  assert (length (st u) = sizeof_access_point_name) as Hlu.
  { rewrite Hst', length_app, !length_drop, Hl. unfold h. cbn [length]. rewrite HL.
    unfold sizeof_access_point_name. lia. }
  destruct (encode_lv_ok 1 sizeof_access_point_name ltac:(done) (fun s => s) u b pre old m post)
    as (b' & -> & Hb'); [done| |done|by rewrite Hs|].
  - split; [done|]. rewrite Hs. unfold h. cbn [length]. rewrite HL. split; [|unfold sizeof_access_point_name; lia].
    rewrite Hst'. constructor; [unfold inw; lia|constructor].
  - cbn [mbind option_bind]. exists b'. rewrite Hs in *. split; [done|].
    rewrite Hst', take_app_length in Hb'. done.
Qed.

Lemma apn_decode_ok v b pre m post :
  apn_ok v -> view b pre (apn_wire v ++ m) post ->
  exists b', nas_decode_access_point_name (zero sizeof_access_point_name) b =
               Some (Z.of_nat (length (apn_wire v)), b', apn_norm v) /\
             view b' (pre ++ apn_wire v) m post.
Proof.
  intros (ls & Hv) Hview.
  destruct (apn_build_name v ls Hv) as (E & HL & Ew). rewrite Ew in *.
  pose proof Hv as (Hne & Hls & Hc & Hn & rest & Hst & Hl). set (n := length (Types3gppSpec.dotted ls)) in *.
  unfold nas_decode_access_point_name. set (h := Z.of_nat n + 1 :: Types3gppSpec.labels ls) in *.
  assert (length h = S (S n)) as Hh by (unfold h; cbn [length]; by rewrite HL).
  destruct (decode_lv_ok 1 sizeof_access_point_name ltac:(done) (fun s => s) b pre h m post)
    as (b' & -> & Hb'); [done|rewrite Hh; unfold sizeof_access_point_name; lia| |].
  { unfold h. rewrite le_value_1. fold h. lia. }
  cbn [mbind option_bind]. rewrite decide_False by lia.
  exists b'. split; [|done].
  assert (st (received sizeof_access_point_name (fun s => s) h) =
    (Z.of_nat n + 1) :: Types3gppSpec.labels ls ++ replicate (99 - n) 0) as ->.
  { unfold received. cbn [st]. rewrite Hh. by replace (sizeof_access_point_name - S (S n))%nat with (99 - n)%nat
      by (unfold sizeof_access_point_name; lia). }
  rewrite skipn_cons, drop_0. change (rd (_ :: _) 0) with (Z.of_nat n + 1).
  replace (Z.to_nat (Z.of_nat n + 1)) with (length (Types3gppSpec.labels ls)) by lia.
  rewrite Types3gppSpec.apn_parse_spec by (done || (rewrite length_replicate; fold n; lia)). fold n.
  cbn [mbind option_bind]. rewrite u8_id by (unfold inw; lia).
  rewrite Z.min_l, Nat2Z.id by lia. rewrite core_cpystrn_all by done.
  pose proof (store_app [] (Types3gppSpec.labels ls) (replicate (99 - n) 0) (Types3gppSpec.dotted ls ++ [0])) as Est.
  cbn [app length] in Est. rewrite Est by (rewrite length_app; cbn [length]; fold n; lia).
  cbn [mbind option_bind]. unfold apn_norm. rewrite Hst. change (rd (_ :: _) 0) with (Z.of_nat n).
  rewrite Nat2Z.id. cbn [take]. rewrite take_app_length' by done. unfold sizeof_access_point_name.
  replace (101 - S n)%nat with (S (99 - n)) by lia. cbn [replicate].
  by rewrite <- !(assoc_L (++)).
Qed.

Definition apn_codec :
  IeCodec sizeof_access_point_name nas_encode_access_point_name nas_decode_access_point_name :=
  {| encode_ok := apn_encode_ok; decode_ok := apn_decode_ok |}.

(** ** Identities *)

(** The conversions of an encoder keep size and length. *)
Lemma keeps_ntoh size off n : (1 <= off <= size)%nat -> keeps_length 1 size (ntoh off n).
Proof. intros Ho s Hs. rewrite length_ntoh, take_ntoh by lia. done. Qed.

Lemma keeps_spare size : keeps_length 1 size set_spare.
Proof. intros s Hs. destruct (set_spare_length s) as [-> ->]. done. Qed.

Lemma keeps_compose w size f g : keeps_length w size f -> keeps_length w size g -> keeps_length w size (fun s => f (g s)).
Proof. intros Hf Hg s Hs. destruct (Hg s Hs) as [H1 <-]. by apply Hf. Qed.

Lemma keeps_if w size (P : list Z -> Prop) `{forall s, Decision (P s)} f :
  keeps_length w size f -> keeps_length w size (fun s => if decide (P s) then f s else s).
Proof. intros Hf s Hs. case_decide; [by apply Hf|done]. Qed.

Lemma keeps_id w size : keeps_length w size (fun s => s).
Proof. done. Qed.

End NasIesSpec.
