(* ===== verification/NasIesCodecs.v ===== *)
(** The pairs of functions of [NasIes] that keep the promise of [NasIesSpec]. *)

From S2P Require Import Prelude Pkbuf NasIes NasIesSpec.

Module NasIesCodecs.
Import NasIes NasIesSpec.

(** ** Shapes *)

Definition fits (size : nat) : bool := bool_decide (Z.of_nat size < 2 ^ 15).

Lemma fits_lt size : fits size = true -> Z.of_nat size < 2 ^ 15.
Proof. apply bool_decide_eq_true_1. Qed.

Definition plain_lv w size (H : fits size = true) :
  IeCodec size (encode_lv w (fun s => s)) (decode_lv w (fun s => s)) :=
  lv_codec w size (fits_lt size H) _ _ (keeps_id w size).

Definition plain_v size (H : fits size = true) :
  IeCodec size (encode_v size (fun s => s)) (decode_v size (fun s => s)) :=
  v_codec size _ _ (fits_lt size H) (fun s => eq_refl).

Definition ntoh_v size off n (H : fits size = true) :
  IeCodec size (encode_v size (ntoh off n)) (decode_v size (ntoh off n)) :=
  v_codec size _ _ (fits_lt size H) (length_ntoh off n).

(** ** Elements *)

#[export] Instance additional_information_codec :
  IeCodec sizeof_additional_information nas_encode_additional_information nas_decode_additional_information :=
  plain_lv 1 sizeof_additional_information eq_refl.
#[export] Instance eps_bearer_context_status_codec :
  IeCodec sizeof_eps_bearer_context_status nas_encode_eps_bearer_context_status nas_decode_eps_bearer_context_status :=
  plain_lv 1 sizeof_eps_bearer_context_status eq_refl.
#[export] Instance supported_codec_list_codec :
  IeCodec sizeof_supported_codec_list nas_encode_supported_codec_list nas_decode_supported_codec_list :=
  plain_lv 1 sizeof_supported_codec_list eq_refl.
#[export] Instance location_area_identification_codec :
  IeCodec sizeof_location_area_identification nas_encode_location_area_identification nas_decode_location_area_identification :=
  ntoh_v sizeof_location_area_identification 3 2 eq_refl.
#[export] Instance mobile_station_classmark_2_codec :
  IeCodec sizeof_mobile_station_classmark_2 nas_encode_mobile_station_classmark_2 nas_decode_mobile_station_classmark_2 :=
  plain_lv 1 sizeof_mobile_station_classmark_2 eq_refl.
#[export] Instance mobile_station_classmark_3_codec :
  IeCodec sizeof_mobile_station_classmark_3 nas_encode_mobile_station_classmark_3 nas_decode_mobile_station_classmark_3 :=
  plain_lv 1 sizeof_mobile_station_classmark_3 eq_refl.
#[export] Instance plmn_list_codec :
  IeCodec sizeof_plmn_list nas_encode_plmn_list nas_decode_plmn_list :=
  plain_lv 1 sizeof_plmn_list eq_refl.
#[export] Instance authentication_failure_parameter_codec :
  IeCodec sizeof_authentication_failure_parameter nas_encode_authentication_failure_parameter nas_decode_authentication_failure_parameter :=
  plain_lv 1 sizeof_authentication_failure_parameter eq_refl.
#[export] Instance eps_attach_result_codec :
  IeCodec sizeof_eps_attach_result nas_encode_eps_attach_result nas_decode_eps_attach_result :=
  plain_v sizeof_eps_attach_result eq_refl.
#[export] Instance eps_attach_type_codec :
  IeCodec sizeof_eps_attach_type nas_encode_eps_attach_type nas_decode_eps_attach_type :=
  plain_v sizeof_eps_attach_type eq_refl.
#[export] Instance eps_network_feature_support_codec :
  IeCodec sizeof_eps_network_feature_support nas_encode_eps_network_feature_support nas_decode_eps_network_feature_support :=
  plain_lv 1 sizeof_eps_network_feature_support eq_refl.
#[export] Instance eps_update_result_codec :
  IeCodec sizeof_eps_update_result nas_encode_eps_update_result nas_decode_eps_update_result :=
  plain_v sizeof_eps_update_result eq_refl.
#[export] Instance eps_update_type_codec :
  IeCodec sizeof_eps_update_type nas_encode_eps_update_type nas_decode_eps_update_type :=
  plain_v sizeof_eps_update_type eq_refl.
#[export] Instance esm_message_container_codec :
  IeCodec sizeof_esm_message_container nas_encode_esm_message_container nas_decode_esm_message_container :=
  container_codec.
#[export] Instance gprs_timer_codec :
  IeCodec sizeof_gprs_timer nas_encode_gprs_timer nas_decode_gprs_timer :=
  plain_v sizeof_gprs_timer eq_refl.
#[export] Instance gprs_timer_2_codec :
  IeCodec sizeof_gprs_timer_2 nas_encode_gprs_timer_2 nas_decode_gprs_timer_2 :=
  plain_lv 1 sizeof_gprs_timer_2 eq_refl.
#[export] Instance gprs_timer_3_codec :
  IeCodec sizeof_gprs_timer_3 nas_encode_gprs_timer_3 nas_decode_gprs_timer_3 :=
  plain_lv 1 sizeof_gprs_timer_3 eq_refl.
#[export] Instance identity_type_2_codec :
  IeCodec sizeof_identity_type_2 nas_encode_identity_type_2 nas_decode_identity_type_2 :=
  plain_v sizeof_identity_type_2 eq_refl.
#[export] Instance ksi_and_sequence_number_codec :
  IeCodec sizeof_ksi_and_sequence_number nas_encode_ksi_and_sequence_number nas_decode_ksi_and_sequence_number :=
  plain_v sizeof_ksi_and_sequence_number eq_refl.
#[export] Instance authentication_parameter_autn_codec :
  IeCodec sizeof_authentication_parameter_autn nas_encode_authentication_parameter_autn nas_decode_authentication_parameter_autn :=
  plain_lv 1 sizeof_authentication_parameter_autn eq_refl.
#[export] Instance ms_network_capability_codec :
  IeCodec sizeof_ms_network_capability nas_encode_ms_network_capability nas_decode_ms_network_capability :=
  plain_lv 1 sizeof_ms_network_capability eq_refl.
#[export] Instance message_container_codec :
  IeCodec sizeof_message_container nas_encode_message_container nas_decode_message_container :=
  plain_lv 1 sizeof_message_container eq_refl.
#[export] Instance security_algorithms_codec :
  IeCodec sizeof_security_algorithms nas_encode_security_algorithms nas_decode_security_algorithms :=
  plain_v sizeof_security_algorithms eq_refl.
#[export] Instance network_name_codec :
  IeCodec sizeof_network_name nas_encode_network_name nas_decode_network_name :=
  plain_lv 1 sizeof_network_name eq_refl.
#[export] Instance network_resource_identifier_container_codec :
  IeCodec sizeof_network_resource_identifier_container nas_encode_network_resource_identifier_container nas_decode_network_resource_identifier_container :=
  plain_lv 1 sizeof_network_resource_identifier_container eq_refl.
#[export] Instance nonce_codec :
  IeCodec sizeof_nonce nas_encode_nonce nas_decode_nonce :=
  ntoh_v sizeof_nonce 0 4 eq_refl.
#[export] Instance paging_identity_codec :
  IeCodec sizeof_paging_identity nas_encode_paging_identity nas_decode_paging_identity :=
  plain_v sizeof_paging_identity eq_refl.
#[export] Instance service_type_codec :
  IeCodec sizeof_service_type nas_encode_service_type nas_decode_service_type :=
  plain_v sizeof_service_type eq_refl.
#[export] Instance short_mac_codec :
  IeCodec sizeof_short_mac nas_encode_short_mac nas_decode_short_mac :=
  ntoh_v sizeof_short_mac 0 2 eq_refl.
#[export] Instance time_zone_codec :
  IeCodec sizeof_time_zone nas_encode_time_zone nas_decode_time_zone :=
  plain_v sizeof_time_zone eq_refl.
#[export] Instance authentication_parameter_rand_codec :
  IeCodec sizeof_authentication_parameter_rand nas_encode_authentication_parameter_rand nas_decode_authentication_parameter_rand :=
  plain_v sizeof_authentication_parameter_rand eq_refl.
#[export] Instance time_zone_and_time_codec :
  IeCodec sizeof_time_zone_and_time nas_encode_time_zone_and_time nas_decode_time_zone_and_time :=
  plain_v sizeof_time_zone_and_time eq_refl.
#[export] Instance tracking_area_identity_codec :
  IeCodec sizeof_tracking_area_identity nas_encode_tracking_area_identity nas_decode_tracking_area_identity :=
  ntoh_v sizeof_tracking_area_identity 3 2 eq_refl.
#[export] Instance tracking_area_identity_list_codec :
  IeCodec sizeof_tracking_area_identity_list nas_encode_tracking_area_identity_list nas_decode_tracking_area_identity_list :=
  plain_lv 1 sizeof_tracking_area_identity_list eq_refl.
#[export] Instance ue_network_capability_codec :
  IeCodec sizeof_ue_network_capability nas_encode_ue_network_capability nas_decode_ue_network_capability :=
  plain_lv 1 sizeof_ue_network_capability eq_refl.
#[export] Instance ue_security_capability_codec :
  IeCodec sizeof_ue_security_capability nas_encode_ue_security_capability nas_decode_ue_security_capability :=
  plain_lv 1 sizeof_ue_security_capability eq_refl.
#[export] Instance emergency_number_list_codec :
  IeCodec sizeof_emergency_number_list nas_encode_emergency_number_list nas_decode_emergency_number_list :=
  plain_lv 2 sizeof_emergency_number_list eq_refl.
#[export] Instance cli_codec :
  IeCodec sizeof_cli nas_encode_cli nas_decode_cli :=
  plain_lv 1 sizeof_cli eq_refl.
#[export] Instance ss_code_codec :
  IeCodec sizeof_ss_code nas_encode_ss_code nas_decode_ss_code :=
  plain_v sizeof_ss_code eq_refl.
#[export] Instance authentication_response_parameter_codec :
  IeCodec sizeof_authentication_response_parameter nas_encode_authentication_response_parameter nas_decode_authentication_response_parameter :=
  plain_lv 1 sizeof_authentication_response_parameter eq_refl.
#[export] Instance lcs_indicator_codec :
  IeCodec sizeof_lcs_indicator nas_encode_lcs_indicator nas_decode_lcs_indicator :=
  plain_v sizeof_lcs_indicator eq_refl.
#[export] Instance lcs_client_identity_codec :
  IeCodec sizeof_lcs_client_identity nas_encode_lcs_client_identity nas_decode_lcs_client_identity :=
  plain_lv 1 sizeof_lcs_client_identity eq_refl.
#[export] Instance generic_message_container_type_codec :
  IeCodec sizeof_generic_message_container_type nas_encode_generic_message_container_type nas_decode_generic_message_container_type :=
  plain_v sizeof_generic_message_container_type eq_refl.
#[export] Instance generic_message_container_codec :
  IeCodec sizeof_generic_message_container nas_encode_generic_message_container nas_decode_generic_message_container :=
  container_codec.
#[export] Instance voice_domain_preference_and_ue_usage_setting_codec :
  IeCodec sizeof_voice_domain_preference_and_ue_usage_setting nas_encode_voice_domain_preference_and_ue_usage_setting nas_decode_voice_domain_preference_and_ue_usage_setting :=
  plain_lv 1 sizeof_voice_domain_preference_and_ue_usage_setting eq_refl.
#[export] Instance extended_drx_parameters_codec :
  IeCodec sizeof_extended_drx_parameters nas_encode_extended_drx_parameters nas_decode_extended_drx_parameters :=
  plain_lv 1 sizeof_extended_drx_parameters eq_refl.
#[export] Instance daylight_saving_time_codec :
  IeCodec sizeof_daylight_saving_time nas_encode_daylight_saving_time nas_decode_daylight_saving_time :=
  plain_lv 1 sizeof_daylight_saving_time eq_refl.
#[export] Instance detach_type_codec :
  IeCodec sizeof_detach_type nas_encode_detach_type nas_decode_detach_type :=
  plain_v sizeof_detach_type eq_refl.
#[export] Instance drx_parameter_codec :
  IeCodec sizeof_drx_parameter nas_encode_drx_parameter nas_decode_drx_parameter :=
  plain_v sizeof_drx_parameter eq_refl.
#[export] Instance emm_cause_codec :
  IeCodec sizeof_emm_cause nas_encode_emm_cause nas_decode_emm_cause :=
  plain_v sizeof_emm_cause eq_refl.
#[export] Instance protocol_configuration_options_codec :
  IeCodec sizeof_protocol_configuration_options nas_encode_protocol_configuration_options nas_decode_protocol_configuration_options :=
  plain_lv 1 sizeof_protocol_configuration_options eq_refl.
#[export] Instance quality_of_service_codec :
  IeCodec sizeof_quality_of_service nas_encode_quality_of_service nas_decode_quality_of_service :=
  plain_lv 1 sizeof_quality_of_service eq_refl.
#[export] Instance re_attempt_indicator_codec :
  IeCodec sizeof_re_attempt_indicator nas_encode_re_attempt_indicator nas_decode_re_attempt_indicator :=
  plain_lv 1 sizeof_re_attempt_indicator eq_refl.
#[export] Instance request_type_codec :
  IeCodec sizeof_request_type nas_encode_request_type nas_decode_request_type :=
  plain_v sizeof_request_type eq_refl.
#[export] Instance traffic_flow_aggregate_description_codec :
  IeCodec sizeof_traffic_flow_aggregate_description nas_encode_traffic_flow_aggregate_description nas_decode_traffic_flow_aggregate_description :=
  plain_lv 1 sizeof_traffic_flow_aggregate_description eq_refl.
#[export] Instance traffic_flow_template_codec :
  IeCodec sizeof_traffic_flow_template nas_encode_traffic_flow_template nas_decode_traffic_flow_template :=
  plain_lv 1 sizeof_traffic_flow_template eq_refl.
#[export] Instance transaction_identifier_codec :
  IeCodec sizeof_transaction_identifier nas_encode_transaction_identifier nas_decode_transaction_identifier :=
  plain_lv 1 sizeof_transaction_identifier eq_refl.
#[export] Instance nbifom_container_codec :
  IeCodec sizeof_nbifom_container nas_encode_nbifom_container nas_decode_nbifom_container :=
  plain_lv 1 sizeof_nbifom_container eq_refl.
#[export] Instance apn_aggregate_maximum_bit_rate_codec :
  IeCodec sizeof_apn_aggregate_maximum_bit_rate nas_encode_apn_aggregate_maximum_bit_rate nas_decode_apn_aggregate_maximum_bit_rate :=
  plain_lv 1 sizeof_apn_aggregate_maximum_bit_rate eq_refl.
#[export] Instance extended_protocol_configuration_options_codec :
  IeCodec sizeof_extended_protocol_configuration_options nas_encode_extended_protocol_configuration_options nas_decode_extended_protocol_configuration_options :=
  container_codec.
#[export] Instance header_compression_configuration_status_codec :
  IeCodec sizeof_header_compression_configuration_status nas_encode_header_compression_configuration_status nas_decode_header_compression_configuration_status :=
  plain_lv 1 sizeof_header_compression_configuration_status eq_refl.
#[export] Instance serving_plmn_rate_control_codec :
  IeCodec sizeof_serving_plmn_rate_control nas_encode_serving_plmn_rate_control nas_decode_serving_plmn_rate_control :=
  plain_lv 1 sizeof_serving_plmn_rate_control eq_refl.
#[export] Instance eps_quality_of_service_codec :
  IeCodec sizeof_eps_quality_of_service nas_encode_eps_quality_of_service nas_decode_eps_quality_of_service :=
  plain_lv 1 sizeof_eps_quality_of_service eq_refl.
#[export] Instance esm_cause_codec :
  IeCodec sizeof_esm_cause nas_encode_esm_cause nas_decode_esm_cause :=
  plain_v sizeof_esm_cause eq_refl.
#[export] Instance linked_eps_bearer_identity_codec :
  IeCodec sizeof_linked_eps_bearer_identity nas_encode_linked_eps_bearer_identity nas_decode_linked_eps_bearer_identity :=
  plain_v sizeof_linked_eps_bearer_identity eq_refl.
#[export] Instance llc_service_access_point_identifier_codec :
  IeCodec sizeof_llc_service_access_point_identifier nas_encode_llc_service_access_point_identifier nas_decode_llc_service_access_point_identifier :=
  plain_v sizeof_llc_service_access_point_identifier eq_refl.
#[export] Instance packet_flow_identifier_codec :
  IeCodec sizeof_packet_flow_identifier nas_encode_packet_flow_identifier nas_decode_packet_flow_identifier :=
  plain_lv 1 sizeof_packet_flow_identifier eq_refl.
#[export] Instance pdn_address_codec :
  IeCodec sizeof_pdn_address nas_encode_pdn_address nas_decode_pdn_address :=
  plain_lv 1 sizeof_pdn_address eq_refl.

#[export] Instance header_compression_configuration_codec :
  IeCodec sizeof_header_compression_configuration
    nas_encode_header_compression_configuration nas_decode_header_compression_configuration :=
  lv_codec 1 _ (fits_lt 260 eq_refl) _ _ (keeps_ntoh 260 2 2 ltac:(by_decide)).

#[export] Instance access_point_name_codec :
  IeCodec sizeof_access_point_name nas_encode_access_point_name nas_decode_access_point_name := apn_codec.

#[export] Instance mobile_identity_codec :
  IeCodec sizeof_mobile_identity nas_encode_mobile_identity nas_decode_mobile_identity :=
  lv_codec 1 _ (fits_lt 9 eq_refl) _ _
    (keeps_if 1 9 (fun s => identity_type s = NAS_MOBILE_IDENTITY_TMSI) _ (keeps_compose 1 9 _ _ (keeps_spare 9) (keeps_ntoh 9 2 4 ltac:(by_decide)))).

#[export] Instance eps_mobile_identity_codec :
  IeCodec sizeof_eps_mobile_identity nas_encode_eps_mobile_identity nas_decode_eps_mobile_identity :=
  lv_codec 1 _ (fits_lt 12 eq_refl) _ _
    (keeps_if 1 12 (fun s => identity_type s = NAS_EPS_MOBILE_IDENTITY_GUTI) _ (keeps_compose 1 12 _ _ (keeps_ntoh 12 8 4 ltac:(by_decide))
      (keeps_compose 1 12 _ _ (keeps_ntoh 12 5 2 ltac:(by_decide)) (keeps_spare 12)))).

(** ** Half octets *)

#[export] Instance device_properties_half : HalfCodec nas_encode_device_properties nas_decode_device_properties := half_codec.
#[export] Instance additional_update_result_half : HalfCodec nas_encode_additional_update_result nas_decode_additional_update_result := half_codec.
#[export] Instance additional_update_type_half : HalfCodec nas_encode_additional_update_type nas_decode_additional_update_type := half_codec.
#[export] Instance imeisv_request_half : HalfCodec nas_encode_imeisv_request nas_decode_imeisv_request := half_codec.
#[export] Instance ms_network_feature_support_half : HalfCodec nas_encode_ms_network_feature_support nas_decode_ms_network_feature_support := half_codec.
#[export] Instance key_set_identifier_half : HalfCodec nas_encode_key_set_identifier nas_decode_key_set_identifier := half_codec.
#[export] Instance extended_emm_cause_half : HalfCodec nas_encode_extended_emm_cause nas_decode_extended_emm_cause := half_codec.
#[export] Instance tmsi_status_half : HalfCodec nas_encode_tmsi_status nas_decode_tmsi_status := half_codec.
#[export] Instance ue_radio_capability_information_update_needed_half : HalfCodec nas_encode_ue_radio_capability_information_update_needed nas_decode_ue_radio_capability_information_update_needed := half_codec.
#[export] Instance guti_type_half : HalfCodec nas_encode_guti_type nas_decode_guti_type := half_codec.
#[export] Instance ciphering_key_sequence_number_half : HalfCodec nas_encode_ciphering_key_sequence_number nas_decode_ciphering_key_sequence_number := half_codec.
#[export] Instance csfb_response_half : HalfCodec nas_encode_csfb_response nas_decode_csfb_response := half_codec.
#[export] Instance radio_priority_half : HalfCodec nas_encode_radio_priority nas_decode_radio_priority := half_codec.
#[export] Instance wlan_offload_acceptability_half : HalfCodec nas_encode_wlan_offload_acceptability nas_decode_wlan_offload_acceptability := half_codec.
#[export] Instance control_plane_only_indication_half : HalfCodec nas_encode_control_plane_only_indication nas_decode_control_plane_only_indication := half_codec.
#[export] Instance connectivity_type_half : HalfCodec nas_encode_connectivity_type nas_decode_connectivity_type := half_codec.
#[export] Instance esm_information_transfer_flag_half : HalfCodec nas_encode_esm_information_transfer_flag nas_decode_esm_information_transfer_flag := half_codec.

(** An element is found by its functions, not by what they are made of: several
    share a definition and differ in size. *)
#[export] Typeclasses Opaque
  nas_encode_additional_information nas_decode_additional_information
  nas_encode_device_properties nas_decode_device_properties nas_encode_eps_bearer_context_status
  nas_decode_eps_bearer_context_status nas_encode_supported_codec_list
  nas_decode_supported_codec_list nas_encode_location_area_identification
  nas_decode_location_area_identification nas_encode_mobile_identity nas_decode_mobile_identity
  nas_encode_mobile_station_classmark_2 nas_decode_mobile_station_classmark_2
  nas_encode_mobile_station_classmark_3 nas_decode_mobile_station_classmark_3
  nas_encode_plmn_list nas_decode_plmn_list nas_encode_additional_update_result
  nas_decode_additional_update_result nas_encode_additional_update_type
  nas_decode_additional_update_type nas_encode_authentication_failure_parameter
  nas_decode_authentication_failure_parameter nas_encode_eps_attach_result
  nas_decode_eps_attach_result nas_encode_eps_attach_type nas_decode_eps_attach_type
  nas_encode_eps_mobile_identity nas_decode_eps_mobile_identity
  nas_encode_eps_network_feature_support nas_decode_eps_network_feature_support
  nas_encode_eps_update_result nas_decode_eps_update_result nas_encode_eps_update_type
  nas_decode_eps_update_type nas_encode_esm_message_container nas_decode_esm_message_container
  nas_encode_gprs_timer nas_decode_gprs_timer nas_encode_gprs_timer_2 nas_decode_gprs_timer_2
  nas_encode_gprs_timer_3 nas_decode_gprs_timer_3 nas_encode_identity_type_2
  nas_decode_identity_type_2 nas_encode_imeisv_request nas_decode_imeisv_request
  nas_encode_ksi_and_sequence_number nas_decode_ksi_and_sequence_number
  nas_encode_authentication_parameter_autn nas_decode_authentication_parameter_autn
  nas_encode_ms_network_capability nas_decode_ms_network_capability
  nas_encode_ms_network_feature_support nas_decode_ms_network_feature_support
  nas_encode_key_set_identifier nas_decode_key_set_identifier nas_encode_message_container
  nas_decode_message_container nas_encode_security_algorithms nas_decode_security_algorithms
  nas_encode_network_name nas_decode_network_name
  nas_encode_network_resource_identifier_container
  nas_decode_network_resource_identifier_container nas_encode_nonce nas_decode_nonce
  nas_encode_paging_identity nas_decode_paging_identity nas_encode_p_tmsi_signature
  nas_decode_p_tmsi_signature nas_encode_extended_emm_cause nas_decode_extended_emm_cause
  nas_encode_service_type nas_decode_service_type nas_encode_short_mac nas_decode_short_mac
  nas_encode_time_zone nas_decode_time_zone nas_encode_authentication_parameter_rand
  nas_decode_authentication_parameter_rand nas_encode_time_zone_and_time
  nas_decode_time_zone_and_time nas_encode_tmsi_status nas_decode_tmsi_status
  nas_encode_tracking_area_identity nas_decode_tracking_area_identity
  nas_encode_tracking_area_identity_list nas_decode_tracking_area_identity_list
  nas_encode_ue_network_capability nas_decode_ue_network_capability
  nas_encode_ue_radio_capability_information_update_needed
  nas_decode_ue_radio_capability_information_update_needed nas_encode_ue_security_capability
  nas_decode_ue_security_capability nas_encode_emergency_number_list
  nas_decode_emergency_number_list nas_encode_cli nas_decode_cli nas_encode_ss_code
  nas_decode_ss_code nas_encode_authentication_response_parameter
  nas_decode_authentication_response_parameter nas_encode_lcs_indicator nas_decode_lcs_indicator
  nas_encode_lcs_client_identity nas_decode_lcs_client_identity
  nas_encode_generic_message_container_type nas_decode_generic_message_container_type
  nas_encode_generic_message_container nas_decode_generic_message_container
  nas_encode_voice_domain_preference_and_ue_usage_setting
  nas_decode_voice_domain_preference_and_ue_usage_setting nas_encode_guti_type
  nas_decode_guti_type nas_encode_extended_drx_parameters nas_decode_extended_drx_parameters
  nas_encode_ciphering_key_sequence_number nas_decode_ciphering_key_sequence_number
  nas_encode_csfb_response nas_decode_csfb_response nas_encode_daylight_saving_time
  nas_decode_daylight_saving_time nas_encode_detach_type nas_decode_detach_type
  nas_encode_drx_parameter nas_decode_drx_parameter nas_encode_emm_cause nas_decode_emm_cause
  nas_encode_access_point_name nas_decode_access_point_name
  nas_encode_protocol_configuration_options nas_decode_protocol_configuration_options
  nas_encode_quality_of_service nas_decode_quality_of_service nas_encode_radio_priority
  nas_decode_radio_priority nas_encode_re_attempt_indicator nas_decode_re_attempt_indicator
  nas_encode_request_type nas_decode_request_type nas_encode_traffic_flow_aggregate_description
  nas_decode_traffic_flow_aggregate_description nas_encode_traffic_flow_template
  nas_decode_traffic_flow_template nas_encode_transaction_identifier
  nas_decode_transaction_identifier nas_encode_wlan_offload_acceptability
  nas_decode_wlan_offload_acceptability nas_encode_nbifom_container nas_decode_nbifom_container
  nas_encode_apn_aggregate_maximum_bit_rate nas_decode_apn_aggregate_maximum_bit_rate
  nas_encode_header_compression_configuration nas_decode_header_compression_configuration
  nas_encode_control_plane_only_indication nas_decode_control_plane_only_indication
  nas_encode_extended_protocol_configuration_options
  nas_decode_extended_protocol_configuration_options
  nas_encode_header_compression_configuration_status
  nas_decode_header_compression_configuration_status nas_encode_serving_plmn_rate_control
  nas_decode_serving_plmn_rate_control nas_encode_connectivity_type nas_decode_connectivity_type
  nas_encode_eps_quality_of_service nas_decode_eps_quality_of_service nas_encode_esm_cause
  nas_decode_esm_cause nas_encode_esm_information_transfer_flag
  nas_decode_esm_information_transfer_flag nas_encode_linked_eps_bearer_identity
  nas_decode_linked_eps_bearer_identity nas_encode_llc_service_access_point_identifier
  nas_decode_llc_service_access_point_identifier nas_encode_packet_flow_identifier
  nas_decode_packet_flow_identifier nas_encode_pdn_address nas_decode_pdn_address.

End NasIesCodecs.
