(* ===== verification/NasMessageSpec.v ===== *)
(** Messages whose elements keep the promise of [NasIesSpec] are decoded from what
    the encoder writes, whatever the message: the functions of [NasMessage] over
    lists of elements. *)

From S2P Require Import Prelude Pkbuf NasIes NasIesSpec NasMessage.

Module NasMessageSpec.
Import Pkbuf NasIes NasIesSpec NasMessage.
#[local] Open Scope Z_scope.

(** ** Elements of a message *)

(** An element that is always there: its field, the size of its structure and the
    pair of functions. *)
Record row := Row {
  r_field : string; r_size : nat; r_enc : encoder; r_dec : decoder;
  r_codec : IeCodec r_size r_enc r_dec
}.

(** An optional one, after its type or holding it; or one whose functions do not keep
    the promise. *)
Inductive option_row :=
| Full (type present : Z) (r : row)
| Unkept (type present : Z) (f : string) (size : nat) (e : encoder) (d : decoder)
| Half (type present : Z) (f : string) (e : encoder) (d : decoder) (c : HalfCodec e d).

Definition o_name (o : option_row) : string :=
  match o with Full _ _ r => r_field r | Half _ _ f _ _ _ | Unkept _ _ f _ _ _ => f end.
Definition o_bit (o : option_row) : Z :=
  match o with Full _ p _ | Half _ p _ _ _ _ | Unkept _ p _ _ _ _ => p end.
Definition o_kind (o : option_row) : Z :=
  match o with Full t _ _ | Half t _ _ _ _ _ | Unkept t _ _ _ _ _ => t end.
Definition o_size (o : option_row) : nat :=
  match o with Full _ _ r => r_size r | Half _ _ _ _ _ _ => 1 | Unkept _ _ _ n _ _ => n end.

(** The rows of the tables of the two sides. *)
Definition enc_of (r : row) : string * encoder := (r_field r, r_enc r).
Definition dec_of (r : row) : string * decoder := (r_field r, r_dec r).
Definition option_of (o : option_row) : optional :=
  match o with
  | Full t p r => mkOptional p t (r_field r) (r_enc r) false
  | Unkept t p f _ e _ => mkOptional p t f e false
  | Half t p f e _ _ => mkOptional p t f e true
  end.
Definition case_of (o : option_row) : case :=
  match o with
  | Full t p r => mkCase t p (r_field r) (r_dec r)
  | Half t p f _ d _ | Unkept t p f _ _ d => mkCase t p f d
  end.

(** ** Values *)

Definition field (m : body) (f : string) : ie := default (zero 0) (fields m !! f).

Definition present (m : body) (o : option_row) : bool :=
  negb (bool_decide (presencemask m .& o_bit o = 0)).

(** A field that can be encoded. *)
Definition row_ok (m : body) (r : row) : Prop :=
  exists v, fields m !! r_field r = Some v /\ @ok _ _ _ (r_codec r) v.
Definition option_ok (m : body) (o : option_row) : Prop :=
  present m o = true ->
  match o with
  | Full _ _ r => row_ok m r
  | Unkept _ _ _ _ _ _ => False
  | Half _ _ f _ _ _ => exists x, fields m !! f = Some (mkIe [x] None)
  end.

(** The octet of an element of half an octet: its type and its value. *)
Definition half_octet (type x : Z) : Z := (x .& 0xf) .| ((type >> 4) << 4).

(** The bytes of the elements. *)
Definition row_wire (m : body) (r : row) : list Z := @wire _ _ _ (r_codec r) (field m (r_field r)).
Definition option_wire (m : body) (o : option_row) : list Z :=
  if present m o then
    match o with
    | Full t _ r => t :: row_wire m r
    | Unkept _ _ _ _ _ _ => []
    | Half t _ f _ _ _ => [half_octet t (rd (st (field m f)) 0)]
    end
  else [].
Definition body_wire (M : list row) (O : list option_row) (m : body) : list Z :=
  concat (map (row_wire m) M) ++ concat (map (option_wire m) O).

(** What the decoder adds to the structure [acc] for each element of [m]. *)
Definition row_received (m acc : body) (r : row) : body :=
  set_field acc (r_field r) (@norm _ _ _ (r_codec r) (field m (r_field r))).
Definition option_received (m acc : body) (o : option_row) : body :=
  if present m o then
    match o with
    | Full _ p r => set_present (row_received m acc r) p
    | Unkept _ p _ _ _ _ => set_present acc p
    | Half t p f _ _ _ => set_present (set_field acc f (mkIe [half_octet t (rd (st (field m f)) 0)] None)) p
    end
  else acc.
Definition body_received (s : struct) (M : list row) (O : list option_row) (m : body) : body :=
  fold_left (option_received m) O (fold_left (row_received m) M (zero_body s)).

(** ** Tables *)

(** The types of the elements can be told apart: those of half an octet are
    multiples of 16 from 0x80 on. *)
Definition kind_ok (o : option_row) : bool :=
  match o with
  | Full t _ _ | Unkept t _ _ _ _ _ => bool_decide (0 <= t < 0x80)
  | Half t _ _ _ _ _ => bool_decide (0x80 <= t < 0x100 /\ t .& 0xf = 0)
  end.

(** The fields are those of the structure, with the sizes of the elements, and no
    two elements share a field or a type. *)
Definition rows_ok (s : struct) (M : list row) (O : list option_row) : bool :=
  forallb (fun r => bool_decide ((r_field r, r_size r) ∈ s)) M &&
  forallb (fun o => bool_decide ((o_name o, o_size o) ∈ s)) O &&
  forallb kind_ok O &&
  bool_decide (NoDup (map o_kind O)) &&
  bool_decide (NoDup (map r_field M ++ map o_name O)) &&
  bool_decide (NoDup (map fst s)).

(** A message: its elements, the loop if it has one, and its two functions. *)
Record codec := Codec {
  mc_struct : struct; mc_rows : list row; mc_options : list option_row; mc_loop : bool;
  mc_encode : message_encoder; mc_decode : message_decoder;
  mc_encode_eq : mc_encode = encode_message (map enc_of mc_rows) (map option_of mc_options);
  mc_decode_eq : mc_decode =
    if mc_loop then decode_message (map dec_of mc_rows) (map case_of mc_options)
    else decode_fixed (map dec_of mc_rows);
  mc_loop_ok : mc_loop = false -> mc_options = [];
  mc_ok : rows_ok mc_struct mc_rows mc_options = true
}.

Definition mc_wire (c : codec) : body -> list Z := body_wire (mc_rows c) (mc_options c).
Definition mc_received (c : codec) : body -> body := body_received (mc_struct c) (mc_rows c) (mc_options c).
Definition mc_wf (c : codec) (m : body) : Prop :=
  Forall (row_ok m) (mc_rows c) /\ Forall (option_ok m) (mc_options c).

(** ** Encoding *)

Lemma row_ok_field m r : row_ok m r -> fields m !! r_field r = Some (field m (r_field r)) /\
  @ok _ _ _ (r_codec r) (field m (r_field r)).
Proof. intros (v & E & Hv). unfold field. by rewrite E. Qed.

Lemma set_field_same m f v : fields m !! f = Some v -> set_field m f v = m.
Proof. intros E. unfold set_field. rewrite insert_id by done. by destruct m. Qed.

Lemma encode_field_ok m r b pre old rest post :
  row_ok m r -> view b pre (old ++ rest) post -> length old = length (row_wire m r) ->
  exists b', encode_field (r_field r) (r_enc r) b m = Some (Z.of_nat (length (row_wire m r)), b', m) /\
             view b' (pre ++ row_wire m r) rest post.
Proof.
  intros [E Hok]%row_ok_field Hv Ho. unfold encode_field. rewrite E. cbn [mbind option_bind].
  destruct (encode_ok (IeCodec := r_codec r) _ b pre old rest post Hok Hv Ho) as (b' & -> & Hv').
  cbn [mbind option_bind]. exists b'. by rewrite set_field_same.
Qed.

Lemma encode_mandatory_ok M m b pre old rest post n :
  Forall (row_ok m) M -> view b pre (old ++ rest) post ->
  length old = length (concat (map (row_wire m) M)) ->
  exists b', encode_mandatory (map enc_of M) b m n =
               Some (n + Z.of_nat (length (concat (map (row_wire m) M))), b', m) /\
             view b' (pre ++ concat (map (row_wire m) M)) rest post.
Proof.
  revert b pre old n. induction M as [|r M IH]; intros b pre old n HM Hv Ho; cbn [map concat] in *.
  - destruct old; [|done]. exists b. rewrite app_nil_r, Z.add_0_r. done.
  - apply Forall_cons in HM as [Hr HM]. rewrite length_app in Ho.
    destruct (list_split_at (length (row_wire m r)) old) as (o1 & o2 & -> & Ho1); [lia|].
    rewrite length_app in Ho. rewrite <- (assoc_L (++)) in Hv.
    cbn [encode_mandatory enc_of].
    destruct (encode_field_ok m r b pre o1 _ post Hr Hv Ho1) as (b1 & -> & Hv1).
    cbn [mbind option_bind]. rewrite decide_False by lia.
    destruct (IH b1 _ o2 (n + Z.of_nat (length (row_wire m r))) HM Hv1) as (b2 & -> & Hv2); [lia|].
    exists b2. rewrite (assoc_L (++)), length_app. split; [|done]. do 3 f_equal. lia.
Qed.

(** The message after the call: the types of the elements of half an octet have
    been set. *)
Definition typed (m : body) (o : option_row) : body :=
  match o with
  | Half t _ f _ _ _ => if present m o then set_field m f (set_type (field m f) t) else m
  | _ => m
  end.

Lemma typed_mask m o : presencemask (typed m o) = presencemask m.
Proof. destruct o; [done..|]. cbn. by destruct (present _ _). Qed.

Lemma typed_field m o f : f <> o_name o -> fields (typed m o) !! f = fields m !! f.
Proof.
  intros Hf. destruct o; [done..|]. cbn in *. destruct (present _ _); [|done]. by apply lookup_insert_ne.
Qed.

(** Elements that do not share the field of [o] do not see the change. *)
Lemma option_wire_typed m o O :
  ~ o_name o ∈ map o_name O ->
  map (option_wire (typed m o)) O = map (option_wire m) O /\
  (Forall (option_ok m) O -> Forall (option_ok (typed m o)) O).
Proof.
  induction O as [|o' O IH]; [done|]. cbn [map]. intros [Hne Ho]%not_elem_of_cons.
  destruct (IH Ho) as [IH1 IH2]. clear IH.
  assert (fields (typed m o) !! o_name o' = fields m !! o_name o') as E by (apply typed_field; congruence).
  assert (present (typed m o) o' = present m o') as Ep by (unfold present; by rewrite typed_mask).
  split.
  - f_equal; [|done]. unfold option_wire. rewrite Ep.
    destruct o'; unfold row_wire, field; cbn [o_name] in E; by rewrite ?E.
  - intros [H1 H2]%Forall_cons. constructor; [|by apply IH2]. intros Hp. rewrite Ep in Hp.
    specialize (H1 Hp). destruct o'; unfold row_ok in *; cbn [o_name] in E; by rewrite ?E.
Qed.

Lemma nas_encode_optional_type_ok b pre x m post t :
  view b pre (x :: m) post ->
  exists b', nas_encode_optional_type b t = Some (1, b') /\ view b' (pre ++ [t]) m post.
Proof.
  intros Hv. unfold nas_encode_optional_type.
  destruct (header_past b pre [x] m post 1 Hv) as (b1 & E & Hv1); [done..|].
  change (i16 (- (1))) with (-1) in E. rewrite E. cbn [negb].
  destruct (mstore_behind b1 pre [x] m post [t] 1 Hv1) as (b2 & -> & Hv2); [done..|].
  by exists b2.
Qed.

Lemma encode_option_ok m o O b pre old rest post n :
  option_ok m o -> view b pre (old ++ rest) post -> length old = length (option_wire m o) ->
  exists b', encode_optional (option_of o :: O) b m n =
               encode_optional O b' (typed m o) (n + Z.of_nat (length (option_wire m o))) /\
             view b' (pre ++ option_wire m o) rest post.
Proof.
  intros Hok Hv Ho. unfold option_ok, option_wire, present in *.
  destruct o as [t p r|t p f ? e d|t p f e d c]; cbn [option_of encode_optional o_present o_bit typed] in *; unfold present; cbn [o_bit].
  all: case_bool_decide as Hp; cbn [negb] in *.
  1,3,5: rewrite decide_True by done; destruct old; [|done]; exists b; rewrite Z.add_0_r, app_nil_r; done.
  all: rewrite decide_False by done; cbn [o_half o_type o_field o_encode]; specialize (Hok eq_refl); try done.
  - destruct old as [|x old]; [done|]. injection Ho as Ho.
    destruct (nas_encode_optional_type_ok b pre x (old ++ rest) post t Hv) as (b1 & -> & Hv1).
    cbn [mbind option_bind]. rewrite decide_False by done.
    destruct (encode_field_ok m r b1 _ old rest post Hok Hv1 Ho) as (b2 & -> & Hv2).
    cbn [mbind option_bind]. rewrite decide_False by lia. exists b2.
    rewrite <- (assoc_L (++)) in Hv2. split; [|done]. f_equal. cbn [length]. lia.
  - destruct Hok as [x Ex]. unfold field in *. rewrite Ex in *. cbn [mbind option_bind default from_option id st] in *.
    destruct old as [|y [|]]; [done| |done]. unfold encode_field. cbn [set_field fields].
    rewrite lookup_insert_eq. cbn [mbind option_bind].
    destruct (half_encode_ok (HalfCodec := c) (set_type (mkIe [x] None) t) (half_octet t x) b pre y rest post)
      as (b1 & -> & Hv1); [done..|].
    cbn [mbind option_bind]. rewrite decide_False by lia. exists b1. split; [|done].
    f_equal. unfold set_field. cbn [fields]. f_equal. by rewrite insert_insert_eq.
Qed.

Lemma encode_optional_ok O tl m b pre old rest post n :
  NoDup (map o_name O) -> Forall (option_ok m) O -> view b pre (old ++ rest) post ->
  length old = length (concat (map (option_wire m) O)) ->
  exists b' m', encode_optional (map option_of O ++ tl) b m n =
               encode_optional tl b' m' (n + Z.of_nat (length (concat (map (option_wire m) O)))) /\
             presencemask m' = presencemask m /\
             view b' (pre ++ concat (map (option_wire m) O)) rest post.
Proof.
  revert m b pre old n. induction O as [|o O IH]; intros m b pre old n Hnd HO Hv Ho; cbn [map concat] in *.
  - destruct old; [|done]. exists b, m. rewrite app_nil_r, Z.add_0_r. done.
  - apply Forall_cons in HO as [Hok HO]. apply NoDup_cons in Hnd as [Hne Hnd]. rewrite length_app in Ho.
    destruct (list_split_at (length (option_wire m o)) old) as (o1 & o2 & -> & Ho1); [lia|].
    rewrite length_app in Ho. rewrite <- (assoc_L (++)) in Hv.
    destruct (encode_option_ok m o (map option_of O ++ tl) b pre o1 _ post n Hok Hv Ho1) as (b1 & E1 & Hv1).
    cbn [app]. rewrite E1. destruct (option_wire_typed m o O Hne) as [Ew Hw].
    specialize (IH (typed m o) b1 _ o2 (n + Z.of_nat (length (option_wire m o))) Hnd (Hw HO) Hv1).
    rewrite Ew in IH. destruct IH as (b2 & m2 & E2 & Em & Hv2); [lia|]. rewrite E2. exists b2, m2.
    rewrite (assoc_L (++)), length_app. split_and!; [|by rewrite Em, typed_mask|done]. f_equal. lia.
Qed.

(** ** Decoding *)

(** A field that nothing has been decoded into. *)
Definition fresh (acc : body) (f : string) (n : nat) : Prop := fields acc !! f = Some (zero n).

Lemma row_received_other m acc r f :
  f <> r_field r -> fields (row_received m acc r) !! f = fields acc !! f.
Proof. intros Hf. cbn. by apply lookup_insert_ne. Qed.

Lemma option_received_other m acc o f :
  f <> o_name o -> fields (option_received m acc o) !! f = fields acc !! f.
Proof.
  intros Hf. unfold option_received. destruct (present m o); [|done].
  destruct o; cbn in *; [by apply lookup_insert_ne|done|by apply lookup_insert_ne].
Qed.

Lemma decode_field_ok m acc r b pre rest post :
  row_ok m r -> fresh acc (r_field r) (r_size r) -> view b pre (row_wire m r ++ rest) post ->
  exists b', decode_field (r_field r) (r_dec r) acc b =
               Some (Z.of_nat (length (row_wire m r)), b', row_received m acc r) /\
             view b' (pre ++ row_wire m r) rest post.
Proof.
  intros [_ Hok]%row_ok_field Hf Hv. unfold decode_field. rewrite Hf. cbn [mbind option_bind].
  destruct (decode_ok (IeCodec := r_codec r) _ b pre rest post Hok Hv) as (b' & -> & Hv').
  by exists b'.
Qed.

Lemma decode_mandatory_ok M m acc b pre rest post n :
  Forall (row_ok m) M -> NoDup (map r_field M) ->
  Forall (fun r => fresh acc (r_field r) (r_size r)) M ->
  view b pre (concat (map (row_wire m) M) ++ rest) post ->
  exists b', decode_mandatory (map dec_of M) acc b n =
               Some (n + Z.of_nat (length (concat (map (row_wire m) M))), b', fold_left (row_received m) M acc) /\
             view b' (pre ++ concat (map (row_wire m) M)) rest post.
Proof.
  revert acc b pre n. induction M as [|r M IH]; intros acc b pre n HM Hnd Hf Hv; cbn [map concat fold_left] in *.
  - exists b. rewrite app_nil_r, Z.add_0_r. done.
  - apply Forall_cons in HM as [Hr HM]. apply Forall_cons in Hf as [Hfr Hf].
    apply NoDup_cons in Hnd as [Hne Hnd]. rewrite <- (assoc_L (++)) in Hv. cbn [decode_mandatory dec_of].
    destruct (decode_field_ok m acc r b pre _ post Hr Hfr Hv) as (b1 & -> & Hv1).
    cbn [mbind option_bind]. rewrite decide_False by lia.
    destruct (IH (row_received m acc r) b1 (pre ++ row_wire m r) (n + Z.of_nat (length (row_wire m r))) HM Hnd) as (b2 & -> & Hv2);
      [|exact Hv1|].
    + rewrite Forall_forall in Hf |- *. intros r' Hr'. unfold fresh.
      rewrite row_received_other; [by apply Hf|]. intros E. apply Hne. rewrite <- E. by apply list_elem_of_fmap_2.
    + exists b2. rewrite (assoc_L (++)), length_app. split; [|done]. do 3 f_equal. lia.
Qed.

(** The switch finds the case of an element. *)
Lemma find_case (O : list option_row) o :
  NoDup (map o_kind O) -> o ∈ O ->
  List.find (fun c => bool_decide (c_type c = o_kind o)) (map case_of O) = Some (case_of o).
Proof.
  assert (forall o, c_type (case_of o) = o_kind o) as Ht by by intros [].
  induction O as [|o' O IH]; cbn [map List.find]; intros Hnd Ho; [by apply not_elem_of_nil in Ho|].
  apply NoDup_cons in Hnd as [Hne Hnd]. rewrite Ht.
  apply elem_of_cons in Ho as [->|Ho]; [by rewrite bool_decide_eq_true_2|].
  rewrite bool_decide_eq_false_2; [by apply IH|]. intros E. apply Hne. rewrite E. by apply list_elem_of_fmap_2.
Qed.

Lemma half_octet_eq t x : t .& 0xf = 0 -> half_octet t x = t + x mod 16.
Proof.
  intros Ht. unfold half_octet. rewrite Z.lor_comm, lor_add by (done || (apply inw_land_r; by_decide)).
  rewrite !(land_ones_mod _ 4), shiftr_div in * by done. lia.
Qed.

Lemma high_half h : inw 8 h -> h .& 0xf0 = h / 16 * 16.
Proof. revert h. apply (bytes_forall (fun h => h .& 0xf0 = h / 16 * 16)). vm_compute. done. Qed.

(** The octet that starts an element, and the type the decoder takes it for. *)
Definition type_of (octet : Z) : Z := if decide (0x80 <= octet) then octet .& 0xf0 else octet.

Lemma type_of_kind m o :
  kind_ok o = true ->
  match o with Full t _ _ | Unkept t _ _ _ _ _ => type_of t | Half t _ f _ _ _ => type_of (half_octet t (rd (st (field m f)) 0)) end = o_kind o.
Proof.
  unfold type_of. destruct o; cbn; rewrite bool_decide_eq_true; intros Hk.
  1,2: by rewrite decide_False by lia.
  - destruct Hk as [Hk H0]. rewrite half_octet_eq by done. rewrite decide_True by lia.
    rewrite (land_ones_mod _ 4) in H0 by done. rewrite high_half by (unfold inw; lia). lia.
Qed.

(** One turn of the loop. *)
Lemma decode_option_ok fuel O m acc o b pre rest post n :
  NoDup (map o_kind O) -> o ∈ O -> kind_ok o = true -> option_ok m o -> present m o = true ->
  fresh acc (o_name o) (o_size o) -> view b pre (option_wire m o ++ rest) post ->
  exists b', decode_optional (S fuel) (map case_of O) acc b n =
               decode_optional fuel (map case_of O) (option_received m acc o) b' (n + Z.of_nat (length (option_wire m o))) /\
             view b' (pre ++ option_wire m o) rest post.
Proof.
  intros Hnd Ho Hk Hok Hp Hf Hv. pose proof (find_case O o Hnd Ho) as Efind.
  pose proof (type_of_kind m o Hk) as Et. specialize (Hok Hp).
  unfold option_wire, option_received in *. rewrite Hp in *.
  assert (forall c l, view b pre ((c :: l) ++ rest) post ->
    len (pk b) > 0 /\ mload b (payload (pk b)) 1 = Some [c] /\
    exists b1, header b (-1) = (true, b1) /\ view b1 (pre ++ [c]) (l ++ rest) post) as Hstart.
  { intros c l H. split; [destruct H as (_ & _ & -> & _); cbn; lia|].
    split; [by apply (mload_front b pre [c] (l ++ rest) post)|].
    by destruct (header_past b pre [c] (l ++ rest) post 1 H) as (b1 & E1 & Hv1); [done..|exists b1]. }
  cbn [decode_optional].
  destruct o as [t p r| |t p f e d c]; [|done|]; cbn [o_name o_size o_kind case_of] in *;
    destruct (Hstart _ _ Hv) as (Hlen & Eload & b1 & Eh & Hv1); clear Hstart;
    rewrite decide_True, Eload by done; cbn [mbind option_bind];
    change (rd [?x] 0) with x; unfold type_of in Et; rewrite Et, Eh, Efind; cbn [negb c_field c_decode c_present].
  - destruct (decode_field_ok m acc r b1 _ rest post Hok Hf Hv1) as (b2 & -> & Hv2).
    cbn [mbind option_bind]. rewrite decide_False by lia. exists b2. rewrite <- (assoc_L (++)) in Hv2.
    split; [|done]. f_equal. cbn [length]. lia.
  - unfold decode_field. rewrite Hf. cbn [mbind option_bind]. cbn [app] in Hv1.
    rewrite (half_decode_ok (HalfCodec := c) _ b1 pre rest post Hv1). cbn [mbind option_bind].
    rewrite decide_False by lia. exists b1. split; [|done]. f_equal. cbn [length]. lia.
Qed.

Lemma decode_optional_ok fuel Oall O m acc b pre post n :
  NoDup (map o_kind Oall) -> (forall o, o ∈ O -> o ∈ Oall) -> forallb kind_ok Oall = true ->
  Forall (option_ok m) O -> NoDup (map o_name O) ->
  Forall (fun o => fresh acc (o_name o) (o_size o)) O ->
  view b pre (concat (map (option_wire m) O)) post ->
  (length (concat (map (option_wire m) O)) < fuel)%nat ->
  exists b', decode_optional fuel (map case_of Oall) acc b n =
               Some (n + Z.of_nat (length (concat (map (option_wire m) O))), b', fold_left (option_received m) O acc) /\
             view b' (pre ++ concat (map (option_wire m) O)) [] post.
Proof.
  intros Hk Hin Hko. revert fuel acc b pre n.
  induction O as [|o O IH]; intros fuel acc b pre n HO Hnd Hf Hv Hfuel; cbn [map concat fold_left] in *.
  - destruct fuel as [|fuel]; [cbn in Hfuel; lia|]. cbn [decode_optional].
    assert (len (pk b) = 0) as -> by by destruct Hv as (_ & _ & -> & _).
    rewrite decide_False by lia. exists b. rewrite app_nil_r, Z.add_0_r. done.
  - apply Forall_cons in HO as [Hok HO]. apply Forall_cons in Hf as [Hfo Hf].
    apply NoDup_cons in Hnd as [Hne Hnd]. rewrite length_app in Hfuel.
    assert (forall o, o ∈ O -> o ∈ Oall) as Hin' by (intros; apply Hin; by right).
    destruct (present m o) eqn:Hp.
    + assert (length (option_wire m o) <> 0)%nat as Hpos.
      { specialize (Hok Hp). unfold option_wire. rewrite Hp. by destruct o. }
      destruct fuel as [|fuel]; [lia|].
      assert (o ∈ Oall) as Hoa by (apply Hin; by left).
      destruct (decode_option_ok fuel Oall m acc o b pre (concat (map (option_wire m) O)) post n Hk Hoa) as (b1 & -> & Hv1);
        [|done|done|done|exact Hv|].
      { rewrite forallb_forall in Hko. apply Hko. by apply list_elem_of_In. }
      destruct (IH Hin' fuel (option_received m acc o) b1 (pre ++ option_wire m o) (n + Z.of_nat (length (option_wire m o))) HO Hnd)
        as (b2 & -> & Hv2); [|exact Hv1|lia|].
      * rewrite Forall_forall in Hf |- *. intros o' Ho'. unfold fresh.
        rewrite option_received_other; [by apply Hf|]. intros E. apply Hne. rewrite <- E. by apply list_elem_of_fmap_2.
      * exists b2. rewrite (assoc_L (++)), length_app. split; [|done]. do 3 f_equal. lia.
    + assert (option_wire m o = []) as Ew by (unfold option_wire; by rewrite Hp).
      assert (option_received m acc o = acc) as -> by (unfold option_received; by rewrite Hp).
      rewrite Ew in *. cbn [app length Nat.add] in *. by apply IH.
Qed.

(** ** Whole messages *)

Lemma rows_ok_spec s M O :
  rows_ok s M O = true ->
  (forall r, r ∈ M -> (r_field r, r_size r) ∈ s) /\ (forall o, o ∈ O -> (o_name o, o_size o) ∈ s) /\
  forallb kind_ok O = true /\ NoDup (map o_kind O) /\ NoDup (map r_field M ++ map o_name O) /\
  NoDup (map fst s).
Proof.
  unfold rows_ok. rewrite !andb_true_iff, !bool_decide_eq_true, !forallb_forall.
  intros (((((HM & HO) & Hk) & Hkd) & Hnd) & Hs). split_and!; try done.
  - intros r Hr%list_elem_of_In. by eapply bool_decide_eq_true, HM.
  - intros o Ho%list_elem_of_In. by eapply bool_decide_eq_true, HO.
Qed.

Lemma zero_body_fresh s f n : NoDup (map fst s) -> (f, n) ∈ s -> fresh (zero_body s) f n.
Proof.
  intros Hnd Hin. unfold fresh, zero_body, zero_fields. cbn [fields].
  apply elem_of_list_to_map_1.
  - rewrite <- list_fmap_compose. erewrite list_fmap_ext; [exact Hnd|]. by intros ? [].
  - apply list_elem_of_fmap. by exists (f, n).
Qed.

Lemma rows_received_other m M acc f :
  ~ f ∈ map r_field M -> fields (fold_left (row_received m) M acc) !! f = fields acc !! f.
Proof.
  revert acc. induction M as [|r M IH]; intros acc; [done|]. cbn [map fold_left].
  intros [Hne Hf]%not_elem_of_cons. rewrite IH by done. by apply row_received_other.
Qed.

Lemma mc_encode_ok c m b pre old rest post :
  mc_wf c m -> view b pre (old ++ rest) post -> length old = length (mc_wire c m) ->
  exists b' m', mc_encode c b m = Some (Z.of_nat (length (mc_wire c m)), b', m') /\
             view b' (pre ++ mc_wire c m) rest post.
Proof.
  intros [HM HO] Hv Ho. destruct (rows_ok_spec _ _ _ (mc_ok c)) as (_ & _ & _ & _ & Hnd & _).
  apply NoDup_app in Hnd as (_ & _ & Hnd). unfold mc_wire, body_wire in *. rewrite length_app in *.
  destruct (list_split_at (length (concat (map (row_wire m) (mc_rows c)))) old) as (o1 & o2 & -> & Ho1); [lia|].
  rewrite length_app, <- (assoc_L (++)) in *. rewrite mc_encode_eq. unfold encode_message.
  destruct (encode_mandatory_ok _ m b pre o1 _ post 0 HM Hv Ho1) as (b1 & -> & Hv1).
  cbn [mbind option_bind]. rewrite decide_False by lia.
  pose proof (encode_optional_ok (mc_options c) [] m b1 _ o2 rest post
    (0 + Z.of_nat (length (concat (map (row_wire m) (mc_rows c))))) Hnd HO Hv1) as (b2 & m2 & E2 & _ & Hv2); [lia|].
  rewrite app_nil_r in E2. rewrite E2. exists b2, m2. rewrite (assoc_L (++)). split; [|done].
  cbn [encode_optional]. do 3 f_equal. lia.
Qed.

Lemma mc_decode_ok c m b pre post :
  mc_wf c m -> view b pre (mc_wire c m) post ->
  exists b', mc_decode c (zero_body (mc_struct c)) b =
               Some (Z.of_nat (length (mc_wire c m)), b', mc_received c m) /\
             view b' (pre ++ mc_wire c m) [] post.
Proof.
  intros [HM HO] Hv. destruct (rows_ok_spec _ _ _ (mc_ok c)) as (HsM & HsO & Hk & Hkd & Hnd & Hs).
  apply NoDup_app in Hnd as (HndM & Hdisj & HndO). unfold mc_wire, body_wire in *.
  rewrite mc_decode_eq.
  edestruct (decode_mandatory_ok (mc_rows c) m (zero_body (mc_struct c)) b pre
    (concat (map (option_wire m) (mc_options c))) post 0 HM HndM) as (b1 & E1 & Hv1); [|exact Hv|].
  { rewrite Forall_forall. intros r Hr. by apply zero_body_fresh; [|apply HsM]. }
  destruct (mc_loop c) eqn:Hl.
  - unfold decode_message. rewrite E1. cbn [mbind option_bind]. rewrite decide_False by lia.
    pose proof (decode_optional_ok (S (Z.to_nat (len (pk b1)))) (mc_options c) (mc_options c) m
      (fold_left (row_received m) (mc_rows c) (zero_body (mc_struct c))) b1 (pre ++ concat (map (row_wire m) (mc_rows c))) post
      (0 + Z.of_nat (length (concat (map (row_wire m) (mc_rows c))))) Hkd (fun _ H => H) Hk HO HndO) as H.
    edestruct H as (b2 & -> & Hv2); [|exact Hv1| |]; clear H.
    + rewrite Forall_forall. intros o Ho. unfold fresh. rewrite rows_received_other.
      * by apply zero_body_fresh; [|apply HsO].
      * intros Hin. apply (Hdisj _ Hin). by apply list_elem_of_fmap_2.
    + destruct Hv1 as (_ & _ & -> & _). lia.
    + exists b2. rewrite (assoc_L (++)), length_app. split; [|done]. do 3 f_equal. lia.
  - unfold decode_fixed, mc_received, body_received. rewrite (mc_loop_ok c Hl) in *. cbn [map concat fold_left] in *.
    rewrite app_nil_r in *. rewrite E1. by exists b1.
Qed.

(** ** Messages that come back as they were *)

(** What the decoder would make of every field is what the field holds. *)
Record canonical (c : codec) (m : body) : Prop := {
  can_rows r : r ∈ mc_rows c -> norm (IeCodec := r_codec r) (field m (r_field r)) = field m (r_field r);
  can_options o : o ∈ mc_options c -> present m o = true ->
    match o with
    | Full _ _ r => norm (IeCodec := r_codec r) (field m (r_field r)) = field m (r_field r)
    | Unkept _ _ _ _ _ _ => False
    | Half t _ f _ _ _ => mkIe [half_octet t (rd (st (field m f)) 0)] None = field m f
    end;
  can_mask : presencemask m = fold_left (fun k o => if present m o then k .| o_bit o else k) (mc_options c) 0;
  can_others f : ~ f ∈ map r_field (mc_rows c) ->
    (forall o, o ∈ mc_options c -> o_name o = f -> present m o = false) ->
    fields m !! f = zero_fields (mc_struct c) !! f
}.

Lemma rows_received_mask m M acc : presencemask (fold_left (row_received m) M acc) = presencemask acc.
Proof. revert acc. induction M as [|r M IH]; intros acc; [done|]. cbn [fold_left]. by rewrite IH. Qed.

Lemma options_received_mask m O acc :
  presencemask (fold_left (option_received m) O acc) =
    fold_left (fun k o => if present m o then k .| o_bit o else k) O (presencemask acc).
Proof.
  revert acc. induction O as [|o O IH]; intros acc; [done|]. cbn [fold_left]. rewrite IH. f_equal.
  unfold option_received. by destruct (present m o), o.
Qed.

(** A field that both sides agree on stays so. *)
Lemma rows_received_same m M acc f :
  (forall r, r ∈ M -> fields m !! r_field r = Some (norm (IeCodec := r_codec r) (field m (r_field r)))) ->
  f ∈ map r_field M \/ fields acc !! f = fields m !! f ->
  fields (fold_left (row_received m) M acc) !! f = fields m !! f.
Proof.
  revert acc. induction M as [|r M IH]; intros acc HM Hf; cbn [map fold_left] in *.
  - destruct Hf as [Hf|Hf]; [by apply not_elem_of_nil in Hf|done].
  - apply IH; [intros r' Hr'; apply HM; by right|]. destruct (decide (f = r_field r)) as [->|Hne].
    + right. cbn. rewrite lookup_insert_eq. symmetry. apply HM. by left.
    + destruct Hf as [Hf|Hf]; [left; apply elem_of_cons in Hf; tauto|right; by rewrite row_received_other].
Qed.

Lemma options_received_same m O acc f :
  Forall (option_ok m) O ->
  (forall o, o ∈ O -> present m o = true ->
    fields m !! o_name o = Some (match o with
      | Full _ _ r => norm (IeCodec := r_codec r) (field m (r_field r))
      | Unkept _ _ f _ _ _ => field m f
      | Half t _ f _ _ _ => mkIe [half_octet t (rd (st (field m f)) 0)] None end)) ->
  (exists o, o ∈ O /\ o_name o = f /\ present m o = true) \/ fields acc !! f = fields m !! f ->
  fields (fold_left (option_received m) O acc) !! f = fields m !! f.
Proof.
  revert acc. induction O as [|o O IH]; intros acc Hok HO Hf; cbn [fold_left] in *.
  - destruct Hf as [(o & Ho & _)|Hf]; [by apply not_elem_of_nil in Ho|done].
  - apply Forall_cons in Hok as [Ho Hok]. apply IH; [done|intros o' Ho'; apply HO; by right|].
    destruct (decide (f = o_name o)) as [->|Hne].
    + destruct (present m o) eqn:Hp.
      * right. unfold option_received. rewrite Hp. specialize (HO o (list_elem_of_here _ _) Hp).
        specialize (Ho Hp). rewrite HO. destruct o; cbn; [|done|]; by rewrite lookup_insert_eq.
      * destruct Hf as [(o' & [->|Ho']%elem_of_cons & En & Hp')|Hf]; [congruence|left; by exists o'|].
        right. unfold option_received. by rewrite Hp.
    + destruct Hf as [(o' & [->|Ho']%elem_of_cons & En & Hp')|Hf]; [congruence|left; by exists o'|].
      right. by rewrite option_received_other.
Qed.

Lemma received_canonical c m : mc_wf c m -> canonical c m -> mc_received c m = m.
Proof.
  intros [HM HO'] [Hr Ho Hmask Hothers]. rewrite Forall_forall in HM.
  pose proof HO' as HO. rewrite Forall_forall in HO.
  destruct (mc_received c m) as [k fs] eqn:E.
  assert (k = presencemask (mc_received c m)) as -> by by rewrite E.
  assert (fs = fields (mc_received c m)) as -> by by rewrite E.
  destruct m as [km fm]. f_equal.
  - unfold mc_received, body_received. rewrite options_received_mask, rows_received_mask. symmetry. apply Hmask.
  - apply map_eq. intros f. set (m := mkBody km fm) in *. change fm with (fields m).
    unfold mc_received, body_received.
    apply options_received_same; [done| |].
    { intros o Hin Hp. specialize (Ho o Hin Hp). specialize (HO o Hin Hp). destruct o; cbn [o_name].
      - rewrite Ho. by apply row_ok_field.
      - done.
      - rewrite Ho. destruct HO as [x Hx]. unfold field. by rewrite Hx. }
    destruct (decide (Exists (fun o => o_name o = f /\ present m o = true) (mc_options c))) as [Hex|Hex].
    { left. apply Exists_exists in Hex as (o & ? & ? & ?). by exists o. }
    right. apply rows_received_same.
    { intros r Hin. rewrite Hr by done. by apply row_ok_field, HM. }
    destruct (decide (f ∈ map r_field (mc_rows c))) as [Hin|Hin]; [by left|]. right.
    rewrite Hothers; [done|done|]. intros o Hin' En. destruct (present m o) eqn:Hp; [|done].
    exfalso. apply Hex. apply Exists_exists. by exists o.
Qed.

End NasMessageSpec.
