(* ===== verification/NasCodecs.v ===== *)
(** The messages of [NasDecoder] and [NasEncoder], as codecs in the sense of
    [NasMessageSpec]: the elements of each are found from its two functions. *)

From S2P Require Import Prelude Pkbuf NasIes NasIesSpec NasIesCodecs NasMessage NasMessageSpec NasTables NasDecoder NasEncoder.

Module NasCodecs.
Import NasIes NasIesSpec NasIesCodecs NasMessage NasMessageSpec NasTables NasDecoder NasEncoder.
#[local] Open Scope Z_scope.

(** ** Pairing the tables of the two sides *)

Class Rows (le : list (string * encoder)) (ld : list (string * decoder)) := {
  rows : list row; rows_enc : le = map enc_of rows; rows_dec : ld = map dec_of rows
}.
Arguments rows _ _ {_}.

#[export] Instance rows_nil : Rows [] [] := {| rows := []; rows_enc := eq_refl; rows_dec := eq_refl |}.
#[export] Instance rows_cons f size e d le ld (C : IeCodec size e d) (R : Rows le ld) :
  Rows ((f, e) :: le) ((f, d) :: ld).
Proof.
  refine {| rows := Row f size e d C :: rows le ld |}.
  - cbn [map enc_of r_field r_enc]. f_equal. apply rows_enc.
  - cbn [map dec_of r_field r_dec]. f_equal. apply rows_dec.
Defined.

Class Options (lo : list optional) (lc : list case) := {
  options : list option_row; options_enc : lo = map option_of options; options_dec : lc = map case_of options
}.
Arguments options _ _ {_}.

#[export] Instance options_nil : Options [] [] :=
  {| options := []; options_enc := eq_refl; options_dec := eq_refl |}.

Definition options_add (o : option_row) lo lc (R : Options lo lc) :
  Options (option_of o :: lo) (case_of o :: lc).
Proof.
  refine {| options := o :: options lo lc |}.
  - cbn [map]. f_equal. apply options_enc.
  - cbn [map]. f_equal. apply options_dec.
Defined.

#[export] Instance options_full t p f size e d lo lc (C : IeCodec size e d) (R : Options lo lc) :
  Options (mkOptional p t f e false :: lo) (mkCase t p f d :: lc) :=
  options_add (Full t p (Row f size e d C)) lo lc R.
#[export] Instance options_half t p f e d lo lc (C : HalfCodec e d) (R : Options lo lc) :
  Options (mkOptional p t f e true :: lo) (mkCase t p f d :: lc) :=
  options_add (Half t p f e d C) lo lc R.

(** The signature is not sent as it is received ([p_tmsi_signature_resent]). *)
#[export] Instance options_p_tmsi_signature t p f lo lc (R : Options lo lc) :
  Options (mkOptional p t f nas_encode_p_tmsi_signature false :: lo)
          (mkCase t p f nas_decode_p_tmsi_signature :: lc) :=
  options_add (Unkept t p f sizeof_p_tmsi_signature nas_encode_p_tmsi_signature nas_decode_p_tmsi_signature) lo lc R.

Definition with_loop s e d le ld lo lc (R : Rows le ld) (P : Options lo lc)
  (He : e = encode_message le lo) (Hd : d = decode_message ld lc)
  (H : rows_ok s (rows le ld) (options lo lc) = true) : codec.
Proof.
  refine (Codec s (rows le ld) (options lo lc) true e d _ _ _ H); [| |done].
  - rewrite He. f_equal; [apply rows_enc|apply options_enc].
  - rewrite Hd. f_equal; [apply rows_dec|apply options_dec].
Defined.

Definition without_loop s e d le ld (R : Rows le ld)
  (He : e = encode_message le []) (Hd : d = decode_fixed ld)
  (H : rows_ok s (rows le ld) [] = true) : codec.
Proof.
  refine (Codec s (rows le ld) [] false e d _ _ (fun _ => eq_refl) H).
  - rewrite He. f_equal. apply rows_enc.
  - rewrite Hd. f_equal. apply rows_dec.
Defined.

(** The functions of the messages are unfolded before those they call. *)
#[local] Strategy 1000 [encode_message decode_message decode_fixed].

(** The codec of the message with structure [s], from its two functions. *)
Ltac codec_of s e d :=
  let e' := eval unfold e in e in
  let d' := eval unfold d in d in
  lazymatch e' with
  | encode_message ?le ?lo =>
      lazymatch d' with
      | decode_message ?ld ?lc =>
          refine (with_loop s e d le ld lo lc _ _ eq_refl eq_refl _); vm_compute; reflexivity
      | decode_fixed ?ld =>
          refine (without_loop s e d le ld _ eq_refl eq_refl _); vm_compute; reflexivity
      end
  end.

(** ** The messages *)

Definition attach_request_codec : codec.
Proof. codec_of nas_attach_request_t nas_encode_attach_request nas_decode_attach_request. Defined.
Definition attach_accept_codec : codec.
Proof. codec_of nas_attach_accept_t nas_encode_attach_accept nas_decode_attach_accept. Defined.
Definition attach_complete_codec : codec.
Proof. codec_of nas_attach_complete_t nas_encode_attach_complete nas_decode_attach_complete. Defined.
Definition attach_reject_codec : codec.
Proof. codec_of nas_attach_reject_t nas_encode_attach_reject nas_decode_attach_reject. Defined.
Definition detach_request_from_ue_codec : codec.
Proof. codec_of nas_detach_request_from_ue_t nas_encode_detach_request_from_ue nas_decode_detach_request_from_ue. Defined.
Definition detach_request_to_ue_codec : codec.
Proof. codec_of nas_detach_request_to_ue_t nas_encode_detach_request_to_ue nas_decode_detach_request_to_ue. Defined.
Definition tracking_area_update_request_codec : codec.
Proof. codec_of nas_tracking_area_update_request_t nas_encode_tracking_area_update_request nas_decode_tracking_area_update_request. Defined.
Definition tracking_area_update_accept_codec : codec.
Proof. codec_of nas_tracking_area_update_accept_t nas_encode_tracking_area_update_accept nas_decode_tracking_area_update_accept. Defined.
Definition tracking_area_update_reject_codec : codec.
Proof. codec_of nas_tracking_area_update_reject_t nas_encode_tracking_area_update_reject nas_decode_tracking_area_update_reject. Defined.
Definition extended_service_request_codec : codec.
Proof. codec_of nas_extended_service_request_t nas_encode_extended_service_request nas_decode_extended_service_request. Defined.
Definition service_request_codec : codec.
Proof. codec_of nas_service_request_t nas_encode_service_request nas_decode_service_request. Defined.
Definition service_reject_codec : codec.
Proof. codec_of nas_service_reject_t nas_encode_service_reject nas_decode_service_reject. Defined.
Definition guti_reallocation_command_codec : codec.
Proof. codec_of nas_guti_reallocation_command_t nas_encode_guti_reallocation_command nas_decode_guti_reallocation_command. Defined.
Definition authentication_response_codec : codec.
Proof. codec_of nas_authentication_response_t nas_encode_authentication_response nas_decode_authentication_response. Defined.
Definition identity_request_codec : codec.
Proof. codec_of nas_identity_request_t nas_encode_identity_request nas_decode_identity_request. Defined.
Definition identity_response_codec : codec.
Proof. codec_of nas_identity_response_t nas_encode_identity_response nas_decode_identity_response. Defined.
Definition authentication_failure_codec : codec.
Proof. codec_of nas_authentication_failure_t nas_encode_authentication_failure nas_decode_authentication_failure. Defined.
Definition security_mode_complete_codec : codec.
Proof. codec_of nas_security_mode_complete_t nas_encode_security_mode_complete nas_decode_security_mode_complete. Defined.
Definition security_mode_reject_codec : codec.
Proof. codec_of nas_security_mode_reject_t nas_encode_security_mode_reject nas_decode_security_mode_reject. Defined.
Definition emm_status_codec : codec.
Proof. codec_of nas_emm_status_t nas_encode_emm_status nas_decode_emm_status. Defined.
Definition emm_information_codec : codec.
Proof. codec_of nas_emm_information_t nas_encode_emm_information nas_decode_emm_information. Defined.
Definition downlink_nas_transport_codec : codec.
Proof. codec_of nas_downlink_nas_transport_t nas_encode_downlink_nas_transport nas_decode_downlink_nas_transport. Defined.
Definition uplink_nas_transport_codec : codec.
Proof. codec_of nas_uplink_nas_transport_t nas_encode_uplink_nas_transport nas_decode_uplink_nas_transport. Defined.
Definition cs_service_notification_codec : codec.
Proof. codec_of nas_cs_service_notification_t nas_encode_cs_service_notification nas_decode_cs_service_notification. Defined.
Definition uplink_generic_nas_transport_codec : codec.
Proof. codec_of nas_uplink_generic_nas_transport_t nas_encode_uplink_generic_nas_transport nas_decode_uplink_generic_nas_transport. Defined.
Definition downlink_generic_nas_transport_codec : codec.
Proof. codec_of nas_downlink_generic_nas_transport_t nas_encode_downlink_generic_nas_transport nas_decode_downlink_generic_nas_transport. Defined.
Definition activate_default_eps_bearer_context_request_codec : codec.
Proof. codec_of nas_activate_default_eps_bearer_context_request_t nas_encode_activate_default_eps_bearer_context_request nas_decode_activate_default_eps_bearer_context_request. Defined.
Definition activate_default_eps_bearer_context_accept_codec : codec.
Proof. codec_of nas_activate_default_eps_bearer_context_accept_t nas_encode_activate_default_eps_bearer_context_accept nas_decode_activate_default_eps_bearer_context_accept. Defined.
Definition activate_default_eps_bearer_context_reject_codec : codec.
Proof. codec_of nas_activate_default_eps_bearer_context_reject_t nas_encode_activate_default_eps_bearer_context_reject nas_decode_activate_default_eps_bearer_context_reject. Defined.
Definition activate_dedicated_eps_bearer_context_request_codec : codec.
Proof. codec_of nas_activate_dedicated_eps_bearer_context_request_t nas_encode_activate_dedicated_eps_bearer_context_request nas_decode_activate_dedicated_eps_bearer_context_request. Defined.
Definition activate_dedicated_eps_bearer_context_accept_codec : codec.
Proof. codec_of nas_activate_dedicated_eps_bearer_context_accept_t nas_encode_activate_dedicated_eps_bearer_context_accept nas_decode_activate_dedicated_eps_bearer_context_accept. Defined.
Definition activate_dedicated_eps_bearer_context_reject_codec : codec.
Proof. codec_of nas_activate_dedicated_eps_bearer_context_reject_t nas_encode_activate_dedicated_eps_bearer_context_reject nas_decode_activate_dedicated_eps_bearer_context_reject. Defined.
Definition modify_eps_bearer_context_request_codec : codec.
Proof. codec_of nas_modify_eps_bearer_context_request_t nas_encode_modify_eps_bearer_context_request nas_decode_modify_eps_bearer_context_request. Defined.
Definition modify_eps_bearer_context_accept_codec : codec.
Proof. codec_of nas_modify_eps_bearer_context_accept_t nas_encode_modify_eps_bearer_context_accept nas_decode_modify_eps_bearer_context_accept. Defined.
Definition modify_eps_bearer_context_reject_codec : codec.
Proof. codec_of nas_modify_eps_bearer_context_reject_t nas_encode_modify_eps_bearer_context_reject nas_decode_modify_eps_bearer_context_reject. Defined.
Definition deactivate_eps_bearer_context_request_codec : codec.
Proof. codec_of nas_deactivate_eps_bearer_context_request_t nas_encode_deactivate_eps_bearer_context_request nas_decode_deactivate_eps_bearer_context_request. Defined.
Definition deactivate_eps_bearer_context_accept_codec : codec.
Proof. codec_of nas_deactivate_eps_bearer_context_accept_t nas_encode_deactivate_eps_bearer_context_accept nas_decode_deactivate_eps_bearer_context_accept. Defined.
Definition pdn_connectivity_request_codec : codec.
Proof. codec_of nas_pdn_connectivity_request_t nas_encode_pdn_connectivity_request nas_decode_pdn_connectivity_request. Defined.
Definition pdn_connectivity_reject_codec : codec.
Proof. codec_of nas_pdn_connectivity_reject_t nas_encode_pdn_connectivity_reject nas_decode_pdn_connectivity_reject. Defined.
Definition pdn_disconnect_request_codec : codec.
Proof. codec_of nas_pdn_disconnect_request_t nas_encode_pdn_disconnect_request nas_decode_pdn_disconnect_request. Defined.
Definition pdn_disconnect_reject_codec : codec.
Proof. codec_of nas_pdn_disconnect_reject_t nas_encode_pdn_disconnect_reject nas_decode_pdn_disconnect_reject. Defined.
Definition bearer_resource_allocation_request_codec : codec.
Proof. codec_of nas_bearer_resource_allocation_request_t nas_encode_bearer_resource_allocation_request nas_decode_bearer_resource_allocation_request. Defined.
Definition bearer_resource_allocation_reject_codec : codec.
Proof. codec_of nas_bearer_resource_allocation_reject_t nas_encode_bearer_resource_allocation_reject nas_decode_bearer_resource_allocation_reject. Defined.
Definition bearer_resource_modification_request_codec : codec.
Proof. codec_of nas_bearer_resource_modification_request_t nas_encode_bearer_resource_modification_request nas_decode_bearer_resource_modification_request. Defined.
Definition bearer_resource_modification_reject_codec : codec.
Proof. codec_of nas_bearer_resource_modification_reject_t nas_encode_bearer_resource_modification_reject nas_decode_bearer_resource_modification_reject. Defined.
Definition esm_information_response_codec : codec.
Proof. codec_of nas_esm_information_response_t nas_encode_esm_information_response nas_decode_esm_information_response. Defined.
Definition esm_status_codec : codec.
Proof. codec_of nas_esm_status_t nas_encode_esm_status nas_decode_esm_status. Defined.

(** Types that both switches know, with messages that come back.  [NasCodecSpec.emm_switches]
    says which other types of [nas_emm_message_t] they both know. *)
Definition emm_codecs : list (Z * codec) :=
  [(NAS_ATTACH_REQUEST, attach_request_codec);
   (NAS_ATTACH_ACCEPT, attach_accept_codec);
   (NAS_ATTACH_COMPLETE, attach_complete_codec);
   (NAS_ATTACH_REJECT, attach_reject_codec);
   (NAS_TRACKING_AREA_UPDATE_REQUEST, tracking_area_update_request_codec);
   (NAS_TRACKING_AREA_UPDATE_ACCEPT, tracking_area_update_accept_codec);
   (NAS_TRACKING_AREA_UPDATE_REJECT, tracking_area_update_reject_codec);
   (NAS_EXTENDED_SERVICE_REQUEST, extended_service_request_codec);
   (NAS_SERVICE_REJECT, service_reject_codec);
   (NAS_GUTI_REALLOCATION_COMMAND, guti_reallocation_command_codec);
   (NAS_AUTHENTICATION_RESPONSE, authentication_response_codec);
   (NAS_IDENTITY_REQUEST, identity_request_codec);
   (NAS_IDENTITY_RESPONSE, identity_response_codec);
   (NAS_AUTHENTICATION_FAILURE, authentication_failure_codec);
   (NAS_SECURITY_MODE_COMPLETE, security_mode_complete_codec);
   (NAS_SECURITY_MODE_REJECT, security_mode_reject_codec);
   (NAS_EMM_STATUS, emm_status_codec);
   (NAS_EMM_INFORMATION, emm_information_codec);
   (NAS_DOWNLINK_NAS_TRANSPORT, downlink_nas_transport_codec);
   (NAS_UPLINK_NAS_TRANSPORT, uplink_nas_transport_codec);
   (NAS_CS_SERVICE_NOTIFICATION, cs_service_notification_codec);
   (NAS_UPLINK_GENERIC_NAS_TRANSPORT, uplink_generic_nas_transport_codec);
   (NAS_DOWNLINK_GENERIC_NAS_TRANSPORT, downlink_generic_nas_transport_codec)].

Definition esm_codecs : list (Z * codec) :=
  [(NAS_ACTIVATE_DEFAULT_EPS_BEARER_CONTEXT_REQUEST, activate_default_eps_bearer_context_request_codec);
   (NAS_ACTIVATE_DEFAULT_EPS_BEARER_CONTEXT_ACCEPT, activate_default_eps_bearer_context_accept_codec);
   (NAS_ACTIVATE_DEFAULT_EPS_BEARER_CONTEXT_REJECT, activate_default_eps_bearer_context_reject_codec);
   (NAS_ACTIVATE_DEDICATED_EPS_BEARER_CONTEXT_REQUEST, activate_dedicated_eps_bearer_context_request_codec);
   (NAS_ACTIVATE_DEDICATED_EPS_BEARER_CONTEXT_ACCEPT, activate_dedicated_eps_bearer_context_accept_codec);
   (NAS_ACTIVATE_DEDICATED_EPS_BEARER_CONTEXT_REJECT, activate_dedicated_eps_bearer_context_reject_codec);
   (NAS_MODIFY_EPS_BEARER_CONTEXT_REQUEST, modify_eps_bearer_context_request_codec);
   (NAS_MODIFY_EPS_BEARER_CONTEXT_ACCEPT, modify_eps_bearer_context_accept_codec);
   (NAS_MODIFY_EPS_BEARER_CONTEXT_REJECT, modify_eps_bearer_context_reject_codec);
   (NAS_DEACTIVATE_EPS_BEARER_CONTEXT_REQUEST, deactivate_eps_bearer_context_request_codec);
   (NAS_DEACTIVATE_EPS_BEARER_CONTEXT_ACCEPT, deactivate_eps_bearer_context_accept_codec);
   (NAS_PDN_CONNECTIVITY_REQUEST, pdn_connectivity_request_codec);
   (NAS_PDN_CONNECTIVITY_REJECT, pdn_connectivity_reject_codec);
   (NAS_PDN_DISCONNECT_REQUEST, pdn_disconnect_request_codec);
   (NAS_PDN_DISCONNECT_REJECT, pdn_disconnect_reject_codec);
   (NAS_BEARER_RESOURCE_ALLOCATION_REQUEST, bearer_resource_allocation_request_codec);
   (NAS_BEARER_RESOURCE_ALLOCATION_REJECT, bearer_resource_allocation_reject_codec);
   (NAS_BEARER_RESOURCE_MODIFICATION_REQUEST, bearer_resource_modification_request_codec);
   (NAS_BEARER_RESOURCE_MODIFICATION_REJECT, bearer_resource_modification_reject_codec);
   (NAS_ESM_INFORMATION_RESPONSE, esm_information_response_codec);
   (NAS_ESM_STATUS, esm_status_codec)].

End NasCodecs.
