(* ===== verification/NasCodecSpec.v ===== *)
(** [nas_plain_encode], [nas_emm_decode] and [nas_esm_decode]: whole messages come
    back, and what the two sides do with errors. *)

From S2P Require Import Prelude Pkbuf NasIes NasIesSpec NasIesCodecs NasMessage NasMessageSpec NasTables NasDecoder NasEncoder NasCodecs.

Module NasCodecSpec.
Import Pkbuf NasIes NasIesSpec NasMessage NasMessageSpec NasTables NasDecoder NasEncoder NasCodecs.
#[local] Open Scope Z_scope.

(** ** The switches *)

(** Both switches call the functions of [c] for the type [t], with the member of the
    union that [c] is about. *)
Definition knows (le : encode_switch) (ld : decode_switch) (t : Z) (c : codec) : Prop :=
  switch le t = Some (Some (mc_encode c)) /\
  switch ld t = Some (mc_struct c, Some (mc_decode c)).

(** The functions of the messages are compared before they are unfolded. *)
#[local] Strategy 1000 [encode_message decode_message decode_fixed].

Lemma emm_knows : Forall (fun r => knows nas_emm_encoders nas_emm_decoders r.1 r.2) emm_codecs.
Proof. repeat constructor. Qed.

Lemma esm_knows : Forall (fun r => knows nas_esm_encoders nas_esm_decoders r.1 r.2) esm_codecs.
Proof. repeat constructor. Qed.

Lemma emm_known t c : (t, c) ∈ emm_codecs -> knows nas_emm_encoders nas_emm_decoders t c.
Proof. intros H. pose proof emm_knows as K. rewrite Forall_forall in K. exact (K _ H). Qed.

Lemma esm_known t c : (t, c) ∈ esm_codecs -> knows nas_esm_encoders nas_esm_decoders t c.
Proof. intros H. pose proof esm_knows as K. rewrite Forall_forall in K. exact (K _ H). Qed.

(** The other types that both switches know: those without elements, and three whose
    octets do not come back (see [nas_emm_roundtrip]). *)
Definition emm_header_only : list Z :=
  [NAS_DETACH_ACCEPT; NAS_TRACKING_AREA_UPDATE_COMPLETE; NAS_GUTI_REALLOCATION_COMPLETE; NAS_AUTHENTICATION_REJECT].
Definition emm_one_way : list Z :=
  [NAS_DETACH_REQUEST; NAS_AUTHENTICATION_REQUEST; NAS_SECURITY_MODE_COMMAND].

Lemma switch_in {A} (l : list (Z * A)) t : is_Some (switch l t) -> t ∈ map fst l.
Proof.
  intros [a E]. unfold switch in E. destruct (List.find _ l) as [[t' x]|] eqn:Hf; [|done].
  apply find_some in Hf as [Hi%list_elem_of_In Ht%bool_decide_eq_true]. cbn in Ht. subst t'.
  by apply (list_elem_of_fmap_2 fst _ (t, x)).
Qed.

Lemma emm_switches t : is_Some (switch nas_emm_encoders t) -> is_Some (switch nas_emm_decoders t) ->
  t ∈ map fst emm_codecs ++ emm_header_only ++ emm_one_way.
Proof.
  intros He%switch_in _.
  assert (Forall (fun t => t ∈ map fst emm_codecs ++ emm_header_only ++ emm_one_way) (map fst nas_emm_encoders)) as Hf by by_decide.
  rewrite Forall_forall in Hf. by apply Hf.
Qed.

Lemma emm_header_only_switches :
  Forall (fun t => switch nas_emm_encoders t = Some None /\ switch nas_emm_decoders t = Some ([], None)) emm_header_only.
Proof. repeat constructor. Qed.

(** ** The ends of the functions *)

Lemma view_set_len b pre m rest post n :
  view b pre (m ++ rest) post -> n = Z.of_nat (length m) -> n < 2 ^ 16 ->
  view (set_len b n) pre m (rest ++ post).
Proof.
  intros (E & Hp & Hl & Hm) -> Hn. split_and!; cbn [set_len mem pk payload len].
  - by rewrite E, <- (assoc_L (++)).
  - done.
  - apply u16_id. unfold inw. lia.
  - done.
Qed.

(** Room for [h] and the elements, and no more than a packet holds. *)
Definition fits (h w : list Z) (old : list Z) : Prop :=
  h <> [] /\ Z.of_nat (length h + length w) < 2 ^ 15 /\ (length h + length w <= length old)%nat /\
  Z.of_nat (length old) < 2 ^ 16.

(** [p] is what the caller has written or read: the header [h], or its first octet
    for a service request. *)
Lemma encode_out_ok h p w b pre rest post m n :
  view b (pre ++ p ++ w) rest post -> p <> [] -> Z.of_nat (length p + length w) < 2 ^ 15 ->
  Z.of_nat (length p + length w + length rest) < 2 ^ 16 -> n = Z.of_nat (length p + length w) ->
  exists b', encode_out h n b m = Some (true, Some b', mkMessage h m) /\
             view b' pre (p ++ w) (rest ++ post).
Proof.
  intros Hv Hh Hn Hr ->. unfold encode_out. rewrite i16_pos by lia.
  destruct (header_push b pre (p ++ w) rest post (Z.of_nat (length p + length w))) as (b' & -> & Hv');
    [done|rewrite length_app; lia|by destruct p|rewrite length_app; lia|].
  eexists. split; [reflexivity|]. apply view_set_len; [done|rewrite length_app; lia|lia].
Qed.

Lemma decode_out_ok h p w b pre post m n :
  view b (pre ++ p ++ w) [] post -> p <> [] -> Z.of_nat (length p + length w) < 2 ^ 15 ->
  n = Z.of_nat (length p + length w) ->
  exists b', decode_out h n b m = Some (true, b', mkMessage h m) /\ view b' pre (p ++ w) post.
Proof.
  intros Hv Hh Hn ->. unfold decode_out. rewrite i16_pos by lia.
  destruct (header_push b pre (p ++ w) [] post (Z.of_nat (length p + length w))) as (b' & -> & Hv');
    [done|rewrite length_app; lia|by destruct p|rewrite length_app; cbn [length]; lia|].
  rewrite app_nil_r in Hv'. by exists b'.
Qed.

Lemma encode_call_ok c m h p b pre old rest post :
  mc_wf c m -> view b (pre ++ p) (old ++ rest) post -> length old = length (mc_wire c m) ->
  p <> [] -> Z.of_nat (length p + length old) < 2 ^ 15 ->
  Z.of_nat (length p + length old + length rest) < 2 ^ 16 ->
  exists b' m', encode_call h (Z.of_nat (length p)) (mc_encode c) b m = Some (true, Some b', mkMessage h m') /\
                view b' pre (p ++ mc_wire c m) (rest ++ post).
Proof.
  intros Hwf Hv Ho Hh Hn Hr. unfold encode_call.
  destruct (mc_encode_ok c m b (pre ++ p) old rest post Hwf Hv Ho) as (b1 & m' & -> & Hv1).
  cbn [mbind option_bind]. rewrite decide_True by lia. rewrite <- (assoc_L (++)) in Hv1.
  destruct (encode_out_ok h p (mc_wire c m) b1 pre rest post m' (Z.of_nat (length p) + Z.of_nat (length (mc_wire c m))) Hv1)
    as (b2 & -> & Hv2); [done|lia..|]. by exists b2, m'.
Qed.

Lemma decode_call_ok c m h p b pre post :
  mc_wf c m -> view b (pre ++ p) (mc_wire c m) post -> p <> [] ->
  Z.of_nat (length p + length (mc_wire c m)) < 2 ^ 15 ->
  exists b', decode_call h (Z.of_nat (length p)) (mc_decode c) (mc_struct c) b =
               Some (true, b', mkMessage h (mc_received c m)) /\
             view b' pre (p ++ mc_wire c m) post.
Proof.
  intros Hwf Hv Hh Hn. unfold decode_call.
  destruct (mc_decode_ok c m b (pre ++ p) post Hwf Hv) as (b1 & -> & Hv1).
  cbn [mbind option_bind]. rewrite u16_id by (unfold inw; lia). rewrite decide_True by lia.
  rewrite u16_id by (unfold inw; lia). rewrite <- (assoc_L (++)) in Hv1.
  destruct (decode_out_ok h p (mc_wire c m) b1 pre post (mc_received c m)
    (Z.of_nat (length p) + Z.of_nat (length (mc_wire c m))) Hv1) as (b2 & -> & Hv2); [done|lia..|].
  by exists b2.
Qed.

(** ** The header *)

(** The header is written in front of the elements. *)
Lemma header_written b pre old post (h w : list Z) :
  view b pre old post -> fits h w old ->
  exists b1 b2 o rest, header b (- Z.of_nat (length h)) = (true, b1) /\
    mstore b1 (payload (pk b1) - Z.of_nat (length h)) h = Some b2 /\
    view b2 (pre ++ h) (o ++ rest) post /\ length o = length w /\
    rest = drop (length h + length w) old /\
    Z.of_nat (length h + length o + length rest) < 2 ^ 16.
Proof.
  intros Hv (Hh & Hn & Hl & Ho).
  destruct (list_split_at (length h) old) as (o1 & o' & -> & Ho1); [lia|]. rewrite length_app in *.
  destruct (list_split_at (length w) o') as (o2 & rest & -> & Ho2); [lia|]. rewrite length_app in *.
  destruct (header_pop b pre o1 (o2 ++ rest) post (- Z.of_nat (length h)) Hv) as (b1 & E1 & Hv1);
    [lia|intros ->; by destruct h|].
  destruct (mstore_behind b1 pre o1 (o2 ++ rest) post h (Z.of_nat (length h)) Hv1 Ho1 eq_refl) as (b2 & E2 & Hv2).
  exists b1, b2, o2, rest. split_and!; try done; [|lia].
  rewrite <- drop_drop, drop_app_length' by done. by rewrite drop_app_length' by done.
Qed.

Lemma header_read p pre h w post :
  view p pre (h ++ w) post -> h <> [] ->
  exists p1, header p (- Z.of_nat (length h)) = (true, p1) /\
    mload p1 (payload (pk p1) - Z.of_nat (length h)) (length h) = Some h /\ view p1 (pre ++ h) w post.
Proof.
  intros Hv Hh. destruct (header_pop p pre h w post (- Z.of_nat (length h)) Hv) as (p1 & E & Hv1); [done|done|].
  exists p1. split_and!; [done| |done]. by apply (mload_behind p1 pre h w post).
Qed.

(** ** Messages with a type *)

Lemma emm_encode_known t c h m b pre old post :
  switch nas_emm_encoders t = Some (Some (mc_encode c)) ->
  length h = 2%nat -> emm_message_type h = t -> security_header_type h < 12 ->
  mc_wf c m -> view b pre old post -> fits h (mc_wire c m) old ->
  exists b' m', nas_emm_encode (Some b) (mkMessage h m) = Some (true, Some b', mkMessage h m') /\
    view b' pre (h ++ mc_wire c m) (drop (length h + length (mc_wire c m)) old ++ post).
Proof.
  intros Hle Hl Ht Hs Hwf Hv Hf.
  destruct (header_written b pre old post h (mc_wire c m) Hv Hf) as (b1 & b2 & o & rest & E1 & E2 & Hv2 & Ho & -> & Hr).
  unfold nas_emm_encode. rewrite Hl in E1, E2. change (- Z.of_nat 2) with (-2) in E1. change (Z.of_nat 2) with 2 in E2.
  cbn [hdr nas]. rewrite take_ge by lia. rewrite E1. cbn [negb]. rewrite E2. cbn [mbind option_bind].
  rewrite decide_False by (unfold NAS_SECURITY_HEADER_FOR_SERVICE_REQUEST_MESSAGE; lia).
  unfold encode_by_type. rewrite Ht, Hle.
  destruct Hf as (Hh & Hn & _). apply (encode_call_ok c m h h b2 pre o); try done; lia.
Qed.

Lemma emm_encode_ok t c h m b pre old post :
  (t, c) ∈ emm_codecs -> length h = 2%nat -> emm_message_type h = t -> security_header_type h < 12 ->
  mc_wf c m -> view b pre old post -> fits h (mc_wire c m) old ->
  exists b' m', nas_emm_encode (Some b) (mkMessage h m) = Some (true, Some b', mkMessage h m') /\
    view b' pre (h ++ mc_wire c m) (drop (length h + length (mc_wire c m)) old ++ post).
Proof. intros [Hle _]%emm_known. by apply (emm_encode_known t). Qed.

Lemma emm_decode_ok t c h m p pre post :
  (t, c) ∈ emm_codecs -> length h = 2%nat -> emm_message_type h = t -> security_header_type h < 12 ->
  mc_wf c m -> view p pre (h ++ mc_wire c m) post -> Z.of_nat (length h + length (mc_wire c m)) < 2 ^ 15 ->
  exists p', nas_emm_decode p = Some (true, p', mkMessage h (mc_received c m)) /\
    view p' pre (h ++ mc_wire c m) post.
Proof.
  intros [_ Hld]%emm_known Hl Ht Hs Hwf Hv Hn.
  assert (h <> []) as Hh by by destruct h.
  destruct (header_read p pre h (mc_wire c m) post Hv Hh) as (p1 & E1 & E2 & Hv1).
  unfold nas_emm_decode. rewrite Hl in E1, E2. change (- Z.of_nat 2) with (-2) in E1. change (Z.of_nat 2) with 2 in E2.
  rewrite E1. cbn [negb]. rewrite E2. cbn [mbind option_bind].
  rewrite decide_False by (unfold NAS_SECURITY_HEADER_FOR_SERVICE_REQUEST_MESSAGE; lia).
  unfold decode_by_type. rewrite Ht, Hld. by apply decode_call_ok.
Qed.

Lemma esm_encode_ok t c h m b pre old post :
  (t, c) ∈ esm_codecs -> length h = 3%nat -> esm_message_type h = t ->
  mc_wf c m -> view b pre old post -> fits h (mc_wire c m) old ->
  exists b' m', nas_esm_encode (Some b) (mkMessage h m) = Some (true, Some b', mkMessage h m') /\
    view b' pre (h ++ mc_wire c m) (drop (length h + length (mc_wire c m)) old ++ post).
Proof.
  intros [Hle _]%esm_known Hl Ht Hwf Hv Hf.
  destruct (header_written b pre old post h (mc_wire c m) Hv Hf) as (b1 & b2 & o & rest & E1 & E2 & Hv2 & Ho & -> & Hr).
  unfold nas_esm_encode. rewrite Hl in E1, E2. change (- Z.of_nat 3) with (-3) in E1. change (Z.of_nat 3) with 3 in E2.
  cbn [hdr nas]. rewrite take_ge by lia. rewrite E1. cbn [negb]. rewrite E2. cbn [mbind option_bind].
  unfold encode_by_type. rewrite Ht, Hle.
  destruct Hf as (Hh & Hn & _). apply (encode_call_ok c m h h b2 pre o); try done; lia.
Qed.

Lemma esm_decode_ok t c h m p pre post :
  (t, c) ∈ esm_codecs -> length h = 3%nat -> esm_message_type h = t ->
  mc_wf c m -> view p pre (h ++ mc_wire c m) post -> Z.of_nat (length h + length (mc_wire c m)) < 2 ^ 15 ->
  exists p', nas_esm_decode p = Some (true, p', mkMessage h (mc_received c m)) /\
    view p' pre (h ++ mc_wire c m) post.
Proof.
  intros [_ Hld]%esm_known Hl Ht Hwf Hv Hn.
  assert (h <> []) as Hh by by destruct h.
  destruct (header_read p pre h (mc_wire c m) post Hv Hh) as (p1 & E1 & E2 & Hv1).
  unfold nas_esm_decode. rewrite Hl in E1, E2. change (- Z.of_nat 3) with (-3) in E1. change (Z.of_nat 3) with 3 in E2.
  rewrite E1. cbn [negb]. rewrite E2. cbn [mbind option_bind].
  unfold decode_by_type. rewrite Ht, Hld. by apply decode_call_ok.
Qed.

(** C11: the EPS mobility management messages of the 23 types of [emm_codecs] come
    back: a well-formed message [m] with a header [h] of that type that
    [nas_plain_encode] is given, and a packet with room for it, yield the octets of
    the header followed by those of the elements that are present, and the decoder
    makes of any packet that holds these octets the same header and the structure
    [mc_received c m], which is [m] itself when its unused octets are zero; the packet
    is as before the call.  These are all the types with elements that both switches
    know ([emm_switches]) but three: the key set identifier of AUTHENTICATION REQUEST
    and SECURITY MODE COMMAND is read from the octet in front of it
    ([authentication_request_misread], [security_mode_command_misread]), so that these
    do not come back, and DETACH REQUEST is written as the one to the UE and read as
    the one from it. *)
Theorem nas_emm_roundtrip t c h m pkbuf alloc pre old post :
  (t, c) ∈ emm_codecs -> length h = 2%nat ->
  protocol_discriminator h = NAS_PROTOCOL_DISCRIMINATOR_EMM ->
  emm_message_type h = t -> security_header_type h < NAS_SECURITY_HEADER_FOR_SERVICE_REQUEST_MESSAGE ->
  mc_wf c m -> view alloc pre old post -> fits h (mc_wire c m) old ->
  exists b m', nas_plain_encode pkbuf (Some alloc) (mkMessage h m) = Some (true, Some b, mkMessage h m') /\
    payload_bytes b = h ++ mc_wire c m /\
    (forall p pre' post', view p pre' (payload_bytes b) post' ->
       exists p', nas_emm_decode p = Some (true, p', mkMessage h (mc_received c m)) /\
         view p' pre' (payload_bytes b) post') /\
    (canonical c m -> mc_received c m = m).
Proof.
  intros Hin Hl Hpd Ht Hs Hwf Hv Hf.
  destruct (emm_encode_ok t c h m alloc pre old post Hin Hl Ht Hs Hwf Hv Hf) as (b & m' & E & Hb).
  exists b, m'. apply view_payload in Hb. split_and!.
  - unfold nas_plain_encode. cbn [hdr]. by rewrite decide_True.
  - done.
  - intros p pre' post'. rewrite Hb. intros Hp. apply (emm_decode_ok t); try done. apply Hf.
  - by apply received_canonical.
Qed.

(** The same for the EPS session management messages, whose header has three
    octets. *)
Theorem nas_esm_roundtrip t c h m pkbuf alloc pre old post :
  (t, c) ∈ esm_codecs -> length h = 3%nat ->
  protocol_discriminator h = NAS_PROTOCOL_DISCRIMINATOR_ESM -> esm_message_type h = t ->
  mc_wf c m -> view alloc pre old post -> fits h (mc_wire c m) old ->
  exists b m', nas_plain_encode pkbuf (Some alloc) (mkMessage h m) = Some (true, Some b, mkMessage h m') /\
    payload_bytes b = h ++ mc_wire c m /\
    (forall p pre' post', view p pre' (payload_bytes b) post' ->
       exists p', nas_esm_decode p = Some (true, p', mkMessage h (mc_received c m)) /\
         view p' pre' (payload_bytes b) post') /\
    (canonical c m -> mc_received c m = m).
Proof.
  intros Hin Hl Hpd Ht Hwf Hv Hf.
  destruct (esm_encode_ok t c h m alloc pre old post Hin Hl Ht Hwf Hv Hf) as (b & m' & E & Hb).
  exists b, m'. apply view_payload in Hb. split_and!.
  - unfold nas_plain_encode. cbn [hdr]. rewrite Hpd. done.
  - done.
  - intros p pre' post'. rewrite Hb. intros Hp. apply (esm_decode_ok t); try done. apply Hf.
  - by apply received_canonical.
Qed.

(** [nas_service_request_t], with the code in the order of the host. *)
Definition service_request (ksi m0 m1 : Z) : body :=
  mkBody 0 (<["ksi_and_sequence_number" := mkIe [ksi] None]>
    (<["message_authentication_code" := mkIe [m0; m1] None]> ∅)).

Lemma service_request_codec_ok ksi m0 m1 :
  mc_wf service_request_codec (service_request ksi m0 m1) /\
  mc_wire service_request_codec (service_request ksi m0 m1) = [ksi; m1; m0] /\
  mc_received service_request_codec (service_request ksi m0 m1) = service_request ksi m0 m1.
Proof.
  split_and!; [|done|].
  - split; repeat constructor; by eexists.
  - vm_compute. done.
Qed.

Lemma service_request_encode h0 h1 ksi m0 m1 alloc pre old post :
  security_header_type [h0; h1] >= NAS_SECURITY_HEADER_FOR_SERVICE_REQUEST_MESSAGE ->
  view alloc pre old post -> (4 <= length old)%nat ->
  exists b m', nas_emm_encode (Some alloc) (mkMessage [h0; h1] (service_request ksi m0 m1)) =
      Some (true, Some b, mkMessage [h0; h1] m') /\
    view b pre [h0; ksi; m1; m0] (drop 4 old ++ post).
Proof.
  intros Hs Hv Ho. destruct (service_request_codec_ok ksi m0 m1) as (Hwf & Hw & _).
  destruct old as [|o0 [|o1 [|o2 [|o3 rest]]]]; cbn [length] in Ho; [lia..|]. clear Ho.
  pose proof Hv as (_ & _ & _ & Hlen). cbn [length] in Hlen.
  destruct (header_written alloc pre (o0 :: o1 :: o2 :: o3 :: rest) post [h0; h1] [0; 0] Hv)
    as (b1 & b2 & o & r & E1 & E2 & Hv2 & Hlo & Er & _); [split_and!; cbn [length]; done || lia|].
  destruct o as [|x0 [|x1 [|]]]; try done. change (r = rest) in Er. subst r.
  destruct (header_push b2 (pre ++ [h0]) [h1] ([x0; x1] ++ rest) post 1) as (b3 & E3 & Hv3);
    [by rewrite <- (assoc_L (++))|done|done|cbn; lia|].
  destruct (encode_call_ok service_request_codec _ [h0; h1] [h0] b3 pre [h1; x0; x1] rest post Hwf Hv3)
    as (b4 & m' & E4 & Hv4); [by rewrite Hw|done|cbn; lia..|]. rewrite Hw in Hv4.
  exists b4, m'. split; [|done].
  unfold nas_emm_encode. cbn [hdr nas take]. cbn [length] in E1, E2.
  change (- Z.of_nat 2) with (-2) in E1. change (Z.of_nat 2) with 2 in E2.
  rewrite E1. cbn [negb]. rewrite E2. cbn [mbind option_bind]. rewrite decide_True by done.
  rewrite E3. cbn [negb]. exact E4.
Qed.

Lemma service_request_decode h0 ksi m0 m1 p pre post :
  security_header_type [h0; ksi] >= NAS_SECURITY_HEADER_FOR_SERVICE_REQUEST_MESSAGE ->
  view p pre [h0; ksi; m1; m0] post ->
  exists p', nas_emm_decode p = Some (true, p', mkMessage [h0; ksi] (service_request ksi m0 m1)) /\
    view p' pre [h0; ksi; m1; m0] post.
Proof.
  intros Hs Hp. destruct (service_request_codec_ok ksi m0 m1) as (Hwf & Hw & Hr).
  destruct (header_read p pre [h0; ksi] [m1; m0] post Hp) as (p1 & F1 & F2 & Hp1); [done|].
  destruct (header_push p1 (pre ++ [h0]) [ksi] [m1; m0] post 1) as (p2 & F3 & Hp2);
    [by rewrite <- (assoc_L (++))|done|done|cbn; lia|].
  destruct (decode_call_ok service_request_codec _ [h0; ksi] [h0] p2 pre post Hwf)
    as (p3 & F4 & Hp3); [by rewrite Hw|done|by rewrite Hw|].
  rewrite Hw, Hr in *. exists p3. split; [|done].
  unfold nas_emm_decode. cbn [length] in F1, F2.
  change (- Z.of_nat 2) with (-2) in F1. change (Z.of_nat 2) with 2 in F2.
  rewrite F1. cbn [negb]. rewrite F2. cbn [mbind option_bind].
  rewrite decide_True by done. rewrite F3. cbn [negb]. exact F4.
Qed.

(** A service request, which the security header type tells, comes back too: its
    elements follow the first octet of the header, so the decoder's copy of the
    header ends with the key set identifier and the sequence number instead of a
    type, and the code is sent in network order. *)
Theorem nas_service_request_roundtrip h0 h1 ksi m0 m1 pkbuf alloc pre old post :
  protocol_discriminator [h0; h1] = NAS_PROTOCOL_DISCRIMINATOR_EMM ->
  security_header_type [h0; h1] >= NAS_SECURITY_HEADER_FOR_SERVICE_REQUEST_MESSAGE ->
  view alloc pre old post -> (4 <= length old)%nat ->
  exists b m', nas_plain_encode pkbuf (Some alloc) (mkMessage [h0; h1] (service_request ksi m0 m1)) =
      Some (true, Some b, mkMessage [h0; h1] m') /\
    payload_bytes b = [h0; ksi; m1; m0] /\
    forall p pre' post', view p pre' (payload_bytes b) post' ->
      exists p', nas_emm_decode p = Some (true, p', mkMessage [h0; ksi] (service_request ksi m0 m1)) /\
        view p' pre' (payload_bytes b) post'.
Proof.
  intros Hpd Hs Hv Ho.
  destruct (service_request_encode h0 h1 ksi m0 m1 alloc pre old post Hs Hv Ho) as (b & m' & E & Hb).
  apply view_payload in Hb. exists b, m'. split_and!; [|done|].
  - unfold nas_plain_encode. cbn [hdr]. by rewrite decide_True.
  - intros p pre' post'. rewrite Hb. by apply service_request_decode.
Qed.

(** ** Examples *)

Definition sample_packet : buf := mkBuf (mkPkbuf None 0 16 112 112 0) (replicate 128 0).

Lemma sample_view : view sample_packet (replicate 16 0) (replicate 112 0) [].
Proof. by split_and!. Qed.

Definition sample_guti : body :=
  mkBody 0x1 (<["guti" := mkIe [11; 0xf6; 0x00; 0xf1; 0x10; 0x02; 0x00; 0x01; 0x78; 0x56; 0x34; 0x12] None]>
    (<["tai_list" := mkIe ([6; 0x00; 0x00; 0xf1; 0x10; 0x30; 0x39] ++ replicate 90 0) None]> ∅)).

Ltac by_element :=
  lazymatch goal with
  | |- @ok _ _ _ ?c ?v => let P := eval hnf in (@ok _ _ _ c v) in change P
  end;
  first [by vm_compute | split; [by_decide|split; by_decide]].

Lemma nas_emm_roundtrip_witness :
  exists b m', nas_plain_encode None (Some sample_packet) (mkMessage [0x07; 0x50] sample_guti) =
    Some (true, Some b, mkMessage [0x07; 0x50] m') /\
    payload_bytes b = [0x07; 0x50; 11; 0xf6; 0x00; 0xf1; 0x10; 0x00; 0x02; 0x01; 0x12; 0x34; 0x56; 0x78;
                       0x54; 6; 0x00; 0x00; 0xf1; 0x10; 0x30; 0x39] /\
    (forall p pre' post', view p pre' (payload_bytes b) post' ->
       exists p', nas_emm_decode p =
           Some (true, p', mkMessage [0x07; 0x50] (mc_received guti_reallocation_command_codec sample_guti)) /\
         view p' pre' (payload_bytes b) post') /\
    mc_received guti_reallocation_command_codec sample_guti = sample_guti.
Proof.
  assert (mc_wf guti_reallocation_command_codec sample_guti) as Hwf.
  { split; repeat constructor.
    - eexists. split; [vm_compute; reflexivity|]. by_element.
    - intros _. eexists. split; [vm_compute; reflexivity|]. by_element. }
  destruct (nas_emm_roundtrip NAS_GUTI_REALLOCATION_COMMAND guti_reallocation_command_codec [0x07; 0x50]
    sample_guti None sample_packet _ _ _ ltac:(repeat constructor) eq_refl eq_refl eq_refl eq_refl Hwf sample_view)
    as (b & m' & E1 & E2 & E3 & _); [split; [done|split_and!; by_decide]|].
  exists b, m'. split_and!; [exact E1|by rewrite E2|exact E3|by vm_compute].
Defined.

Definition sample_disconnect : body :=
  mkBody 0x1 (<["linked_eps_bearer_identity" := mkIe [0x05] None]>
    (<["protocol_configuration_options" := mkIe ([4; 0x80; 0x00; 0x0d; 0x00] ++ replicate 247 0) None]>
    (<["extended_protocol_configuration_options" := mkIe [0; 0] None]> ∅))).

Lemma nas_esm_roundtrip_witness :
  exists b m', nas_plain_encode None (Some sample_packet) (mkMessage [0x52; 0x01; 0xd2] sample_disconnect) =
    Some (true, Some b, mkMessage [0x52; 0x01; 0xd2] m') /\
    payload_bytes b = [0x52; 0x01; 0xd2; 0x05; 0x27; 4; 0x80; 0x00; 0x0d; 0x00] /\
    (forall p pre' post', view p pre' (payload_bytes b) post' ->
       exists p', nas_esm_decode p = Some (true, p', mkMessage [0x52; 0x01; 0xd2]
           (mc_received pdn_disconnect_request_codec sample_disconnect)) /\
         view p' pre' (payload_bytes b) post') /\
    mc_received pdn_disconnect_request_codec sample_disconnect = sample_disconnect.
Proof.
  assert (mc_wf pdn_disconnect_request_codec sample_disconnect) as Hwf.
  { split; repeat constructor.
    - eexists. split; [vm_compute; reflexivity|]. by_element.
    - intros _. eexists. split; [vm_compute; reflexivity|]. by_element.
    - done. }
  destruct (nas_esm_roundtrip NAS_PDN_DISCONNECT_REQUEST pdn_disconnect_request_codec [0x52; 0x01; 0xd2]
    sample_disconnect None sample_packet _ _ _ ltac:(repeat constructor) eq_refl eq_refl eq_refl Hwf sample_view)
    as (b & m' & E1 & E2 & E3 & _); [split; [done|split_and!; by_decide]|].
  exists b, m'. split_and!; [exact E1|by rewrite E2|exact E3|by vm_compute].
Defined.

Lemma nas_service_request_roundtrip_witness :
  exists b m', nas_plain_encode None (Some sample_packet) (mkMessage [0xc7; 0] (service_request 0x21 0xcd 0xab)) =
      Some (true, Some b, mkMessage [0xc7; 0] m') /\
    payload_bytes b = [0xc7; 0x21; 0xab; 0xcd] /\
    forall p pre' post', view p pre' (payload_bytes b) post' ->
      exists p', nas_emm_decode p = Some (true, p', mkMessage [0xc7; 0x21] (service_request 0x21 0xcd 0xab)) /\
        view p' pre' (payload_bytes b) post'.
Proof.
  apply (nas_service_request_roundtrip 0xc7 0 0x21 0xcd 0xab None sample_packet _ _ _ eq_refl ltac:(by vm_compute) sample_view).
  by_decide.
Defined.

End NasCodecSpec.
