(* ===== verification/NasErrors.v ===== *)
(** What the NAS codec does when a message does not fit: errors that are not
    reported, and lengths that are not checked. *)

From S2P Require Import Prelude Pkbuf Misc Types3gpp NasIes NasIesSpec NasIesCodecs NasMessage NasMessageSpec NasTables NasDecoder NasEncoder NasSafety NasCodecs NasCodecSpec.

Module NasErrors.
Import Pkbuf NasIes NasIesSpec NasMessage NasMessageSpec NasTables NasDecoder NasEncoder NasSafety NasCodecs NasCodecSpec.
#[local] Open Scope Z_scope.

(** ** Errors of the decoders *)

(** The size is a [c_uint16_t]: -1 is 65535, which is not negative. *)
Lemma decode_call_error h f s b b2 m :
  f (zero_body s) b = Some (-1, b2, m) -> h <> [] -> Z.of_nat (length h) < 2 ^ 15 ->
  decode_call h (Z.of_nat (length h)) f s b =
    let '(ok, b) := header b2 (Z.of_nat (length h) - 1) in Some (ok, b, mkMessage h m).
Proof.
  intros E Hh Hl. unfold decode_call. rewrite E. cbn [mbind option_bind].
  rewrite decide_True by done. unfold decode_out.
  assert (length h <> 0)%nat by (by destruct h).
  assert (u16 (Z.of_nat (length h) + u16 (-1)) = Z.of_nat (length h) - 1) as ->.
  { rewrite !u16_mod. lia. }
  by rewrite i16_pos by lia.
Qed.

Lemma header_moves_back b n : 0 <= n -> n <= payload (pk b) -> exists b', header b n = (true, b') /\
  mem b' = mem b /\ payload (pk b') = payload (pk b) - n.
Proof.
  intros Hn H. unfold header, pkbuf_header. destruct (decide (n = 0)) as [->|].
  - exists b. split_and!; [by destruct b|done|lia].
  - rewrite decide_False by lia. rewrite decide_False by lia. eexists. by split_and!.
Qed.

(** C12: A message that cannot be decoded is accepted: when the function for its type
    fails, [nas_emm_decode] and [nas_esm_decode] return [CORE_OK] nevertheless, with the
    structure as far as it was filled and the payload moved back by one octet less
    than the header's from where the failure left it. *)
Theorem nas_decode_error_accepted b pre h l post t s f b1 b2 m :
  view b pre (h ++ l) post -> header b (- Z.of_nat (length h)) = (true, b1) ->
  f (zero_body s) b1 = Some (-1, b2, m) -> Z.of_nat (length h) - 1 <= payload (pk b2) ->
  (length h = 2%nat -> security_header_type h < NAS_SECURITY_HEADER_FOR_SERVICE_REQUEST_MESSAGE ->
     emm_message_type h = t -> switch nas_emm_decoders t = Some (s, Some f) ->
     exists b', nas_emm_decode b = Some (true, b', mkMessage h m) /\ payload (pk b') = payload (pk b2) - 1) /\
  (length h = 3%nat -> esm_message_type h = t -> switch nas_esm_decoders t = Some (s, Some f) ->
     exists b', nas_esm_decode b = Some (true, b', mkMessage h m) /\ payload (pk b') = payload (pk b2) - 2).
Proof.
  intros Hv E1 Ef Hp. split.
  - intros Hl Hs Ht Hsw. assert (h <> []) as Hh by by destruct h.
    destruct (header_read b pre h l post Hv Hh) as (p1 & E & E2 & _). rewrite E1 in E. injection E as <-.
    rewrite Hl in E1, E2. change (- Z.of_nat 2) with (-2) in E1. change (Z.of_nat 2) with 2 in E2.
    unfold nas_emm_decode. rewrite E1. cbn [negb]. rewrite E2. cbn [mbind option_bind].
    rewrite decide_False by lia. unfold decode_by_type. rewrite Ht, Hsw.
    rewrite (decode_call_error h f s b1 b2 m Ef Hh) by lia. rewrite Hl in *.
    destruct (header_moves_back b2 1) as (b' & E' & _ & Hb'); [lia..|].
    change (Z.of_nat 2 - 1) with 1. rewrite E'. by exists b'.
  - intros Hl Ht Hsw. assert (h <> []) as Hh by by destruct h.
    destruct (header_read b pre h l post Hv Hh) as (p1 & E & E2 & _). rewrite E1 in E. injection E as <-.
    rewrite Hl in E1, E2. change (- Z.of_nat 3) with (-3) in E1. change (Z.of_nat 3) with 3 in E2.
    unfold nas_esm_decode. rewrite E1. cbn [negb]. rewrite E2. cbn [mbind option_bind].
    unfold decode_by_type. rewrite Ht, Hsw.
    rewrite (decode_call_error h f s b1 b2 m Ef Hh) by lia. rewrite Hl in *.
    destruct (header_moves_back b2 2) as (b' & E' & _ & Hb'); [lia..|].
    change (Z.of_nat 3 - 1) with 2. rewrite E'. by exists b'.
Qed.

(** An EMM STATUS that ends after its header. *)
Lemma nas_decode_error_accepted_witness :
  exists b' m, nas_emm_decode (packet [0x07; 0x60]) = Some (true, b', mkMessage [0x07; 0x60] m) /\
    payload (pk b') = 17.
Proof.
  destruct (header (packet [0x07; 0x60]) (- Z.of_nat 2)) as [ok b1] eqn:E1.
  assert (ok = true /\ pk b1 = mkPkbuf None 0 18 0 0 0) as [-> Hb1] by (vm_compute in E1; by injection E1 as <- <-).
  destruct (nas_decode_emm_status (zero_body nas_emm_status_t) b1) as [[[n b2] m]|] eqn:Ef.
  2: { vm_compute in E1. injection E1 as <-. by vm_compute in Ef. }
  assert (n = -1 /\ payload (pk b2) = 18) as [-> Hb2].
  { vm_compute in E1. injection E1 as <-. vm_compute in Ef. by injection Ef as <- <- _. }
  destruct (nas_decode_error_accepted (packet [0x07; 0x60]) (replicate 16 0) [0x07; 0x60] [] [] NAS_EMM_STATUS
    nas_emm_status_t nas_decode_emm_status b1 b2 m) as [H _]; [by split_and!|done|done|by rewrite Hb2|].
  destruct (H eq_refl ltac:(done) eq_refl eq_refl) as (b' & E & Hp). exists b', m. by rewrite Hp, Hb2.
Defined.

(** ** Errors of the encoders *)

(** What is encoded of [m] before the option [o] of [c] for which there is no room. *)
Lemma encode_no_room c m O1 o O2 b pre w post :
  mc_options c = O1 ++ o :: O2 -> kind_ok o = true -> o_kind o < 0x80 -> present m o = true ->
  Forall (row_ok m) (mc_rows c) -> Forall (option_ok m) O1 ->
  view b pre w post -> length w = length (body_wire (mc_rows c) O1 m) ->
  exists b' m', mc_encode c b m = Some (Z.of_nat (length w), b', m') /\
    view b' (pre ++ body_wire (mc_rows c) O1 m) [] post.
Proof.
  intros EO Hk Hk' Hp HM HO Hv Hw. destruct (rows_ok_spec _ _ _ (mc_ok c)) as (_ & _ & _ & _ & Hnd & _).
  rewrite EO, map_app in Hnd. apply NoDup_app in Hnd as (_ & _ & [Hnd _]%NoDup_app). unfold body_wire in *.
  rewrite length_app in Hw.
  destruct (list_split_at (length (concat (map (row_wire m) (mc_rows c)))) w) as (w1 & w2 & -> & Hw1); [lia|].
  rewrite length_app in *. rewrite mc_encode_eq. unfold encode_message.
  destruct (encode_mandatory_ok _ m b pre w1 w2 post 0 HM Hv Hw1) as (b1 & -> & Hv1).
  cbn [mbind option_bind]. rewrite decide_False by lia. rewrite EO, map_app. cbn [map].
  rewrite <- (app_nil_r w2) in Hv1.
  destruct (encode_optional_ok O1 (option_of o :: map option_of O2) m b1 _ w2 [] post
    (0 + Z.of_nat (length (concat (map (row_wire m) (mc_rows c))))) Hnd HO Hv1) as (b2 & m2 & -> & Em & Hv2); [lia|].
  rewrite <- (assoc_L (++)) in Hv2. exists b2, m2. split; [|done].
  assert (len (pk b2) = 0) as Hl by by destruct Hv2 as (_ & _ & -> & _).
  unfold present in Hp. cbn [encode_optional].
  assert (o_present (option_of o) = o_bit o /\ o_half (option_of o) = false) as [-> ->].
  { destruct o; [done..|]. cbn [kind_ok o_kind] in *. apply bool_decide_eq_true_1 in Hk. lia. }
  rewrite Em. case_bool_decide; [done|]. rewrite decide_False by done.
  assert (header b2 (-1) = (false, b2)) as Eh.
  { unfold header, pkbuf_header. rewrite Hl. destruct b2. by repeat case_decide; try lia. }
  unfold nas_encode_optional_type. rewrite Eh. cbn [mbind option_bind negb]. rewrite decide_True by done.
  do 3 f_equal. lia.
Qed.

(** A message that does not fit is truncated without a word: when there is no room
    for an optional element, [nas_emm_encode] returns [CORE_OK] and a packet that
    ends with the element before it, although the message says that the element is
    present. *)
Theorem nas_encode_truncates t c h m O1 o O2 b pre w post :
  (t, c) ∈ emm_codecs -> length h = 2%nat -> emm_message_type h = t ->
  security_header_type h < NAS_SECURITY_HEADER_FOR_SERVICE_REQUEST_MESSAGE ->
  mc_options c = O1 ++ o :: O2 -> o_kind o < 0x80 -> present m o = true ->
  Forall (row_ok m) (mc_rows c) -> Forall (option_ok m) O1 ->
  view b pre w post -> length w = (2 + length (body_wire (mc_rows c) O1 m))%nat -> Z.of_nat (length w) < 2 ^ 15 ->
  exists b' m', nas_emm_encode (Some b) (mkMessage h m) = Some (true, Some b', mkMessage h m') /\
    payload_bytes b' = h ++ body_wire (mc_rows c) O1 m.
Proof.
  intros Hin Hl Ht Hs EO Hk Hp HM HO Hv Hw Hn. pose proof (emm_known t c Hin) as [Hle _].
  assert (kind_ok o = true) as Hko.
  { destruct (rows_ok_spec _ _ _ (mc_ok c)) as (_ & _ & H & _). rewrite forallb_forall in H. apply H.
    rewrite EO. apply in_app_iff. right. by left. }
  assert (h <> []) as Hh by by destruct h.
  destruct (header_written b pre w post h (body_wire (mc_rows c) O1 m) Hv) as (b1 & b2 & o' & rest & E1 & E2 & Hv2 & Ho & -> & _).
  { split_and!; [done|lia..]. }
  rewrite drop_ge, app_nil_r in Hv2 by lia.
  unfold nas_emm_encode. rewrite Hl in E1, E2. change (- Z.of_nat 2) with (-2) in E1. change (Z.of_nat 2) with 2 in E2.
  cbn [hdr nas]. rewrite take_ge by lia. rewrite E1. cbn [negb]. rewrite E2. cbn [mbind option_bind].
  rewrite decide_False by lia. unfold encode_by_type. rewrite Ht, Hle. unfold encode_call.
  destruct (encode_no_room c m O1 o O2 b2 (pre ++ h) o' post EO Hko Hk Hp HM HO Hv2 Ho) as (b3 & m' & -> & Hv3).
  cbn [mbind option_bind]. rewrite decide_True by lia. rewrite <- (assoc_L (++)) in Hv3.
  destruct (encode_out_ok h h (body_wire (mc_rows c) O1 m) b3 pre [] post m' (Z.of_nat (length h) + Z.of_nat (length o')) Hv3 Hh)
    as (b' & -> & Hb'); [cbn [length]; lia..|].
  exists b', m'. split; [done|]. by apply view_payload in Hb'.
Qed.

(** The GUTI REALLOCATION COMMAND of [sample_guti] in a packet of fourteen octets. *)
Lemma nas_encode_truncates_witness :
  exists b' m', nas_emm_encode (Some (packet (replicate 14 0))) (mkMessage [0x07; 0x50] sample_guti) =
      Some (true, Some b', mkMessage [0x07; 0x50] m') /\
    payload_bytes b' = [0x07; 0x50; 11; 0xf6; 0x00; 0xf1; 0x10; 0x00; 0x02; 0x01; 0x12; 0x34; 0x56; 0x78].
Proof.
  apply (nas_encode_truncates NAS_GUTI_REALLOCATION_COMMAND guti_reallocation_command_codec [0x07; 0x50] sample_guti
    [] _ [] (packet (replicate 14 0)) (replicate 16 0) (replicate 14 0) [] ltac:(repeat constructor)
    eq_refl eq_refl ltac:(done) eq_refl ltac:(done) ltac:(by vm_compute)).
  - repeat constructor. eexists. split; [vm_compute; reflexivity|]. by_element.
  - constructor.
  - by split_and!.
  - by vm_compute.
  - done.
Defined.

(** ** Lengths *)

(** The elements that begin with a length of one octet, and the sizes of their
    structures. *)
Definition lv_elements : list (nat * decoder) :=
  [(sizeof_mobile_identity, nas_decode_mobile_identity);
   (sizeof_eps_mobile_identity, nas_decode_eps_mobile_identity);
   (sizeof_additional_information, nas_decode_additional_information);
   (sizeof_eps_bearer_context_status, nas_decode_eps_bearer_context_status);
   (sizeof_supported_codec_list, nas_decode_supported_codec_list);
   (sizeof_mobile_station_classmark_2, nas_decode_mobile_station_classmark_2);
   (sizeof_mobile_station_classmark_3, nas_decode_mobile_station_classmark_3);
   (sizeof_plmn_list, nas_decode_plmn_list);
   (sizeof_authentication_failure_parameter, nas_decode_authentication_failure_parameter);
   (sizeof_eps_network_feature_support, nas_decode_eps_network_feature_support);
   (sizeof_gprs_timer_2, nas_decode_gprs_timer_2);
   (sizeof_gprs_timer_3, nas_decode_gprs_timer_3);
   (sizeof_authentication_parameter_autn, nas_decode_authentication_parameter_autn);
   (sizeof_ms_network_capability, nas_decode_ms_network_capability);
   (sizeof_message_container, nas_decode_message_container);
   (sizeof_network_name, nas_decode_network_name);
   (sizeof_network_resource_identifier_container, nas_decode_network_resource_identifier_container);
   (sizeof_tracking_area_identity_list, nas_decode_tracking_area_identity_list);
   (sizeof_ue_network_capability, nas_decode_ue_network_capability);
   (sizeof_ue_security_capability, nas_decode_ue_security_capability);
   (sizeof_cli, nas_decode_cli);
   (sizeof_authentication_response_parameter, nas_decode_authentication_response_parameter);
   (sizeof_lcs_client_identity, nas_decode_lcs_client_identity);
   (sizeof_voice_domain_preference_and_ue_usage_setting, nas_decode_voice_domain_preference_and_ue_usage_setting);
   (sizeof_extended_drx_parameters, nas_decode_extended_drx_parameters);
   (sizeof_daylight_saving_time, nas_decode_daylight_saving_time);
   (sizeof_protocol_configuration_options, nas_decode_protocol_configuration_options);
   (sizeof_quality_of_service, nas_decode_quality_of_service);
   (sizeof_re_attempt_indicator, nas_decode_re_attempt_indicator);
   (sizeof_traffic_flow_aggregate_description, nas_decode_traffic_flow_aggregate_description);
   (sizeof_traffic_flow_template, nas_decode_traffic_flow_template);
   (sizeof_transaction_identifier, nas_decode_transaction_identifier);
   (sizeof_nbifom_container, nas_decode_nbifom_container);
   (sizeof_apn_aggregate_maximum_bit_rate, nas_decode_apn_aggregate_maximum_bit_rate);
   (sizeof_header_compression_configuration, nas_decode_header_compression_configuration);
   (sizeof_header_compression_configuration_status, nas_decode_header_compression_configuration_status);
   (sizeof_serving_plmn_rate_control, nas_decode_serving_plmn_rate_control);
   (sizeof_eps_quality_of_service, nas_decode_eps_quality_of_service);
   (sizeof_packet_flow_identifier, nas_decode_packet_flow_identifier);
   (sizeof_pdn_address, nas_decode_pdn_address)].

(** [d] is [decode_lv] with some conversion. *)
Definition is_lv (r : nat * decoder) : Prop := exists g, r.2 = decode_lv 1 g.

Lemma lv_elements_lv : Forall is_lv lv_elements.
Proof. repeat (constructor; [by eexists|]). constructor. Qed.

Lemma store_fits l v : store l 0 v = None <-> (length l < length v)%nat.
Proof. unfold store. case_decide; split; intros; try done; cbn in *; lia. Qed.

Lemma decode_lv_overflow size g b pre x l m post :
  view b pre ((x :: l) ++ m) post -> x = Z.of_nat (length l) -> x < 256 -> (0 < size)%nat ->
  (decode_lv 1 g (zero size) b = None <-> (size < S (length l))%nat).
Proof.
  intros Hv Hx Hlt Hs. unfold decode_lv. pose proof Hv as Hv1. cbn [app] in Hv1.
  rewrite (mload_front b pre [x] (l ++ m) post 1 Hv1) by done. cbn [mbind option_bind zero st buffer].
  rewrite le_value_1. destruct (store (replicate size 0) 0 [x]) as [s|] eqn:Es.
  2: { apply store_fits in Es. rewrite length_replicate in Es. cbn in Es. lia. }
  cbn [mbind option_bind]. rewrite u16_id by (unfold inw; lia).
  replace (x + Z.of_nat 1) with (Z.of_nat (length (x :: l))) by (cbn [length]; lia).
  destruct (header_past b pre (x :: l) m post _ Hv eq_refl) as (b' & -> & Hv'); [cbn [length]; lia|].
  cbn [negb]. rewrite Nat2Z.id, (mload_behind b' pre (x :: l) m post) by done.
  cbn [mbind option_bind].
  assert (length s = size) as Hls.
  { unfold store in Es. case_decide; [|done]. injection Es as <-. by rewrite length_put, length_replicate. }
  rewrite <- Hls. change (S (length l)) with (length (x :: l)). rewrite <- store_fits.
  by destruct (store s 0 (x :: l)) as [s'|].
Qed.

(** C13: The decoder of an element with a length compares it with what is left of the
    packet and not with the structure: it writes past the structure's end (no
    result) exactly when the element, length included, is longer than the
    structure; the lengths from the structure's size up to 255 can all be received. *)
Theorem nas_element_overflow size d b pre x l m post :
  (size, d) ∈ lv_elements -> view b pre ((x :: l) ++ m) post -> x = Z.of_nat (length l) -> x < 256 ->
  (d (zero size) b = None <-> Z.of_nat size <= x).
Proof.
  intros Hin Hv Hx Hlt.
  pose proof lv_elements_lv as H. rewrite Forall_forall in H. destruct (H _ Hin) as [g Hd]. cbn [snd] in Hd. subst d.
  assert (0 < size)%nat as Hs.
  { assert (Forall (fun r : nat * decoder => (0 < r.1)%nat) lv_elements) as Hpos by (repeat constructor).
    rewrite Forall_forall in Hpos. exact (Hpos _ Hin). }
  rewrite (decode_lv_overflow size g b pre x l m post Hv Hx Hlt Hs). lia.
Qed.

(** A UE network capability of eight octets, of which the structure holds seven. *)
Lemma nas_element_overflow_witness :
  nas_decode_ue_network_capability (zero sizeof_ue_network_capability)
    (packet [8; 0xf0; 0x70; 0xc0; 0x40; 0x19; 0; 0; 0x80]) = None.
Proof.
  apply (nas_element_overflow sizeof_ue_network_capability nas_decode_ue_network_capability
    (packet [8; 0xf0; 0x70; 0xc0; 0x40; 0x19; 0; 0; 0x80]) (replicate 16 0) 8 [0xf0; 0x70; 0xc0; 0x40; 0x19; 0; 0; 0x80] [] []);
    [by repeat constructor|by split_and!|done..].
Defined.

(** The size of a container is a [c_uint16_t] too: a length of 65534 or 65535 makes
    it 0 or 1, the decoder succeeds, and the container reaches over whatever follows
    in the cluster, which is as far as the model follows the pointer. *)
Lemma container_overread b pre x m post :
  view b pre (0xff :: x :: m) post -> x = 0xfe \/ x = 0xff -> Z.of_nat (length (m ++ post)) <= 65534 ->
  exists b', nas_decode_esm_message_container (zero sizeof_esm_message_container) b =
    Some (x - 0xfe, b', mkIe [x; 0xff] (Some (m ++ post))).
Proof.
  intros Hv Hx Hn. unfold nas_decode_esm_message_container, decode_container.
  rewrite (mload_front b pre [0xff; x] m post 2 Hv) by done. cbn [mbind option_bind].
  assert (be [0xff; x] = 65280 + x) as -> by (change (be [255; x]) with (255 * 2 ^ (8 * Z.of_nat 1) + (x * 2 ^ (8 * Z.of_nat 0) + 0)); lia).
  assert (u16 (65280 + x + 2) = x - 0xfe) as -> by (rewrite u16_mod; lia).
  assert (exists b', header b (i16 (- (x - 0xfe))) = (true, b') /\ mem b' = mem b /\
    payload (pk b') = payload (pk b) + (x - 0xfe)) as (b' & -> & Em & Ep).
  { destruct Hx as [-> | ->].
    - exists b. split_and!; [|done|lia]. unfold header. cbn. by destruct b.
    - destruct (header_pop b pre [0xff] (0xff :: m) post (-1) Hv eq_refl ltac:(done)) as (b' & E & Hv').
      exists b'. split_and!; [exact E|by apply header_mem in E|].
      destruct Hv as (_ & -> & _), Hv' as (_ & -> & _). rewrite length_app. cbn [length]. lia. }
  cbn [negb]. exists b'. destruct Hv as (E & Hp & _). unfold mfrom. rewrite Em, Ep, Hp, E.
  rewrite !length_app. cbn [length]. rewrite decide_True by lia. cbn [mbind option_bind].
  replace (Z.of_nat (length pre) + (x - 254) - (x - 254) + 2) with (Z.of_nat (length pre) + 2) by lia.
  cbn [app]. rewrite get_app_r by done. unfold get. cbn [drop]. change (Z.to_nat 2) with 2%nat. rewrite !skipn_cons, drop_0.
  rewrite take_ge by lia. cbn [reverse rev_append]. do 3 f_equal.
  by destruct Hx as [-> | ->].
Qed.

(** The signature that is received as [s0], [s1], [s2] is kept in host order in an
    integer of four octets, of which the encoder sends the first three. *)
Lemma p_tmsi_signature_resent b pre s0 s1 s2 m post c pre' o0 o1 o2 m' post' :
  view b pre ([s0; s1; s2] ++ m) post -> view c pre' ([o0; o1; o2] ++ m') post' ->
  exists b' v c' v', nas_decode_p_tmsi_signature (zero sizeof_p_tmsi_signature) b = Some (3, b', v) /\
    nas_encode_p_tmsi_signature c v = Some (3, c', v') /\ view c' (pre' ++ [0; s2; s1]) m' post'.
Proof.
  intros Hv Hc. unfold nas_decode_p_tmsi_signature, nas_encode_p_tmsi_signature, decode_v, encode_v.
  destruct (header_past b pre [s0; s1; s2] m post (Z.of_nat 3) Hv) as (b' & -> & Hv'); [done..|]. cbn [negb].
  rewrite (mload_behind b' pre [s0; s1; s2] m post 3 Hv') by done.
  destruct (header_past c pre' [o0; o1; o2] m' post' (Z.of_nat 3) Hc) as (c1 & E & Hc1); [done..|].
  destruct (mstore_behind c1 pre' [o0; o1; o2] m' post' [0; s2; s1] (Z.of_nat 3) Hc1) as (c2 & E2 & Hc2); [done..|].
  exists b', (mkIe [0; s2; s1; s0] None), c2, (mkIe [s0; s1; s2; 0] None). split_and!; [done| |done].
  rewrite E. cbn [negb]. change (load (st (mkIe [0; s2; s1; s0] None)) 0 3) with (Some [0; s2; s1]).
  cbn [mbind option_bind]. by rewrite E2.
Qed.

(** The key set identifier of an AUTHENTICATION REQUEST is half an octet, but not an
    optional one: the decoder takes it from the octet before, which is the message
    type, and everything after it is one octet off. *)
Lemma authentication_request_misread b pre ksi rand rest post :
  view b (pre ++ [NAS_AUTHENTICATION_REQUEST]) (ksi :: rand ++ rest) post -> length rand = 16%nat ->
  exists b' acc, decode_mandatory
      [("nas_key_set_identifierasme", nas_decode_key_set_identifier);
       ("authentication_parameter_rand", nas_decode_authentication_parameter_rand)]
      (zero_body nas_authentication_request_t) b 0 = Some (16, b', acc) /\
    fields acc !! "nas_key_set_identifierasme" = Some (mkIe [NAS_AUTHENTICATION_REQUEST] None) /\
    fields acc !! "authentication_parameter_rand" = Some (mkIe (ksi :: take 15 rand) None).
Proof.
  intros Hv Hr. cbn [decode_mandatory]. unfold decode_field.
  change (fields (zero_body nas_authentication_request_t) !! "nas_key_set_identifierasme") with (Some (zero 1)).
  cbn [mbind option_bind]. unfold nas_decode_key_set_identifier, decode_tv1.
  pose proof (mload_behind b pre [NAS_AUTHENTICATION_REQUEST] (ksi :: rand ++ rest) post 1 Hv eq_refl) as E.
  change (Z.of_nat 1) with 1 in E. rewrite E. cbn [mbind option_bind].
  change (store (st (zero 1)) 0 [NAS_AUTHENTICATION_REQUEST]) with (Some [NAS_AUTHENTICATION_REQUEST]).
  cbn [mbind option_bind]. rewrite decide_False by done.
  set (m1 := set_field _ _ _).
  assert (fields m1 !! "authentication_parameter_rand" = Some (zero 16)) as -> by by vm_compute.
  cbn [mbind option_bind].
  rewrite <- (take_drop 15 rand), <- (assoc_L (++)), app_comm_cons in Hv.
  destruct (decode_v_ok sizeof_authentication_parameter_rand (fun s => s) b _ (ksi :: take 15 rand) _ post Hv)
    as (b' & E' & _); [cbn [length]; rewrite length_take; unfold sizeof_authentication_parameter_rand; lia|done|].
  unfold nas_decode_authentication_parameter_rand. change 16%nat with sizeof_authentication_parameter_rand.
  rewrite E'. cbn [mbind option_bind]. rewrite decide_False by done.
  eexists _, _. split; [reflexivity|]. unfold m1, set_field. cbn [fields].
  split; [by rewrite lookup_insert_ne, lookup_insert_eq by done|by rewrite lookup_insert_eq].
Qed.

(** So is that of a SECURITY MODE COMMAND: it becomes the octet of the algorithms, and
    the octet that holds it is still to be read, as the length of the capabilities. *)
Lemma security_mode_command_misread b pre algorithms ksi rest post :
  view b pre (algorithms :: ksi :: rest) post ->
  exists b' acc, decode_mandatory
      [("selected_nas_security_algorithms", nas_decode_security_algorithms);
       ("nas_key_set_identifier", nas_decode_key_set_identifier)]
      (zero_body nas_security_mode_command_t) b 0 = Some (1, b', acc) /\
    fields acc !! "nas_key_set_identifier" = Some (mkIe [algorithms] None) /\
    view b' (pre ++ [algorithms]) (ksi :: rest) post.
Proof.
  intros Hv. cbn [decode_mandatory]. unfold decode_field.
  change (fields (zero_body nas_security_mode_command_t) !! "selected_nas_security_algorithms") with (Some (zero 1)).
  cbn [mbind option_bind]. change (algorithms :: ksi :: rest) with ([algorithms] ++ (ksi :: rest)) in Hv.
  destruct (decode_v_ok 1 (fun s => s) b pre [algorithms] (ksi :: rest) post Hv) as (b' & E' & Hv'); [done|done|].
  change nas_decode_security_algorithms with (decode_v 1 (fun s => s)). change (zero 1) with (mkIe [0] None) in *.
  rewrite E'. cbn [mbind option_bind]. rewrite decide_False by done.
  set (m1 := set_field _ _ _).
  assert (fields m1 !! "nas_key_set_identifier" = Some (zero 1)) as -> by by vm_compute.
  cbn [mbind option_bind]. unfold nas_decode_key_set_identifier, decode_tv1.
  pose proof (mload_behind b' pre [algorithms] (ksi :: rest) post 1 Hv' eq_refl) as E.
  change (Z.of_nat 1) with 1 in E. rewrite E. cbn [mbind option_bind].
  change (store (st (zero 1)) 0 [algorithms]) with (Some [algorithms]).
  cbn [mbind option_bind]. rewrite decide_False by done.
  eexists _, _. split; [reflexivity|]. split; [|done]. unfold set_field. cbn [fields]. by rewrite lookup_insert_eq.
Qed.

End NasErrors.
