(* ===== verification/HssAuc.v ===== *)
(** The authentication centre of the HSS: the subscriber data base accesses of
    [src/hss/hss_context.c] and the handler of Authentication-Information
    requests of [src/hss/hss_fd_path.c].

    The data base is MongoDB, which is not part of the repository: [Collection]
    states the operations the code calls and [CollectionLaws] what their manual
    says of them; the handler and its theorems are over any such collection,
    and [gmap] is one.  Diameter messages are given by the attribute values the
    handler reads and the answer it builds. *)

From Stdlib Require String.
From stdpp Require Import strings.
From S2P Require Import Prelude Misc Sha2 Hmac Milenage Kdf.

Module HssDb.
Import Misc String.StringSyntax Milenage.
#[local] Open Scope string_scope.
#[local] Open Scope Z_scope.

(** A value of a document, as the iterator macros distinguish them. *)
Inductive bson : Type :=
  | UTF8 (s : list Z)
  | INT64 (z : Z)
  | OTHER.

(** The fields of the ["security"] sub-document of a subscriber, in order. *)
Abbreviation document := (list (String.string * bson)).

(** The value of a field. *)
Definition field (key : String.string) (doc : document) : option bson :=
  snd <$> List.find (fun kv => String.eqb (fst kv) key) doc.

(** A document with a field set: in place, or added at the end. *)
Definition doc_put (key : String.string) (v : bson) (doc : document) : document :=
  if existsb (fun kv => String.eqb (fst kv) key) doc
  then map (fun kv => if String.eqb (fst kv) key then (key, v) else kv) doc
  else doc ++ [(key, v)].

(** The collection of subscribers, by IMSI: [security] is a query and the
    ["security"] field of its first result ([None]: no document, a cursor error
    or no such field); the updates are [$set], [$inc] and [$bit]/[and] of fields
    ["security.<key>"], and [None] is a failure. *)
Class Collection (D : Type) := {
  security : D -> list Z -> option document;
  set_fields : D -> list Z -> list (String.string * bson) -> option D;
  inc_field : D -> list Z -> String.string -> Z -> option D;
  and_field : D -> list Z -> String.string -> Z -> option D;
}.

Class CollectionLaws (D : Type) `{Collection D} : Prop := {
  set_fields_security d d' imsi fs imsi' :
    set_fields d imsi fs = Some d' ->
    security d' imsi' =
      if decide (imsi' = imsi)
      then (fun doc => fold_left (fun doc kv => doc_put (fst kv) (snd kv) doc) fs doc) <$> security d imsi
      else security d imsi';
  inc_field_security d d' imsi doc key z n :
    security d imsi = Some doc -> field key doc = Some (INT64 z) ->
    inc_field d imsi key n = Some d' -> security d' imsi = Some (doc_put key (INT64 (z + n)) doc);
  and_field_security d d' imsi doc key z n :
    security d imsi = Some doc -> field key doc = Some (INT64 z) ->
    and_field d imsi key n = Some d' -> security d' imsi = Some (doc_put key (INT64 (z .& n)) doc);
}.

(** [hss_db_auth_info_t]. *)
Record auth_info := mkAuth {
  k : list Z;
  use_opc : bool;
  opc : list Z;
  op : list Z;
  amf : list Z;
  rand : list Z;
  sqn : Z;
}.

Definition HSS_MAX_SQN : Z := 0x7ffffffffff.

(** [CORE_HEX(utf8, length, buf)] with the array [buf] of [HSS_KEY_LEN] bytes. *)
Definition CORE_HEX (utf8 buf : list Z) : list Z := core_ascii_to_hex utf8 buf 16.

(** The body of the loop on the fields of the document; [buf] is shared by the
    iterations. *)
Definition auth_field (kv : String.string * bson) (s : auth_info * list Z) : auth_info * list Z :=
  let '(a, buf) := s in
  let '(key, v) := kv in
  let strcmp s := negb (String.eqb key s) in
  match v with
  | UTF8 utf8 =>
      let hex := CORE_HEX utf8 buf in
      if negb (strcmp "k") then
        (mkAuth (take 16 hex) (use_opc a) (opc a) (op a) (amf a) (rand a) (sqn a), hex)
      else if negb (strcmp "opc") then
        (mkAuth (k a) true (take 16 hex) (op a) (amf a) (rand a) (sqn a), hex)
      else if negb (strcmp "op") then
        (mkAuth (k a) (use_opc a) (opc a) (take 16 hex) (amf a) (rand a) (sqn a), hex)
      else if negb (strcmp "amf") then
        (mkAuth (k a) (use_opc a) (opc a) (op a) (take 2 hex) (rand a) (sqn a), hex)
      else if negb (strcmp "rand") then
        (mkAuth (k a) (use_opc a) (opc a) (op a) (amf a) (take 16 hex) (sqn a), hex)
      else s
  | INT64 z =>
      if negb (strcmp "sqn") then
        (mkAuth (k a) (use_opc a) (opc a) (op a) (amf a) (rand a) (u64 z), buf)
      else s
  | OTHER => s
  end.

Definition auth_zero : auth_info :=
  mkAuth (replicate 16 0) false (replicate 16 0) (replicate 16 0) (replicate 2 0) (replicate 16 0) 0.

Section Db.
Context {D : Type} `{Collection D}.

(** [buf] is the local array, uninitialised. *)
Definition hss_db_auth_info (buf : list Z) (d : D) (imsi_bcd : list Z) : option auth_info :=
  doc ← security d imsi_bcd;
  Some (fst (fold_left (fun s kv => auth_field kv s) doc (auth_zero, buf))).

Definition hss_db_update_rand_and_sqn (d : D) (imsi_bcd rand : list Z) (sqn : Z) : option D :=
  let printable_rand := core_hex_to_ascii rand 16 128 in
  set_fields d imsi_bcd [("rand", UTF8 printable_rand); ("sqn", INT64 sqn)].

(** The data base after the call and whether it returned [CORE_OK]. *)
Definition hss_db_increment_sqn (d : D) (imsi_bcd : list Z) : D * bool :=
  let max_sqn := HSS_MAX_SQN in
  match inc_field d imsi_bcd "sqn" 32 with
  | None => (d, false)
  | Some d =>
      match and_field d imsi_bcd "sqn" max_sqn with
      | None => (d, false)
      | Some d => (d, true)
      end
  end.

End Db.
End HssDb.

Module HssAir.
Import Misc Milenage Kdf HssDb.

(** The attributes of an Authentication-Information request: User-Name,
    Re-Synchronization-Info in Requested-EUTRAN-Authentication-Info, and
    Visited-PLMN-Id. *)
Record request := mkRequest {
  user_name : option (list Z);
  re_synchronization_info : option (list Z);
  visited_plmn_id : option (list Z);
}.

(** What the handler answers: nothing ([d_assert] failed), an experimental
    result code, or an E-UTRAN vector. *)
Inductive answer : Type :=
  | NoAnswer
  | ExperimentalResult (code : Z)
  | AuthenticationInfo (rand xres autn kasme : list Z).

Definition S6A_DIAMETER_AUTHENTICATION_DATA_UNAVAILABLE : Z := 4181.
Definition S6A_DIAMETER_ERROR_USER_UNKNOWN : Z := 5001.

Section Air.
Context {D : Type} `{Collection D}.

(** The resynchronisation branch: RAND and SQN to go on with, or [None] when
    the MAC of the token is wrong. *)
Definition resynchronise (opc : list Z) (a : auth_info) (data rnd : list Z) : option (list Z * Z) :=
  let '(sqn, mac_s) := hss_auc_sqn opc (k a) data (array 6) (array 8) in
  if decide (memcmp mac_s (drop (16 + 6) data) 8 = 0) then
    let s := core_buffer_to_uint64 sqn 6 in
    Some (rnd, u64 (s + 32 + 1) .& HSS_MAX_SQN)
  else None.

(** [hss_s6a_air_cb]; [m] and [buf] are uninitialised locals, [rnd1] and [rnd2]
    what the calls of [core_generate_random_bytes] deliver. *)
Definition hss_s6a_air_cb (m : locals) (buf rnd1 rnd2 : list Z) (d : D) (q : request) : D * answer :=
  match user_name q with
  | None => (d, NoAnswer)
  | Some name =>
  let imsi_bcd := core_cpystrn name (Nat.min (length name) 15 + 1) in
  match hss_db_auth_info buf d imsi_bcd with
  | None => (d, ExperimentalResult S6A_DIAMETER_ERROR_USER_UNKNOWN)
  | Some a =>
  let rand := if decide (memcmp (rand a) (replicate 16 0) 16 = 0) then rnd1 else rand a in
  let opc := if use_opc a then opc a else milenage_opc (k a) (op a) (array 16) in
  match match re_synchronization_info q with
        | Some data => resynchronise opc a data rnd2
        | None => Some (rand, sqn a)
        end with
  | None => (d, ExperimentalResult S6A_DIAMETER_AUTHENTICATION_DATA_UNAVAILABLE)
  | Some (rand, sqn) =>
  match hss_db_update_rand_and_sqn d imsi_bcd rand sqn with
  | None => (d, ExperimentalResult S6A_DIAMETER_AUTHENTICATION_DATA_UNAVAILABLE)
  | Some d =>
  let '(d, ok) := hss_db_increment_sqn d imsi_bcd in
  if negb ok then (d, ExperimentalResult S6A_DIAMETER_AUTHENTICATION_DATA_UNAVAILABLE) else
  match visited_plmn_id q with
  | None => (d, NoAnswer)
  | Some plmn_id =>
  let sqn := core_uint64_to_buffer sqn 6 (array 6) in
  let v := milenage_generate opc (amf a) (k a) sqn rand
    (mkVector (array 16) (array 16) (array 16) (array 6) (array 16) 8) in
  let kasme := hss_auc_kasme m (v_ck v) (v_ik v) plmn_id sqn (v_ak v) (array 32) in
  (d, AuthenticationInfo rand (take (Z.to_nat (v_res_len v)) (v_res v)) (v_autn v) kasme)
  end end end end end.

End Air.
End HssAir.
