(* ===== verification/HssAucSpec.v ===== *)
(** The authentication centre: what a subscriber document means, the vectors of
    the handler, SQN management, and the end-to-end resynchronisation of a USIM
    that runs [milenage_check]. *)

From Stdlib Require String.
From stdpp Require Import strings.
From S2P Require Import Prelude Pkbuf Misc Sha2 Sha2Spec Hmac Milenage MilenageSpec Kdf HssAuc.

Module HssAucSpec.
Import Misc Milenage MilenageSpec Kdf KdfSpec HssDb HssAir String.StringSyntax.
#[local] Open Scope string_scope.
#[local] Open Scope list_scope.
#[local] Open Scope Z_scope.

(** ** Documents *)

Lemma field_cons key kv doc :
  field key (kv :: doc) = if String.eqb (fst kv) key then Some (snd kv) else field key doc.
Proof. unfold field. cbn [List.find]. by destruct (String.eqb (fst kv) key). Qed.

Lemma field_absent key doc : key ∉ map fst doc -> field key doc = None.
Proof.
  induction doc as [|kv doc IH]; [done|]. intros Hn. rewrite field_cons. cbn [map] in Hn.
  apply not_elem_of_cons in Hn as [Hne Hn]. destruct (String.eqb_spec (fst kv) key); [by subst|by apply IH].
Qed.

Lemma existsb_field key (doc : document) :
  existsb (fun kv => String.eqb (fst kv) key) doc = bool_decide (key ∈ map fst doc).
Proof.
  induction doc as [|kv doc IH]; [done|]. cbn [existsb map]. rewrite IH.
  destruct (String.eqb_spec (fst kv) key) as [->|Hne]; symmetry.
  - apply bool_decide_eq_true. by left.
  - cbn. apply bool_decide_ext. rewrite elem_of_cons. intuition congruence.
Qed.

Lemma field_map_put key key' v doc :
  field key' (map (fun kv => if String.eqb (fst kv) key then (key, v) else kv) doc) =
    if String.eqb key' key then (if decide (key ∈ map fst doc) then Some v else None) else field key' doc.
Proof.
  induction doc as [|kv doc IH].
  - cbn [map]. destruct (String.eqb key' key); [|done]. by rewrite decide_False by (apply not_elem_of_nil).
  - cbn [map]. rewrite !field_cons, IH.
    destruct (String.eqb_spec (fst kv) key) as [E|E]; cbn [fst snd].
    + destruct (String.eqb_spec key' key) as [->|Hne].
      * rewrite String.eqb_refl, decide_True by (rewrite E; by left). done.
      * destruct (String.eqb_spec key key'); [congruence|]. destruct (String.eqb_spec (fst kv) key'); congruence.
    + destruct (String.eqb_spec key' key) as [->|Hne].
      * destruct (String.eqb_spec (fst kv) key); [done|].
        apply decide_ext. rewrite elem_of_cons. intuition congruence.
      * done.
Qed.

Lemma field_doc_put key key' v doc :
  field key' (doc_put key v doc) = if String.eqb key' key then Some v else field key' doc.
Proof.
  unfold doc_put. rewrite existsb_field. case_bool_decide as Hin.
  - rewrite field_map_put. destruct (String.eqb key' key); [|done]. by rewrite decide_True.
  - induction doc as [|kv doc IH].
    + cbn. rewrite String.eqb_sym. by destruct (String.eqb key' key).
    + cbn [app]. rewrite !field_cons. cbn [map] in Hin. apply not_elem_of_cons in Hin as [Hne Hin].
      rewrite IH by done. destruct (String.eqb_spec (fst kv) key') as [E|E]; [|done].
      destruct (String.eqb_spec key' key); congruence.
Qed.

Lemma keys_doc_put key v doc : NoDup (map fst doc) -> NoDup (map fst (doc_put key v doc)).
Proof.
  unfold doc_put. rewrite existsb_field. case_bool_decide as Hin; intros Hnd.
  - rewrite map_map. replace (map _ doc) with (map fst doc); [done|]. apply map_ext. intros kv.
    by destruct (String.eqb_spec (fst kv) key).
  - rewrite map_app. apply NoDup_app. split_and!; [done| |apply NoDup_singleton].
    intros x Hx ->%list_elem_of_singleton. done.
Qed.

(** ** What a document means *)

Lemma length_CORE_HEX s buf : length (CORE_HEX s buf) = length buf.
Proof. apply length_ascii_loop. Qed.

(** A text with enough digits for [n] bytes: what is read does not depend on
    what the shared array held. *)
Definition full (n : nat) (s : list Z) : Prop :=
  forall buf, length buf = 16%nat -> take n (CORE_HEX s buf) = take n (CORE_HEX s (array 16)).

Definition value_ok (kv : String.string * bson) : Prop :=
  match snd kv with
  | UTF8 s => (fst kv = "amf" -> full 2 s) /\
      (fst kv = "k" \/ fst kv = "opc" \/ fst kv = "op" \/ fst kv = "rand" -> full 16 s)
  | _ => True
  end.

Record doc_ok (doc : document) : Prop := {
  d_keys : NoDup (map fst doc);
  d_values : Forall value_ok doc;
}.

(** The field [key] of [n] bytes; [d] when it is absent or not a text. *)
Definition hex_field (key : String.string) (n : nat) (doc : document) (d : list Z) : list Z :=
  match field key doc with Some (UTF8 s) => take n (CORE_HEX s (array 16)) | _ => d end.
Definition has_text (key : String.string) (doc : document) (d : bool) : bool :=
  match field key doc with Some (UTF8 _) => true | _ => d end.
Definition int_field (key : String.string) (doc : document) (d : Z) : Z :=
  match field key doc with Some (INT64 z) => u64 z | _ => d end.

Definition merge (doc : document) (a : auth_info) : auth_info :=
  mkAuth (hex_field "k" 16 doc (k a)) (has_text "opc" doc (use_opc a))
    (hex_field "opc" 16 doc (opc a)) (hex_field "op" 16 doc (op a))
    (hex_field "amf" 2 doc (amf a)) (hex_field "rand" 16 doc (rand a)) (int_field "sqn" doc (sqn a)).

Lemma auth_field_merge kv doc a buf :
  kv.1 ∉ map fst doc -> value_ok kv -> length buf = 16%nat ->
  let '(a', buf') := auth_field kv (a, buf) in
  merge doc a' = merge (kv :: doc) a /\ length buf' = 16%nat.
Proof.
  destruct kv as [key v]. intros Hn Hv Hb. cbn [fst] in Hn.
  unfold auth_field. destruct v as [s|z|]; cbn [fst snd].
  - destruct Hv as [Hv2 Hv16]. cbn [fst snd] in Hv2, Hv16. rewrite !negb_involutive.
    repeat match goal with |- context [String.eqb key ?s] =>
      destruct (String.eqb_spec key s) as [->|?];
      [split; [|by rewrite length_CORE_HEX];
       unfold merge, hex_field, has_text, int_field; rewrite !field_cons; cbn [fst snd String.eqb];
       rewrite (field_absent _ _ Hn); f_equal; rewrite ?Hv16, ?Hv2 by tauto; reflexivity|] end.
    split; [|done]. unfold merge, hex_field, has_text, int_field. rewrite !field_cons. cbn [fst snd].
    repeat match goal with |- context [String.eqb key ?s] =>
      destruct (String.eqb_spec key s) as [->|?]; [try congruence|] end; try reflexivity.
    rewrite (field_absent _ _ Hn). reflexivity.
  - rewrite negb_involutive. destruct (String.eqb_spec key "sqn") as [->|Hne]; (split; [|done]);
      unfold merge, hex_field, has_text, int_field; rewrite !field_cons; cbn [fst snd].
    + cbn [String.eqb]. rewrite (field_absent _ _ Hn). reflexivity.
    + repeat match goal with |- context [String.eqb key ?s] =>
        destruct (String.eqb_spec key s) as [->|?];
        [first [congruence | rewrite (field_absent _ _ Hn); reflexivity]|] end.
      reflexivity.
  - split; [|done]. unfold merge, hex_field, has_text, int_field. rewrite !field_cons. cbn [fst snd].
    repeat match goal with |- context [String.eqb key ?s] =>
      destruct (String.eqb_spec key s) as [->|?]; [rewrite (field_absent _ _ Hn); reflexivity|] end.
    reflexivity.
Qed.

Lemma fold_merge doc a buf :
  doc_ok doc -> length buf = 16%nat ->
  fst (fold_left (fun s kv => auth_field kv s) doc (a, buf)) = merge doc a.
Proof.
  intros [Hk Hv]. revert a buf. induction doc as [|kv doc IH]; intros a buf Hb; [by destruct a|].
  cbn [map] in Hk. apply NoDup_cons in Hk as [Hn Hk]. apply Forall_cons in Hv as [Hkv Hv].
  pose proof (auth_field_merge kv doc a buf Hn Hkv Hb) as Hm. cbn [fold_left].
  destruct (auth_field kv (a, buf)) as [a' buf']. destruct Hm as [<- Hb']. by apply IH.
Qed.

(** The subscriber data a document stands for. *)
Definition info (doc : document) : auth_info := merge doc auth_zero.

(** A subscriber in the data base. *)
Section Subscriber.
Context {D : Type} `{CollectionLaws D}.

Definition subscriber (d : D) (imsi : list Z) (a : auth_info) : Prop :=
  exists doc, security d imsi = Some doc /\ doc_ok doc /\ a = info doc.

Lemma auth_info_subscriber buf d imsi a :
  subscriber d imsi a -> length buf = 16%nat -> hss_db_auth_info buf d imsi = Some a.
Proof.
  intros (doc & Hs & Hd & ->) Hb. unfold hss_db_auth_info. rewrite Hs. cbn. f_equal. by apply fold_merge.
Qed.

Lemma doc_ok_put key v doc : doc_ok doc -> value_ok (key, v) -> doc_ok (doc_put key v doc).
Proof.
  intros [Hk Hv] Hkv. split; [by apply keys_doc_put|]. unfold doc_put. case_match.
  - apply Forall_forall. intros kv' (kv & -> & Hin)%list_elem_of_fmap.
    destruct (String.eqb (fst kv) key); [done|]. by eapply Forall_forall.
  - apply Forall_app_2; [done|]. by apply Forall_singleton.
Qed.

(** The text of 16 bytes is full and denotes them. *)
Lemma text_16 bs buf :
  is_block 16 bs -> length buf = 16%nat -> take 16 (CORE_HEX (core_hex_to_ascii bs 16 128) buf) = bs.
Proof.
  intros [Bb Lb] Hb. unfold CORE_HEX.
  pose proof (hex_roundtrip bs buf 128 16 Bb ltac:(lia) ltac:(lia) ltac:(lia)) as E.
  rewrite Lb in E. rewrite E, take_app_length'; done.
Qed.

Definition with_rand_sqn (a : auth_info) (r : list Z) (s : Z) : auth_info :=
  mkAuth (k a) (use_opc a) (opc a) (op a) (amf a) r s.

Lemma update_rand_and_sqn_spec d d' imsi a r s :
  subscriber d imsi a -> is_block 16 r ->
  hss_db_update_rand_and_sqn d imsi r s = Some d' ->
  subscriber d' imsi (with_rand_sqn a r (u64 s)) /\
  exists doc, security d' imsi = Some doc /\ field "sqn" doc = Some (INT64 s).
Proof.
  intros (doc & Hs & Hd & ->) Hr Hset.
  pose proof (set_fields_security _ _ _ _ imsi Hset) as Hq. rewrite decide_True, Hs in Hq by done.
  cbn [fold_left fst snd fmap option_fmap option_map] in Hq.
  set (t := core_hex_to_ascii r 16 128) in Hq. set (doc' := doc_put _ _ _) in Hq.
  assert (doc_ok doc') as Hd'.
  { apply doc_ok_put; [|done]. apply doc_ok_put; [done|]. split; [done|]. intros _ buf Hb.
    unfold t. cbn [fst snd]. by rewrite !text_16. }
  split; [|exists doc'; split; [done|unfold doc'; by rewrite field_doc_put]].
  exists doc'. split_and!; [done|done|].
  unfold info, merge, with_rand_sqn, hex_field, has_text, int_field, doc'. rewrite !field_doc_put.
  cbn [String.eqb Ascii.eqb Bool.eqb k use_opc opc op amf rand sqn]. unfold t. by rewrite text_16.
Qed.

Lemma increment_sqn_spec d d' imsi a z doc :
  subscriber d imsi a -> security d imsi = Some doc -> field "sqn" doc = Some (INT64 z) ->
  hss_db_increment_sqn d imsi = (d', true) ->
  subscriber d' imsi (with_rand_sqn a (rand a) (u64 ((z + 32) .& HSS_MAX_SQN))).
Proof.
  intros (doc0 & Hs & Hd & ->) Hdoc Hf. rewrite Hdoc in Hs. injection Hs as ->.
  unfold hss_db_increment_sqn. destruct (inc_field d imsi "sqn" 32) as [d1|] eqn:E1; [|done].
  destruct (and_field d1 imsi "sqn" HSS_MAX_SQN) as [d2|] eqn:E2; [|done]. intros [= <-].
  pose proof (inc_field_security _ _ _ _ _ _ _ Hdoc Hf E1) as Hq1.
  pose proof (and_field_security _ _ _ _ "sqn" (z + 32) _ Hq1 ltac:(by rewrite field_doc_put) E2) as Hq2.
  eexists. split_and!; [done|by repeat apply doc_ok_put|].
  unfold info, merge, with_rand_sqn, hex_field, has_text, int_field. rewrite !field_doc_put. done.
Qed.

End Subscriber.

(** ** The token of a resynchronisation *)

Lemma xor_loop_take n rot a b t :
  (n <= length a)%nat -> xor_loop n rot a b t = xor_loop n rot (take n a) b t.
Proof.
  intros Hn. unfold xor_loop. apply for_up_ext. intros i l Hi. f_equal. do 2 f_equal.
  unfold rd. rewrite Nat2Z.id, !nth_lookup, lookup_take_lt by lia. done.
Qed.

Lemma milenage_f1_rand opc K data sqn amf x y :
  (16 <= length data)%nat ->
  milenage_f1 opc K data sqn amf x y = milenage_f1 opc K (take 16 data) sqn amf x y.
Proof. intros Hd. unfold milenage_f1. by rewrite (xor_loop_take 16 0 data) by done. Qed.

Lemma milenage_f2345_rand opc K data res ck ik ak akstar :
  (16 <= length data)%nat ->
  milenage_f2345 opc K data res ck ik ak akstar = milenage_f2345 opc K (take 16 data) res ck ik ak akstar.
Proof. intros Hd. unfold milenage_f2345. by rewrite (xor_loop_take 16 0 data) by done. Qed.

(** [hss_auc_sqn] on RAND || AUTS. *)
Lemma hss_auc_sqn_spec opc K rand auts b6 b8 :
  is_block 16 K -> is_block 16 opc -> is_block 16 rand -> is_block 14 auts ->
  length b6 = 6%nat -> length b8 = 8%nat ->
  let sqn_ms := xor_bytes (take 6 auts) (Ts35206.f5star (Ts35206.E K) (be opc) (be rand)) in
  hss_auc_sqn opc K (rand ++ auts) b6 b8 =
    (sqn_ms, Ts35206.f1star (Ts35206.E K) (be opc) (be rand) (be sqn_ms) 0).
Proof.
  intros HK Hopc Hr [Ba La] L6 L8 sqn_ms. unfold hss_auc_sqn. destruct Hr as [Br Lr].
  rewrite milenage_f2345_rand by (rewrite length_app; lia).
  rewrite take_app_length', drop_app_length' by done.
  rewrite (milenage_f2345_spec K opc rand);
    [|done|done|done|apply room_None|apply room_None|apply room_None|by apply room_Some].
  cbn [filled store fmap option_fmap option_map deref default]. unfold id.
  pose proof (AKstar_block K opc rand) as Hak.
  set (ak := Ts35206.f5star _ _ _) in *. clearbody ak. destruct Hak as [Bk Lk].
  assert (xor_loop 6 0 ak auts b6 = sqn_ms) as ->.
  { rewrite xor_loop_write by (assumption || lia). rewrite (take_ge ak), drop_ge, app_nil_r by lia.
    apply xor_bytes_comm. }
  assert (is_block 6 sqn_ms) as Hs.
  { apply is_block_xor; [|done]. split; [by apply Forall_take|rewrite length_take; lia]. }
  rewrite milenage_f1_rand by (rewrite length_app; lia). rewrite take_app_length' by done.
  rewrite (milenage_f1_spec K opc rand); [done|done|done|done|done| |apply room_None|by apply room_Some].
  split; [by_decide|done].
Qed.

(** The branch of the handler: the token decides. *)
Lemma resynchronise_spec opc a rand auts rnd :
  is_block 16 (k a) -> is_block 16 opc -> is_block 16 rand -> is_block 14 auts ->
  let sqn_ms := xor_bytes (take 6 auts) (Ts35206.f5star (Ts35206.E (k a)) (be opc) (be rand)) in
  resynchronise opc a (rand ++ auts) rnd =
    if decide (drop 6 auts = Ts35206.f1star (Ts35206.E (k a)) (be opc) (be rand) (be sqn_ms) 0)
    then Some (rnd, (be sqn_ms + 33) .& HSS_MAX_SQN) else None.
Proof.
  intros HK Hopc Hr Ha sqn_ms. unfold resynchronise.
  rewrite (hss_auc_sqn_spec opc (k a) rand auts) by done. fold sqn_ms.
  assert (drop (16 + 6) (rand ++ auts) = drop 6 auts) as ->.
  { rewrite drop_app_ge by (rewrite (proj2 Hr); lia). by rewrite (proj2 Hr). }
  pose proof (mac_compare _ (drop 6 auts) (f1star_block (k a) opc rand (be sqn_ms) 0) (drop_block 6 8 auts Ha)) as Hm.
  rewrite (decide_ext _ _ _ _ Hm). case_decide; [|done].
  assert (is_block 6 sqn_ms) as [Bs Ls] by (apply is_block_xor; [by apply (take_block 6 8)|apply AKstar_block]).
  rewrite buffer_to_uint64_be by (done || lia). pose proof (be_bound _ Bs) as Hb. rewrite Ls in Hb.
  rewrite u64_id by (unfold inw; lia). do 3 f_equal. lia.
Qed.

(** ** The handler *)

Lemma hex_field_block key n doc d :
  (n <= 16)%nat -> is_block n d -> is_block n (hex_field key n doc d).
Proof.
  intros Hn Hd. unfold hex_field. case_match; [|done]. case_match; try done.
  split; [apply Forall_take, ascii_loop_bytes; by_decide|].
  rewrite length_take, length_CORE_HEX. change (length (array 16)) with 16%nat. lia.
Qed.

Lemma info_blocks doc :
  is_block 16 (k (info doc)) /\ is_block 16 (opc (info doc)) /\ is_block 16 (op (info doc)) /\
  is_block 2 (amf (info doc)) /\ is_block 16 (rand (info doc)).
Proof.
  split_and!; apply hex_field_block; try lia; (split; [by_decide|done]).
Qed.

(** OPc of a subscriber: stored, or derived from OP. *)
Definition opc_of (a : auth_info) : list Z := if use_opc a then opc a else Ts35206.opc (k a) (op a).

(** RAND of the next vector: the stored one, unless there is none. *)
Definition rand_of (a : auth_info) (rnd : list Z) : list Z :=
  if decide (rand a = replicate 16 0) then rnd else rand a.

(** The E-UTRAN authentication vector for RAND [r] and SQN [s]. *)
Definition vector (a : auth_info) (r : list Z) (s : Z) (plmn : list Z) : answer :=
  let E := Ts35206.E (k a) in let O := be (opc_of a) in let R := be r in
  let sqn := to_be 6 s in
  AuthenticationInfo r (Ts35206.f2 E O R) (AUTN (k a) (opc_of a) r sqn (amf a))
    (Ts33401.kasme (Ts35206.f3 E O R) (Ts35206.f4 E O R) plmn (xor_bytes sqn (Ts35206.f5 E O R))).

Lemma opc_of_block doc : is_block 16 (opc_of (info doc)).
Proof.
  destruct (info_blocks doc) as (_ & Ho & _). unfold opc_of. destruct (use_opc _); [done|].
  split; [apply to_be_bytes|apply length_to_be].
Qed.

(** The cryptographic end of the handler. *)
Lemma generate_vector m a r s plmn :
  locals_ok m -> is_block 16 (k a) -> is_block 16 (opc_of a) -> is_block 2 (amf a) ->
  is_block 16 r -> is_block 3 plmn ->
  let sqn := core_uint64_to_buffer s 6 (array 6) in
  let v := milenage_generate (opc_of a) (amf a) (k a) sqn r
    (mkVector (array 16) (array 16) (array 16) (array 6) (array 16) 8) in
  let kasme := hss_auc_kasme m (v_ck v) (v_ik v) plmn sqn (v_ak v) (array 32) in
  AuthenticationInfo r (take (Z.to_nat (v_res_len v)) (v_res v)) (v_autn v) kasme = vector a r s plmn.
Proof.
  intros Hm HK Hopc Hamf Hr Hp. rewrite uint64_to_buffer_be by done. intros sqn v kasme.
  assert (is_block 6 sqn) as Hs by (split; [apply to_be_bytes|apply length_to_be]).
  unfold kasme, v. rewrite (milenage_generate_spec (k a) (opc_of a) r HK Hopc Hr sqn (amf a));
    [|done|done|done|done|done|done|done]. cbn [v_ck v_ik v_ak v_res v_res_len v_autn].
  rewrite auc_kasme_string; [|done|..|apply AK_block|done]; [|split|split|done|done];
    try apply to_be_bytes; try apply length_to_be.
  unfold vector. f_equal.
Qed.

Section Air.
Context {D : Type} `{CollectionLaws D}.
Context (m : locals) (Hm : locals_ok m) (buf : list Z) (Hbuf : length buf = 16%nat).
Context (rnd1 rnd2 : list Z) (Hrnd1 : is_block 16 rnd1) (Hrnd2 : is_block 16 rnd2).

Definition imsi_of (name : list Z) : list Z := core_cpystrn name (Nat.min (length name) 15 + 1).

(** What the handler does once RAND and SQN are settled. *)
Lemma answer_tail d imsi a r s plmn :
  is_block 16 (k a) -> is_block 16 (opc_of a) -> is_block 2 (amf a) -> is_block 16 r -> is_block 3 plmn ->
  match hss_db_update_rand_and_sqn d imsi r s with
  | None => (d, ExperimentalResult S6A_DIAMETER_AUTHENTICATION_DATA_UNAVAILABLE)
  | Some d =>
  let '(d, ok) := hss_db_increment_sqn d imsi in
  if negb ok then (d, ExperimentalResult S6A_DIAMETER_AUTHENTICATION_DATA_UNAVAILABLE) else
  let sqn := core_uint64_to_buffer s 6 (array 6) in
  let v := milenage_generate (opc_of a) (amf a) (k a) sqn r
    (mkVector (array 16) (array 16) (array 16) (array 6) (array 16) 8) in
  let kasme := hss_auc_kasme m (v_ck v) (v_ik v) plmn sqn (v_ak v) (array 32) in
  (d, AuthenticationInfo r (take (Z.to_nat (v_res_len v)) (v_res v)) (v_autn v) kasme)
  end =
  match hss_db_update_rand_and_sqn d imsi r s with
  | None => (d, ExperimentalResult 4181)
  | Some d =>
      let '(d, ok) := hss_db_increment_sqn d imsi in
      if ok then (d, vector a r s plmn) else (d, ExperimentalResult 4181)
  end.
Proof.
  intros HK Hopc Ha Hr Hp. destruct (hss_db_update_rand_and_sqn d imsi r s) as [d1|]; [|done].
  destruct (hss_db_increment_sqn d1 imsi) as [d2 []]; [|done]. cbn [negb]. f_equal.
  by apply generate_vector.
Qed.

(** A request for a subscriber, as a function of what the resynchronisation
    branch decides and of the updates of the data base. *)
Lemma air_spec d name a resync plmn :
  subscriber d (imsi_of name) a -> is_block 3 plmn ->
  (forall data, resync = Some data -> exists r0 auts, data = r0 ++ auts /\ is_block 16 r0 /\ is_block 14 auts) ->
  hss_s6a_air_cb m buf rnd1 rnd2 d (mkRequest (Some name) resync (Some plmn)) =
    match match resync with
          | Some data => resynchronise (opc_of a) a data rnd2
          | None => Some (rand_of a rnd1, sqn a)
          end with
    | None => (d, ExperimentalResult 4181)
    | Some (r, s) =>
        match hss_db_update_rand_and_sqn d (imsi_of name) r s with
        | None => (d, ExperimentalResult 4181)
        | Some d =>
            let '(d, ok) := hss_db_increment_sqn d (imsi_of name) in
            if ok then (d, vector a r s plmn) else (d, ExperimentalResult 4181)
        end
    end.
Proof.
  intros Hsub Hp Hres. pose proof (auth_info_subscriber buf d _ a Hsub Hbuf) as Hinfo.
  destruct Hsub as (doc & _ & _ & ->). destruct (info_blocks doc) as (HK & Ho & Hop & Ha & Hr).
  pose proof (opc_of_block doc) as Hopc. set (a := info doc) in *.
  unfold hss_s6a_air_cb. cbn [user_name re_synchronization_info visited_plmn_id].
  fold (imsi_of name). rewrite Hinfo.
  assert ((if use_opc a then opc a else milenage_opc (k a) (op a) (array 16)) = opc_of a) as ->.
  { unfold opc_of. destruct (use_opc a); [done|]. by apply milenage_opc_spec. }
  assert ((if decide (memcmp (rand a) (replicate 16 0) 16 = 0) then rnd1 else rand a) = rand_of a rnd1) as ->.
  { unfold rand_of. destruct (memcmp_spec 16 (rand a) (replicate 16 0)) as [Hz _];
      [apply Hr|by_decide|rewrite (proj2 Hr); lia|done|].
    rewrite !take_ge in Hz by (rewrite ?(proj2 Hr); done || lia). by rewrite (decide_ext _ _ _ _ Hz). }
  destruct resync as [data|].
  - destruct (Hres data eq_refl) as (r0 & auts & -> & Hr0 & Hauts).
    rewrite (resynchronise_spec (opc_of a) a r0 auts rnd2) by done. case_decide; [|done].
    apply answer_tail; done.
  - apply answer_tail; try done. unfold rand_of. by case_decide.
Qed.

End Air.

(** ** The USIM *)

(** The USIM at sequence number [sqn_ms] accepts the challenge of an answer, its
    response is the expected one and it derives the same K_ASME. *)
Definition usim_accepts (K opc sqn_ms plmn : list Z) (ans : answer) : Prop :=
  match ans with
  | AuthenticationInfo r xres autn kasme =>
      forall o, length (c_ik o) = 16%nat -> length (c_ck o) = 16%nat -> length (c_res o) = 8%nat ->
        length (c_auts o) = 14%nat ->
        exists o', milenage_check opc K sqn_ms r autn o = (0, o') /\
          c_res o' = xres /\ kasme = Ts33401.kasme (c_ck o') (c_ik o') plmn (take 6 autn)
  | _ => False
  end.

Lemma AUTN_block K opc r sqn amf :
  is_block 6 sqn -> is_block 2 amf -> is_block 16 (AUTN K opc r sqn amf).
Proof.
  intros Hs [Ba La]. destruct (is_block_xor 6 _ _ Hs (AK_block K opc r)) as [Bx Lx].
  split; [apply Forall_app_2; [done|]; apply Forall_app_2; [done|apply to_be_bytes]|].
  unfold AUTN. by rewrite !length_app, Lx, La, length_f1.
Qed.

Lemma AUTS_fields K opc r sqn_ms :
  is_block 6 sqn_ms ->
  xor_bytes (take 6 (AUTS K opc r sqn_ms)) (Ts35206.f5star (Ts35206.E K) (be opc) (be r)) = sqn_ms /\
  drop 6 (AUTS K opc r sqn_ms) = Ts35206.f1star (Ts35206.E K) (be opc) (be r) (be sqn_ms) 0.
Proof.
  intros Hs. destruct (is_block_xor 6 _ _ Hs (AKstar_block K opc r)) as [_ Lx].
  unfold AUTS. rewrite take_app_length', drop_app_length' by done.
  by rewrite xor_bytes_involutive by (rewrite (proj2 Hs), (proj2 (AKstar_block K opc r)); lia).
Qed.

(** What a USIM sees in the token of a vector. *)
Lemma AUTN_fields K opc r sqn amf :
  is_block 6 sqn -> is_block 2 amf ->
  let autn := AUTN K opc r sqn amf in
  xor_bytes (take 6 autn) (Ts35206.f5 (Ts35206.E K) (be opc) (be r)) = sqn /\
  take 2 (drop 6 autn) = amf /\
  drop 8 autn = Ts35206.f1 (Ts35206.E K) (be opc) (be r) (be sqn) (be amf).
Proof.
  intros Hs [Ba La]. destruct (is_block_xor 6 _ _ Hs (AK_block K opc r)) as [_ Lx].
  unfold AUTN. rewrite take_app_length', drop_app_length' by done.
  rewrite xor_bytes_involutive by (rewrite (proj2 Hs), (proj2 (AK_block K opc r)); lia).
  rewrite take_app_length', (assoc_L (++)), drop_app_length' by (rewrite ?length_app; lia). done.
Qed.

Lemma vector_check a r s sqn_ms o :
  is_block 16 (k a) -> is_block 16 (opc_of a) -> is_block 2 (amf a) -> is_block 16 r ->
  is_block 6 sqn_ms ->
  length (c_ik o) = 16%nat -> length (c_ck o) = 16%nat -> length (c_res o) = 8%nat ->
  length (c_auts o) = 14%nat ->
  let E := Ts35206.E (k a) in let O := be (opc_of a) in let R := be r in
  milenage_check (opc_of a) (k a) sqn_ms r (AUTN (k a) (opc_of a) r (to_be 6 s) (amf a)) o =
    ((if decide (s mod 2 ^ 48 <= be sqn_ms) then -2 else 0),
     mkChecked (Ts35206.f4 E O R) (Ts35206.f3 E O R) (Ts35206.f2 E O R) 8
       (if decide (s mod 2 ^ 48 <= be sqn_ms) then AUTS (k a) (opc_of a) r sqn_ms else c_auts o)).
Proof.
  intros HK Hopc Ha Hr Hs L1 L2 L3 L4 E O R.
  assert (is_block 6 (to_be 6 s)) as Hq by (split; [apply to_be_bytes|apply length_to_be]).
  rewrite (milenage_check_spec (k a) (opc_of a) r HK Hopc Hr sqn_ms); [|done|by apply AUTN_block|done|done|done].
  destruct (AUTN_fields (k a) (opc_of a) r (to_be 6 s) (amf a) Hq Ha) as (-> & -> & ->).
  rewrite put_all by (by rewrite L3). rewrite be_to_be. change (8 * Z.of_nat 6) with 48.
  case_decide; [done|]. by rewrite decide_True.
Qed.

Lemma vector_accepted a r s plmn sqn_ms :
  is_block 16 (k a) -> is_block 16 (opc_of a) -> is_block 2 (amf a) -> is_block 16 r ->
  is_block 6 sqn_ms ->
  usim_accepts (k a) (opc_of a) sqn_ms plmn (vector a r s plmn) <-> be sqn_ms < s mod 2 ^ 48.
Proof.
  intros HK Hopc Ha Hr Hs. unfold usim_accepts, vector. split.
  - intros Hacc. destruct (Hacc (mkChecked (array 16) (array 16) (array 8) 0 (array 14)) eq_refl eq_refl eq_refl eq_refl)
      as (o' & E & _).
    rewrite vector_check in E by done. case_decide; [|lia]. discriminate.
  - intros Hlt o L1 L2 L3 L4. eexists. rewrite vector_check by done.
    rewrite !decide_False by lia. split_and!; [reflexivity|reflexivity|]. cbn [c_ck c_ik]. f_equal.
Qed.

(** ** Properties *)

(** A data base whose updates do not fail. *)
Class Reliable (D : Type) `{Collection D} : Prop := {
  set_succeeds d imsi fs : is_Some (set_fields d imsi fs);
  inc_succeeds d imsi key n : is_Some (inc_field d imsi key n);
  and_succeeds d imsi key n : is_Some (and_field d imsi key n);
}.

Section Properties.
Context {D : Type} `{CollectionLaws D} `{!Reliable D}.

Lemma updates_succeed d imsi a r s :
  subscriber d imsi a -> is_block 16 r -> 0 <= s < 2 ^ 63 ->
  exists d1 d2, hss_db_update_rand_and_sqn d imsi r s = Some d1 /\
    hss_db_increment_sqn d1 imsi = (d2, true) /\
    subscriber d2 imsi (with_rand_sqn a r ((s + 32) mod 2 ^ 43)).
Proof.
  intros Hsub Hr Hs.
  destruct (set_succeeds d imsi [("rand", UTF8 (core_hex_to_ascii r 16 128)); ("sqn", INT64 s)]) as [d1 E1].
  destruct (update_rand_and_sqn_spec d d1 imsi a r s Hsub Hr E1) as (Hsub1 & doc & Hdoc & Hf).
  destruct (inc_succeeds d1 imsi "sqn" 32) as [d2 E2].
  destruct (and_succeeds d2 imsi "sqn" HSS_MAX_SQN) as [d3 E3].
  assert (hss_db_increment_sqn d1 imsi = (d3, true)) as E by (unfold hss_db_increment_sqn; by rewrite E2, E3).
  exists d1, d3. split_and!; [exact E1|done|].
  pose proof (increment_sqn_spec d1 d3 imsi _ s doc Hsub1 Hdoc Hf E) as Hfin.
  unfold with_rand_sqn in *. cbn [k use_opc opc op amf rand] in Hfin.
  unfold HSS_MAX_SQN in Hfin. rewrite (land_ones_mod _ 43), u64_id in Hfin by (done || (unfold inw; lia)). done.
Qed.

Lemma sqn_range d imsi a : subscriber d imsi a -> 0 <= sqn a < 2 ^ 64.
Proof.
  intros (doc & _ & _ & ->). unfold info, merge, int_field. cbn [sqn].
  pose proof u64_inw as Hu. unfold inw in Hu. repeat case_match; try apply Hu; cbn; lia.
Qed.

Lemma subscriber_blocks d imsi a :
  subscriber d imsi a ->
  is_block 16 (k a) /\ is_block 16 (opc_of a) /\ is_block 2 (amf a) /\ is_block 16 (rand a).
Proof.
  intros (doc & _ & _ & ->). destruct (info_blocks doc) as (? & ? & ? & ? & ?). split_and!; try done.
  apply opc_of_block.
Qed.

Context (m : locals) (Hm : locals_ok m) (buf : list Z) (Hbuf : length buf = 16%nat).
Context (rnd1 rnd2 : list Z) (Hrnd1 : is_block 16 rnd1) (Hrnd2 : is_block 16 rnd2).

Lemma request_answer d name a plmn :
  subscriber d (imsi_of name) a -> is_block 3 plmn -> sqn a < 2 ^ 63 ->
  exists d', hss_s6a_air_cb m buf rnd1 rnd2 d (mkRequest (Some name) None (Some plmn)) =
      (d', vector a (rand_of a rnd1) (sqn a) plmn) /\
    subscriber d' (imsi_of name) (with_rand_sqn a (rand_of a rnd1) ((sqn a + 32) mod 2 ^ 43)).
Proof.
  intros Hsub Hp Hs. destruct (subscriber_blocks _ _ _ Hsub) as (_ & _ & _ & Hr).
  assert (is_block 16 (rand_of a rnd1)) as Hr' by (unfold rand_of; by case_decide).
  pose proof (sqn_range _ _ _ Hsub) as Hq.
  destruct (updates_succeed d (imsi_of name) a (rand_of a rnd1) (sqn a) Hsub Hr' ltac:(lia)) as (d1 & d2 & E1 & E2 & Hsub').
  exists d2. split; [|done].
  rewrite (air_spec m Hm buf Hbuf rnd1 rnd2 Hrnd1 Hrnd2 d name a None plmn) by done.
  by rewrite E1, E2.
Qed.

End Properties.

(** ** A collection in memory *)

Section Memory.
Abbreviation memory := (gmap (list Z) document).

#[export] Instance memory_collection : Collection memory := {
  security d imsi := d !! imsi;
  set_fields d imsi fs :=
    Some (alter (fun doc => fold_left (fun doc kv => doc_put (fst kv) (snd kv) doc) fs doc) imsi d);
  inc_field d imsi key n :=
    Some (alter (fun doc => match field key doc with
                            | Some (INT64 z) => doc_put key (INT64 (z + n)) doc
                            | _ => doc end) imsi d);
  and_field d imsi key n :=
    Some (alter (fun doc => match field key doc with
                            | Some (INT64 z) => doc_put key (INT64 (z .& n)) doc
                            | _ => doc end) imsi d);
}.

#[export] Instance memory_laws : CollectionLaws memory.
Proof.
  constructor.
  - intros d d' imsi fs imsi' [= <-]. cbn. case_decide as E; [subst; by rewrite lookup_alter_eq|].
    by rewrite lookup_alter_ne.
  - intros d d' imsi doc key z n Hd Hf [= <-]. cbn in *. by rewrite lookup_alter_eq, Hd; cbn; rewrite Hf.
  - intros d d' imsi doc key z n Hd Hf [= <-]. cbn in *. by rewrite lookup_alter_eq, Hd; cbn; rewrite Hf.
Qed.

#[export] Instance memory_reliable : Reliable memory.
Proof. constructor; intros; eexists; reflexivity. Qed.

(** The subscriber of the test data of TS 35.207. *)
Definition test_imsi : list Z := chars "001010123456789".
Definition test_doc : document :=
  [("k", UTF8 (core_hex_to_ascii test_k 16 128)); ("op", UTF8 (core_hex_to_ascii test_op 16 128));
   ("amf", UTF8 (core_hex_to_ascii test_amf 2 128)); ("sqn", INT64 64)].
Definition test_db : memory := {[ test_imsi := test_doc ]}.

Lemma full_text bs n :
  bytes bs -> length bs = n -> (n <= 16)%nat -> full n (core_hex_to_ascii bs n 128).
Proof.
  intros Bb <- Hl. assert (forall buf, length buf = 16%nat ->
    take (length bs) (CORE_HEX (core_hex_to_ascii bs (length bs) 128) buf) = bs) as E.
  { intros buf Hb. unfold CORE_HEX. rewrite hex_roundtrip by (done || lia). by apply take_app_length'. }
  intros buf Hb. by rewrite !E.
Qed.

Lemma test_subscriber : subscriber test_db test_imsi (info test_doc).
Proof.
  exists test_doc. split_and!; [apply lookup_singleton_eq| |done]. split; [by_decide|].
  unfold test_doc. repeat (apply Forall_cons; split).
  - split; [intros E; discriminate E|intros _; apply full_text; [by_decide|reflexivity|lia]].
  - split; [intros E; discriminate E|intros _; apply full_text; [by_decide|reflexivity|lia]].
  - split; [intros _; apply full_text; [by_decide|reflexivity|lia]|].
    intros [E|[E|[E|E]]]; discriminate E.
  - exact I.
  - constructor.
Qed.
End Memory.

(** The 43 bits kept of SQN are not enough: once SQN_MS is within 33 of 2^43
    (SQN has 48 bits), the vector that answers a resynchronisation is itself out
    of sequence. *)
Lemma resynchronisation_stuck a r plmn sqn_ms :
  is_block 16 (k a) -> is_block 16 (opc_of a) -> is_block 2 (amf a) -> is_block 16 r ->
  is_block 6 sqn_ms -> 2 ^ 43 - 33 <= be sqn_ms ->
  ~ usim_accepts (k a) (opc_of a) sqn_ms plmn (vector a r ((be sqn_ms + 33) .& HSS_MAX_SQN) plmn).
Proof.
  intros HK Hopc Ha Hr Hs Hle. rewrite vector_accepted by done.
  unfold HSS_MAX_SQN. rewrite (land_ones_mod _ 43) by done. lia.
Qed.

Section Claims.
Context {D : Type} `{CollectionLaws D} `{!Reliable D}.

(** C26: successive Authentication-Information requests for a subscriber whose stored
    SQN is below 2{^43} - 64, to a data base whose updates do not fail: the
    answers are the E-UTRAN vectors for the stored SQN and then for the SQN
    increased by 32 (which the data base holds in between), RAND is the stored
    one or a fresh one when none is stored, and it is stored; a USIM whose
    sequence number is behind accepts the first, answers with the expected
    response and derives the same K_ASME, and having moved to that sequence
    number accepts the second.  Above the bound the stored SQN is cut to 43 bits
    of the 48 that it has, and the second vector may be out of sequence. *)
Theorem air_vectors_in_sequence m buf rnd1 rnd2 rnd1' rnd2' d name a plmn sqn_ms :
  locals_ok m -> length buf = 16%nat ->
  is_block 16 rnd1 -> is_block 16 rnd2 -> is_block 16 rnd1' -> is_block 16 rnd2' ->
  subscriber d (imsi_of name) a -> is_block 3 plmn -> sqn a + 64 < 2 ^ 43 ->
  is_block 6 sqn_ms -> be sqn_ms < sqn a ->
  let q := mkRequest (Some name) None (Some plmn) in
  let r := rand_of a rnd1 in
  let '(d1, v1) := hss_s6a_air_cb m buf rnd1 rnd2 d q in
  let '(d2, v2) := hss_s6a_air_cb m buf rnd1' rnd2' d1 q in
  v1 = vector a r (sqn a) plmn /\
  subscriber d1 (imsi_of name) (with_rand_sqn a r (sqn a + 32)) /\
  usim_accepts (k a) (opc_of a) sqn_ms plmn v1 /\
  usim_accepts (k a) (opc_of a) (to_be 6 (sqn a)) plmn v2 /\
  (r <> replicate 16 0 ->
    v2 = vector a r (sqn a + 32) plmn /\
    subscriber d2 (imsi_of name) (with_rand_sqn a r (sqn a + 64))).
Proof.
  intros Hm Hb R1 R2 R1' R2' Hsub Hp Hs Hq Hlt q r.
  destruct (subscriber_blocks _ _ _ Hsub) as (HK & Hopc & Ha & Hr).
  assert (is_block 16 r) as Hr' by (unfold r, rand_of; by case_decide).
  pose proof (sqn_range _ _ _ Hsub) as Hrange.
  destruct (request_answer m Hm buf Hb rnd1 rnd2 R1 R2 d name a plmn Hsub Hp ltac:(lia)) as (d1 & E1 & S1).
  fold r in E1, S1. unfold q. rewrite E1. rewrite Z.mod_small in S1 by lia.
  destruct (request_answer m Hm buf Hb rnd1' rnd2' R1' R2' d1 name _ plmn S1 Hp ltac:(cbn; lia)) as (d2 & E2 & S2).
  rewrite E2. cbn [sqn with_rand_sqn] in S2 |- *. rewrite Z.mod_small in S2 by lia.
  set (r' := rand_of _ rnd1') in *.
  assert (is_block 16 r') as Hr'' by (unfold r', rand_of; cbn [rand with_rand_sqn]; by case_decide).
  change (vector (with_rand_sqn a r (sqn a + 32)) r' (sqn a + 32) plmn) with (vector a r' (sqn a + 32) plmn).
  split_and!; [done|done| | |].
  - apply vector_accepted; try done. rewrite Z.mod_small by lia. done.
  - apply vector_accepted; try done; [split; [apply to_be_bytes|apply length_to_be]|].
    rewrite be_to_be. change (8 * Z.of_nat 6) with 48. rewrite !Z.mod_small by lia. lia.
  - intros Hz. assert (r' = r) as -> by (unfold r', rand_of; cbn [rand with_rand_sqn]; by rewrite decide_False).
    split; [done|]. replace (sqn a + 64) with (sqn a + 32 + 32) by lia. exact S2.
Qed.

(** C27: resynchronisation, end to end, with a data base whose updates do not
    fail: when a USIM at [sqn_ms] rejects a challenge
    as out of sequence ([milenage_check] returns -2), a request with the RAND it
    was challenged with and the AUTS it answered makes the HSS answer with a
    fresh RAND and the SQN that follows [sqn_ms] (plus 33, kept to 43 bits), and
    the USIM accepts that vector exactly when [sqn_ms + 33] fits 43 bits; a
    token with any other MAC-S is refused, and leaves the data base as it was. *)
Theorem air_resynchronises m buf rnd1 rnd2 d name a plmn r0 autn0 sqn_ms o0 o1 auts' :
  locals_ok m -> length buf = 16%nat -> is_block 16 rnd1 -> is_block 16 rnd2 ->
  subscriber d (imsi_of name) a -> is_block 3 plmn ->
  is_block 16 r0 -> is_block 16 autn0 -> is_block 6 sqn_ms -> is_block 14 auts' ->
  length (c_ik o0) = 16%nat -> length (c_ck o0) = 16%nat -> length (c_auts o0) = 14%nat ->
  milenage_check (opc_of a) (k a) sqn_ms r0 autn0 o0 = (-2, o1) ->
  let air data := hss_s6a_air_cb m buf rnd1 rnd2 d (mkRequest (Some name) (Some data) (Some plmn)) in
  let s := (be sqn_ms + 33) mod 2 ^ 43 in
  (exists d', air (r0 ++ c_auts o1) = (d', vector a rnd2 s plmn) /\
    subscriber d' (imsi_of name) (with_rand_sqn a rnd2 ((s + 32) mod 2 ^ 43)) /\
    (usim_accepts (k a) (opc_of a) sqn_ms plmn (vector a rnd2 s plmn) <-> be sqn_ms + 33 < 2 ^ 43)) /\
  let sqn' := xor_bytes (take 6 auts') (Ts35206.f5star (Ts35206.E (k a)) (be (opc_of a)) (be r0)) in
  (drop 6 auts' <> Ts35206.f1star (Ts35206.E (k a)) (be (opc_of a)) (be r0) (be sqn') 0 ->
    air (r0 ++ auts') = (d, ExperimentalResult S6A_DIAMETER_AUTHENTICATION_DATA_UNAVAILABLE)).
Proof.
  intros Hm Hb R1 R2 Hsub Hp Hr0 Hautn Hq Hauts' L1 L2 L3 Hcheck air s.
  destruct (subscriber_blocks _ _ _ Hsub) as (HK & Hopc & Ha & Hr).
  assert (o1.(c_auts) = AUTS (k a) (opc_of a) r0 sqn_ms) as Eauts.
  { rewrite (milenage_check_spec (k a) (opc_of a) r0 HK Hopc Hr0 sqn_ms autn0 o0) in Hcheck by done.
    repeat case_decide; try discriminate. by injection Hcheck as <-. }
  pose proof (AUTS_block (k a) (opc_of a) r0 sqn_ms Hq) as Hab.
  assert (forall auts, is_block 14 auts -> air (r0 ++ auts) =
    match resynchronise (opc_of a) a (r0 ++ auts) rnd2 with
    | None => (d, ExperimentalResult 4181)
    | Some (r, s) =>
        match hss_db_update_rand_and_sqn d (imsi_of name) r s with
        | None => (d, ExperimentalResult 4181)
        | Some d => let '(d, ok) := hss_db_increment_sqn d (imsi_of name) in
                    if ok then (d, vector a r s plmn) else (d, ExperimentalResult 4181)
        end
    end) as Eair.
  { intros auts Hauts. unfold air. apply (air_spec m Hm buf Hb rnd1 rnd2 R1 R2 d name a (Some (r0 ++ auts)) plmn Hsub Hp).
    intros data [= <-]. by exists r0, auts. }
  split.
  - rewrite Eauts, Eair by done. rewrite (resynchronise_spec (opc_of a) a r0) by done.
    destruct (AUTS_fields (k a) (opc_of a) r0 sqn_ms Hq) as (-> & ->). rewrite decide_True by done.
    pose proof (be_bound _ (proj1 Hq)) as Hbd. rewrite (proj2 Hq) in Hbd.
    replace ((be sqn_ms + 33) .& HSS_MAX_SQN) with s by (symmetry; by apply (land_ones_mod _ 43)).
    assert (0 <= s < 2 ^ 43) as Hs by (apply Z.mod_pos_bound; lia).
    destruct (updates_succeed d (imsi_of name) a rnd2 s Hsub R2 ltac:(lia)) as (d1 & d2 & -> & -> & Hsub').
    exists d2. split_and!; [done|done|]. rewrite vector_accepted by done.
    rewrite (Z.mod_small s) by lia. unfold s. lia.
  - intros sqn' Hne. rewrite Eair by done. rewrite (resynchronise_spec (opc_of a) a r0) by done.
    by rewrite decide_False.
Qed.

End Claims.

Lemma air_vectors_in_sequence_witness :
  let m := mkLocals (Sha2.fresh Sha2.SHA256) (Hmac.fresh_hmac Sha2.SHA256) in
  usim_accepts (k (info test_doc)) (opc_of (info test_doc)) (to_be 6 63) [0x02; 0xf8; 0x39]
    (snd (hss_s6a_air_cb m (replicate 16 0xaa) (replicate 16 1) (replicate 16 2) test_db
      (mkRequest (Some test_imsi) None (Some [0x02; 0xf8; 0x39])))).
Proof.
  intros m. set (q := mkRequest (Some test_imsi) None (Some [0x02; 0xf8; 0x39])).
  pose proof (air_vectors_in_sequence m (replicate 16 0xaa) (replicate 16 1) (replicate 16 2)
    (replicate 16 3) (replicate 16 4) test_db test_imsi (info test_doc) [0x02; 0xf8; 0x39] (to_be 6 63)) as H.
  cbv zeta in H. fold q in H.
  destruct (hss_s6a_air_cb m (replicate 16 0xaa) (replicate 16 1) (replicate 16 2) test_db q) as [d1 v1].
  destruct (hss_s6a_air_cb m (replicate 16 0xaa) (replicate 16 3) (replicate 16 4) d1 q) as [d2 v2].
  destruct H as (_ & _ & H & _); [split; by_decide|reflexivity|by_decide|by_decide|by_decide|by_decide
    |exact test_subscriber|by_decide|reflexivity|by_decide|reflexivity|exact H].
Defined.

Lemma air_resynchronises_witness :
  let m := mkLocals (Sha2.fresh Sha2.SHA256) (Hmac.fresh_hmac Sha2.SHA256) in
  let a := info test_doc in
  let o := mkChecked (array 16) (array 16) (array 8) 0 (array 14) in
  let r0 := replicate 16 5 in
  let sqn_ms := to_be 6 1000 in
  usim_accepts (k a) (opc_of a) sqn_ms [0x02; 0xf8; 0x39]
    (snd (hss_s6a_air_cb m (replicate 16 0xaa) (replicate 16 1) (replicate 16 2) test_db
      (mkRequest (Some test_imsi) (Some (r0 ++ AUTS (k a) (opc_of a) r0 sqn_ms)) (Some [0x02; 0xf8; 0x39])))).
Proof.
  intros m a o r0 sqn_ms.
  assert (milenage_check (opc_of a) (k a) sqn_ms r0 (AUTN (k a) (opc_of a) r0 (to_be 6 64) (amf a)) o =
    (-2, mkChecked (Ts35206.f4 (Ts35206.E (k a)) (be (opc_of a)) (be r0))
      (Ts35206.f3 (Ts35206.E (k a)) (be (opc_of a)) (be r0))
      (Ts35206.f2 (Ts35206.E (k a)) (be (opc_of a)) (be r0)) 8 (AUTS (k a) (opc_of a) r0 sqn_ms))) as Hc.
  { pose proof (vector_check a r0 64 sqn_ms o) as H. cbv zeta in H.
    rewrite !decide_True in H by (vm_compute; discriminate). apply H; by_decide. }
  destruct (air_resynchronises m (replicate 16 0xaa) (replicate 16 1) (replicate 16 2) test_db test_imsi a
    [0x02; 0xf8; 0x39] r0 (AUTN (k a) (opc_of a) r0 (to_be 6 64) (amf a)) sqn_ms o _ (replicate 14 0)
    ltac:(split; by_decide) eq_refl ltac:(by_decide) ltac:(by_decide) test_subscriber ltac:(by_decide)
    ltac:(by_decide) ltac:(by_decide) ltac:(by_decide) ltac:(by_decide) eq_refl eq_refl eq_refl Hc)
    as [(d' & E & _ & Hacc) _].
  cbn [c_auts] in E. rewrite E. apply Hacc. vm_compute. reflexivity.
Defined.

End HssAucSpec.
