(* ===== verification/NasSecurity.v ===== *)
(** [src/mme/nas_security.c]: protection of the NAS messages exchanged with the
    UE, on top of the ciphers of [Snow3g], [Aes] and [Zuc]. *)

From S2P Require Import Prelude Pkbuf Zuc Snow3g Aes AesSpec AesModes.

Module NasSecurity.
Import Pkbuf.

(** ** State *)

(** The union [ul_count]: from the least significant byte, [sqn], [overflow]
    (16 bits), [spare]. *)
Record count_t := mkCount { spare : Z; overflow : Z; sqn : Z }.
Definition i32 (c : count_t) : Z := (spare c << 24) .| (overflow c << 8) .| sqn c.

(** The security context of [mme_ue_t]. *)
Record mme_ue := mkUe {
  selected_enc_algorithm : Z;
  selected_int_algorithm : Z;
  knas_enc : list Z;
  knas_int : list Z;
  dl_count : Z;
  ul_count : count_t;
  security_context_available : bool;
  mac_failed : bool
}.

Definition set_dl_count (ue : mme_ue) (c : Z) : mme_ue :=
  mkUe (selected_enc_algorithm ue) (selected_int_algorithm ue) (knas_enc ue) (knas_int ue)
       c (ul_count ue) (security_context_available ue) (mac_failed ue).
Definition set_ul_count (ue : mme_ue) (c : count_t) : mme_ue :=
  mkUe (selected_enc_algorithm ue) (selected_int_algorithm ue) (knas_enc ue) (knas_int ue)
       (dl_count ue) c (security_context_available ue) (mac_failed ue).
Definition set_available (ue : mme_ue) : mme_ue :=
  mkUe (selected_enc_algorithm ue) (selected_int_algorithm ue) (knas_enc ue) (knas_int ue)
       (dl_count ue) (ul_count ue) true (mac_failed ue).
Definition set_mac_failed (ue : mme_ue) : mme_ue :=
  mkUe (selected_enc_algorithm ue) (selected_int_algorithm ue) (knas_enc ue) (knas_int ue)
       (dl_count ue) (ul_count ue) (security_context_available ue) true.

(** [nas_security_header_type_t] *)
Record header_type := mkHeaderType {
  integrity_protected : bool; ciphered : bool; new_security_context : bool;
  service_request : bool
}.

Definition NAS_SECURITY_BEARER : Z := 0.
Definition NAS_SECURITY_DOWNLINK_DIRECTION : Z := 1.
Definition NAS_SECURITY_UPLINK_DIRECTION : Z := 0.

(** ** Integrity and ciphering *)

(** [htonl(count)], the bearer and the direction, as EIA2 and EEA2 lay them out. *)
Definition count_bytes (count bearer direction : Z) : list Z :=
  le32 (bswap32 count) ++ [u8 ((bearer << 3) .| (direction << 2))].

(** The memory from the payload on. *)
Definition at_payload (b : buf) : list Z := drop (Z.to_nat (payload (pk b))) (mem b).

(** [nas_mac_calculate]: the buffer and the array [mac] after the call.  EIA2
    stores eight bytes in front of the payload; its length has 16 bits, so that
    [aes_cmac_calculate] has a result when the payload is in the memory. *)
Definition nas_mac_calculate (algorithm_identity : Z) (knas_int : list Z)
    (count bearer direction : Z) (b : buf) (mac : list Z) : buf * list Z :=
  if decide (~ (0 <= bearer <= 0x1f)) then (b, mac)
  else if decide (~ (direction = 0 \/ direction = 1)) then (b, mac)
  else if decide (len (pk b) = 0) then (b, mac)
  else if decide (algorithm_identity = 1) then
    (b, Snow3g.snow_3g_f9 knas_int count (u32 (bearer << 27)) direction
          (at_payload b) (len (pk b) << 3))
  else if decide (algorithm_identity = 2) then
    let '(_, b) := header b 8 in
    let b := mkBuf (pk b) (put (mem b) (payload (pk b))
                            (count_bytes count bearer direction ++ replicate 3 0)) in
    let cmac := default mac (Aes.aes_cmac_calculate knas_int (at_payload b) (len (pk b))) in
    let '(_, b) := header b (-8) in
    (b, take 4 cmac)
  else if decide (algorithm_identity = 3) then
    let mac32 := Zuc.zuc_eia3 knas_int count bearer direction (len (pk b) << 3) (at_payload b) in
    (b, le32 (bswap32 mac32))
  else (b, mac).

(** [nas_encrypt]: the buffer after the call. *)
Definition nas_encrypt (algorithm_identity : Z) (knas_enc : list Z)
    (count bearer direction : Z) (b : buf) : buf :=
  if decide (~ (0 <= bearer <= 0x1f)) then b
  else if decide (~ (direction = 0 \/ direction = 1)) then b
  else if decide (len (pk b) = 0) then b
  else
    let off := Z.to_nat (payload (pk b)) in
    if decide (algorithm_identity = 1) then
      mkBuf (pk b) (take off (mem b) ++
        Snow3g.snow_3g_f8 knas_enc count bearer direction (at_payload b) (len (pk b) << 3))
    else if decide (algorithm_identity = 2) then
      let ivec := count_bytes count bearer direction ++ replicate 11 0 in
      match Aes.aes_ctr128_encrypt knas_enc ivec (get (mem b) (payload (pk b)) (len (pk b))) with
      | Some (out, _) => mkBuf (pk b) (put (mem b) (payload (pk b)) out)
      | None => b
      end
    else if decide (algorithm_identity = 3) then
      mkBuf (pk b) (take off (mem b) ++
        Zuc.zuc_eea3 knas_enc count bearer direction (len (pk b) << 3) (at_payload b) (at_payload b))
    else b.

(** ** [nas_security_encode] *)

(** The result of [nas_security_encode]: the status, the pointer [*pkbuf] and
    the UE after the call. *)
Record encoded := mkEncoded { enc_ok : bool; enc_buf : option buf; enc_ue : mme_ue }.

(** [plain] is the result of [nas_plain_encode] on the message ([None] for an
    error), [sht] and [pd] the two fields of the message header, [pkbuf] the
    value of [*pkbuf] before the call, [mac] the four bytes of the uninitialised
    array of the source. *)
Definition nas_security_encode (plain : option buf) (mac : list Z) (pkbuf : option buf)
    (ue : mme_ue) (sht pd : Z) : encoded :=
  if decide (sht = 0) then
    match plain with
    | Some b => mkEncoded true (Some b) ue
    | None => mkEncoded false pkbuf ue
    end
  else if decide (~ (sht = 1 \/ sht = 2 \/ sht = 3 \/ sht = 4)) then mkEncoded false pkbuf ue
  else
    let ciphered := bool_decide (sht = 2 \/ sht = 4) in
    let new_security_context := bool_decide (sht = 3 \/ sht = 4) in
    let ue := if new_security_context
              then set_ul_count (set_dl_count ue 0) (mkCount 0 0 0) else ue in
    let ciphered := ciphered && negb (bool_decide (selected_enc_algorithm ue = 0)) in
    let integrity_protected := negb (bool_decide (selected_int_algorithm ue = 0)) in
    if ciphered || integrity_protected then
      let sequence_number := dl_count ue .& 0xff in
      match plain with
      | None => mkEncoded false pkbuf ue
      | Some new =>
          let new := if ciphered
            then nas_encrypt (selected_enc_algorithm ue) (knas_enc ue) (dl_count ue)
                   NAS_SECURITY_BEARER NAS_SECURITY_DOWNLINK_DIRECTION new
            else new in
          let '(ok, new) := header new 1 in
          if negb ok then mkEncoded false pkbuf ue
          else
            let new := mkBuf (pk new) (put (mem new) (payload (pk new)) [sequence_number]) in
            let '(new, mac) := if integrity_protected
              then nas_mac_calculate (selected_int_algorithm ue) (knas_int ue) (dl_count ue)
                     NAS_SECURITY_BEARER NAS_SECURITY_DOWNLINK_DIRECTION new mac
              else (new, replicate 4 0) in
            let ue := set_dl_count ue ((dl_count ue + 1) .& 0xffffff) in
            let '(ok, new) := header new 5 in
            if negb ok then mkEncoded false pkbuf ue
            else
              let h := ((sht << 4) .| pd) :: mac ++ [sequence_number] in
              let new := mkBuf (pk new) (put (mem new) (payload (pk new)) h) in
              mkEncoded true (Some new) (set_available ue)
      end
    else mkEncoded true pkbuf ue.

(** ** [nas_security_decode] *)

(** [sqn] is the sequence number received in full. *)
Definition update_ul_count (c : count_t) (s : Z) : count_t :=
  mkCount (spare c) (if decide (sqn c > s) then u16 (overflow c + 1) else overflow c) s.

(** The sequence number of a service request, of which the message holds the low
    five bits. *)
Definition estimate_sqn (c : count_t) (s : Z) : Z :=
  let high := sqn c .& 0xe0 in
  let high := if decide ((sqn c .& 0x1f) > s) then u8 (high + 0x20) else high in
  u8 (s + high).

(** The status, the buffer and the UE after the call. *)
Definition nas_security_decode (ue : mme_ue) (t : header_type) (mac0 : list Z) (b : buf)
  : bool * buf * mme_ue :=
  if service_request t then
    if decide (selected_int_algorithm ue = 0) then (false, b, ue)
    else
      let original_pkbuf_len := len (pk b) in
      let s := estimate_sqn (ul_count ue) (rd (at_payload b) 1 .& 0x1f) in
      let ue := set_ul_count ue (update_ul_count (ul_count ue) s) in
      let set_len b n := mkBuf (mkPkbuf (next (pk b)) (clbuf (pk b)) (payload (pk b))
                                        (tot_len (pk b)) n (flags (pk b))) (mem b) in
      let b := set_len b 2 in
      let original_mac := get (mem b) (payload (pk b) + 2) 2 in
      let '(b, mac) := nas_mac_calculate (selected_int_algorithm ue) (knas_int ue)
                         (i32 (ul_count ue)) NAS_SECURITY_BEARER NAS_SECURITY_UPLINK_DIRECTION
                         b mac0 in
      let b := set_len b original_pkbuf_len in
      let b := mkBuf (pk b) (put (mem b) (payload (pk b) + 2) original_mac) in
      let ue := if decide (take 2 (drop 2 mac) <> get (mem b) (payload (pk b) + 2) 2)
                then set_mac_failed ue else ue in
      (true, b, ue)
  else
    let integrity_protected := integrity_protected t && security_context_available ue in
    let new_security_context := new_security_context t && security_context_available ue in
    let ciphered := ciphered t && security_context_available ue in
    let ue := if new_security_context then set_ul_count ue (mkCount 0 0 0) else ue in
    let ciphered := ciphered && negb (bool_decide (selected_enc_algorithm ue = 0)) in
    let integrity_protected :=
      integrity_protected && negb (bool_decide (selected_int_algorithm ue = 0)) in
    if ciphered || integrity_protected then
      let '(ok, b) := header b 6 in
      if negb ok then (false, b, ue)
      else
        let h := payload (pk b) in
        let '(ok, b) := header b (-5) in
        if negb ok then (false, b, ue)
        else
          let sequence_number := rd (mem b) (h + 5) in
          let ue := set_ul_count ue (update_ul_count (ul_count ue) sequence_number) in
          let '(b, ue) :=
            if integrity_protected then
              let original_mac := get (mem b) (h + 1) 4 in
              let '(b, mac) := nas_mac_calculate (selected_int_algorithm ue) (knas_int ue)
                                 (i32 (ul_count ue)) NAS_SECURITY_BEARER
                                 NAS_SECURITY_UPLINK_DIRECTION b mac0 in
              let b := mkBuf (pk b) (put (mem b) (h + 1) original_mac) in
              (b, if decide (get (mem b) (h + 1) 4 <> take 4 mac)
                  then set_mac_failed ue else ue)
            else (b, ue) in
          let '(ok, b) := header b (-1) in
          if negb ok then (false, b, ue)
          else
            let b := if ciphered
              then nas_encrypt (selected_enc_algorithm ue) (knas_enc ue) (i32 (ul_count ue))
                     NAS_SECURITY_BEARER NAS_SECURITY_UPLINK_DIRECTION b
              else b in
            (true, b, ue)
    else (true, b, ue).

End NasSecurity.
