(* ===== verification/NasSecuritySpec.v ===== *)
(** What [NasSecurity] computes, in terms of the bytes of a message: layout of a
    protected message, acceptance and recovery by the receiver, NAS counts. *)

From S2P Require Import Prelude Pkbuf Zuc Snow3g Aes AesSpec AesModes NasSecurity.

Module NasSecuritySpec.
Import Pkbuf NasSecurity.

(** ** The window of a buffer *)

Lemma view_at b pre m post : view b pre m post -> at_payload b = m ++ post.
Proof.
  intros (E & Hp & Hl & _). unfold at_payload. by rewrite E, Hp, Nat2Z.id, drop_app_length.
Qed.

(** ** The algorithms on byte strings *)

Definition nas_mac (alg : Z) (key : list Z) (count bearer dir : Z) (m : list Z) : list Z :=
  if decide (alg = 1) then
    Snow3g.snow_3g_f9 key count (u32 (bearer << 27)) dir m (8 * Z.of_nat (length m))
  else if decide (alg = 2) then
    take 4 (AesModes.cmac key (count_bytes count bearer dir ++ replicate 3 0 ++ m))
  else to_be 4 (Zuc.zuc_eia3 key count bearer dir (8 * Z.of_nat (length m)) m).

Definition nas_keystream (alg : Z) (key : list Z) (count bearer dir : Z) (n : nat) : list Z :=
  if decide (alg = 1) then Snow3g.f8_keystream key count bearer dir ((n + 3) / 4)
  else if decide (alg = 2) then
    let '(rk, nrounds) := Aes.aes_setup_enc key 128 in
    AesModes.ctr_stream (S n) rk nrounds (count_bytes count bearer dir ++ replicate 11 0)
  else Zuc.eea3_keystream key count bearer dir n.

Definition nas_cipher (alg : Z) (key : list Z) (count bearer dir : Z) (m : list Z) : list Z :=
  xor_bytes m (nas_keystream alg key count bearer dir (length m)).

Definition known (alg : Z) : Prop := alg = 1 \/ alg = 2 \/ alg = 3.
#[export] Instance known_dec alg : Decision (known alg).
Proof. unfold known. apply _. Defined.

Lemma length_keystream alg key c b d n :
  (n <= length (nas_keystream alg key c b d n))%nat.
Proof.
  unfold nas_keystream. repeat case_decide.
  - rewrite Snow3g.length_f8_keystream. lia.
  - destruct (Aes.aes_setup_enc key 128). rewrite AesModes.length_ctr_stream. lia.
  - by rewrite Zuc.length_eea3_keystream.
Qed.

Lemma length_cipher alg key c b d m : length (nas_cipher alg key c b d m) = length m.
Proof.
  unfold nas_cipher. rewrite length_xor_bytes.
  pose proof (length_keystream alg key c b d (length m)). lia.
Qed.

(** Deciphering is ciphering. *)
Lemma cipher_involutive alg key c b d m :
  nas_cipher alg key c b d (nas_cipher alg key c b d m) = m.
Proof.
  unfold nas_cipher at 1. rewrite length_cipher. unfold nas_cipher.
  apply xor_bytes_involutive, length_keystream.
Qed.

Lemma to_payload_bits n : Z.of_nat n << 3 = 8 * Z.of_nat n.
Proof. rewrite Z.shiftl_mul_pow2 by done. lia. Qed.

(** *** The codes only depend on the bytes of the message *)

Lemma f9_prefix key c f d m post :
  m <> [] -> Z.of_nat (length m) < 2 ^ 16 ->
  Snow3g.snow_3g_f9 key c f d (m ++ post) (8 * Z.of_nat (length m)) =
    Snow3g.snow_3g_f9 key c f d m (8 * Z.of_nat (length m)).
Proof.
  intros Hm Hlt. assert (0 < length m)%nat by (destruct m; [done|simpl; lia]).
  unfold Snow3g.snow_3g_f9. cbv zeta.
  set (L := 8 * Z.of_nat (length m)).
  set (D := if decide (L mod 64 = 0) then _ else _).
  assert (D = (L + 63) / 64 + 1) as HD.
  { unfold D. rewrite shiftr_div by done. case_decide; rewrite u32_id; unfold inw; lia. }
  rewrite (u32_id (D - 2)) by (unfold inw; lia).
  assert (Snow3g.last_block (m ++ post) D L = Snow3g.last_block m D L) as ->.
  { unfold Snow3g.last_block. cbv zeta. set (n := (if decide _ then _ else _) / 8).
    assert (8 * (D - 2) + n = Z.of_nat (length m)) as Hn
      by (unfold n; case_decide; lia).
    rewrite decide_False by (unfold n in *; case_decide; lia).
    rewrite decide_False by (unfold n in *; case_decide; lia).
    apply for_up_ext. intros i s Hi. by rewrite rd_app_l by lia. }
  erewrite (for_up_ext _ _ (Z.to_nat (D - 2))); [reflexivity|].
  intros i s Hi. cbv beta zeta.
  assert (Snow3g.block64 (m ++ post) (Z.of_nat i) = Snow3g.block64 m (Z.of_nat i)) as ->; [|reflexivity].
  unfold Snow3g.block64. by rewrite !rd_app_l by lia.
Qed.

Lemma eia3_prefix key c b d m post :
  Z.of_nat (length m) < 2 ^ 16 ->
  Zuc.zuc_eia3 key c b d (8 * Z.of_nat (length m)) (m ++ post) =
    Zuc.zuc_eia3 key c b d (8 * Z.of_nat (length m)) m.
Proof.
  intros Hlt. unfold Zuc.zuc_eia3. cbv zeta.
  erewrite (for_up_ext _ _ (Z.to_nat (8 * _))); [reflexivity|].
  intros i s Hi. cbv beta zeta.
  assert (Zuc.GET_BIT (m ++ post) (Z.of_nat i) = Zuc.GET_BIT m (Z.of_nat i)) as ->; [|reflexivity].
  unfold Zuc.GET_BIT. by rewrite rd_app_l by lia.
Qed.

(** ** The operations on buffers *)

Lemma dir_ok d : d = 0 \/ d = 1 -> 0 <= NAS_SECURITY_BEARER <= 0x1f /\ (d = 0 \/ d = 1).
Proof. unfold NAS_SECURITY_BEARER. lia. Qed.

(** [nas_mac_calculate] computes the code of the payload and keeps it in place;
    at most the eight bytes before it change. *)
Lemma mac_calculate_spec alg key count dir b pre m post mac0 :
  view b pre m post -> known alg -> dir = 0 \/ dir = 1 -> m <> [] ->
  (8 <= length pre)%nat -> Z.of_nat (length m + 8) < 2 ^ 16 ->
  exists b' pre', nas_mac_calculate alg key count NAS_SECURITY_BEARER dir b mac0 =
      (b', nas_mac alg key count NAS_SECURITY_BEARER dir m) /\
    view b' pre' m post /\ length pre' = length pre /\
    take (length pre - 8) pre' = take (length pre - 8) pre.
Proof.
  intros Hv Ha Hd Hm H8 Hlt. pose proof Hv as (E & Hp & Hl & _).
  assert (length m <> 0)%nat by (by destruct m).
  unfold nas_mac_calculate, nas_mac.
  rewrite decide_False by (unfold NAS_SECURITY_BEARER; intros []; lia).
  rewrite decide_False by tauto. rewrite decide_False by lia.
  rewrite (view_at b pre m post Hv), Hl, to_payload_bits.
  destruct Ha as [->|[->| ->]].
  - rewrite !decide_True by done. exists b, pre. rewrite f9_prefix by (done || lia). done.
  - rewrite !(decide_False (P := 2 = 1)), !(decide_True (P := 2 = 2)) by done.
    set (h := drop (length pre - 8) pre). set (pre0 := take (length pre - 8) pre).
    assert (pre = pre0 ++ h) as Epre by (symmetry; apply take_drop).
    assert (length h = 8%nat) as Lh by (unfold h; rewrite length_drop; lia).
    rewrite Epre in Hv.
    destruct (header_push b pre0 h m post 8 Hv) as (b1 & -> & Hv1);
      [by rewrite Lh|by intros ->|lia|].
    cbv beta iota zeta. set (iv := count_bytes _ _ _ ++ _).
    assert (length iv = 8%nat) as Liv by reflexivity.
    pose proof (view_put b1 pre0 h m post iv Hv1 ltac:(by rewrite Liv)) as Hv2.
    set (b2 := mkBuf _ _) in *.
    assert (view b2 pre0 (iv ++ m) post) as Hv2' by exact Hv2.
    rewrite (view_at _ _ _ _ Hv2'). pose proof Hv2' as (_ & _ & -> & _).
    rewrite AesModes.cmac_calculate_whole by (rewrite length_app, Liv; lia). cbn [default].
    destruct (header_pop b2 pre0 iv m post (-8) Hv2) as (b3 & -> & Hv3);
      [by rewrite Liv|by destruct iv|].
    exists b3, (pre0 ++ iv). split_and!; [|done| |].
    + unfold iv. by rewrite <- (assoc_L (++)).
    + rewrite Epre, !length_app, Liv, Lh. done.
    + rewrite take_app_le; [|unfold pre0; rewrite length_take; lia].
      unfold pre0. rewrite take_take. f_equal. lia.
  - rewrite !(decide_False (P := 3 = 1)), !(decide_False (P := 3 = 2)), !(decide_True (P := 3 = 3)) by done.
    exists b, pre. rewrite eia3_prefix by lia. by rewrite le32_bswap32.
Qed.

Lemma take_drop_app_put pre m post out :
  length out = length m -> put (pre ++ m ++ post) (Z.of_nat (length pre)) out = pre ++ out ++ post.
Proof. intros. by apply put_app. Qed.

(** [nas_encrypt] ciphers the payload in place; with EEA1 it may change up to
    three bytes after it. *)
Lemma encrypt_spec alg key count dir b pre m post :
  view b pre m post -> known alg -> dir = 0 \/ dir = 1 -> m <> [] -> bytes (m ++ post) ->
  (3 <= length post)%nat -> 8 * Z.of_nat (length m) + 31 < 2 ^ 32 ->
  exists b' post', nas_encrypt alg key count NAS_SECURITY_BEARER dir b = b' /\
    view b' pre (nas_cipher alg key count NAS_SECURITY_BEARER dir m) post' /\
    length post' = length post /\ drop 3 post' = drop 3 post /\ pk b' = pk b.
Proof.
  intros Hv Ha Hd Hm Bmp H3 Hlt. pose proof Hv as (E & Hp & Hl & H16).
  assert (length m <> 0)%nat by (by destruct m).
  pose proof (view_at b pre m post Hv) as Hat.
  pose proof (view_payload b pre m post Hv) as Hpl. unfold payload_bytes in Hpl.
  assert (take (Z.to_nat (payload (pk b))) (mem b) = pre) as Htk
    by (by rewrite Hp, E, Nat2Z.id, take_app_length).
  unfold nas_encrypt, nas_cipher, nas_keystream. cbv zeta.
  rewrite decide_False by (unfold NAS_SECURITY_BEARER; intros []; lia).
  rewrite decide_False by tauto. rewrite decide_False by lia.
  rewrite Hat, Hpl, Htk, Hl, to_payload_bits.
  destruct Ha as [->|[->| ->]].
  - rewrite !decide_True by done. set (n := ((length m + 3) / 4)%nat).
    rewrite (Snow3g.f8_xor key count _ dir (m ++ post) (8 * Z.of_nat (length m)) n)
      by (first [done|unfold n; rewrite ?length_app; lia]).
    set (ks := Snow3g.f8_keystream _ _ _ _ _).
    assert (length ks = (4 * n)%nat) as Lks by apply Snow3g.length_f8_keystream.
    assert (4 * n <= length m + length post)%nat as Hn by (unfold n; lia).
    assert (length m <= 4 * n <= length m + 3)%nat as Hn' by (unfold n; lia).
    exists (mkBuf (pk b) (pre ++ xor_bytes (take (4 * n) (m ++ post)) ks ++ drop (4 * n) (m ++ post))),
      (xor_bytes (take (4 * n - length m) post) (drop (length m) ks) ++ drop (4 * n - length m) post).
    split_and!; [done| | | |done].
    + assert (take (4 * n) (m ++ post) = m ++ take (4 * n - length m) post) as Et
        by (by rewrite take_app_ge by lia).
      assert (drop (4 * n) (m ++ post) = drop (4 * n - length m) post) as Ed
        by (by rewrite drop_app_ge by lia).
      split_and!; cbn [mem pk]; [|done| |].
      * rewrite Et, Ed, xor_bytes_split by lia. by rewrite <- !(assoc_L (++)).
      * rewrite Hl, length_xor_bytes. lia.
      * rewrite length_xor_bytes. lia.
    + rewrite length_app, length_xor_bytes, length_take, !length_drop. lia.
    + rewrite drop_app_ge by (rewrite length_xor_bytes, length_take, length_drop; lia).
      rewrite drop_drop. f_equal. rewrite length_xor_bytes, length_take, length_drop. lia.
  - rewrite !(decide_False (P := 2 = 1)), !(decide_True (P := 2 = 2)) by done.
    unfold Aes.aes_ctr128_encrypt. rewrite decide_False by done.
    destruct (Aes.aes_setup_enc key 128) as [rk nr].
    rewrite AesModes.ctr_loop_xor by lia. set (ks := AesModes.ctr_stream _ _ _ _).
    assert (length (xor_bytes m ks) = length m) as Lx.
    { unfold ks. rewrite length_xor_bytes, AesModes.length_ctr_stream. lia. }
    eexists _, post. split_and!; [reflexivity| |done..].
    split_and!; cbn [mem pk]; [|done| |].
    + rewrite E, Hp. by apply put_app.
    + by rewrite Hl, Lx.
    + by rewrite Lx.
  - rewrite !(decide_False (P := 3 = 1)), !(decide_False (P := 3 = 2)), !(decide_True (P := 3 = 3)) by done.
    rewrite Zuc.eea3_xor by (first [done|rewrite length_app; lia|lia]).
    rewrite take_app_length, drop_app_length. set (ks := Zuc.eea3_keystream _ _ _ _ _).
    assert (length (xor_bytes m ks) = length m) as Lx.
    { unfold ks. rewrite length_xor_bytes, Zuc.length_eea3_keystream. lia. }
    eexists _, post. split_and!; [reflexivity| |done..].
    split_and!; cbn [mem pk]; [done|done| |].
    + by rewrite Hl, Lx.
    + by rewrite Lx.
Qed.

(** ** Sending *)

(** A protected message: header byte, code, sequence number, (ciphered) message;
    the code covers the sequence number and the message. *)
Definition protected (ealg ialg : Z) (kenc kint : list Z) (count dir : Z) (ci : bool)
    (h : Z) (m : list Z) : list Z :=
  let body := if ci then nas_cipher ealg kenc count NAS_SECURITY_BEARER dir m else m in
  let p := (count .& 0xff) :: body in
  h :: nas_mac ialg kint count NAS_SECURITY_BEARER dir p ++ p.

Lemma length_nas_mac alg key c b d m : length (nas_mac alg key c b d m) = 4%nat.
Proof.
  unfold nas_mac. repeat case_decide; [reflexivity| |apply length_to_be].
  rewrite length_take. unfold AesModes.cmac. by rewrite AesModes.length_cmac_blocks.
Qed.

(** The (possibly ciphered) message in its buffer. *)
Lemma maybe_encrypt ci ealg key count dir b pre m post :
  view b pre m post -> (ci = true -> known ealg) -> dir = 0 \/ dir = 1 -> m <> [] -> bytes (m ++ post) ->
  (3 <= length post)%nat ->
  exists post', view (if ci then nas_encrypt ealg key count NAS_SECURITY_BEARER dir b else b) pre
    (if ci then nas_cipher ealg key count NAS_SECURITY_BEARER dir m else m) post'.
Proof.
  intros Hv Ha Hd Hm Hb H3. destruct ci; [|by exists post].
  destruct (encrypt_spec ealg key count dir b pre m post) as (b' & post' & -> & Hv' & _); auto.
  - destruct Hv as (_ & _ & _ & ?). lia.
  - by exists post'.
Qed.

(** The message [b] holds, protected, and the context after it. *)
Lemma encode_view ue sht pd b pre m post mac0 pb :
  view b pre m post -> bytes (mem b) -> m <> [] ->
  (14 <= length pre)%nat -> (3 <= length post)%nat -> Z.of_nat (length m + 14) < 2 ^ 16 ->
  1 <= sht <= 4 -> known (selected_int_algorithm ue) ->
  selected_enc_algorithm ue = 0 \/ known (selected_enc_algorithm ue) ->
  let new := bool_decide (3 <= sht) in
  let ci := bool_decide (sht = 2 \/ sht = 4) && negb (bool_decide (selected_enc_algorithm ue = 0)) in
  let ue1 := if new then set_ul_count (set_dl_count ue 0) (mkCount 0 0 0) else ue in
  exists b' pre' post',
    nas_security_encode (Some b) mac0 pb ue sht pd =
      mkEncoded true (Some b') (set_available (set_dl_count ue1 ((dl_count ue1 + 1) mod 2 ^ 24))) /\
    view b' pre'
      (protected (selected_enc_algorithm ue) (selected_int_algorithm ue) (knas_enc ue) (knas_int ue)
        (dl_count ue1) NAS_SECURITY_DOWNLINK_DIRECTION ci ((sht << 4) .| pd) m) post'.
Proof.
  intros Hv Hb Hm Hpre Hpost Hlen Hsht Hint Henc new ci ue1.
  unfold nas_security_encode. rewrite decide_False by lia. rewrite decide_False by lia. cbv zeta.
  replace (bool_decide (sht = 3 \/ sht = 4)) with new
    by (apply bool_decide_ext; lia).
  fold ue1.
  assert (selected_enc_algorithm ue1 = selected_enc_algorithm ue /\
          selected_int_algorithm ue1 = selected_int_algorithm ue /\
          knas_enc ue1 = knas_enc ue /\ knas_int ue1 = knas_int ue) as (-> & -> & -> & ->)
    by (unfold ue1; by destruct new).
  fold ci. rewrite (bool_decide_false (selected_int_algorithm ue = 0))
    by (unfold known in Hint; lia).
  cbn [negb]. rewrite orb_true_r.
  set (c := dl_count ue1).
  assert (bytes (m ++ post)) as Bmp
    by (destruct Hv as (E & _); rewrite E in Hb; by apply Forall_app in Hb as [_ ?]).
  destruct (maybe_encrypt ci (selected_enc_algorithm ue) (knas_enc ue) c
              NAS_SECURITY_DOWNLINK_DIRECTION b pre m post) as [post' Hv1]; auto.
  { unfold ci. destruct Henc as [->|]; [by rewrite andb_false_r|done]. }
  clearbody ci. unfold protected. cbv zeta. set (body := if ci then nas_cipher _ _ _ _ _ _ else m) in *.
  set (b1 := if ci then nas_encrypt _ _ _ _ _ _ else b) in *.
  assert (length body = length m) as Lbody by (unfold body; destruct ci; [apply length_cipher|done]).
  destruct (exists_last (l := pre)) as (pre1 & x & ->); [intros ->; simpl in Hpre; lia|].
  rewrite length_app in Hpre. simpl in Hpre.
  destruct (header_push b1 pre1 [x] body post' 1 Hv1) as (b2 & -> & Hv2); [done|done|simpl; lia|].
  cbn [negb].
  pose proof (view_put b2 pre1 [x] body post' [c .& 0xff] Hv2 eq_refl) as Hv3.
  set (b3 := mkBuf (pk b2) _) in *.
  destruct (mac_calculate_spec (selected_int_algorithm ue) (knas_int ue) c
    NAS_SECURITY_DOWNLINK_DIRECTION b3 pre1 ([c .& 0xff] ++ body) post' mac0 Hv3 Hint)
    as (b4 & pre4 & -> & Hv4 & L4 & _); [by right|done|lia|simpl; lia|].
  destruct (list_split_at (length pre4 - 5) pre4) as (pre5 & y & -> & L5); [lia|].
  rewrite length_app in L4, L5. assert (length y = 5%nat) as Ly by lia.
  destruct (header_push b4 pre5 y _ post' 5 Hv4) as (b5 & -> & Hv5);
    [by rewrite Ly|by intros ->|rewrite Ly; simpl; lia|].
  cbn [negb]. eexists _, pre5, post'. split.
  - rewrite (land_ones_mod (c + 1) 24) by done. reflexivity.
  - rewrite (assoc_L (++)) in Hv5.
    match goal with |- view (mkBuf _ (put _ _ ?l)) _ _ _ =>
      pose proof (view_put b5 pre5 (y ++ [c .& 0xff]) body post' l Hv5) as Hv6 end.
    rewrite length_app, Ly in Hv6. cbn [length] in Hv6. rewrite length_app, length_nas_mac in Hv6.
    specialize (Hv6 eq_refl). cbn [app] in Hv6. by rewrite <- (assoc_L (++)) in Hv6.
Qed.

(** C1: a message that is to be integrity protected leaves as header byte, code,
    sequence number and (ciphered) message under the current downlink count, with
    each algorithm; the count goes up by one modulo 2^24, after having been reset
    with the uplink count when the security context is new. *)
Theorem encode_protects ue sht pd b pre m post mac0 pb :
  view b pre m post -> bytes (mem b) -> m <> [] ->
  (14 <= length pre)%nat -> (3 <= length post)%nat -> Z.of_nat (length m + 14) < 2 ^ 16 ->
  1 <= sht <= 4 -> known (selected_int_algorithm ue) ->
  selected_enc_algorithm ue = 0 \/ known (selected_enc_algorithm ue) ->
  let new := bool_decide (3 <= sht) in
  let ci := bool_decide (sht = 2 \/ sht = 4) && negb (bool_decide (selected_enc_algorithm ue = 0)) in
  let ue1 := if new then set_ul_count (set_dl_count ue 0) (mkCount 0 0 0) else ue in
  exists b',
    nas_security_encode (Some b) mac0 pb ue sht pd =
      mkEncoded true (Some b') (set_available (set_dl_count ue1 ((dl_count ue1 + 1) mod 2 ^ 24))) /\
    payload_bytes b' =
      protected (selected_enc_algorithm ue) (selected_int_algorithm ue) (knas_enc ue) (knas_int ue)
        (dl_count ue1) NAS_SECURITY_DOWNLINK_DIRECTION ci ((sht << 4) .| pd) m.
Proof.
  intros Hv Hb Hm Hpre Hpost Hlen Hsht Hint Henc new ci ue1.
  destruct (encode_view ue sht pd b pre m post mac0 pb) as (b' & pre' & post' & E & Hv'); try done.
  exists b'. split; [exact E|exact (view_payload _ _ _ _ Hv')].
Qed.

(** ** Receiving *)

(** The buffer as [nas_security_decode] gets it: the payload starts after the
    six-byte security header. *)
Definition received (b : buf) (pre : list Z) (h : Z) (mac : list Z) (s : Z) (body post : list Z) : Prop :=
  view b (pre ++ h :: mac ++ [s]) body post /\ length mac = 4%nat.

(** The context a message is decoded under. *)
Definition rx_count (t : header_type) (ue : mme_ue) (s : Z) : count_t :=
  update_ul_count (if new_security_context t then mkCount 0 0 0 else ul_count ue) s.

(** With a security context, decoding an integrity-protected message stores
    the estimated count, deciphers the message under it when it is ciphered, and
    raises [mac_failed] exactly when the received code is not the code of the
    sequence number and message under that count. *)
Lemma decode_checks ue t mac0 b pre h mac s body post :
  received b pre h mac s body post -> bytes (mem b) -> body <> [] ->
  (3 <= length pre)%nat -> (3 <= length post)%nat -> Z.of_nat (length body + 9) < 2 ^ 16 ->
  service_request t = false -> integrity_protected t = true ->
  security_context_available ue = true -> known (selected_int_algorithm ue) ->
  selected_enc_algorithm ue = 0 \/ known (selected_enc_algorithm ue) ->
  let c := rx_count t ue s in
  let ci := ciphered t && negb (bool_decide (selected_enc_algorithm ue = 0)) in
  let code := nas_mac (selected_int_algorithm ue) (knas_int ue) (i32 c)
                NAS_SECURITY_BEARER NAS_SECURITY_UPLINK_DIRECTION (s :: body) in
  exists b' pre' post',
    nas_security_decode ue t mac0 b =
      (true, b', let ue := set_ul_count ue c in
                 if decide (mac <> code) then set_mac_failed ue else ue) /\
    view b' pre' (if ci then nas_cipher (selected_enc_algorithm ue) (knas_enc ue) (i32 c)
                              NAS_SECURITY_BEARER NAS_SECURITY_UPLINK_DIRECTION body
                  else body) post'.
Proof.
  intros [Hv Lm] Hb Hbody Hpre Hpost Hlen Hsr Hip Hav Hint Henc c ci code.
  assert (bytes (body ++ post)) as Hbytes
    by (destruct Hv as (E & _); rewrite E in Hb; by apply Forall_app in Hb as [_ ?]).
  unfold nas_security_decode. rewrite Hsr, Hip, Hav, !andb_true_r. cbv zeta.
  set (ue1 := if new_security_context t then set_ul_count ue (mkCount 0 0 0) else ue).
  assert (selected_enc_algorithm ue1 = selected_enc_algorithm ue /\
          selected_int_algorithm ue1 = selected_int_algorithm ue /\
          knas_enc ue1 = knas_enc ue /\ knas_int ue1 = knas_int ue /\
          update_ul_count (ul_count ue1) s = c /\
          set_ul_count ue1 c = set_ul_count ue c) as (E1 & E2 & E3 & E4 & E5 & E6)
    by (unfold ue1, c, rx_count; by destruct (new_security_context t)).
  rewrite E1, E2. fold ci. rewrite (bool_decide_false (selected_int_algorithm ue = 0))
    by (unfold known in Hint; lia).
  cbn [negb andb]. rewrite orb_true_r.
  assert (Hci : ci = true -> known (selected_enc_algorithm ue)).
  { unfold ci. destruct Henc as [->|]; [by rewrite andb_false_r|done]. }
  clearbody ci ue1.
  destruct (header_push b pre (h :: mac ++ [s]) body post 6 Hv) as (b1 & -> & Hv1);
    [cbn; rewrite length_app, Lm; done|done|cbn; rewrite length_app, Lm; cbn; lia|].
  cbn [negb]. cbn [app] in Hv1. rewrite <- (assoc_L (++)) in Hv1.
  pose proof Hv1 as (_ & P1 & _).
  destruct (header_pop b1 pre (h :: mac) (s :: body) post (-5) Hv1) as (b2 & -> & Hv2);
    [cbn; by rewrite Lm|done|].
  cbn [negb]. rewrite P1.
  assert (rd (mem b2) (Z.of_nat (length pre) + 5) = s) as ->.
  { destruct Hv2 as (-> & _). apply rd_lookup.
    replace (Z.to_nat (Z.of_nat (length pre) + 5)) with (length (pre ++ h :: mac) + 0)%nat
      by (rewrite length_app; cbn; lia).
    rewrite lookup_app_r by lia. by rewrite Nat.add_0_r, Nat.sub_diag. }
  rewrite E5, E6. cbn [selected_int_algorithm knas_int ul_count set_ul_count].
  assert (get (mem b2) (Z.of_nat (length pre) + 1) 4 = mac) as ->.
  { destruct Hv2 as (-> & _). replace (Z.of_nat (length pre) + 1) with (Z.of_nat (length (pre ++ [h])))
      by (rewrite length_app; cbn; lia).
    replace ((pre ++ h :: mac) ++ (s :: body) ++ post) with ((pre ++ [h]) ++ mac ++ (s :: body) ++ post)
      by (by rewrite <- !(assoc_L (++))).
    apply get_app. by rewrite Lm. }
  destruct (mac_calculate_spec (selected_int_algorithm ue) (knas_int ue) (i32 c)
    NAS_SECURITY_UPLINK_DIRECTION b2 (pre ++ h :: mac) (s :: body) post mac0 Hv2 Hint)
    as (b3 & pre3 & -> & Hv3 & L3 & _);
    [by left|done|rewrite length_app; cbn; lia|cbn; lia|].
  rewrite length_app in L3. cbn [length] in L3.
  set (b4 := mkBuf (pk b3) (put (mem b3) (Z.of_nat (length pre) + 1) mac)).
  assert (view b4 (put pre3 (Z.of_nat (length pre) + 1) mac) (s :: body) post) as Hv4.
  { destruct Hv3 as (M3 & P3 & Q3 & I3). unfold b4. split_and!; cbn [mem pk]; [|by rewrite length_put|done|done].
    rewrite M3. apply put_prefix; lia. }
  assert (get (mem b4) (Z.of_nat (length pre) + 1) 4 = mac) as ->.
  { replace 4 with (Z.of_nat (length mac)) by lia. destruct Hv3 as (M3 & _).
    unfold b4. cbn [mem]. apply get_put; [lia|]. rewrite M3, length_app. lia. }
  fold code. rewrite (take_ge code) by (unfold code; by rewrite length_nas_mac).
  set (pre4 := put pre3 _ mac) in Hv4.
  destruct (header_pop b4 pre4 [s] body post (-1) Hv4) as (b5 & -> & Hv5); [done|done|].
  cbn [negb].
  destruct (maybe_encrypt ci (selected_enc_algorithm ue) (knas_enc ue) (i32 c)
    NAS_SECURITY_UPLINK_DIRECTION b5 (pre4 ++ [s]) body post Hv5) as [post' Hv6];
    [done|by left|done|done|done|].
  exists (if ci then nas_encrypt (selected_enc_algorithm ue) (knas_enc ue) (i32 c)
                  NAS_SECURITY_BEARER NAS_SECURITY_UPLINK_DIRECTION b5 else b5), (pre4 ++ [s]), post'.
  split; [|exact Hv6].
  destruct (decide (mac <> code)); reflexivity.
Qed.

(** *** NAS counts *)

Definition count_ok (c : count_t) : Prop := spare c = 0 /\ inw 16 (overflow c) /\ inw 8 (sqn c).

Lemma i32_sum c : count_ok c -> i32 c = overflow c * 2 ^ 8 + sqn c.
Proof.
  intros (H0 & H1 & H2). unfold i32. rewrite H0, Z.shiftl_0_l, Z.lor_0_l. by apply lor_add.
Qed.

Lemma update_ok c s : count_ok c -> inw 8 s -> count_ok (update_ul_count c s).
Proof.
  intros (H0 & H1 & H2) Hs. unfold update_ul_count. split_and!; [done| |done].
  cbn [overflow]. case_decide; [apply u16_inw|done].
Qed.

(** The least number from [c] on with the low [k] bits of [s]. *)
Definition next_with (k c s : Z) : Z := c + (s - c) mod 2 ^ k.

Lemma update_next c s :
  count_ok c -> inw 8 s -> i32 (update_ul_count c s) = next_with 8 (i32 c) s mod 2 ^ 24.
Proof.
  intros Hc Hs. rewrite (i32_sum (update_ul_count c s)) by by apply update_ok.
  rewrite (i32_sum c) by done. destruct Hc as (_ & H1 & H2). unfold inw, next_with in *.
  unfold update_ul_count. cbn [overflow sqn]. rewrite u16_mod. case_decide; lia.
Qed.

Lemma estimate_spec c s :
  count_ok c -> 0 <= s < 2 ^ 5 ->
  inw 8 (estimate_sqn c s) /\ estimate_sqn c s = next_with 5 (sqn c) s mod 2 ^ 8.
Proof.
  intros (_ & _ & H2) Hs. unfold estimate_sqn. cbv zeta. split; [apply u8_inw|].
  assert (sqn c .& 0xe0 = sqn c / 2 ^ 5 * 2 ^ 5) as ->.
  { revert H2. generalize (sqn c). refine (bytes_forall _ _). vm_compute. reflexivity. }
  rewrite (land_ones_mod _ 5) by done. unfold inw, next_with in *.
  rewrite !u8_mod. case_decide; lia.
Qed.

(** The uplink count a message is decoded under is the least one, from the
    stored count on and modulo 2^24, that ends in the bits the message carries:
    eight in a security header, five in a service request. *)
Theorem count_estimate c :
  count_ok c ->
  (forall s, 0 <= s < 2 ^ 8 ->
     i32 (update_ul_count c s) = next_with 8 (i32 c) s mod 2 ^ 24) /\
  (forall s, 0 <= s < 2 ^ 5 ->
     i32 (update_ul_count c (estimate_sqn c s)) = next_with 5 (i32 c) s mod 2 ^ 24).
Proof.
  intros Hc. split; intros s Hs; [by apply update_next|].
  destruct (estimate_spec c s Hc Hs) as [Hi He]. rewrite update_next, He by done.
  rewrite (i32_sum c) by done. destruct Hc as (_ & H1 & H2). unfold inw, next_with in *. lia.
Qed.

Lemma count_estimate_witness :
  let c := mkCount 0 0xffff 0xfe in
  (forall s, 0 <= s < 2 ^ 8 ->
     i32 (update_ul_count c s) = next_with 8 (i32 c) s mod 2 ^ 24) /\
  (forall s, 0 <= s < 2 ^ 5 ->
     i32 (update_ul_count c (estimate_sqn c s)) = next_with 5 (i32 c) s mod 2 ^ 24).
Proof. apply count_estimate. by_decide. Defined.

(** *** What a peer with the same keys sends *)

Lemma protected_inv ealg ialg kenc kint count dir ci h m mac s body :
  protected ealg ialg kenc kint count dir ci h m = h :: mac ++ s :: body -> length mac = 4%nat ->
  s = count .& 0xff /\
  body = (if ci then nas_cipher ealg kenc count NAS_SECURITY_BEARER dir m else m) /\
  mac = nas_mac ialg kint count NAS_SECURITY_BEARER dir (s :: body).
Proof.
  unfold protected. cbv zeta. set (body0 := if ci then _ else _). intros E Lm.
  injection E as E. apply app_inj_1 in E as [E1 E2]; [|by rewrite length_nas_mac].
  injection E2 as E2 E3. by rewrite <- E1, <- E2, <- E3.
Qed.

(** The buffer and the count after a message that the peer protected. *)
Lemma decode_view ue t mac0 b pre h mac s body post m n :
  received b pre h mac s body post -> bytes (mem b) -> body <> [] ->
  (3 <= length pre)%nat -> (3 <= length post)%nat -> Z.of_nat (length body + 9) < 2 ^ 16 ->
  service_request t = false -> integrity_protected t = true -> new_security_context t = false ->
  security_context_available ue = true -> known (selected_int_algorithm ue) ->
  selected_enc_algorithm ue = 0 \/ known (selected_enc_algorithm ue) ->
  count_ok (ul_count ue) -> i32 (ul_count ue) <= n < i32 (ul_count ue) + 2 ^ 8 -> n < 2 ^ 24 ->
  protected (selected_enc_algorithm ue) (selected_int_algorithm ue) (knas_enc ue) (knas_int ue) n
    NAS_SECURITY_UPLINK_DIRECTION
    (ciphered t && negb (bool_decide (selected_enc_algorithm ue = 0))) h m = h :: mac ++ s :: body ->
  exists b' c' pre' post', nas_security_decode ue t mac0 b = (true, b', set_ul_count ue c') /\
    i32 c' = n /\ view b' pre' m post'.
Proof.
  intros Hr Hb Hbody Hpre Hpost Hlen Hsr Hip Hnew Hav Hint Henc Hc Hn Hn24 Hpr.
  destruct (protected_inv _ _ _ _ _ _ _ _ _ _ _ _ Hpr (proj2 Hr)) as (Hs & Hbd & Hmac).
  destruct (decode_checks ue t mac0 b pre h mac s body post) as (b' & pre' & post' & Hd & Hp); try done.
  rewrite Hd. unfold rx_count in *. rewrite Hnew in *.
  assert (i32 (update_ul_count (ul_count ue) s) = n) as Hi.
  { rewrite (land_ones_mod n 8) in Hs by done.
    rewrite update_next by (done || unfold inw; lia). unfold next_with.
    pose proof (i32_sum _ Hc). destruct Hc as (_ & H1 & H2). unfold inw in *. lia. }
  rewrite Hi in *. eexists _, _, pre', post'. rewrite decide_False by (intros []; done).
  split_and!; [reflexivity|done|]. rewrite Hbd in Hp.
  destruct (ciphered t && _); [by rewrite cipher_involutive in Hp|done].
Qed.

(** C2: a message the peer protects under an uplink count less than 2^8 ahead of
    the stored one is accepted, and decoding gives back the plain message and the
    count it was protected under. *)
Theorem decode_accepts ue t mac0 b pre h mac s body post m n :
  received b pre h mac s body post -> bytes (mem b) -> body <> [] ->
  (3 <= length pre)%nat -> (3 <= length post)%nat -> Z.of_nat (length body + 9) < 2 ^ 16 ->
  service_request t = false -> integrity_protected t = true -> new_security_context t = false ->
  security_context_available ue = true -> known (selected_int_algorithm ue) ->
  selected_enc_algorithm ue = 0 \/ known (selected_enc_algorithm ue) ->
  count_ok (ul_count ue) -> i32 (ul_count ue) <= n < i32 (ul_count ue) + 2 ^ 8 -> n < 2 ^ 24 ->
  protected (selected_enc_algorithm ue) (selected_int_algorithm ue) (knas_enc ue) (knas_int ue) n
    NAS_SECURITY_UPLINK_DIRECTION
    (ciphered t && negb (bool_decide (selected_enc_algorithm ue = 0))) h m = h :: mac ++ s :: body ->
  exists b' c', nas_security_decode ue t mac0 b = (true, b', set_ul_count ue c') /\
    i32 c' = n /\ payload_bytes b' = m.
Proof.
  intros Hr Hb Hbody Hpre Hpost Hlen Hsr Hip Hnew Hav Hint Henc Hc Hn Hn24 Hpr.
  destruct (decode_view ue t mac0 b pre h mac s body post m n) as (b' & c' & pre' & post' & E & Hi & Hv); try done.
  exists b', c'. by apply view_payload in Hv.
Qed.

(** C3: under a security context, an integrity-protected message whose code is
    not the one of its sequence number and bytes under the estimated count is
    flagged ([mac_failed]), whatever the rest of it. *)
Theorem decode_flags_forgery ue t mac0 b pre h mac s body post :
  received b pre h mac s body post -> bytes (mem b) -> body <> [] ->
  (3 <= length pre)%nat -> (3 <= length post)%nat -> Z.of_nat (length body + 9) < 2 ^ 16 ->
  service_request t = false -> integrity_protected t = true ->
  security_context_available ue = true -> known (selected_int_algorithm ue) ->
  selected_enc_algorithm ue = 0 \/ known (selected_enc_algorithm ue) ->
  let '(ok, _, ue') := nas_security_decode ue t mac0 b in
  ok = true /\
  (mac_failed ue' = true <->
   mac_failed ue = true \/
   mac <> nas_mac (selected_int_algorithm ue) (knas_int ue) (i32 (rx_count t ue s))
            NAS_SECURITY_BEARER NAS_SECURITY_UPLINK_DIRECTION (s :: body)).
Proof.
  intros Hr Hb Hbody Hpre Hpost Hlen Hsr Hip Hav Hint Henc.
  destruct (decode_checks ue t mac0 b pre h mac s body post) as (b' & pre' & post' & -> & _); try done.
  split; [done|]. cbv zeta. case_decide as Hm; cbn [mac_failed set_mac_failed set_ul_count].
  - split; [by right|done].
  - split; [by left|]. intros [?|]; [done|]. done.
Qed.

(** *** Service requests *)

Definition set_len (b : buf) (n : Z) : buf :=
  mkBuf (mkPkbuf (next (pk b)) (clbuf (pk b)) (payload (pk b)) (tot_len (pk b)) n (flags (pk b)))
        (mem b).

(** A service request is checked against the last two bytes of the code of
    its first two bytes, under the count estimated from its five sequence bits;
    the message itself is left as it is. *)
Lemma service_request_checks ue t mac0 b pre x y m2 m3 rest post :
  view b pre (x :: y :: m2 :: m3 :: rest) post -> (8 <= length pre)%nat ->
  service_request t = true -> known (selected_int_algorithm ue) ->
  let c := update_ul_count (ul_count ue) (estimate_sqn (ul_count ue) (y .& 0x1f)) in
  let code := nas_mac (selected_int_algorithm ue) (knas_int ue) (i32 c)
                NAS_SECURITY_BEARER NAS_SECURITY_UPLINK_DIRECTION [x; y] in
  exists b' pre',
    nas_security_decode ue t mac0 b =
      (true, b', let ue := set_ul_count ue c in
                 if decide (drop 2 code <> [m2; m3]) then set_mac_failed ue else ue) /\
    view b' pre' (x :: y :: m2 :: m3 :: rest) post.
Proof.
  intros Hv Hpre Hsr Hint c code. unfold nas_security_decode. rewrite Hsr.
  rewrite decide_False by (unfold known in Hint; lia). cbv zeta. fold (set_len b 2).
  rewrite (view_at _ _ _ _ Hv). change (rd ((x :: y :: _) ++ post) 1) with y. fold c.
  pose proof Hv as (M & P & L & I).
  assert (view (set_len b 2) pre [x; y] (m2 :: m3 :: rest ++ post)) as Hv1 by done.
  cbn [selected_int_algorithm set_ul_count knas_int ul_count].
  change (mem (set_len b 2)) with (mem b). change (payload (pk (set_len b 2))) with (payload (pk b)).
  assert (get (mem b) (payload (pk b) + 2) 2 = [m2; m3]) as Hget.
  { rewrite M, P. replace (Z.of_nat (length pre) + 2) with (Z.of_nat (length (pre ++ [x; y])))
      by (rewrite length_app; cbn; lia).
    change ((x :: y :: m2 :: m3 :: rest) ++ post) with ([x; y] ++ [m2; m3] ++ (rest ++ post)).
    rewrite (assoc_L (++) pre). by apply get_app. }
  rewrite Hget.
  destruct (mac_calculate_spec (selected_int_algorithm ue) (knas_int ue) (i32 c)
    NAS_SECURITY_UPLINK_DIRECTION (set_len b 2) pre [x; y] (m2 :: m3 :: rest ++ post) mac0 Hv1 Hint)
    as (b3 & pre3 & -> & Hv3 & L3 & _); [by left|done|lia|done|].
  fold code. fold (set_len b3 (len (pk b))).
  assert (view (set_len b3 (len (pk b))) pre3 (x :: y :: m2 :: m3 :: rest) post) as Hv4.
  { destruct Hv3 as (M3 & P3 & _ & _). done. }
  set (b4 := set_len b3 (len (pk b))) in *. clearbody b4. clear Hv3 b3.
  pose proof Hv4 as (M4 & P4 & L4 & _).
  assert (put (mem b4) (payload (pk b4) + 2) [m2; m3] = mem b4) as Hput.
  { rewrite M4, P4. replace (Z.of_nat (length pre3) + 2) with (Z.of_nat (length (pre3 ++ [x; y])))
      by (rewrite length_app; cbn; lia).
    change ((x :: y :: m2 :: m3 :: rest) ++ post) with ([x; y] ++ [m2; m3] ++ (rest ++ post)).
    rewrite (assoc_L (++) pre3). by apply put_app. }
  rewrite Hput. cbn [mem pk].
  assert (get (mem b4) (payload (pk b4) + 2) 2 = [m2; m3]) as ->.
  { rewrite M4, P4. replace (Z.of_nat (length pre3) + 2) with (Z.of_nat (length (pre3 ++ [x; y])))
      by (rewrite length_app; cbn; lia).
    change ((x :: y :: m2 :: m3 :: rest) ++ post) with ([x; y] ++ [m2; m3] ++ (rest ++ post)).
    rewrite (assoc_L (++) pre3). by apply get_app. }
  rewrite (take_ge (drop 2 code)) by (unfold code; rewrite length_drop, length_nas_mac; lia).
  exists (mkBuf (pk b4) (mem b4)), pre3. split; [reflexivity|done].
Qed.

(** *** Errors of [nas_security_encode] *)

(** Without a buffer to send [nas_security_encode] reports an error for an
    unknown header type or when the message cannot be encoded, leaving the
    caller's pointer alone; but with both null algorithms it reports success
    without storing a buffer. *)
Theorem encode_no_buffer plain mac0 pb ue sht pd :
  (sht < 0 \/ 4 < sht ->
     nas_security_encode plain mac0 pb ue sht pd = mkEncoded false pb ue) /\
  (1 <= sht <= 4 -> selected_int_algorithm ue <> 0 ->
     let r := nas_security_encode None mac0 pb ue sht pd in
     enc_ok r = false /\ enc_buf r = pb) /\
  (1 <= sht <= 4 -> selected_enc_algorithm ue = 0 -> selected_int_algorithm ue = 0 ->
     let r := nas_security_encode plain mac0 pb ue sht pd in
     enc_ok r = true /\ enc_buf r = pb).
Proof.
  split_and!.
  - intros H. unfold nas_security_encode. rewrite decide_False by lia. by rewrite decide_True by lia.
  - intros H Hi. cbv zeta. unfold nas_security_encode.
    rewrite decide_False by lia. rewrite decide_False by lia. cbv zeta.
    set (ue1 := if bool_decide _ then _ else _).
    assert (selected_int_algorithm ue1 = selected_int_algorithm ue) as ->
      by (unfold ue1; by case_bool_decide).
    rewrite (bool_decide_false (selected_int_algorithm ue = 0)) by done.
    by rewrite orb_true_r.
  - intros H He Hi. cbv zeta. unfold nas_security_encode.
    rewrite decide_False by lia. rewrite decide_False by lia. cbv zeta.
    set (ue1 := if bool_decide (sht = 3 \/ _) then _ else _).
    assert (selected_int_algorithm ue1 = 0 /\ selected_enc_algorithm ue1 = 0) as [-> ->]
      by (unfold ue1; by case_bool_decide).
    by rewrite andb_false_r.
Qed.

Lemma encode_no_buffer_witness :
  let ue := mkUe 0 0 [] [] 5 (mkCount 0 0 0) true false in
  nas_security_encode None [] None ue 7 7 = mkEncoded false None ue /\
  enc_ok (nas_security_encode None [] None (set_dl_count (mkUe 0 1 [] [] 5 (mkCount 0 0 0) true false) 1) 1 7) = false /\
  enc_ok (nas_security_encode None [] None ue 2 7) = true.
Proof.
  intros ue. split_and!.
  - apply (encode_no_buffer None [] None ue 7 7). by right.
  - by apply (encode_no_buffer None [] None (set_dl_count (mkUe 0 1 [] [] 5 (mkCount 0 0 0) true false) 1) 1 7).
  - by apply (encode_no_buffer None [] None ue 2 7).
Defined.

(** ** Concrete instances *)

(** A UE with 128-EEA[e] and 128-EIA[i], and a buffer that holds [m]. *)
Definition example_ue (e i : Z) : mme_ue :=
  mkUe e i (replicate 16 0x11) (replicate 16 0x22) 0x1ff (mkCount 0 1 0xfe) true false.
Definition example_buf (pre m : list Z) : buf :=
  mkBuf (mkPkbuf None 0 (Z.of_nat (length pre)) (Z.of_nat (length m)) (Z.of_nat (length m)) 0)
        (pre ++ m ++ replicate 8 0).

Lemma encode_protects_witness :
  let ue := example_ue 1 2 in
  exists b',
    nas_security_encode (Some (example_buf (replicate 20 0) [7; 0x5d; 1; 2; 3])) [] None ue 2 7 =
      mkEncoded true (Some b') (set_available (set_dl_count ue ((0x1ff + 1) mod 2 ^ 24))) /\
    payload_bytes b' =
      protected 1 2 (replicate 16 0x11) (replicate 16 0x22) 0x1ff
        NAS_SECURITY_DOWNLINK_DIRECTION true 0x27 [7; 0x5d; 1; 2; 3].
Proof.
  apply (encode_protects (example_ue 1 2) 2 7 _ (replicate 20 0) [7; 0x5d; 1; 2; 3] (replicate 8 0));
    [repeat split|by_decide|done|simpl; lia|simpl; lia|done|lia|by_decide|by_decide].
Defined.

Lemma decode_accepts_witness :
  let ue := example_ue 3 1 in
  let m := [7; 0x5e; 9] in
  let n := 0x201 in
  let body := nas_cipher 3 (knas_enc ue) n 0 0 m in
  let mac := nas_mac 1 (knas_int ue) n 0 0 (1 :: body) in
  let pre := replicate 4 0 ++ 0x27 :: mac ++ [1] in
  exists b' c',
    nas_security_decode ue (mkHeaderType true true false false) [] (example_buf pre body) =
      (true, b', set_ul_count ue c') /\ i32 c' = n /\ payload_bytes b' = m.
Proof.
  intros ue m n body mac pre.
  apply (decode_accepts ue _ [] _ (replicate 4 0) 0x27 mac 1 body (replicate 8 0) m n);
    by_decide || done.
Defined.

Lemma decode_flags_forgery_witness :
  let ue := example_ue 0 2 in
  let '(ok, _, ue') := nas_security_decode ue (mkHeaderType true false false false) []
    (example_buf (replicate 4 0 ++ [0x17; 1; 2; 3; 4; 0xff]) [7; 1]) in
  ok = true /\
  (mac_failed ue' = true <->
   mac_failed ue = true \/
   [1; 2; 3; 4] <> nas_mac 2 (knas_int ue) (i32 (rx_count (mkHeaderType true false false false) ue 0xff))
            NAS_SECURITY_BEARER NAS_SECURITY_UPLINK_DIRECTION [0xff; 7; 1]).
Proof.
  apply (decode_flags_forgery (example_ue 0 2) (mkHeaderType true false false false) [] _
           (replicate 4 0) 0x17 [1; 2; 3; 4] 0xff [7; 1] (replicate 8 0)); by_decide || done.
Defined.

End NasSecuritySpec.
