(* ===== verification/NasProtection.v ===== *)
(** The NAS codec and the NAS security layer together: a message is encoded and
    protected on its way out, checked, deciphered and decoded on its way in. *)

From S2P Require Import Prelude Pkbuf NasIes NasIesSpec NasMessage NasMessageSpec NasTables NasDecoder NasEncoder NasCodecs NasCodecSpec NasSecurity NasSecuritySpec.

Module NasProtection.
Import Pkbuf NasIes NasIesSpec NasMessage NasMessageSpec NasTables NasDecoder NasEncoder NasCodecs NasCodecSpec NasSecurity NasSecuritySpec.
#[local] Open Scope Z_scope.

(** The message of an element list with its header, as it is put into packets. *)
Definition plain (c : codec) (h : list Z) (m : body) : list Z := h ++ mc_wire c m.

Lemma plain_bytes c h m alloc pre old post b rest :
  view alloc pre old post -> bytes (mem alloc) -> bytes (plain c h m) -> rest = drop (length (plain c h m)) old ->
  view b pre (plain c h m) (rest ++ post) -> bytes (mem b).
Proof.
  intros (E & _) Hb Hp -> (-> & _). rewrite E in Hb.
  apply Forall_app in Hb as [H1 [H2 H3]%Forall_app].
  apply Forall_app. split; [done|]. apply Forall_app. split; [done|]. apply Forall_app. split; [|done].
  by apply Forall_drop.
Qed.

Lemma emm_protected_known ue sht pd t c h m alloc pre old post mac0 pkbuf :
  switch nas_emm_encoders t = Some (Some (mc_encode c)) -> length h = 2%nat -> protocol_discriminator h = NAS_PROTOCOL_DISCRIMINATOR_EMM ->
  emm_message_type h = t -> security_header_type h < NAS_SECURITY_HEADER_FOR_SERVICE_REQUEST_MESSAGE ->
  mc_wf c m -> view alloc pre old post -> fits h (mc_wire c m) old ->
  bytes (mem alloc) -> bytes (plain c h m) -> (14 <= length pre)%nat ->
  (length (plain c h m) + 3 <= length old + length post)%nat ->
  1 <= sht <= 4 -> known (selected_int_algorithm ue) ->
  selected_enc_algorithm ue = 0 \/ known (selected_enc_algorithm ue) ->
  let new := bool_decide (3 <= sht) in
  let ci := bool_decide (sht = 2 \/ sht = 4) && negb (bool_decide (selected_enc_algorithm ue = 0)) in
  let ue1 := if new then set_ul_count (set_dl_count ue 0) (mkCount 0 0 0) else ue in
  exists b m' b',
    nas_plain_encode None (Some alloc) (mkMessage h m) = Some (true, Some b, mkMessage h m') /\
    nas_security_encode (Some b) mac0 pkbuf ue sht pd =
      mkEncoded true (Some b') (set_available (set_dl_count ue1 ((dl_count ue1 + 1) mod 2 ^ 24))) /\
    payload_bytes b' =
      protected (selected_enc_algorithm ue) (selected_int_algorithm ue) (knas_enc ue) (knas_int ue)
        (dl_count ue1) NAS_SECURITY_DOWNLINK_DIRECTION ci ((sht << 4) .| pd) (plain c h m).
Proof.
  intros Hin Hl Hpd Ht Hs Hwf Hv Hf Hb Hp Hpre Hpost Hsht Hint Henc new ci ue1.
  destruct (emm_encode_known t c h m alloc pre old post Hin Hl Ht Hs Hwf Hv Hf) as (b & m' & E & Hb').
  destruct Hf as (Hh & Hn & _). fold (plain c h m) in Hb'.
  destruct (encode_view ue sht pd b pre (plain c h m) _ mac0 pkbuf Hb') as (b' & pre' & post' & E' & Hv'); try done.
  - eapply plain_bytes; [exact Hv|done|done|reflexivity|]. unfold plain at 2. rewrite length_app. exact Hb'.
  - by destruct h.
  - unfold plain in Hpost. rewrite !length_app, length_drop in *. lia.
  - unfold plain. rewrite length_app. lia.
  - exists b, m', b'. split_and!; [|exact E'|exact (view_payload _ _ _ _ Hv')].
    unfold nas_plain_encode. cbn [hdr]. by rewrite decide_True.
Qed.

(** C4: What the MME sends when it protects an EMM message, with [nas_plain_encode] and
    [nas_security_encode] put together: whatever the message of [emm_codecs], the
    security header type and the algorithms, the packet holds the security header,
    the code, the sequence number and the octets of the header and the elements,
    ciphered where the type asks for it, under the current downlink count, which
    goes up by one. *)
Theorem nas_emm_protected ue sht pd t c h m alloc pre old post mac0 pkbuf :
  (t, c) ∈ emm_codecs -> length h = 2%nat -> protocol_discriminator h = NAS_PROTOCOL_DISCRIMINATOR_EMM ->
  emm_message_type h = t -> security_header_type h < NAS_SECURITY_HEADER_FOR_SERVICE_REQUEST_MESSAGE ->
  mc_wf c m -> view alloc pre old post -> fits h (mc_wire c m) old ->
  bytes (mem alloc) -> bytes (plain c h m) -> (14 <= length pre)%nat ->
  (length (plain c h m) + 3 <= length old + length post)%nat ->
  1 <= sht <= 4 -> known (selected_int_algorithm ue) ->
  selected_enc_algorithm ue = 0 \/ known (selected_enc_algorithm ue) ->
  let new := bool_decide (3 <= sht) in
  let ci := bool_decide (sht = 2 \/ sht = 4) && negb (bool_decide (selected_enc_algorithm ue = 0)) in
  let ue1 := if new then set_ul_count (set_dl_count ue 0) (mkCount 0 0 0) else ue in
  exists b m' b',
    nas_plain_encode None (Some alloc) (mkMessage h m) = Some (true, Some b, mkMessage h m') /\
    nas_security_encode (Some b) mac0 pkbuf ue sht pd =
      mkEncoded true (Some b') (set_available (set_dl_count ue1 ((dl_count ue1 + 1) mod 2 ^ 24))) /\
    payload_bytes b' =
      protected (selected_enc_algorithm ue) (selected_int_algorithm ue) (knas_enc ue) (knas_int ue)
        (dl_count ue1) NAS_SECURITY_DOWNLINK_DIRECTION ci ((sht << 4) .| pd) (plain c h m).
Proof. intros [Hle _]%emm_known. by apply (emm_protected_known ue sht pd t). Qed.


(** ** Examples *)

Lemma sample_guti_ok : mc_wf guti_reallocation_command_codec sample_guti.
Proof.
  split; repeat constructor.
  - eexists. split; [vm_compute; reflexivity|]. by_element.
  - intros _. eexists. split; [vm_compute; reflexivity|]. by_element.
Qed.

Lemma nas_emm_protected_witness :
  let ue := example_ue 1 2 in
  exists b m' b',
    nas_plain_encode None (Some sample_packet) (mkMessage [0x07; 0x50] sample_guti) =
      Some (true, Some b, mkMessage [0x07; 0x50] m') /\
    nas_security_encode (Some b) [] None ue 2 7 =
      mkEncoded true (Some b') (set_available (set_dl_count ue ((0x1ff + 1) mod 2 ^ 24))) /\
    payload_bytes b' =
      protected 1 2 (replicate 16 0x11) (replicate 16 0x22) 0x1ff NAS_SECURITY_DOWNLINK_DIRECTION true 0x27
        [0x07; 0x50; 11; 0xf6; 0x00; 0xf1; 0x10; 0x00; 0x02; 0x01; 0x12; 0x34; 0x56; 0x78;
         0x54; 6; 0x00; 0x00; 0xf1; 0x10; 0x30; 0x39].
Proof.
  apply (nas_emm_protected (example_ue 1 2) 2 7 NAS_GUTI_REALLOCATION_COMMAND guti_reallocation_command_codec
    [0x07; 0x50] sample_guti sample_packet _ _ _ [] None ltac:(repeat constructor) eq_refl eq_refl eq_refl eq_refl
    sample_guti_ok sample_view); [split; [done|split_and!; by_decide]|by_decide|by_decide|by_decide|by_decide|done|by_decide|by_decide].
Defined.



End NasProtection.
