(* ===== verification/Fsm.v ===== *)
(** [lib/core/src/fsm.c]: state machines whose states are event handlers. *)

From S2P Require Import Prelude.

Module Fsm.

(** The signals every machine knows, and those of the user. *)
Inductive signal (E : Type) := ENTRY | EXIT | User (e : E).
#[global] Arguments ENTRY {E}.
#[global] Arguments EXIT {E}.
#[global] Arguments User {E} e.

(** A machine in a world [W]: the field [state], and what calling a state does.  A
    handler may leave the memory of the program: no result. *)
Class Machine (St E W : Type) `{EqDecision St} := {
  fsm_state : W -> St;
  handle : St -> signal E -> W -> option W
}.

Section fsm.
Context `{Machine St E W}.

Definition fsm_dispatch (e : signal E) (w : W) : option W :=
  let tmp := fsm_state w in
  w ← handle tmp e w;
  if decide (fsm_state w <> tmp) then
    w ← handle tmp EXIT w;
    handle (fsm_state w) ENTRY w
  else Some w.

(** [initial] is a handler; [None] when the pointer is NULL. *)
Definition fsm_init (initial : option St) (e : signal E) (w : W) : option W :=
  match initial with
  | None => Some w
  | Some i =>
      w ← handle i e w;
      if decide (i <> fsm_state w) then handle (fsm_state w) ENTRY w else Some w
  end.

(** When a handler neither changes the state on [EXIT] nor on [ENTRY], a dispatch
    ends in the state the handler of the event chose. *)
Lemma dispatch_state e w w1 w2 :
  handle (fsm_state w) e w = Some w1 ->
  (forall s v v', handle s EXIT v = Some v' -> fsm_state v' = fsm_state v) ->
  (forall s v v', handle s ENTRY v = Some v' -> fsm_state v' = fsm_state v) ->
  fsm_dispatch e w = Some w2 -> fsm_state w2 = fsm_state w1.
Proof.
  intros E1 Hex Hen. unfold fsm_dispatch. rewrite E1. cbn [mbind option_bind].
  case_decide; [|by intros [= <-]].
  destruct (handle _ EXIT w1) as [w'|] eqn:Ex; [|done]. cbn [mbind option_bind].
  intros En. apply Hen in En. apply Hex in Ex. congruence.
Qed.
End fsm.

End Fsm.
