(* ===== verification/EmmContext.v ===== *)
(** The UE context of [mme/mme_context.h] as the EMM handlers see it: its state,
    the macros on it, [mme/nas_conv.c], and the operations of
    [mme/mme_context.c] on one UE. *)

From S2P Require Import Prelude Pkbuf Types3gpp Misc Hash NasIes NasSecurity.

Module EmmContext.
Import Misc Hash NasIes NasSecurity.
Export Areas.

(** ** The UE *)

(** The states of [emm_sm.c]. *)
Inductive emm_state :=
  | emm_state_initial | emm_state_final | emm_state_de_registered | emm_state_registered
  | emm_state_authentication | emm_state_security_mode | emm_state_initial_context_setup
  | emm_state_exception.
#[export] Instance emm_state_eq_dec : EqDecision emm_state.
Proof. solve_decision. Defined.

(** [nas_eps]; [data] is the octet of the union. *)
Record nas_eps_t := mkEps { type : Z; ksi : Z; data : Z }.
Definition MME_EPS_TYPE_ATTACH_REQUEST : Z := 1.
Definition MME_EPS_TYPE_TAU_REQUEST : Z := 2.
Definition MME_EPS_TYPE_SERVICE_REQUEST : Z := 3.
Definition MME_EPS_TYPE_DETACH_REQUEST_FROM_UE : Z := 4.

(** The bit fields of the octet: [attach_type] and [update_type] are the low three
    bits, [active_flag] and [switch_off] the fourth, [nas_key_set_identifier] three
    of the high ones. *)
Definition low3 (octet : Z) : Z := octet .& 7.
Definition bit3 (octet : Z) : Z := (octet >> 3) .& 1.
Definition key_set_identifier (octet : Z) : Z := (octet >> 4) .& 7.
Definition NAS_KSI_NO_KEY_IS_AVAILABLE : Z := 7.

(** [imsi]: the array; [imsi_bcd]: the string without its terminator. *)
Record identity := mkIdentity {
  imsi : list Z; imsi_len : Z; imsi_bcd : list Z; guti : guti_t; guti_present : bool }.

Record location := mkLocation { tai : tai_t; e_cgi : e_cgi_t; visited_plmn_id : list Z }.

(** What the UE can do (the octets of the two structures) and the keys. *)
Record keys := mkKeys {
  ue_network_capability : list Z; ms_network_capability : list Z;
  xres : list Z; xres_len : Z; kasme : list Z; rand : list Z;
  kenb : list Z; nhcc : Z; nh : list Z }.

(** Bearers and sessions, as far as EMM looks at them: [b_disconnecting] when the
    state machine of the bearer is in [esm_state_pdn_will_disconnect]; [s_ipv4] when
    the session has a PDN with an IPv4 address. *)
Record bearer := mkBearer { b_ebi : Z; b_enb_s1u_teid : Z; b_sgw_s1u_teid : Z; b_disconnecting : bool }.
Record sess := mkSess { s_pti : Z; s_ipv4 : bool; s_bearers : list bearer }.

Record esm := mkEsm {
  ebi : Z; sgw_s11_teid : Z; sess_list : list sess;
  pdn_connectivity_request : option (list Z) }.

(** The paging timer [t3413] is started or stopped. *)
Record paging := mkPaging { last_paging_msg : bool; t3413 : bool; max_paging_retry : Z }.
Definition MAX_NUM_OF_PAGING : Z := 2.

Record mme_ue_t := mkMmeUe {
  sm : emm_state; nas_eps : nas_eps_t; ident : identity; loc : location; key : keys;
  sec : mme_ue; ses : esm; pag : paging }.

Definition set_sm (u : mme_ue_t) (x : emm_state) : mme_ue_t :=
  mkMmeUe x (nas_eps u) (ident u) (loc u) (key u) (sec u) (ses u) (pag u).
Definition set_nas_eps (u : mme_ue_t) (x : nas_eps_t) : mme_ue_t :=
  mkMmeUe (sm u) x (ident u) (loc u) (key u) (sec u) (ses u) (pag u).
Definition set_ident (u : mme_ue_t) (x : identity) : mme_ue_t :=
  mkMmeUe (sm u) (nas_eps u) x (loc u) (key u) (sec u) (ses u) (pag u).
Definition set_loc (u : mme_ue_t) (x : location) : mme_ue_t :=
  mkMmeUe (sm u) (nas_eps u) (ident u) x (key u) (sec u) (ses u) (pag u).
Definition set_key (u : mme_ue_t) (x : keys) : mme_ue_t :=
  mkMmeUe (sm u) (nas_eps u) (ident u) (loc u) x (sec u) (ses u) (pag u).
Definition set_sec (u : mme_ue_t) (x : mme_ue) : mme_ue_t :=
  mkMmeUe (sm u) (nas_eps u) (ident u) (loc u) (key u) x (ses u) (pag u).
Definition set_ses (u : mme_ue_t) (x : esm) : mme_ue_t :=
  mkMmeUe (sm u) (nas_eps u) (ident u) (loc u) (key u) (sec u) x (pag u).
Definition set_pag (u : mme_ue_t) (x : paging) : mme_ue_t :=
  mkMmeUe (sm u) (nas_eps u) (ident u) (loc u) (key u) (sec u) (ses u) x.

(** ** The macros *)

Definition MME_UE_HAVE_IMSI (u : mme_ue_t) : bool := negb (bool_decide (imsi_len (ident u) = 0)).

Definition SECURITY_CONTEXT_IS_VALID (u : mme_ue_t) : bool :=
  security_context_available (sec u) && negb (mac_failed (sec u)) &&
  negb (bool_decide (ksi (nas_eps u) = NAS_KSI_NO_KEY_IS_AVAILABLE)).

Definition CLEAR_SECURITY_CONTEXT (u : mme_ue_t) : mme_ue_t :=
  let s := sec u in
  let u := set_sec u (NasSecurity.mkUe (selected_enc_algorithm s) (selected_int_algorithm s)
    (knas_enc s) (knas_int s) (dl_count s) (ul_count s) false false) in
  set_nas_eps u (mkEps (type (nas_eps u)) 0 (data (nas_eps u))).

Definition SESSION_CONTEXT_IS_AVAILABLE (u : mme_ue_t) : bool :=
  negb (bool_decide (sgw_s11_teid (ses u) = 0)).
Definition CLEAR_SESSION_CONTEXT (u : mme_ue_t) : mme_ue_t :=
  set_ses u (mkEsm (ebi (ses u)) 0 (sess_list (ses u)) (pdn_connectivity_request (ses u))).

Definition MIN_EPS_BEARER_ID : Z := 5.
Definition CLEAR_EPS_BEARER_ID (u : mme_ue_t) : mme_ue_t :=
  set_ses u (mkEsm (MIN_EPS_BEARER_ID - 1) (sgw_s11_teid (ses u)) (sess_list (ses u))
               (pdn_connectivity_request (ses u))).

Definition CLEAR_PAGING_INFO (u : mme_ue_t) : mme_ue_t := set_pag u (mkPaging false false 0).

(** [mme_bearer_is_inactive]: no bearer has a tunnel to the eNB. *)
Definition mme_bearer_is_inactive (u : mme_ue_t) : bool :=
  forallb (fun s => forallb (fun b => bool_decide (b_enb_s1u_teid b = 0)) (s_bearers s))
          (sess_list (ses u)).
Definition BEARER_CONTEXT_IS_ACTIVE (u : mme_ue_t) : bool := negb (mme_bearer_is_inactive u).

(** A session has a tunnel to the SGW when its first bearer has one. *)
Definition MME_HAVE_SGW_S1U_PATH (s : sess) : bool :=
  match s_bearers s with
  | b :: _ => negb (bool_decide (b_sgw_s1u_teid b = 0))
  | [] => false
  end.

(** ** [nas_conv.c] *)

Definition MAX_IMSI_BCD_LEN : nat := 15.
Definition MAX_IMSI_LEN : nat := 8.

Definition NAS_EPS_MOBILE_IDENTITY_IMSI : Z := 1.
Definition NAS_EPS_MOBILE_IDENTITY_GUTI : Z := 6.
Definition NAS_IDENTITY_TYPE_2_IMSI : Z := 1.

(** The fields of [nas_mobile_identity_imsi_t]: the digits are in the high half of
    the first octet and in the halves of the seven others, the low one first. *)
Definition imsi_type (l : list Z) : Z := rd l 0 .& 7.
Definition odd_even (l : list Z) : Z := (rd l 0 >> 3) .& 1.
Definition imsi_digits (l : list Z) : list Z :=
  (rd l 0 >> 4) :: concat (map (fun o => [o .& 0xf; o >> 4]) (take 7 (drop 1 l))).

(** The character at an index; no result outside of the array. *)
Definition char_at (bcd : list Z) (i : Z) : option Z :=
  if decide (0 <= i) then bcd !! Z.to_nat i else None.

(** The array [bcd] after the call.  [bcd_len] comes from the message: there is no
    result when the terminator is stored outside of the array. *)
Definition nas_imsi_to_bcd (l : list Z) (len : Z) (bcd : list Z) : option (list Z) :=
  bcd ← store bcd 0 (map (fun d => 0x30 + d) (imsi_digits l));
  let bcd_len := len * 2 - 1 in
  bcd_len ← (if decide (odd_even l = 0)
             then _ ← char_at bcd bcd_len; Some (bcd_len - 1) else Some bcd_len);
  if decide (0 <= bcd_len) then store bcd (Z.to_nat bcd_len) [0] else None.

(** The string in an array, as far as its terminator. *)
Definition string_of (bcd : list Z) : list Z := cstring bcd.

(** ** The state the handlers work on *)

(** What an eNB said about the UE: [mme_ue->enb_ue] where it is not NULL. *)
Record enb_ue_t := mkEnbUe { nas_tai : tai_t; nas_e_cgi : e_cgi_t; ue_ctx_rel_action : Z }.

(** What leaves EMM: messages to the eNB (the octets of the NAS message, the key
    K_eNB of an initial context), to the HSS (the identity, the serving network and
    RAND || AUTS), to the SGW and to ESM. *)
Inductive output :=
  | DownlinkNasTransport (nas : list Z)
  | InitialContextSetupRequest (kenb : list Z) (nas : option (list Z))
  | UeContextReleaseCommand (cause_nas action delay : Z)
  | AuthenticationInformationRequest (imsi_bcd visited_plmn_id : list Z) (resync : option (list Z))
  | UpdateLocationRequest (imsi_bcd visited_plmn_id : list Z)
  | DeleteSessionRequest (ebi : Z)
  | ReleaseAccessBearersRequest
  | EsmMessage (esm : list Z)
  | Paging
  | UeOffline.

(** The UE at [ix], its eNB context, the table of the IMSIs with the arrays of
    the other UEs, and what has been sent, last first. *)
Record st := mkSt {
  ix : nat; ue : mme_ue_t; enb_ue : option enb_ue_t;
  imsi_ue_hash : hash_t nat nat; others : nat -> list Z; out : list output }.

Definition set_ue (s : st) (u : mme_ue_t) : st :=
  mkSt (ix s) u (enb_ue s) (imsi_ue_hash s) (others s) (out s).
Definition set_enb_ue (s : st) (e : option enb_ue_t) : st :=
  mkSt (ix s) (ue s) e (imsi_ue_hash s) (others s) (out s).
Definition set_hash (s : st) (h : hash_t nat nat) : st :=
  mkSt (ix s) (ue s) (enb_ue s) h (others s) (out s).
Definition send (s : st) (o : output) : st :=
  mkSt (ix s) (ue s) (enb_ue s) (imsi_ue_hash s) (others s) (o :: out s).

(** The keys of the table are the arrays [imsi] of the UEs. *)
Definition imsis (s : st) : memory nat := fun k =>
  if decide (k = ix s) then imsi (ident (ue s)) else others s k.

(** [mme_ue_set_imsi] on the array [imsi_bcd]. *)
Definition mme_ue_set_imsi (s : st) (bcd : list Z) : st :=
  let i := ident (ue s) in
  let str := take MAX_IMSI_BCD_LEN (string_of bcd) in
  let '(imsi, imsi_len) := core_bcd_to_buffer str (imsi i) in
  let s := set_ue s (set_ident (ue s) (mkIdentity imsi imsi_len str (guti i) (guti_present i))) in
  let s := set_hash s (hash_set (imsis s) (imsi_ue_hash s) (ix s) imsi_len (Some (ix s))) in
  set_ue s (set_ident (ue s) (mkIdentity imsi imsi_len str (guti i) true)).

(** ** Served tracking areas *)

Definition MAX_NUM_OF_TAI : Z := 16.
Definition MAX_NUM_OF_SERVED_TAI : Z := 16.
Definition TAI0_TYPE : Z := 0.
Definition TAI1_TYPE : Z := 1.
Definition TAI2_TYPE : Z := 2.

(** [tai0_list_t] is a list of these, the first with [num] zero ends it. *)
Record tai0 := mkTai0 { t0_type : Z; t0_num : Z; t0_plmn_id : list Z; t0_tac : list Z }.
Record tai2_list := mkTai2 { t2_type : Z; t2_num : Z; t2_tai : list tai_t }.
Record served := mkServed { list0 : list tai0; list2 : tai2_list }.

Inductive search := Found | Failed | Next.

Fixpoint search_list0 (l : list tai0) (t : tai_t) : search :=
  match l with
  | [] => Next
  | x :: l =>
      if decide (t0_num x = 0) then Next
      else if decide (t0_type x <> TAI0_TYPE) then Failed
      else if decide (MAX_NUM_OF_TAI <= t0_num x) then Failed
      else if decide (t0_plmn_id x = plmn_id t /\ tac t ∈ take (Z.to_nat (t0_num x)) (t0_tac x))
      then Found else search_list0 l t
  end.

Definition search_list2 (l : tai2_list) (t : tai_t) : search :=
  if decide (t2_num l = 0) then Next
  else if decide (~ (t2_type l = TAI1_TYPE \/ t2_type l = TAI2_TYPE)) then Failed
  else if decide (MAX_NUM_OF_TAI <= t2_num l) then Failed
  else if existsb (fun x => bool_decide (plmn_id x = plmn_id t /\ tac x = tac t))
            (take (Z.to_nat (t2_num l)) (t2_tai l))
  then Found else Next.

Fixpoint find_served (l : list served) (i : Z) (t : tai_t) : Z :=
  match l with
  | [] => -1
  | x :: l =>
      match search_list0 (list0 x) t with
      | Found => i
      | Failed => -1
      | Next =>
          match search_list2 (list2 x) t with
          | Found => i
          | Failed => -1
          | Next => find_served l (i + 1) t
          end
      end
  end.
Definition mme_find_served_tai (served_tai : list served) (t : tai_t) : Z := find_served served_tai 0 t.

End EmmContext.
