(* ===== verification/EmmBuild.v ===== *)
(** [mme/emm_build.c]: the EMM messages the MME sends, from the context of the UE
    to the octets, through the codec of [NasEncoder] and the protection of
    [NasSecurity]; [nas_tai_list_build] of [lib/nas/nas_types.c] and the PDN
    connectivity reject of [mme/esm_build.c]. *)

From S2P Require Import Prelude Pkbuf NasIes NasMessage NasTables NasEncoder NasSecurity Kdf EmmContext.

Module EmmBuild.
Import Pkbuf NasIes NasMessage NasTables NasEncoder NasSecurity Kdf EmmContext.
#[local] Open Scope Z_scope.

(** ** What the functions use *)

(** The configuration, [mme_self()]: the order of preference of the algorithms and
    the names of the network (the octets of the two structures). *)
Record mme_context := mkContext {
  served_tai : list served; integrity_order : list Z; ciphering_order : list Z;
  full_name : list Z; short_name : list Z }.

(** [time_exp_t] for GMT, with the offset of the local time in seconds. *)
Record time_exp := mkTime {
  tm_year : Z; tm_mon : Z; tm_mday : Z; tm_hour : Z; tm_min : Z; tm_sec : Z; tm_gmtoff : Z }.

(** What is outside of these components: the packet that [pkbuf_alloc] gives for a
    message, uninitialised local variables, the clock, and whether the layers below
    (the S1AP encoder, the GTP transactions) take a message. *)
Record env := mkEnv {
  fresh_pkbuf : option buf; mac0 : list Z; hash_locals : locals; now : time_exp;
  accepts : output -> bool }.

(** ** Messages *)

Definition emm_message (type : Z) (m : body) : nas_message :=
  mkMessage [NAS_PROTOCOL_DISCRIMINATOR_EMM; type] m.

Definition set_st (f : string) (l : list Z) (m : body) : body := set_field m f (mkIe l None).
Definition set_container (f : string) (l : list Z) (m : body) : body :=
  set_field m f (mkIe (reverse (to_be 2 (Z.of_nat (length l)))) (Some l)).
Definition present (bit : Z) (m : body) : body := set_present m bit.

(** The status, [*emmbuf] (NULL before the call) and the UE. *)
Definition built : Type := option (bool * option buf * mme_ue_t).

Definition plain (E : env) (msg : nas_message) : option (bool * option buf) :=
  '(ok, b, _) ← nas_plain_encode None (fresh_pkbuf E) msg;
  Some (ok, b).

(** [nas_plain_encode] on a message of the UE [u]. *)
Definition build_plain (E : env) (u : mme_ue_t) (msg : nas_message) : built :=
  '(ok, b) ← plain E msg; Some (ok, b, u).

(** [nas_security_encode], which calls [nas_plain_encode] on the message. *)
Definition build_secure (E : env) (u : mme_ue_t) (sht : Z) (msg : nas_message) : built :=
  '(ok, b) ← plain E msg;
  let r := nas_security_encode (if ok : bool then b else None) (mac0 E) None (sec u) sht
             NAS_PROTOCOL_DISCRIMINATOR_EMM in
  Some (enc_ok r, enc_buf r, set_sec u (enc_ue r)).

Definition PLAIN : Z := 0.
Definition INTEGRITY_PROTECTED_AND_CIPHERED : Z := 2.
Definition INTEGRITY_PROTECTED_AND_NEW_SECURITY_CONTEXT : Z := 3.

(** ** [nas_tai_list_build] *)

Definition NAS_MAX_TAI_LIST_LEN : Z := 96.

Definition tai0_octets (x : tai0) : list Z :=
  ((t0_type x << 5) .| (t0_num x - 1)) :: t0_plmn_id x ++
    concat (map (to_be 2) (take (Z.to_nat (t0_num x)) (t0_tac x))).
Definition tai2_octets (l : tai2_list) : list Z :=
  ((t2_type l << 5) .| (t2_num l - 1)) ::
    concat (map (fun t => plmn_id t ++ to_be 2 (tac t)) (take (Z.to_nat (t2_num l)) (t2_tai l))).

(** The octets of the list so far, and whether the loop came to its end. *)
Fixpoint build_list0 (l : list tai0) (acc : list Z) : list Z * bool :=
  match l with
  | [] => (acc, true)
  | x :: l =>
      if decide (t0_num x = 0) then (acc, true)
      else if decide (t0_type x <> TAI0_TYPE) then (acc, false)
      else if decide (MAX_NUM_OF_TAI <= t0_num x) then (acc, false)
      else if decide (NAS_MAX_TAI_LIST_LEN < Z.of_nat (length acc) + (1 + 3 + 2 * t0_num x))
      then (acc, false)
      else build_list0 l (acc ++ tai0_octets x)
  end.

Definition tai_list_octets (s : served) : list Z :=
  let '(acc, go) := build_list0 (list0 s) [] in
  let l := list2 s in
  if negb go then acc
  else if decide (t2_num l = 0) then acc
  else if decide (~ (t2_type l = TAI1_TYPE \/ t2_type l = TAI2_TYPE)) then acc
  else if decide (MAX_NUM_OF_TAI <= t2_num l) then acc
  else if decide (NAS_MAX_TAI_LIST_LEN < Z.of_nat (length acc) + (1 + (3 + 2) * t2_num l)) then acc
  else acc ++ tai2_octets l.

(** The structure [nas_tracking_area_identity_list_t]. *)
Definition nas_tai_list_build (s : served) : list Z :=
  let l := tai_list_octets s in
  Z.of_nat (length l) :: l ++ replicate (96 - length l) 0.

(** ** The messages *)

(** [unit] in the high three bits, [value] in the low five. *)
Definition gprs_timer (unit value : Z) : list Z := [(unit << 5) .| value].
Definition NAS_GRPS_TIMER_UNIT_MULTIPLES_OF_DECI_HH : Z := 2.
Definition T3412 : list Z := gprs_timer NAS_GRPS_TIMER_UNIT_MULTIPLES_OF_DECI_HH 9.
Definition NETWORK_FEATURES : list Z := [2; 0; 0].

Definition guti_octets (g : guti_t) : list Z :=
  11 :: NAS_EPS_MOBILE_IDENTITY_GUTI :: guti_plmn_id g ++ reverse (to_be 2 (mme_gid g)) ++
    mme_code g :: reverse (to_be 4 (m_tmsi g)).

(** The index a search for a served tracking area gives, where it is in range. *)
Definition served_at (self : mme_context) (t : tai_t) : option served :=
  let i := mme_find_served_tai (served_tai self) t in
  if decide (0 <= i < MAX_NUM_OF_SERVED_TAI) then served_tai self !! Z.to_nat i else None.

Definition emm_build_attach_accept (E : env) (self : mme_context) (u : mme_ue_t) (esmbuf : list Z) : built :=
  match served_at self (tai (loc u)) with
  | None => Some (false, None, u)
  | Some s =>
      let m := zero_body nas_attach_accept_t in
      let m := set_st "eps_attach_result" [low3 (data (nas_eps u))] m in
      let m := set_st "t3412_value" T3412 m in
      let m := set_st "tai_list" (nas_tai_list_build s) m in
      let m := set_container "esm_message_container" esmbuf m in
      let i := ident u in
      let m := if guti_present i
               then set_st "guti" (guti_octets (guti i)) (present 0x1 m) else m in
      let u := set_ident u (mkIdentity (imsi i) (imsi_len i) (imsi_bcd i) (guti i) false) in
      let m := set_st "t3423_value" T3412 (present 0x20 m) in
      let m := set_st "eps_network_feature_support" NETWORK_FEATURES (present 0x100 m) in
      '(_, b, u) ← build_secure E u INTEGRITY_PROTECTED_AND_CIPHERED (emm_message NAS_ATTACH_ACCEPT m);
      Some (true, b, u)
  end.

Definition emm_build_attach_reject (E : env) (u : mme_ue_t) (emm_cause : Z) (esmbuf : option (list Z)) : built :=
  let m := set_st "emm_cause" [emm_cause] (zero_body nas_attach_reject_t) in
  let m := match esmbuf with
           | Some l => set_container "esm_message_container" l (present 0x1 m)
           | None => m
           end in
  build_plain E u (emm_message NAS_ATTACH_REJECT m).

Definition emm_build_identity_request (E : env) (u : mme_ue_t) : built :=
  let m := set_st "identity_type" [NAS_IDENTITY_TYPE_2_IMSI] (zero_body nas_identity_request_t) in
  build_plain E u (emm_message NAS_IDENTITY_REQUEST m).

Definition AUTN_LEN : Z := 16.

Definition emm_build_authentication_request (E : env) (u : mme_ue_t) (rand autn : list Z) : built :=
  let m := zero_body nas_authentication_request_t in
  let m := set_st "authentication_parameter_rand" rand m in
  let m := set_st "authentication_parameter_autn" (AUTN_LEN :: autn) m in
  build_plain E u (emm_message NAS_AUTHENTICATION_REQUEST m).

Definition emm_build_authentication_reject (E : env) (u : mme_ue_t) : built :=
  build_plain E u (emm_message NAS_AUTHENTICATION_REJECT (zero_body [])).

(** The first algorithm of the MME's order that the octet [capability] has. *)
Definition select_algorithm (order : list Z) (capability old : Z) : Z :=
  match List.find (fun a => negb (bool_decide (capability .& (0x80 >> a) = 0))) order with
  | Some a => a
  | None => old
  end.

(** Octets of the capability structures: [eea], [eia], [uea] and [uia]; [gea1] and
    [extended_gea]. *)
Definition eea (l : list Z) : Z := rd l 1.
Definition eia (l : list Z) : Z := rd l 2.
Definition uea (l : list Z) : Z := rd l 3.
Definition uia (l : list Z) : Z := rd l 4.
Definition gea (l : list Z) : Z := ((rd l 1 >> 7) << 6) .| ((rd l 2 >> 1) .& 0x3f).

(** [nas_ue_security_capability_t] *)
Definition replayed_capabilities (ue_cap ms_cap : list Z) : list Z :=
  let ua := uia ue_cap .& 0x7f in
  let g := gea ms_cap in
  let len := 2 in
  let len := if decide (uea ue_cap <> 0 \/ ua <> 0) then 4 else len in
  let len := if decide (g <> 0) then 5 else len in
  [len; eea ue_cap; eia ue_cap; uea ue_cap; ua; g].

Definition MME_KDF_NAS_ENC_ALG : Z := 1.
Definition MME_KDF_NAS_INT_ALG : Z := 2.

Definition emm_build_security_mode_command (E : env) (self : mme_context) (u : mme_ue_t) : built :=
  let k := key u in
  let s := sec u in
  let int := select_algorithm (integrity_order self) (eia (ue_network_capability k))
               (selected_int_algorithm s) in
  let enc := select_algorithm (ciphering_order self) (eea (ue_network_capability k))
               (selected_enc_algorithm s) in
  let m := zero_body nas_security_mode_command_t in
  let m := set_st "selected_nas_security_algorithms" [(enc << 4) .| int] m in
  let m := set_st "nas_key_set_identifier" [0] m in
  let m := set_st "replayed_ue_security_capabilities"
             (replayed_capabilities (ue_network_capability k) (ms_network_capability k)) m in
  let knas_int := mme_kdf_nas (hash_locals E) MME_KDF_NAS_INT_ALG int (kasme k) (knas_int s) in
  let knas_enc := mme_kdf_nas (hash_locals E) MME_KDF_NAS_ENC_ALG enc (kasme k) (knas_enc s) in
  let u := set_sec u (NasSecurity.mkUe enc int knas_enc knas_int (dl_count s) (ul_count s)
                        (security_context_available s) (mac_failed s)) in
  '(ok, b, u) ← build_secure E u INTEGRITY_PROTECTED_AND_NEW_SECURITY_CONTEXT
                  (emm_message NAS_SECURITY_MODE_COMMAND m);
  Some (ok && bool_decide (b <> None), b, u).

Definition emm_build_detach_accept (E : env) (u : mme_ue_t) : built :=
  build_secure E u INTEGRITY_PROTECTED_AND_CIPHERED
    (emm_message NAS_DETACH_ACCEPT (zero_body [])).

(** The bits [ebi5], [ebi6], [ebi7] are the high three of the first octet, [ebi8] to
    [ebi15] the second one, [ebi15] the most significant. *)
Definition set_ebi (l : list Z) (b : bearer) : list Z :=
  let i := b_ebi b in
  if decide (5 <= i <= 7) then <[1%nat := rd l 1 .| (1 << i)]> l
  else if decide (8 <= i <= 15) then <[2%nat := rd l 2 .| (1 << (i - 8))]> l
  else l.
Definition eps_bearer_context_status (u : mme_ue_t) : list Z :=
  foldl (fun l s => foldl set_ebi l (s_bearers s)) [2; 0; 0] (sess_list (ses u)).

Definition emm_build_tau_accept (E : env) (self : mme_context) (u : mme_ue_t) : built :=
  match served_at self (tai (loc u)) with
  | None => Some (false, None, u)
  | Some s =>
      let m := zero_body nas_tracking_area_update_accept_t in
      let m := set_st "eps_update_result" [low3 (data (nas_eps u))] m in
      let m := set_st "t3412_value" T3412 (present 0x1 m) in
      let m := set_st "tai_list" (nas_tai_list_build s) (present 0x4 m) in
      let m := set_st "eps_bearer_context_status" (eps_bearer_context_status u) (present 0x8 m) in
      let m := set_st "t3423_value" T3412 (present 0x100 m) in
      let m := set_st "eps_network_feature_support" NETWORK_FEATURES (present 0x800 m) in
      '(_, b, u) ← build_secure E u INTEGRITY_PROTECTED_AND_CIPHERED
                     (emm_message NAS_TRACKING_AREA_UPDATE_ACCEPT m);
      Some (true, b, u)
  end.

Definition emm_build_tau_reject (E : env) (emm_cause : Z) (u : mme_ue_t) : built :=
  let m := set_st "emm_cause" [emm_cause] (zero_body nas_tracking_area_update_reject_t) in
  '(_, b, u) ← build_plain E u (emm_message NAS_TRACKING_AREA_UPDATE_REJECT m);
  Some (true, b, u).

Definition emm_build_service_reject (E : env) (emm_cause : Z) (u : mme_ue_t) : built :=
  let m := set_st "emm_cause" [emm_cause] (zero_body nas_service_reject_t) in
  '(_, b, u) ← build_plain E u (emm_message NAS_SERVICE_REJECT m);
  Some (true, b, u).

(** [esm_build_pdn_connectivity_reject]: protected once the UE is registered. *)
Definition esm_build_pdn_connectivity_reject (E : env) (u : mme_ue_t) (s : sess) (esm_cause : Z) : built :=
  let m := set_st "esm_cause" [esm_cause] (zero_body nas_pdn_connectivity_reject_t) in
  let msg := mkMessage [NAS_PROTOCOL_DISCRIMINATOR_ESM; s_pti s; NAS_PDN_CONNECTIVITY_REJECT] m in
  let registered := bool_decide (sm u = emm_state_registered) in
  '(ok, b, u) ← (if registered then build_secure E u INTEGRITY_PROTECTED_AND_CIPHERED msg
                 else build_plain E u msg);
  Some (ok && bool_decide (b <> None), b, u).

End EmmBuild.
