(* ===== verification/EmmHandler.v ===== *)
(** The handlers of EMM messages: [mme/emm_handler.c], the sending functions of
    [mme/nas_path.c], [mme/mme_path.c] and [mme/s1ap_path.c] they use, and the two
    requests of [mme/mme_fd_path.c] to the HSS. *)

From S2P Require Import Prelude Pkbuf NasIes NasMessage NasTables NasSecurity Kdf EmmContext EmmBuild.

Module EmmHandler.
Import Pkbuf NasIes NasMessage NasTables NasSecurity Kdf EmmContext EmmBuild.
#[local] Open Scope Z_scope.

(** The status ([true] for [CORE_OK]) and the state; no result when the code
    leaves an object. *)
Definition handled : Type := option (bool * st).

(** ** Sending *)

(** [s1ap_build_...] and [nas_send_to_enb]: the message goes out when the UE has an
    eNB context and the encoder takes it. *)
Definition to_enb (E : env) (s : st) (o : output) : bool * st :=
  match enb_ue s with
  | None => (false, s)
  | Some _ => if accepts E o then (true, send s o) else (false, s)
  end.

Definition nas_send_to_downlink_nas_transport (E : env) (s : st) (pkbuf : option buf) : bool * st :=
  match pkbuf with
  | None => (false, s)
  | Some b => to_enb E s (DownlinkNasTransport (payload_bytes b))
  end.

Definition s1ap_send_initial_context_setup_request (E : env) (s : st) : bool * st :=
  to_enb E s (InitialContextSetupRequest (kenb (key (ue s))) None).

(** The context of the eNB takes the action before the message is built. *)
Definition s1ap_send_ue_context_release_command (E : env) (s : st) (cause action delay : Z) : bool * st :=
  match enb_ue s with
  | None => (false, s)
  | Some e =>
      let s := set_enb_ue s (Some (mkEnbUe (nas_tai e) (nas_e_cgi e) action)) in
      to_enb E s (UeContextReleaseCommand cause action delay)
  end.

Definition S1AP_CauseNas_normal_release : Z := 0.
Definition S1AP_CauseNas_detach : Z := 2.
Definition S1AP_UE_CTX_REL_S1_NORMAL_RELEASE : Z := 2.
Definition S1AP_UE_CTX_REL_UE_CONTEXT_REMOVE : Z := 3.

(** A message built for the UE, then sent in a downlink NAS transport. *)
Definition send_built (E : env) (s : st) (b : built) : handled :=
  '(ok, b, u) ← b;
  let s := set_ue s u in
  if negb ok then Some (false, s) else Some (nas_send_to_downlink_nas_transport E s b).

(** Some functions also test [*emmbuf]. *)
Definition send_checked (E : env) (s : st) (b : built) : handled :=
  '(ok, b, u) ← b;
  let s := set_ue s u in
  if negb (ok && bool_decide (b <> None)) then Some (false, s)
  else Some (nas_send_to_downlink_nas_transport E s b).

(** The ESM message of an attach reject: none without a session; no message at all
    when it cannot be built. *)
Definition esm_of_reject (E : env) (s : st) (esm_cause : Z) : option (option (option (list Z)) * st) :=
  match sess_list (ses (ue s)) with
  | [] => Some (Some None, s)
  | x :: _ =>
      '(ok, b, u) ← esm_build_pdn_connectivity_reject E (ue s) x esm_cause;
      match b, ok with
      | Some b, true => Some (Some (Some (payload_bytes b)), set_ue s u)
      | _, _ => Some (None, set_ue s u)
      end
  end.

Definition nas_send_attach_reject (E : env) (s : st) (emm_cause esm_cause : Z) : handled :=
  '(esmbuf, s) ← esm_of_reject E s esm_cause;
  match esmbuf with
  | None => Some (false, s)
  | Some esmbuf => send_checked E s (emm_build_attach_reject E (ue s) emm_cause esmbuf)
  end.

Definition nas_send_identity_request (E : env) (s : st) : handled :=
  send_checked E s (emm_build_identity_request E (ue s)).
Definition nas_send_authentication_request (E : env) (s : st) (rand autn : list Z) : handled :=
  send_checked E s (emm_build_authentication_request E (ue s) rand autn).
Definition nas_send_authentication_reject (E : env) (s : st) : handled :=
  '(ok, b, u) ← emm_build_authentication_reject E (ue s);
  let s := set_ue s u in
  if negb (ok && bool_decide (b <> None)) then Some (false, s)
  else Some (true, snd (nas_send_to_downlink_nas_transport E s b)).

Definition nas_send_detach_accept (E : env) (s : st) : handled :=
  match enb_ue s with
  | None => Some (false, s)
  | Some _ =>
      '(ok, s) ← (if decide (bit3 (data (nas_eps (ue s))) = 0)
                  then send_checked E s (emm_build_detach_accept E (ue s))
                  else Some (true, s));
      if negb ok then Some (false, s)
      else Some (s1ap_send_ue_context_release_command E s
                   S1AP_CauseNas_detach S1AP_UE_CTX_REL_S1_NORMAL_RELEASE 0)
  end.

(** The value returned is that of the building function. *)
Definition nas_send_tau_accept (E : env) (self : mme_context) (s : st) (initial_context : bool) : handled :=
  '(ok, b, u) ← emm_build_tau_accept E self (ue s);
  let s := set_ue s u in
  if negb ok then Some (false, s)
  else if initial_context
  then Some (to_enb E s (InitialContextSetupRequest (kenb (key u)) (payload_bytes <$> b)))
  else Some (nas_send_to_downlink_nas_transport E s b).

Definition nas_send_tau_reject (E : env) (s : st) (emm_cause : Z) : handled :=
  send_built E s (emm_build_tau_reject E emm_cause (ue s)).
Definition nas_send_service_reject (E : env) (s : st) (emm_cause : Z) : handled :=
  send_built E s (emm_build_service_reject E emm_cause (ue s)).

(** The message container of an EMM message goes to ESM as a message of its own. *)
Definition nas_send_emm_to_esm (s : st) (container : option (list Z)) : bool * st :=
  match container with
  | None | Some [] => (false, s)
  | Some l => (true, send s (EsmMessage l))
  end.

(** [mme_gtp_send_delete_all_sessions]: a request for each session that has a
    tunnel and is not being disconnected; sessions without one are removed. *)
Fixpoint delete_sessions (E : env) (s : st) (l keep : list sess) : bool * st * list sess :=
  match l with
  | [] => (true, s, keep)
  | x :: l =>
      match s_bearers x with
      | b :: _ =>
          if decide (b_sgw_s1u_teid b = 0) then delete_sessions E s l keep
          else if b_disconnecting b then delete_sessions E s l (keep ++ [x])
          else
            let o := DeleteSessionRequest (b_ebi b) in
            if accepts E o then delete_sessions E (send s o) l (keep ++ [x])
            else (false, s, keep ++ x :: l)
      | [] => delete_sessions E s l keep
      end
  end.
Definition mme_gtp_send_delete_all_sessions (E : env) (s : st) : bool * st :=
  let '(ok, s, keep) := delete_sessions E s (sess_list (ses (ue s))) [] in
  let e := ses (ue s) in
  let u := set_ses (ue s) (mkEsm (ebi e) (sgw_s11_teid e) keep (pdn_connectivity_request e)) in
  if ok : bool then (true, set_ue s (CLEAR_SESSION_CONTEXT u)) else (false, set_ue s u).

Definition mme_send_delete_session_or_detach (E : env) (s : st) : handled :=
  if SESSION_CONTEXT_IS_AVAILABLE (ue s) then Some (mme_gtp_send_delete_all_sessions E s)
  else nas_send_detach_accept E s.

Definition mme_send_delete_session_or_ue_context_release (E : env) (s : st) : bool * st :=
  match enb_ue s with
  | None => (false, s)
  | Some _ =>
      if SESSION_CONTEXT_IS_AVAILABLE (ue s) then mme_gtp_send_delete_all_sessions E s
      else s1ap_send_ue_context_release_command E s
             S1AP_CauseNas_normal_release S1AP_UE_CTX_REL_UE_CONTEXT_REMOVE 0
  end.

Definition mme_send_release_access_bearer_or_ue_context_release (E : env) (s : st) : bool * st :=
  match enb_ue s with
  | None => (false, s)
  | Some _ =>
      if BEARER_CONTEXT_IS_ACTIVE (ue s) then
        if accepts E ReleaseAccessBearersRequest
        then (true, send s ReleaseAccessBearersRequest) else (false, s)
      else s1ap_send_ue_context_release_command E s
             S1AP_CauseNas_normal_release S1AP_UE_CTX_REL_S1_NORMAL_RELEASE 0
  end.

(** The security context is cleared before the request is built; [auts] is that of an
    authentication failure. *)
Definition mme_s6a_send_air (s : st) (auts : option (list Z)) : st :=
  let s := set_ue s (CLEAR_SECURITY_CONTEXT (ue s)) in
  let u := ue s in
  send s (AuthenticationInformationRequest (imsi_bcd (ident u)) (visited_plmn_id (loc u))
            ((fun l => rand (key u) ++ l) <$> auts)).
Definition mme_s6a_send_ulr (s : st) : st :=
  send s (UpdateLocationRequest (imsi_bcd (ident (ue s))) (visited_plmn_id (loc (ue s)))).

(** [send_ue_offline_to_mgmt_agent] *)
Definition send_ue_offline_to_mgmt_agent (s : st) : st :=
  if decide (0 < imsi_len (ident (ue s)) /\ enb_ue s <> None /\
             existsb s_ipv4 (sess_list (ses (ue s))) = true)
  then send s UeOffline else s.

(** ** Handlers *)

(** K_eNB from K_ASME and the uplink count, and the first NH from it. *)
Definition derive_kenb (E : env) (u : mme_ue_t) : mme_ue_t :=
  let k := key u in
  let kenb' := mme_kdf_enb (hash_locals E) (kasme k) (i32 (ul_count (sec u))) (kenb k) in
  let nh' := mme_kdf_nh (hash_locals E) (kasme k) kenb' (nh k) in
  set_key u (mkKeys (ue_network_capability k) (ms_network_capability k) (xres k) (xres_len k)
               (kasme k) (rand k) kenb' 1 nh').
Definition update_kenb (E : env) (u : mme_ue_t) : mme_ue_t :=
  if SECURITY_CONTEXT_IS_VALID u then derive_kenb E u else u.

Definition set_capabilities (u : mme_ue_t) (ue_cap ms_cap : list Z) : mme_ue_t :=
  let k := key u in
  set_key u (mkKeys ue_cap ms_cap (xres k) (xres_len k) (kasme k) (rand k) (kenb k) (nhcc k) (nh k)).

(** The octets of a field of a message, and what the pointer of a container points
    to, with its length. *)
Definition field (m : body) (f : string) : list Z :=
  match fields m !! f with Some v => NasIes.st v | None => [] end.
Definition container (m : body) (f : string) : option (list Z) :=
  v ← fields m !! f;
  l ← buffer v;
  Some (take (Z.to_nat (le_value 2 (NasIes.st v))) l).

(** The two presence bits and the octets the attach and TAU requests share. *)
Definition visited (m : body) (bit : Z) (plmn : list Z) : list Z :=
  if decide (presencemask m .& bit <> 0) then take 3 (field m "last_visited_registered_tai") else plmn.
Definition if_present (m : body) (bit : Z) (f : string) (old : list Z) : list Z :=
  if decide (presencemask m .& bit <> 0) then field m f else old.

(** The identity of type IMSI in the structure [l], whose first octet is its length. *)
Definition set_imsi_from (s : st) (l : list Z) : option st :=
  bcd ← nas_imsi_to_bcd (drop 1 l) (rd l 0) (replicate 16 0);
  Some (mme_ue_set_imsi s bcd).

Definition EMM_CAUSE_TRACKING_AREA_NOT_ALLOWED : Z := 12.
Definition ESM_CAUSE_PROTOCOL_ERROR_UNSPECIFIED : Z := 111.

Definition emm_handle_attach_request (E : env) (self : mme_context) (s : st) (m : body) : handled :=
  match enb_ue s with
  | None => Some (false, s)
  | Some e =>
      if decide (le_value 2 (field m "esm_message_container") = 0) then Some (false, s)
      else
        let octet := rd (field m "eps_attach_type") 0 in
        let u := set_nas_eps (ue s)
                   (mkEps MME_EPS_TYPE_ATTACH_REQUEST (key_set_identifier octet) octet) in
        let u := CLEAR_PAGING_INFO (CLEAR_EPS_BEARER_ID u) in
        let u := update_kenb E u in
        let u := set_loc u (mkLocation (nas_tai e) (nas_e_cgi e) (visited_plmn_id (loc u))) in
        let s := set_ue s u in
        if decide (mme_find_served_tai (served_tai self) (nas_tai e) < 0) then
          '(_, s) ← nas_send_attach_reject E s EMM_CAUSE_TRACKING_AREA_NOT_ALLOWED
                      ESM_CAUSE_PROTOCOL_ERROR_UNSPECIFIED;
          Some (false, s)
        else
          let u := set_loc u (mkLocation (nas_tai e) (nas_e_cgi e)
                                (visited m 0x4 (plmn_id (nas_tai e)))) in
          let u := set_capabilities u (field m "ue_network_capability")
                     (if_present m 0x10 "ms_network_capability" (ms_network_capability (key u))) in
          let s := set_ue s u in
          let id := field m "eps_mobile_identity" in
          s ← (if decide (imsi_type (drop 1 id) = NAS_EPS_MOBILE_IDENTITY_IMSI)
               then set_imsi_from s id else Some s);
          let x := ses (ue s) in
          let x := mkEsm (ebi x) (sgw_s11_teid x) (sess_list x) (container m "esm_message_container") in
          Some (true, set_ue s (set_ses (ue s) x))
  end.

Definition NAS_TIME_TO_BCD (x : Z) : Z := (((x mod 10) << 4) .& 0xf0) .| ((x / 10) .& 0x0f).

Definition timezone (gmtoff : Z) : Z :=
  if decide (0 <= gmtoff) then NAS_TIME_TO_BCD (gmtoff / 900)
  else NAS_TIME_TO_BCD (- gmtoff / 900) .| 0x08.

Definition time_octets (t : time_exp) : list Z :=
  map NAS_TIME_TO_BCD [tm_year t mod 100; tm_mon t + 1; tm_mday t; tm_hour t; tm_min t; tm_sec t]
  ++ [timezone (tm_gmtoff t)].

Definition emm_information (self : mme_context) (t : time_exp) : body :=
  let m := zero_body nas_emm_information_t in
  let m := set_st "universal_time_and_local_time_zone" (time_octets t) (present 0x8 m) in
  let m := set_st "network_daylight_saving_time" [1; 0] (present 0x10 m) in
  let m := if decide (rd (full_name self) 0 <> 0)
           then set_st "full_name_for_network" (full_name self) (present 0x1 m) else m in
  if decide (rd (short_name self) 0 <> 0)
  then set_st "short_name_for_network" (short_name self) (present 0x2 m) else m.

Definition emm_handle_attach_complete (E : env) (self : mme_context) (s : st) (m : body) : handled :=
  let '(ok, s) := nas_send_emm_to_esm s (container m "esm_message_container") in
  if negb ok then Some (false, s)
  else
    '(ok, b, u) ← build_secure E (ue s) INTEGRITY_PROTECTED_AND_CIPHERED
                    (emm_message NAS_EMM_INFORMATION (emm_information self (now E)));
    let s := set_ue s u in
    if negb (ok && bool_decide (b <> None)) then Some (false, s)
    else Some (true, snd (nas_send_to_downlink_nas_transport E s b)).

Definition emm_handle_identity_response (s : st) (m : body) : handled :=
  match enb_ue s with
  | None => Some (false, s)
  | Some _ =>
      let id := field m "mobile_identity" in
      if decide (imsi_type (drop 1 id) = NAS_IDENTITY_TYPE_2_IMSI) then
        s ← set_imsi_from s id;
        Some (MME_UE_HAVE_IMSI (ue s), s)
      else Some (true, s)
  end.

Definition emm_handle_detach_request (s : st) (m : body) : handled :=
  let octet := rd (field m "detach_type") 0 in
  Some (true, set_ue s (set_nas_eps (ue s)
    (mkEps MME_EPS_TYPE_DETACH_REQUEST_FROM_UE (key_set_identifier octet) octet))).

(** The key set identifier of a service request is in the high three bits. *)
Definition emm_handle_service_request (E : env) (s : st) (m : body) : handled :=
  let ksi := rd (field m "ksi_and_sequence_number") 0 >> 5 in
  let u := set_nas_eps (ue s) (mkEps MME_EPS_TYPE_SERVICE_REQUEST ksi (data (nas_eps (ue s)))) in
  Some (true, set_ue s (update_kenb E (CLEAR_PAGING_INFO u))).

Definition emm_handle_tau_request (E : env) (self : mme_context) (s : st) (m : body) : handled :=
  match enb_ue s with
  | None => Some (false, s)
  | Some e =>
      let octet := rd (field m "eps_update_type") 0 in
      let u := set_nas_eps (ue s)
                 (mkEps MME_EPS_TYPE_TAU_REQUEST (key_set_identifier octet) octet) in
      let u := CLEAR_PAGING_INFO u in
      let u := set_loc u (mkLocation (nas_tai e) (nas_e_cgi e) (visited_plmn_id (loc u))) in
      let s := set_ue s u in
      if decide (mme_find_served_tai (served_tai self) (nas_tai e) < 0) then
        '(_, s) ← nas_send_tau_reject E s EMM_CAUSE_TRACKING_AREA_NOT_ALLOWED;
        Some (false, s)
      else
        let u := set_loc u (mkLocation (nas_tai e) (nas_e_cgi e)
                              (visited m 0x40 (plmn_id (nas_tai e)))) in
        let k := key u in
        let u := set_capabilities u
                   (if_present m 0x20 "ue_network_capability" (ue_network_capability k))
                   (if_present m 0x400 "ms_network_capability" (ms_network_capability k)) in
        Some (true, set_ue s u)
  end.

End EmmHandler.
