(* ===== verification/EmmSm.v ===== *)
(** The EMM state machine, [mme/emm_sm.c], and what feeds it: [s1ap_send_to_nas] of
    [mme/s1ap_path.c], the EMM and S6a events of [mme/mme_sm.c], and
    [mme/mme_s6a_handler.c]. *)

From S2P Require Import Prelude Pkbuf NasIes NasMessage NasTables NasDecoder NasSecurity Kdf Fsm EmmContext EmmBuild EmmHandler.

Module EmmSm.
Import Pkbuf NasIes NasMessage NasTables NasDecoder NasSecurity Kdf Fsm EmmContext EmmBuild EmmHandler.
#[local] Open Scope Z_scope.

(** The S1AP procedure a message came with. *)
Inductive procedure := InitialUEMessage | UplinkNASTransport | OtherProcedure.

Inductive emm_event :=
  | MME_EVT_EMM_MESSAGE (p : procedure) (message : nas_message)
  | MME_EVT_EMM_T3413
  | MME_EVT_OTHER.

Definition FSM_TRAN (s : st) (x : emm_state) : st := set_ue s (set_sm (ue s) x).

Definition EMM_CAUSE_UE_IDENTITY_CANNOT_BE_DERIVED_BY_THE_NETWORK : Z := 9.
Definition EMM_CAUSE_SYNCH_FAILURE : Z := 21.

(** [memcmp(a, b, n) == 0]; no result when it leaves one of the arrays. *)
Definition memcmp_eq (n : Z) (a b : list Z) : option bool :=
  if decide (n <= Z.of_nat (length a) /\ n <= Z.of_nat (length b))
  then Some (bool_decide (take (Z.to_nat n) a = take (Z.to_nat n) b)) else None.

Section machine.
Variables (E : env) (self : mme_context).

(** A handler's failure leads to the state of exception; [k] is what follows success. *)
Definition or_exception (h : handled) (k : st -> option st) : option st :=
  '(ok, s) ← h; if ok : bool then k s else Some (FSM_TRAN s emm_state_exception).

(** The status of a sending function is only logged. *)
Definition and_go (h : handled) (k : st -> option st) : option st := '(_, s) ← h; k s.

(** ** The steps the states share *)

Definition detach_request (s : st) (m : body) : option st :=
  let s := send_ue_offline_to_mgmt_agent s in
  or_exception (emm_handle_detach_request s m) (fun s =>
  and_go (mme_send_delete_session_or_detach E s) (fun s =>
  Some (FSM_TRAN s emm_state_de_registered))).

Definition attach_request_again (s : st) (m : body) : option st :=
  or_exception (emm_handle_attach_request E self s m) (fun s =>
  Some (FSM_TRAN (mme_s6a_send_air s None) emm_state_authentication)).

(** ** The registered and de-registered states *)

Definition service_request_received (s : st) (m : body) : option st :=
  or_exception (emm_handle_service_request E s m) (fun s =>
  if negb (MME_UE_HAVE_IMSI (ue s)) then
    and_go (nas_send_service_reject E s EMM_CAUSE_UE_IDENTITY_CANNOT_BE_DERIVED_BY_THE_NETWORK) (fun s =>
    Some (FSM_TRAN s emm_state_exception))
  else if negb (SECURITY_CONTEXT_IS_VALID (ue s)) then
    and_go (nas_send_service_reject E s EMM_CAUSE_UE_IDENTITY_CANNOT_BE_DERIVED_BY_THE_NETWORK) (fun s =>
    Some (snd (s1ap_send_ue_context_release_command E s
                 S1AP_CauseNas_normal_release S1AP_UE_CTX_REL_S1_NORMAL_RELEASE 0)))
  else Some (snd (s1ap_send_initial_context_setup_request E s))).

(** What follows the switch on the event: the procedure the UE is in. *)
Definition common_procedure (p : procedure) (s : st) : option st :=
  let u := ue s in
  if negb (MME_UE_HAVE_IMSI u) then and_go (nas_send_identity_request E s) Some
  else
    match enb_ue s with
    | None => Some s
    | Some _ =>
        if decide (type (nas_eps u) = MME_EPS_TYPE_ATTACH_REQUEST) then
          if SECURITY_CONTEXT_IS_VALID u then
            let s := snd (nas_send_emm_to_esm s (pdn_connectivity_request (ses u))) in
            Some (FSM_TRAN s emm_state_initial_context_setup)
          else
            let s := if SESSION_CONTEXT_IS_AVAILABLE u
                     then snd (mme_gtp_send_delete_all_sessions E s) else mme_s6a_send_air s None in
            Some (FSM_TRAN s emm_state_authentication)
        else if decide (type (nas_eps u) = MME_EPS_TYPE_TAU_REQUEST) then
          if negb (SESSION_CONTEXT_IS_AVAILABLE u) then
            and_go (nas_send_tau_reject E s EMM_CAUSE_UE_IDENTITY_CANNOT_BE_DERIVED_BY_THE_NETWORK) (fun s =>
            Some (FSM_TRAN s emm_state_exception))
          else if negb (SECURITY_CONTEXT_IS_VALID u) then
            Some (FSM_TRAN (mme_s6a_send_air s None) emm_state_authentication)
          else
            match p with
            | InitialUEMessage =>
                if decide (bit3 (data (nas_eps u)) <> 0) then and_go (nas_send_tau_accept E self s true) Some
                else
                  and_go (nas_send_tau_accept E self s false) (fun s =>
                  Some (snd (mme_send_release_access_bearer_or_ue_context_release E s)))
            | UplinkNASTransport => and_go (nas_send_tau_accept E self s false) Some
            | OtherProcedure => Some s
            end
        else Some s
    end.

Definition common_message (p : procedure) (s : st) (message : nas_message) : option st :=
  let m := nas message in
  let t := emm_message_type (hdr message) in
  if decide (t = NAS_IDENTITY_RESPONSE) then
    or_exception (emm_handle_identity_response s m) (fun s =>
    if negb (MME_UE_HAVE_IMSI (ue s)) then Some (FSM_TRAN s emm_state_exception)
    else common_procedure p s)
  else if decide (t = NAS_ATTACH_REQUEST) then
    or_exception (emm_handle_attach_request E self s m) (common_procedure p)
  else if decide (t = NAS_TRACKING_AREA_UPDATE_REQUEST) then
    or_exception (emm_handle_tau_request E self s m) (fun s =>
    if negb (MME_UE_HAVE_IMSI (ue s)) then
      and_go (nas_send_tau_reject E s EMM_CAUSE_UE_IDENTITY_CANNOT_BE_DERIVED_BY_THE_NETWORK) (fun s =>
      Some (FSM_TRAN s emm_state_exception))
    else common_procedure p s)
  else if decide (t = NAS_TRACKING_AREA_UPDATE_COMPLETE) then Some s
  else if decide (t = NAS_EMM_STATUS) then Some (FSM_TRAN s emm_state_exception)
  else if decide (t = NAS_DETACH_REQUEST) then detach_request s m
  else Some s.

Definition t3413_expired (s : st) : st :=
  let p := pag (ue s) in
  if decide (MAX_NUM_OF_PAGING <= max_paging_retry p)
  then set_ue s (set_pag (ue s) (mkPaging false (t3413 p) (max_paging_retry p)))
  else
    let paged := last_paging_msg p || accepts E Paging in
    let s := if accepts E Paging then send s Paging else s in
    set_ue s (set_pag (ue s) (mkPaging paged true (u32 (max_paging_retry p + 1)))).

Definition common_register_state (e : signal emm_event) (s : st) : option st :=
  match e with
  | User (MME_EVT_EMM_MESSAGE p message) =>
      match enb_ue s with
      | None => Some s
      | Some _ =>
          if decide (security_header_type (hdr message) = NAS_SECURITY_HEADER_FOR_SERVICE_REQUEST_MESSAGE)
          then service_request_received s (nas message)
          else common_message p s message
      end
  | User MME_EVT_EMM_T3413 => Some (t3413_expired s)
  | _ => Some s
  end.

(** ** Authentication *)

Definition authentication_response_received (s : st) (m : body) : option st :=
  let l := field m "authentication_response_parameter" in
  eq ← memcmp_eq (rd l 0) (drop 1 l) (xres (key (ue s)));
  if eq : bool then Some (FSM_TRAN s emm_state_security_mode)
  else and_go (nas_send_authentication_reject E s) (fun s => Some (FSM_TRAN s emm_state_exception)).

Definition authentication_failure_received (s : st) (m : body) : option st :=
  if decide (rd (field m "emm_cause") 0 = EMM_CAUSE_SYNCH_FAILURE)
  then Some (mme_s6a_send_air s (Some (take 14 (drop 1 (field m "authentication_failure_parameter")))))
  else and_go (nas_send_authentication_reject E s) (fun s => Some (FSM_TRAN s emm_state_exception)).

Definition state_authentication (e : signal emm_event) (s : st) : option st :=
  match e with
  | User (MME_EVT_EMM_MESSAGE _ message) =>
      let m := nas message in
      let t := emm_message_type (hdr message) in
      if decide (t = NAS_AUTHENTICATION_RESPONSE) then authentication_response_received s m
      else if decide (t = NAS_AUTHENTICATION_FAILURE) then authentication_failure_received s m
      else if decide (t = NAS_ATTACH_REQUEST) then attach_request_again s m
      else if decide (t = NAS_EMM_STATUS) then Some (FSM_TRAN s emm_state_exception)
      else if decide (t = NAS_DETACH_REQUEST) then detach_request s m
      else Some s
  | _ => Some s
  end.

(** ** Security mode *)

Definition security_mode_complete_received (s : st) : option st :=
  let s := set_ue s (update_kenb E (ue s)) in
  let s := mme_s6a_send_ulr s in
  let t := type (nas_eps (ue s)) in
  if decide (t = MME_EPS_TYPE_ATTACH_REQUEST) then Some (FSM_TRAN s emm_state_initial_context_setup)
  else if decide (t = MME_EPS_TYPE_SERVICE_REQUEST \/ t = MME_EPS_TYPE_TAU_REQUEST)
  then Some (FSM_TRAN s emm_state_registered)
  else Some s.

Definition state_security_mode (e : signal emm_event) (s : st) : option st :=
  match e with
  | ENTRY => and_go (send_built E s (emm_build_security_mode_command E self (ue s))) Some
  | User (MME_EVT_EMM_MESSAGE _ message) =>
      let m := nas message in
      let t := emm_message_type (hdr message) in
      if decide (t = NAS_SECURITY_MODE_COMPLETE) then security_mode_complete_received s
      else if decide (t = NAS_SECURITY_MODE_REJECT) then Some (FSM_TRAN s emm_state_exception)
      else if decide (t = NAS_ATTACH_REQUEST) then attach_request_again s m
      else if decide (t = NAS_EMM_STATUS) then Some (FSM_TRAN s emm_state_exception)
      else if decide (t = NAS_DETACH_REQUEST) then detach_request s m
      else Some s
  | _ => Some s
  end.

(** ** Initial context setup *)

Definition state_initial_context_setup (e : signal emm_event) (s : st) : option st :=
  match e with
  | User (MME_EVT_EMM_MESSAGE _ message) =>
      let m := nas message in
      let t := emm_message_type (hdr message) in
      if decide (t = NAS_ATTACH_COMPLETE) then
        or_exception (emm_handle_attach_complete E self s m) (fun s =>
        Some (FSM_TRAN s emm_state_registered))
      else if decide (t = NAS_ATTACH_REQUEST) then
        or_exception (emm_handle_attach_request E self s m) (fun s =>
        Some (FSM_TRAN (snd (mme_gtp_send_delete_all_sessions E s)) emm_state_authentication))
      else if decide (t = NAS_EMM_STATUS) then Some (FSM_TRAN s emm_state_exception)
      else if decide (t = NAS_DETACH_REQUEST) then detach_request s m
      else Some s
  | _ => Some s
  end.

(** ** The machine *)

Definition emm_handle (x : emm_state) (e : signal emm_event) (s : st) : option st :=
  match x with
  | emm_state_initial => Some (FSM_TRAN s emm_state_de_registered)
  | emm_state_final => Some s
  | emm_state_de_registered | emm_state_registered => common_register_state e s
  | emm_state_authentication => state_authentication e s
  | emm_state_security_mode => state_security_mode e s
  | emm_state_initial_context_setup => state_initial_context_setup e s
  | emm_state_exception => Some s
  end.

#[export] Instance emm_machine : Machine emm_state emm_event st :=
  {| fsm_state s := sm (ue s); handle := emm_handle |}.

(** ** The events of [mme_state_operational] *)

(** [MME_EVT_EMM_MESSAGE] from an eNB context that has its UE. *)
Definition operational_emm_message (p : procedure) (s : st) (pkbuf : buf) : option st :=
  '(ok, _, message) ← nas_emm_decode pkbuf;
  if negb ok then Some s
  else
    s ← fsm_dispatch (User (MME_EVT_EMM_MESSAGE p message)) s;
    if decide (sm (ue s) = emm_state_exception)
    then Some (snd (mme_send_delete_session_or_ue_context_release E s)) else Some s.

Definition operational_t3413 (s : st) : option st := fsm_dispatch (User MME_EVT_EMM_T3413) s.

(** What the HSS answers: an authentication vector, a subscription, or an error. *)
Record e_utran_vector := mkVector { v_xres : list Z; v_kasme : list Z; v_rand : list Z; v_autn : list Z }.
Inductive s6a_message := AIA (v : e_utran_vector) | ULA | S6aError.

Definition EMM_CAUSE_IMSI_UNKNOWN_IN_HSS : Z := 2.

(** The answer is copied over the arrays of the UE. *)
Definition mme_s6a_handle_aia (s : st) (v : e_utran_vector) : option st :=
  let u := ue s in
  let k := key u in
  let u := set_key u (mkKeys (ue_network_capability k) (ms_network_capability k)
             (put (xres k) 0 (v_xres v)) (Z.of_nat (length (v_xres v)))
             (v_kasme v) (v_rand v) (kenb k) (nhcc k) (nh k)) in
  and_go (nas_send_authentication_request E (set_ue s u) (v_rand v) (v_autn v)) Some.

Definition operational_s6a (s : st) (m : s6a_message) : option st :=
  match m with
  | S6aError =>
      and_go (nas_send_attach_reject E s EMM_CAUSE_IMSI_UNKNOWN_IN_HSS
                ESM_CAUSE_PROTOCOL_ERROR_UNSPECIFIED) (fun s =>
      Some (snd (s1ap_send_ue_context_release_command E s
                   S1AP_CauseNas_normal_release S1AP_UE_CTX_REL_UE_CONTEXT_REMOVE 0)))
  | AIA v => mme_s6a_handle_aia s v
  | ULA =>
      let u := ue s in
      let t := type (nas_eps u) in
      if decide (sm u = emm_state_initial_context_setup) then
        if decide (t = MME_EPS_TYPE_ATTACH_REQUEST)
        then Some (snd (nas_send_emm_to_esm s (pdn_connectivity_request (ses u)))) else Some s
      else if decide (sm u = emm_state_registered) then
        if decide (t = MME_EPS_TYPE_TAU_REQUEST) then and_go (nas_send_tau_accept E self s true) Some
        else if decide (t = MME_EPS_TYPE_SERVICE_REQUEST)
        then Some (snd (s1ap_send_initial_context_setup_request E s)) else Some s
      else Some s
  end.

(** ** [s1ap_send_to_nas] *)

(** The security header type of the message, from its first octet; none when it is not
    implemented.  Protected messages have six octets before the message. *)
Definition header_of (octet : Z) : option (header_type * bool) :=
  let sht := octet >> 4 in
  if decide (sht = 0) then Some (mkHeaderType false false false false, false)
  else if decide (sht = 12) then Some (mkHeaderType false false false true, false)
  else if decide (sht = 1) then Some (mkHeaderType true false false false, true)
  else if decide (sht = 2) then Some (mkHeaderType true true false false, true)
  else if decide (sht = 3) then Some (mkHeaderType true false true false, true)
  else if decide (sht = 4) then Some (mkHeaderType true true true false, true)
  else None.

(** The UE and the EMM events that wait in the queue of the MME. *)
Definition world : Type := st * list (procedure * buf).

(** [nasbuf]: the packet the NAS message has been copied to.  A message for EMM is
    queued, as the event [MME_EVT_EMM_MESSAGE]; a message for ESM goes out. *)
Definition s1ap_send_to_nas (p : procedure) (w : world) (nasbuf : buf) : option world :=
  let '(s, queue) := w in
  h ← mload nasbuf (payload (pk nasbuf)) 1;
  match header_of (rd h 0) with
  | None => Some w
  | Some (t, protected) =>
      let '(ok, b) := if protected : bool then header nasbuf (-6) else (true, nasbuf) in
      if negb ok then Some w
      else
        let '(ok, b, sec') := nas_security_decode (sec (ue s)) t (mac0 E) b in
        let s := set_ue s (set_sec (ue s) sec') in
        if negb ok then Some (s, queue)
        else
          h ← mload b (payload (pk b)) 1;
          let pd := rd h 0 .& 0xf in
          if decide (pd = NAS_PROTOCOL_DISCRIMINATOR_EMM) then Some (s, queue ++ [(p, b)])
          else if decide (pd = NAS_PROTOCOL_DISCRIMINATOR_ESM)
          then Some (send s (EsmMessage (payload_bytes b)), queue)
          else Some (s, queue)
  end.

(** What happens: a message from the eNB, the turn of the first event in the queue, an
    answer of the HSS, the paging timer. *)
Inductive input := Uplink (p : procedure) (nasbuf : buf) | Deliver | Hss (m : s6a_message) | T3413.

Definition step (w : world) (i : input) : option world :=
  let '(s, queue) := w in
  match i with
  | Uplink p nasbuf => s1ap_send_to_nas p w nasbuf
  | Deliver =>
      match queue with
      | [] => Some w
      | (p, b) :: queue => s ← operational_emm_message p s b; Some (s, queue)
      end
  | Hss m => s ← operational_s6a s m; Some (s, queue)
  | T3413 => s ← operational_t3413 s; Some (s, queue)
  end.

Fixpoint run (w : world) (l : list input) : option world :=
  match l with
  | [] => Some w
  | i :: l => w ← step w i; run w l
  end.

End machine.
End EmmSm.
