(* ===== verification/EmmSample.v ===== *)
(** A configuration, a packet and a UE on which the theorems on EMM are evaluated. *)

From S2P Require Import Prelude Sha2 Sha2Spec Hmac Kdf Hash Pkbuf NasSecurity NasCodecSpec EmmContext EmmBuild EmmSm.

Module EmmSample.
Import Sha2 Sha2Spec Hmac HmacSpec Kdf Hash Pkbuf NasSecurity NasCodecSpec EmmContext EmmBuild EmmSm.
#[local] Open Scope Z_scope.

Definition env : EmmBuild.env :=
  mkEnv (Some sample_packet) [0; 0; 0; 0] (mkLocals (fresh SHA256) (fresh_hmac SHA256))
    (mkTime 126 5 1 10 20 30 7200) (fun _ => true).

Definition plmn : list Z := [0; 241; 16].

Definition self : mme_context :=
  mkContext [mkServed [mkTai0 TAI0_TYPE 1 plmn [7]; mkTai0 0 0 [] []] (mkTai2 0 0 [])] [2; 1; 0] [0; 1; 2]
    (0 :: replicate 256 0) (0 :: replicate 256 0).

(** A UE in the state [x] whose procedure is [t]. *)
Definition ue (x : emm_state) (t : Z) (available failed : bool) : mme_ue_t :=
  mkMmeUe x (mkEps t 0 0)
    (mkIdentity (replicate 8 0) 8 [0x30; 0x30; 0x31] (mkGuti plmn 2 1 0xc0000001) false)
    (mkLocation (mkTai plmn 7) (mkEcgi plmn 99) plmn)
    (mkKeys ([2; 0xe0; 0xe0] ++ replicate 5 0) (replicate 5 0) (replicate 16 0xab) 8 (replicate 32 0xcd)
       (replicate 16 0xef) (replicate 32 0) 0 (replicate 32 0))
    (NasSecurity.mkUe 0 2 (replicate 16 1) (replicate 16 2) 0 (mkCount 0 0 0) available failed)
    (mkEsm 4 0 [] None) (mkPaging false false 0).

Definition state (x : emm_state) (t : Z) (available failed : bool) : st :=
  mkSt 1 (ue x t available failed) (Some (mkEnbUe (mkTai plmn 7) (mkEcgi plmn 99) 0)) (hash_make 5)
    (fun _ => []) [].

(** The packet of a NAS message. *)
Definition packet (l : list Z) : buf :=
  mkBuf (mkPkbuf None 0 16 (Z.of_nat (length l)) (Z.of_nat (length l)) 0)
    (replicate 16 0xa5 ++ l ++ replicate 8 0x5a).

End EmmSample.
