(* ===== verification/EmmIdentity.v ===== *)
(** The IMSI of a UE: from the identity in a message to the table that finds the UE
    again, and the bounds of the conversion. *)

From S2P Require Import Prelude Pkbuf Misc Hash HashSpec EmmContext EmmHandler EmmSample.

Module EmmIdentity.
Import Pkbuf Misc Hash HashSpec EmmContext EmmHandler.
#[local] Open Scope Z_scope.

(** ** The identity *)

Definition digit (d : Z) : Prop := 0 <= d < 10.

(** The octets of an IMSI of an odd number of digits: the type and the parity in the
    low half of the first octet, then two digits per octet. *)
Fixpoint digit_pairs (l : list Z) : list Z :=
  match l with
  | a :: b :: l => (a .| (b << 4)) :: digit_pairs l
  | _ => []
  end.
Definition imsi_octets (l : list Z) : list Z :=
  match l with
  | d :: l => ((d << 4) .| 9) :: digit_pairs l
  | [] => []
  end.

Definition chars_of (l : list Z) : list Z := map (fun d => 0x30 + d) l.

(** The halves of an octet. *)
Lemma nibble_halves a b : digit a -> digit b -> (a .| (b << 4)) .& 0xf = a /\ (a .| (b << 4)) >> 4 = b.
Proof.
  intros Ha Hb. unfold digit in *.
  assert (forallb (fun a => forallb (fun b => bool_decide ((a .| (b << 4)) .& 0xf = a /\ (a .| (b << 4)) >> 4 = b))
    (map Z.of_nat (seq 0 10))) (map Z.of_nat (seq 0 10)) = true) as C by (vm_compute; reflexivity).
  rewrite forallb_forall in C. specialize (C a). rewrite forallb_forall in C.
  assert (forall x, 0 <= x < 10 -> In x (map Z.of_nat (seq 0 10))) as I.
  { intros x Hx. apply in_map_iff. exists (Z.to_nat x). split; [lia|]. apply in_seq. lia. }
  exact (bool_decide_eq_true_1 _ (C (I a Ha) b (I b Hb))).
Qed.

Lemma first_half d : digit d -> ((d << 4) .| 9) >> 4 = d /\ odd_even [(d << 4) .| 9] = 1 /\
  imsi_type [(d << 4) .| 9] = NAS_EPS_MOBILE_IDENTITY_IMSI.
Proof.
  intros Hd. unfold digit in Hd.
  assert (d = 0 \/ d = 1 \/ d = 2 \/ d = 3 \/ d = 4 \/ d = 5 \/ d = 6 \/ d = 7 \/ d = 8 \/ d = 9) as C by lia.
  repeat destruct C as [-> | C]; [..|subst d]; by_decide.
Qed.

Lemma digits_read l rest : length l = 15%nat -> Forall digit l -> imsi_digits (imsi_octets l ++ rest) = l.
Proof.
  intros Hl Hd. do 15 (destruct l as [|? l]; [discriminate Hl|]). destruct l; [|discriminate Hl]. clear Hl.
  repeat (apply Forall_cons in Hd as [? Hd]). clear Hd.
  unfold imsi_digits. cbn [imsi_octets digit_pairs drop take map concat app].
  change (rd (?x :: _) 0) with x.
  match goal with |- context [((?d << 4) .| 9) >> 4] =>
    rewrite (proj1 (first_half d ltac:(assumption))) end.
  repeat match goal with |- context [(?a .| (?b << 4)) .& 0xf] =>
    destruct (nibble_halves a b ltac:(assumption) ltac:(assumption)) as [-> ->] end.
  reflexivity.
Qed.

(** [nas_imsi_to_bcd] on fifteen digits and an array of sixteen octets. *)
Lemma imsi_to_bcd_ok l rest bcd : length l = 15%nat -> Forall digit l -> length bcd = 16%nat ->
  nas_imsi_to_bcd (imsi_octets l ++ rest) 8 bcd = Some (chars_of l ++ [0]).
Proof.
  intros Hl Hd Hb. unfold nas_imsi_to_bcd. rewrite digits_read by done.
  change (map (fun d => 0x30 + d) l) with (chars_of l).
  assert (length (chars_of l) = 15%nat) as Lc by (unfold chars_of; by rewrite length_map).
  destruct (list_split_at 15 bcd) as (b1 & b2 & -> & Hb1); [lia|]. rewrite length_app in Hb.
  destruct b2 as [|x [|]]; cbn [length] in Hb; [lia| |lia].
  pose proof (store_app [] b1 [x] (chars_of l)) as S1. cbn [app length] in S1. rewrite S1 by lia.
  cbn [mbind option_bind].
  destruct l as [|d l]; [done|]. apply Forall_cons in Hd as [Hd _].
  replace (odd_even (imsi_octets (d :: l) ++ rest)) with (odd_even [(d << 4) .| 9]) by done.
  rewrite (proj1 (proj2 (first_half d Hd))). rewrite decide_False by done. cbn [mbind option_bind].
  rewrite decide_True by done. change (Z.to_nat (8 * 2 - 1)) with 15%nat.
  pose proof (store_app (chars_of (d :: l)) [x] [] [0]) as S2. rewrite Lc, app_nil_r in S2. by rewrite S2.
Qed.

(** The conversion stays inside of the array exactly when the length is 1 to 8. *)
Lemma imsi_to_bcd_bounds l len bcd : length bcd = 16%nat -> (8 <= length l)%nat ->
  is_Some (nas_imsi_to_bcd l len bcd) <-> 1 <= len <= 8.
Proof.
  intros Hb Hl. unfold nas_imsi_to_bcd.
  assert (length (imsi_digits l) = 15%nat) as Ld.
  { unfold imsi_digits. do 8 (destruct l as [|? l]; [cbn in Hl; lia|]). reflexivity. }
  assert (exists bcd', store bcd 0 (map (fun d => 0x30 + d) (imsi_digits l)) = Some bcd' /\ length bcd' = 16%nat)
    as (bcd' & -> & Hb').
  { unfold store. rewrite length_map, Ld, decide_True by lia. eexists. split; [done|]. by rewrite length_put. }
  cbn [mbind option_bind].
  assert (is_Some (store bcd' (Z.to_nat (len * 2 - 1)) [0]) <-> len * 2 - 1 <= 15) as Odd.
  { unfold store. cbn [length]. case_decide; split; try lia; [by eexists|by intros [? ?]]. }
  case_decide as C.
  - unfold char_at. case_decide as C1; [|cbn; split; [by intros [? ?]|lia]].
    destruct (bcd' !! Z.to_nat (len * 2 - 1)) eqn:L.
    + apply lookup_lt_Some in L. cbn [mbind option_bind]. split; [lia|]. intros _.
      rewrite decide_True by lia. unfold store. cbn [length]. rewrite decide_True by lia. by eexists.
    + apply lookup_ge_None in L. cbn. split; [by intros [? ?]|lia].
  - cbn [mbind option_bind]. case_decide as C1; [rewrite Odd; lia|]. split; [by intros [? ?]|lia].
Qed.

(** ** The table *)

Lemma chars_nonzero l : Forall digit l -> Forall (fun p => p <> 0) (chars_of l).
Proof. intros H. apply Forall_map. eapply Forall_impl; [exact H|]. unfold digit. intros. lia. Qed.

Lemma length_bcd_15 l : length l = 15%nat -> length (bcd l) = 8%nat.
Proof. intros H. do 15 (destruct l as [|? l]; [discriminate H|]). by destruct l. Qed.

(** C31: an identity of fifteen digits.  The UE has its digits as a string and as the
    octets of a BCD number, and the table of the MME maps these octets to the UE and
    keeps the entries of the others; for a UE that had no IMSI. *)
Theorem imsi_registered s l rest h :
  length l = 15%nat -> Forall digit l -> length (imsi (ident (ue s))) = 8%nat ->
  wf (imsis s) h (imsi_ue_hash s) -> loaded (imsi_ue_hash s) -> count (imsi_ue_hash s) < 2 ^ 31 - 1 ->
  (forall e, e ∈ all (imsi_ue_hash s) -> e_key e <> ix s) ->
  exists s', set_imsi_from s (8 :: imsi_octets l ++ rest) = Some s' /\
    imsi_bcd (ident (ue s')) = chars_of l /\ core_buffer_to_bcd (imsi (ident (ue s'))) 8 = chars_of l /\
    MME_UE_HAVE_IMSI (ue s') = true /\ wf (imsis s') h (imsi_ue_hash s') /\
    map_of (imsis s') (imsi_ue_hash s') =
      <[bcd (chars_of l) := ix s]> (map_of (imsis s) (imsi_ue_hash s)) /\
    hash_get (imsis s') (imsi_ue_hash s') (ix s) (imsi_len (ident (ue s'))) = Some (ix s).
Proof.
  intros Hl Hd Hi Hw Hld Hc Hn. unfold set_imsi_from.
  change (nas_imsi_to_bcd _ _ _) with (nas_imsi_to_bcd (imsi_octets l ++ rest) 8 (replicate 16 0)).
  rewrite imsi_to_bcd_ok by done. cbn [mbind option_bind]. eexists. split; [reflexivity|].
  assert (length (chars_of l) = 15%nat) as Lc by (unfold chars_of; by rewrite length_map).
  unfold mme_ue_set_imsi, string_of. rewrite cstring_app by (by apply chars_nonzero).
  rewrite take_ge by (rewrite Lc; done).
  rewrite bcd_to_buffer_spec, Lc by (rewrite Lc, Hi; cbn; lia).
  change ((15 + 1) / 2)%nat with 8%nat. rewrite drop_ge, app_nil_r by lia. change (Z.of_nat 8) with 8.
  assert (length (bcd (chars_of l)) = 8%nat) as Lb by (by apply length_bcd_15).
  set (s1 := set_ue s _).
  assert (imsis s1 (ix s) = bcd (chars_of l)) as E1 by (unfold imsis; by rewrite decide_True).
  destruct (memory_changed (imsis s) (imsis s1) h (imsi_ue_hash s) Hw) as [Hw1 Em].
  { intros e He. unfold imsis. by rewrite !decide_False by (apply (Hn e He)). }
  assert (names (imsis s1) h (imsi_ue_hash s) (ix s) 8 (bcd (chars_of l))) as Nm.
  { change 8 with (Z.of_nat 8). rewrite <- Lb. apply (names_exact _ _ _ _ _ []); [apply Hw1|by rewrite app_nil_r]. }
  destruct (set_some (imsis s1) h (imsi_ue_hash s) (ix s) 8 _ (ix s) Hw1 Hld Hc Nm) as (Hw2 & _ & E2).
  change (imsi_ue_hash s1) with (imsi_ue_hash s). change (ix s1) with (ix s).
  set (ht2 := hash_set _ _ _ _ _) in *. clearbody ht2. set (s' := set_ue _ _).
  change (imsis s') with (imsis s1). change (imsi_ue_hash s') with ht2.
  split; [done|]. split; [|split; [done|split; [done|split; [by rewrite E2, Em|]]]].
  - cbn [s' ue ident imsi set_ue set_ident].
    rewrite <- (app_nil_r (bcd _)). change 8%nat with ((15 + 1) / 2)%nat. rewrite <- Lc.
    apply bcd_buffer_roundtrip; [|by intros E; rewrite E in Lc].
    apply Forall_map. eapply Forall_impl; [exact Hd|]. unfold digit. intros. cbn. lia.
  - change (imsi_len (ident (ue s'))) with 8. rewrite (get_lookup (imsis s1) h ht2 (ix s) 8 (bcd (chars_of l)) Hw2).
    + rewrite E2. apply lookup_insert_eq.
    + change 8 with (Z.of_nat 8). rewrite <- Lb. apply (names_exact _ _ _ _ _ []); [apply Hw2|by rewrite app_nil_r].
Qed.

Lemma imsi_registered_witness :
  let s := EmmSample.state EmmContext.emm_state_de_registered 0 false false in
  let l := [0; 0; 1; 0; 1; 0; 1; 2; 3; 4; 5; 6; 7; 8; 9] in
  exists s', set_imsi_from s (8 :: imsi_octets l) = Some s' /\ imsi_bcd (ident (ue s')) = chars_of l /\
    hash_get (imsis s') (imsi_ue_hash s') 1%nat (imsi_len (ident (ue s'))) = Some 1%nat.
Proof.
  intros s l.
  destruct (made (K := nat) (V := nat) (imsis s) (foldl times33 (u32 (5 - 1))) 5) as (H & Hl & _); [done|].
  destruct (imsi_registered s l [] (foldl times33 (u32 (5 - 1)))) as (s' & E & B & _ & _ & _ & _ & G);
    [reflexivity|by_decide|reflexivity|exact H|exact Hl|by_decide|by intros e He%elem_of_nil|].
  exists s'. split; [exact E|]. split; [exact B|exact G].
Defined.

End EmmIdentity.
