(* ===== verification/EmmSpec.v ===== *)
(** What the EMM state machine does: the transitions it can make, and what a
    failed integrity check changes. *)

From S2P Require Import Prelude Pkbuf Misc NasIes NasMessage NasTables NasDecoder NasEncoder NasSecurity Kdf Fsm EmmContext EmmBuild EmmHandler EmmSm EmmSample.

Module EmmSpec.
Import Pkbuf NasIes NasMessage NasTables NasDecoder NasEncoder NasSecurity Kdf Fsm EmmContext EmmBuild EmmHandler EmmSm.
#[local] Open Scope Z_scope.

(** ** What the functions other than [FSM_TRAN] leave alone *)

Definition is_air (o : output) : Prop :=
  match o with AuthenticationInformationRequest _ _ _ => True | _ => False end.

(** Messages have only been added; a failed integrity check is forgotten only when a
    new authentication vector is asked for. *)
Definition grows (s s' : st) : Prop :=
  exists l, out s' = l ++ out s /\
    (mac_failed (sec (ue s)) = true -> mac_failed (sec (ue s')) = true \/ Exists is_air l).

#[export] Instance grows_preorder : PreOrder grows.
Proof.
  split.
  - intros s. exists []. auto.
  - intros s1 s2 s3 (l1 & O1 & M1) (l2 & O2 & M2).
    exists (l2 ++ l1). split; [by rewrite O2, O1, (assoc_L (++))|]. intros M.
    rewrite Exists_app. destruct (M1 M) as [M'|?]; [|by right; right].
    destruct (M2 M'); [by left|by right; left].
Qed.

(** Besides, the state of the machine is the same. *)
Definition kept (s s' : st) : Prop := sm (ue s') = sm (ue s) /\ grows s s'.

#[export] Instance kept_preorder : PreOrder kept.
Proof.
  split.
  - intros s. by split.
  - intros s1 s2 s3 [E1 G1] [E2 G2]. split; [congruence|by etrans].
Qed.

(** A change of the state of the machine, to one of those in [A]. *)
Definition moves (A : emm_state -> Prop) (s : st) (r : option st) : Prop := forall s', r = Some s' ->
  grows s s' /\ (sm (ue s') = sm (ue s) \/ A (sm (ue s'))).

(** The same for a function with a status, and for one without a result. *)
Definition keeps (s : st) (h : handled) : Prop := forall ok s', h = Some (ok, s') -> kept s s'.
Definition keeps_ue (u : mme_ue_t) (b : built) : Prop := forall ok p u', b = Some (ok, p, u') ->
  sm u' = sm u /\ mac_failed (sec u') = mac_failed (sec u).

(** A change of the UE that concerns neither. *)
Lemma kept_set_ue s u :
  sm u = sm (ue s) -> mac_failed (sec u) = mac_failed (sec (ue s)) -> kept s (set_ue s u).
Proof. intros E M. split; [done|]. exists []. split; [done|]. cbn. rewrite M. auto. Qed.

Lemma kept_send s o : kept s (send s o).
Proof. split; [done|]. exists [o]. auto. Qed.

Lemma kept_set_enb_ue s e : kept s (set_enb_ue s e).
Proof. split; [done|]. exists []. auto. Qed.

Lemma kept_set_hash s h : kept s (set_hash s h).
Proof. split; [done|]. exists []. auto. Qed.

Create HintDb emm.
#[export] Hint Resolve kept_set_ue kept_send kept_set_enb_ue kept_set_hash : emm.
#[export] Hint Extern 0 (kept ?s ?s) => reflexivity : emm.

(** Goals on a function made of tests and of functions that are known. *)
Ltac kept_cases := intros; repeat case_match; simplify_eq; cbn; eauto with emm.

(** *** Sending *)

Lemma encode_keeps plain mac0 pkbuf u sht pd :
  mac_failed (enc_ue (nas_security_encode plain mac0 pkbuf u sht pd)) = mac_failed u.
Proof.
  unfold nas_security_encode. repeat (case_match; try done).
Qed.

Lemma build_plain_keeps E u msg : keeps_ue u (build_plain E u msg).
Proof.
  intros ok p u'. unfold build_plain. destruct (plain E msg) as [[? ?]|]; [|done].
  cbn. by intros [= <- <- <-].
Qed.

Lemma build_secure_keeps E u sht msg : keeps_ue u (build_secure E u sht msg).
Proof.
  intros ok p u'. unfold build_secure. destruct (plain E msg) as [[? ?]|]; [|done].
  cbn. intros [= <- <- <-]. split; [done|]. apply encode_keeps.
Qed.

Lemma kept_to_enb E s o : kept s (to_enb E s o).2.
Proof. unfold to_enb. kept_cases. Qed.
#[export] Hint Resolve kept_to_enb : emm.

Lemma kept_downlink E s b : kept s (nas_send_to_downlink_nas_transport E s b).2.
Proof. unfold nas_send_to_downlink_nas_transport. kept_cases. Qed.
#[export] Hint Resolve kept_downlink : emm.

Lemma kept_release E s c a d : kept s (s1ap_send_ue_context_release_command E s c a d).2.
Proof.
  unfold s1ap_send_ue_context_release_command. destruct (enb_ue s); [|done].
  etrans; [|apply kept_to_enb]. apply kept_set_enb_ue.
Qed.
#[export] Hint Resolve kept_release : emm.

Lemma kept_pair {A} (p : A * st) a s s' : p = (a, s') -> kept s p.2 -> kept s s'.
Proof. by intros ->. Qed.

Lemma send_built_keeps E s b : keeps_ue (ue s) b -> keeps s (send_built E s b).
Proof.
  intros Hb ok s'. unfold send_built. destruct b as [[[ok' p] u]|]; [|done]. cbn.
  destruct (Hb _ _ _ eq_refl) as [E1 E2]. destruct ok'; cbn; intros [= E']; simplify_eq.
  - etrans; [apply (kept_set_ue s u E1 E2)|]. eapply kept_pair; [exact E'|]. apply kept_downlink.
  - by apply kept_set_ue.
Qed.

Lemma send_checked_keeps E s b : keeps_ue (ue s) b -> keeps s (send_checked E s b).
Proof.
  intros Hb ok s'. unfold send_checked. destruct b as [[[ok' p] u]|]; [|done]. cbn.
  destruct (Hb _ _ _ eq_refl) as [E1 E2]. destruct (_ && _); cbn; intros [= E']; simplify_eq.
  - etrans; [apply (kept_set_ue s u E1 E2)|]. eapply kept_pair; [exact E'|]. apply kept_downlink.
  - by apply kept_set_ue.
Qed.
(** *** The building functions *)

(** A function that ends with one of the two builders, on the same UE as far as the
    machine and the integrity check are concerned. *)
Lemma keeps_ue_map u0 u b f : sm u = sm u0 -> mac_failed (sec u) = mac_failed (sec u0) ->
  keeps_ue u b -> keeps_ue u0 ('(ok, p, u') ← b; Some (f ok p, p, u')).
Proof.
  intros Es Em Hb ok p u'. destruct b as [[[ok1 p1] u1]|]; [|done]. cbn. intros [= <- <- <-].
  destruct (Hb _ _ _ eq_refl) as [-> ->]. done.
Qed.

Lemma keeps_ue_same u ok p : keeps_ue u (Some (ok, p, u)).
Proof. by intros ? ? ? [= <- <- <-]. Qed.

#[export] Hint Resolve build_plain_keeps build_secure_keeps keeps_ue_same send_built_keeps send_checked_keeps : emm.

Lemma attach_accept_keeps E self u l : keeps_ue u (emm_build_attach_accept E self u l).
Proof.
  unfold emm_build_attach_accept. destruct (served_at _ _); [|apply keeps_ue_same].
  refine (keeps_ue_map _ _ _ (fun _ _ => true) _ _ (build_secure_keeps _ _ _ _)); done.
Qed.

Lemma security_mode_command_keeps E self u : keeps_ue u (emm_build_security_mode_command E self u).
Proof.
  refine (keeps_ue_map _ _ _ (fun ok b => ok && bool_decide (b <> None)) _ _ (build_secure_keeps _ _ _ _)); done.
Qed.

Lemma tau_accept_keeps E self u : keeps_ue u (emm_build_tau_accept E self u).
Proof.
  unfold emm_build_tau_accept. destruct (served_at _ _); [|apply keeps_ue_same].
  refine (keeps_ue_map _ _ _ (fun _ _ => true) _ _ (build_secure_keeps _ _ _ _)); done.
Qed.

Lemma tau_reject_keeps E c u : keeps_ue u (emm_build_tau_reject E c u).
Proof. refine (keeps_ue_map _ _ _ (fun _ _ => true) _ _ (build_plain_keeps _ _ _)); done. Qed.

Lemma service_reject_keeps E c u : keeps_ue u (emm_build_service_reject E c u).
Proof. refine (keeps_ue_map _ _ _ (fun _ _ => true) _ _ (build_plain_keeps _ _ _)); done. Qed.

Lemma pdn_reject_keeps E u x c : keeps_ue u (esm_build_pdn_connectivity_reject E u x c).
Proof.
  unfold esm_build_pdn_connectivity_reject. case_bool_decide.
  - refine (keeps_ue_map _ _ _ (fun ok b => ok && bool_decide (b <> None)) _ _ (build_secure_keeps _ _ _ _)); done.
  - refine (keeps_ue_map _ _ _ (fun ok b => ok && bool_decide (b <> None)) _ _ (build_plain_keeps _ _ _)); done.
Qed.


(** *** The sending functions *)

Lemma keeps_pure s ok s' : kept s s' -> keeps s (Some (ok, s')).
Proof. by intros K ? ? [= <- <-]. Qed.

Lemma keeps_bind s (h : handled) (k : bool -> st -> handled) :
  keeps s h -> (forall ok s1, kept s s1 -> keeps s1 (k ok s1)) -> keeps s ('(ok, s1) ← h; k ok s1).
Proof.
  intros Hh Hk ok s2. destruct h as [[ok1 s1]|]; [|done]. cbn. intros E.
  specialize (Hh _ _ eq_refl). etrans; [done|]. by apply (Hk ok1 s1 Hh ok).
Qed.

Lemma keeps_pair s (p : bool * st) : kept s p.2 -> keeps s (Some p).
Proof. destruct p. apply keeps_pure. Qed.

(** After a kept change. *)
Lemma keeps_after s s1 h : kept s s1 -> keeps s1 h -> keeps s h.
Proof. intros K Hh ok s2 E. etrans; [done|]. by eapply Hh. Qed.

Lemma attach_reject_keeps E s c1 c2 : keeps s (nas_send_attach_reject E s c1 c2).
Proof.
  unfold nas_send_attach_reject, esm_of_reject. destruct (sess_list _) as [|x l].
  - cbn. apply send_checked_keeps, build_plain_keeps.
  - destruct (esm_build_pdn_connectivity_reject E (ue s) x c2) as [[[ok b] u]|] eqn:B; [|done].
    apply pdn_reject_keeps in B as [B1 B2]. cbn.
    destruct b as [b|], ok; cbn;
      (apply (keeps_after s (set_ue s u)); [by apply kept_set_ue|]);
      solve [apply send_checked_keeps, build_plain_keeps | by apply keeps_pure].
Qed.

Lemma identity_request_keeps E s : keeps s (nas_send_identity_request E s).
Proof. apply send_checked_keeps, build_plain_keeps. Qed.
Lemma authentication_request_keeps E s r a : keeps s (nas_send_authentication_request E s r a).
Proof. apply send_checked_keeps, build_plain_keeps. Qed.
Lemma tau_reject_sent_keeps E s c : keeps s (nas_send_tau_reject E s c).
Proof. apply send_built_keeps, tau_reject_keeps. Qed.
Lemma service_reject_sent_keeps E s c : keeps s (nas_send_service_reject E s c).
Proof. apply send_built_keeps, service_reject_keeps. Qed.

Lemma authentication_reject_keeps E s : keeps s (nas_send_authentication_reject E s).
Proof.
  unfold nas_send_authentication_reject.
  destruct (emm_build_authentication_reject E (ue s)) as [[[ok b] u]|] eqn:B; [|done].
  apply build_plain_keeps in B as [B1 B2]. cbn.
  apply (keeps_after s (set_ue s u)); [by apply kept_set_ue|].
  destruct (_ && _); cbn; apply keeps_pure; auto with emm.
Qed.

Lemma detach_accept_keeps E s : keeps s (nas_send_detach_accept E s).
Proof.
  unfold nas_send_detach_accept. destruct (enb_ue s); [|by apply keeps_pure].
  apply (keeps_bind s _ (fun ok s => if negb ok then Some (false, s) else _)).
  - case_decide; [|by apply keeps_pure]. apply send_checked_keeps, build_secure_keeps.
  - intros [] s1 _; cbn; [apply keeps_pair, kept_release|by apply keeps_pure].
Qed.

Lemma tau_accept_sent_keeps E self s i : keeps s (nas_send_tau_accept E self s i).
Proof.
  unfold nas_send_tau_accept.
  destruct (emm_build_tau_accept E self (ue s)) as [[[ok b] u]|] eqn:B; [|done].
  apply tau_accept_keeps in B as [B1 B2]. cbn.
  apply (keeps_after s (set_ue s u)); [by apply kept_set_ue|].
  destruct ok; cbn; [|by apply keeps_pure].
  destruct i; apply keeps_pair; auto with emm.
Qed.

Lemma emm_to_esm_keeps s c : kept s (nas_send_emm_to_esm s c).2.
Proof. destruct c as [[|? ?]|]; cbn; auto with emm. Qed.

Lemma delete_sessions_keeps E l : forall s keep, kept s (delete_sessions E s l keep).1.2.
Proof.
  induction l as [|x l IH]; intros s keep; cbn; [done|].
  repeat case_match; cbn; auto with emm. etrans; [apply kept_send|apply IH].
Qed.

Lemma delete_all_sessions_keeps E s : kept s (mme_gtp_send_delete_all_sessions E s).2.
Proof.
  unfold mme_gtp_send_delete_all_sessions.
  pose proof (delete_sessions_keeps E (sess_list (ses (ue s))) s []) as K.
  destruct (delete_sessions _ _ _ _) as [[ok s1] keep]. cbn in K.
  destruct ok; (etrans; [exact K|]); by apply kept_set_ue.
Qed.
#[export] Hint Resolve emm_to_esm_keeps delete_all_sessions_keeps : emm.
#[export] Hint Resolve attach_reject_keeps identity_request_keeps authentication_request_keeps
  tau_reject_sent_keeps service_reject_sent_keeps authentication_reject_keeps detach_accept_keeps
  tau_accept_sent_keeps : emm.

Lemma session_or_detach_keeps E s : keeps s (mme_send_delete_session_or_detach E s).
Proof.
  unfold mme_send_delete_session_or_detach. case_match; [|apply detach_accept_keeps].
  apply keeps_pair, delete_all_sessions_keeps.
Qed.

Lemma session_or_release_keeps E s : kept s (mme_send_delete_session_or_ue_context_release E s).2.
Proof. unfold mme_send_delete_session_or_ue_context_release. kept_cases. Qed.

Lemma bearer_or_release_keeps E s : kept s (mme_send_release_access_bearer_or_ue_context_release E s).2.
Proof. unfold mme_send_release_access_bearer_or_ue_context_release. kept_cases. Qed.

(** Asking for a vector clears the security context, and is seen in the output. *)
Lemma air_keeps s auts : kept s (mme_s6a_send_air s auts).
Proof. split; [done|]. eexists [_]. split; [done|]. intros _. right. by constructor. Qed.

Lemma ulr_keeps s : kept s (mme_s6a_send_ulr s).
Proof. apply kept_send. Qed.

Lemma offline_keeps s : kept s (send_ue_offline_to_mgmt_agent s).
Proof. unfold send_ue_offline_to_mgmt_agent. case_decide; auto with emm. Qed.
#[export] Hint Resolve session_or_detach_keeps session_or_release_keeps bearer_or_release_keeps
  air_keeps ulr_keeps offline_keeps : emm.

(** *** The handlers *)

Lemma update_kenb_keeps E u : sm (update_kenb E u) = sm u /\ sec (update_kenb E u) = sec u.
Proof. unfold update_kenb. by case_match. Qed.

Lemma set_imsi_keeps s bcd : kept s (mme_ue_set_imsi s bcd).
Proof.
  unfold mme_ue_set_imsi. destruct (Misc.core_bcd_to_buffer _ _).
  split; [done|]. exists []. auto.
Qed.

Lemma set_imsi_from_keeps s l s' : set_imsi_from s l = Some s' -> kept s s'.
Proof.
  unfold set_imsi_from. destruct (nas_imsi_to_bcd _ _ _); [|done]. cbn. intros [= <-].
  apply set_imsi_keeps.
Qed.

Lemma attach_request_keeps E self s m : keeps s (emm_handle_attach_request E self s m).
Proof.
  unfold emm_handle_attach_request. destruct (enb_ue s) as [e|]; [|by apply keeps_pure].
  case_decide; [by apply keeps_pure|].
  set (u := set_loc (update_kenb _ _) _).
  assert (sm u = sm (ue s) /\ sec u = sec (ue s)) as [U1 U2].
  { subst u. cbn. destruct (update_kenb_keeps E (CLEAR_PAGING_INFO (CLEAR_EPS_BEARER_ID (set_nas_eps (ue s)
      (mkEps MME_EPS_TYPE_ATTACH_REQUEST (key_set_identifier (rd (field m "eps_attach_type") 0))
         (rd (field m "eps_attach_type") 0)))))) as [-> ->]. done. }
  case_decide.
  - apply (keeps_after s (set_ue s u)); [apply kept_set_ue; by rewrite ?U2|].
    apply (keeps_bind _ _ (fun _ s => Some (false, s))); [apply attach_reject_keeps|].
    intros. by apply keeps_pure.
  - set (s1 := set_ue (set_ue s u) _).
    assert (kept s s1) as K1.
    { split; [exact U1|]. exists []. split; [done|].
      change (mac_failed (sec (ue s1))) with (mac_failed (sec u)). rewrite U2. auto. }
    apply (keeps_after s s1); [done|]. clearbody s1.
    intros ok s2. case_decide.
    + destruct (set_imsi_from _ _) as [s3|] eqn:I; [|done]. cbn. intros [= <- <-].
      apply set_imsi_from_keeps in I. etrans; [exact I|]. by apply kept_set_ue.
    + cbn. intros [= <- <-]. by apply kept_set_ue.
Qed.

Lemma attach_complete_keeps E self s m : keeps s (emm_handle_attach_complete E self s m).
Proof.
  unfold emm_handle_attach_complete. pose proof (emm_to_esm_keeps s (container m "esm_message_container")) as K.
  destruct (nas_send_emm_to_esm _ _) as [ok s1]. cbn in K. apply (keeps_after s s1); [done|].
  destruct ok; cbn; [|by apply keeps_pure].
  destruct (build_secure _ _ _ _) as [[[ok b] u]|] eqn:B; [|done].
  apply build_secure_keeps in B as [B1 B2]. cbn.
  apply (keeps_after _ (set_ue s1 u)); [by apply kept_set_ue|].
  destruct (_ && _); cbn; apply keeps_pure; auto with emm.
Qed.

Lemma identity_response_keeps s m : keeps s (emm_handle_identity_response s m).
Proof.
  unfold emm_handle_identity_response. destruct (enb_ue s); [|by apply keeps_pure].
  case_decide; [|by apply keeps_pure]. intros ok s1.
  destruct (set_imsi_from _ _) as [s2|] eqn:I; [|done]. cbn. intros [= <- <-].
  by eapply set_imsi_from_keeps.
Qed.

Lemma detach_request_keeps s m : keeps s (emm_handle_detach_request s m).
Proof. apply keeps_pure. by apply kept_set_ue. Qed.

Lemma service_request_keeps E s m : keeps s (emm_handle_service_request E s m).
Proof.
  apply keeps_pure.
  match goal with |- context [update_kenb E ?u] => destruct (update_kenb_keeps E u) as [U1 U2] end.
  apply kept_set_ue; [by rewrite U1|by rewrite U2].
Qed.

Lemma tau_request_keeps E self s m : keeps s (emm_handle_tau_request E self s m).
Proof.
  unfold emm_handle_tau_request. destruct (enb_ue s) as [e|]; [|by apply keeps_pure].
  case_decide.
  - match goal with |- context [nas_send_tau_reject E ?s1 _] => set (s2 := s1) end.
    apply (keeps_after s s2); [by apply kept_set_ue|].
    apply (keeps_bind _ _ (fun _ s => Some (false, s))); [apply tau_reject_sent_keeps|].
    intros. by apply keeps_pure.
  - apply keeps_pure. split; [done|]. exists []. auto.
Qed.
#[export] Hint Resolve attach_request_keeps attach_complete_keeps identity_response_keeps
  detach_request_keeps service_request_keeps tau_request_keeps : emm.

(** ** The moves of the machine *)

Lemma moves_same A s : moves A s (Some s).
Proof. intros s' [= <-]. split; [done|by left]. Qed.

Lemma moves_kept A s s' : kept s s' -> moves A s (Some s').
Proof. intros [E G] ? [= <-]. split; [done|by left]. Qed.

Lemma moves_tran (A : emm_state -> Prop) s s' x : kept s s' -> A x -> moves A s (Some (FSM_TRAN s' x)).
Proof. intros [_ G] Hx ? [= <-]. split; [done|by right]. Qed.

Lemma moves_after A s s' r : kept s s' -> moves A s' r -> moves A s r.
Proof.
  intros [E G] M s2 H2. destruct (M _ H2) as [G2 [E2|?]]; (split; [by etrans|]); [|by right].
  left. congruence.
Qed.

Lemma moves_or_exception (A : emm_state -> Prop) s h k : keeps s h -> A emm_state_exception ->
  (forall s1, kept s s1 -> moves A s1 (k s1)) -> moves A s (or_exception h k).
Proof.
  intros Hh Hx Hk s2. destruct h as [[ok s1]|]; [|done]. cbn. specialize (Hh _ _ eq_refl).
  destruct ok; [|intros [= <-]; exact (moves_tran A s s1 _ Hh Hx _ eq_refl)].
  intros E. apply (moves_after A s s1 (k s1)); auto.
Qed.

Lemma moves_and_go (A : emm_state -> Prop) s h k : keeps s h ->
  (forall s1, kept s s1 -> moves A s1 (k s1)) -> moves A s (and_go h k).
Proof.
  intros Hh Hk s2. destruct h as [[ok s1]|]; [|done]. cbn. specialize (Hh _ _ eq_refl).
  intros E. apply (moves_after A s s1 (k s1)); auto.
Qed.
#[export] Hint Resolve moves_same moves_kept moves_tran moves_or_exception moves_and_go : emm.

(** The states a state leads to, by whatever event. *)
Inductive edge : emm_state -> emm_state -> Prop :=
  | edge_start : edge emm_state_initial emm_state_de_registered
  | edge_register x y : x ∈ [emm_state_de_registered; emm_state_registered] ->
      y ∈ [emm_state_authentication; emm_state_initial_context_setup; emm_state_de_registered;
           emm_state_exception] -> edge x y
  | edge_authentication y :
      y ∈ [emm_state_security_mode; emm_state_authentication; emm_state_de_registered;
           emm_state_exception] ->
      edge emm_state_authentication y
  | edge_security_mode y :
      y ∈ [emm_state_initial_context_setup; emm_state_registered; emm_state_authentication;
           emm_state_de_registered; emm_state_exception] ->
      edge emm_state_security_mode y
  | edge_initial_context_setup y :
      y ∈ [emm_state_registered; emm_state_authentication; emm_state_de_registered;
           emm_state_exception] ->
      edge emm_state_initial_context_setup y.

Lemma edge_not_initial x : ~ edge x emm_state_initial.
Proof.
  inversion 1 as [|? y ? Hy|y Hy|y Hy|y Hy]; subst; apply (bool_decide_eq_true_2 _) in Hy; by vm_compute in Hy.
Qed.

Definition from_register : emm_state -> Prop :=
  fun y => y ∈ [emm_state_authentication; emm_state_initial_context_setup; emm_state_de_registered;
           emm_state_exception].

(** Membership in a list that is written out, and the edges of the relation. *)
Ltac listed := solve [repeat first [apply list_elem_of_here | apply list_elem_of_further]].
Ltac by_edge := solve [unfold from_register; listed | constructor; listed].

(** One goal per way through a handler. *)
Ltac moves_cases :=
  repeat first
    [ apply moves_or_exception; [solve [eauto with emm] | by_edge | intros ? ?]
    | apply moves_and_go; [solve [eauto with emm] | intros ? ?]
    | progress case_match ].
(** The ends of those ways. *)
Ltac moves_end :=
  solve [ apply moves_same | apply moves_kept; eauto with emm
        | apply moves_tran; [eauto with emm | by_edge] ].

Section moves.
Context (E : env) (self : mme_context).

Lemma detach_request_moves (A : emm_state -> Prop) s m :
  A emm_state_exception -> A emm_state_de_registered -> moves A s (detach_request E s m).
Proof.
  intros Ax Ad. unfold detach_request.
  apply (moves_after A s (send_ue_offline_to_mgmt_agent s)); [auto with emm|].
  apply moves_or_exception; [auto with emm|done|intros s1 _].
  apply moves_and_go; [auto with emm|intros s2 _]. by apply moves_tran.
Qed.

Lemma attach_request_again_moves (A : emm_state -> Prop) s m :
  A emm_state_exception -> A emm_state_authentication -> moves A s (attach_request_again E self s m).
Proof.
  intros Ax Aa. apply moves_or_exception; [auto with emm|done|intros s1 _].
  apply moves_tran; auto with emm.
Qed.

Lemma service_request_moves s m : moves from_register s (service_request_received E s m).
Proof. unfold service_request_received, from_register. moves_cases; moves_end. Qed.

Lemma common_procedure_moves p s : moves from_register s (common_procedure E self p s).
Proof. unfold common_procedure, from_register. moves_cases; moves_end. Qed.

Lemma common_message_moves p s message : moves from_register s (common_message E self p s message).
Proof.
  pose proof common_procedure_moves as P. pose proof detach_request_moves as D.
  unfold common_message. repeat case_decide.
  - apply moves_or_exception; [auto with emm|by_edge|intros s1 _].
    case_match; [apply moves_tran; [done|by_edge]|apply P].
  - apply moves_or_exception; [auto with emm|by_edge|intros s1 _; apply P].
  - apply moves_or_exception; [auto with emm|by_edge|intros s1 _].
    case_match; [|apply P]. unfold from_register. moves_cases; moves_end.
  - apply moves_same.
  - apply moves_tran; [done|by_edge].
  - apply D; by_edge.
  - apply moves_same.
Qed.

Lemma t3413_keeps s : kept s (t3413_expired E s).
Proof.
  unfold t3413_expired. case_decide; [by apply kept_set_ue|].
  case_match; [|by apply kept_set_ue]. etrans; [apply kept_send|by apply kept_set_ue].
Qed.

Lemma common_register_moves e s : moves from_register s (common_register_state E self e s).
Proof.
  unfold common_register_state. destruct e as [| |[p message| |]]; try apply moves_same.
  - destruct (enb_ue s); [|apply moves_same].
    case_decide; [apply service_request_moves|apply common_message_moves].
  - apply moves_kept, t3413_keeps.
Qed.
End moves.

Section machine.
Context (E : env) (self : mme_context).

Lemma authentication_moves e s : moves (edge emm_state_authentication) s (state_authentication E self e s).
Proof.
  unfold state_authentication. destruct e as [| |[p message| |]]; try apply moves_same.
  repeat case_decide.
  - unfold authentication_response_received. destruct (memcmp_eq _ _ _) as [[]|]; [| |done]; cbn.
    + apply moves_tran; [done|by_edge].
    + apply moves_and_go; [auto with emm|intros s1 _]. apply moves_tran; [done|by_edge].
  - unfold authentication_failure_received. case_decide; [apply moves_kept; auto with emm|].
    apply moves_and_go; [auto with emm|intros s1 _]. apply moves_tran; [done|by_edge].
  - apply attach_request_again_moves; by_edge.
  - apply moves_tran; [done|by_edge].
  - apply detach_request_moves; by_edge.
  - apply moves_same.
Qed.

Lemma security_mode_moves e s : moves (edge emm_state_security_mode) s (state_security_mode E self e s).
Proof.
  unfold state_security_mode. destruct e as [| |[p message| |]]; try apply moves_same.
  - apply moves_and_go; [apply send_built_keeps, security_mode_command_keeps|intros s1 _]. apply moves_same.
  - repeat case_decide.
    + unfold security_mode_complete_received.
      destruct (update_kenb_keeps E (ue s)) as [U1 U2].
      set (s1 := mme_s6a_send_ulr _).
      assert (kept s s1) as K.
      { etrans; [|apply ulr_keeps]. apply kept_set_ue; [done|by rewrite U2]. }
      cbn zeta. clearbody s1. repeat case_decide;
        first [apply moves_tran; [done|by_edge] | by apply moves_kept].
    + apply moves_tran; [done|by_edge].
    + apply attach_request_again_moves; by_edge.
    + apply moves_tran; [done|by_edge].
    + apply detach_request_moves; by_edge.
    + apply moves_same.
Qed.

Lemma initial_context_setup_moves e s :
  moves (edge emm_state_initial_context_setup) s (state_initial_context_setup E self e s).
Proof.
  unfold state_initial_context_setup. destruct e as [| |[p message| |]]; try apply moves_same.
  repeat case_decide.
  - apply moves_or_exception; [auto with emm|by_edge|intros s1 _]. apply moves_tran; [done|by_edge].
  - apply moves_or_exception; [auto with emm|by_edge|intros s1 _]. apply moves_tran; [auto with emm|by_edge].
  - apply moves_tran; [done|by_edge].
  - apply detach_request_moves; by_edge.
  - apply moves_same.
Qed.

Lemma moves_weaken (A B : emm_state -> Prop) s r : (forall y, A y -> B y) -> moves A s r -> moves B s r.
Proof. intros AB M s' E'. destruct (M s' E') as [G [?|?]]; auto. Qed.

Lemma handle_moves x e s : moves (edge x) s (emm_handle E self x e s).
Proof.
  destruct x; cbn.
  - apply moves_tran; [done|by_edge].
  - apply moves_same.
  - refine (moves_weaken _ _ _ _ _ (common_register_moves E self e s)). intros y Hy. apply edge_register; [listed|done].
  - refine (moves_weaken _ _ _ _ _ (common_register_moves E self e s)). intros y Hy. apply edge_register; [listed|done].
  - apply authentication_moves.
  - apply security_mode_moves.
  - apply initial_context_setup_moves.
  - apply moves_same.
Qed.

(** Entering and leaving a state changes nothing of this; the initial state sets
    the state it leaves for once more. *)
Lemma entry_keeps x s s' : x <> emm_state_initial -> emm_handle E self x ENTRY s = Some s' -> kept s s'.
Proof.
  destruct x; cbn; intros Hx; try done; try (intros [= <-]; done).
  pose proof (send_built_keeps E s _ (security_mode_command_keeps E self (ue s))) as K.
  unfold and_go. destruct (send_built _ _ _) as [[ok s1]|]; [|done]. cbn. intros [= <-].
  exact (K _ _ eq_refl).
Qed.

Lemma exit_keeps x s s' : x <> emm_state_initial -> emm_handle E self x EXIT s = Some s' -> kept s s'.
Proof. destruct x; cbn; intros Hx; try done; by intros [= <-]. Qed.

Lemma initial_dispatch e s : sm (ue s) = emm_state_initial ->
  fsm_dispatch (H := emm_machine E self) e s = Some (FSM_TRAN (FSM_TRAN s emm_state_de_registered) emm_state_de_registered).
Proof. intros X. unfold fsm_dispatch. cbn. by rewrite X. Qed.

Lemma dispatch_moves e s : moves (edge (sm (ue s))) s (fsm_dispatch (H := emm_machine E self) e s).
Proof.
  destruct (decide (sm (ue s) = emm_state_initial)) as [X|X].
  - rewrite initial_dispatch, X by done. intros s' [= <-]. split; [by exists []; auto|right; constructor].
  - unfold fsm_dispatch. cbn -[emm_handle]. intros s'.
    destruct (emm_handle E self (sm (ue s)) e s) as [s1|] eqn:H1; [|done]. cbn -[emm_handle].
    destruct (handle_moves _ _ _ _ H1) as [G1 T1]. case_decide as C; [|intros [= <-]; auto].
    destruct (emm_handle _ _ _ EXIT s1) as [s2|] eqn:H2; [|done]. cbn -[emm_handle]. intros H3.
    apply exit_keeps in H2 as [X2 G2]; [|done].
    apply entry_keeps in H3 as [X3 G3].
    + split; [by etrans; [|etrans]|]. right. destruct T1 as [T1|T1]; congruence.
    + rewrite X2. destruct T1 as [T1|T1]; [congruence|]. intros I. rewrite I in T1.
      by apply edge_not_initial in T1.
Qed.
End machine.

(** ** Steps *)

Lemma decode_mac_failed u t mac0 b :
  mac_failed u = true -> mac_failed (nas_security_decode u t mac0 b).2 = true.
Proof.
  intros M. unfold nas_security_decode.
  repeat first [done | case_match]; simplify_eq; cbn; try done.
Qed.

Section steps.
Context (E : env) (self : mme_context).

Lemma grows_sec s u : (mac_failed (sec (ue s)) = true -> mac_failed (sec u) = true) -> grows s (set_ue s u).
Proof. intros M. exists []. split; [done|]. auto. Qed.

Lemma to_nas_kept p s q b s' q' : s1ap_send_to_nas E p (s, q) b = Some (s', q') -> kept s s'.
Proof.
  unfold s1ap_send_to_nas. destruct (mload b _ 1) as [h|]; [|done]. cbn.
  destruct (header_of _) as [[t protected]|]; [|by intros [= <- <-]].
  destruct (if protected then _ else _) as [ok b1]. destruct ok; [|by intros [= <- <-]]. cbn.
  pose proof (decode_mac_failed (sec (ue s)) t (mac0 E) b1) as M.
  destruct (nas_security_decode _ _ _ b1) as [[ok b2] sec2]. cbn in M.
  set (s1 := set_ue s _). assert (kept s s1) as K by (split; [done|by apply grows_sec]).
  destruct ok; [|by intros [= <- <-]]. cbn. destruct (mload b2 _ 1) as [h2|]; [|done]. cbn.
  repeat case_decide; intros [= <- <-]; [done| |done].
  etrans; [exact K|apply kept_send].
Qed.

Lemma emm_message_moves p s b : moves (edge (sm (ue s))) s (operational_emm_message E self p s b).
Proof.
  unfold operational_emm_message. destruct (nas_emm_decode b) as [[[ok b1] m]|]; [|done]. cbn -[fsm_dispatch].
  destruct ok; [|apply moves_same]. cbn -[fsm_dispatch]. intros s' H.
  destruct (fsm_dispatch (H := emm_machine E self) _ s) as [s1|] eqn:D; [|done]. cbn in H.
  apply dispatch_moves in D as [G1 T1]. case_decide; [|by injection H as <-].
  injection H as <-. destruct (session_or_release_keeps E s1) as [K1 K2].
  split; [by etrans|]. by rewrite K1.
Qed.

Lemma ics_keeps s : kept s (s1ap_send_initial_context_setup_request E s).2.
Proof. apply kept_to_enb. Qed.

Lemma s6a_kept s m s' : operational_s6a E self s m = Some s' -> kept s s'.
Proof.
  enough (moves (fun _ => False) s (operational_s6a E self s m)) as M
    by (intros S; destruct (M _ S) as [G [?|[]]]; by split).
  destruct m as [v| |]; cbn.
  - unfold mme_s6a_handle_aia. set (s1 := set_ue s _). apply (moves_after _ s s1); [by apply kept_set_ue|].
    apply moves_and_go; [apply authentication_request_keeps|intros s2 _]. apply moves_same.
  - repeat case_decide; try apply moves_same.
    + apply moves_kept, emm_to_esm_keeps.
    + apply moves_and_go; [apply tau_accept_sent_keeps|intros s2 _]. apply moves_same.
    + apply moves_kept, ics_keeps.
  - apply moves_and_go; [apply attach_reject_keeps|intros s2 _]. apply moves_kept, kept_release.
Qed.

Lemma step_moves w i w' : step E self w i = Some w' ->
  grows w.1 w'.1 /\ (sm (ue w'.1) = sm (ue w.1) \/ edge (sm (ue w.1)) (sm (ue w'.1))).
Proof.
  destruct w as [s q], w' as [s' q'], i as [p b| |m|]; cbn [fst].
  - intros H. apply to_nas_kept in H as [K G]. auto.
  - destruct q as [|[p b] q]; cbn -[operational_emm_message]; [intros [= <- <-]; split; [done|by left]|].
    destruct (operational_emm_message _ _ _ _ _) as [s1|] eqn:M; [|done]. cbn. intros [= <- <-].
    exact (emm_message_moves _ _ _ _ M).
  - cbn. destruct (operational_s6a _ _ _ _) as [s1|] eqn:M; [|done]. cbn. intros [= <- <-].
    apply s6a_kept in M as [K G]. auto.
  - cbn -[fsm_dispatch]. unfold operational_t3413. destruct (fsm_dispatch _ s) as [s1|] eqn:M; [|done]. cbn.
    intros [= <- <-]. exact (dispatch_moves _ _ _ _ _ M).
Qed.

Lemma run_moves l : forall w w', run E self w l = Some w' ->
  grows w.1 w'.1 /\ rtc edge (sm (ue w.1)) (sm (ue w'.1)).
Proof.
  induction l as [|i l IH]; intros w w'; cbn; [by intros [= <-]|].
  destruct (step E self w i) as [w1|] eqn:S; [|done]. cbn. intros R.
  apply step_moves in S as [G1 T1]. apply IH in R as [G2 T2]. split; [by etrans|].
  destruct T1 as [T1|T1]; [by rewrite <- T1|by eapply rtc_l].
Qed.

(** The state in which a run crosses into a set of states that only some states
    lead to. *)
Lemma run_crosses (P Q : emm_state -> Prop) `{!forall x, Decision (P x)} l : forall w w',
  (forall x y, edge x y -> ~ P x -> P y -> Q x) ->
  run E self w l = Some w' -> ~ P (sm (ue w.1)) -> P (sm (ue w'.1)) ->
  exists l1 i l2 w1, l = l1 ++ i :: l2 /\ run E self w l1 = Some w1 /\ Q (sm (ue w1.1)).
Proof.
  induction l as [|i l IH]; intros w w' HQ; cbn; [by intros [= <-]|].
  destruct (step E self w i) as [w1|] eqn:S; [|done]. cbn. intros R N Y.
  destruct (decide (P (sm (ue w1.1)))) as [P1|P1].
  - exists [], i, l, w. split; [done|]. split; [done|].
    apply step_moves in S as [_ [T|T]]; [by rewrite T in P1|by eapply HQ].
  - destruct (IH w1 w' HQ R P1 Y) as (l1 & i' & l2 & w2 & -> & R2 & Q2).
    exists (i :: l1), i', l2, w2. split; [done|]. cbn. by rewrite S.
Qed.
End steps.

(** ** The theorems *)

Lemma edge_to_registered x : edge x emm_state_registered ->
  x ∈ [emm_state_security_mode; emm_state_initial_context_setup].
Proof.
  inversion 1 as [|? y ? Hy|y Hy|y Hy|y Hy]; subst; try listed;
    apply (bool_decide_eq_true_2 _) in Hy; by vm_compute in Hy.
Qed.

Lemma edge_to_security_mode x : edge x emm_state_security_mode -> x = emm_state_authentication.
Proof.
  inversion 1 as [|? y ? Hy|y Hy|y Hy|y Hy]; subst; try done;
    apply (bool_decide_eq_true_2 _) in Hy; by vm_compute in Hy.
Qed.

(** C6: the transitions of the EMM state machine, whatever messages arrive and in
    whatever order they, the answers of the HSS and the timer are served.  A run
    follows the edges; a UE in the exception state stays there; it becomes registered
    only from the security mode or the setup of the initial context, and comes to the
    security mode only from the authentication. *)
Theorem emm_transitions E self w l w' : run E self w l = Some w' ->
  let x := sm (ue w.1) in
  let y := sm (ue w'.1) in
  let passes (Q : emm_state -> Prop) := exists l1 i l2 w1,
    l = l1 ++ i :: l2 /\ run E self w l1 = Some w1 /\ Q (sm (ue w1.1)) in
  rtc edge x y /\
  (x = emm_state_exception -> y = emm_state_exception) /\
  (x <> emm_state_registered -> y = emm_state_registered ->
   passes (fun z => z ∈ [emm_state_security_mode; emm_state_initial_context_setup])) /\
  (x <> emm_state_security_mode -> y = emm_state_security_mode ->
   passes (fun z => z = emm_state_authentication)).
Proof.
  intros R x y passes. pose proof (run_moves E self l w w' R) as [_ T]. split; [exact T|]. split_and!.
  - subst x. intros X. rewrite X in T. inversion T as [|? z ? S]; [done|]. inversion S; subst.
    match goal with H : emm_state_exception ∈ _ |- _ => apply (bool_decide_eq_true_2 _) in H; by vm_compute in H end.
  - intros N Y. apply (run_crosses E self (fun z => z = emm_state_registered) _ l w w'); try done.
    intros x1 y1 Ed _ ->. by apply edge_to_registered.
  - intros N Y. apply (run_crosses E self (fun z => z = emm_state_security_mode) _ l w w'); try done.
    intros x1 y1 Ed _ ->. by apply edge_to_security_mode.
Qed.

(** A failed integrity check is not forgotten.  Once a message has failed the
    check, the context stays invalid whatever comes next, unless the MME asks the HSS
    for a new authentication vector: messages are only added to what was sent, and one
    of the new ones is then such a request. *)
Theorem mac_failure_kept E self w l w' : run E self w l = Some w' ->
  mac_failed (sec (ue w.1)) = true ->
  exists new, out w'.1 = new ++ out w.1 /\
    (Exists is_air new \/ SECURITY_CONTEXT_IS_VALID (ue w'.1) = false).
Proof.
  intros R M. destruct (run_moves E self l w w' R) as [(new & O & K) _]. exists new. split; [done|].
  destruct (K M) as [M'|A]; [right|by left].
  unfold SECURITY_CONTEXT_IS_VALID. rewrite M'. by rewrite andb_false_r.
Qed.

(** A UE in the security mode, for a tracking area update, and the two octets of a
    security mode complete. *)
Lemma emm_transitions_witness :
  let w := (EmmSample.state emm_state_security_mode MME_EPS_TYPE_TAU_REQUEST false false, []) in
  let l := [Uplink UplinkNASTransport (EmmSample.packet [0x07; 0x5e]); Deliver] in
  exists w', run EmmSample.env EmmSample.self w l = Some w' /\ sm (ue w'.1) = emm_state_registered /\
    rtc edge emm_state_security_mode emm_state_registered.
Proof.
  intros w l.
  assert (((fun w => sm (ue w.1)) <$> run EmmSample.env EmmSample.self w l) = Some emm_state_registered) as S
    by (vm_compute; reflexivity).
  destruct (run EmmSample.env EmmSample.self w l) as [w'|] eqn:R; [|discriminate S]. injection S as S.
  exists w'. split; [done|]. split; [done|].
  destruct (emm_transitions EmmSample.env EmmSample.self w l w' R) as (T & _). by rewrite S in T.
Defined.

(** A status message that comes after a failed check. *)
Lemma mac_failure_kept_witness :
  let w := (EmmSample.state emm_state_registered 0 true true, []) in
  let l := [Uplink UplinkNASTransport (EmmSample.packet [0x07; 0x60; 111]); Deliver] in
  exists w' new, run EmmSample.env EmmSample.self w l = Some w' /\ out w'.1 = new ++ [] /\
    (Exists is_air new \/ SECURITY_CONTEXT_IS_VALID (ue w'.1) = false).
Proof.
  intros w l.
  destruct (run EmmSample.env EmmSample.self w l) as [w'|] eqn:R; [|by vm_compute in R].
  destruct (mac_failure_kept EmmSample.env EmmSample.self w l w' R) as (new & O & A); [done|].
  by exists w', new.
Defined.

End EmmSpec.
