(* ===== verification/EmmMessages.v ===== *)
(** The messages of [EmmBuild] on the wire: the security mode command, which selects
    the algorithms and derives the keys, and the authentication request. *)

From S2P Require Import Prelude Sha2Spec Hmac MilenageSpec Kdf Pkbuf NasIes NasIesSpec NasIesCodecs NasMessage NasMessageSpec NasTables NasDecoder NasEncoder NasCodecs NasCodecSpec NasSecurity NasSecuritySpec NasProtection EmmContext EmmBuild.

Module EmmMessages.
Import Pkbuf NasIes NasIesSpec NasIesCodecs NasMessage NasMessageSpec NasTables NasDecoder NasEncoder NasCodecs NasCodecSpec.
Import NasSecurity NasSecuritySpec NasProtection Kdf KdfSpec EmmContext EmmBuild.
#[local] Open Scope Z_scope.

(** ** Messages that only the MME sends *)

(** The decoder of [NasDecoder] reads the key set identifier of these from the wrong
    octet, so that they are no codecs of [NasCodecs]; here, the encoder is paired with
    a decoder that reads the octet. *)
Definition key_set_identifier_row (f : string) : row :=
  Row f sizeof_key_set_identifier nas_encode_key_set_identifier _ (plain_v sizeof_key_set_identifier eq_refl).

Definition security_mode_command_rows : list row :=
  [Row "selected_nas_security_algorithms" _ _ _ security_algorithms_codec;
   key_set_identifier_row "nas_key_set_identifier";
   Row "replayed_ue_security_capabilities" _ _ _ ue_security_capability_codec].
Definition security_mode_command_options : list option_row :=
  [Half 0xc0 0x1 "imeisv_request" nas_encode_imeisv_request nas_decode_imeisv_request _;
   Full 0x55 0x2 (Row "replayed_nonceue" _ nas_encode_nonce nas_decode_nonce _);
   Full 0x56 0x4 (Row "noncemme" _ nas_encode_nonce nas_decode_nonce _)].
Definition security_mode_command_codec : codec.
Proof.
  refine (Codec nas_security_mode_command_t security_mode_command_rows security_mode_command_options true
            nas_encode_security_mode_command _ _ eq_refl _ _); done.
Defined.

Definition authentication_request_codec : codec.
Proof.
  refine (Codec nas_authentication_request_t
    [key_set_identifier_row "nas_key_set_identifierasme";
     Row "authentication_parameter_rand" _ nas_encode_authentication_parameter_rand nas_decode_authentication_parameter_rand _;
     Row "authentication_parameter_autn" _ nas_encode_authentication_parameter_autn nas_decode_authentication_parameter_autn _]
    [] true nas_encode_authentication_request _ _ eq_refl _ _); done.
Defined.

Lemma mme_encodes :
  switch nas_emm_encoders NAS_SECURITY_MODE_COMMAND = Some (Some (mc_encode security_mode_command_codec)) /\
  switch nas_emm_encoders NAS_AUTHENTICATION_REQUEST = Some (Some (mc_encode authentication_request_codec)).
Proof. done. Qed.

(** ** The security mode command *)

(** The first algorithm of the order of the MME that the UE has. *)
Definition chosen (order : list Z) (capability a : Z) : Prop :=
  exists before after, order = before ++ a :: after /\
    capability .& (0x80 >> a) <> 0 /\ Forall (fun x => capability .& (0x80 >> x) = 0) before.

Lemma select_chosen order capability a old :
  chosen order capability a -> select_algorithm order capability old = a.
Proof.
  intros (before & after & -> & Ha & Hb). unfold select_algorithm.
  induction Hb as [|x before Hx _ IH]; cbn.
  - by rewrite bool_decide_false.
  - by rewrite bool_decide_true.
Qed.

Definition security_mode_command_body (algorithms : Z) (capabilities : list Z) : body :=
  set_st "replayed_ue_security_capabilities" capabilities
    (set_st "nas_key_set_identifier" [0]
      (set_st "selected_nas_security_algorithms" [algorithms] (zero_body nas_security_mode_command_t))).

Definition capabilities_ok (l : list Z) : Prop :=
  length l = sizeof_ue_security_capability /\ bytes l /\ 0 <= rd l 0 <= 5.

Lemma replayed_ok ue_cap ms_cap : bytes ue_cap -> bytes ms_cap -> capabilities_ok (replayed_capabilities ue_cap ms_cap).
Proof.
  intros Hu Hm.
  assert (inw 8 (gea ms_cap)) as Hg.
  { unfold gea. apply inw_lor; [lia| |apply inw_land_r; [lia|by_decide]].
    apply (inw_mono (1 + 6)); [lia|]. apply inw_shiftl; [lia..|]. apply inw_shiftr; [lia..|]. by apply rd_byte. }
  unfold replayed_capabilities. split; [done|]. split.
  - repeat apply Forall_cons_2; try done; try (by apply rd_byte).
    + repeat case_decide; by_decide.
    + apply inw_land_r; [lia|by_decide].
  - match goal with |- context [rd (?x :: ?l) 0] => change (rd (x :: l) 0) with x end.
    repeat case_decide; lia.
Qed.

Lemma security_mode_command_wf a l : capabilities_ok l ->
  mc_wf security_mode_command_codec (security_mode_command_body a l) /\
  mc_wire security_mode_command_codec (security_mode_command_body a l) =
    [a; 0] ++ take (1 + Z.to_nat (rd l 0)) l.
Proof.
  intros (Hl & Hb & H0). destruct l as [|x l]; [done|]. change (rd (x :: l) 0) with x in *.
  pose proof (le_value_1 x l) as Ex.
  split.
  - split.
    + repeat apply Forall_cons_2; [..|done]; eexists; (split; [reflexivity|]); [done|done|].
      split_and!; [done|by apply Forall_take|]. unfold lv_size. cbn [NasIes.st]. rewrite Ex.
      unfold sizeof_ue_security_capability. lia.
    + repeat apply Forall_cons_2; [..|done]; intros [=].
  - transitivity (a :: 0 :: (take (lv_size 1 (mkIe (x :: l) None)) (x :: l) ++ []) ++ []); [reflexivity|].
    rewrite !app_nil_r. unfold lv_size. cbn [NasIes.st]. rewrite Ex. cbn [app]. do 3 f_equal. lia.
Qed.

(** ** The packets *)

(** What the packet buffers give: room for [n] octets behind a headroom, and the
    local variables of the hash functions have their sizes. *)
Definition env_ok (E : env) (n : nat) : Prop :=
  locals_ok (hash_locals E) /\
  exists alloc pre old post, fresh_pkbuf E = Some alloc /\ view alloc pre old post /\ bytes (mem alloc) /\
    (14 <= length pre)%nat /\ (n + 3 <= length old)%nat /\ Z.of_nat (length old) < 2 ^ 15.

(** What [nas_security_encode] makes of the counts and flags. *)
Definition sent (u : mme_ue) (new : bool) : mme_ue :=
  let u := if new then set_ul_count (set_dl_count u 0) (mkCount 0 0 0) else u in
  set_available (set_dl_count u ((dl_count u + 1) mod 2 ^ 24)).

Definition null_or_known (alg : Z) : Prop := alg = 0 \/ known alg.

Lemma build_secure_ok E u sht t c m :
  switch nas_emm_encoders t = Some (Some (mc_encode c)) -> inw 8 t ->
  mc_wf c m -> bytes (mc_wire c m) -> env_ok E (2 + length (mc_wire c m)) -> 1 <= sht <= 4 ->
  known (selected_int_algorithm (sec u)) -> null_or_known (selected_enc_algorithm (sec u)) ->
  let s := sec u in
  let new := bool_decide (3 <= sht) in
  let ci := bool_decide (sht = 2 \/ sht = 4) && negb (bool_decide (selected_enc_algorithm s = 0)) in
  exists b,
    build_secure E u sht (emm_message t m) = Some (true, Some b, set_sec u (sent s new)) /\
    payload_bytes b =
      protected (selected_enc_algorithm s) (selected_int_algorithm s) (knas_enc s) (knas_int s)
        (if new then 0 else dl_count s) NAS_SECURITY_DOWNLINK_DIRECTION ci
        ((sht << 4) .| NAS_PROTOCOL_DISCRIMINATOR_EMM) ([NAS_PROTOCOL_DISCRIMINATOR_EMM; t] ++ mc_wire c m).
Proof.
  intros Hsw Ht Hwf Hbw (_ & alloc & pre & old & post & Ha & Hv & Hb & Hpre & Hold & H15) Hsht Hint Henc s new ci.
  destruct (emm_protected_known s sht NAS_PROTOCOL_DISCRIMINATOR_EMM t c [NAS_PROTOCOL_DISCRIMINATOR_EMM; t] m alloc
    pre old post (mac0 E) None) as (b & m' & b' & E1 & E2 & E3); try done.
  - split_and!; [done|cbn [length]; lia..].
  - apply Forall_app_2; [|done]. repeat apply Forall_cons_2; done || by_decide.
  - unfold NasProtection.plain. rewrite length_app. cbn [length]. lia.
  - exists b'. unfold build_secure, EmmBuild.plain, emm_message. rewrite Ha, E1. cbn [mbind option_bind].
    fold s. rewrite E2. cbn [enc_ok enc_buf enc_ue]. split.
    + reflexivity.
    + rewrite E3. unfold new. by case_bool_decide.
Qed.

(** ** Plain messages *)

Lemma build_plain_ok E u t c m :
  switch nas_emm_encoders t = Some (Some (mc_encode c)) -> mc_wf c m -> env_ok E (2 + length (mc_wire c m)) ->
  exists b, build_plain E u (emm_message t m) = Some (true, Some b, u) /\
    payload_bytes b = [NAS_PROTOCOL_DISCRIMINATOR_EMM; t] ++ mc_wire c m.
Proof.
  intros Hsw Hwf (_ & alloc & pre & old & post & Ha & Hv & _ & _ & Hold & H15).
  destruct (emm_encode_known t c [NAS_PROTOCOL_DISCRIMINATOR_EMM; t] m alloc pre old post) as (b & m' & E1 & Hb);
    [done..| |].
  - split_and!; [done|cbn [length]; lia..].
  - exists b. split; [|exact (view_payload _ _ _ _ Hb)].
    unfold build_plain, EmmBuild.plain, emm_message, nas_plain_encode. rewrite Ha. cbn [hdr].
    rewrite decide_True by done. by rewrite E1.
Qed.

(** A message that is its header. *)
Lemma build_header_ok E u t m : switch nas_emm_encoders t = Some None -> env_ok E 2 ->
  exists b, build_plain E u (emm_message t m) = Some (true, Some b, u) /\
    payload_bytes b = [NAS_PROTOCOL_DISCRIMINATOR_EMM; t].
Proof.
  intros Hsw (_ & alloc & pre & old & post & Ha & Hv & _ & _ & Hold & H15).
  destruct (header_written alloc pre old post [NAS_PROTOCOL_DISCRIMINATOR_EMM; t] [] Hv)
    as (b1 & b2 & o & rest & E1 & E2 & Hv2 & Ho & Hr & Hn); [split_and!; [done|cbn [length]; lia..]|].
  apply nil_length_inv in Ho as ->. cbn [app] in Hv2.
  destruct (encode_out_ok [NAS_PROTOCOL_DISCRIMINATOR_EMM; t] [NAS_PROTOCOL_DISCRIMINATOR_EMM; t] [] b2 pre rest post m 2)
    as (b & E3 & Hb); [by rewrite app_nil_r|done|done|cbn [length] in *; lia|done|].
  rewrite app_nil_r in Hb. exists b. split; [|exact (view_payload _ _ _ _ Hb)].
  unfold build_plain, EmmBuild.plain, emm_message, nas_plain_encode, nas_emm_encode. rewrite Ha. cbn [hdr nas take].
  rewrite decide_True by done.
  change (- Z.of_nat (length [NAS_PROTOCOL_DISCRIMINATOR_EMM; t])) with (-2) in E1.
  change (Z.of_nat (length [NAS_PROTOCOL_DISCRIMINATOR_EMM; t])) with 2 in E2.
  rewrite E1. cbn [negb]. rewrite E2. cbn [mbind option_bind].
  change (security_header_type _) with 0. rewrite decide_False by by_decide.
  unfold encode_by_type. change (emm_message_type _) with t. rewrite Hsw.
  change (Z.of_nat (length [NAS_PROTOCOL_DISCRIMINATOR_EMM; t])) with 2. by rewrite E3.
Qed.

(** ** The keys *)

Lemma security_mode_command_built E self u int enc :
  let k := key u in
  let capabilities := replayed_capabilities (ue_network_capability k) (ms_network_capability k) in
  let knas_int' := Ts33401.knas (kasme k) MME_KDF_NAS_INT_ALG int in
  let knas_enc' := Ts33401.knas (kasme k) MME_KDF_NAS_ENC_ALG enc in
  chosen (integrity_order self) (eia (ue_network_capability k)) int -> known int ->
  chosen (ciphering_order self) (eea (ue_network_capability k)) enc -> null_or_known enc ->
  MilenageSpec.is_block 32 (kasme k) -> bytes (ue_network_capability k) -> bytes (ms_network_capability k) ->
  length (knas_int (sec u)) = 16%nat -> length (knas_enc (sec u)) = 16%nat -> env_ok E 10 ->
  exists b,
    emm_build_security_mode_command E self u =
      Some (true, Some b, set_sec u (NasSecurity.mkUe enc int knas_enc' knas_int' 1 (mkCount 0 0 0)
                                       true (mac_failed (sec u)))) /\
    payload_bytes b =
      protected enc int knas_enc' knas_int' 0 NAS_SECURITY_DOWNLINK_DIRECTION false 0x37
        ([0x07; 0x5d; (enc << 4) .| int; 0] ++ take (1 + Z.to_nat (rd capabilities 0)) capabilities).
Proof.
  intros k caps knas_int' knas_enc' Hci Hki Hce Hke Hkasme Bu Bm Li Le HE.
  assert (inw 8 int /\ inw 8 enc) as [Wi We].
  { destruct Hki as [->|[->| ->]], Hke as [->|[->|[->| ->]]]; split; by_decide. }
  pose proof (replayed_ok _ _ Bu Bm) as Hcap. fold caps in Hcap.
  destruct (security_mode_command_wf ((enc << 4) .| int) caps Hcap) as [Hwf Hw].
  unfold emm_build_security_mode_command. fold k. rewrite (select_chosen _ _ _ _ Hci), (select_chosen _ _ _ _ Hce).
  rewrite (nas_string _ MME_KDF_NAS_INT_ALG), (nas_string _ MME_KDF_NAS_ENC_ALG);
    [|apply HE|exact Hkasme|by_decide|exact We|exact Le|apply HE|exact Hkasme|by_decide|exact Wi|exact Li].
  fold knas_int' knas_enc' caps. set (u1 := set_sec u _).
  destruct (build_secure_ok E u1 3 NAS_SECURITY_MODE_COMMAND security_mode_command_codec
    (security_mode_command_body ((enc << 4) .| int) caps)) as (b & E1 & E2);
    [apply mme_encodes|by_decide|exact Hwf| | |lia|exact Hki|exact Hke|].
  - rewrite Hw. apply Forall_app_2; [|by apply Forall_take, Hcap].
    repeat apply Forall_cons_2; [|by_decide|done].
    destruct Hki as [->|[->| ->]], Hke as [->|[->|[->| ->]]]; by_decide.
  - rewrite Hw. destruct Hcap as (_ & _ & H0). destruct HE as (HL & alloc & pre & old & post & HE).
    split; [done|]. exists alloc, pre, old, post. split_and!; try apply HE.
    destruct HE as (_ & _ & _ & _ & HE & _). rewrite length_app, length_take. cbn [length]. lia.
  - exists b. unfold INTEGRITY_PROTECTED_AND_NEW_SECURITY_CONTEXT.
    change (set_st "replayed_ue_security_capabilities" caps _) with (security_mode_command_body ((enc << 4) .| int) caps).
    rewrite E1. cbn [mbind option_bind]. rewrite bool_decide_true by done. split; [reflexivity|].
    rewrite E2, Hw. reflexivity.
Qed.

End EmmMessages.
