(* ===== verification/EmmSecurity.v ===== *)
(** What a UE must prove: the authentication response, the security mode procedure
    and the service request, from the packet that comes in to the messages that go
    out. *)

From S2P Require Import Prelude Sha2 Sha2Spec Hmac MilenageSpec Kdf Hash Pkbuf NasIes NasIesSpec NasMessage NasMessageSpec NasTables NasDecoder NasEncoder NasCodecs NasCodecSpec NasSecurity NasSecuritySpec NasProtection Fsm EmmContext EmmBuild EmmHandler EmmSm EmmSample EmmMessages EmmSpec.

Module EmmSecurity.
Import Sha2 Sha2Spec Hmac HmacSpec Kdf KdfSpec Hash Pkbuf NasIes NasIesSpec NasMessage NasMessageSpec NasTables NasDecoder NasEncoder NasCodecs.
Import NasCodecSpec NasSecurity NasSecuritySpec NasProtection Fsm EmmContext EmmBuild EmmHandler EmmSm EmmMessages EmmSpec.
#[local] Open Scope Z_scope.

(** ** Messages that come in *)

Lemma set_ue_same s : set_ue s (ue s) = s.
Proof. by destruct s. Qed.
Lemma set_sec_same u : set_sec u (sec u) = u.
Proof. by destruct u. Qed.

(** The handler of a plain EMM message gets the packet as it is. *)
Lemma uplink_plain E p s q b pre m post :
  view b pre (0x07 :: m) post -> s1ap_send_to_nas E p (s, q) b = Some (s, q ++ [(p, b)]).
Proof.
  intros Hv. pose proof (mload_front b pre [0x07] m post 1 Hv eq_refl) as L.
  unfold s1ap_send_to_nas. rewrite L. cbn [mbind option_bind].
  change (header_of (rd [0x07] 0)) with (Some (mkHeaderType false false false false, false)). cbn [negb].
  change (nas_security_decode (sec (ue s)) _ (mac0 E) b) with (true, b, sec (ue s)). cbn [negb].
  rewrite set_sec_same, set_ue_same, L. reflexivity.
Qed.

(** What the machine makes of a decoded message, when the event is the first of the
    queue. *)
Lemma deliver_decoded E self p s b b' message q :
  nas_emm_decode b = Some (true, b', message) ->
  step E self (s, (p, b) :: q) Deliver =
    (s ← fsm_dispatch (H := emm_machine E self) (User (MME_EVT_EMM_MESSAGE p message)) s;
     Some (if decide (sm (ue s) = emm_state_exception)
           then (mme_send_delete_session_or_ue_context_release E s).2 else s, q)).
Proof.
  intros D. unfold step, operational_emm_message. rewrite D. cbn [mbind option_bind negb].
  destruct (fsm_dispatch _ s) as [s1|]; [|done]. cbn [mbind option_bind]. by case_decide.
Qed.

(** ** The authentication response *)

(** The message with the parameter [res]. *)
Definition authentication_response_body (res : list Z) : body :=
  mkBody 0 {["authentication_response_parameter" :=
    mkIe (Z.of_nat (length res) :: res ++ replicate (16 - length res) 0) None]}.

Lemma authentication_response_wf res : bytes res -> (length res <= 16)%nat ->
  mc_wf authentication_response_codec (authentication_response_body res) /\
  mc_wire authentication_response_codec (authentication_response_body res) = Z.of_nat (length res) :: res /\
  mc_received authentication_response_codec (authentication_response_body res) = authentication_response_body res.
Proof.
  intros Hb Hl. set (v := mkIe (Z.of_nat (length res) :: res ++ replicate (16 - length res) 0) None).
  assert (lv_size 1 v = S (length res)) as Hs.
  { unfold lv_size. cbn [NasIes.st v]. rewrite le_value_1. lia. }
  assert (lv_ok 1 sizeof_authentication_response_parameter v) as Hok.
  { split_and!; [|repeat constructor; unfold inw; lia|rewrite Hs; unfold sizeof_authentication_response_parameter; lia].
    cbn [NasIes.st v length]. rewrite length_app, length_replicate. unfold sizeof_authentication_response_parameter. lia. }
  assert (take (lv_size 1 v) (NasIes.st v) = Z.of_nat (length res) :: res) as Ht.
  { rewrite Hs. cbn [NasIes.st v take]. by rewrite take_app_length. }
  split_and!.
  - split; [|constructor]. apply Forall_cons_2; [|constructor]. by exists v.
  - transitivity ((take (lv_size 1 v) (NasIes.st v) ++ []) ++ []); [reflexivity|]. by rewrite !app_nil_r.
  - transitivity (mkBody 0 (<["authentication_response_parameter" :=
      NasIesSpec.received sizeof_authentication_response_parameter (fun s => s) (take (lv_size 1 v) (NasIes.st v))]>
      (zero_fields nas_authentication_response_t))); [reflexivity|].
    rewrite (lv_plain_norm 1 _ v Hok eq_refl).
    + reflexivity.
    + rewrite Hs. cbn [NasIes.st v drop]. by rewrite drop_app_length.
Qed.

Lemma authentication_response_decode res b pre post :
  bytes res -> (length res <= 16)%nat ->
  view b pre (0x07 :: 0x53 :: Z.of_nat (length res) :: res) post ->
  exists b', nas_emm_decode b = Some (true, b', mkMessage [0x07; 0x53] (authentication_response_body res)).
Proof.
  intros Hb Hl Hv. destruct (authentication_response_wf res Hb Hl) as (Hwf & Hw & Hr).
  destruct (emm_decode_ok NAS_AUTHENTICATION_RESPONSE authentication_response_codec [0x07; 0x53]
    (authentication_response_body res) b pre post) as (b' & D & _); [|done|done|done|exact Hwf|by rewrite Hw| |].
  - unfold emm_codecs. repeat first [apply list_elem_of_here | apply list_elem_of_further].
  - rewrite Hw. cbn [length]. lia.
  - rewrite Hr in D. by exists b'.
Qed.

(** What the MME does with it, in full. *)
Definition accepted (E : env) (self : mme_context) (s : st) : option world :=
  let s := FSM_TRAN s emm_state_security_mode in
  '(_, s) ← send_built E s (emm_build_security_mode_command E self (ue s)); Some (s, []).
Definition rejected (E : env) (s : st) : option world :=
  '(_, s) ← nas_send_authentication_reject E s;
  Some ((mme_send_delete_session_or_ue_context_release E (FSM_TRAN s emm_state_exception)).2, []).

Lemma response_run E self s p b pre post res :
  sm (ue s) = emm_state_authentication ->
  bytes res -> (length res <= 16)%nat -> (length res <= length (xres (key (ue s))))%nat ->
  view b pre (0x07 :: 0x53 :: Z.of_nat (length res) :: res) post ->
  run E self (s, []) [Uplink p b; Deliver] =
    if decide (res = take (length res) (xres (key (ue s)))) then accepted E self s else rejected E s.
Proof.
  intros Hs Hb Hl Hx Hv. destruct (authentication_response_decode res b pre post Hb Hl Hv) as (b' & D).
  cbn [run step]. rewrite (uplink_plain E p s [] b pre _ post Hv). cbn [mbind option_bind app].
  rewrite (deliver_decoded E self p s b b' _ [] D).
  unfold fsm_dispatch. cbn [fsm_state handle emm_machine]. rewrite Hs. cbn [emm_handle state_authentication].
  cbn [nas hdr]. rewrite decide_True by done.
  unfold authentication_response_received.
  change (field (authentication_response_body res) "authentication_response_parameter") with
    (Z.of_nat (length res) :: res ++ replicate (16 - length res) 0).
  change (rd (?x :: _) 0) with x. change (drop 1 (_ :: ?l)) with l.
  unfold memcmp_eq. rewrite decide_True by (rewrite length_app; lia). cbn [mbind option_bind].
  rewrite Nat2Z.id, take_app_length. case_decide as C.
  - rewrite bool_decide_true by done. cbn [mbind option_bind].
    change (sm (ue (FSM_TRAN s ?x))) with x. rewrite decide_True by done. cbn [emm_handle state_security_mode].
    unfold and_go, accepted. set (s1 := FSM_TRAN s emm_state_security_mode).
    pose proof (send_built_keeps E s1 _ (security_mode_command_keeps E self (ue s1))) as K.
    destruct (send_built _ _ _) as [[ok s2]|]; [|done]. cbn [mbind option_bind].
    destruct (K _ _ eq_refl) as [-> _]. done.
  - rewrite bool_decide_false by done. unfold and_go, rejected.
    destruct (nas_send_authentication_reject E s) as [[ok s1]|]; [|done]. cbn [mbind option_bind].
    change (sm (ue (FSM_TRAN s1 ?x))) with x. rewrite decide_True by done. cbn [emm_handle mbind option_bind].
    change (sm (ue (FSM_TRAN s1 ?x))) with x. by rewrite decide_True by done.
Qed.

(** ** Messages that go out *)

(** There is an eNB, and the layers below take what is sent. *)
Definition delivers (E : env) (s : st) : Prop := enb_ue s <> None /\ forall o, accepts E o = true.

Lemma to_enb_ok E s o : delivers E s -> to_enb E s o = (true, send s o).
Proof. intros [He Ha]. unfold to_enb. rewrite Ha. by destruct (enb_ue s). Qed.

Lemma downlink_ok E s b l : delivers E s -> payload_bytes b = l ->
  nas_send_to_downlink_nas_transport E s (Some b) = (true, send s (DownlinkNasTransport l)).
Proof. intros Hd <-. by apply to_enb_ok. Qed.

(** What a security mode command needs, with the algorithms it selects. *)
Record keyed (E : env) (self : mme_context) (u : mme_ue_t) (int enc : Z) : Prop := {
  k_int : chosen (integrity_order self) (eia (ue_network_capability (key u))) int;
  k_int_known : known int;
  k_enc : chosen (ciphering_order self) (eea (ue_network_capability (key u))) enc;
  k_enc_known : null_or_known enc;
  k_kasme : MilenageSpec.is_block 32 (kasme (key u));
  k_ue_cap : bytes (ue_network_capability (key u));
  k_ms_cap : bytes (ms_network_capability (key u));
  k_knas_int : length (knas_int (sec u)) = 16%nat;
  k_knas_enc : length (knas_enc (sec u)) = 16%nat;
  k_env : env_ok E 10
}.

Lemma keyed_sm E self u int enc x : keyed E self u int enc -> keyed E self (set_sm u x) int enc.
Proof. by intros []. Qed.

(** *** The UE security capability of TS 24.301, 9.9.3.36

    The algorithms that a UE has, read off the elements it sent, whose first octet is
    their length: the UE network capability has one octet each for EEA0 to EEA7, EIA0
    to EIA7, UEA0 to UEA7 and, after a bit of another meaning, UIA1 to UIA7, the first
    in the most significant bit; the MS network capability has GEA1 in the most
    significant bit of its first octet and GEA2 to GEA7 in six bits of its second,
    after one other. *)
Definition has_eea (ue_cap : list Z) (n : Z) : bool := Z.testbit (rd ue_cap 1) (7 - n).
Definition has_eia (ue_cap : list Z) (n : Z) : bool := Z.testbit (rd ue_cap 2) (7 - n).
Definition has_uea (ue_cap : list Z) (n : Z) : bool := Z.testbit (rd ue_cap 3) (7 - n).
Definition has_uia (ue_cap : list Z) (n : Z) : bool := bool_decide (1 <= n) && Z.testbit (rd ue_cap 4) (7 - n).
Definition has_gea (ms_cap : list Z) (n : Z) : bool :=
  if decide (n = 1) then Z.testbit (rd ms_cap 1) 7
  else bool_decide (2 <= n) && Z.testbit (rd ms_cap 2) (8 - n).

(** The octet of eight algorithms, number 0 in the most significant bit. *)
Definition octet_of (has : Z -> bool) : Z :=
  foldr (fun n z => Z.b2z (has n) * 2 ^ (7 - n) + z) 0 (seqZ 0 8).
Definition has_any (has : Z -> bool) : bool := existsb has (seqZ 0 8).

(** The octets for UMTS are there when there is an algorithm for UMTS or GPRS, the
    one for GPRS when there is one for GPRS. *)
Definition ue_security_capability (ue_cap ms_cap : list Z) : list Z :=
  let value :=
    [octet_of (has_eea ue_cap); octet_of (has_eia ue_cap)] ++
    (if has_any (has_gea ms_cap)
     then [octet_of (has_uea ue_cap); octet_of (has_uia ue_cap); octet_of (has_gea ms_cap)]
     else if has_any (has_uea ue_cap) || has_any (has_uia ue_cap)
          then [octet_of (has_uea ue_cap); octet_of (has_uia ue_cap)]
          else []) in
  Z.of_nat (length value) :: value.

Lemma has_any_octet has : has_any has = bool_decide (octet_of has <> 0).
Proof.
  unfold has_any, octet_of. change (seqZ 0 8) with [0; 1; 2; 3; 4; 5; 6; 7]. cbn [existsb foldr].
  by destruct (has 0), (has 1), (has 2), (has 3), (has 4), (has 5), (has 6), (has 7).
Qed.

Lemma octet_of_byte z : inw 8 z -> octet_of (fun n => Z.testbit z (7 - n)) = z.
Proof. revert z. refine (bytes_forall _ _). by vm_compute. Qed.

Lemma octet_of_uia z : inw 8 z -> octet_of (fun n => bool_decide (1 <= n) && Z.testbit z (7 - n)) = z .& 0x7f.
Proof. revert z. refine (bytes_forall _ _). by vm_compute. Qed.

Lemma octet_of_gea z1 z2 : inw 8 z1 -> inw 8 z2 ->
  octet_of (fun n => if decide (n = 1) then Z.testbit z1 7 else bool_decide (2 <= n) && Z.testbit z2 (8 - n)) =
    ((z1 >> 7) << 6) .| ((z2 >> 1) .& 0x3f).
Proof.
  intros H1 H2. assert (z1 >> 7 = Z.b2z (Z.testbit z1 7)) as ->.
  { revert z1 H1. refine (bytes_forall _ _). by vm_compute. }
  destruct (Z.testbit z1 7); revert z2 H2; refine (bytes_forall _ _); by vm_compute.
Qed.

(** It is what [emm_build_security_mode_command] makes of the two elements. *)
Lemma replayed_capabilities_spec ue_cap ms_cap : bytes ue_cap -> bytes ms_cap ->
  let l := replayed_capabilities ue_cap ms_cap in
  take (1 + Z.to_nat (rd l 0)) l = ue_security_capability ue_cap ms_cap.
Proof.
  intros Hu Hm. unfold ue_security_capability. rewrite !has_any_octet.
  assert (octet_of (has_eea ue_cap) = eea ue_cap) as -> by by apply octet_of_byte, rd_byte.
  assert (octet_of (has_eia ue_cap) = eia ue_cap) as -> by by apply octet_of_byte, rd_byte.
  assert (octet_of (has_uea ue_cap) = uea ue_cap) as -> by by apply octet_of_byte, rd_byte.
  assert (octet_of (has_uia ue_cap) = uia ue_cap .& 0x7f) as -> by by apply octet_of_uia, rd_byte.
  assert (octet_of (has_gea ms_cap) = gea ms_cap) as -> by (apply octet_of_gea; by apply rd_byte).
  unfold replayed_capabilities. set (ua := uia ue_cap .& 0x7f). set (g := gea ms_cap).
  rewrite <- bool_decide_or. destruct (decide (g <> 0)) as [Hg|Hg].
  { by rewrite (bool_decide_true (g <> 0) Hg). }
  rewrite (bool_decide_false (g <> 0) Hg). destruct (decide (uea ue_cap <> 0 \/ ua <> 0)) as [Hx|Hx].
  - by rewrite (bool_decide_true _ Hx).
  - by rewrite (bool_decide_false _ Hx).
Qed.

(** The security context that the command establishes, and the command. *)
Definition knas (u : mme_ue_t) (ty alg : Z) : list Z := Ts33401.knas (kasme (key u)) ty alg.
Definition new_context (u : mme_ue_t) (int enc : Z) : mme_ue :=
  NasSecurity.mkUe enc int (knas u MME_KDF_NAS_ENC_ALG enc) (knas u MME_KDF_NAS_INT_ALG int) 1 (mkCount 0 0 0)
    true (mac_failed (sec u)).
Definition command (u : mme_ue_t) (int enc : Z) : list Z :=
  protected enc int (knas u MME_KDF_NAS_ENC_ALG enc) (knas u MME_KDF_NAS_INT_ALG int) 0
    NAS_SECURITY_DOWNLINK_DIRECTION false 0x37
    ([0x07; 0x5d; (enc << 4) .| int; 0] ++
     ue_security_capability (ue_network_capability (key u)) (ms_network_capability (key u))).

Lemma command_sent E self s int enc : keyed E self (ue s) int enc -> delivers E s ->
  send_built E s (emm_build_security_mode_command E self (ue s)) =
    Some (true, send (set_ue s (set_sec (ue s) (new_context (ue s) int enc)))
                  (DownlinkNasTransport (command (ue s) int enc))).
Proof.
  intros K Hd. destruct (security_mode_command_built E self (ue s) int enc) as (b & B & Eb); try apply K.
  unfold send_built. rewrite B. cbn [mbind option_bind negb].
  rewrite replayed_capabilities_spec in Eb by apply K.
  by rewrite (downlink_ok _ _ _ _ (Hd : delivers E (set_ue s _)) Eb).
Qed.

(** C9: the security mode command, sent on entry to the state of that name.  The
    algorithms are the first of the MME's orders that the UE network capability has,
    where it has one;
    the NAS keys are those of TS 33.401, annex A.7, from K_ASME; the counts start
    again.  The message has the security header type 3, is not ciphered, and has the
    code under the new integrity key and count 0.  It carries the algorithms, the key
    set identifier 0 and the UE security capability of TS 24.301, 9.9.3.36: the EEA,
    EIA, UEA and UIA algorithms (UIA without the bit in front of UIA1) of the UE
    network capability and the GEA algorithms of the MS network capability that the
    UE sent, each at its bit, without the two octets for UMTS when the UE has no
    algorithm for UMTS or GPRS, and without the one for GPRS when it has none for GPRS
    ([ue_security_capability]). *)
Theorem security_mode_command E self s int enc : keyed E self (ue s) int enc -> delivers E s ->
  emm_handle E self emm_state_security_mode ENTRY s =
    Some (send (set_ue s (set_sec (ue s) (new_context (ue s) int enc)))
            (DownlinkNasTransport (command (ue s) int enc))).
Proof.
  intros K Hd. cbn [emm_handle state_security_mode]. unfold and_go.
  by rewrite (command_sent E self s int enc K Hd).
Qed.

(** C8: the authentication response.  Its first octet says how many octets are compared
    with XRES: when those that came are a prefix of XRES, the machine goes on to the
    security mode and sends the command of [security_mode_command]; otherwise the UE is
    sent an authentication reject and the machine ends in the exception state, which
    releases the UE.  The length of XRES has no part in it. *)
Theorem authentication_response E self s p b pre post res int enc :
  sm (ue s) = emm_state_authentication ->
  bytes res -> (length res <= 16)%nat -> (length res <= length (xres (key (ue s))))%nat ->
  view b pre (0x07 :: 0x53 :: Z.of_nat (length res) :: res) post ->
  keyed E self (ue s) int enc -> delivers E s ->
  run E self (s, []) [Uplink p b; Deliver] =
    if decide (res = take (length res) (xres (key (ue s)))) then
      let s := FSM_TRAN s emm_state_security_mode in
      Some (send (set_ue s (set_sec (ue s) (new_context (ue s) int enc)))
              (DownlinkNasTransport (command (ue s) int enc)), [])
    else
      let s := FSM_TRAN (send s (DownlinkNasTransport [0x07; NAS_AUTHENTICATION_REJECT])) emm_state_exception in
      Some ((mme_send_delete_session_or_ue_context_release E s).2, []).
Proof.
  intros Hs Hb Hl Hx Hv K Hd. rewrite (response_run E self s p b pre post res Hs Hb Hl Hx Hv). case_decide.
  - unfold accepted. by rewrite (command_sent E self (FSM_TRAN s _) int enc (keyed_sm _ _ _ _ _ _ K) Hd).
  - unfold rejected, nas_send_authentication_reject, emm_build_authentication_reject.
    destruct (build_header_ok E (ue s) NAS_AUTHENTICATION_REJECT (zero_body [])) as (b1 & -> & Eb); [done| |].
    { destruct K as [_ _ _ _ _ _ _ _ _ (L & alloc & pre1 & old & post1 & HE)].
      split; [done|]. exists alloc, pre1, old, post1. split_and!; try apply HE. lia. }
    cbn [mbind option_bind]. rewrite set_ue_same, bool_decide_true by done. cbn [andb negb mbind option_bind].
    by rewrite (downlink_ok E s b1 _ Hd Eb).
Qed.

(** ** The security mode complete *)

Lemma security_mode_complete_decode b pre post : view b pre [0x07; 0x5e] post ->
  exists b', nas_emm_decode b =
    Some (true, b', mkMessage [0x07; 0x5e] (zero_body nas_security_mode_complete_t)).
Proof.
  intros Hv. destruct (emm_decode_ok NAS_SECURITY_MODE_COMPLETE security_mode_complete_codec [0x07; 0x5e]
    (zero_body nas_security_mode_complete_t) b pre post) as (b' & D & _); try done.
  - unfold emm_codecs. repeat first [apply list_elem_of_here | apply list_elem_of_further].
  - split; repeat constructor. intros [=].
  - by exists b'.
Qed.

(** After the message: K_eNB where the context is valid, and the request to the HSS. *)
Definition completed (E : env) (s : st) : st :=
  FSM_TRAN (mme_s6a_send_ulr (set_ue s (update_kenb E (ue s)))) emm_state_initial_context_setup.

Lemma complete_run E self s p b pre post :
  sm (ue s) = emm_state_security_mode -> type (nas_eps (ue s)) = MME_EPS_TYPE_ATTACH_REQUEST ->
  view b pre [0x07; 0x5e] post ->
  run E self (s, []) [Uplink p b; Deliver] = Some (completed E s, []).
Proof.
  intros Hs Ht Hv. destruct (security_mode_complete_decode b pre post Hv) as (b' & D).
  cbn [run step]. rewrite (uplink_plain E p s [] b pre _ post Hv). cbn [mbind option_bind app].
  rewrite (deliver_decoded E self p s b b' _ [] D).
  unfold fsm_dispatch. cbn [fsm_state handle emm_machine]. rewrite Hs. cbn [emm_handle state_security_mode].
  cbn [nas hdr]. rewrite decide_True by done. unfold security_mode_complete_received.
  assert (type (nas_eps (ue (mme_s6a_send_ulr (set_ue s (update_kenb E (ue s)))))) = MME_EPS_TYPE_ATTACH_REQUEST) as ->.
  { cbn. unfold update_kenb. by case_match. }
  cbv zeta. rewrite decide_True by done. cbn [mbind option_bind].
  change (sm (ue (FSM_TRAN _ ?x))) with x. rewrite decide_True by done. cbn [mbind option_bind].
  change (sm (ue (FSM_TRAN _ ?x))) with x. cbn [emm_handle state_initial_context_setup mbind option_bind].
  change (sm (ue (FSM_TRAN _ ?x))) with x. by rewrite decide_False.
Qed.

Lemma run_app E self l1 : forall w l2, run E self w (l1 ++ l2) = (w ← run E self w l1; run E self w l2).
Proof.
  induction l1 as [|i l1 IH]; intros w l2; cbn [app run]; [done|].
  destruct (step E self w i) as [w1|]; [|done]. cbn [mbind option_bind]. apply IH.
Qed.

(** C10: a UE without any key gets through the authentication and the security mode, to
    the setup of its context.  In the procedure of an attach, the three octets
    of an authentication response with an empty parameter and the two of a plain
    security mode complete, neither of which holds anything secret, take the MME from
    the authentication to the setup of the initial context, with a security context it
    counts as available and an update location request for the subscriber: the response
    is compared with as many octets of XRES as it says, and the code of the security
    mode complete is not looked at. *)
Theorem keyless_attach E self s p1 p2 b1 pre1 post1 b2 pre2 post2 int enc :
  sm (ue s) = emm_state_authentication -> type (nas_eps (ue s)) = MME_EPS_TYPE_ATTACH_REQUEST ->
  keyed E self (ue s) int enc -> delivers E s ->
  view b1 pre1 [0x07; 0x53; 0] post1 -> view b2 pre2 [0x07; 0x5e] post2 ->
  exists s',
    run E self (s, []) [Uplink p1 b1; Deliver; Uplink p2 b2; Deliver] = Some (s', []) /\
    sm (ue s') = emm_state_initial_context_setup /\
    security_context_available (sec (ue s')) = true /\
    out s' = UpdateLocationRequest (imsi_bcd (ident (ue s))) (visited_plmn_id (loc (ue s))) ::
             DownlinkNasTransport (command (ue s) int enc) :: out s.
Proof.
  intros Hs Ht K Hd Hv1 Hv2.
  change [Uplink p1 b1; Deliver; Uplink p2 b2; Deliver] with
    ([Uplink p1 b1; Deliver] ++ [Uplink p2 b2; Deliver]).
  rewrite run_app, (response_run E self s p1 b1 pre1 post1 []); [|done|done|cbn; lia|cbn; lia|done].
  rewrite decide_True by done. unfold accepted.
  rewrite (command_sent E self (FSM_TRAN s _) int enc (keyed_sm _ _ _ _ _ _ K) Hd). cbn [mbind option_bind].
  rewrite (complete_run E self _ p2 b2 pre2 post2) by done.
  eexists. split; [reflexivity|]. unfold completed. set (s1 := send _ _).
  destruct (update_kenb_keeps E (ue s1)) as [_ U].
  assert (ident (update_kenb E (ue s1)) = ident (ue s) /\ loc (update_kenb E (ue s1)) = loc (ue s)) as [I L].
  { unfold update_kenb. by case_match. }
  split_and!; [done| |].
  - change (sec (ue (FSM_TRAN ?x _))) with (sec (ue x)). cbn [mme_s6a_send_ulr send set_ue ue]. by rewrite U.
  - cbn [FSM_TRAN mme_s6a_send_ulr send set_ue ue out]. by rewrite I, L.
Qed.

(** ** The service request *)

Lemma service_reject_ok E c u : env_ok E 3 ->
  exists b, emm_build_service_reject E c u = Some (true, Some b, u) /\
    payload_bytes b = [0x07; NAS_SERVICE_REJECT; c].
Proof.
  intros HE. unfold emm_build_service_reject.
  destruct (build_plain_ok E u NAS_SERVICE_REJECT service_reject_codec
    (set_st "emm_cause" [c] (zero_body nas_service_reject_t))) as (b & -> & Eb); [done| |done|by exists b].
  split.
  - apply Forall_cons_2; [|constructor]. by eexists.
  - repeat constructor; intros [=].
Qed.

(** The security layer on the four octets. *)
Lemma service_request_uplink E p s q b pre post y m2 m3 :
  view b pre [0xc7; y; m2; m3] post -> (8 <= length pre)%nat -> known (selected_int_algorithm (sec (ue s))) ->
  let u := sec (ue s) in
  let c := update_ul_count (ul_count u) (estimate_sqn (ul_count u) (y .& 0x1f)) in
  let code := nas_mac (selected_int_algorithm u) (knas_int u) (i32 c)
                NAS_SECURITY_BEARER NAS_SECURITY_UPLINK_DIRECTION [0xc7; y] in
  let u' := if decide (drop 2 code <> [m2; m3]) then set_mac_failed (set_ul_count u c) else set_ul_count u c in
  exists b' pre', s1ap_send_to_nas E p (s, q) b = Some (set_ue s (set_sec (ue s) u'), q ++ [(p, b')]) /\
    view b' pre' [0xc7; y; m2; m3] post.
Proof.
  intros Hv Hpre Hk u c code u'.
  destruct (service_request_checks u (mkHeaderType false false false true) (mac0 E) b pre 0xc7 y m2 m3 [] post)
    as (b' & pre' & D & Hv'); [done..|].
  exists b', pre'. split; [|done].
  pose proof (mload_front b pre [0xc7] ([y; m2; m3]) post 1 Hv eq_refl) as L.
  pose proof (mload_front b' pre' [0xc7] ([y; m2; m3]) post 1 Hv' eq_refl) as L'.
  unfold s1ap_send_to_nas. rewrite L. cbn [mbind option_bind].
  change (header_of (rd [0xc7] 0)) with (Some (mkHeaderType false false false true, false)). cbn [negb].
  fold u. rewrite D. cbn [negb]. rewrite L'. cbn [mbind option_bind]. reflexivity.
Qed.

Lemma derive_kenb_spec E u :
  locals_ok (hash_locals E) -> MilenageSpec.is_block 32 (kasme (key u)) ->
  length (kenb (key u)) = 32%nat -> length (nh (key u)) = 32%nat ->
  let kenb' := Ts33401.kenb (kasme (key u)) (i32 (ul_count (sec u))) in
  kenb (key (derive_kenb E u)) = kenb' /\ nh (key (derive_kenb E u)) = Ts33401.nh (kasme (key u)) kenb'.
Proof.
  intros HL Bk Lk Ln kenb'. unfold derive_kenb. cbv zeta.
  rewrite (enb_string (hash_locals E) (kasme (key u)) (i32 (ul_count (sec u))) (kenb (key u)) HL Bk Lk).
  fold kenb'. split; [reflexivity|].
  assert (MilenageSpec.is_block 32 kenb') as Bk'.
  { unfold kenb', Ts33401.kenb. split; [apply kdf_bytes|apply length_kdf]. }
  exact (nh_string (hash_locals E) (kasme (key u)) kenb' (nh (key u)) HL Bk Bk' Ln).
Qed.

(** What the handler of the message leaves in the UE, when the context is valid. *)
Lemma service_request_valid E s y body : MME_UE_HAVE_IMSI (ue s) = true ->
  SECURITY_CONTEXT_IS_VALID (set_nas_eps (ue s) (mkEps MME_EPS_TYPE_SERVICE_REQUEST (y >> 5) (data (nas_eps (ue s))))) = true ->
  delivers E s -> field body "ksi_and_sequence_number" = [y] ->
  exists s', service_request_received E s body = Some s' /\ sm (ue s') = sm (ue s) /\
    key (ue s') = key (derive_kenb E (ue s)) /\ sec (ue s') = sec (ue s) /\
    out s' = InitialContextSetupRequest (kenb (key (derive_kenb E (ue s)))) None :: out s.
Proof.
  intros Hi Hv Hd Hf. unfold service_request_received, emm_handle_service_request. rewrite Hf.
  unfold or_exception. cbn [mbind option_bind]. change (rd [y] 0) with y.
  unfold update_kenb. change (SECURITY_CONTEXT_IS_VALID (CLEAR_PAGING_INFO ?u)) with (SECURITY_CONTEXT_IS_VALID u).
  rewrite Hv. set (s1 := set_ue s _).
  change (MME_UE_HAVE_IMSI (ue s1)) with (MME_UE_HAVE_IMSI (ue s)). rewrite Hi. cbn [negb].
  change (SECURITY_CONTEXT_IS_VALID (ue s1)) with (SECURITY_CONTEXT_IS_VALID (set_nas_eps (ue s)
    (mkEps MME_EPS_TYPE_SERVICE_REQUEST (y >> 5) (data (nas_eps (ue s)))))). rewrite Hv. cbn [negb].
  unfold s1ap_send_initial_context_setup_request. rewrite (to_enb_ok E s1) by done.
  eexists. split; [reflexivity|]. done.
Qed.

Lemma service_request_invalid E s y body : MME_UE_HAVE_IMSI (ue s) = true ->
  mac_failed (sec (ue s)) = true -> delivers E s -> env_ok E 3 ->
  field body "ksi_and_sequence_number" = [y] ->
  exists s', service_request_received E s body = Some s' /\ sm (ue s') = sm (ue s) /\
    mac_failed (sec (ue s')) = true /\
    out s' = UeContextReleaseCommand S1AP_CauseNas_normal_release S1AP_UE_CTX_REL_S1_NORMAL_RELEASE 0 ::
      DownlinkNasTransport [0x07; NAS_SERVICE_REJECT; EMM_CAUSE_UE_IDENTITY_CANNOT_BE_DERIVED_BY_THE_NETWORK] :: out s.
Proof.
  intros Hi Hm Hd HE Hf. unfold service_request_received, emm_handle_service_request. rewrite Hf.
  unfold or_exception. cbn [mbind option_bind]. set (u := CLEAR_PAGING_INFO _).
  assert (SECURITY_CONTEXT_IS_VALID u = false) as Hv.
  { unfold SECURITY_CONTEXT_IS_VALID. change (sec u) with (sec (ue s)). rewrite Hm. by rewrite andb_false_r. }
  unfold update_kenb. rewrite Hv. set (s1 := set_ue s u).
  change (MME_UE_HAVE_IMSI (ue s1)) with (MME_UE_HAVE_IMSI (ue s)). rewrite Hi. cbn [negb].
  change (ue s1) with u. rewrite Hv. cbn [negb].
  destruct (service_reject_ok E EMM_CAUSE_UE_IDENTITY_CANNOT_BE_DERIVED_BY_THE_NETWORK u HE) as (b & B & Eb).
  unfold and_go, nas_send_service_reject, send_built. change (ue s1) with u. rewrite B. cbn [mbind option_bind negb].
  rewrite (downlink_ok E _ b _ (Hd : delivers E (set_ue s1 u)) Eb). cbn [mbind option_bind].
  unfold s1ap_send_ue_context_release_command. destruct Hd as [He Ha].
  destruct (enb_ue s) as [e|] eqn:Ee; [|done].
  change (enb_ue (send (set_ue s1 u) _)) with (enb_ue s). rewrite Ee.
  rewrite to_enb_ok by (by split).
  eexists. split; [reflexivity|]. done.
Qed.

(** The event of a service request, as the machine sees it. *)
Lemma service_request_deliver E self s p b pre post y m2 m3 q s' e :
  view b pre [0xc7; y; m2; m3] post -> enb_ue s = Some e ->
  sm (ue s) = emm_state_registered \/ sm (ue s) = emm_state_de_registered ->
  service_request_received E s (NasCodecSpec.service_request y m3 m2) = Some s' -> sm (ue s') = sm (ue s) ->
  step E self (s, (p, b) :: q) Deliver = Some (s', q).
Proof.
  intros Hv He Hs Hr Es.
  destruct (service_request_decode 0xc7 y m3 m2 b pre post) as (b' & D & _); [by_decide|done|].
  rewrite (deliver_decoded E self p s b b' _ q D). unfold fsm_dispatch. cbn [fsm_state handle emm_machine].
  assert (emm_handle E self (sm (ue s)) (User (MME_EVT_EMM_MESSAGE p (mkMessage [0xc7; y] (NasCodecSpec.service_request y m3 m2)))) s
          = Some s') as ->.
  { destruct Hs as [-> | ->]; cbn [emm_handle common_register_state]; rewrite He; cbn [hdr nas];
      by rewrite decide_True by done. }
  cbn [mbind option_bind]. rewrite decide_False by (rewrite Es; auto). cbn [mbind option_bind].
  rewrite decide_False by (rewrite Es; by destruct Hs as [-> | ->]). done.
Qed.

(** C7: the service request of a known UE whose context is available.  When the two
    octets of its short code are the low ones of the code of its first two octets,
    under the stored integrity key and the uplink count estimated from its sequence
    number, and no check failed before, the eNB is sent an initial context setup request
    with the K_eNB of TS 33.401 for that count, and the first NH follows from it.
    Otherwise the UE is sent a service reject and the eNB the release of the context,
    and the failure is kept. *)
Theorem service_request_guard E self s p b pre post y m2 m3 :
  let u := sec (ue s) in
  let c := update_ul_count (ul_count u) (estimate_sqn (ul_count u) (y .& 0x1f)) in
  let code := nas_mac (selected_int_algorithm u) (knas_int u) (i32 c)
                NAS_SECURITY_BEARER NAS_SECURITY_UPLINK_DIRECTION [0xc7; y] in
  let kenb' := Ts33401.kenb (kasme (key (ue s))) (i32 c) in
  view b pre [0xc7; y; m2; m3] post -> (8 <= length pre)%nat -> y >> 5 <> NAS_KSI_NO_KEY_IS_AVAILABLE ->
  sm (ue s) = emm_state_registered \/ sm (ue s) = emm_state_de_registered ->
  MME_UE_HAVE_IMSI (ue s) = true -> security_context_available u = true -> known (selected_int_algorithm u) ->
  MilenageSpec.is_block 32 (kasme (key (ue s))) -> length (kenb (key (ue s))) = 32%nat ->
  length (nh (key (ue s))) = 32%nat -> delivers E s -> env_ok E 3 ->
  exists s', run E self (s, []) [Uplink p b; Deliver] = Some (s', []) /\ sm (ue s') = sm (ue s) /\
    if decide (drop 2 code = [m2; m3] /\ mac_failed u = false) then
      out s' = InitialContextSetupRequest kenb' None :: out s /\
      nh (key (ue s')) = Ts33401.nh (kasme (key (ue s))) kenb' /\ mac_failed (sec (ue s')) = false
    else
      out s' = UeContextReleaseCommand S1AP_CauseNas_normal_release S1AP_UE_CTX_REL_S1_NORMAL_RELEASE 0 ::
        DownlinkNasTransport [0x07; NAS_SERVICE_REJECT; EMM_CAUSE_UE_IDENTITY_CANNOT_BE_DERIVED_BY_THE_NETWORK] ::
        out s /\ mac_failed (sec (ue s')) = true.
Proof.
  intros u c code kenb' Hv Hpre Hksi Hs Hi Ha Hk Bk Lk Ln Hd HE.
  destruct (service_request_uplink E p s [] b pre post y m2 m3 Hv Hpre Hk) as (b' & pre' & S1 & Hv').
  fold u c code in S1. set (u' := if decide (drop 2 code <> [m2; m3]) then _ else _) in S1.
  set (s1 := set_ue s (set_sec (ue s) u')) in S1. pose proof (Hd : delivers E s1) as Hd1.
  destruct (enb_ue s) as [e|] eqn:He; [|by destruct Hd].
  assert (mac_failed u' = negb (bool_decide (drop 2 code = [m2; m3] /\ mac_failed u = false))) as Hm.
  { unfold u'. case_decide as C; [rewrite bool_decide_false by (by intros [? _]); done|].
    change (mac_failed (set_ul_count u c)) with (mac_failed u).
    destruct (mac_failed u); [rewrite bool_decide_false by (by intros [_ ?])|rewrite bool_decide_true by done]; done. }
  cbn [run]. change (step E self (s, []) (Uplink p b)) with (s1ap_send_to_nas E p (s, []) b). rewrite S1.
  cbn [mbind option_bind app].
  assert (forall s', service_request_received E s1 (NasCodecSpec.service_request y m3 m2) = Some s' ->
    sm (ue s') = sm (ue s) -> (w ← step E self (s1, [(p, b')]) Deliver; Some w) = Some (s', [])) as Go.
  { intros s' R Es. by rewrite (service_request_deliver E self s1 p b' pre' post y m2 m3 [] s' e). }
  destruct (decide (drop 2 code = [m2; m3] /\ mac_failed u = false)) as [C|C].
  - rewrite bool_decide_true in Hm by done.
    assert (u' = set_ul_count u c) as Eu by (unfold u'; by rewrite decide_False by tauto).
    destruct (service_request_valid E s1 y (NasCodecSpec.service_request y m3 m2)) as (s' & R & Es & Ek & Esec & Eo); [done| |done|done|].
    { unfold SECURITY_CONTEXT_IS_VALID. change (sec _) with u'. rewrite Hm, Eu.
      change (security_context_available (set_ul_count u c)) with (security_context_available u). rewrite Ha.
      cbn. by rewrite bool_decide_false. }
    destruct (derive_kenb_spec E (ue s1)) as [Ekenb Enh]; [apply HE|done|done|done|].
    change (sec (ue s1)) with u' in Ekenb, Enh. rewrite Eu in Ekenb, Enh.
    exists s'. split; [exact (Go s' R Es)|]. split; [exact Es|]. rewrite Eo, Ekenb, Esec.
    split; [reflexivity|]. split; [|exact Hm].
    rewrite Ek. exact Enh.
  - rewrite bool_decide_false in Hm by done.
    destruct (service_request_invalid E s1 y (NasCodecSpec.service_request y m3 m2)) as (s' & R & Es & Em & Eo); [done..|].
    exists s'. split; [exact (Go s' R Es)|]. split; [exact Es|]. by split.
Qed.

(** ** Examples *)

Lemma sample_env_ok n : (n <= 109)%nat -> env_ok EmmSample.env n.
Proof.
  intros Hn. split.
  - split; [by_decide|]. split_and!; by_decide.
  - exists sample_packet, (replicate 16 0), (replicate 112 0), [].
    split; [done|]. split; [exact sample_view|]. split; [by_decide|]. split; [by_decide|].
    split; [rewrite length_replicate; lia|by_decide].
Qed.

Lemma sample_view_packet l : Z.of_nat (length l) < 2 ^ 15 ->
  view (EmmSample.packet l) (replicate 16 0xa5) l (replicate 8 0x5a).
Proof. intros Hl. split_and!; [done..|]. cbn. lia. Qed.

Lemma sample_delivers x t a f : delivers EmmSample.env (EmmSample.state x t a f).
Proof. done. Qed.

Lemma sample_keyed x t a f : keyed EmmSample.env EmmSample.self (EmmSample.ue x t a f) 2 0.
Proof.
  split; try by_decide.
  - by exists [], [1; 0].
  - by exists [], [1; 2].
  - apply sample_env_ok. lia.
Qed.

Lemma security_mode_command_witness :
  let s := EmmSample.state emm_state_security_mode MME_EPS_TYPE_ATTACH_REQUEST false false in
  emm_handle EmmSample.env EmmSample.self emm_state_security_mode ENTRY s =
    Some (send (set_ue s (set_sec (ue s) (new_context (ue s) 2 0)))
            (DownlinkNasTransport (command (ue s) 2 0))).
Proof.
  intros s. apply (security_mode_command EmmSample.env EmmSample.self s 2 0);
    [apply sample_keyed|apply sample_delivers].
Defined.

Lemma authentication_response_witness :
  let s := EmmSample.state emm_state_authentication MME_EPS_TYPE_ATTACH_REQUEST false false in
  let s1 := FSM_TRAN s emm_state_security_mode in
  run EmmSample.env EmmSample.self (s, [])
    [Uplink UplinkNASTransport (EmmSample.packet (0x07 :: 0x53 :: 8 :: replicate 8 0xab)); Deliver] =
  Some (send (set_ue s1 (set_sec (ue s1) (new_context (ue s1) 2 0)))
          (DownlinkNasTransport (command (ue s1) 2 0)), []).
Proof.
  intros s s1.
  rewrite (authentication_response EmmSample.env EmmSample.self s UplinkNASTransport _ (replicate 16 0xa5)
    (replicate 8 0x5a) (replicate 8 0xab) 2 0);
    [|reflexivity|by_decide|by_decide|by_decide|apply (sample_view_packet (0x07 :: 0x53 :: 8 :: replicate 8 0xab)); by_decide
     |apply sample_keyed|apply sample_delivers].
  rewrite decide_True by reflexivity. reflexivity.
Defined.

Lemma keyless_attach_witness :
  let s := EmmSample.state emm_state_authentication MME_EPS_TYPE_ATTACH_REQUEST false false in
  exists s',
    run EmmSample.env EmmSample.self (s, [])
      [Uplink UplinkNASTransport (EmmSample.packet [0x07; 0x53; 0]); Deliver;
       Uplink UplinkNASTransport (EmmSample.packet [0x07; 0x5e]); Deliver] = Some (s', []) /\
    sm (ue s') = emm_state_initial_context_setup.
Proof.
  intros s.
  destruct (keyless_attach EmmSample.env EmmSample.self s UplinkNASTransport UplinkNASTransport
    (EmmSample.packet [0x07; 0x53; 0]) (replicate 16 0xa5) (replicate 8 0x5a)
    (EmmSample.packet [0x07; 0x5e]) (replicate 16 0xa5) (replicate 8 0x5a) 2 0) as (s' & R & S & _);
    [reflexivity|reflexivity|apply sample_keyed|apply sample_delivers|apply sample_view_packet; by_decide
    |apply sample_view_packet; by_decide|].
  exists s'. exact (conj R S).
Defined.

Lemma service_request_guard_witness :
  let s := EmmSample.state emm_state_registered 0 true true in
  exists s', run EmmSample.env EmmSample.self (s, [])
    [Uplink InitialUEMessage (EmmSample.packet [0xc7; 1; 2; 3]); Deliver] = Some (s', []) /\
    mac_failed (sec (ue s')) = true.
Proof.
  intros s.
  destruct (service_request_guard EmmSample.env EmmSample.self s InitialUEMessage
    (EmmSample.packet [0xc7; 1; 2; 3]) (replicate 16 0xa5) (replicate 8 0x5a) 1 2 3) as (s' & R & _ & P);
    [apply sample_view_packet; by_decide|by_decide|by_decide|by left|reflexivity|reflexivity|by_decide|split; by_decide|reflexivity|reflexivity
    |apply sample_delivers|apply sample_env_ok; lia|].
  exists s'. split; [exact R|]. revert P.
  match goal with |- context [decide ?P] => destruct (decide P) as [[_ C]|_] end; [discriminate C|].
  intros [_ P]. exact P.
Defined.

End EmmSecurity.
