(* ===== verification/GtpTypes.v ===== *)
(** [lib/gtp/gtp_types.c]: the values inside GTPv2-C elements (bearer QoS, traffic
    flow template, user location), and [encode_traffic_flow_template] of
    [spgw/pgw_s5c_build.c], which fills the template from the packet filters of a
    bearer. *)

From S2P Require Import Prelude Pkbuf Misc Types3gpp.

Module GtpTypes.
Import Misc.
Export Areas.

(** ** Bearer QoS *)

Definition GTP_BEARER_QOS_LEN : Z := 22.

(** [qos_flags]: the octet of [pre_emption_capability] (bit 6), [priority_level]
    (bits 5 to 2) and [pre_emption_vulnerability] (bit 0), and two spare bits. *)
Record gtp_bearer_qos_t := mkQos {
  qos_flags : Z; qos_qci : Z; ul_mbr : Z; dl_mbr : Z; ul_gbr : Z; dl_gbr : Z }.

Definition pre_emption_capability (flags : Z) : Z := (flags >> 6) .& 1.
Definition priority_level (flags : Z) : Z := (flags >> 2) .& 0xf.
Definition pre_emption_vulnerability (flags : Z) : Z := flags .& 1.

(** Five octets of a bit rate. *)
Definition rate (data : list Z) (size : nat) : option Z :=
  l ← load data size 5; Some (core_buffer_to_uint64 l 5).

(** [data] and [len]: the element.  The result is the value returned and the
    structure, when it has been filled; no result when the data are not there. *)
Definition gtp_parse_bearer_qos (data : list Z) (len : Z) : option (Z * option gtp_bearer_qos_t) :=
  if decide (len <> GTP_BEARER_QOS_LEN) then Some (-1, None)
  else
    source ← data !! 0%nat;
    let flags := (pre_emption_capability source << 6) .| (priority_level source << 2) .|
                 pre_emption_vulnerability source in
    qci ← data !! 1%nat;
    ul_mbr ← rate data 2;
    dl_mbr ← rate data 7;
    ul_gbr ← rate data 12;
    dl_gbr ← rate data 17;
    Some (22, Some (mkQos flags qci ul_mbr dl_mbr ul_gbr dl_gbr)).

Definition put_rate (num : Z) (size : nat) (data : list Z) : option (list Z) :=
  store data size (core_uint64_to_buffer num 5 (replicate 5 0)).

(** The buffer [data] after the call, and the length. *)
Definition gtp_build_bearer_qos (q : gtp_bearer_qos_t) (data : list Z) (data_len : Z)
  : option (Z * list Z) :=
  if decide (data_len < GTP_BEARER_QOS_LEN) then Some (-1, data)
  else
    data ← store data 0 [qos_flags q; qos_qci q];
    data ← put_rate (ul_mbr q) 2 data;
    data ← put_rate (dl_mbr q) 7 data;
    data ← put_rate (ul_gbr q) 12 data;
    data ← put_rate (dl_gbr q) 17 data;
    Some (22, data).

(** ** User location information *)

(** [gtp_uli_cgi_t], [gtp_uli_sai_t] and [gtp_uli_rai_t] have one layout: [area_code]
    is [ci], [sac] or [rac]. *)
Record area := mkArea { area_plmn : list Z; area_lac : Z; area_code : Z }.
Record lai_t := mkLai { lai_plmn : list Z; lai_lac : Z }.

Record gtp_uli_t := mkUli {
  uli_flags : Z; cgi : area; sai : area; rai : area; uli_tai : tai_t; uli_e_cgi : e_cgi_t; lai : lai_t }.

Definition zero_area : area := mkArea [0; 0; 0] 0 0.
Definition zero_uli (flags : Z) : gtp_uli_t :=
  mkUli flags zero_area zero_area zero_area (mkTai [0; 0; 0] 0) (mkEcgi [0; 0; 0] 0) (mkLai [0; 0; 0] 0).

(** The octets of a part on the wire: the numbers are big-endian. *)
Definition area_octets (a : area) : list Z := area_plmn a ++ to_be 2 (area_lac a) ++ to_be 2 (area_code a).
Definition tai_octets (t : tai_t) : list Z := plmn_id t ++ to_be 2 (tac t).
Definition e_cgi_octets (e : e_cgi_t) : list Z := cgi_plmn_id e ++ to_be 4 (cell_id e).
Definition lai_octets (a : lai_t) : list Z := lai_plmn a ++ to_be 2 (lai_lac a).

Definition area_of (l : list Z) : area :=
  mkArea (take 3 l) (be (take 2 (drop 3 l))) (be (take 2 (drop 5 l))).
Definition tai_of (l : list Z) : tai_t := mkTai (take 3 l) (be (take 2 (drop 3 l))).
Definition e_cgi_of (l : list Z) : e_cgi_t := mkEcgi (take 3 l) (be (take 4 (drop 3 l))).
Definition lai_of (l : list Z) : lai_t := mkLai (take 3 l) (be (take 2 (drop 3 l))).

(** The parts in the order of the code: the bit of [flags], the size, how the
    octets are put in the structure and taken from it. *)
Record part := mkPart {
  bit : Z; psize : nat; set : list Z -> gtp_uli_t -> gtp_uli_t; octets : gtp_uli_t -> list Z }.

Definition parts : list part :=
  [ mkPart 0 7 (fun l u => mkUli (uli_flags u) (area_of l) (sai u) (rai u) (uli_tai u) (uli_e_cgi u) (lai u))
      (fun u => area_octets (cgi u));
    mkPart 1 7 (fun l u => mkUli (uli_flags u) (cgi u) (area_of l) (rai u) (uli_tai u) (uli_e_cgi u) (lai u))
      (fun u => area_octets (sai u));
    mkPart 2 7 (fun l u => mkUli (uli_flags u) (cgi u) (sai u) (area_of l) (uli_tai u) (uli_e_cgi u) (lai u))
      (fun u => area_octets (rai u));
    mkPart 3 5 (fun l u => mkUli (uli_flags u) (cgi u) (sai u) (rai u) (tai_of l) (uli_e_cgi u) (lai u))
      (fun u => tai_octets (uli_tai u));
    mkPart 4 7 (fun l u => mkUli (uli_flags u) (cgi u) (sai u) (rai u) (uli_tai u) (e_cgi_of l) (lai u))
      (fun u => e_cgi_octets (uli_e_cgi u));
    mkPart 5 5 (fun l u => mkUli (uli_flags u) (cgi u) (sai u) (rai u) (uli_tai u) (uli_e_cgi u) (lai_of l))
      (fun u => lai_octets (lai u)) ].

(** The octets at [size] so far and the structure; [-1] when the function returns. *)
Fixpoint parse_parts (ps : list part) (data : list Z) (len size : Z) (u : gtp_uli_t)
  : option (Z * gtp_uli_t) :=
  match ps with
  | [] => Some (if decide (size = len) then size else -1, u)
  | p :: ps =>
      if Z.testbit (uli_flags u) (bit p) then
        if decide (size + Z.of_nat (psize p) <= len) then
          l ← load data (Z.to_nat size) (psize p);
          parse_parts ps data len (size + Z.of_nat (psize p)) (set p l u)
        else Some (-1, u)
      else parse_parts ps data len size u
  end.

(** The flags are read before [len] is looked at. *)
Definition gtp_parse_uli (data : list Z) (len : Z) : option (Z * gtp_uli_t) :=
  flags ← data !! 0%nat;
  parse_parts parts data len 1 (zero_uli flags).

Fixpoint build_parts (ps : list part) (u : gtp_uli_t) (data : list Z) (data_len size : Z)
  : option (Z * list Z) :=
  match ps with
  | [] => Some (size, data)
  | p :: ps =>
      if Z.testbit (uli_flags u) (bit p) then
        if decide (size + Z.of_nat (psize p) <= data_len) then
          data ← store data (Z.to_nat size) (octets p u);
          build_parts ps u data data_len (size + Z.of_nat (psize p))
        else Some (-1, data)
      else build_parts ps u data data_len size
  end.

Definition gtp_build_uli (u : gtp_uli_t) (data : list Z) (data_len : Z) : option (Z * list Z) :=
  if decide (data_len = 0) then Some (-1, data)
  else if decide (1 <= data_len) then
    data ← store data 0 [uli_flags u];
    build_parts parts u data data_len 1
  else Some (-1, data).

(** ** Traffic flow templates *)

Definition GTP_MAX_TRAFFIC_FLOW_TEMPLATE : Z := 255.
Definition GTP_TFT_CODE_CREATE_NEW_TFT : Z := 1.
Definition MAX_NUM_OF_PACKET_FILTER : nat := 16.

Definition PROTOCOL_IDENTIFIER_NEXT_HEADER : Z := 48.
Definition IPV4_REMOTE_ADDRESS : Z := 16.
Definition IPV4_LOCAL_ADDRESS : Z := 17.
Definition IPV6_REMOTE_ADDRESS : Z := 32.
Definition IPV6_REMOTE_ADDRESS_PREFIX_LENGTH : Z := 33.
Definition IPV6_LOCAL_ADDRESS_PREFIX_LENGTH : Z := 35.
Definition SINGLE_LOCAL_PORT : Z := 64.
Definition LOCAL_PORT_RANGE : Z := 65.
Definition SINGLE_REMOTE_PORT : Z := 80.
Definition REMOTE_PORT_RANGE : Z := 81.

(** A component and the octets of its union, 32 of them: [proto] is the first;
    [ipv4.addr] and [ipv4.mask] four each; [ipv6.addr] sixteen and [ipv6.prefixlen];
    [ipv6_mask] sixteen each; [port.low] and [port.high] two each, little-endian. *)
Record component := mkComponent { c_type : Z; union : list Z }.

(** [filter_flags]: [direction] (bits 5 and 4) and [identifier] (bits 3 to 0);
    [num_of_component] is the length of the list. *)
Record tft_filter := mkFilter { filter_flags : Z; precedence : Z; content : Z; components : list component }.

(** [code] (bits 7 to 5), [e_bit] (bit 4) and [num_of_packet_filter] (bits 3 to 0) are
    [tft_flags]; [pf] is the array. *)
Record gtp_tft_t := mkTft { tft_flags : Z; pf : list tft_filter }.
Definition num_of_packet_filter (t : gtp_tft_t) : Z := tft_flags t .& 0xf.

(** [n] octets of the union, from [off] on; [swapped]: two octets after [htons]. *)
Definition member (l : list Z) (off n : nat) : list Z := take n (drop off l).
Definition swapped (l : list Z) (off : nat) : list Z := reverse (member l off 2).

(** What is stored for a component: the pieces of the [memcpy]s, in order; none for a
    type that is not known. *)
Definition pieces (c : component) : option (list (list Z)) :=
  let t := c_type c in
  let u := union c in
  if decide (t = PROTOCOL_IDENTIFIER_NEXT_HEADER) then Some [member u 0 1]
  else if decide (t = IPV4_REMOTE_ADDRESS \/ t = IPV4_LOCAL_ADDRESS) then Some [member u 0 4; member u 4 4]
  else if decide (t = IPV6_LOCAL_ADDRESS_PREFIX_LENGTH \/ t = IPV6_REMOTE_ADDRESS_PREFIX_LENGTH)
  then Some [member u 0 16; member u 16 1]
  else if decide (t = IPV6_REMOTE_ADDRESS) then Some [member u 0 16; member u 16 16]
  else if decide (t = SINGLE_LOCAL_PORT \/ t = SINGLE_REMOTE_PORT) then Some [swapped u 0]
  else if decide (t = LOCAL_PORT_RANGE \/ t = REMOTE_PORT_RANGE) then Some [swapped u 0; swapped u 2]
  else None.

(** The stores, each after a check of the space; [-1] when one does not fit. *)
Fixpoint put_pieces (l : list (list Z)) (data : list Z) (data_len size : Z) : option (Z * list Z) :=
  match l with
  | [] => Some (size, data)
  | x :: l =>
      if decide (size + Z.of_nat (length x) <= data_len) then
        data ← store data (Z.to_nat size) x;
        put_pieces l data data_len (u16 (size + Z.of_nat (length x)))
      else Some (-1, data)
  end.

Definition put_component (c : component) (data : list Z) (data_len size : Z) : option (Z * list Z) :=
  '(size, data) ← put_pieces [[c_type c]] data data_len size;
  if decide (size = -1) then Some (-1, data)
  else
    match pieces c with
    | Some l => put_pieces l data data_len size
    | None => Some (-1, data)
    end.

Fixpoint put_components (l : list component) (data : list Z) (data_len size : Z) : option (Z * list Z) :=
  match l with
  | [] => Some (size, data)
  | c :: l =>
      '(size, data) ← put_component c data data_len size;
      if decide (size = -1) then Some (-1, data) else put_components l data data_len size
  end.

Fixpoint put_filters (l : list tft_filter) (data : list Z) (data_len size : Z) : option (Z * list Z) :=
  match l with
  | [] => Some (size, data)
  | f :: l =>
      '(size, data) ← put_pieces [[filter_flags f]; [precedence f]; [content f]] data data_len size;
      if decide (size = -1) then Some (-1, data)
      else
        '(size, data) ← put_components (components f) data data_len size;
        if decide (size = -1) then Some (-1, data) else put_filters l data data_len size
  end.

(** The loop is on the first [num_of_packet_filter] filters of the array. *)
Definition gtp_build_tft (t : gtp_tft_t) (data : list Z) (data_len : Z) : option (Z * list Z) :=
  if decide (data_len < GTP_MAX_TRAFFIC_FLOW_TEMPLATE) then Some (-1, data)
  else
    '(size, data) ← put_pieces [[tft_flags t]] data data_len 0;
    if decide (size = -1) then Some (-1, data)
    else
      fs ← (if decide (Z.to_nat (num_of_packet_filter t) <= length (pf t))%nat
            then Some (take (Z.to_nat (num_of_packet_filter t)) (pf t)) else None);
      put_filters fs data data_len size.

(** ** From packet filters to a template *)

(** [pgw_rule_t]: addresses and masks are sixteen octets, four of them used for IPv4;
    ports are in host order. *)
Record pgw_rule_t := mkRule {
  proto : Z;
  ipv4_local : bool; ipv4_remote : bool; ipv6_local : bool; ipv6_remote : bool;
  local_addr : list Z; local_mask : list Z; remote_addr : list Z; remote_mask : list Z;
  local_low : Z; local_high : Z; remote_low : Z; remote_high : Z }.

(** [contigmask] of [lib/ipfw/ipfw2.c]: the number of leading ones of a mask of [len]
    bits, [-1] when another one follows. *)
Definition mask_bit (p : list Z) (i : nat) : bool :=
  Z.testbit (rd p (Z.of_nat (i / 8))) (7 - Z.of_nat (i mod 8)).
Fixpoint leading (p : nat -> bool) (i n : nat) : nat :=
  match n with
  | O => i
  | S n => if p i then leading p (S i) n else i
  end.
Definition contigmask (p : list Z) (len : nat) : Z :=
  let i := leading (mask_bit p) 0 len in
  if existsb (mask_bit p) (seq (i + 1) (len - (i + 1))) then -1 else Z.of_nat i.

(** A union that has been cleared, with its first octets set. *)
Definition union_of (l : list Z) : list Z := l ++ replicate (32 - length l) 0.
Definition le_port (z : Z) : list Z := reverse (to_be 2 z).

(** The components of a rule, each when its condition holds, with what is added to
    [len]. *)
Definition when (b : bool) (t : Z) (l : list Z) (len : Z) : list (component * Z) :=
  if b then [(mkComponent t (union_of l), len)] else [].
Definition ports (low high single range : Z) : list (component * Z) :=
  if decide (low = 0) then []
  else if decide (low = high) then [(mkComponent single (union_of (le_port low)), 3)]
  else [(mkComponent range (union_of (le_port low ++ le_port high)), 5)].

Definition rule_components (r : pgw_rule_t) : list (component * Z) :=
  when (bool_decide (proto r <> 0)) PROTOCOL_IDENTIFIER_NEXT_HEADER [proto r] 2 ++
  when (ipv4_local r) IPV4_LOCAL_ADDRESS (take 4 (local_addr r) ++ take 4 (local_mask r)) 9 ++
  when (ipv4_remote r) IPV4_REMOTE_ADDRESS (take 4 (remote_addr r) ++ take 4 (remote_mask r)) 9 ++
  when (ipv6_local r) IPV6_LOCAL_ADDRESS_PREFIX_LENGTH
    (local_addr r ++ [u8 (contigmask (local_mask r) 128)]) 18 ++
  when (ipv6_remote r) IPV6_REMOTE_ADDRESS_PREFIX_LENGTH
    (remote_addr r ++ [u8 (contigmask (remote_mask r) 128)]) 18 ++
  ports (local_low r) (local_high r) SINGLE_LOCAL_PORT LOCAL_PORT_RANGE ++
  ports (remote_low r) (remote_high r) SINGLE_REMOTE_PORT REMOTE_PORT_RANGE.

(** A packet filter of a bearer: [direction], [identifier] and [rule]. *)
Record packet_filter := mkPf { direction : Z; identifier : Z; rule : pgw_rule_t }.

Definition encode_filter (i : nat) (x : packet_filter) : tft_filter :=
  let cs := rule_components (rule x) in
  mkFilter (((direction x .& 3) << 4) .| ((identifier x - 1) .& 0xf)) (u8 (Z.of_nat i + 1))
    (u8 (foldr Z.add 0 (map snd cs))) (map fst cs).

(** No result when the filters leave the array. *)
Definition encode_traffic_flow_template (l : list packet_filter) : option gtp_tft_t :=
  if decide (length l <= MAX_NUM_OF_PACKET_FILTER)%nat then
    let fs := imap encode_filter l in
    Some (mkTft ((GTP_TFT_CODE_CREATE_NEW_TFT << 5) .| (Z.of_nat (length l) .& 0xf)) fs)
  else None.

End GtpTypes.
