(* ===== verification/Tlv.v ===== *)
(** [lib/core/src/tlv.c]: type-length-value elements, rendered to and parsed
    from a block of memory.  Sibling elements ([next]) are a list, the elements
    under [embedded] a list in the element; [NULL] is the empty list.  The pool
    the elements come from is the number of those left in it. *)

From S2P Require Import Prelude Pkbuf.

Module Tlv.

(** The [TLV_MODE_*] constants; the code asserts that no other value is used. *)
Inductive mode := T1_L1 | T1_L2 | T1_L2_I1 | T2_L2.
#[export] Instance mode_eq_dec : EqDecision mode.
Proof. solve_decision. Defined.

#[local] Set Warnings "-register-all".

(** [tlv_t]: [value] is the memory from the address stored in the field [value]
    on, of which [length] bytes belong to the element. *)
Inductive tlv := Tlv {
  type : Z; length : Z; instance : Z; value : list Z; embedded : list tlv
}.

Definition NUM_OF_TLV_NODE : nat := 100.

(** [tlv_get]: the number of elements left in the pool; [None] when it is empty. *)
Definition tlv_get (avail : nat) : option nat :=
  match avail with O => None | S n => Some n end.

(** The number of elements of a tree. *)
Fixpoint nodes (t : tlv) : nat := S (sum_list (map nodes (embedded t))).

(** [tlv_free_all] *)
Definition tlv_free_all (ts : list tlv) (avail : nat) : nat := (avail + sum_list (map nodes ts))%nat.

Definition tlv_value_8 (t : tlv) : Z := rd (value t) 0.
Definition tlv_value_16 (t : tlv) : Z :=
  ((rd (value t) 0 << 8) .& 0xff00) .| (rd (value t) 1 .& 0x00ff).
Definition tlv_value_32 (t : tlv) : Z :=
  ((rd (value t) 0 << 24) .& 0xff000000) .| ((rd (value t) 1 << 16) .& 0x00ff0000) .|
  ((rd (value t) 2 << 8) .& 0x0000ff00) .| (rd (value t) 3 .& 0x000000ff).

(** The size of type, length and instance. *)
Definition header_size (m : mode) : Z :=
  match m with T1_L1 => 2 | T1_L2 => 3 | T1_L2_I1 => 4 | T2_L2 => 4 end.

(** One turn of the loop of [tlv_calc_length]: what it adds, and the element with
    its length field set when it has embedded elements. *)
Fixpoint calc_one (m : mode) (t : tlv) : Z * tlv :=
  match t with
  | Tlv ty len ins v [] => (header_size m + len, t)
  | Tlv ty len ins v emb =>
      let rs := map (calc_one m) emb in
      let len := fold_left (fun a r => u32 (a + fst r)) rs 0 in
      (header_size m + len, Tlv ty len ins v (map snd rs))
  end.

Definition tlv_calc_length (m : mode) (ts : list tlv) : Z :=
  fold_left (fun a r => u32 (a + fst r)) (map (calc_one m) ts) 0.

Fixpoint count_one (t : tlv) : Z :=
  match embedded t with
  | [] => 1
  | emb => fold_left (fun a n => u32 (a + n)) (map count_one emb) 0
  end.
Definition tlv_calc_count (ts : list tlv) : Z :=
  fold_left (fun a n => u32 (a + n)) (map count_one ts) 0.

(** ** Rendering *)

Definition put_type (m : mode) (ty : Z) : list Z :=
  match m with
  | T2_L2 => [(ty >> 8) .& 0xff; ty .& 0xff]
  | _ => [ty .& 0xff]
  end.
Definition put_length (m : mode) (len : Z) : list Z :=
  match m with
  | T1_L1 => [len .& 0xff]
  | _ => [(len >> 8) .& 0xff; len .& 0xff]
  end.
Definition put_instance (m : mode) (ins : Z) : list Z :=
  match m with T1_L2_I1 => [ins .& 0xff] | _ => [] end.

(** The memory and [pos] while the loop runs, after the early return on an
    overflow, or a [memcpy] with a negative count. *)
Inductive rendered := Running (mem : list Z) (pos : Z) | Returned (mem : list Z) (pos : Z) | Wild.

(** Stores bytes at [pos] and advances. *)
Definition emit (mem : list Z) (pos : Z) (l : list Z) : list Z * Z :=
  (put mem pos l, pos + Z.of_nat (List.length l)).

(** One turn of the loop of [tlv_render]: [blk] is the address of the block and
    [cap] its size.  The lengths that [tlv_calc_length] stores in the elements
    with embedded ones are not read here, so the elements are rendered as they
    are. *)
Fixpoint render_one (m : mode) (t : tlv) (blk cap : Z) (mem : list Z) (pos : Z) : rendered :=
  match t with
  | Tlv ty len ins v emb =>
      let '(mem, pos) := emit mem pos (put_type m ty) in
      match emb with
      | [] =>
          let '(mem, pos) := emit mem pos (put_length m len) in
          let '(mem, pos) := emit mem pos (put_instance m ins) in
          if decide ((pos - blk) + len > cap) then
            let n := cap - (pos - blk) in
            if decide (n < 0) then Wild
            else let '(mem, pos) := (put mem pos (take (Z.to_nat n) v), pos + n) in
                 Returned mem pos
          else Running (put mem pos (take (Z.to_nat len) v)) (pos + len)
      | _ =>
          let embedded_len := tlv_calc_length m emb in
          let '(mem, pos) := emit mem pos (put_length m embedded_len) in
          let '(mem, pos) := emit mem pos (put_instance m ins) in
          let r := fold_left (fun r t =>
            match r with
            | Running mem p => render_one m t pos (u32 (cap - u32 (pos - blk))) mem p
            | _ => r
            end) emb (Running mem pos) in
          match r with
          | Running mem _ | Returned mem _ => Running mem (pos + embedded_len)
          | Wild => Wild
          end
      end
  end.

Definition tlv_render (m : mode) (ts : list tlv) (blk cap : Z) (mem : list Z) : rendered :=
  fold_left (fun r t =>
    match r with Running mem p => render_one m t blk cap mem p | _ => r end) ts (Running mem blk).

(** ** Parsing *)

(** [_tlv_get_element]: the element at [pos] and the position after it. *)
Definition get_element (m : mode) (mem : list Z) (pos : Z) : tlv * Z :=
  let w16 i := u32 ((rd mem i << 8) + rd mem (i + 1)) in
  let '(ty, len, ins, pos) :=
    match m with
    | T1_L1 => (rd mem pos, rd mem (pos + 1), 0, pos + 2)
    | T1_L2 => (rd mem pos, w16 (pos + 1), 0, pos + 3)
    | T1_L2_I1 => (rd mem pos, w16 (pos + 1), rd mem (pos + 3), pos + 4)
    | T2_L2 => (w16 pos, w16 (pos + 2), 0, pos + 4)
    end in
  (Tlv ty len ins (drop (Z.to_nat pos) mem) [], pos + len).

(** The loop of [tlv_parse_block], with the elements [ts] parsed so far; every
    turn advances by two bytes at least, so [length] turns are enough. *)
Fixpoint parse_loop (fuel : nat) (m : mode) (mem : list Z) (blk len pos : Z) (ts : list tlv)
    (avail : nat) : option (list tlv) * nat :=
  if decide (pos - blk < len) then
    match fuel, tlv_get avail with
    | O, _ | _, None => (None, tlv_free_all ts avail)
    | S fuel, Some avail =>
        let '(t, pos) := get_element m mem pos in
        parse_loop fuel m mem blk len pos (ts ++ [t]) avail
    end
  else if decide (len = pos - blk) then (Some ts, avail)
  else (None, tlv_free_all ts avail).

(** The elements (or [None] for [NULL]) and the pool after the call. *)
Definition tlv_parse_block (m : mode) (len : Z) (mem : list Z) (blk : Z) (avail : nat)
  : option (list tlv) * nat :=
  match tlv_get avail with
  | None => (None, avail)
  | Some avail =>
      let '(t, pos) := get_element m mem blk in
      parse_loop (Z.to_nat len) m mem blk len pos [t] avail
  end.

(** [tlv_parse_embedded_block]: the element with its embedded elements; on a
    failure [embedded] is [NULL]. *)
Definition tlv_parse_embedded_block (m : mode) (t : tlv) (avail : nat) : option tlv * nat :=
  let '(r, avail) := tlv_parse_block m (length t) (value t) 0 avail in
  match r with
  | Some emb => (Some (Tlv (type t) (length t) (instance t) (value t) emb), avail)
  | None => (None, avail)
  end.

(** [tlv_find], in an element and its embedded ones, then in a list. *)
Fixpoint find_one (ty : Z) (t : tlv) : option tlv :=
  if decide (type t = ty) then Some t
  else fold_left (fun r t => match r with Some _ => r | None => find_one ty t end) (embedded t) None.
Definition tlv_find (ty : Z) (ts : list tlv) : option tlv :=
  fold_left (fun r t => match r with Some _ => r | None => find_one ty t end) ts None.

End Tlv.
