(* ===== verification/TlvSpec.v ===== *)
(** The wire format of [Tlv], and what rendering and parsing compute. *)

From S2P Require Import Prelude Pkbuf Tlv.

Module TlvSpec.
Import Tlv.

(** ** The format *)

Lemma tlv_nested_ind (P : tlv -> Prop) :
  (forall ty len ins v emb, Forall P emb -> P (Tlv ty len ins v emb)) -> forall t, P t.
Proof.
  intros H. fix go 1. intros [ty len ins v emb]. apply H.
  induction emb as [|t emb IH]; constructor; [apply go|exact IH].
Qed.

(** The bytes of an element: type, length of the body, instance, body. *)
Fixpoint encode (m : mode) (t : tlv) : list Z :=
  match t with
  | Tlv ty len ins v emb =>
      let body := match emb with
                  | [] => take (Z.to_nat len) v
                  | _ => concat (map (encode m) emb)
                  end in
      put_type m ty ++ put_length m (Z.of_nat (List.length body)) ++ put_instance m ins ++ body
  end.
Definition encode_all (m : mode) (ts : list tlv) : list Z := concat (map (encode m) ts).

Definition body (m : mode) (t : tlv) : list Z :=
  match embedded t with [] => take (Z.to_nat (length t)) (value t) | emb => encode_all m emb end.

(** An element whose value, where it is used, has the announced length. *)
Fixpoint sized (t : tlv) : Prop :=
  match embedded t with
  | [] => 0 <= length t <= Z.of_nat (List.length (value t))
  | emb => fold_right (fun t P => sized t /\ P) True emb
  end.

Lemma sized_Forall ts : fold_right (fun t P => sized t /\ P) True ts <-> Forall sized ts.
Proof. induction ts as [|t ts IH]; simpl; [by split|]. by rewrite Forall_cons, IH. Qed.

Lemma length_put_type m ty ins len :
  header_size m = Z.of_nat (List.length (put_type m ty) + List.length (put_length m len) +
                            List.length (put_instance m ins)).
Proof. by destruct m. Qed.

Lemma length_encode m t :
  Z.of_nat (List.length (encode m t)) = header_size m + Z.of_nat (List.length (body m t)).
Proof.
  destruct t as [ty len ins v emb]. unfold body, encode_all. cbn [encode embedded length value].
  assert (forall b : list Z, Z.of_nat (List.length (put_type m ty ++
    put_length m (Z.of_nat (List.length b)) ++ put_instance m ins ++ b)) =
    header_size m + Z.of_nat (List.length b)) as H.
  { intros b. rewrite !length_app, (length_put_type m ty ins (Z.of_nat (List.length b))). lia. }
  by destruct emb; rewrite H.
Qed.

Lemma encode_body m t :
  encode m t = put_type m (type t) ++ put_length m (Z.of_nat (List.length (body m t))) ++
               put_instance m (instance t) ++ body m t.
Proof. by destruct t as [ty len ins v [|t emb]]. Qed.

Lemma Forall_mp {A} (P Q : A -> Prop) l :
  Forall (fun x => P x -> Q x) l -> Forall P l -> Forall Q l.
Proof. induction 1; inversion 1; subst; constructor; auto. Qed.

(** ** Lengths *)

Lemma calc_fold m ts a :
  Forall (fun t => Z.of_nat (List.length (encode m t)) < 2 ^ 32 ->
                   fst (calc_one m t) = Z.of_nat (List.length (encode m t))) ts ->
  0 <= a -> a + Z.of_nat (List.length (encode_all m ts)) < 2 ^ 32 ->
  fold_left (fun a r => u32 (a + fst r)) (map (calc_one m) ts) a =
    a + Z.of_nat (List.length (encode_all m ts)).
Proof.
  intros Hts. revert a. induction Hts as [|t ts Ht Hts IH]; intros a Ha Hlt; [simpl; lia|].
  unfold encode_all in *. cbn [map concat] in *. rewrite length_app in *. cbn [fold_left].
  rewrite Ht by lia. rewrite u32_id by (unfold inw; lia). rewrite IH; lia.
Qed.

Lemma calc_one_spec m t :
  sized t -> Z.of_nat (List.length (encode m t)) < 2 ^ 32 ->
  fst (calc_one m t) = Z.of_nat (List.length (encode m t)).
Proof.
  revert t. refine (tlv_nested_ind _ _). intros ty len ins v emb IH Hs Hlt.
  rewrite length_encode in *. unfold body in *. cbn [embedded length value] in *.
  destruct emb as [|t emb].
  - cbn [calc_one fst sized embedded length value] in *. rewrite length_take. lia.
  - cbn [calc_one fst]. f_equal. cbn [sized embedded] in Hs. apply sized_Forall in Hs.
    rewrite (calc_fold m (t :: emb) 0); [lia| |lia|].
    + by apply (Forall_mp sized).
    + pose proof (length_put_type m ty ins len). destruct m; simpl header_size in *; lia.
Qed.

Lemma calc_length_spec m ts :
  Forall sized ts -> Z.of_nat (List.length (encode_all m ts)) < 2 ^ 32 ->
  tlv_calc_length m ts = Z.of_nat (List.length (encode_all m ts)).
Proof.
  intros Hs Hlt. unfold tlv_calc_length. rewrite calc_fold; [lia| |lia|lia].
  apply (Forall_impl _ _ _ Hs). intros x ??. by apply calc_one_spec.
Qed.

(** ** Rendering *)

Lemma emit_over pre old post l :
  (List.length l <= List.length old)%nat ->
  emit (pre ++ old ++ post) (Z.of_nat (List.length pre)) l =
    ((pre ++ l) ++ drop (List.length l) old ++ post, Z.of_nat (List.length (pre ++ l))).
Proof. intros Hl. unfold emit. rewrite put_over, length_app by done. f_equal. lia. Qed.

(** What rendering an element in a region that it fits in gives. *)
Definition renders (m : mode) (t : tlv) : Prop :=
  forall blk cap pre old post,
    (List.length (encode m t) <= List.length old)%nat ->
    0 <= blk <= Z.of_nat (List.length pre) -> cap < 2 ^ 32 ->
    Z.of_nat (List.length pre) - blk + Z.of_nat (List.length (encode m t)) <= cap ->
    render_one m t blk cap (pre ++ old ++ post) (Z.of_nat (List.length pre)) =
      Running ((pre ++ encode m t) ++ drop (List.length (encode m t)) old ++ post)
              (Z.of_nat (List.length (pre ++ encode m t))).

Lemma render_fold m ts blk cap pre old post :
  Forall (renders m) ts ->
  (List.length (encode_all m ts) <= List.length old)%nat ->
  0 <= blk <= Z.of_nat (List.length pre) -> cap < 2 ^ 32 ->
  Z.of_nat (List.length pre) - blk + Z.of_nat (List.length (encode_all m ts)) <= cap ->
  fold_left (fun r t => match r with Running mem p => render_one m t blk cap mem p | _ => r end) ts
    (Running (pre ++ old ++ post) (Z.of_nat (List.length pre))) =
    Running ((pre ++ encode_all m ts) ++ drop (List.length (encode_all m ts)) old ++ post)
            (Z.of_nat (List.length (pre ++ encode_all m ts))).
Proof.
  intros Hts. revert pre old. induction Hts as [|t ts Ht Hts IH]; intros pre old Hold Hblk Hcap Hfit.
  - unfold encode_all. simpl. by rewrite app_nil_r.
  - unfold encode_all in *. cbn [map concat fold_left] in *. rewrite length_app in *.
    rewrite Ht by lia. rewrite IH by (rewrite ?length_app, ?length_drop; lia).
    by rewrite drop_drop, <- !(assoc_L (++)).
Qed.

Lemma render_leaf m ty len ins v : sized (Tlv ty len ins v []) -> renders m (Tlv ty len ins v []).
Proof.
  intros Hs blk cap pre old post Hold Hblk Hcap Hfit.
  cbn [sized embedded length value] in Hs. cbn [encode] in *.
  set (b := take (Z.to_nat len) v) in *.
  assert (Z.of_nat (List.length b) = len) as Lb by (unfold b; rewrite length_take; lia).
  rewrite Lb in *. rewrite !length_app in Hold, Hfit. cbn [render_one].
  rewrite emit_over by lia.
  rewrite emit_over by (rewrite length_drop; lia).
  rewrite emit_over by (rewrite !length_drop; lia).
  rewrite decide_False by (rewrite !length_app; lia). fold b.
  rewrite put_over by (rewrite !length_drop; lia).
  f_equal.
  - rewrite !drop_drop, !length_app, <- !(assoc_L (++)). repeat f_equal; lia.
  - rewrite !length_app. lia.
Qed.

Lemma render_one_spec m t : sized t -> renders m t.
Proof.
  revert t. refine (tlv_nested_ind _ _). intros ty len ins v [|t emb] IH Hs; [by apply render_leaf|].
  cbn [sized embedded] in Hs. apply sized_Forall in Hs.
  set (ts := t :: emb) in *. intros blk cap pre old post Hold Hblk Hcap Hfit.
  assert (Forall (renders m) ts) as Hr by by apply (Forall_mp sized).
  assert (encode m (Tlv ty len ins v ts) = put_type m ty ++
    put_length m (Z.of_nat (List.length (encode_all m ts))) ++ put_instance m ins ++ encode_all m ts)
    as E by done.
  rewrite E in *. rewrite !length_app in Hold, Hfit.
  assert (render_one m (Tlv ty len ins v ts) blk cap (pre ++ old ++ post) (Z.of_nat (List.length pre)) =
    let '(mem, pos) := emit (pre ++ old ++ post) (Z.of_nat (List.length pre)) (put_type m ty) in
    let embedded_len := tlv_calc_length m ts in
    let '(mem, pos) := emit mem pos (put_length m embedded_len) in
    let '(mem, pos) := emit mem pos (put_instance m ins) in
    match fold_left (fun r t =>
            match r with
            | Running mem p => render_one m t pos (u32 (cap - u32 (pos - blk))) mem p
            | _ => r
            end) ts (Running mem pos) with
    | Running mem _ | Returned mem _ => Running mem (pos + embedded_len)
    | Wild => Wild
    end) as -> by done.
  rewrite calc_length_spec by (done || lia).
  rewrite emit_over by lia. cbv zeta.
  rewrite emit_over by (rewrite length_drop; lia).
  rewrite emit_over by (rewrite !length_drop; lia).
  set (pre' := ((pre ++ _) ++ _) ++ _).
  assert (Z.of_nat (List.length pre') = Z.of_nat (List.length pre) +
    Z.of_nat (List.length (put_type m ty) + List.length (put_length m (Z.of_nat (List.length (encode_all m ts)))) +
     List.length (put_instance m ins))) as Lpre by (unfold pre'; rewrite !length_app; lia).
  rewrite render_fold.
  - f_equal; [|rewrite !length_app in *; lia].
    unfold pre'. rewrite !drop_drop, !length_app, <- !(assoc_L (++)). repeat f_equal; lia.
  - done.
  - rewrite !length_drop. lia.
  - lia.
  - apply u32_inw.
  - rewrite !u32_id by (unfold inw; try rewrite u32_id by (unfold inw; lia); lia). lia.
Qed.

Lemma render_spec m ts cap pre old post :
  Forall sized ts -> (List.length (encode_all m ts) <= List.length old)%nat ->
  Z.of_nat (List.length (encode_all m ts)) <= cap < 2 ^ 32 ->
  tlv_render m ts (Z.of_nat (List.length pre)) cap (pre ++ old ++ post) =
    Running ((pre ++ encode_all m ts) ++ drop (List.length (encode_all m ts)) old ++ post)
            (Z.of_nat (List.length (pre ++ encode_all m ts))).
Proof.
  intros Hs Hold Hcap. unfold tlv_render. apply render_fold; try lia.
  apply (Forall_impl _ _ _ Hs). intros. by apply render_one_spec.
Qed.

(** ** Parsing *)

Definition type_width (m : mode) : Z := match m with T2_L2 => 16 | _ => 8 end.
Definition length_width (m : mode) : Z := match m with T1_L1 => 8 | _ => 16 end.

(** The fields fit in the header. *)
Definition fits (m : mode) (t : tlv) : Prop :=
  inw (type_width m) (type t) /\ inw 8 (instance t) /\
  inw (length_width m) (Z.of_nat (List.length (body m t))).

(** The instance that comes out of the header. *)
Definition wire_instance (m : mode) (ins : Z) : Z := match m with T1_L2_I1 => ins | _ => 0 end.

(** An element as the parser leaves it, before any embedded block is parsed;
    [rest] is the memory that follows. *)
Definition shallow (m : mode) (t : tlv) (rest : list Z) : tlv :=
  Tlv (type t) (Z.of_nat (List.length (body m t))) (wire_instance m (instance t))
      (body m t ++ rest) [].
Fixpoint shallow_all (m : mode) (ts : list tlv) (rest : list Z) : list tlv :=
  match ts with
  | [] => []
  | t :: ts => shallow m t (encode_all m ts ++ rest) :: shallow_all m ts rest
  end.

Lemma split16 z : inw 16 z -> u32 ((((z >> 8) .& 0xff) << 8) + (z .& 0xff)) = z.
Proof.
  unfold inw. intros H. rewrite u32_mod, Z.shiftl_mul_pow2, shiftr_div by done.
  rewrite !(land_ones_mod _ 8) by done. lia.
Qed.

Lemma land_ff z : inw 8 z -> z .& 0xff = z.
Proof. apply u8_id. Qed.

Lemma join16 a b : inw 8 a -> inw 8 b ->
  inw 16 (u32 ((a << 8) + b)) /\
  (u32 ((a << 8) + b) >> 8) .& 0xff = a /\ u32 ((a << 8) + b) .& 0xff = b.
Proof.
  unfold inw. intros Ha Hb. rewrite Z.shiftl_mul_pow2, (u32_id (a * 2 ^ 8 + b)) by (unfold inw; lia).
  rewrite shiftr_div, !(land_ones_mod _ 8) by done. lia.
Qed.

Lemma rd_cons x l i : 0 < i -> rd (x :: l) i = rd l (i - 1).
Proof.
  intros Hi. unfold rd. replace (Z.to_nat i) with (S (Z.to_nat (i - 1))) by lia. done.
Qed.

Lemma rd_app_shift l l' i k : 0 <= k -> i = Z.of_nat (List.length l) + k -> rd (l ++ l') i = rd l' k.
Proof.
  intros Hk ->. unfold rd. rewrite app_nth2 by lia. f_equal. lia.
Qed.

Lemma get_element_spec m t pre post :
  fits m t ->
  get_element m (pre ++ encode m t ++ post) (Z.of_nat (List.length pre)) =
    (shallow m t post, Z.of_nat (List.length (pre ++ encode m t))).
Proof.
  intros (Ht & Hi & Hl). rewrite length_app, Nat2Z.inj_add, length_encode.
  unfold get_element, shallow.
  assert (forall k, 0 <= k -> rd (pre ++ encode m t ++ post) (Z.of_nat (List.length pre) + k) =
                    rd (encode m t ++ post) k) as R by (intros; by apply rd_app_shift).
  assert (drop (Z.to_nat (Z.of_nat (List.length pre) + header_size m)) (pre ++ encode m t ++ post) =
          body m t ++ post) as D.
  { rewrite encode_body, Z2Nat.inj_add, Nat2Z.id, drop_app_add by (destruct m; simpl; lia).
    by destruct m. }
  pose proof (R 0 ltac:(lia)) as R0. rewrite Z.add_0_r in R0.
  rewrite <- ?Z.add_assoc. change (1 + 1) with 2. change (2 + 1) with 3.
  rewrite R0, !R by lia. rewrite encode_body in *.
  destruct m; cbn [put_type put_length put_instance app header_size wire_instance] in *;
    unfold type_width, length_width in *; rewrite ?D; rd_simpl;
    rewrite ?split16 by done;
    rewrite ?(land_ff (type t)) by done; rewrite ?(land_ff (instance t)) by done;
    rewrite ?(land_ff (Z.of_nat _)) by done;
    by rewrite <- ?Z.add_assoc.
Qed.

Lemma encode_length_pos m t : (2 <= List.length (encode m t))%nat.
Proof. pose proof (length_encode m t). destruct m; simpl header_size in *; lia. Qed.

Lemma encode_all_length m ts : (List.length ts <= List.length (encode_all m ts))%nat.
Proof.
  induction ts as [|t ts IH]; [simpl; lia|]. unfold encode_all in *. cbn [map concat].
  rewrite length_app. pose proof (encode_length_pos m t). cbn [List.length]. lia.
Qed.

(** The nodes a failed parse gives back. *)
Lemma free_all_flat ts avail :
  Forall (fun t => embedded t = []) ts -> tlv_free_all ts avail = (avail + List.length ts)%nat.
Proof.
  unfold tlv_free_all. intros H. f_equal. induction H as [|[? ? ? ? ?] ts Ht Hts IH]; [done|].
  simpl in *. subst. simpl. by rewrite IH.
Qed.

Lemma parse_loop_spec m ts fuel pre acc post blk len avail :
  Forall (fits m) ts -> Forall (fun t => embedded t = []) acc ->
  (List.length ts <= fuel)%nat -> 
  len = Z.of_nat (List.length pre) - blk + Z.of_nat (List.length (encode_all m ts)) ->
  parse_loop fuel m (pre ++ encode_all m ts ++ post) blk len (Z.of_nat (List.length pre)) acc avail =
    if decide (List.length ts <= avail)%nat
    then (Some (acc ++ shallow_all m ts post), (avail - List.length ts)%nat)
    else (None, (avail + List.length acc)%nat).
Proof.
  intros Hts. revert fuel pre acc avail. induction Hts as [|t ts Ht Hts IH]; intros fuel pre acc avail Hacc Hf Hlen.
  - unfold encode_all in *. simpl in Hlen.
    destruct fuel; cbn [parse_loop]; (rewrite decide_False by lia); rewrite decide_True by lia;
      simpl; rewrite app_nil_r, Nat.sub_0_r; done.
  - unfold encode_all in *. cbn [map concat List.length] in *. rewrite length_app in Hlen.
    destruct fuel as [|fuel]; [lia|]. cbn [parse_loop].
    pose proof (encode_length_pos m t). rewrite decide_True by lia.
    destruct avail as [|avail]; cbn [tlv_get].
    + rewrite decide_False by lia. by rewrite free_all_flat.
    + rewrite <- (assoc_L (++) (encode m t)), (get_element_spec m t pre _ Ht).
      rewrite (assoc_L (++) pre), IH;
        [|apply Forall_app_2; [done|by constructor]|lia|rewrite length_app; lia].
      cbn [shallow_all]. unfold encode_all. rewrite <- (assoc_L (++) acc). cbn [app].
      rewrite length_app. cbn [List.length].
      repeat case_decide; try lia; f_equal; lia.
Qed.

Lemma parse_block_spec m ts pre post avail :
  Forall (fits m) ts -> ts <> [] ->
  tlv_parse_block m (Z.of_nat (List.length (encode_all m ts))) (pre ++ encode_all m ts ++ post)
    (Z.of_nat (List.length pre)) avail =
    if decide (List.length ts <= avail)%nat
    then (Some (shallow_all m ts post), (avail - List.length ts)%nat) else (None, avail).
Proof.
  intros Hts Hne. destruct ts as [|t ts]; [done|]. apply Forall_cons in Hts as [Ht Hts].
  unfold encode_all. cbn [map concat]. unfold tlv_parse_block.
  destruct avail as [|avail]; cbn [tlv_get List.length]; [by rewrite decide_False by lia|].
  rewrite <- (assoc_L (++) (encode m t)), (get_element_spec m t pre _ Ht).
  rewrite (assoc_L (++) pre). fold (encode_all m ts).
  pose proof (encode_all_length m ts). pose proof (encode_length_pos m t).
  rewrite parse_loop_spec; [|done|by constructor|rewrite length_app; lia|rewrite !length_app; lia].
  cbn [shallow_all List.length app]. repeat case_decide; try lia; f_equal; lia.
Qed.

(** *** What a successful parse says about the memory *)

Lemma drop_cons_rd mem pos :
  0 <= pos < Z.of_nat (List.length mem) ->
  drop (Z.to_nat pos) mem = rd mem pos :: drop (Z.to_nat (pos + 1)) mem.
Proof.
  intros Hp. destruct (lookup_lt_is_Some_2 mem (Z.to_nat pos)) as [x Hx]; [lia|].
  rewrite (drop_S mem x _ Hx), (rd_lookup mem pos x Hx). do 2 f_equal. lia.
Qed.

Lemma get_element_pos m mem pos t pos' :
  bytes mem -> get_element m mem pos = (t, pos') -> pos + 2 <= pos'.
Proof.
  intros Hb Hg. pose proof (fun i => rd_byte mem i Hb) as Hrd. unfold inw in Hrd.
  assert (forall z, 0 <= u32 z) as Hu by (intros; apply u32_inw).
  destruct m; cbn [get_element] in Hg; injection Hg as _ <-;
    match goal with |- context [u32 ?z] => pose proof (Hu z); lia
    | _ => pose proof (Hrd (pos + 1)); lia end.
Qed.

Lemma get_element_sound m mem pos t pos' :
  bytes mem -> 0 <= pos -> get_element m mem pos = (t, pos') ->
  pos' <= Z.of_nat (List.length mem) ->
  drop (Z.to_nat pos) mem = encode m t ++ drop (Z.to_nat pos') mem /\ sized t /\ fits m t /\
  embedded t = [] /\ pos' = pos + Z.of_nat (List.length (encode m t)).
Proof.
  intros Hb Hp Hg Hle.
  pose proof (fun i => rd_byte mem i Hb) as Hrd.
  assert (exists l, inw (length_width m) l /\ pos' = pos + header_size m + l /\
    t = Tlv (type t) l (instance t) (drop (Z.to_nat (pos + header_size m)) mem) [] /\
    inw (type_width m) (type t) /\ inw 8 (instance t) /\
    forall rest, put_type m (type t) ++ put_length m l ++ put_instance m (instance t) ++ rest =
      match m with
      | T1_L1 => rd mem pos :: rd mem (pos + 1) :: rest
      | T1_L2 => rd mem pos :: rd mem (pos + 1) :: rd mem (pos + 1 + 1) :: rest
      | T1_L2_I1 => rd mem pos :: rd mem (pos + 1) :: rd mem (pos + 1 + 1) :: rd mem (pos + 3) :: rest
      | T2_L2 => rd mem pos :: rd mem (pos + 1) :: rd mem (pos + 2) :: rd mem (pos + 2 + 1) :: rest
      end) as (l & Hl & -> & Et & Hty & Hin & Hbytes).
  { destruct m; cbn [get_element] in Hg; injection Hg as <- <-;
      unfold type_width, length_width, header_size; cbn [type instance put_type put_length put_instance app];
      [exists (rd mem (pos + 1))|exists (u32 ((rd mem (pos + 1) << 8) + rd mem (pos + 1 + 1)))..
      |exists (u32 ((rd mem (pos + 2) << 8) + rd mem (pos + 2 + 1)))];
      repeat match goal with |- context [u32 ((rd mem ?a << 8) + rd mem ?b)] =>
        let H := fresh in pose proof (join16 (rd mem a) (rd mem b) (Hrd _) (Hrd _)) as H;
        revert H; generalize (u32 ((rd mem a << 8) + rd mem b)); intros ? (? & ? & ?) end;
      split_and!; auto; try (by split); intros rest;
      rewrite ?(land_ff (rd mem _)) by auto; congruence. }
  assert (0 <= l) as Hl0 by (unfold inw in Hl; lia).
  assert (0 <= header_size m) by (by destruct m).
  assert (Z.of_nat (List.length (body m t)) = l) as Lb.
  { rewrite Et. unfold body. cbn [embedded length value]. rewrite length_take, length_drop. lia. }
  split_and!.
  - assert (body m t ++ drop (Z.to_nat (pos + header_size m + l)) mem =
            drop (Z.to_nat (pos + header_size m)) mem) as Hbody.
    { rewrite Et. unfold body. cbn [embedded length value].
      rewrite (Z2Nat.inj_add _ l), <- drop_drop by lia. apply take_drop. }
    rewrite encode_body, Lb, <- !(assoc_L (++)), Hbody, Hbytes.
    destruct m; unfold header_size in *; rewrite !drop_cons_rd by lia;
      rewrite <- !Z.add_assoc; reflexivity.
  - rewrite Et. cbn [sized embedded length value]. rewrite length_drop. lia.
  - split_and!; [done|done|by rewrite Lb].
  - by rewrite Et.
  - rewrite length_encode, Lb. lia.
Qed.

Lemma parse_loop_sound fuel m mem blk len pos acc avail r avail' :
  bytes mem -> 0 <= pos -> 0 <= blk -> blk + len <= Z.of_nat (List.length mem) ->
  Forall (fun t => embedded t = []) acc ->
  parse_loop fuel m mem blk len pos acc avail = (r, avail') ->
  match r with
  | Some ts => exists new, ts = acc ++ new /\ avail = (avail' + List.length new)%nat /\
      Forall sized new /\ Forall (fits m) new /\ Forall (fun t => embedded t = []) new /\
      pos + Z.of_nat (List.length (encode_all m new)) = blk + len /\
      drop (Z.to_nat pos) mem = encode_all m new ++ drop (Z.to_nat (blk + len)) mem
  | None => avail' = (avail + List.length acc)%nat
  end.
Proof.
  intros Hb Hpos Hblk Hlen. revert pos acc avail Hpos.
  induction fuel as [|fuel IH]; intros pos acc avail Hpos Hacc Hp; cbn [parse_loop] in Hp.
  - case_decide; [injection Hp as <- <-; by apply free_all_flat|].
    case_decide; injection Hp as <- <-; [|by apply free_all_flat].
    exists []. unfold encode_all. simpl. rewrite app_nil_r. split_and!; try done; try lia.
    do 2 f_equal. lia.
  - case_decide.
    2:{ case_decide; injection Hp as <- <-; [|by apply free_all_flat].
        exists []. unfold encode_all. simpl. rewrite app_nil_r. split_and!; try done; try lia.
        do 2 f_equal. lia. }
    destruct avail as [|avail]; cbn [tlv_get] in Hp; [injection Hp as <- <-; by apply free_all_flat|].
    destruct (get_element m mem pos) as [t pos1] eqn:Hg.
    assert (Hacc1 : Forall (fun t => embedded t = []) (acc ++ [t])).
    { apply Forall_app_2; [done|]. constructor; [|done]. unfold get_element in Hg.
      destruct m; injection Hg as <- _; done. }
    assert (Hp1 : 0 <= pos1) by (pose proof (get_element_pos m mem pos t pos1 Hb Hg); lia).
    specialize (IH pos1 (acc ++ [t]) avail Hp1 Hacc1 Hp). destruct r as [ts|].
    + destruct IH as (new & -> & Ha & Hs & Hf & He & Hend & Hd).
      destruct (get_element_sound m mem pos t pos1) as (Hd1 & Hs1 & Hf1 & He1 & Hp1'); try done; [lia|].
      exists (t :: new). unfold encode_all in *. cbn [map concat List.length].
      split_and!; [by rewrite <- (assoc_L (++))|lia|by constructor|by constructor|by constructor
                  |rewrite length_app; lia|by rewrite Hd1, Hd, (assoc_L (++))].
    + rewrite IH, length_app. simpl. lia.
Qed.

(** ** Properties *)

(** A list of elements, embedded ones included, fills exactly the block that
    [tlv_calc_length] measures, leaves the memory around it alone, and parsing the
    block gives the elements of the list back, with the bytes of their values,
    taking as many nodes from the pool. *)
Theorem tlv_roundtrip m ts pre old post avail :
  Forall sized ts -> Forall (fits m) ts -> ts <> [] ->
  Z.of_nat (List.length (encode_all m ts)) < 2 ^ 32 ->
  List.length old = List.length (encode_all m ts) -> (List.length ts <= avail)%nat ->
  let len := tlv_calc_length m ts in
  let blk := Z.of_nat (List.length pre) in
  let mem' := pre ++ encode_all m ts ++ post in
  tlv_render m ts blk len (pre ++ old ++ post) = Running mem' (blk + len) /\
  tlv_parse_block m len mem' blk avail = (Some (shallow_all m ts post), (avail - List.length ts)%nat).
Proof.
  intros Hs Hf Hne Hlt Hold Hav len blk mem'. unfold len. rewrite calc_length_spec by done. split.
  - unfold mem', blk. rewrite render_spec by (done || lia). rewrite drop_ge, length_app by lia.
    f_equal; [by rewrite <- (assoc_L (++))|lia].
  - unfold mem', blk. rewrite parse_block_spec by done. by rewrite decide_True by done.
Qed.

Lemma tlv_roundtrip_witness :
  let ts := [Tlv 93 0 0 [] [Tlv 73 1 0 [5] []; Tlv 87 3 2 [1; 2; 3; 9] []]; Tlv 2 2 0 [16; 0] []] in
  let m := T1_L2_I1 in
  let mem' := [7; 7] ++ encode_all m ts ++ [8] in
  tlv_render m ts 2 (tlv_calc_length m ts) ([7; 7] ++ replicate 22 0 ++ [8]) =
    Running mem' (2 + tlv_calc_length m ts) /\
  tlv_parse_block m (tlv_calc_length m ts) mem' 2 100 = (Some (shallow_all m ts [8]), (100 - 2)%nat).
Proof.
  intros ts m mem'. apply (tlv_roundtrip m ts [7; 7] (replicate 22 0) [8] 100).
  - repeat constructor; simpl; lia.
  - repeat constructor; simpl; lia.
  - done.
  - done.
  - done.
  - unfold ts. simpl. lia.
Defined.

(** The parser accepts exactly what rendering produces: when it succeeds, the
    bytes of the block are the encoding of the elements it returns, and the pool
    has lost as many nodes; when it fails every node it took is back. *)
Theorem tlv_parse_sound m len mem blk avail :
  bytes mem -> 0 <= blk -> 0 <= len -> blk + len <= Z.of_nat (List.length mem) ->
  match tlv_parse_block m len mem blk avail with
  | (Some ts, avail') =>
      get mem blk len = encode_all m ts /\ Forall sized ts /\ Forall (fits m) ts /\
      avail = (avail' + List.length ts)%nat
  | (None, avail') => avail' = avail
  end.
Proof.
  intros Hb Hblk Hlen0 Hlen. unfold tlv_parse_block. destruct avail as [|avail]; [done|]. cbn [tlv_get].
  destruct (get_element m mem blk) as [t pos] eqn:Hg.
  pose proof (get_element_pos m mem blk t pos Hb Hg).
  destruct (parse_loop (Z.to_nat len) m mem blk len pos [t] avail) as [r avail'] eqn:Hp.
  assert (Forall (fun t => embedded t = []) [t]) as Hflat.
  { constructor; [|done]. unfold get_element in Hg. destruct m; injection Hg as <- _; done. }
  pose proof (parse_loop_sound _ m mem blk len pos [t] avail r avail' Hb ltac:(lia) Hblk Hlen Hflat Hp) as Hr.
  destruct r as [ts|]; [|rewrite Hr; simpl; lia].
  destruct Hr as (new & -> & Ha & Hs & Hf & _ & Hend & Hd).
  destruct (get_element_sound m mem blk t pos) as (Hd1 & Hs1 & Hf1 & _ & Hpos); try done; [lia|].
  split_and!; [|by constructor|by constructor|simpl; lia].
  unfold get. rewrite Hd1, Hd. unfold encode_all in *. cbn [app map concat].
  rewrite (assoc_L (++)). apply take_app_length'. rewrite length_app. lia.
Qed.

Lemma tlv_parse_sound_witness :
  match tlv_parse_block T1_L2_I1 6 [9; 2; 0; 2; 1; 16; 17; 8] 1 100 with
  | (Some ts, avail') =>
      get [9; 2; 0; 2; 1; 16; 17; 8] 1 6 = encode_all T1_L2_I1 ts /\ Forall sized ts /\
      Forall (fits T1_L2_I1) ts /\ 100%nat = (avail' + List.length ts)%nat
  | (None, avail') => avail' = 100%nat
  end.
Proof. apply tlv_parse_sound; [by_decide|lia|lia|simpl; lia]. Defined.

(** Rendering into a block that is too small can run [memcpy] with a negative
    count: here the second header starts past the end. *)
Example render_wild :
  tlv_render T1_L2_I1 [Tlv 1 2 0 [5; 6] []; Tlv 2 2 0 [7; 8] []] 0 6 (replicate 20 0) = Wild.
Proof. reflexivity. Qed.

End TlvSpec.
