(* ===== verification/TlvMsg.v ===== *)
(** [lib/core/src/tlv_msg.c]: messages built from, and parsed into, C structures
    that a tree of descriptors describes.

    A structure is the list, for each descriptor but [TLV_MORE], of its slots:
    one, or as many as the [TLV_MORE] that follows says; a slot is the presence
    flag and the value.  (The source finds a slot by adding up the [vsize] of the
    descriptors before it.)  A null data pointer is the empty list. *)

From S2P Require Import Prelude Pkbuf Tlv.

Module TlvMsg.
Import Tlv.

(** ** Data *)

Inductive ctype :=
| TLV_UINT8 | TLV_UINT16 | TLV_UINT24 | TLV_UINT32
| TLV_INT8 | TLV_INT16 | TLV_INT24 | TLV_INT32
| TLV_FIXED_STR | TLV_VAR_STR | TLV_NULL | TLV_MORE | TLV_COMPOUND | TLV_MESSAGE.
#[export] Instance ctype_eq_dec : EqDecision ctype.
Proof. solve_decision. Defined.

#[local] Set Warnings "-register-all".

(** [tlv_desc_t], without the name and [vsize]. *)
Inductive desc := Desc {
  d_ctype : ctype; d_type : Z; d_length : Z; d_instance : Z; child_descs : list desc
}.

(** [tlv_desc_more1] to [tlv_desc_more8] *)
Definition tlv_desc_more (n : Z) : desc := Desc TLV_MORE 0 n 0 [].

(** The length of the [TLV_MORE] a list of descriptors starts with. *)
Definition more_of (ds : list desc) : option Z :=
  match ds with
  | more :: _ => if decide (d_ctype more = TLV_MORE) then Some (d_length more) else None
  | [] => None
  end.

(** The members of a slot after [presence]. *)
Inductive value :=
| VInt (z : Z)
| VOctet (data : list Z) (len : Z)
| VNull
| VStruct (fields : list (list (Z * value))).
Abbreviation slot := (Z * value)%type.
Abbreviation fields := (list (list slot)).

(** The descriptors but [TLV_MORE], each with the length of the one after it. *)
Fixpoint items (ds : list desc) : list (desc * option Z) :=
  match ds with
  | [] => []
  | d :: ds => if decide (d_ctype d = TLV_MORE) then items ds else (d, more_of ds) :: items ds
  end.
(** The number of slots of an item. *)
Definition slots_of (more : option Z) : nat := match more with Some n => Z.to_nat n | None => 1 end.

(** The structure after [memset(msg, 0, sizeof(...))]. *)
Definition blank_value (rec : list desc -> fields) (d : desc) : value :=
  match d_ctype d with
  | TLV_COMPOUND => VStruct (rec (child_descs d))
  | TLV_FIXED_STR | TLV_VAR_STR => VOctet [] 0
  | TLV_NULL => VNull
  | _ => VInt 0
  end.
Definition blank_item (rec : list desc -> fields) (it : desc * option Z) : list slot :=
  replicate (slots_of (snd it)) (0, blank_value rec (fst it)).
Fixpoint blank_fields (fuel : nat) (ds : list desc) : fields :=
  match fuel with
  | O => []
  | S fuel => map (blank_item (blank_fields fuel)) (items ds)
  end.

(** The bytes of a 16-bit integer in memory. *)
Definition le16 (z : Z) : list Z := [u8 z; u8 (z >> 8)].

(** ** Building *)

(** What [_tlv_add_leaf] passes to [tlv_add]: the length, the memory the value
    pointer designates, and the slot as it leaves it (multi-byte integers are
    converted in place).  [None] for the failed assertions. *)
Definition leaf_value (d : desc) (v : value) : option (Z * list Z * value) :=
  match d_ctype d, v with
  | (TLV_UINT8 | TLV_INT8), VInt z => Some (1, [z], v)
  | TLV_UINT16, VInt z => let z := bswap16 z in Some (2, le16 z, VInt z)
  | (TLV_UINT24 | TLV_INT24), VInt z =>
      let z := bswap32 (u32 (z << 8)) in Some (3, le32 z, VInt z)
  | (TLV_UINT32 | TLV_INT32), VInt z => let z := bswap32 z in Some (4, le32 z, VInt z)
  | TLV_FIXED_STR, VOctet data len => Some (d_length d, data, v)
  | TLV_VAR_STR, VOctet data len => if decide (0 < len) then Some (len, data, v) else None
  | TLV_NULL, _ => Some (0, [], v)
  | _, _ => None
  end.

(** [_tlv_add_leaf]: [sibs] are the siblings so far; the result is the new list
    of siblings, if any, the slot value and the pool.  Only [tlv_add], used for
    the elements of the message itself ([top]), checks the value pointer; the
    node is then lost. *)
Definition add_leaf (top : bool) (d : desc) (v : value) (sibs : list tlv) (avail : nat)
  : option (list tlv) * value * nat :=
  match leaf_value d v with
  | None => (None, v, avail)
  | Some (len, bs, v') =>
      match tlv_get avail with
      | None => (None, v', avail)
      | Some avail =>
          if decide (top = true /\ len <> 0 /\ bs = []) then (None, v', avail)
          else (Some (sibs ++ [Tlv (d_type d) len (d_instance d) bs []]), v', avail)
      end
  end.

(** The state of [_tlv_add_compound]: whether it goes on, the siblings linked so
    far, whether [*root] is set, the pool. *)
Record adding := mkAdding { going : bool; sibs : list tlv; root : bool; left : nat }.

Section compound.
(** The recursive call. *)
Variable rec : list desc -> fields -> nat -> adding * fields.
Variable top : bool.

(** One present slot of the descriptor [d].  When no node is left for a compound
    element, the recursive call cannot allocate one either and fails. *)
Definition add_slot (d : desc) (v : value) (s : adding) : adding * value :=
  if decide (d_ctype d = TLV_COMPOUND) then
    match v, tlv_get (left s) with
    | VStruct fs, Some avail =>
        let '(r, fs) := rec (child_descs d) fs avail in
        let s' := mkAdding (going r && root r)
                    (sibs s ++ [Tlv (d_type d) 0 (d_instance d) [] (sibs r)])
                    (root s || going r && root r) (left r) in
        (s', VStruct fs)
    | _, _ => (mkAdding false (sibs s) (root s) (left s), v)
    end
  else
    match add_leaf top d v (sibs s) (left s) with
    | (Some l, v, avail) => (mkAdding true l true avail, v)
    | (None, v, avail) => (mkAdding false (sibs s) (root s) avail, v)
    end.

(** The slots of a descriptor: the single one, or those before the first absent
    one. *)
Fixpoint add_slots (d : desc) (ss : list slot) (s : adding) : adding * list slot :=
  match ss with
  | [] => (s, [])
  | (p, v) :: ss' =>
      if decide (p = 0) then (s, ss)
      else
        let '(s, v) := add_slot d v s in
        if going s then let '(s, ss') := add_slots d ss' s in (s, (p, v) :: ss')
        else (s, (p, v) :: ss')
  end.

(** A [TLV_MORE] only occurs after the descriptor it is about. *)
Fixpoint add_children (ds : list desc) (fs : fields) (s : adding) : adding * fields :=
  match ds, fs with
  | d :: ds', ss :: fs' =>
      let n := match more_of ds' with Some n => Z.to_nat n | None => 1%nat end in
      if decide (d_ctype d = TLV_MORE) then add_children ds' fs s
      else
        let '(s, ss1) := add_slots d (take n ss) s in
        let ss := ss1 ++ drop n ss in
        if going s then let '(s, fs') := add_children ds' fs' s in (s, ss :: fs')
        else (s, ss :: fs')
  | _, _ => (s, fs)
  end.
End compound.

(** [_tlv_add_compound], [fuel] being 9 less the depth: the source fails when the
    depth exceeds 8. *)
Fixpoint add_compound (fuel : nat) (top : bool) (ds : list desc) (fs : fields) (avail : nat)
  : adding * fields :=
  match fuel with
  | O => (mkAdding false [] false avail, fs)
  | S fuel => add_children (add_compound fuel false) top ds fs (mkAdding true [] false avail)
  end.

Inductive status := CORE_OK | CORE_ERROR | CORE_ENOMEM.

(** [tlv_build_msg]: the status, the bytes of the packet buffer, the message
    after the call and the pool.  [alloc] is [pkbuf_alloc]: for a length, the
    memory at the payload of the new buffer. *)
Definition tlv_build_msg (alloc : Z -> option (list Z)) (m : mode) (d : desc) (fs : fields) (avail : nat)
  : status * list Z * fields * nat :=
  if decide (d_ctype d <> TLV_MESSAGE \/ child_descs d = []) then (CORE_ERROR, [], fs, avail)
  else
    let '(r, fs) := add_compound 9 true (child_descs d) fs avail in
    let freed := if root r then tlv_free_all (sibs r) (left r) else left r in
    if negb (going r && root r) then (CORE_ERROR, [], fs, freed)
    else
      let length := tlv_calc_length m (sibs r) in
      match alloc (u16 length) with
      | None => (CORE_ENOMEM, [], fs, freed)
      | Some blk =>
          match tlv_render m (sibs r) 0 length blk with
          | Running mem pos | Returned mem pos =>
              if decide (pos = length) then (CORE_OK, get mem 0 (u16 length), fs, freed)
              else (CORE_ERROR, [], fs, freed)
          | Wild => (CORE_ERROR, [], fs, freed)
          end
      end.

(** ** Parsing *)

(** [_tlv_find_desc]: the descriptor, the position of its slots and the length of
    the [TLV_MORE] that follows it. *)
Fixpoint find_desc (ds : list desc) (t : tlv) (k : nat) : option (desc * nat * option Z) :=
  match ds with
  | [] => None
  | d :: ds' =>
      if decide (d_type d = type t /\ d_instance d = instance t) then
        Some (d, k, more_of ds')
      else find_desc ds' t (if decide (d_ctype d = TLV_MORE) then k else S k)
  end.

(** [_tlv_parse_leaf]: the value stored, or [None] for [CORE_ERROR]. *)
Definition parse_leaf (d : desc) (t : tlv) : option value :=
  let v := Tlv.value t in
  match d_ctype d with
  | TLV_UINT8 | TLV_INT8 => if decide (length t = 1) then Some (VInt (rd v 0)) else None
  | TLV_UINT16 | TLV_INT16 =>
      if decide (length t = 2)
      then Some (VInt (((rd v 0 << 8) .& 0xff00) .| (rd v 1 .& 0x00ff))) else None
  | TLV_UINT24 | TLV_INT24 =>
      if decide (length t = 3)
      then Some (VInt (((rd v 0 << 16) .& 0x00ff0000) .| ((rd v 1 << 8) .& 0x0000ff00) .|
                       (rd v 2 .& 0x000000ff))) else None
  | TLV_UINT32 | TLV_INT32 =>
      if decide (length t = 4)
      then Some (VInt (((rd v 0 << 24) .& 0xff000000) .| ((rd v 1 << 16) .& 0x00ff0000) .|
                       ((rd v 2 << 8) .& 0x0000ff00) .| (rd v 3 .& 0x000000ff))) else None
  | TLV_FIXED_STR => if decide (length t = d_length d) then Some (VOctet v (length t)) else None
  | TLV_VAR_STR => Some (VOctet v (length t))
  | TLV_NULL => if decide (length t = 0) then Some VNull else None
  | _ => None
  end.

(** The position of the first absent slot. *)
Fixpoint first_absent (ss : list slot) : nat :=
  match ss with
  | [] => 0
  | (p, _) :: ss => if decide (p = 0) then 0 else S (first_absent ss)
  end.

(** The outcome for one element: the slots, the element with what was embedded
    in it, the pool. *)
Inductive parsed := Next (fs : fields) (t : tlv) (avail : nat) | Failed (fs : fields) (t : tlv) (avail : nat).

Section parse.
Variable m : mode.
(** The recursive call: status, slots, elements and pool. *)
Variable rec : list desc -> fields -> list tlv -> nat -> bool * fields * list tlv * nat.

Definition store (fs : fields) (k j : nat) (s : slot) : fields :=
  alter (fun ss => <[j := s]> ss) k fs.

(** One turn of the loop of [_tlv_parse_compound]. *)
Definition parse_one (ds : list desc) (fs : fields) (t : tlv) (avail : nat) : parsed :=
  match find_desc ds t 0 with
  | None => Failed fs t avail
  | Some (d, k, more) =>
      let ss := default [] (fs !! k) in
      let j := match more with Some n => first_absent (take (Z.to_nat n) ss) | None => 0%nat end in
      if match more with Some n => bool_decide (j = Z.to_nat n) | None => false end then Next fs t avail
      else
        let '(p, v) := default (0, VNull) (ss !! j) in
        if decide (d_ctype d = TLV_COMPOUND) then
          match tlv_parse_embedded_block m t avail with
          | (None, avail) => Failed fs t avail
          | (Some t, avail) =>
              let fs' := match v with VStruct fs' => fs' | _ => [] end in
              match rec (child_descs d) fs' (embedded t) avail with
              | (true, fs', emb, avail) =>
                  Next (store fs k j (1, VStruct fs'))
                       (Tlv (type t) (length t) (instance t) (Tlv.value t) emb) avail
              | (false, fs', emb, avail) =>
                  Failed (store fs k j (p, VStruct fs'))
                         (Tlv (type t) (length t) (instance t) (Tlv.value t) emb) avail
              end
          end
        else
          match parse_leaf d t with
          | Some v => Next (store fs k j (1, v)) t avail
          | None => Failed fs t avail
          end
  end.

Fixpoint parse_elements (ds : list desc) (fs : fields) (ts : list tlv) (avail : nat)
  : bool * fields * list tlv * nat :=
  match ts with
  | [] => (true, fs, [], avail)
  | t :: ts =>
      match parse_one ds fs t avail with
      | Failed fs t avail => (false, fs, t :: ts, avail)
      | Next fs t avail =>
          let '(ok, fs, ts, avail) := parse_elements ds fs ts avail in (ok, fs, t :: ts, avail)
      end
  end.
End parse.

(** [_tlv_parse_compound], [fuel] being 9 less the depth; past the depth of 8 the
    source returns 0, which is [CORE_OK]. *)
Fixpoint parse_compound (fuel : nat) (m : mode) (ds : list desc) (fs : fields) (ts : list tlv)
    (avail : nat) : bool * fields * list tlv * nat :=
  match fuel with
  | O => (true, fs, ts, avail)
  | S fuel => parse_elements m (parse_compound fuel m) ds fs ts avail
  end.

(** [tlv_parse_msg] on [len] bytes at the start of [mem]: the status, the message
    and the pool. *)
Definition tlv_parse_msg (m : mode) (d : desc) (fs : fields) (len : Z) (mem : list Z) (avail : nat)
  : bool * fields * nat :=
  if decide (d_ctype d <> TLV_MESSAGE \/ child_descs d = []) then (false, fs, avail)
  else
    match tlv_parse_block m len mem 0 avail with
    | (None, avail) => (false, fs, avail)
    | (Some ts, avail) =>
        let '(ok, fs, ts, avail) := parse_compound 9 m (child_descs d) fs ts avail in
        (ok, fs, tlv_free_all ts avail)
    end.

End TlvMsg.
