(* ===== verification/TlvMsgSpec.v ===== *)
(** Messages of [TlvMsg]: what building produces, and that parsing gives the
    message back. *)

From S2P Require Import Prelude Pkbuf Tlv TlvSpec TlvMsg.

Module TlvMsgSpec.
Import Tlv TlvSpec TlvMsg.

(** ** Descriptors as items *)

Definition key (d : desc) : Z * Z := (d_type d, d_instance d).
Definition is_leaf (c : ctype) : bool :=
  match c with
  | TLV_UINT8 | TLV_UINT16 | TLV_UINT24 | TLV_UINT32 | TLV_INT8 | TLV_INT24 | TLV_INT32
  | TLV_FIXED_STR | TLV_VAR_STR | TLV_NULL => true
  | _ => false
  end.

(** Descriptors that a message can be parsed under, to a given depth: distinct
    (type, instance) pairs that fit in a header, no type 0 (that of [TLV_MORE]),
    and no [TLV_INT16], which cannot be built. *)
Fixpoint wf_descs (m : mode) (fuel : nat) (ds : list desc) : bool :=
  match fuel with
  | O => false
  | S fuel =>
      bool_decide (NoDup (map (fun it => key (fst it)) (items ds))) &&
      forallb (fun d => bool_decide (d_ctype d = TLV_MORE -> d_type d = 0)) ds &&
      forallb (fun '(d, more) =>
        bool_decide (d_type d <> 0 /\ inw (type_width m) (d_type d) /\ inw 8 (d_instance d) /\
                     wire_instance m (d_instance d) = d_instance d /\ 0 <= d_length d) &&
        (if is_leaf (d_ctype d) then true
         else bool_decide (d_ctype d = TLV_COMPOUND) && wf_descs m fuel (child_descs d)))
        (items ds)
  end.

(** ** Messages that can be built *)

Definition wf_leaf (d : desc) (v : value) : bool :=
  match d_ctype d, v with
  | (TLV_UINT8 | TLV_INT8), VInt z => bool_decide (inw 8 z)
  | TLV_UINT16, VInt z => bool_decide (inw 16 z)
  | (TLV_UINT24 | TLV_INT24), VInt z => bool_decide (inw 24 z)
  | (TLV_UINT32 | TLV_INT32), VInt z => bool_decide (inw 32 z)
  | TLV_FIXED_STR, VOctet data len =>
      bool_decide (len = d_length d /\ 0 <= len <= Z.of_nat (List.length data))
  | TLV_VAR_STR, VOctet data len => bool_decide (0 < len <= Z.of_nat (List.length data))
  | TLV_NULL, VNull => true
  | _, _ => false
  end.

(** The slots in use come first. *)
Definition prefix_present (ss : list slot) : bool :=
  forallb (fun s => bool_decide (fst s = 1)) (take (first_absent ss) ss) &&
  forallb (fun s => bool_decide (fst s = 0)) (drop (first_absent ss) ss).

Definition present (ss : list slot) : list slot := take (first_absent ss) ss.

Section wf.
Variable rec : list desc -> fields -> bool.
Definition wf_value (d : desc) (v : value) : bool :=
  if is_leaf (d_ctype d) then wf_leaf d v
  else match v with
       | VStruct fs => rec (child_descs d) fs && existsb (fun ss => bool_decide (present ss <> [])) fs
       | _ => false
       end.
Definition wf_item (it : desc * option Z) (ss : list slot) : bool :=
  bool_decide (List.length ss = slots_of (snd it)) && prefix_present ss &&
  forallb (fun s => wf_value (fst it) (snd s)) (present ss).
Fixpoint wf_items (its : list (desc * option Z)) (fs : fields) : bool :=
  match its, fs with
  | [], [] => true
  | it :: its, ss :: fs => wf_item it ss && wf_items its fs
  | _, _ => false
  end.
End wf.

Fixpoint wf_fields (fuel : nat) (ds : list desc) (fs : fields) : bool :=
  match fuel with
  | O => false
  | S fuel => wf_items (wf_fields fuel) (items ds) fs
  end.

(** ** The elements of a message *)

Section enc.
Variable rec : list desc -> fields -> list tlv.
Definition enc_value (d : desc) (v : value) : tlv :=
  match d_ctype d, v with
  | TLV_COMPOUND, VStruct fs => Tlv (d_type d) 0 (d_instance d) [] (rec (child_descs d) fs)
  | _, _ =>
      match leaf_value d v with
      | Some (len, bs, _) => Tlv (d_type d) len (d_instance d) bs []
      | None => Tlv (d_type d) 0 (d_instance d) [] []
      end
  end.
Definition enc_slots (d : desc) (ss : list slot) : list tlv :=
  map (fun s => enc_value d (snd s)) (present ss).
Fixpoint enc_items (its : list (desc * option Z)) (fs : fields) : list tlv :=
  match its, fs with
  | (d, _) :: its, ss :: fs => enc_slots d ss ++ enc_items its fs
  | _, _ => []
  end.
End enc.

Fixpoint enc_fields (fuel : nat) (ds : list desc) (fs : fields) : list tlv :=
  match fuel with
  | O => []
  | S fuel => enc_items (enc_fields fuel) (items ds) fs
  end.

Definition count_nodes (ts : list tlv) : nat := sum_list (map nodes ts).

(** ** Building *)

Lemma count_nodes_app ts ts' : count_nodes (ts ++ ts') = (count_nodes ts + count_nodes ts')%nat.
Proof. unfold count_nodes. induction ts as [|t ts IH]; simpl; [done|]. rewrite IH. lia. Qed.

(** The loop on descriptors, on items. *)
Fixpoint add_items rec (top : bool) (its : list (desc * option Z)) (fs : fields) (s : adding)
  : adding * fields :=
  match its, fs with
  | (d, more) :: its, ss :: fs =>
      let n := slots_of more in
      let '(s, ss1) := add_slots rec top d (take n ss) s in
      let ss := ss1 ++ drop n ss in
      if going s then let '(s, fs') := add_items rec top its fs s in (s, ss :: fs')
      else (s, ss :: fs)
  | _, _ => (s, fs)
  end.

Lemma add_children_items rec top ds fs s :
  add_children rec top ds fs s = add_items rec top (items ds) fs s.
Proof.
  revert fs s. induction ds as [|d ds IH]; intros fs s; [by destruct fs|]. cbn [items add_children].
  destruct fs as [|ss fs].
  - case_decide; [|done]. rewrite <- IH. by destruct ds.
  - case_decide; [apply IH|]. cbn [add_items]. unfold slots_of.
    destruct (add_slots _ _ _ _ _) as [s' ss1]. destruct (going s'); [|done]. by rewrite IH.
Qed.

Lemma leaf_ok d v :
  is_leaf (d_ctype d) = true -> wf_leaf d v = true ->
  exists len bs v', leaf_value d v = Some (len, bs, v') /\ 0 <= len <= Z.of_nat (List.length bs) /\
    enc_value (fun _ _ => []) d v = Tlv (d_type d) len (d_instance d) bs [].
Proof.
  unfold is_leaf, wf_leaf, leaf_value, enc_value. intros Hl Hw.
  destruct (d_ctype d) eqn:E; try done; destruct v; try done;
    apply bool_decide_eq_true in Hw || idtac;
    unfold leaf_value; rewrite E; try (rewrite decide_True by lia);
    (eexists _, _, _; split_and!; [reflexivity|simpl; lia|simpl; lia|reflexivity]).
Qed.

Lemma enc_value_leaf rec d v :
  is_leaf (d_ctype d) = true -> enc_value rec d v = enc_value (fun _ _ => []) d v.
Proof. unfold enc_value, is_leaf. by destruct (d_ctype d). Qed.

Section build.
Variable addrec : list desc -> fields -> nat -> adding * fields.
Variable encrec : list desc -> fields -> list tlv.
Variable wfrec : list desc -> fields -> bool.

Variable dok : list desc -> Prop.

(** The recursive call builds the elements of a structure that can be built. *)
Hypothesis addrec_ok : forall ds fs avail, dok ds ->
  wfrec ds fs = true -> (count_nodes (encrec ds fs) <= avail)%nat ->
  exists fs', addrec ds fs avail =
    (mkAdding true (encrec ds fs) (bool_decide (encrec ds fs <> []))
              (avail - count_nodes (encrec ds fs)), fs').
Hypothesis encrec_ne : forall ds fs,
  wfrec ds fs = true -> existsb (fun ss => bool_decide (present ss <> [])) fs = true ->
  encrec ds fs <> [].
Variable top : bool.

Definition known_desc (d : desc) : Prop :=
  is_leaf (d_ctype d) = true \/ d_ctype d = TLV_COMPOUND /\ dok (child_descs d).

Lemma add_slot_ok d v s :
  wf_value wfrec d v = true -> known_desc d ->
  (nodes (enc_value encrec d v) <= left s)%nat ->
  exists v', add_slot addrec top d v s =
    (mkAdding true (sibs s ++ [enc_value encrec d v]) true
              (left s - nodes (enc_value encrec d v)), v').
Proof.
  intros Hw Hd Hn. unfold add_slot, wf_value in *. destruct (is_leaf (d_ctype d)) eqn:El.
  - rewrite decide_False by (intros E; by rewrite E in El). clear Hd.
    destruct (leaf_ok d v El Hw) as (len & bs & v' & Hv & Hlen & He).
    rewrite enc_value_leaf, He in * by done. unfold add_leaf. rewrite Hv. simpl in Hn.
    destruct (left s) as [|n] eqn:Hs; [lia|]. cbn [tlv_get].
    rewrite decide_False by (intros (_ & ? & ->); simpl in Hlen; lia).
    exists v'. simpl. by rewrite Nat.sub_0_r.
  - destruct Hd as [|[E Hc]]; [congruence|]. rewrite decide_True by done. destruct v as [| | |fs]; try done.
    apply andb_true_iff in Hw as [Hw Hp]. unfold enc_value in *. rewrite E in *. simpl in Hn.
    destruct (left s) as [|n] eqn:Hs; [lia|]. cbn [tlv_get].
    destruct (addrec_ok (child_descs d) fs n Hc Hw) as [fs' ->]; [unfold count_nodes; lia|].
    rewrite bool_decide_true by by apply encrec_ne.
    exists (VStruct fs'). cbn [going root sibs left andb]. rewrite orb_true_r. simpl. done.
Qed.

Lemma add_slots_ok d ss s :
  known_desc d ->
  forallb (fun s => wf_value wfrec d (snd s)) (present ss) = true -> going s = true ->
  (count_nodes (enc_slots encrec d ss) <= left s)%nat ->
  exists ss', add_slots addrec top d ss s =
    (mkAdding true (sibs s ++ enc_slots encrec d ss)
              (root s || bool_decide (present ss <> []))
              (left s - count_nodes (enc_slots encrec d ss)), ss').
Proof.
  intros Hd. revert s. induction ss as [|[p v] ss IH]; intros s Hw Hg Hn.
  - exists []. simpl. unfold enc_slots, present. simpl. rewrite app_nil_r, orb_false_r, Nat.sub_0_r.
    by destruct s as [[] ?? ?].
  - cbn [add_slots]. unfold enc_slots, present in *. cbn [first_absent] in *. case_decide as Hp.
    + exists ((p, v) :: ss). simpl. rewrite app_nil_r, orb_false_r, Nat.sub_0_r.
      by destruct s as [[] ?? ?].
    + cbn [take map forallb snd] in *. apply andb_true_iff in Hw as [Hv Hw].
      unfold count_nodes in Hn. simpl in Hn.
      destruct (add_slot_ok d v s Hv Hd) as [v' ->]; [lia|]. cbn [going].
      edestruct IH as [ss' ->]; [exact Hw|reflexivity|cbn [left]; unfold count_nodes; lia|].
      exists ((p, v') :: ss'). cbn [sibs root left orb]. do 2 f_equal.
      * by rewrite <- (assoc_L (++)).
      * by rewrite orb_true_r.
      * unfold count_nodes. simpl. lia.
Qed.

Lemma take_slots (ss : list slot) n : n = List.length ss -> take n ss = ss /\ drop n ss = [].
Proof. intros ->. by rewrite take_ge, drop_ge by done. Qed.

Lemma add_items_ok its fs s :
  Forall (fun it => known_desc (fst it)) its -> wf_items wfrec its fs = true -> going s = true ->
  (count_nodes (enc_items encrec its fs) <= left s)%nat ->
  exists fs', add_items addrec top its fs s =
    (mkAdding true (sibs s ++ enc_items encrec its fs)
              (root s || bool_decide (enc_items encrec its fs <> []))
              (left s - count_nodes (enc_items encrec its fs)), fs').
Proof.
  intros Hk. revert fs s. induction Hk as [|[d more] its Hd Hk IH]; intros [|ss fs] s Hw Hg Hn; try done.
  - exists []. simpl. rewrite app_nil_r, orb_false_r, Nat.sub_0_r. by destruct s as [[] ?? ?].
  - cbn [add_items enc_items wf_items] in *. apply andb_true_iff in Hw as [Hi Hw].
    unfold wf_item in Hi. rewrite !andb_true_iff, bool_decide_eq_true in Hi.
    destruct Hi as [[Hlen _] Hv]. cbn [fst snd] in *.
    destruct (take_slots ss (slots_of more)) as [-> ->]; [done|].
    rewrite count_nodes_app in *.
    destruct (add_slots_ok d ss s Hd Hv Hg) as [ss' ->]; [lia|]. cbn [going].
    edestruct IH as [fs' ->]; [exact Hw|reflexivity|cbn [left]; lia|].
    exists ((ss' ++ []) :: fs'). cbn [sibs root left]. do 2 f_equal.
    + by rewrite <- (assoc_L (++)).
    + rewrite <- orb_assoc. f_equal. unfold enc_slots.
      destruct (present ss); simpl; [by destruct (enc_items encrec its fs)|done].
    + lia.
Qed.
End build.

Lemma enc_items_ne rec wfrec its fs :
  wf_items wfrec its fs = true -> existsb (fun ss => bool_decide (present ss <> [])) fs = true ->
  enc_items rec its fs <> [].
Proof.
  revert fs. induction its as [|[d more] its IH]; intros [|ss fs] Hw He; try done.
  cbn [wf_items existsb enc_items] in *. apply andb_true_iff in Hw as [_ Hw].
  apply orb_true_iff in He as [He|He].
  - apply bool_decide_eq_true in He. unfold enc_slots. by destruct (present ss).
  - intros Happ. apply app_eq_nil in Happ as [_ Hn]. by apply (IH fs).
Qed.

Lemma wf_descs_S m fuel ds :
  wf_descs m (S fuel) ds = true ->
  NoDup (map (fun it => key (fst it)) (items ds)) /\
  Forall (fun d => d_ctype d = TLV_MORE -> d_type d = 0) ds /\
  Forall (fun it => d_type (fst it) <> 0 /\ inw (type_width m) (d_type (fst it)) /\
    inw 8 (d_instance (fst it)) /\ wire_instance m (d_instance (fst it)) = d_instance (fst it) /\
    (is_leaf (d_ctype (fst it)) = true \/
     d_ctype (fst it) = TLV_COMPOUND /\ wf_descs m fuel (child_descs (fst it)) = true)) (items ds).
Proof.
  cbn [wf_descs]. rewrite !andb_true_iff, bool_decide_eq_true, !forallb_forall.
  intros [[H1 H2] H3]. split_and!; [done| |].
  - apply Forall_forall. intros d Hd. by eapply bool_decide_eq_true, H2, list_elem_of_In.
  - apply Forall_forall. intros [d more] Hd. apply list_elem_of_In in Hd. specialize (H3 _ Hd).
    cbn in H3. rewrite andb_true_iff, bool_decide_eq_true in H3. destruct H3 as [(?&?&?&?&?) H3].
    split_and!; try done. cbn [fst]. destruct (is_leaf (d_ctype d)); [by left|right].
    by rewrite andb_true_iff, bool_decide_eq_true in H3.
Qed.

Lemma wf_descs_known m fuel ds :
  wf_descs m (S fuel) ds = true ->
  Forall (fun it => known_desc (fun ds => wf_descs m fuel ds = true) (fst it)) (items ds).
Proof.
  intros (_ & _ & H)%wf_descs_S. apply (Forall_impl _ _ _ H). by intros it (_ & _ & _ & _ & Hk).
Qed.

(** The elements [_tlv_add_compound] adds. *)
Lemma add_compound_ok fuel m top ds fs avail :
  wf_descs m fuel ds = true -> wf_fields fuel ds fs = true ->
  (count_nodes (enc_fields fuel ds fs) <= avail)%nat ->
  exists fs', add_compound fuel top ds fs avail =
    (mkAdding true (enc_fields fuel ds fs) (bool_decide (enc_fields fuel ds fs <> []))
              (avail - count_nodes (enc_fields fuel ds fs)), fs').
Proof.
  revert top ds fs avail. induction fuel as [|fuel IH]; intros top ds fs avail Hd Hw Hn; [done|].
  cbn [add_compound wf_fields enc_fields] in *. rewrite add_children_items.
  assert (Hne : forall ds fs, wf_fields fuel ds fs = true ->
    existsb (fun ss => bool_decide (present ss <> [])) fs = true -> enc_fields fuel ds fs <> []).
  { intros ds' fs' Hw' He. destruct fuel; [done|]. by apply (enc_items_ne _ (wf_fields fuel)). }
  destruct (add_items_ok (add_compound fuel false) (enc_fields fuel) (wf_fields fuel)
    (fun ds => wf_descs m fuel ds = true) (fun ds fs avail => IH false ds fs avail) Hne top
    (items ds) fs (mkAdding true [] false avail) (wf_descs_known m fuel ds Hd) Hw eq_refl Hn)
    as [fs' ->]. by exists fs'.
Qed.

(** ** The wire *)

(** The header fields of an element survive the wire. *)
Definition header_ok (m : mode) (t : tlv) : Prop :=
  inw (type_width m) (type t) /\ inw 8 (instance t) /\ wire_instance m (instance t) = instance t.

Lemma length_body_le m t ts :
  t ∈ ts -> (List.length (body m t) <= List.length (encode_all m ts))%nat.
Proof.
  intros Ht. apply list_elem_of_split in Ht as (l1 & l2 & ->).
  pose proof (length_encode m t). unfold encode_all. rewrite map_app, concat_app. cbn [map concat].
  rewrite !length_app. destruct m; simpl header_size in *; lia.
Qed.

Lemma fits_all m ts :
  Forall (header_ok m) ts -> Z.of_nat (List.length (encode_all m ts)) < 2 ^ length_width m ->
  Forall (fits m) ts.
Proof.
  intros Hh Hlen. apply Forall_forall. intros t Ht.
  pose proof (proj1 (Forall_forall _ _) Hh t Ht) as (H1 & H2 & _).
  pose proof (length_body_le m t ts Ht). split_and!; [done|done|]. unfold inw. lia.
Qed.

Lemma shallow_all_app m ts1 ts2 rest :
  shallow_all m (ts1 ++ ts2) rest = shallow_all m ts1 (encode_all m ts2 ++ rest) ++ shallow_all m ts2 rest.
Proof.
  induction ts1 as [|t ts1 IH]; [done|]. cbn [app shallow_all]. rewrite IH. f_equal.
  unfold encode_all. rewrite map_app, concat_app. by rewrite <- (assoc_L (++)).
Qed.

Lemma length_shallow_all m ts rest : List.length (shallow_all m ts rest) = List.length ts.
Proof. induction ts; simpl; congruence. Qed.

(** *** The elements of a message fit *)

Section enc_ok.
Variable m : mode.
Variable encrec : list desc -> fields -> list tlv.
Variable wfrec : list desc -> fields -> bool.
Variable dok : list desc -> Prop.
Hypothesis encrec_sized : forall ds fs, dok ds -> wfrec ds fs = true -> Forall sized (encrec ds fs).

Definition desc_header (d : desc) : Prop :=
  inw (type_width m) (d_type d) /\ inw 8 (d_instance d) /\ wire_instance m (d_instance d) = d_instance d.

Lemma enc_value_key d v :
  type (enc_value encrec d v) = d_type d /\ instance (enc_value encrec d v) = d_instance d.
Proof.
  unfold enc_value. destruct (d_ctype d), v; try done; by destruct (leaf_value d _) as [[[??]?]|].
Qed.

Lemma enc_value_sized d v :
  known_desc dok d -> wf_value wfrec d v = true -> sized (enc_value encrec d v).
Proof.
  intros Hk Hw. unfold wf_value in Hw. destruct (is_leaf (d_ctype d)) eqn:El.
  - destruct (leaf_ok d v El Hw) as (len & bs & v' & _ & Hlen & He).
    rewrite enc_value_leaf, He by done. exact Hlen.
  - destruct Hk as [|[E Hc]]; [congruence|]. destruct v as [| | |fs]; try done.
    apply andb_true_iff in Hw as [Hw _]. unfold enc_value. rewrite E.
    pose proof (encrec_sized _ _ Hc Hw) as Hs. cbn [sized embedded length Tlv.value].
    destruct (encrec (child_descs d) fs) as [|t ts]; [simpl; lia|]. by apply sized_Forall.
Qed.

Lemma enc_items_Forall (P : tlv -> Prop) its fs :
  (forall it v, it ∈ its -> wf_value wfrec (fst it) v = true -> P (enc_value encrec (fst it) v)) ->
  wf_items wfrec its fs = true -> Forall P (enc_items encrec its fs).
Proof.
  revert fs. induction its as [|[d more] its IH]; intros [|ss fs] HP Hw; try done.
  cbn [wf_items enc_items] in *. apply andb_true_iff in Hw as [Hi Hw].
  apply Forall_app_2; [|apply IH; [|done]; intros; apply HP; [by right|done]].
  unfold wf_item in Hi. rewrite !andb_true_iff, forallb_forall in Hi. destruct Hi as [_ Hv].
  unfold enc_slots. apply Forall_fmap, Forall_forall. intros s Hs. cbn.
  apply (HP (d, more)); [by left|]. apply Hv. by apply list_elem_of_In.
Qed.
End enc_ok.

Lemma enc_fields_ok m fuel ds fs :
  wf_descs m fuel ds = true -> wf_fields fuel ds fs = true ->
  Forall sized (enc_fields fuel ds fs) /\ Forall (header_ok m) (enc_fields fuel ds fs).
Proof.
  revert ds fs. induction fuel as [|fuel IH]; intros ds fs Hd Hw; [done|].
  cbn [wf_fields enc_fields] in *. pose proof (wf_descs_known _ _ _ Hd) as Hk.
  apply wf_descs_S in Hd as (_ & _ & Hd). rewrite Forall_forall in Hk, Hd.
  split; (eapply enc_items_Forall; [|exact Hw]); intros it v Hin Hv.
  - apply (enc_value_sized _ (wf_fields fuel) (fun ds => wf_descs m fuel ds = true)); [|by apply Hk|done].
    intros ds' fs' Hd' Hw'. by apply IH.
  - destruct (Hd it Hin) as (_ & H1 & H2 & H3 & _). unfold header_ok.
    by destruct (enc_value_key (enc_fields fuel) (fst it) v) as [-> ->].
Qed.

(** ** The pool when a message is parsed *)

(** Nodes taken plus nodes left. *)
Definition flat (t : tlv) : Prop := embedded t = [].

Lemma get_element_flat m mem pos : flat (fst (get_element m mem pos)).
Proof. by destruct m. Qed.

Lemma count_nodes_flat ts : Forall flat ts -> count_nodes ts = List.length ts.
Proof.
  unfold count_nodes. induction 1 as [|[? ? ? ? ?] ts Ht _ IH]; [done|].
  unfold flat in Ht. simpl in *. subst. simpl. by rewrite IH.
Qed.

Lemma parse_loop_pool fuel m mem blk len pos acc avail r avail' :
  Forall flat acc -> parse_loop fuel m mem blk len pos acc avail = (r, avail') ->
  match r with
  | Some ts => Forall flat ts /\ (avail' + List.length ts = avail + List.length acc)%nat
  | None => avail' = (avail + List.length acc)%nat
  end.
Proof.
  revert pos acc avail. induction fuel as [|fuel IH]; intros pos acc avail Hacc; cbn [parse_loop];
    pose proof (count_nodes_flat acc Hacc) as Hc; unfold tlv_free_all; fold (count_nodes acc); rewrite Hc.
  - repeat case_decide; intros [= <- <-]; auto.
  - case_decide; [|case_decide; intros [= <- <-]; auto].
    destruct avail as [|avail]; cbn [tlv_get]; [by intros [= <- <-]|].
    pose proof (get_element_flat m mem pos) as Hf. destruct (get_element m mem pos) as [t pos1].
    intros Hp. apply IH in Hp; [|by apply Forall_app_2; [|constructor]].
    rewrite length_app in Hp. simpl in Hp. destruct r; [destruct Hp; split; [done|]|]; lia.
Qed.

Lemma parse_block_pool m len mem blk avail r avail' :
  tlv_parse_block m len mem blk avail = (r, avail') ->
  match r with
  | Some ts => Forall flat ts /\ (avail' + List.length ts = avail)%nat
  | None => avail' = avail
  end.
Proof.
  unfold tlv_parse_block. destruct avail as [|avail]; cbn [tlv_get]; [by intros [= <- <-]|].
  pose proof (get_element_flat m mem blk) as Hf. destruct (get_element m mem blk) as [t pos].
  intros H. apply parse_loop_pool in H; [|by constructor]. simpl in H.
  destruct r; [destruct H; split; [done|]|]; lia.
Qed.

Section pool.
Variable m : mode.
Variable rec : list desc -> fields -> list tlv -> nat -> bool * fields * list tlv * nat.
Hypothesis rec_pool : forall ds fs ts avail, Forall flat ts ->
  let '(_, _, ts', avail') := rec ds fs ts avail in
  (avail' + count_nodes ts' = avail + List.length ts)%nat.

Lemma parse_one_pool ds fs t avail :
  flat t ->
  match parse_one m rec ds fs t avail with
  | Next _ t' avail' | Failed _ t' avail' => (avail' + nodes t' = avail + 1)%nat
  end.
Proof.
  intros Ht. assert (nodes t = 1%nat) as Hn by (destruct t; unfold flat in Ht; simpl in *; by subst).
  unfold parse_one. destruct (find_desc ds t 0) as [[[d k] more]|]; [|lia].
  set (ss := default [] (fs !! k)). cbv zeta.
  match goal with |- context [if ?b then Next _ _ _ else _] => destruct b end; [by rewrite Hn|].
  destruct (default (0, VNull) _) as [p v]. case_decide; [|by destruct (parse_leaf d t); rewrite Hn].
  unfold tlv_parse_embedded_block.
  destruct (tlv_parse_block m (length t) (Tlv.value t) 0 avail) as [r avail1] eqn:Hb.
  apply parse_block_pool in Hb. destruct r as [emb|]; [|lia]. destruct Hb as [Hf Ha].
  cbn [embedded]. pose proof (rec_pool (child_descs d)
    (match v with VStruct fs' => fs' | _ => [] end) emb avail1 Hf) as Hr.
  revert Hr. destruct (rec _ _ emb avail1) as [[[[] fs1] ts1] avail2]; intros Hr; cbn [nodes embedded];
    fold (count_nodes ts1); lia.
Qed.

Lemma parse_elements_pool ds fs ts avail :
  Forall flat ts ->
  let '(_, _, ts', avail') := parse_elements m rec ds fs ts avail in
  (avail' + count_nodes ts' = avail + List.length ts)%nat.
Proof.
  intros Hts. revert fs avail. induction Hts as [|t ts Ht Hts IH]; intros fs avail; [unfold count_nodes; simpl; lia|].
  cbn [parse_elements]. pose proof (parse_one_pool ds fs t avail Ht) as Ho.
  destruct (parse_one m rec ds fs t avail) as [fs' t' avail'|fs' t' avail'].
  - specialize (IH fs' avail'). revert IH. destruct (parse_elements m rec ds fs' ts avail') as [[[ok fs1] ts1] avail1].
    intros IH. unfold count_nodes in *. simpl. lia.
  - pose proof (count_nodes_flat ts Hts). unfold count_nodes in *. simpl. lia.
Qed.
End pool.

Lemma parse_compound_pool fuel m ds fs ts avail :
  Forall flat ts ->
  let '(_, _, ts', avail') := parse_compound fuel m ds fs ts avail in
  (avail' + count_nodes ts' = avail + List.length ts)%nat.
Proof.
  revert ds fs ts avail. induction fuel as [|fuel IH]; intros ds fs ts avail Hts.
  - cbn [parse_compound]. by rewrite count_nodes_flat.
  - by apply (parse_elements_pool m (parse_compound fuel m) IH).
Qed.

(** Parsing gives every node back, whatever the bytes and the outcome. *)
Lemma tlv_parse_msg_pool m d fs len mem avail :
  snd (tlv_parse_msg m d fs len mem avail) = avail.
Proof.
  unfold tlv_parse_msg. case_decide; [done|].
  destruct (tlv_parse_block m len mem 0 avail) as [r avail1] eqn:Hb.
  apply parse_block_pool in Hb. destruct r as [ts|]; [|done]. destruct Hb as [Hf Ha].
  pose proof (parse_compound_pool 9 m (child_descs d) fs ts avail1 Hf) as Hp.
  revert Hp. destruct (parse_compound 9 m (child_descs d) fs ts avail1) as [[[ok fs1] ts1] avail2].
  intros Hp. unfold tlv_free_all. fold (count_nodes ts1). simpl. lia.
Qed.

(** Building does not: when the first element of the message is a group with
    nothing in it, the root is not recorded and the node of the group is lost. *)
Example build_leaks :
  let d := Desc TLV_MESSAGE 0 0 0 [Desc TLV_COMPOUND 93 0 0 [Desc TLV_UINT8 73 1 0 []]] in
  let '(st, _, _, avail) :=
    tlv_build_msg (fun _ => Some (replicate 64 0)) T1_L2_I1 d [[(1, VStruct [[(0, VInt 5)]])]] 100 in
  st = CORE_ERROR /\ avail = 99%nat.
Proof. by vm_compute. Qed.

End TlvMsgSpec.
