(* ===== verification/TlvMsgRoundtrip.v ===== *)
(** Parsing a built message of [TlvMsg] gives the message back. *)

From S2P Require Import Prelude Pkbuf Tlv TlvSpec TlvMsg TlvMsgSpec.

Module TlvMsgRoundtrip.
Import Tlv TlvSpec TlvMsg TlvMsgSpec.

(** ** Messages up to what no reader looks at *)

(** The value without the memory beyond an octet string, and without the contents
    of the slots that are not present. *)
Fixpoint clean (v : value) : value :=
  match v with
  | VOctet data len => VOctet (take (Z.to_nat len) data) len
  | VStruct fs =>
      VStruct (map (map (fun '(p, v) => if decide (p = 0) then (0, VNull) else (p, clean v))) fs)
  | _ => v
  end.
Definition clean_slot (s : slot) : slot :=
  let '(p, v) := s in if decide (p = 0) then (0, VNull) else (p, clean v).
Definition clean_fields (fs : fields) : fields := map (map clean_slot) fs.

(** ** Leaves *)

Lemma mask_byte x n m : 0 <= n -> inw 8 x -> m = 0xff << n -> (x << n) .& m = x << n.
Proof. intros Hn Hx ->. rewrite <- Z.shiftl_land. f_equal. by apply u8_id. Qed.

Lemma parse_be a b c d :
  inw 8 a -> inw 8 b -> inw 8 c -> inw 8 d ->
  ((a << 24) .& 0xff000000) .| ((b << 16) .& 0x00ff0000) .| ((c << 8) .& 0x0000ff00) .| (d .& 0x000000ff) =
    be [a; b; c; d].
Proof.
  intros. rewrite !mask_byte, (land_ff d) by done. rewrite lor4 by done. cbn [be List.length].
  rewrite Z.mul_1_r, Z.add_0_r. simpl. lia.
Qed.

Lemma parse_be3 b c d :
  inw 8 b -> inw 8 c -> inw 8 d ->
  ((b << 16) .& 0x00ff0000) .| ((c << 8) .& 0x0000ff00) .| (d .& 0x000000ff) = be [b; c; d].
Proof.
  intros. pose proof (parse_be 0 b c d) as E. rewrite Z.shiftl_0_l, Z.land_0_l, Z.lor_0_l in E.
  apply E; by_decide || done.
Qed.

Lemma parse_be2 c d :
  inw 8 c -> inw 8 d -> ((c << 8) .& 0xff00) .| (d .& 0x00ff) = be [c; d].
Proof.
  intros. pose proof (parse_be3 0 c d) as E. rewrite Z.shiftl_0_l, Z.land_0_l, Z.lor_0_l in E.
  apply E; by_decide || done.
Qed.

Lemma le16_bswap16 z : le16 (bswap16 z) = to_be 2 z.
Proof.
  unfold le16, bswap16. cbn [to_be]. rewrite !u8_mod, !shiftr_div, !(land_ones_mod _ 8) by done.
  rewrite lor_add by (unfold inw; lia). change (8 * Z.of_nat 1) with 8. change (8 * Z.of_nat 0) with 0.
  rewrite Z.div_1_r. f_equal; [lia|f_equal; lia].
Qed.

(** The bytes of an integer leaf on the wire. *)
Definition int_bytes (c : ctype) (z : Z) : list Z :=
  match c with
  | TLV_UINT8 | TLV_INT8 => [z]
  | TLV_UINT16 => to_be 2 z
  | TLV_UINT24 | TLV_INT24 => to_be 3 z
  | _ => to_be 4 z
  end.

Lemma to_be3_shift z : inw 24 z -> take 3 (to_be 4 (u32 (z << 8))) = to_be 3 z.
Proof.
  unfold inw. intros Hz. rewrite u32_mod, Z.shiftl_mul_pow2 by done. cbn [to_be take].
  change (8 * Z.of_nat 3) with 24. change (8 * Z.of_nat 2) with 16.
  change (8 * Z.of_nat 1) with 8. change (8 * Z.of_nat 0) with 0.
  rewrite Z.div_1_r. f_equal; [lia|f_equal; [lia|f_equal; lia]].
Qed.

Lemma be_to_be_small n z : inw (8 * Z.of_nat n) z -> be (to_be n z) = z.
Proof. intros. rewrite be_to_be. by apply Z.mod_small. Qed.

Lemma parse_to_be4 z rest :
  inw 32 z -> let v := to_be 4 z ++ rest in
  ((rd v 0 << 24) .& 0xff000000) .| ((rd v 1 << 16) .& 0x00ff0000) .|
  ((rd v 2 << 8) .& 0x0000ff00) .| (rd v 3 .& 0x000000ff) = z.
Proof.
  intros Hz v. transitivity (be (to_be 4 z)); [|by apply be_to_be_small].
  pose proof (to_be_bytes 4 z) as Hb. unfold v. cbn [to_be] in *.
  repeat match goal with H : Forall _ (_ :: _) |- _ => apply Forall_cons in H as [? H] end.
  cbn [app]. rd_simpl. by apply parse_be.
Qed.

Lemma parse_to_be3 z rest :
  inw 24 z -> let v := to_be 3 z ++ rest in
  ((rd v 0 << 16) .& 0x00ff0000) .| ((rd v 1 << 8) .& 0x0000ff00) .| (rd v 2 .& 0x000000ff) = z.
Proof.
  intros Hz v. transitivity (be (to_be 3 z)); [|by apply be_to_be_small].
  pose proof (to_be_bytes 3 z) as Hb. unfold v. cbn [to_be] in *.
  repeat match goal with H : Forall _ (_ :: _) |- _ => apply Forall_cons in H as [? H] end.
  cbn [app]. rd_simpl. by apply parse_be3.
Qed.

Lemma parse_to_be2 z rest :
  inw 16 z -> let v := to_be 2 z ++ rest in ((rd v 0 << 8) .& 0xff00) .| (rd v 1 .& 0x00ff) = z.
Proof.
  intros Hz v. transitivity (be (to_be 2 z)); [|by apply be_to_be_small].
  pose proof (to_be_bytes 2 z) as Hb. unfold v. cbn [to_be] in *.
  repeat match goal with H : Forall _ (_ :: _) |- _ => apply Forall_cons in H as [? H] end.
  cbn [app]. rd_simpl. by apply parse_be2.
Qed.

Section leaf.
Variable d : desc.
Variable t : tlv.

(** What [_tlv_parse_leaf] makes of the bytes that [_tlv_add_leaf] announces. *)
Lemma parse_leaf_ok v len bs v' rest :
  is_leaf (d_ctype d) = true -> wf_leaf d v = true -> leaf_value d v = Some (len, bs, v') ->
  length t = len -> Tlv.value t = take (Z.to_nat len) bs ++ rest ->
  exists v'', parse_leaf d t = Some v'' /\ clean v'' = clean v.
Proof.
  unfold is_leaf, wf_leaf, leaf_value, parse_leaf. intros El Hw Hv Hl Hb.
  destruct (d_ctype d) eqn:E; try discriminate El; destruct v as [z|data n| |]; try discriminate Hv; try discriminate Hw;
    try apply bool_decide_eq_true in Hw; try (rewrite decide_True in Hv by lia);
    injection Hv as <- <- <-; rewrite ?Hl, ?Hb, ?le16_bswap16, ?le32_bswap32;
    change (Z.to_nat 1) with 1%nat; change (Z.to_nat 2) with 2%nat;
    change (Z.to_nat 3) with 3%nat; change (Z.to_nat 4) with 4%nat;
    rewrite ?to_be3_shift by done; eexists.
  all: try (rewrite decide_True by done || lia); (split; [reflexivity|]); cbn [clean].
  all: rewrite ?(take_ge (to_be _ _)) by (rewrite length_to_be; done).
  all: rewrite ?parse_to_be4, ?parse_to_be3, ?parse_to_be2 by done; try reflexivity.
  all: destruct Hw; subst; f_equal; rewrite take_app_le by (rewrite length_take; lia).
  all: by rewrite take_take, Nat.min_id.
Qed.
End leaf.

(** ** Finding the descriptor *)

Lemma more_of_type ds n :
  Forall (fun d => d_ctype d = TLV_MORE -> d_type d = 0) ds -> more_of ds = Some n ->
  exists d ds', ds = d :: ds' /\ d_type d = 0.
Proof.
  intros Hm Hn. destruct ds as [|d ds]; [done|]. simpl in Hn. case_decide as E; [|done].
  exists d, ds. split; [done|]. apply Forall_cons in Hm as [Hd _]. auto.
Qed.

(** The search by type and instance finds the item. *)
Lemma find_desc_items ds t k i d more :
  Forall (fun d => d_ctype d = TLV_MORE -> d_type d = 0) ds ->
  NoDup (map (fun it => key (fst it)) (items ds)) ->
  items ds !! i = Some (d, more) -> d_type d <> 0 ->
  type t = d_type d -> instance t = d_instance d ->
  find_desc ds t k = Some (d, (k + i)%nat, more).
Proof.
  intros Hm Hnd Hi Hd Ht Hins. revert k i Hi.
  induction ds as [|d' ds IH]; intros k i Hi; [done|]. cbn [items find_desc] in *.
  apply Forall_cons in Hm as [Hd' Hm]. destruct (decide (d_ctype d' = TLV_MORE)) as [E|E].
  - rewrite decide_False by (specialize (Hd' E); lia). by apply IH.
  - cbn [map fst] in Hnd. apply NoDup_cons in Hnd as [Hnin Hnd]. destruct i as [|i].
    + injection Hi as -> <-. rewrite decide_True by done. by rewrite Nat.add_0_r.
    + rewrite decide_False.
      * cbn in Hi. rewrite (IH Hm Hnd _ _ Hi). do 2 f_equal. f_equal. lia.
      * intros [E1 E2]. apply Hnin. apply list_elem_of_fmap. exists (d, more).
        split; [|by eapply list_elem_of_lookup_2]. unfold key. simpl. congruence.
Qed.

Lemma parse_elements_app m rec ds fs ts1 ts2 avail :
  parse_elements m rec ds fs (ts1 ++ ts2) avail =
    let '(ok, fs, ts1, avail) := parse_elements m rec ds fs ts1 avail in
    if ok then let '(ok, fs, ts2, avail) := parse_elements m rec ds fs ts2 avail in
               (ok, fs, ts1 ++ ts2, avail)
    else (false, fs, ts1 ++ ts2, avail).
Proof.
  revert fs avail. induction ts1 as [|t ts1 IH]; intros fs avail; cbn [app parse_elements].
  - by destruct (parse_elements m rec ds fs ts2 avail) as [[[??]?]?].
  - destruct (parse_one m rec ds fs t avail) as [fs' t' avail'|fs' t' avail']; [|done].
    rewrite IH. destruct (parse_elements m rec ds fs' ts1 avail') as [[[[] ?]?]?]; [|done].
    by destruct (parse_elements m rec ds _ ts2 _) as [[[??]?]?].
Qed.

(** ** Slots *)

Lemma first_absent_app got l :
  Forall (fun s : slot => fst s = 1) got ->
  first_absent (got ++ l) = (List.length got + first_absent l)%nat.
Proof.
  induction 1 as [|[p v] got Hp Hgot IH]; [done|]. simpl in *. subst p. by rewrite IH.
Qed.

Lemma store_at (fdone ftodo : fields) got s s' l :
  store (fdone ++ (got ++ s :: l) :: ftodo) (List.length fdone) (List.length got) s' =
    fdone ++ (got ++ s' :: l) :: ftodo.
Proof.
  unfold store. induction fdone as [|ss fdone IH]; [|cbn; f_equal; exact IH].
  cbn. f_equal. induction got as [|x got IH]; [done|]. cbn. f_equal. exact IH.
Qed.

(** Where the slot for the next element of an item is: the first absent one. *)
Lemma slot_position more (got : list slot) b n :
  Forall (fun s : slot => fst s = 1) got ->
  slots_of more = (List.length got + S n)%nat ->
  let ss := got ++ replicate (S n) (0, b) in
  match more with
  | Some k => first_absent (take (Z.to_nat k) ss) = List.length got /\
              List.length got <> Z.to_nat k
  | None => got = []
  end.
Proof.
  intros Hg Hn ss. destruct more as [k|]; simpl in Hn.
  - rewrite Hn, take_ge by (unfold ss; rewrite length_app, length_replicate; lia).
    unfold ss. rewrite first_absent_app by done. simpl. lia.
  - destruct got; [done|simpl in Hn; lia].
Qed.

Lemma count_nodes_ge ts : (List.length ts <= count_nodes ts)%nat.
Proof.
  unfold count_nodes. induction ts as [|[] ts IH]; simpl; lia.
Qed.

Section parse.
Variable m : mode.
Variable parserec : list desc -> fields -> list tlv -> nat -> bool * fields * list tlv * nat.
Variable encrec : list desc -> fields -> list tlv.
Variable wfrec : list desc -> fields -> bool.
Variable blankrec : list desc -> fields.
Variable dok : list desc -> Prop.

Definition small (ts : list tlv) : Prop :=
  Z.of_nat (List.length (encode_all m ts)) < 2 ^ length_width m.

(** The recursive call parses the elements of a structure that can be built. *)
Hypothesis parserec_ok : forall ds fs rest avail, dok ds -> wfrec ds fs = true ->
  small (encrec ds fs) ->
  (count_nodes (encrec ds fs) <= avail + List.length (encrec ds fs))%nat ->
  exists fs' ts' avail',
    parserec ds (blankrec ds) (shallow_all m (encrec ds fs) rest) avail = (true, fs', ts', avail') /\
    clean_fields fs' = clean_fields fs /\ count_nodes ts' = count_nodes (encrec ds fs) /\
    (avail' + count_nodes ts' = avail + List.length (encrec ds fs))%nat.
Hypothesis encrec_fits : forall ds fs, dok ds -> wfrec ds fs = true -> small (encrec ds fs) ->
  Forall (fits m) (encrec ds fs).
Hypothesis encrec_ne : forall ds fs,
  wfrec ds fs = true -> existsb (fun ss => bool_decide (present ss <> [])) fs = true ->
  encrec ds fs <> [].

Lemma small_embedded ty len ins emb :
  small [Tlv ty len ins [] emb] -> small emb.
Proof.
  unfold small. intros Hs. pose proof (length_body_le m (Tlv ty len ins [] emb) [Tlv ty len ins [] emb]) as Hl.
  assert (body m (Tlv ty len ins [] emb) = encode_all m emb) as E.
  { unfold body. destruct emb; [|done]. cbn. by rewrite take_nil. }
  rewrite E in Hl. specialize (Hl ltac:(by left)). lia.
Qed.

(** The embedded block of a compound element. *)
Lemma parse_embedded_ok d fs rest avail :
  let t := Tlv (d_type d) 0 (d_instance d) [] (encrec (child_descs d) fs) in
  Forall (fits m) (embedded t) -> embedded t <> [] ->
  (List.length (embedded t) <= avail)%nat ->
  exists v, tlv_parse_embedded_block m (shallow m t rest) avail =
    (Some (Tlv (d_type d) (Z.of_nat (List.length (body m t))) (wire_instance m (d_instance d)) v
               (shallow_all m (embedded t) rest)), (avail - List.length (embedded t))%nat).
Proof.
  intros t Hf Hne Hav. exists (body m t ++ rest). unfold tlv_parse_embedded_block, shallow.
  cbn [length Tlv.value type instance].
  pose proof (parse_block_spec m (embedded t) [] rest avail Hf Hne) as Hp.
  rewrite decide_True in Hp by done. cbn [app List.length] in Hp. change (Z.of_nat 0) with 0 in Hp.
  assert (body m t = encode_all m (embedded t)) as ->; [|by rewrite Hp].
  unfold body. by destruct (embedded t).
Qed.

Lemma parse_slot_ok ds d more fdone got n ftodo v rest avail :
  known_desc dok d -> wf_value wfrec d v = true ->
  find_desc ds (shallow m (enc_value encrec d v) rest) 0 = Some (d, List.length fdone, more) ->
  Forall (fun s : slot => fst s = 1) got -> slots_of more = (List.length got + S n)%nat ->
  small [enc_value encrec d v] -> (nodes (enc_value encrec d v) <= avail + 1)%nat ->
  exists v' t' avail',
    parse_one m parserec ds
      (fdone ++ (got ++ replicate (S n) (0, blank_value blankrec d)) :: ftodo)
      (shallow m (enc_value encrec d v) rest) avail =
    Next (fdone ++ (got ++ (1, v') :: replicate n (0, blank_value blankrec d)) :: ftodo) t' avail' /\
    clean v' = clean v /\ nodes t' = nodes (enc_value encrec d v) /\
    (avail' + nodes t' = avail + 1)%nat.
Proof.
  intros Hk Hw Hfind Hgot Hslots Hsmall Hav. unfold parse_one. rewrite Hfind.
  rewrite list_lookup_middle by done. cbn [from_option]. unfold id.
  pose proof (slot_position more got (blank_value blankrec d) n Hgot Hslots) as Hpos.
  set (ss := got ++ replicate (S n) (0, blank_value blankrec d)) in *. cbv zeta.
  assert (match more with Some n => first_absent (take (Z.to_nat n) ss) | None => 0%nat end =
          List.length got) as ->.
  { destruct more; [apply Hpos|]. by rewrite Hpos. }
  assert (match more with Some n => bool_decide (List.length got = Z.to_nat n) | None => false end = false) as ->.
  { destruct more; [|done]. apply bool_decide_eq_false. apply Hpos. }
  assert (ss !! List.length got = Some (0, blank_value blankrec d)) as ->
    by (unfold ss; cbn [replicate]; by rewrite list_lookup_middle).
  cbn [from_option]. unfold id, ss. cbn [replicate].
  unfold wf_value in Hw. destruct (is_leaf (d_ctype d)) eqn:El.
  - rewrite decide_False by (intros E; by rewrite E in El).
    destruct (leaf_ok d v El Hw) as (len & bs & v1 & Hv & Hlen & He).
    rewrite enc_value_leaf, He in * by done.
    destruct (parse_leaf_ok d (shallow m (Tlv (d_type d) len (d_instance d) bs []) rest)
                v len bs v1 rest El Hw Hv) as (v' & -> & Hc).
    { unfold shallow, body. simpl. rewrite length_take. lia. }
    { done. }
    rewrite store_at. eexists _, _, _. split; [reflexivity|]. split_and!; [done|done|simpl; lia].
  - destruct Hk as [|[E Hdok]]; [congruence|]. rewrite decide_True by done.
    destruct v as [| | |fs]; try done. apply andb_true_iff in Hw as [Hw Hne].
    assert (enc_value encrec d (VStruct fs) =
      Tlv (d_type d) 0 (d_instance d) [] (encrec (child_descs d) fs)) as Ev
      by (unfold enc_value; by rewrite E).
    assert (blank_value blankrec d = VStruct (blankrec (child_descs d))) as Eb
      by (unfold blank_value; by rewrite E).
    rewrite Ev in *. pose proof (small_embedded _ _ _ _ Hsmall) as Hs.
    pose proof (count_nodes_ge (encrec (child_descs d) fs)). simpl in Hav.
    fold (count_nodes (encrec (child_descs d) fs)) in Hav.
    destruct (parse_embedded_ok d fs rest avail) as [v1 ->];
      [by apply encrec_fits|by apply encrec_ne|cbn [embedded]; lia|].
    rewrite Eb. cbn [embedded].
    edestruct parserec_ok as (fs' & ts' & avail' & -> & Hc & Hn1 & Hn); [done|exact Hw|exact Hs|lia|].
    cbn beta iota zeta. rewrite store_at. eexists _, _, _. split; [reflexivity|].
    split; [cbn [clean]; f_equal; exact Hc|]. simpl.
    fold (count_nodes ts') (count_nodes (encrec (child_descs d) fs)). lia.
Qed.
Lemma parse_slots_ok ds d more fdone got n ftodo ss rest avail :
  known_desc dok d -> desc_header m d ->
  (forall t, type t = d_type d -> instance t = d_instance d ->
    find_desc ds t 0 = Some (d, List.length fdone, more)) ->
  Forall (fun s : slot => fst s = 1) got -> slots_of more = (List.length got + n)%nat ->
  forallb (fun s => wf_value wfrec d (snd s)) ss = true -> Forall (fun s : slot => fst s = 1) ss ->
  (List.length ss <= n)%nat ->
  let ts := map (fun s => enc_value encrec d (snd s)) ss in
  small ts -> (count_nodes ts <= avail + List.length ss)%nat ->
  exists got' ts' avail',
    parse_elements m parserec ds
      (fdone ++ (got ++ replicate n (0, blank_value blankrec d)) :: ftodo)
      (shallow_all m ts rest) avail =
    (true, fdone ++ (got ++ got' ++ replicate (n - List.length ss) (0, blank_value blankrec d)) :: ftodo,
     ts', avail') /\
    map clean_slot got' = map clean_slot ss /\ count_nodes ts' = count_nodes ts /\
    (avail' + count_nodes ts' = avail + List.length ss)%nat.
Proof.
  intros Hk (_ & _ & Hwi) Hfind. revert got n avail.
  induction ss as [|[p v] ss IH]; intros got n avail Hgot Hslots Hw Hp Hlen ts Hs Hav.
  - exists [], [], avail. cbn. rewrite Nat.sub_0_r. split_and!; [done..|]. unfold count_nodes. simpl. lia.
  - unfold ts in *. cbn [map forallb snd List.length shallow_all parse_elements] in *.
    apply andb_true_iff in Hw as [Hv Hw]. apply Forall_cons in Hp as [Hp1 Hp]. simpl in Hp1. subst p.
    destruct n as [|n]; [lia|]. unfold count_nodes in Hav. simpl in Hav.
    set (ts1 := map (fun s : slot => enc_value encrec d (snd s)) ss) in *.
    pose proof (count_nodes_ge ts1) as Hge. unfold count_nodes in Hge. unfold ts1 in Hge at 1.
    rewrite length_map in Hge. fold ts1 in Hav. assert (small [enc_value encrec d v] /\ small ts1) as [Hs1 Hs2].
    { unfold small, encode_all in *. cbn [map concat] in *. rewrite length_app in *.
      simpl. lia. }
    destruct (enc_value_key encrec d v) as [Ht Hi].
    destruct (parse_slot_ok ds d more fdone got n ftodo v (encode_all m ts1 ++ rest) avail)
      as (v' & t' & avail1 & -> & Hc & Hn1 & Hn); try done.
    { apply Hfind; unfold shallow; cbn [type instance]; congruence. }
    { lia. }
    assert (fdone ++ (got ++ (1, v') :: replicate n (0, blank_value blankrec d)) :: ftodo =
      fdone ++ ((got ++ [(1, v')]) ++ replicate n (0, blank_value blankrec d)) :: ftodo) as ->
      by by rewrite <- (assoc_L (++)).
    destruct (IH (got ++ [(1, v')]) n avail1) as (got' & ts' & avail' & -> & Hc' & Hn1' & Hn');
      try done; try lia.
    { by apply Forall_app_2; [|constructor]. }
    { rewrite length_app. simpl. lia. }
    { fold ts1. unfold count_nodes. lia. }
    exists ((1, v') :: got'), (t' :: ts'), avail'. cbn [map clean_slot]. rewrite Hc, Hc'.
    split; [by rewrite <- (assoc_L (++))|]. split; [done|]. fold ts1 in Hn1'.
    unfold count_nodes in *. simpl. lia.
Qed.
Lemma clean_present ss :
  prefix_present ss = true ->
  Forall (fun s : slot => fst s = 1) (present ss) /\ (List.length (present ss) <= List.length ss)%nat /\
  map clean_slot ss =
    map clean_slot (present ss) ++ replicate (List.length ss - List.length (present ss)) (0, VNull).
Proof.
  unfold prefix_present, present. rewrite andb_true_iff, !forallb_forall. intros [H1 H0].
  split_and!.
  - apply Forall_forall. intros s Hs. by eapply bool_decide_eq_true, H1, list_elem_of_In.
  - rewrite length_take. lia.
  - rewrite <- (take_drop (first_absent ss) ss) at 1. rewrite map_app. f_equal.
    rewrite length_take. assert (List.length (drop (first_absent ss) ss) =
      List.length ss - first_absent ss `min` List.length ss)%nat as <- by (rewrite length_drop; lia).
    induction (drop (first_absent ss) ss) as [|[p v] l IH]; [done|]. cbn [map List.length replicate].
    rewrite IH by (intros; apply H0; by right). f_equal. unfold clean_slot.
    rewrite decide_True; [done|]. by eapply (bool_decide_eq_true _), (H0 (p, v)); left.
Qed.

Lemma clean_blank n v : map clean_slot (replicate n (0, v)) = replicate n (0, VNull).
Proof. induction n; simpl; congruence. Qed.

Lemma small_app ts1 ts2 : small (ts1 ++ ts2) -> small ts1 /\ small ts2.
Proof.
  unfold small, encode_all. rewrite map_app, concat_app, length_app. lia.
Qed.

Lemma parse_items_ok ds todo done fdone fs rest avail :
  Forall (fun d => d_ctype d = TLV_MORE -> d_type d = 0) ds ->
  NoDup (map (fun it => key (fst it)) (items ds)) ->
  Forall (fun it => known_desc dok (fst it) /\ desc_header m (fst it) /\ d_type (fst it) <> 0) (items ds) ->
  items ds = done ++ todo -> List.length fdone = List.length done ->
  wf_items wfrec todo fs = true ->
  let ts := enc_items encrec todo fs in
  small ts -> (count_nodes ts <= avail + List.length ts)%nat ->
  exists fs' ts' avail',
    parse_elements m parserec ds (fdone ++ map (blank_item blankrec) todo) (shallow_all m ts rest) avail =
    (true, fdone ++ fs', ts', avail') /\
    clean_fields fs' = clean_fields fs /\ count_nodes ts' = count_nodes ts /\
    (avail' + count_nodes ts' = avail + List.length ts)%nat.
Proof.
  intros Hm Hnd Hall. revert done fdone fs avail.
  induction todo as [|[d more] todo IH]; intros done fdone [|ss fs] avail Hits Hlen Hw ts Hs Hav; try discriminate Hw.
  - exists [], [], avail. cbn. rewrite app_nil_r. split_and!; [done..|]. unfold count_nodes. simpl. lia.
  - unfold ts in *. cbn [enc_items wf_items map] in *. apply andb_true_iff in Hw as [Hi Hw].
    unfold wf_item in Hi. rewrite !andb_true_iff, bool_decide_eq_true in Hi. cbn [fst snd] in Hi.
    destruct Hi as [[Hn Hp] Hv]. destruct (clean_present ss Hp) as (H1 & Hle & Hcl).
    rewrite shallow_all_app, parse_elements_app. apply small_app in Hs as [Hs1 Hs2].
    rewrite count_nodes_app, length_app in *.
    pose proof (count_nodes_ge (enc_items encrec todo fs)).
    assert ((d, more) ∈ items ds) as Hin by (rewrite Hits; apply elem_of_app; right; by left).
    destruct (proj1 (Forall_forall _ _) Hall _ Hin) as (Hk & Hh & Hty). cbn [fst] in *.
    assert (List.length (enc_slots encrec d ss) = List.length (present ss)) as Hle'
      by (unfold enc_slots; apply length_map).
    destruct (parse_slots_ok ds d more fdone [] (slots_of more) (map (blank_item blankrec) todo)
      (present ss) (encode_all m (enc_items encrec todo fs) ++ rest) avail)
      as (got' & ts1 & avail1 & Hrun & Hc1 & Hn1 & Ha1); try done; try lia.
    { intros t Ht Hti. replace (List.length fdone) with (0 + List.length done)%nat by lia.
      apply find_desc_items; try done. rewrite Hits. by apply list_lookup_middle. }
    { unfold enc_slots in *. lia. }
    unfold blank_item at 1. cbn [fst snd app] in Hrun |- *. fold (enc_slots encrec d ss) in *.
    rewrite Hrun. set (cur := got' ++ _) in *.
    destruct (IH (done ++ [(d, more)]) (fdone ++ [cur]) fs avail1)
      as (fs' & ts2 & avail2 & Hrun2 & Hc2 & Hn2 & Ha2); try done; try lia.
    { by rewrite <- (assoc_L (++)). }
    { rewrite !length_app. simpl. lia. }
    rewrite <- !(assoc_L (++)) in Hrun2. cbn [app] in Hrun2. rewrite Hrun2.
    exists (cur :: fs'), (ts1 ++ ts2), avail2. split; [done|].
    rewrite count_nodes_app. split_and!; [|lia..].
    unfold clean_fields in *. cbn [map]. f_equal; [|done]. unfold cur.
    by rewrite map_app, Hc1, clean_blank, Hcl, Hn.
Qed.
End parse.

(** [_tlv_parse_compound] on the elements of a message. *)
Lemma parse_compound_ok fuel m ds fs rest avail :
  wf_descs m fuel ds = true -> wf_fields fuel ds fs = true ->
  small m (enc_fields fuel ds fs) ->
  (count_nodes (enc_fields fuel ds fs) <= avail + List.length (enc_fields fuel ds fs))%nat ->
  exists fs' ts' avail',
    parse_compound fuel m ds (blank_fields fuel ds) (shallow_all m (enc_fields fuel ds fs) rest) avail =
    (true, fs', ts', avail') /\
    clean_fields fs' = clean_fields fs /\ count_nodes ts' = count_nodes (enc_fields fuel ds fs) /\
    (avail' + count_nodes ts' = avail + List.length (enc_fields fuel ds fs))%nat.
Proof.
  revert ds fs rest avail. induction fuel as [|fuel IH]; intros ds fs rest avail Hd Hw Hs Hav; [done|].
  cbn [parse_compound blank_fields wf_fields enc_fields] in *.
  pose proof (wf_descs_known _ _ _ Hd) as Hk. apply wf_descs_S in Hd as (Hnd & Hm & Hd).
  apply (parse_items_ok m (parse_compound fuel m) (enc_fields fuel) (wf_fields fuel) (blank_fields fuel)
    (fun ds => wf_descs m fuel ds = true)) with (done := []) (fdone := []); try done.
  - intros ds' fs' Hd' Hw' Hs'. apply fits_all; [by eapply enc_fields_ok|done].
  - intros ds' fs' Hw' He. destruct fuel; [done|]. by apply (enc_items_ne _ (wf_fields fuel)).
  - apply Forall_forall. intros it Hin. rewrite Forall_forall in Hk, Hd.
    destruct (Hd it Hin) as (? & ? & ? & ? & _). split_and!; try done. by apply Hk.
Qed.

(** ** Messages *)

(** A message that can be built: well formed, with something in it, and not
    longer than the length field can say. *)
Definition buildable (m : mode) (d : desc) (fs : fields) : Prop :=
  d_ctype d = TLV_MESSAGE /\ wf_descs m 9 (child_descs d) = true /\
  wf_fields 9 (child_descs d) fs = true /\
  existsb (fun ss => bool_decide (present ss <> [])) fs = true /\
  small m (enc_fields 9 (child_descs d) fs).

Lemma buildable_ne m d fs :
  buildable m d fs -> child_descs d <> [] /\ enc_fields 9 (child_descs d) fs <> [].
Proof.
  intros (_ & _ & Hw & He & _). split.
  - intros E. rewrite E in Hw. by destruct fs.
  - cbn [enc_fields]. by apply (enc_items_ne _ (wf_fields 8)).
Qed.

Lemma length_width_le m : 2 ^ length_width m <= 2 ^ 16.
Proof. by destruct m. Qed.

Lemma tlv_build_msg_ok alloc m d fs avail blk :
  buildable m d fs ->
  let ts := enc_fields 9 (child_descs d) fs in
  let len := List.length (encode_all m ts) in
  alloc (Z.of_nat len) = Some blk -> (len <= List.length blk)%nat -> (count_nodes ts <= avail)%nat ->
  exists fs', tlv_build_msg alloc m d fs avail = (CORE_OK, encode_all m ts, fs', avail).
Proof.
  intros Hb ts len Hblk Hle Hav. destruct (buildable_ne _ _ _ Hb) as [Hcd Hne]. fold ts in Hne.
  destruct Hb as (Hd & Hwd & Hw & _ & Hs). unfold small in Hs. fold ts len in Hs.
  pose proof (length_width_le m).
  destruct (enc_fields_ok _ _ _ _ Hwd Hw) as [Hsz _]. fold ts in Hsz.
  unfold tlv_build_msg. rewrite decide_False by (intros [?|?]; done).
  destruct (add_compound_ok 9 m true _ fs avail Hwd Hw Hav) as [fs' ->]. fold ts.
  rewrite bool_decide_true by done. cbn [going root sibs left andb negb].
  rewrite calc_length_spec by (done || (fold len; lia)). fold len.
  rewrite u16_id by (unfold inw; lia). rewrite Hblk.
  pose proof (render_spec m ts (Z.of_nat len) [] (take len blk) (drop len blk)) as Hr.
  cbn [app List.length] in Hr. rewrite take_drop in Hr. fold len in Hr.
  change (Z.of_nat 0) with 0 in Hr.
  rewrite Hr; [|done|rewrite length_take; lia|lia].
  rewrite decide_True by done. exists fs'.
  unfold tlv_free_all. fold (count_nodes ts). f_equal; [|lia]. do 2 f_equal.
  unfold get. change (Z.to_nat 0) with 0%nat. rewrite drop_0. apply take_app_length'. unfold len. lia.
Qed.

Lemma tlv_parse_msg_ok m d fs rest avail :
  buildable m d fs ->
  let ts := enc_fields 9 (child_descs d) fs in
  (count_nodes ts <= avail)%nat ->
  exists fs', tlv_parse_msg m d (blank_fields 9 (child_descs d))
      (Z.of_nat (List.length (encode_all m ts))) (encode_all m ts ++ rest) avail = (true, fs', avail) /\
    clean_fields fs' = clean_fields fs.
Proof.
  intros Hb ts Hav. destruct (buildable_ne _ _ _ Hb) as [Hcd Hne]. fold ts in Hne.
  destruct Hb as (Hd & Hwd & Hw & _ & Hs). fold ts in Hs.
  unfold tlv_parse_msg. rewrite decide_False by (intros [?|?]; done).
  pose proof (parse_block_spec m ts [] rest avail) as Hp. cbn [app List.length] in Hp.
  change (Z.of_nat 0) with 0 in Hp. pose proof (count_nodes_ge ts).
  rewrite Hp; [|apply fits_all; [by eapply enc_fields_ok|done]|done].
  rewrite decide_True by lia.
  destruct (parse_compound_ok 9 m _ fs rest (avail - List.length ts)%nat Hwd Hw Hs)
    as (fs' & ts' & avail' & Hrun & Hc & Hn & Ha); [fold ts; lia|].
  fold ts in Hrun, Hn, Ha. rewrite Hrun. exists fs'. split; [|done].
  unfold tlv_free_all. fold (count_nodes ts'). f_equal. lia.
Qed.

(** A message whose values fit their descriptors is built into the encoding of
    its elements, and parsing those bytes into a zeroed structure gives back every
    value that was present, in every slot of every structure at every depth; both
    calls return every TLV node they took. *)
Theorem msg_roundtrip alloc m d fs blk rest avail :
  buildable m d fs ->
  let ts := enc_fields 9 (child_descs d) fs in
  let bs := encode_all m ts in
  alloc (Z.of_nat (List.length bs)) = Some blk -> (List.length bs <= List.length blk)%nat ->
  (count_nodes ts <= avail)%nat ->
  exists fs1 fs2,
    tlv_build_msg alloc m d fs avail = (CORE_OK, bs, fs1, avail) /\
    tlv_parse_msg m d (blank_fields 9 (child_descs d)) (Z.of_nat (List.length bs)) (bs ++ rest) avail =
      (true, fs2, avail) /\
    clean_fields fs2 = clean_fields fs.
Proof.
  intros Hb ts bs Hblk Hlen Hav.
  destruct (tlv_build_msg_ok alloc m d fs avail blk Hb Hblk Hlen Hav) as [fs1 H1].
  destruct (tlv_parse_msg_ok m d fs rest avail Hb Hav) as (fs2 & H2 & H3). by exists fs1, fs2.
Qed.

(** A message with an integer, a string and two compound elements of one type. *)
Definition sample_bearer : desc :=
  Desc TLV_COMPOUND 93 0 0 [Desc TLV_UINT8 73 1 0 []; Desc TLV_VAR_STR 87 0 1 []].
Definition sample : desc :=
  Desc TLV_MESSAGE 0 0 0
    [Desc TLV_UINT32 2 4 0 []; Desc TLV_FIXED_STR 5 3 0 []; sample_bearer; tlv_desc_more 2].
Definition sample_fields : fields :=
  [[(1, VInt 0x01020304)]; [(1, VOctet [9; 8; 7; 6] 3)];
   [(1, VStruct [[(1, VInt 5)]; [(0, VOctet [] 0)]]); (1, VStruct [[(1, VInt 6)]; [(1, VOctet [1; 2] 2)]])]].

Lemma msg_roundtrip_witness :
  exists fs1 fs2,
    tlv_build_msg (fun _ => Some (replicate 64 0)) T1_L2_I1 sample sample_fields 100 =
      (CORE_OK, encode_all T1_L2_I1 (enc_fields 9 (child_descs sample) sample_fields), fs1, 100%nat) /\
    tlv_parse_msg T1_L2_I1 sample (blank_fields 9 (child_descs sample)) 39
      (encode_all T1_L2_I1 (enc_fields 9 (child_descs sample) sample_fields) ++ []) 100 =
      (true, fs2, 100%nat) /\
    clean_fields fs2 = clean_fields sample_fields.
Proof.
  apply (msg_roundtrip (fun _ => Some (replicate 64 0)) T1_L2_I1 sample sample_fields (replicate 64 0) [] 100);
    by_decide || (split_and!; by vm_compute).
Defined.

(** Building converts the integers of the message in place: a second build of the
    same structure gives other bytes. *)
Example build_twice :
  let '(_, bs1, fs, avail) := tlv_build_msg (fun _ => Some (replicate 64 0)) T1_L2_I1 sample sample_fields 100 in
  let '(_, bs2, _, _) := tlv_build_msg (fun _ => Some (replicate 64 0)) T1_L2_I1 sample fs avail in
  take 8 bs1 = [2; 0; 4; 0; 1; 2; 3; 4] /\ take 8 bs2 = [2; 0; 4; 0; 4; 3; 2; 1].
Proof. by vm_compute. Qed.

End TlvMsgRoundtrip.
