(* ===== verification/GtpMessage.v ===== *)
(** [lib/gtp/gtp_message.c]: the descriptors of the GTPv2-C information elements
    and messages, and the parsing and building of a message by its type.  The
    descriptors of a message are in the order of the members of its structure in
    [gtp_message.h]. *)

From S2P Require Import Prelude Pkbuf Tlv TlvMsg.

Module GtpMessage.
Import Tlv TlvMsg.

(** ** Types ([gtp_message.h]) *)

Definition GTP_ECHO_REQUEST_TYPE : Z := 1.
Definition GTP_ECHO_RESPONSE_TYPE : Z := 2.
Definition GTP_CREATE_SESSION_REQUEST_TYPE : Z := 32.
Definition GTP_CREATE_SESSION_RESPONSE_TYPE : Z := 33.
Definition GTP_MODIFY_BEARER_REQUEST_TYPE : Z := 34.
Definition GTP_MODIFY_BEARER_RESPONSE_TYPE : Z := 35.
Definition GTP_DELETE_SESSION_REQUEST_TYPE : Z := 36.
Definition GTP_DELETE_SESSION_RESPONSE_TYPE : Z := 37.
Definition GTP_MODIFY_BEARER_COMMAND_TYPE : Z := 64.
Definition GTP_MODIFY_BEARER_FAILURE_INDICATION_TYPE : Z := 65.
Definition GTP_DELETE_BEARER_COMMAND_TYPE : Z := 66.
Definition GTP_DELETE_BEARER_FAILURE_INDICATION_TYPE : Z := 67.
Definition GTP_DOWNLINK_DATA_NOTIFICATION_FAILURE_INDICATION_TYPE : Z := 70.
Definition GTP_CREATE_BEARER_REQUEST_TYPE : Z := 95.
Definition GTP_CREATE_BEARER_RESPONSE_TYPE : Z := 96.
Definition GTP_UPDATE_BEARER_REQUEST_TYPE : Z := 97.
Definition GTP_UPDATE_BEARER_RESPONSE_TYPE : Z := 98.
Definition GTP_DELETE_BEARER_REQUEST_TYPE : Z := 99.
Definition GTP_DELETE_BEARER_RESPONSE_TYPE : Z := 100.
Definition GTP_CREATE_INDIRECT_DATA_FORWARDING_TUNNEL_REQUEST_TYPE : Z := 166.
Definition GTP_CREATE_INDIRECT_DATA_FORWARDING_TUNNEL_RESPONSE_TYPE : Z := 167.
Definition GTP_DELETE_INDIRECT_DATA_FORWARDING_TUNNEL_REQUEST_TYPE : Z := 168.
Definition GTP_DELETE_INDIRECT_DATA_FORWARDING_TUNNEL_RESPONSE_TYPE : Z := 169.
Definition GTP_RELEASE_ACCESS_BEARERS_REQUEST_TYPE : Z := 170.
Definition GTP_RELEASE_ACCESS_BEARERS_RESPONSE_TYPE : Z := 171.
Definition GTP_DOWNLINK_DATA_NOTIFICATION_TYPE : Z := 176.
Definition GTP_DOWNLINK_DATA_NOTIFICATION_ACKNOWLEDGE_TYPE : Z := 177.
Definition GTP_MODIFY_ACCESS_BEARERS_REQUEST_TYPE : Z := 211.
Definition GTP_MODIFY_ACCESS_BEARERS_RESPONSE_TYPE : Z := 212.

Definition TLV_IMSI_TYPE : Z := 1.
Definition TLV_CAUSE_TYPE : Z := 2.
Definition TLV_RECOVERY_TYPE : Z := 3.
Definition TLV_STN_SR_TYPE : Z := 51.
Definition TLV_APN_TYPE : Z := 71.
Definition TLV_AMBR_TYPE : Z := 72.
Definition TLV_EBI_TYPE : Z := 73.
Definition TLV_IP_ADDRESS_TYPE : Z := 74.
Definition TLV_MEI_TYPE : Z := 75.
Definition TLV_MSISDN_TYPE : Z := 76.
Definition TLV_INDICATION_TYPE : Z := 77.
Definition TLV_PCO_TYPE : Z := 78.
Definition TLV_PAA_TYPE : Z := 79.
Definition TLV_BEARER_QOS_TYPE : Z := 80.
Definition TLV_FLOW_QOS_TYPE : Z := 81.
Definition TLV_RAT_TYPE_TYPE : Z := 82.
Definition TLV_SERVING_NETWORK_TYPE : Z := 83.
Definition TLV_BEARER_TFT_TYPE : Z := 84.
Definition TLV_TAD_TYPE : Z := 85.
Definition TLV_ULI_TYPE : Z := 86.
Definition TLV_F_TEID_TYPE : Z := 87.
Definition TLV_TMSI_TYPE : Z := 88.
Definition TLV_GLOBAL_CN_ID_TYPE : Z := 89.
Definition TLV_S103PDF_TYPE : Z := 90.
Definition TLV_S1UDF_TYPE : Z := 91.
Definition TLV_DELAY_VALUE_TYPE : Z := 92.
Definition TLV_CHARGING_ID_TYPE : Z := 94.
Definition TLV_CHARGING_CHARACTERISTICS_TYPE : Z := 95.
Definition TLV_TRACE_INFORMATION_TYPE : Z := 96.
Definition TLV_BEARER_FLAGS_TYPE : Z := 97.
Definition TLV_PDN_TYPE_TYPE : Z := 99.
Definition TLV_PTI_TYPE : Z := 100.
Definition TLV_MM_CONTEXT_TYPE : Z := 107.
Definition TLV_PDU_NUMBERS_TYPE : Z := 110.
Definition TLV_P_TMSI_TYPE : Z := 111.
Definition TLV_P_TMSI_SIGNATURE_TYPE : Z := 112.
Definition TLV_HOP_COUNTER_TYPE : Z := 113.
Definition TLV_UE_TIME_ZONE_TYPE : Z := 114.
Definition TLV_TRACE_REFERENCE_TYPE : Z := 115.
Definition TLV_COMPLETE_REQUEST_MESSAGE_TYPE : Z := 116.
Definition TLV_GUTI_TYPE : Z := 117.
Definition TLV_F_CONTAINER_TYPE : Z := 118.
Definition TLV_F_CAUSE_TYPE : Z := 119.
Definition TLV_PLMN_ID_TYPE : Z := 120.
Definition TLV_TARGET_IDENTIFICATION_TYPE : Z := 121.
Definition TLV_PACKET_FLOW_ID_TYPE : Z := 123.
Definition TLV_RAB_CONTEXT_TYPE : Z := 124.
Definition TLV_SOURCE_RNC_PDCP_CONTEXT_INFO_TYPE : Z := 125.
Definition TLV_PORT_NUMBER_TYPE : Z := 126.
Definition TLV_APN_RESTRICTION_TYPE : Z := 127.
Definition TLV_SELECTION_MODE_TYPE : Z := 128.
Definition TLV_SOURCE_IDENTIFICATION_TYPE : Z := 129.
Definition TLV_CHANGE_REPORTING_ACTION_TYPE : Z := 131.
Definition TLV_FQ_CSID_TYPE : Z := 132.
Definition TLV_CHANNEL_NEEDED_TYPE : Z := 133.
Definition TLV_EMLPP_PRIORITY_TYPE : Z := 134.
Definition TLV_NODE_TYPE_TYPE : Z := 135.
Definition TLV_FQDN_TYPE : Z := 136.
Definition TLV_TI_TYPE : Z := 137.
Definition TLV_MBMS_SESSION_DURATION_TYPE : Z := 138.
Definition TLV_MBMS_SERVICE_AREA_TYPE : Z := 139.
Definition TLV_MBMS_SESSION_IDENTIFIER_TYPE : Z := 140.
Definition TLV_MBMS_FLOW_IDENTIFIER_TYPE : Z := 141.
Definition TLV_MBMS_IP_MULTICAST_DISTRIBUTION_TYPE : Z := 142.
Definition TLV_MBMS_DISTRIBUTION_ACKNOWLEDGE_TYPE : Z := 143.
Definition TLV_RFSP_INDEX_TYPE : Z := 144.
Definition TLV_UCI_TYPE : Z := 145.
Definition TLV_CSG_INFORMATION_REPORTING_ACTION_TYPE : Z := 146.
Definition TLV_CSG_ID_TYPE : Z := 147.
Definition TLV_CMI_TYPE : Z := 148.
Definition TLV_SERVICE_INDICATOR_TYPE : Z := 149.
Definition TLV_DETACH_TYPE_TYPE : Z := 150.
Definition TLV_LDN_TYPE : Z := 151.
Definition TLV_NODE_FEATURES_TYPE : Z := 152.
Definition TLV_MBMS_TIME_TO_DATA_TRANSFER_TYPE : Z := 153.
Definition TLV_THROTTLING_TYPE : Z := 154.
Definition TLV_ARP_TYPE : Z := 155.
Definition TLV_EPC_TIMER_TYPE : Z := 156.
Definition TLV_SIGNALLING_PRIORITY_INDICATION_TYPE : Z := 157.
Definition TLV_TMGI_TYPE : Z := 158.
Definition TLV_ADDITIONAL_MM_CONTEXT_FOR_SRVCC_TYPE : Z := 159.
Definition TLV_ADDITIONAL_FLAGS_FOR_SRVCC_TYPE : Z := 160.
Definition TLV_MDT_CONFIGURATION_TYPE : Z := 162.
Definition TLV_APCO_TYPE : Z := 163.
Definition TLV_ABSOLUTE_TIME_OF_MBMS_DATA_TRANSFER_TYPE : Z := 164.
Definition TLV_ENB_INFORMATION_REPORTING_TYPE : Z := 165.
Definition TLV_IP4CP_TYPE : Z := 166.
Definition TLV_CHANGE_TO_REPORT_FLAGS_TYPE : Z := 167.
Definition TLV_ACTION_INDICATION_TYPE : Z := 168.
Definition TLV_TWAN_IDENTIFIER_TYPE : Z := 169.
Definition TLV_ULI_TIMESTAMP_TYPE : Z := 170.
Definition TLV_MBMS_FLAGS_TYPE : Z := 171.
Definition TLV_RAN_NAS_CAUSE_TYPE : Z := 172.
Definition TLV_CN_OPERATOR_SELECTION_ENTITY_TYPE : Z := 173.
Definition TLV_TWMI_TYPE : Z := 174.
Definition TLV_NODE_NUMBER_TYPE : Z := 175.
Definition TLV_NODE_IDENTIFIER_TYPE : Z := 176.
Definition TLV_PRESENCE_REPORTING_AREA_ACTION_TYPE : Z := 177.
Definition TLV_PRESENCE_REPORTING_AREA_INFORMATION_TYPE : Z := 178.
Definition TLV_TWAN_IDENTIFIER_TIMESTAMP_TYPE : Z := 179.
Definition TLV_METRIC_TYPE : Z := 182.
Definition TLV_SEQUENCE_NUMBER_TYPE : Z := 183.
Definition TLV_APN_AND_RELATIVE_CAPACITY_TYPE : Z := 184.
Definition TLV_WLAN_OFFLOADABILITY_INDICATION_TYPE : Z := 185.
Definition TLV_PAGING_AND_SERVICE_INFORMATION_TYPE : Z := 186.
Definition TLV_INTEGER_NUMBER_TYPE : Z := 187.
Definition TLV_MILLISECOND_TIME_STAMP_TYPE : Z := 188.
Definition TLV_MONITORING_EVENT_INFORMATION_TYPE : Z := 189.
Definition TLV_ECGI_LIST_TYPE : Z := 190.
Definition TLV_REMOTE_USER_ID_TYPE : Z := 192.
Definition TLV_REMOTE_UE_IP_INFORMATION_TYPE : Z := 193.
Definition TLV_CIOT_OPTIMIZATIONS_SUPPORT_INDICATION_TYPE : Z := 194.
Definition TLV_HEADER_COMPRESSION_CONFIGURATION_TYPE : Z := 196.
Definition TLV_EPCO_TYPE : Z := 197.
Definition TLV_SERVING_PLMN_RATE_CONTROL_TYPE : Z := 198.
Definition TLV_COUNTER_TYPE : Z := 199.
Definition TLV_BEARER_CONTEXT_TYPE : Z := 93.
Definition TLV_PDN_CONNECTION_TYPE : Z := 109.
Definition TLV_OVERLOAD_CONTROL_INFORMATION_TYPE : Z := 180.
Definition TLV_LOAD_CONTROL_INFORMATION_TYPE : Z := 181.
Definition TLV_REMOTE_UE_CONTEXT_TYPE : Z := 191.
Definition TLV_SCEF_PDN_CONNECTION_TYPE : Z := 195.

(** ** Information elements *)

Definition tlv_desc_imsi_0 : desc := Desc TLV_VAR_STR TLV_IMSI_TYPE 0 0 [].
Definition tlv_desc_cause_0 : desc := Desc TLV_VAR_STR TLV_CAUSE_TYPE 0 0 [].
Definition tlv_desc_recovery_0 : desc := Desc TLV_UINT8 TLV_RECOVERY_TYPE 1 0 [].
Definition tlv_desc_stn_sr_0 : desc := Desc TLV_VAR_STR TLV_STN_SR_TYPE 0 0 [].
Definition tlv_desc_apn_0 : desc := Desc TLV_VAR_STR TLV_APN_TYPE 0 0 [].
Definition tlv_desc_ambr_0 : desc := Desc TLV_VAR_STR TLV_AMBR_TYPE 0 0 [].
Definition tlv_desc_ebi_0 : desc := Desc TLV_UINT8 TLV_EBI_TYPE 1 0 [].
Definition tlv_desc_ebi_1 : desc := Desc TLV_UINT8 TLV_EBI_TYPE 1 1 [].
Definition tlv_desc_ip_address_0 : desc := Desc TLV_VAR_STR TLV_IP_ADDRESS_TYPE 0 0 [].
Definition tlv_desc_ip_address_1 : desc := Desc TLV_VAR_STR TLV_IP_ADDRESS_TYPE 0 1 [].
Definition tlv_desc_ip_address_2 : desc := Desc TLV_VAR_STR TLV_IP_ADDRESS_TYPE 0 2 [].
Definition tlv_desc_ip_address_3 : desc := Desc TLV_VAR_STR TLV_IP_ADDRESS_TYPE 0 3 [].
Definition tlv_desc_mei_0 : desc := Desc TLV_VAR_STR TLV_MEI_TYPE 0 0 [].
Definition tlv_desc_msisdn_0 : desc := Desc TLV_VAR_STR TLV_MSISDN_TYPE 0 0 [].
Definition tlv_desc_indication_0 : desc := Desc TLV_VAR_STR TLV_INDICATION_TYPE 0 0 [].
Definition tlv_desc_pco_0 : desc := Desc TLV_VAR_STR TLV_PCO_TYPE 0 0 [].
Definition tlv_desc_paa_0 : desc := Desc TLV_VAR_STR TLV_PAA_TYPE 0 0 [].
Definition tlv_desc_bearer_qos_0 : desc := Desc TLV_VAR_STR TLV_BEARER_QOS_TYPE 0 0 [].
Definition tlv_desc_flow_qos_0 : desc := Desc TLV_VAR_STR TLV_FLOW_QOS_TYPE 0 0 [].
Definition tlv_desc_rat_type_0 : desc := Desc TLV_UINT8 TLV_RAT_TYPE_TYPE 1 0 [].
Definition tlv_desc_serving_network_0 : desc := Desc TLV_VAR_STR TLV_SERVING_NETWORK_TYPE 0 0 [].
Definition tlv_desc_bearer_tft_0 : desc := Desc TLV_VAR_STR TLV_BEARER_TFT_TYPE 0 0 [].
Definition tlv_desc_tad_0 : desc := Desc TLV_VAR_STR TLV_TAD_TYPE 0 0 [].
Definition tlv_desc_uli_0 : desc := Desc TLV_VAR_STR TLV_ULI_TYPE 0 0 [].
Definition tlv_desc_f_teid_0 : desc := Desc TLV_VAR_STR TLV_F_TEID_TYPE 0 0 [].
Definition tlv_desc_f_teid_1 : desc := Desc TLV_VAR_STR TLV_F_TEID_TYPE 0 1 [].
Definition tlv_desc_f_teid_2 : desc := Desc TLV_VAR_STR TLV_F_TEID_TYPE 0 2 [].
Definition tlv_desc_f_teid_3 : desc := Desc TLV_VAR_STR TLV_F_TEID_TYPE 0 3 [].
Definition tlv_desc_f_teid_4 : desc := Desc TLV_VAR_STR TLV_F_TEID_TYPE 0 4 [].
Definition tlv_desc_f_teid_5 : desc := Desc TLV_VAR_STR TLV_F_TEID_TYPE 0 5 [].
Definition tlv_desc_f_teid_6 : desc := Desc TLV_VAR_STR TLV_F_TEID_TYPE 0 6 [].
Definition tlv_desc_f_teid_7 : desc := Desc TLV_VAR_STR TLV_F_TEID_TYPE 0 7 [].
Definition tlv_desc_f_teid_8 : desc := Desc TLV_VAR_STR TLV_F_TEID_TYPE 0 8 [].
Definition tlv_desc_f_teid_9 : desc := Desc TLV_VAR_STR TLV_F_TEID_TYPE 0 9 [].
Definition tlv_desc_f_teid_10 : desc := Desc TLV_VAR_STR TLV_F_TEID_TYPE 0 10 [].
Definition tlv_desc_f_teid_11 : desc := Desc TLV_VAR_STR TLV_F_TEID_TYPE 0 11 [].
Definition tlv_desc_tmsi_0 : desc := Desc TLV_VAR_STR TLV_TMSI_TYPE 0 0 [].
Definition tlv_desc_global_cn_id_0 : desc := Desc TLV_VAR_STR TLV_GLOBAL_CN_ID_TYPE 0 0 [].
Definition tlv_desc_s103pdf_0 : desc := Desc TLV_VAR_STR TLV_S103PDF_TYPE 0 0 [].
Definition tlv_desc_s1udf_0 : desc := Desc TLV_VAR_STR TLV_S1UDF_TYPE 0 0 [].
Definition tlv_desc_delay_value_0 : desc := Desc TLV_VAR_STR TLV_DELAY_VALUE_TYPE 0 0 [].
Definition tlv_desc_charging_id_0 : desc := Desc TLV_VAR_STR TLV_CHARGING_ID_TYPE 0 0 [].
Definition tlv_desc_charging_characteristics_0 : desc :=
  Desc TLV_VAR_STR TLV_CHARGING_CHARACTERISTICS_TYPE 0 0 [].
Definition tlv_desc_trace_information_0 : desc :=
  Desc TLV_VAR_STR TLV_TRACE_INFORMATION_TYPE 0 0 [].
Definition tlv_desc_bearer_flags_0 : desc := Desc TLV_VAR_STR TLV_BEARER_FLAGS_TYPE 0 0 [].
Definition tlv_desc_pdn_type_0 : desc := Desc TLV_UINT8 TLV_PDN_TYPE_TYPE 1 0 [].
Definition tlv_desc_pti_0 : desc := Desc TLV_VAR_STR TLV_PTI_TYPE 0 0 [].
Definition tlv_desc_mm_context_0 : desc := Desc TLV_VAR_STR TLV_MM_CONTEXT_TYPE 0 0 [].
Definition tlv_desc_pdu_numbers_0 : desc := Desc TLV_VAR_STR TLV_PDU_NUMBERS_TYPE 0 0 [].
Definition tlv_desc_p_tmsi_0 : desc := Desc TLV_VAR_STR TLV_P_TMSI_TYPE 0 0 [].
Definition tlv_desc_p_tmsi_signature_0 : desc := Desc TLV_VAR_STR TLV_P_TMSI_SIGNATURE_TYPE 0 0 [].
Definition tlv_desc_hop_counter_0 : desc := Desc TLV_VAR_STR TLV_HOP_COUNTER_TYPE 0 0 [].
Definition tlv_desc_ue_time_zone_0 : desc := Desc TLV_VAR_STR TLV_UE_TIME_ZONE_TYPE 0 0 [].
Definition tlv_desc_trace_reference_0 : desc := Desc TLV_VAR_STR TLV_TRACE_REFERENCE_TYPE 0 0 [].
Definition tlv_desc_complete_request_message_0 : desc :=
  Desc TLV_VAR_STR TLV_COMPLETE_REQUEST_MESSAGE_TYPE 0 0 [].
Definition tlv_desc_guti_0 : desc := Desc TLV_VAR_STR TLV_GUTI_TYPE 0 0 [].
Definition tlv_desc_f_container_0 : desc := Desc TLV_VAR_STR TLV_F_CONTAINER_TYPE 0 0 [].
Definition tlv_desc_f_cause_0 : desc := Desc TLV_VAR_STR TLV_F_CAUSE_TYPE 0 0 [].
Definition tlv_desc_plmn_id_0 : desc := Desc TLV_VAR_STR TLV_PLMN_ID_TYPE 0 0 [].
Definition tlv_desc_target_identification_0 : desc :=
  Desc TLV_VAR_STR TLV_TARGET_IDENTIFICATION_TYPE 0 0 [].
Definition tlv_desc_packet_flow_id_0 : desc := Desc TLV_VAR_STR TLV_PACKET_FLOW_ID_TYPE 0 0 [].
Definition tlv_desc_rab_context_0 : desc := Desc TLV_VAR_STR TLV_RAB_CONTEXT_TYPE 0 0 [].
Definition tlv_desc_source_rnc_pdcp_context_info_0 : desc :=
  Desc TLV_VAR_STR TLV_SOURCE_RNC_PDCP_CONTEXT_INFO_TYPE 0 0 [].
Definition tlv_desc_port_number_0 : desc := Desc TLV_UINT16 TLV_PORT_NUMBER_TYPE 2 0 [].
Definition tlv_desc_port_number_1 : desc := Desc TLV_UINT16 TLV_PORT_NUMBER_TYPE 2 1 [].
Definition tlv_desc_port_number_2 : desc := Desc TLV_UINT16 TLV_PORT_NUMBER_TYPE 2 2 [].
Definition tlv_desc_apn_restriction_0 : desc := Desc TLV_UINT8 TLV_APN_RESTRICTION_TYPE 1 0 [].
Definition tlv_desc_selection_mode_0 : desc := Desc TLV_UINT8 TLV_SELECTION_MODE_TYPE 1 0 [].
Definition tlv_desc_source_identification_0 : desc :=
  Desc TLV_VAR_STR TLV_SOURCE_IDENTIFICATION_TYPE 0 0 [].
Definition tlv_desc_change_reporting_action_0 : desc :=
  Desc TLV_VAR_STR TLV_CHANGE_REPORTING_ACTION_TYPE 0 0 [].
Definition tlv_desc_fq_csid_0 : desc := Desc TLV_VAR_STR TLV_FQ_CSID_TYPE 0 0 [].
Definition tlv_desc_fq_csid_1 : desc := Desc TLV_VAR_STR TLV_FQ_CSID_TYPE 0 1 [].
Definition tlv_desc_fq_csid_2 : desc := Desc TLV_VAR_STR TLV_FQ_CSID_TYPE 0 2 [].
Definition tlv_desc_fq_csid_3 : desc := Desc TLV_VAR_STR TLV_FQ_CSID_TYPE 0 3 [].
Definition tlv_desc_channel_needed_0 : desc := Desc TLV_VAR_STR TLV_CHANNEL_NEEDED_TYPE 0 0 [].
Definition tlv_desc_emlpp_priority_0 : desc := Desc TLV_VAR_STR TLV_EMLPP_PRIORITY_TYPE 0 0 [].
Definition tlv_desc_node_type_0 : desc := Desc TLV_UINT8 TLV_NODE_TYPE_TYPE 1 0 [].
Definition tlv_desc_fqdn_0 : desc := Desc TLV_VAR_STR TLV_FQDN_TYPE 0 0 [].
Definition tlv_desc_ti_0 : desc := Desc TLV_VAR_STR TLV_TI_TYPE 0 0 [].
Definition tlv_desc_mbms_session_duration_0 : desc :=
  Desc TLV_VAR_STR TLV_MBMS_SESSION_DURATION_TYPE 0 0 [].
Definition tlv_desc_mbms_service_area_0 : desc :=
  Desc TLV_VAR_STR TLV_MBMS_SERVICE_AREA_TYPE 0 0 [].
Definition tlv_desc_mbms_session_identifier_0 : desc :=
  Desc TLV_VAR_STR TLV_MBMS_SESSION_IDENTIFIER_TYPE 0 0 [].
Definition tlv_desc_mbms_flow_identifier_0 : desc :=
  Desc TLV_VAR_STR TLV_MBMS_FLOW_IDENTIFIER_TYPE 0 0 [].
Definition tlv_desc_mbms_ip_multicast_distribution_0 : desc :=
  Desc TLV_VAR_STR TLV_MBMS_IP_MULTICAST_DISTRIBUTION_TYPE 0 0 [].
Definition tlv_desc_mbms_distribution_acknowledge_0 : desc :=
  Desc TLV_VAR_STR TLV_MBMS_DISTRIBUTION_ACKNOWLEDGE_TYPE 0 0 [].
Definition tlv_desc_rfsp_index_0 : desc := Desc TLV_VAR_STR TLV_RFSP_INDEX_TYPE 0 0 [].
Definition tlv_desc_uci_0 : desc := Desc TLV_VAR_STR TLV_UCI_TYPE 0 0 [].
Definition tlv_desc_csg_information_reporting_action_0 : desc :=
  Desc TLV_VAR_STR TLV_CSG_INFORMATION_REPORTING_ACTION_TYPE 0 0 [].
Definition tlv_desc_csg_id_0 : desc := Desc TLV_VAR_STR TLV_CSG_ID_TYPE 0 0 [].
Definition tlv_desc_cmi_0 : desc := Desc TLV_VAR_STR TLV_CMI_TYPE 0 0 [].
Definition tlv_desc_service_indicator_0 : desc :=
  Desc TLV_VAR_STR TLV_SERVICE_INDICATOR_TYPE 0 0 [].
Definition tlv_desc_detach_type_0 : desc := Desc TLV_VAR_STR TLV_DETACH_TYPE_TYPE 0 0 [].
Definition tlv_desc_ldn_0 : desc := Desc TLV_VAR_STR TLV_LDN_TYPE 0 0 [].
Definition tlv_desc_ldn_1 : desc := Desc TLV_VAR_STR TLV_LDN_TYPE 0 1 [].
Definition tlv_desc_ldn_2 : desc := Desc TLV_VAR_STR TLV_LDN_TYPE 0 2 [].
Definition tlv_desc_ldn_3 : desc := Desc TLV_VAR_STR TLV_LDN_TYPE 0 3 [].
Definition tlv_desc_node_features_0 : desc := Desc TLV_VAR_STR TLV_NODE_FEATURES_TYPE 0 0 [].
Definition tlv_desc_mbms_time_to_data_transfer_0 : desc :=
  Desc TLV_VAR_STR TLV_MBMS_TIME_TO_DATA_TRANSFER_TYPE 0 0 [].
Definition tlv_desc_throttling_0 : desc := Desc TLV_VAR_STR TLV_THROTTLING_TYPE 0 0 [].
Definition tlv_desc_arp_0 : desc := Desc TLV_VAR_STR TLV_ARP_TYPE 0 0 [].
Definition tlv_desc_epc_timer_0 : desc := Desc TLV_VAR_STR TLV_EPC_TIMER_TYPE 0 0 [].
Definition tlv_desc_signalling_priority_indication_0 : desc :=
  Desc TLV_VAR_STR TLV_SIGNALLING_PRIORITY_INDICATION_TYPE 0 0 [].
Definition tlv_desc_tmgi_0 : desc := Desc TLV_VAR_STR TLV_TMGI_TYPE 0 0 [].
Definition tlv_desc_additional_mm_context_for_srvcc_0 : desc :=
  Desc TLV_VAR_STR TLV_ADDITIONAL_MM_CONTEXT_FOR_SRVCC_TYPE 0 0 [].
Definition tlv_desc_additional_flags_for_srvcc_0 : desc :=
  Desc TLV_VAR_STR TLV_ADDITIONAL_FLAGS_FOR_SRVCC_TYPE 0 0 [].
Definition tlv_desc_mdt_configuration_0 : desc :=
  Desc TLV_VAR_STR TLV_MDT_CONFIGURATION_TYPE 0 0 [].
Definition tlv_desc_apco_0 : desc := Desc TLV_VAR_STR TLV_APCO_TYPE 0 0 [].
Definition tlv_desc_absolute_time_of_mbms_data_transfer_0 : desc :=
  Desc TLV_VAR_STR TLV_ABSOLUTE_TIME_OF_MBMS_DATA_TRANSFER_TYPE 0 0 [].
Definition tlv_desc_enb_information_reporting_0 : desc :=
  Desc TLV_VAR_STR TLV_ENB_INFORMATION_REPORTING_TYPE 0 0 [].
Definition tlv_desc_ip4cp_0 : desc := Desc TLV_VAR_STR TLV_IP4CP_TYPE 0 0 [].
Definition tlv_desc_change_to_report_flags_0 : desc :=
  Desc TLV_VAR_STR TLV_CHANGE_TO_REPORT_FLAGS_TYPE 0 0 [].
Definition tlv_desc_action_indication_0 : desc :=
  Desc TLV_VAR_STR TLV_ACTION_INDICATION_TYPE 0 0 [].
Definition tlv_desc_twan_identifier_0 : desc := Desc TLV_VAR_STR TLV_TWAN_IDENTIFIER_TYPE 0 0 [].
Definition tlv_desc_twan_identifier_1 : desc := Desc TLV_VAR_STR TLV_TWAN_IDENTIFIER_TYPE 0 1 [].
Definition tlv_desc_uli_timestamp_0 : desc := Desc TLV_VAR_STR TLV_ULI_TIMESTAMP_TYPE 0 0 [].
Definition tlv_desc_mbms_flags_0 : desc := Desc TLV_VAR_STR TLV_MBMS_FLAGS_TYPE 0 0 [].
Definition tlv_desc_ran_nas_cause_0 : desc := Desc TLV_VAR_STR TLV_RAN_NAS_CAUSE_TYPE 0 0 [].
Definition tlv_desc_cn_operator_selection_entity_0 : desc :=
  Desc TLV_VAR_STR TLV_CN_OPERATOR_SELECTION_ENTITY_TYPE 0 0 [].
Definition tlv_desc_twmi_0 : desc := Desc TLV_VAR_STR TLV_TWMI_TYPE 0 0 [].
Definition tlv_desc_node_number_0 : desc := Desc TLV_VAR_STR TLV_NODE_NUMBER_TYPE 0 0 [].
Definition tlv_desc_node_identifier_0 : desc := Desc TLV_VAR_STR TLV_NODE_IDENTIFIER_TYPE 0 0 [].
Definition tlv_desc_presence_reporting_area_action_0 : desc :=
  Desc TLV_VAR_STR TLV_PRESENCE_REPORTING_AREA_ACTION_TYPE 0 0 [].
Definition tlv_desc_presence_reporting_area_information_0 : desc :=
  Desc TLV_VAR_STR TLV_PRESENCE_REPORTING_AREA_INFORMATION_TYPE 0 0 [].
Definition tlv_desc_twan_identifier_timestamp_0 : desc :=
  Desc TLV_VAR_STR TLV_TWAN_IDENTIFIER_TIMESTAMP_TYPE 0 0 [].
Definition tlv_desc_twan_identifier_timestamp_1 : desc :=
  Desc TLV_VAR_STR TLV_TWAN_IDENTIFIER_TIMESTAMP_TYPE 0 1 [].
Definition tlv_desc_metric_0 : desc := Desc TLV_VAR_STR TLV_METRIC_TYPE 0 0 [].
Definition tlv_desc_sequence_number_0 : desc := Desc TLV_VAR_STR TLV_SEQUENCE_NUMBER_TYPE 0 0 [].
Definition tlv_desc_apn_and_relative_capacity_0 : desc :=
  Desc TLV_VAR_STR TLV_APN_AND_RELATIVE_CAPACITY_TYPE 0 0 [].
Definition tlv_desc_wlan_offloadability_indication_0 : desc :=
  Desc TLV_VAR_STR TLV_WLAN_OFFLOADABILITY_INDICATION_TYPE 0 0 [].
Definition tlv_desc_paging_and_service_information_0 : desc :=
  Desc TLV_VAR_STR TLV_PAGING_AND_SERVICE_INFORMATION_TYPE 0 0 [].
Definition tlv_desc_integer_number_0 : desc := Desc TLV_VAR_STR TLV_INTEGER_NUMBER_TYPE 0 0 [].
Definition tlv_desc_millisecond_time_stamp_0 : desc :=
  Desc TLV_VAR_STR TLV_MILLISECOND_TIME_STAMP_TYPE 0 0 [].
Definition tlv_desc_monitoring_event_information_0 : desc :=
  Desc TLV_VAR_STR TLV_MONITORING_EVENT_INFORMATION_TYPE 0 0 [].
Definition tlv_desc_ecgi_list_0 : desc := Desc TLV_VAR_STR TLV_ECGI_LIST_TYPE 0 0 [].
Definition tlv_desc_remote_user_id_0 : desc := Desc TLV_VAR_STR TLV_REMOTE_USER_ID_TYPE 0 0 [].
Definition tlv_desc_remote_ue_ip_information_0 : desc :=
  Desc TLV_VAR_STR TLV_REMOTE_UE_IP_INFORMATION_TYPE 0 0 [].
Definition tlv_desc_ciot_optimizations_support_indication_0 : desc :=
  Desc TLV_VAR_STR TLV_CIOT_OPTIMIZATIONS_SUPPORT_INDICATION_TYPE 0 0 [].
Definition tlv_desc_header_compression_configuration_0 : desc :=
  Desc TLV_VAR_STR TLV_HEADER_COMPRESSION_CONFIGURATION_TYPE 0 0 [].
Definition tlv_desc_epco_0 : desc := Desc TLV_VAR_STR TLV_EPCO_TYPE 0 0 [].
Definition tlv_desc_serving_plmn_rate_control_0 : desc :=
  Desc TLV_VAR_STR TLV_SERVING_PLMN_RATE_CONTROL_TYPE 0 0 [].
Definition tlv_desc_counter_0 : desc := Desc TLV_VAR_STR TLV_COUNTER_TYPE 0 0 [].
Definition tlv_desc_bearer_context_0 : desc :=
  Desc TLV_COMPOUND TLV_BEARER_CONTEXT_TYPE 0 0
    [tlv_desc_ebi_0; tlv_desc_bearer_tft_0; tlv_desc_f_teid_0; tlv_desc_f_teid_1;
     tlv_desc_f_teid_2; tlv_desc_f_teid_3; tlv_desc_f_teid_4; tlv_desc_f_teid_5;
     tlv_desc_f_teid_6; tlv_desc_bearer_qos_0; tlv_desc_f_teid_7; tlv_desc_cause_0;
     tlv_desc_charging_id_0; tlv_desc_bearer_flags_0; tlv_desc_pco_0; tlv_desc_epco_0;
     tlv_desc_f_teid_8; tlv_desc_f_teid_9; tlv_desc_f_teid_10; tlv_desc_f_teid_11;
     tlv_desc_ran_nas_cause_0; tlv_desc_apco_0; tlv_desc_f_container_0; tlv_desc_ti_0;
     tlv_desc_packet_flow_id_0].

Definition tlv_desc_bearer_context_1 : desc :=
  Desc TLV_COMPOUND TLV_BEARER_CONTEXT_TYPE 0 1
    [tlv_desc_ebi_0; tlv_desc_bearer_tft_0; tlv_desc_f_teid_0; tlv_desc_f_teid_1;
     tlv_desc_f_teid_2; tlv_desc_f_teid_3; tlv_desc_f_teid_4; tlv_desc_f_teid_5;
     tlv_desc_f_teid_6; tlv_desc_bearer_qos_0; tlv_desc_f_teid_7; tlv_desc_cause_0;
     tlv_desc_charging_id_0; tlv_desc_bearer_flags_0; tlv_desc_pco_0; tlv_desc_epco_0;
     tlv_desc_f_teid_8; tlv_desc_f_teid_9; tlv_desc_f_teid_10; tlv_desc_f_teid_11;
     tlv_desc_ran_nas_cause_0; tlv_desc_apco_0; tlv_desc_f_container_0; tlv_desc_ti_0;
     tlv_desc_packet_flow_id_0].

Definition tlv_desc_bearer_context_2 : desc :=
  Desc TLV_COMPOUND TLV_BEARER_CONTEXT_TYPE 0 2
    [tlv_desc_ebi_0; tlv_desc_bearer_tft_0; tlv_desc_f_teid_0; tlv_desc_f_teid_1;
     tlv_desc_f_teid_2; tlv_desc_f_teid_3; tlv_desc_f_teid_4; tlv_desc_f_teid_5;
     tlv_desc_f_teid_6; tlv_desc_bearer_qos_0; tlv_desc_f_teid_7; tlv_desc_cause_0;
     tlv_desc_charging_id_0; tlv_desc_bearer_flags_0; tlv_desc_pco_0; tlv_desc_epco_0;
     tlv_desc_f_teid_8; tlv_desc_f_teid_9; tlv_desc_f_teid_10; tlv_desc_f_teid_11;
     tlv_desc_ran_nas_cause_0; tlv_desc_apco_0; tlv_desc_f_container_0; tlv_desc_ti_0;
     tlv_desc_packet_flow_id_0].

Definition tlv_desc_bearer_context_3 : desc :=
  Desc TLV_COMPOUND TLV_BEARER_CONTEXT_TYPE 0 3
    [tlv_desc_ebi_0; tlv_desc_bearer_tft_0; tlv_desc_f_teid_0; tlv_desc_f_teid_1;
     tlv_desc_f_teid_2; tlv_desc_f_teid_3; tlv_desc_f_teid_4; tlv_desc_f_teid_5;
     tlv_desc_f_teid_6; tlv_desc_bearer_qos_0; tlv_desc_f_teid_7; tlv_desc_cause_0;
     tlv_desc_charging_id_0; tlv_desc_bearer_flags_0; tlv_desc_pco_0; tlv_desc_epco_0;
     tlv_desc_f_teid_8; tlv_desc_f_teid_9; tlv_desc_f_teid_10; tlv_desc_f_teid_11;
     tlv_desc_ran_nas_cause_0; tlv_desc_apco_0; tlv_desc_f_container_0; tlv_desc_ti_0;
     tlv_desc_packet_flow_id_0].

Definition tlv_desc_bearer_context_4 : desc :=
  Desc TLV_COMPOUND TLV_BEARER_CONTEXT_TYPE 0 4
    [tlv_desc_ebi_0; tlv_desc_bearer_tft_0; tlv_desc_f_teid_0; tlv_desc_f_teid_1;
     tlv_desc_f_teid_2; tlv_desc_f_teid_3; tlv_desc_f_teid_4; tlv_desc_f_teid_5;
     tlv_desc_f_teid_6; tlv_desc_bearer_qos_0; tlv_desc_f_teid_7; tlv_desc_cause_0;
     tlv_desc_charging_id_0; tlv_desc_bearer_flags_0; tlv_desc_pco_0; tlv_desc_epco_0;
     tlv_desc_f_teid_8; tlv_desc_f_teid_9; tlv_desc_f_teid_10; tlv_desc_f_teid_11;
     tlv_desc_ran_nas_cause_0; tlv_desc_apco_0; tlv_desc_f_container_0; tlv_desc_ti_0;
     tlv_desc_packet_flow_id_0].

Definition tlv_desc_bearer_context_5 : desc :=
  Desc TLV_COMPOUND TLV_BEARER_CONTEXT_TYPE 0 5
    [tlv_desc_ebi_0; tlv_desc_bearer_tft_0; tlv_desc_f_teid_0; tlv_desc_f_teid_1;
     tlv_desc_f_teid_2; tlv_desc_f_teid_3; tlv_desc_f_teid_4; tlv_desc_f_teid_5;
     tlv_desc_f_teid_6; tlv_desc_bearer_qos_0; tlv_desc_f_teid_7; tlv_desc_cause_0;
     tlv_desc_charging_id_0; tlv_desc_bearer_flags_0; tlv_desc_pco_0; tlv_desc_epco_0;
     tlv_desc_f_teid_8; tlv_desc_f_teid_9; tlv_desc_f_teid_10; tlv_desc_f_teid_11;
     tlv_desc_ran_nas_cause_0; tlv_desc_apco_0; tlv_desc_f_container_0; tlv_desc_ti_0;
     tlv_desc_packet_flow_id_0].

Definition tlv_desc_bearer_context_6 : desc :=
  Desc TLV_COMPOUND TLV_BEARER_CONTEXT_TYPE 0 6
    [tlv_desc_ebi_0; tlv_desc_bearer_tft_0; tlv_desc_f_teid_0; tlv_desc_f_teid_1;
     tlv_desc_f_teid_2; tlv_desc_f_teid_3; tlv_desc_f_teid_4; tlv_desc_f_teid_5;
     tlv_desc_f_teid_6; tlv_desc_bearer_qos_0; tlv_desc_f_teid_7; tlv_desc_cause_0;
     tlv_desc_charging_id_0; tlv_desc_bearer_flags_0; tlv_desc_pco_0; tlv_desc_epco_0;
     tlv_desc_f_teid_8; tlv_desc_f_teid_9; tlv_desc_f_teid_10; tlv_desc_f_teid_11;
     tlv_desc_ran_nas_cause_0; tlv_desc_apco_0; tlv_desc_f_container_0; tlv_desc_ti_0;
     tlv_desc_packet_flow_id_0].

Definition tlv_desc_bearer_context_7 : desc :=
  Desc TLV_COMPOUND TLV_BEARER_CONTEXT_TYPE 0 7
    [tlv_desc_ebi_0; tlv_desc_bearer_tft_0; tlv_desc_f_teid_0; tlv_desc_f_teid_1;
     tlv_desc_f_teid_2; tlv_desc_f_teid_3; tlv_desc_f_teid_4; tlv_desc_f_teid_5;
     tlv_desc_f_teid_6; tlv_desc_bearer_qos_0; tlv_desc_f_teid_7; tlv_desc_cause_0;
     tlv_desc_charging_id_0; tlv_desc_bearer_flags_0; tlv_desc_pco_0; tlv_desc_epco_0;
     tlv_desc_f_teid_8; tlv_desc_f_teid_9; tlv_desc_f_teid_10; tlv_desc_f_teid_11;
     tlv_desc_ran_nas_cause_0; tlv_desc_apco_0; tlv_desc_f_container_0; tlv_desc_ti_0;
     tlv_desc_packet_flow_id_0].

Definition tlv_desc_bearer_context_8 : desc :=
  Desc TLV_COMPOUND TLV_BEARER_CONTEXT_TYPE 0 8
    [tlv_desc_ebi_0; tlv_desc_bearer_tft_0; tlv_desc_f_teid_0; tlv_desc_f_teid_1;
     tlv_desc_f_teid_2; tlv_desc_f_teid_3; tlv_desc_f_teid_4; tlv_desc_f_teid_5;
     tlv_desc_f_teid_6; tlv_desc_bearer_qos_0; tlv_desc_f_teid_7; tlv_desc_cause_0;
     tlv_desc_charging_id_0; tlv_desc_bearer_flags_0; tlv_desc_pco_0; tlv_desc_epco_0;
     tlv_desc_f_teid_8; tlv_desc_f_teid_9; tlv_desc_f_teid_10; tlv_desc_f_teid_11;
     tlv_desc_ran_nas_cause_0; tlv_desc_apco_0; tlv_desc_f_container_0; tlv_desc_ti_0;
     tlv_desc_packet_flow_id_0].

Definition tlv_desc_bearer_context_9 : desc :=
  Desc TLV_COMPOUND TLV_BEARER_CONTEXT_TYPE 0 9
    [tlv_desc_ebi_0; tlv_desc_bearer_tft_0; tlv_desc_f_teid_0; tlv_desc_f_teid_1;
     tlv_desc_f_teid_2; tlv_desc_f_teid_3; tlv_desc_f_teid_4; tlv_desc_f_teid_5;
     tlv_desc_f_teid_6; tlv_desc_bearer_qos_0; tlv_desc_f_teid_7; tlv_desc_cause_0;
     tlv_desc_charging_id_0; tlv_desc_bearer_flags_0; tlv_desc_pco_0; tlv_desc_epco_0;
     tlv_desc_f_teid_8; tlv_desc_f_teid_9; tlv_desc_f_teid_10; tlv_desc_f_teid_11;
     tlv_desc_ran_nas_cause_0; tlv_desc_apco_0; tlv_desc_f_container_0; tlv_desc_ti_0;
     tlv_desc_packet_flow_id_0].

Definition tlv_desc_bearer_context_10 : desc :=
  Desc TLV_COMPOUND TLV_BEARER_CONTEXT_TYPE 0 10
    [tlv_desc_ebi_0; tlv_desc_bearer_tft_0; tlv_desc_f_teid_0; tlv_desc_f_teid_1;
     tlv_desc_f_teid_2; tlv_desc_f_teid_3; tlv_desc_f_teid_4; tlv_desc_f_teid_5;
     tlv_desc_f_teid_6; tlv_desc_bearer_qos_0; tlv_desc_f_teid_7; tlv_desc_cause_0;
     tlv_desc_charging_id_0; tlv_desc_bearer_flags_0; tlv_desc_pco_0; tlv_desc_epco_0;
     tlv_desc_f_teid_8; tlv_desc_f_teid_9; tlv_desc_f_teid_10; tlv_desc_f_teid_11;
     tlv_desc_ran_nas_cause_0; tlv_desc_apco_0; tlv_desc_f_container_0; tlv_desc_ti_0;
     tlv_desc_packet_flow_id_0].

Definition tlv_desc_pdn_connection_0 : desc := Desc TLV_COMPOUND TLV_PDN_CONNECTION_TYPE 0 0 [].
Definition tlv_desc_overload_control_information_0 : desc :=
  Desc TLV_COMPOUND TLV_OVERLOAD_CONTROL_INFORMATION_TYPE 0 0
    [tlv_desc_sequence_number_0; tlv_desc_metric_0; tlv_desc_epc_timer_0; tlv_desc_apn_0].

Definition tlv_desc_overload_control_information_1 : desc :=
  Desc TLV_COMPOUND TLV_OVERLOAD_CONTROL_INFORMATION_TYPE 0 1
    [tlv_desc_sequence_number_0; tlv_desc_metric_0; tlv_desc_epc_timer_0; tlv_desc_apn_0].

Definition tlv_desc_overload_control_information_2 : desc :=
  Desc TLV_COMPOUND TLV_OVERLOAD_CONTROL_INFORMATION_TYPE 0 2
    [tlv_desc_sequence_number_0; tlv_desc_metric_0; tlv_desc_epc_timer_0; tlv_desc_apn_0].

Definition tlv_desc_load_control_information_0 : desc :=
  Desc TLV_COMPOUND TLV_LOAD_CONTROL_INFORMATION_TYPE 0 0
    [tlv_desc_sequence_number_0; tlv_desc_metric_0; tlv_desc_apn_and_relative_capacity_0].

Definition tlv_desc_load_control_information_1 : desc :=
  Desc TLV_COMPOUND TLV_LOAD_CONTROL_INFORMATION_TYPE 0 1
    [tlv_desc_sequence_number_0; tlv_desc_metric_0; tlv_desc_apn_and_relative_capacity_0].

Definition tlv_desc_load_control_information_2 : desc :=
  Desc TLV_COMPOUND TLV_LOAD_CONTROL_INFORMATION_TYPE 0 2
    [tlv_desc_sequence_number_0; tlv_desc_metric_0; tlv_desc_apn_and_relative_capacity_0].

Definition tlv_desc_remote_ue_context_0 : desc :=
  Desc TLV_COMPOUND TLV_REMOTE_UE_CONTEXT_TYPE 0 0
    [tlv_desc_remote_user_id_0; tlv_desc_remote_ue_ip_information_0].

Definition tlv_desc_scef_pdn_connection_0 : desc :=
  Desc TLV_COMPOUND TLV_SCEF_PDN_CONNECTION_TYPE 0 0
    [tlv_desc_apn_0; tlv_desc_ebi_0; tlv_desc_node_identifier_0].

(** ** Messages *)

Definition tlv_desc_echo_request : desc :=
  Desc TLV_MESSAGE 0 0 0
    [tlv_desc_recovery_0; tlv_desc_node_features_0].

Definition tlv_desc_echo_response : desc :=
  Desc TLV_MESSAGE 0 0 0
    [tlv_desc_recovery_0; tlv_desc_node_features_0].

Definition tlv_desc_create_session_request : desc :=
  Desc TLV_MESSAGE 0 0 0
    [tlv_desc_imsi_0; tlv_desc_msisdn_0; tlv_desc_mei_0; tlv_desc_uli_0;
     tlv_desc_serving_network_0; tlv_desc_rat_type_0; tlv_desc_indication_0; tlv_desc_f_teid_0;
     tlv_desc_f_teid_1; tlv_desc_apn_0; tlv_desc_selection_mode_0; tlv_desc_pdn_type_0;
     tlv_desc_paa_0; tlv_desc_apn_restriction_0; tlv_desc_ambr_0; tlv_desc_ebi_0;
     tlv_desc_twmi_0; tlv_desc_pco_0; tlv_desc_bearer_context_0; tlv_desc_bearer_context_1;
     tlv_desc_trace_information_0; tlv_desc_recovery_0; tlv_desc_fq_csid_0; tlv_desc_fq_csid_1;
     tlv_desc_fq_csid_2; tlv_desc_fq_csid_3; tlv_desc_ue_time_zone_0; tlv_desc_uci_0;
     tlv_desc_charging_characteristics_0; tlv_desc_ldn_0; tlv_desc_ldn_1; tlv_desc_ldn_2;
     tlv_desc_ldn_3; tlv_desc_signalling_priority_indication_0; tlv_desc_ip_address_0;
     tlv_desc_port_number_0; tlv_desc_apco_0; tlv_desc_ip_address_1; tlv_desc_port_number_1;
     tlv_desc_ip_address_2; tlv_desc_twan_identifier_0; tlv_desc_ip_address_3;
     tlv_desc_cn_operator_selection_entity_0; tlv_desc_presence_reporting_area_information_0;
     tlv_desc_overload_control_information_0; tlv_desc_overload_control_information_1;
     tlv_desc_overload_control_information_2; tlv_desc_millisecond_time_stamp_0;
     tlv_desc_integer_number_0; tlv_desc_twan_identifier_1; tlv_desc_twan_identifier_timestamp_0;
     tlv_desc_f_container_0; tlv_desc_remote_ue_context_0; tlv_desc_node_identifier_0;
     tlv_desc_epco_0; tlv_desc_serving_plmn_rate_control_0; tlv_desc_counter_0;
     tlv_desc_port_number_2].

Definition tlv_desc_create_session_response : desc :=
  Desc TLV_MESSAGE 0 0 0
    [tlv_desc_cause_0; tlv_desc_change_reporting_action_0;
     tlv_desc_csg_information_reporting_action_0; tlv_desc_enb_information_reporting_0;
     tlv_desc_f_teid_0; tlv_desc_f_teid_1; tlv_desc_paa_0; tlv_desc_apn_restriction_0;
     tlv_desc_ambr_0; tlv_desc_ebi_0; tlv_desc_pco_0; tlv_desc_bearer_context_0;
     tlv_desc_bearer_context_1; tlv_desc_recovery_0; tlv_desc_fqdn_0; tlv_desc_ip_address_0;
     tlv_desc_fq_csid_0; tlv_desc_fq_csid_1; tlv_desc_ldn_0; tlv_desc_ldn_1;
     tlv_desc_epc_timer_0; tlv_desc_apco_0; tlv_desc_ip4cp_0; tlv_desc_indication_0;
     tlv_desc_presence_reporting_area_action_0; tlv_desc_load_control_information_0;
     tlv_desc_load_control_information_1; tlv_desc_load_control_information_2;
     tlv_desc_overload_control_information_0; tlv_desc_overload_control_information_1;
     tlv_desc_f_container_0; tlv_desc_charging_id_0; tlv_desc_epco_0].

Definition tlv_desc_modify_bearer_request : desc :=
  Desc TLV_MESSAGE 0 0 0
    [tlv_desc_mei_0; tlv_desc_uli_0; tlv_desc_serving_network_0; tlv_desc_rat_type_0;
     tlv_desc_indication_0; tlv_desc_f_teid_0; tlv_desc_ambr_0; tlv_desc_delay_value_0;
     tlv_desc_bearer_context_0; tlv_desc_bearer_context_1; tlv_desc_recovery_0;
     tlv_desc_ue_time_zone_0; tlv_desc_fq_csid_0; tlv_desc_uci_0; tlv_desc_ip_address_1;
     tlv_desc_port_number_1; tlv_desc_ldn_0; tlv_desc_ldn_1; tlv_desc_ip_address_0;
     tlv_desc_port_number_0; tlv_desc_ip_address_2; tlv_desc_cn_operator_selection_entity_0;
     tlv_desc_presence_reporting_area_information_0; tlv_desc_overload_control_information_0;
     tlv_desc_overload_control_information_1; tlv_desc_overload_control_information_2;
     tlv_desc_serving_plmn_rate_control_0; tlv_desc_counter_0].

Definition tlv_desc_modify_bearer_response : desc :=
  Desc TLV_MESSAGE 0 0 0
    [tlv_desc_cause_0; tlv_desc_msisdn_0; tlv_desc_ebi_0; tlv_desc_apn_restriction_0;
     tlv_desc_pco_0; tlv_desc_bearer_context_0; tlv_desc_bearer_context_1;
     tlv_desc_change_reporting_action_0; tlv_desc_csg_information_reporting_action_0;
     tlv_desc_enb_information_reporting_0; tlv_desc_fqdn_0; tlv_desc_ip_address_0;
     tlv_desc_fq_csid_0; tlv_desc_fq_csid_1; tlv_desc_recovery_0; tlv_desc_ldn_0; tlv_desc_ldn_1;
     tlv_desc_indication_0; tlv_desc_presence_reporting_area_action_0;
     tlv_desc_load_control_information_0; tlv_desc_load_control_information_1;
     tlv_desc_load_control_information_2; tlv_desc_overload_control_information_0;
     tlv_desc_overload_control_information_1; tlv_desc_charging_id_0].

Definition tlv_desc_delete_session_request : desc :=
  Desc TLV_MESSAGE 0 0 0
    [tlv_desc_cause_0; tlv_desc_ebi_0; tlv_desc_uli_0; tlv_desc_indication_0; tlv_desc_pco_0;
     tlv_desc_node_type_0; tlv_desc_f_teid_0; tlv_desc_ue_time_zone_0; tlv_desc_uli_timestamp_0;
     tlv_desc_ran_nas_cause_0; tlv_desc_twan_identifier_0; tlv_desc_twan_identifier_timestamp_0;
     tlv_desc_overload_control_information_0; tlv_desc_overload_control_information_1;
     tlv_desc_overload_control_information_2; tlv_desc_twan_identifier_1;
     tlv_desc_twan_identifier_timestamp_1; tlv_desc_ip_address_0; tlv_desc_port_number_0;
     tlv_desc_epco_0; tlv_desc_port_number_1].

Definition tlv_desc_delete_session_response : desc :=
  Desc TLV_MESSAGE 0 0 0
    [tlv_desc_cause_0; tlv_desc_recovery_0; tlv_desc_pco_0; tlv_desc_indication_0;
     tlv_desc_load_control_information_0; tlv_desc_load_control_information_1;
     tlv_desc_load_control_information_2; tlv_desc_overload_control_information_0;
     tlv_desc_overload_control_information_1; tlv_desc_epco_0].

Definition tlv_desc_modify_bearer_command : desc :=
  Desc TLV_MESSAGE 0 0 0
    [tlv_desc_ambr_0; tlv_desc_bearer_context_0; tlv_desc_overload_control_information_0;
     tlv_desc_overload_control_information_1; tlv_desc_overload_control_information_2;
     tlv_desc_f_teid_0].

Definition tlv_desc_modify_bearer_failure_indication : desc :=
  Desc TLV_MESSAGE 0 0 0
    [tlv_desc_cause_0; tlv_desc_recovery_0; tlv_desc_indication_0;
     tlv_desc_overload_control_information_0; tlv_desc_overload_control_information_1].

Definition tlv_desc_delete_bearer_command : desc :=
  Desc TLV_MESSAGE 0 0 0
    [tlv_desc_bearer_context_0; tlv_desc_uli_0; tlv_desc_uli_timestamp_0;
     tlv_desc_ue_time_zone_0; tlv_desc_overload_control_information_0;
     tlv_desc_overload_control_information_1; tlv_desc_f_teid_0].

Definition tlv_desc_delete_bearer_failure_indication : desc :=
  Desc TLV_MESSAGE 0 0 0
    [tlv_desc_cause_0; tlv_desc_bearer_context_0; tlv_desc_recovery_0; tlv_desc_indication_0;
     tlv_desc_overload_control_information_0; tlv_desc_overload_control_information_1].

Definition tlv_desc_downlink_data_notification_failure_indication : desc :=
  Desc TLV_MESSAGE 0 0 0
    [tlv_desc_cause_0; tlv_desc_node_type_0; tlv_desc_imsi_0].

Definition tlv_desc_create_bearer_request : desc :=
  Desc TLV_MESSAGE 0 0 0
    [tlv_desc_pti_0; tlv_desc_ebi_0; tlv_desc_pco_0; tlv_desc_bearer_context_0;
     tlv_desc_fq_csid_0; tlv_desc_fq_csid_1; tlv_desc_change_reporting_action_0;
     tlv_desc_csg_information_reporting_action_0; tlv_desc_enb_information_reporting_0;
     tlv_desc_presence_reporting_area_action_0; tlv_desc_indication_0;
     tlv_desc_load_control_information_0; tlv_desc_load_control_information_1;
     tlv_desc_load_control_information_2; tlv_desc_overload_control_information_0;
     tlv_desc_overload_control_information_1; tlv_desc_f_container_0].

Definition tlv_desc_create_bearer_response : desc :=
  Desc TLV_MESSAGE 0 0 0
    [tlv_desc_cause_0; tlv_desc_bearer_context_0; tlv_desc_recovery_0; tlv_desc_fq_csid_0;
     tlv_desc_fq_csid_2; tlv_desc_fq_csid_3; tlv_desc_pco_0; tlv_desc_ue_time_zone_0;
     tlv_desc_uli_0; tlv_desc_twan_identifier_0; tlv_desc_overload_control_information_0;
     tlv_desc_overload_control_information_1; tlv_desc_presence_reporting_area_information_0;
     tlv_desc_ip_address_0; tlv_desc_overload_control_information_2; tlv_desc_twan_identifier_1;
     tlv_desc_twan_identifier_timestamp_1; tlv_desc_port_number_0; tlv_desc_f_container_0;
     tlv_desc_port_number_1].

Definition tlv_desc_update_bearer_request : desc :=
  Desc TLV_MESSAGE 0 0 0
    [tlv_desc_bearer_context_0; tlv_desc_pti_0; tlv_desc_pco_0; tlv_desc_ambr_0;
     tlv_desc_change_reporting_action_0; tlv_desc_csg_information_reporting_action_0;
     tlv_desc_enb_information_reporting_0; tlv_desc_indication_0; tlv_desc_fq_csid_0;
     tlv_desc_fq_csid_1; tlv_desc_presence_reporting_area_action_0;
     tlv_desc_load_control_information_0; tlv_desc_load_control_information_1;
     tlv_desc_load_control_information_2; tlv_desc_overload_control_information_0;
     tlv_desc_overload_control_information_1; tlv_desc_f_container_0].

Definition tlv_desc_update_bearer_response : desc :=
  Desc TLV_MESSAGE 0 0 0
    [tlv_desc_cause_0; tlv_desc_bearer_context_0; tlv_desc_pco_0; tlv_desc_recovery_0;
     tlv_desc_fq_csid_0; tlv_desc_fq_csid_1; tlv_desc_fq_csid_2; tlv_desc_fq_csid_3;
     tlv_desc_indication_0; tlv_desc_ue_time_zone_0; tlv_desc_uli_0; tlv_desc_twan_identifier_0;
     tlv_desc_overload_control_information_0; tlv_desc_overload_control_information_1;
     tlv_desc_presence_reporting_area_information_0; tlv_desc_ip_address_0;
     tlv_desc_overload_control_information_2; tlv_desc_twan_identifier_1;
     tlv_desc_twan_identifier_timestamp_1; tlv_desc_port_number_0; tlv_desc_f_container_0;
     tlv_desc_port_number_1].

Definition tlv_desc_delete_bearer_request : desc :=
  Desc TLV_MESSAGE 0 0 0
    [tlv_desc_ebi_0; tlv_desc_ebi_1; tlv_desc_bearer_context_0; tlv_desc_pti_0; tlv_desc_pco_0;
     tlv_desc_fq_csid_0; tlv_desc_fq_csid_1; tlv_desc_cause_0; tlv_desc_indication_0;
     tlv_desc_load_control_information_0; tlv_desc_load_control_information_1;
     tlv_desc_load_control_information_2; tlv_desc_overload_control_information_0;
     tlv_desc_overload_control_information_1; tlv_desc_f_container_0; tlv_desc_epco_0].

Definition tlv_desc_delete_bearer_response : desc :=
  Desc TLV_MESSAGE 0 0 0
    [tlv_desc_cause_0; tlv_desc_ebi_0; tlv_desc_bearer_context_0; tlv_desc_recovery_0;
     tlv_desc_fq_csid_0; tlv_desc_fq_csid_1; tlv_desc_fq_csid_2; tlv_desc_fq_csid_3;
     tlv_desc_pco_0; tlv_desc_ue_time_zone_0; tlv_desc_uli_0; tlv_desc_uli_timestamp_0;
     tlv_desc_twan_identifier_0; tlv_desc_twan_identifier_timestamp_0;
     tlv_desc_overload_control_information_0; tlv_desc_overload_control_information_1;
     tlv_desc_ip_address_0; tlv_desc_overload_control_information_2; tlv_desc_twan_identifier_1;
     tlv_desc_twan_identifier_timestamp_1; tlv_desc_port_number_0; tlv_desc_f_container_0;
     tlv_desc_port_number_1].

Definition tlv_desc_create_indirect_data_forwarding_tunnel_request : desc :=
  Desc TLV_MESSAGE 0 0 0
    [tlv_desc_imsi_0; tlv_desc_mei_0; tlv_desc_indication_0; tlv_desc_f_teid_0;
     tlv_desc_bearer_context_0; tlv_desc_bearer_context_1; tlv_desc_bearer_context_2;
     tlv_desc_bearer_context_3; tlv_desc_bearer_context_4; tlv_desc_bearer_context_5;
     tlv_desc_bearer_context_6; tlv_desc_bearer_context_7; tlv_desc_bearer_context_8;
     tlv_desc_bearer_context_9; tlv_desc_bearer_context_10; tlv_desc_recovery_0].

Definition tlv_desc_create_indirect_data_forwarding_tunnel_response : desc :=
  Desc TLV_MESSAGE 0 0 0
    [tlv_desc_cause_0; tlv_desc_f_teid_0; tlv_desc_bearer_context_0; tlv_desc_bearer_context_1;
     tlv_desc_bearer_context_2; tlv_desc_bearer_context_3; tlv_desc_bearer_context_4;
     tlv_desc_bearer_context_5; tlv_desc_bearer_context_6; tlv_desc_bearer_context_7;
     tlv_desc_bearer_context_8; tlv_desc_bearer_context_9; tlv_desc_bearer_context_10;
     tlv_desc_recovery_0].

Definition tlv_desc_delete_indirect_data_forwarding_tunnel_request : desc :=
  Desc TLV_MESSAGE 0 0 0 [].
Definition tlv_desc_delete_indirect_data_forwarding_tunnel_response : desc :=
  Desc TLV_MESSAGE 0 0 0
    [tlv_desc_cause_0; tlv_desc_recovery_0].

Definition tlv_desc_release_access_bearers_request : desc :=
  Desc TLV_MESSAGE 0 0 0
    [tlv_desc_ebi_0; tlv_desc_node_type_0; tlv_desc_indication_0].

Definition tlv_desc_release_access_bearers_response : desc :=
  Desc TLV_MESSAGE 0 0 0
    [tlv_desc_cause_0; tlv_desc_recovery_0; tlv_desc_indication_0;
     tlv_desc_load_control_information_0; tlv_desc_overload_control_information_0].

Definition tlv_desc_downlink_data_notification : desc :=
  Desc TLV_MESSAGE 0 0 0
    [tlv_desc_cause_0; tlv_desc_ebi_0; tlv_desc_arp_0; tlv_desc_imsi_0; tlv_desc_f_teid_0;
     tlv_desc_indication_0; tlv_desc_load_control_information_0;
     tlv_desc_overload_control_information_0; tlv_desc_paging_and_service_information_0].

Definition tlv_desc_downlink_data_notification_acknowledge : desc :=
  Desc TLV_MESSAGE 0 0 0
    [tlv_desc_cause_0; tlv_desc_delay_value_0; tlv_desc_recovery_0; tlv_desc_throttling_0;
     tlv_desc_imsi_0; tlv_desc_epc_timer_0; tlv_desc_integer_number_0].

Definition tlv_desc_modify_access_bearers_request : desc :=
  Desc TLV_MESSAGE 0 0 0
    [tlv_desc_indication_0; tlv_desc_f_teid_0; tlv_desc_delay_value_0; tlv_desc_bearer_context_0;
     tlv_desc_bearer_context_1; tlv_desc_recovery_0].

Definition tlv_desc_modify_access_bearers_response : desc :=
  Desc TLV_MESSAGE 0 0 0
    [tlv_desc_cause_0; tlv_desc_bearer_context_0; tlv_desc_bearer_context_1; tlv_desc_recovery_0;
     tlv_desc_indication_0; tlv_desc_load_control_information_0;
     tlv_desc_overload_control_information_0].

(** ** Messages by type *)

(** [gtp_header_t]; [length] is the field as it is in memory. *)
Record gtp_header := mkHeader { flags : Z; h_type : Z; h_length : Z; teid : Z; sqn : Z }.
#[export] Instance gtp_header_eq_dec : EqDecision gtp_header.
Proof. solve_decision. Defined.

(** [gtp_message_t]: the header and the member of the union the type selects. *)
Record gtp_message := mkMessage { h : gtp_header; msg : fields }.

Definition GTPV2C_HEADER_LEN : Z := 12.
Definition GTP_TEID_LEN : Z := 4.
Definition teid_presence (flags : Z) : bool := Z.testbit flags 3.

(** The bytes of a [gtp_header_t], and [memcpy] of some bytes over one. *)
Definition header_bytes (h : gtp_header) : list Z :=
  [flags h; h_type h] ++ le16 (h_length h) ++ le32 (teid h) ++ le32 (sqn h).
Definition header_of (l : list Z) : gtp_header :=
  mkHeader (rd l 0) (rd l 1) (rd l 2 .| (rd l 3 << 8)) (rd_le32 (drop 4 l)) (rd_le32 (drop 8 l)).

Definition case_of (cases : list (Z * desc)) (ty : Z) : option desc :=
  snd <$> find (fun c => bool_decide (fst c = ty)) cases.

(** The cases of the [switch] of [gtp_parse_msg]. *)
Definition gtp_parse_cases : list (Z * desc) :=
  [(GTP_ECHO_REQUEST_TYPE, tlv_desc_echo_request);
   (GTP_ECHO_RESPONSE_TYPE, tlv_desc_echo_response);
   (GTP_CREATE_SESSION_REQUEST_TYPE, tlv_desc_create_session_request);
   (GTP_CREATE_SESSION_RESPONSE_TYPE, tlv_desc_create_session_response);
   (GTP_MODIFY_BEARER_REQUEST_TYPE, tlv_desc_modify_bearer_request);
   (GTP_MODIFY_BEARER_RESPONSE_TYPE, tlv_desc_modify_bearer_response);
   (GTP_DELETE_SESSION_REQUEST_TYPE, tlv_desc_delete_session_request);
   (GTP_DELETE_SESSION_RESPONSE_TYPE, tlv_desc_delete_session_response);
   (GTP_MODIFY_BEARER_COMMAND_TYPE, tlv_desc_modify_bearer_command);
   (GTP_MODIFY_BEARER_FAILURE_INDICATION_TYPE, tlv_desc_modify_bearer_failure_indication);
   (GTP_DELETE_BEARER_COMMAND_TYPE, tlv_desc_delete_bearer_command);
   (GTP_DELETE_BEARER_FAILURE_INDICATION_TYPE, tlv_desc_delete_bearer_failure_indication);
   (GTP_DOWNLINK_DATA_NOTIFICATION_FAILURE_INDICATION_TYPE, tlv_desc_downlink_data_notification_failure_indication);
   (GTP_CREATE_BEARER_REQUEST_TYPE, tlv_desc_create_bearer_request);
   (GTP_CREATE_BEARER_RESPONSE_TYPE, tlv_desc_create_bearer_response);
   (GTP_UPDATE_BEARER_REQUEST_TYPE, tlv_desc_update_bearer_request);
   (GTP_UPDATE_BEARER_RESPONSE_TYPE, tlv_desc_update_bearer_response);
   (GTP_DELETE_BEARER_REQUEST_TYPE, tlv_desc_delete_bearer_request);
   (GTP_DELETE_BEARER_RESPONSE_TYPE, tlv_desc_delete_bearer_response);
   (GTP_CREATE_INDIRECT_DATA_FORWARDING_TUNNEL_REQUEST_TYPE, tlv_desc_create_indirect_data_forwarding_tunnel_request);
   (GTP_CREATE_INDIRECT_DATA_FORWARDING_TUNNEL_RESPONSE_TYPE, tlv_desc_create_indirect_data_forwarding_tunnel_response);
   (GTP_DELETE_INDIRECT_DATA_FORWARDING_TUNNEL_REQUEST_TYPE, tlv_desc_delete_indirect_data_forwarding_tunnel_request);
   (GTP_DELETE_INDIRECT_DATA_FORWARDING_TUNNEL_RESPONSE_TYPE, tlv_desc_delete_indirect_data_forwarding_tunnel_response);
   (GTP_RELEASE_ACCESS_BEARERS_REQUEST_TYPE, tlv_desc_release_access_bearers_request);
   (GTP_RELEASE_ACCESS_BEARERS_RESPONSE_TYPE, tlv_desc_release_access_bearers_response);
   (GTP_DOWNLINK_DATA_NOTIFICATION_TYPE, tlv_desc_downlink_data_notification);
   (GTP_DOWNLINK_DATA_NOTIFICATION_ACKNOWLEDGE_TYPE, tlv_desc_downlink_data_notification_acknowledge);
   (GTP_MODIFY_ACCESS_BEARERS_REQUEST_TYPE, tlv_desc_modify_access_bearers_request);
   (GTP_MODIFY_ACCESS_BEARERS_RESPONSE_TYPE, tlv_desc_modify_access_bearers_response)].

(** [gtp_parse_msg] on the packet [p] of the cluster [mem]: [true] for [CORE_OK],
    the message, the packet and the pool of TLV nodes. *)
Definition gtp_parse_msg (p : Pkbuf.pkbuf) (mem : list Z) (avail : nat)
  : bool * gtp_message * Pkbuf.pkbuf * nat :=
  let size := if teid_presence (rd mem (Pkbuf.payload p)) then GTPV2C_HEADER_LEN
              else GTPV2C_HEADER_LEN - GTP_TEID_LEN in
  let '(ok, p) := Pkbuf.pkbuf_header p (- size) in
  if negb ok then (false, mkMessage (header_of []) [], p, avail)
  else
    let h := header_of (get mem (Pkbuf.payload p - size) size) in
    let h := if teid_presence (flags h)
             then mkHeader (flags h) (h_type h) (h_length h) (bswap32 (teid h)) (sqn h) else h in
    let blank := match case_of gtp_parse_cases (h_type h) with
                 | Some d => blank_fields 9 (child_descs d)
                 | None => []
                 end in
    if decide (Pkbuf.len p = 0) then (true, mkMessage h blank, p, avail)
    else
      match case_of gtp_parse_cases (h_type h) with
      | Some d =>
          let '(ok, fs, avail) :=
            tlv_parse_msg T1_L2_I1 d blank (Pkbuf.len p) (drop (Z.to_nat (Pkbuf.payload p)) mem) avail in
          (ok, mkMessage h fs, p, avail)
      | None => (false, mkMessage h blank, p, avail)
      end.

(** The cases of the [switch] of [gtp_build_msg]. *)
Definition gtp_build_cases : list (Z * desc) :=
  [(GTP_ECHO_REQUEST_TYPE, tlv_desc_echo_request);
   (GTP_ECHO_RESPONSE_TYPE, tlv_desc_echo_response);
   (GTP_CREATE_SESSION_REQUEST_TYPE, tlv_desc_create_session_request);
   (GTP_CREATE_SESSION_RESPONSE_TYPE, tlv_desc_create_session_response);
   (GTP_MODIFY_BEARER_REQUEST_TYPE, tlv_desc_modify_bearer_request);
   (GTP_MODIFY_BEARER_RESPONSE_TYPE, tlv_desc_modify_bearer_response);
   (GTP_DELETE_SESSION_REQUEST_TYPE, tlv_desc_delete_session_request);
   (GTP_DELETE_SESSION_RESPONSE_TYPE, tlv_desc_delete_session_response);
   (GTP_MODIFY_BEARER_COMMAND_TYPE, tlv_desc_modify_bearer_command);
   (GTP_MODIFY_BEARER_FAILURE_INDICATION_TYPE, tlv_desc_modify_bearer_failure_indication);
   (GTP_DELETE_BEARER_COMMAND_TYPE, tlv_desc_delete_bearer_command);
   (GTP_DELETE_BEARER_FAILURE_INDICATION_TYPE, tlv_desc_delete_bearer_failure_indication);
   (GTP_DOWNLINK_DATA_NOTIFICATION_FAILURE_INDICATION_TYPE, tlv_desc_downlink_data_notification_failure_indication);
   (GTP_CREATE_BEARER_REQUEST_TYPE, tlv_desc_create_bearer_request);
   (GTP_CREATE_BEARER_RESPONSE_TYPE, tlv_desc_create_bearer_response);
   (GTP_UPDATE_BEARER_REQUEST_TYPE, tlv_desc_update_bearer_request);
   (GTP_UPDATE_BEARER_RESPONSE_TYPE, tlv_desc_update_bearer_response);
   (GTP_DELETE_BEARER_REQUEST_TYPE, tlv_desc_delete_bearer_request);
   (GTP_DELETE_BEARER_RESPONSE_TYPE, tlv_desc_delete_bearer_response);
   (GTP_CREATE_INDIRECT_DATA_FORWARDING_TUNNEL_REQUEST_TYPE, tlv_desc_create_indirect_data_forwarding_tunnel_request);
   (GTP_CREATE_INDIRECT_DATA_FORWARDING_TUNNEL_RESPONSE_TYPE, tlv_desc_create_indirect_data_forwarding_tunnel_response);
   (GTP_DELETE_INDIRECT_DATA_FORWARDING_TUNNEL_REQUEST_TYPE, tlv_desc_delete_indirect_data_forwarding_tunnel_request);
   (GTP_DELETE_INDIRECT_DATA_FORWARDING_TUNNEL_RESPONSE_TYPE, tlv_desc_delete_indirect_data_forwarding_tunnel_response);
   (GTP_RELEASE_ACCESS_BEARERS_REQUEST_TYPE, tlv_desc_release_access_bearers_request);
   (GTP_RELEASE_ACCESS_BEARERS_RESPONSE_TYPE, tlv_desc_release_access_bearers_response);
   (GTP_DOWNLINK_DATA_NOTIFICATION_TYPE, tlv_desc_downlink_data_notification);
   (GTP_DOWNLINK_DATA_NOTIFICATION_ACKNOWLEDGE_TYPE, tlv_desc_downlink_data_notification_acknowledge);
   (GTP_MODIFY_ACCESS_BEARERS_REQUEST_TYPE, tlv_desc_modify_access_bearers_request);
   (GTP_MODIFY_ACCESS_BEARERS_RESPONSE_TYPE, tlv_desc_modify_access_bearers_response)].

(** [gtp_build_msg]: the status, the bytes of the packet, the message after the
    call and the pool. *)
Definition gtp_build_msg (alloc : Z -> option (list Z)) (g : gtp_message) (avail : nat)
  : status * list Z * gtp_message * nat :=
  match case_of gtp_build_cases (h_type (h g)) with
  | Some d =>
      let '(st, bs, fs, avail) := tlv_build_msg alloc T1_L2_I1 d (msg g) avail in
      (st, bs, mkMessage (h g) fs, avail)
  | None => (CORE_ERROR, [], g, avail)
  end.

End GtpMessage.
