(* ===== verification/GtpMessageSpec.v ===== *)
(** The messages of [GtpMessage]: their descriptors, and parsing what was built. *)

From S2P Require Import Prelude Pkbuf Tlv TlvSpec TlvMsg TlvMsgSpec TlvMsgRoundtrip GtpMessage.

Module GtpMessageSpec.
Import Tlv TlvSpec TlvMsg TlvMsgSpec TlvMsgRoundtrip GtpMessage.

(** ** Descriptors *)

Definition message_desc (d : desc) : bool :=
  bool_decide (d_ctype d = TLV_MESSAGE) && wf_descs T1_L2_I1 9 (child_descs d).

Lemma cases_ok : forallb (fun c => message_desc (snd c)) gtp_parse_cases = true.
Proof. by vm_compute. Qed.

Lemma case_of_In cases ty d : case_of cases ty = Some d -> In (ty, d) cases.
Proof.
  unfold case_of. destruct (find _ cases) as [[ty' d']|] eqn:E; [|done].
  apply find_some in E as [Hin Hty%bool_decide_eq_true]. simpl in *. intros [= <-]. by subst.
Qed.

Lemma case_ok ty d :
  case_of gtp_parse_cases ty = Some d ->
  d_ctype d = TLV_MESSAGE /\ wf_descs T1_L2_I1 9 (child_descs d) = true.
Proof.
  intros Hin%case_of_In. pose proof (proj1 (forallb_forall _ _) cases_ok _ Hin) as H.
  unfold message_desc in H. by rewrite andb_true_iff, bool_decide_eq_true in H.
Qed.

(** ** The header *)

Definition header_inw (h : gtp_header) : Prop :=
  inw 8 (flags h) /\ inw 8 (h_type h) /\ inw 16 (h_length h) /\ inw 32 (teid h) /\ inw 32 (sqn h).

Lemma length_header_bytes h : List.length (header_bytes h) = 12%nat.
Proof. done. Qed.

Lemma header_of_bytes h : header_inw h -> header_of (header_bytes h) = h.
Proof.
  intros (H1 & H2 & H3 & H4 & H5). destruct h as [f ty l t s]. cbn [flags h_type h_length teid sqn] in *.
  unfold header_of, header_bytes. cbn [flags h_type h_length teid sqn].
  change (drop 4 _) with (le32 t ++ le32 s). change (drop 8 _) with (le32 s ++ []).
  rewrite !rd_le32_le32 by done. unfold le16. cbn [app]. rd_simpl. f_equal.
  rewrite Z.lor_comm, lor_add by (apply u8_inw || lia).
  rewrite !u8_mod, shiftr_div by lia. unfold inw in *. lia.
Qed.

(** C34: each message type has one descriptor, the same for parsing and for building,
    and every descriptor is well formed at every level: the elements of a group
    differ in type or instance, their types fit in the header and none is 0. *)
Theorem gtp_descriptors_wf :
  NoDup (map fst gtp_parse_cases) /\
  gtp_build_cases = gtp_parse_cases /\
  Forall (fun '(ty, d) => inw 8 ty /\ d_ctype d = TLV_MESSAGE /\
                          wf_descs T1_L2_I1 9 (child_descs d) = true) gtp_parse_cases.
Proof.
  split; [by_decide|]. split; [reflexivity|]. apply Forall_forall. intros [ty d] Hin.
  apply list_elem_of_In in Hin.
  pose proof (proj1 (forallb_forall _ _) cases_ok _ Hin) as H. cbn in H.
  unfold message_desc in H. rewrite andb_true_iff, bool_decide_eq_true in H. split; [|done].
  assert (forallb (fun c => bool_decide (inw 8 (fst c))) gtp_parse_cases = true) as Hc by by vm_compute.
  pose proof (proj1 (forallb_forall _ _) Hc _ Hin) as Hi. by apply bool_decide_eq_true in Hi.
Qed.

(** A message of a known type that can be built. *)
Definition gtp_buildable (g : gtp_message) (d : desc) : Prop :=
  case_of gtp_build_cases (h_type (h g)) = Some d /\
  wf_fields 9 (child_descs d) (msg g) = true /\
  existsb (fun ss => bool_decide (present ss <> [])) (msg g) = true /\
  small T1_L2_I1 (enc_fields 9 (child_descs d) (msg g)).

Lemma gtp_buildable_ok g d : gtp_buildable g d -> buildable T1_L2_I1 d (msg g).
Proof. intros (Hc & Hw & He & Hs). destruct (case_ok _ _ Hc) as [H1 H2]. by split_and!. Qed.

Lemma buildable_nonempty m d fs :
  buildable m d fs -> (0 < List.length (encode_all m (enc_fields 9 (child_descs d) fs)))%nat.
Proof.
  intros Hb. destruct (buildable_ne m d fs Hb) as [_ Hne].
  pose proof (encode_all_length m (enc_fields 9 (child_descs d) fs)).
  destruct (enc_fields 9 (child_descs d) fs); [done|]. simpl List.length at 1 in H. lia.
Qed.

(** C15: for every message type of the protocol, a message whose values fit the
    descriptor of its type is built, and a packet made of a header of that type
    with a TEID followed by the bytes built parses to the header, with the TEID in
    host order, and to the same values; [payload] is left after the header, and
    the pool of TLV nodes is whole after both. *)
Theorem gtp_message_roundtrip alloc g d blk hd pre post p avail :
  gtp_buildable g d ->
  let ts := enc_fields 9 (child_descs d) (msg g) in
  let bs := encode_all T1_L2_I1 ts in
  let mem := pre ++ header_bytes hd ++ bs ++ post in
  alloc (Z.of_nat (List.length bs)) = Some blk -> (List.length bs <= List.length blk)%nat ->
  (count_nodes ts <= avail)%nat ->
  header_inw hd -> teid_presence (flags hd) = true -> h_type hd = h_type (h g) ->
  Pkbuf.payload p = Z.of_nat (List.length pre) ->
  Pkbuf.len p = 12 + Z.of_nat (List.length bs) -> inw 16 (Pkbuf.len p) ->
  exists fs1 fs2 p',
    gtp_build_msg alloc g avail = (CORE_OK, bs, mkMessage (h g) fs1, avail) /\
    gtp_parse_msg p mem avail =
      (true, mkMessage (mkHeader (flags hd) (h_type hd) (h_length hd) (bswap32 (teid hd)) (sqn hd)) fs2,
       p', avail) /\
    clean_fields fs2 = clean_fields (msg g) /\
    Pkbuf.payload p' = Pkbuf.payload p + 12 /\ Pkbuf.len p' = Z.of_nat (List.length bs).
Proof.
  intros Hg ts bs mem Hblk Hle Hav Hhd Htp Hty Hpay Hlen Hinw.
  pose proof (gtp_buildable_ok g d Hg) as Hb. destruct Hg as (Hc & _).
  destruct (tlv_build_msg_ok alloc T1_L2_I1 d (msg g) avail blk Hb Hblk Hle Hav) as [fs1 H1].
  destruct (tlv_parse_msg_ok T1_L2_I1 d (msg g) post avail Hb Hav) as (fs2 & H2 & H3).
  fold ts bs in H1, H2.
  assert (rd mem (Pkbuf.payload p) = flags hd) as Hf.
  { unfold mem. rewrite (rd_app_shift _ _ _ 0) by lia. done. }
  assert (Pkbuf.pkbuf_header p (- 12) = (true, Pkbuf.mkPkbuf (Pkbuf.next p) (Pkbuf.clbuf p)
    (Pkbuf.payload p + 12) (u16 (Pkbuf.tot_len p + - 12)) (Z.of_nat (List.length bs)) (Pkbuf.flags p))) as Hp.
  { unfold Pkbuf.pkbuf_header. rewrite !decide_False by lia. unfold inw in Hinw.
    rewrite (u16_id (Pkbuf.len p + _)) by (unfold inw; lia). do 2 f_equal; lia. }
  eexists fs1, fs2, _. split; [unfold gtp_build_msg; by rewrite Hc, H1|].
  split; [|split; [exact H3|]].
  - unfold gtp_parse_msg. rewrite Hf, Htp. cbv iota zeta.
    change (- GTPV2C_HEADER_LEN) with (-12).
    change GTPV2C_HEADER_LEN with 12. rewrite Hp. cbv iota beta zeta. cbn [negb Pkbuf.payload Pkbuf.len].
    replace (Pkbuf.payload p + 12 - 12) with (Z.of_nat (List.length pre)) by lia.
    assert (get mem (Z.of_nat (List.length pre)) 12 = header_bytes hd) as -> by (by apply get_app).
    rewrite header_of_bytes by done. rewrite Htp. cbn [h_type].
    change gtp_parse_cases with gtp_build_cases. rewrite Hty, Hc.
    assert (0 < List.length bs)%nat by exact (buildable_nonempty _ _ _ Hb). rewrite decide_False by lia.
    assert (drop (Z.to_nat (Pkbuf.payload p + 12)) mem = bs ++ post) as ->.
    { rewrite Hpay. replace (Z.to_nat _) with (List.length pre + 12)%nat by lia.
      unfold mem. by rewrite drop_app_add. }
    rewrite H2. by rewrite <- Hty.
  - cbn [Pkbuf.payload Pkbuf.len]. done.
Qed.

(** An echo request with a recovery counter, and a delete session request. *)
Definition set_field (fs : fields) (k : nat) (v : value) : fields := <[k := [(1, v)]]> fs.
Definition sample_header : gtp_header := mkHeader 0x48 GTP_DELETE_SESSION_REQUEST_TYPE 0x1100 0x01000000 0x00010000.
Definition sample_msg : fields :=
  set_field (blank_fields 9 (child_descs tlv_desc_delete_session_request)) 1 (VInt 5).

Lemma gtp_message_roundtrip_witness :
  exists fs1 fs2 p',
    gtp_build_msg (fun _ => Some (replicate 32 0)) (mkMessage sample_header sample_msg) 100 =
      (CORE_OK, [73; 0; 1; 0; 5], mkMessage sample_header fs1, 100%nat) /\
    gtp_parse_msg (Pkbuf.mkPkbuf None 0 2 17 17 0) ([7; 7] ++ header_bytes sample_header ++ [73; 0; 1; 0; 5] ++ [8]) 100 =
      (true, mkMessage (mkHeader 0x48 36 0x1100 1 0x00010000) fs2, p', 100%nat) /\
    clean_fields fs2 = clean_fields sample_msg /\ Pkbuf.payload p' = 14 /\ Pkbuf.len p' = 5.
Proof.
  apply (gtp_message_roundtrip (fun _ => Some (replicate 32 0)) (mkMessage sample_header sample_msg)
    tlv_desc_delete_session_request (replicate 32 0) sample_header [7; 7] [8]
    (Pkbuf.mkPkbuf None 0 2 17 17 0) 100);
    by_decide || (split_and!; by vm_compute).
Defined.

(** Whatever the bytes of a packet, [gtp_parse_msg] gives back every TLV node it
    took, leaves the packet alone or moves [payload] past the header it announces,
    and never reports success for a type that has no descriptor unless the packet
    ends with the header. *)
Theorem gtp_parse_any p mem avail :
  let size := if teid_presence (rd mem (Pkbuf.payload p)) then 12 else 8 in
  match gtp_parse_msg p mem avail with
  | (ok, g, p', avail') =>
      avail' = avail /\
      (if decide (Pkbuf.len p < size) then ok = false /\ p' = p
       else Pkbuf.payload p' = Pkbuf.payload p + size /\ Pkbuf.len p' = u16 (Pkbuf.len p - size)) /\
      (ok = true -> Pkbuf.len p' <> 0 -> exists d, In (h_type (h g), d) gtp_parse_cases)
  end.
Proof.
  intros size. unfold gtp_parse_msg. unfold GTPV2C_HEADER_LEN, GTP_TEID_LEN.
  change (12 - 4) with 8. fold size. assert (0 < size) by (unfold size; by destruct teid_presence).
  unfold Pkbuf.pkbuf_header. rewrite (decide_False (P := - size = 0)) by lia.
  rewrite (decide_False (P := 0 < - size /\ _)) by lia.
  destruct (decide (Pkbuf.len p < size)).
  { rewrite decide_True by lia. cbn [negb]. by split_and!. }
  rewrite decide_False by lia. cbn [negb Pkbuf.payload Pkbuf.len].
  replace (Pkbuf.payload p - - size) with (Pkbuf.payload p + size) by lia.
  set (h0 := header_of _). set (h1 := if teid_presence (flags h0) then _ else h0).
  change (Pkbuf.len p + - size) with (Pkbuf.len p - size).
  destruct (decide (u16 (Pkbuf.len p - size) = 0)) as [E|E]; [by split_and!; cbn|].
  destruct (case_of gtp_parse_cases (h_type h1)) as [d|] eqn:Hc; [|by split_and!].
  pose proof (tlv_parse_msg_pool T1_L2_I1 d (blank_fields 9 (child_descs d)) (u16 (Pkbuf.len p - size))
    (drop (Z.to_nat (Pkbuf.payload p + size)) mem) avail) as Hp.
  destruct (tlv_parse_msg _ _ _ _ _ _) as [[ok fs] avail'].
  cbn [snd] in Hp. split_and!; try done. intros _ _. exists d. by apply case_of_In.
Qed.

End GtpMessageSpec.
