(* ===== verification/GtpTypesSpec.v ===== *)
(** What comes out of [GtpTypes]: the location of a user and the QoS of a bearer come
    back from their octets, nothing else is accepted, and a traffic flow template says
    what the packet filters say, read as TS 24.008 tells. *)

From S2P Require Import Prelude Pkbuf Misc Types3gpp TlvMsgRoundtrip GtpTypes.

Module GtpTypesSpec.
Import Misc Areas TlvMsgRoundtrip GtpTypes.

(** ** User location *)

Definition present (u : gtp_uli_t) (p : part) : bool := Z.testbit (uli_flags u) (bit p).
Definition sent (ps : list part) (u : gtp_uli_t) : list Z :=
  concat (map (fun p => if present u p then octets p u else []) ps).
Definition uli_octets (u : gtp_uli_t) : list Z := uli_flags u :: sent parts u.

Definition plmn_ok (l : list Z) : Prop := bytes l /\ length l = 3%nat.
Definition area_ok (a : area) : Prop := plmn_ok (area_plmn a) /\ inw 16 (area_lac a) /\ inw 16 (area_code a).
Definition uli_ok (u : gtp_uli_t) : Prop :=
  area_ok (cgi u) /\ area_ok (sai u) /\ area_ok (rai u) /\
  (plmn_ok (plmn_id (uli_tai u)) /\ inw 16 (tac (uli_tai u))) /\
  (plmn_ok (cgi_plmn_id (uli_e_cgi u)) /\ inw 32 (cell_id (uli_e_cgi u))) /\
  (plmn_ok (lai_plmn (lai u)) /\ inw 16 (lai_lac (lai u))).

(** The structure without the parts whose flag is not set. *)
Definition masked (u : gtp_uli_t) : gtp_uli_t :=
  let z := zero_uli 0 in
  let f := uli_flags u in
  mkUli f (if Z.testbit f 0 then cgi u else cgi z) (if Z.testbit f 1 then sai u else sai z)
    (if Z.testbit f 2 then rai u else rai z) (if Z.testbit f 3 then uli_tai u else uli_tai z)
    (if Z.testbit f 4 then uli_e_cgi u else uli_e_cgi z) (if Z.testbit f 5 then lai u else lai z).

(** What a part promises: it is stored where it is read from, and nowhere else. *)
Definition keeps (p q : part) : Prop :=
  (forall l u, octets p (set q l u) = octets p u) /\ (forall l u, octets q (set p l u) = octets q u).
Record part_ok (p : part) : Prop := mkPartOk {
  po_size : forall u, uli_ok u -> length (octets p u) = psize p;
  po_flags : forall l u, uli_flags (set p l u) = uli_flags u;
  po_set : forall l u, bytes l -> length l = psize p -> octets p (set p l u) = l
}.

Lemma parts_ok : Forall part_ok parts.
Proof.
  assert (forall l i n, bytes l -> (i + n <= length l)%nat ->
    to_be n (be (take n (drop i l))) = take n (drop i l)) as T.
  { intros l i n Hb Hl. apply to_be_length; [by apply Forall_take, Forall_drop|].
    rewrite length_take, length_drop. lia. }
  unfold parts. repeat (apply Forall_cons; split); [..|by apply Forall_nil]; constructor; cbn [octets set psize]; try done;
    try (intros u (? & ? & ? & ? & ? & ?); unfold area_ok, plmn_ok in *;
         unfold area_octets, tai_octets, e_cgi_octets, lai_octets; rewrite !length_app, !length_to_be; lia);
    intros l u Hb Hl; unfold area_octets, tai_octets, e_cgi_octets, lai_octets, area_of, tai_of, e_cgi_of, lai_of;
    cbn [cgi sai rai uli_tai uli_e_cgi lai area_plmn area_lac area_code plmn_id tac cgi_plmn_id cell_id lai_plmn lai_lac];
    rewrite !T by (done || lia); do 8 (destruct l as [|? l]; try done).
Qed.

Lemma parts_apart : ForallOrdPairs keeps parts.
Proof. repeat constructor. Qed.

(** *** Building *)

Lemma sent_cons p ps u : sent (p :: ps) u = (if present u p then octets p u else []) ++ sent ps u.
Proof. done. Qed.

Lemma build_parts_ok ps u pre rest :
  Forall part_ok ps -> uli_ok u -> (length (sent ps u) <= length rest)%nat ->
  build_parts ps u (pre ++ rest) (Z.of_nat (length (pre ++ rest))) (Z.of_nat (length pre)) =
    Some (Z.of_nat (length (pre ++ sent ps u)), pre ++ sent ps u ++ drop (length (sent ps u)) rest).
Proof.
  intros Hp Hu. revert pre rest. induction Hp as [|p ps Hp Hps IH]; intros pre rest Hl.
  { cbn. by rewrite app_nil_r. }
  rewrite sent_cons in *. cbn [build_parts]. unfold present in *. destruct (Z.testbit _ _); [|exact (IH pre rest Hl)].
  rewrite <- (po_size p Hp u Hu). rewrite length_app in Hl. set (o := octets p u) in *.
  rewrite decide_True by (rewrite length_app; lia).
  rewrite <- (take_drop (length o) rest) at 1. rewrite Nat2Z.id, store_app by (rewrite length_take; lia).
  cbn [mbind option_bind]. rewrite (assoc_L (++)).
  replace (Z.of_nat (length (pre ++ rest))) with
    (Z.of_nat (length ((pre ++ o) ++ drop (length o) rest))) by (rewrite !length_app, length_drop; lia).
  replace (Z.of_nat (length pre) + Z.of_nat (length o)) with (Z.of_nat (length (pre ++ o)))
    by (rewrite length_app; lia).
  rewrite IH by (rewrite length_drop; lia). rewrite drop_drop, (length_app o), <- !(assoc_L (++)). done.
Qed.

Lemma build_parts_short ps u pre rest :
  Forall part_ok ps -> uli_ok u -> (length rest < length (sent ps u))%nat ->
  exists data, build_parts ps u (pre ++ rest) (Z.of_nat (length (pre ++ rest))) (Z.of_nat (length pre)) =
    Some (-1, data).
Proof.
  intros Hp Hu. revert pre rest. induction Hp as [|p ps Hp Hps IH]; intros pre rest Hl.
  { cbn in Hl. lia. }
  rewrite sent_cons in Hl. cbn [build_parts]. unfold present in *. destruct (Z.testbit _ _); [|exact (IH pre rest Hl)].
  rewrite <- (po_size p Hp u Hu). rewrite length_app in Hl. set (o := octets p u) in *.
  case_decide as Hf; [|by eexists]. rewrite length_app in Hf.
  rewrite <- (take_drop (length o) rest). rewrite Nat2Z.id, store_app by (rewrite length_take; lia).
  cbn [mbind option_bind]. rewrite (assoc_L (++)).
  replace (Z.of_nat (length (pre ++ take (length o) rest ++ drop (length o) rest))) with
    (Z.of_nat (length ((pre ++ o) ++ drop (length o) rest)))
    by (rewrite !length_app, length_take, length_drop; lia).
  replace (Z.of_nat (length pre) + Z.of_nat (length o)) with (Z.of_nat (length (pre ++ o)))
    by (rewrite length_app; lia).
  apply IH. rewrite length_drop. lia.
Qed.

(** *** Reading what was built *)

Definition received (ps : list part) (u v : gtp_uli_t) : gtp_uli_t :=
  foldl (fun v p => if present u p then set p (octets p u) v else v) v ps.

Lemma parse_parts_ok ps u v pre rest :
  Forall part_ok ps -> uli_ok u -> uli_flags v = uli_flags u ->
  parse_parts ps (pre ++ sent ps u ++ rest) (Z.of_nat (length (pre ++ sent ps u))) (Z.of_nat (length pre)) v =
    Some (Z.of_nat (length (pre ++ sent ps u)), received ps u v).
Proof.
  intros Hp Hu. revert v pre. induction Hp as [|p ps Hp Hps IH]; intros v pre Hv.
  { cbn. by rewrite app_nil_r, decide_True. }
  cbn [parse_parts received foldl]. rewrite sent_cons, Hv. fold (present u p).
  destruct (present u p); [|exact (IH v pre Hv)].
  rewrite <- (po_size p Hp u Hu). set (o := octets p u) in *. rewrite decide_True by (rewrite !length_app; lia).
  rewrite Nat2Z.id, <- (assoc_L (++) o), load_app by done. cbn [mbind option_bind].
  rewrite !(assoc_L (++) pre).
  replace (Z.of_nat (length pre) + Z.of_nat (length o)) with (Z.of_nat (length (pre ++ o)))
    by (rewrite length_app; lia).
  apply IH. by rewrite po_flags.
Qed.

Lemma area_back a : area_ok a -> area_of (area_octets a) = a.
Proof.
  destruct a as [p l c]. intros ([Hb Hp] & Hl & Hc). cbn in *.
  do 3 (destruct p as [|? p]; [done|]). destruct p; [|done].
  unfold area_of, area_octets. cbn [area_plmn area_lac area_code app take].
  replace (drop 3 _) with (to_be 2 l ++ to_be 2 c) by done.
  replace (drop 5 _) with (to_be 2 c) by done.
  rewrite take_app_length', take_ge by (rewrite length_to_be; lia). by rewrite !be_to_be_small.
Qed.

Lemma pair_back (p : list Z) n z : plmn_ok p -> inw (8 * Z.of_nat n) z ->
  take 3 (p ++ to_be n z) = p /\ be (take n (drop 3 (p ++ to_be n z))) = z.
Proof.
  intros [_ Hp] Hz. rewrite take_app_length', drop_app_length' by lia.
  rewrite take_ge by (rewrite length_to_be; lia). by rewrite be_to_be_small.
Qed.

Lemma received_cons p ps u v :
  received (p :: ps) u v = received ps u (if present u p then set p (octets p u) v else v).
Proof. done. Qed.

Lemma if_uli (b : bool) f c s r t e l c' s' r' t' e' l' :
  (if b then mkUli f c s r t e l else mkUli f c' s' r' t' e' l') =
  mkUli f (if b then c else c') (if b then s else s') (if b then r else r') (if b then t else t')
    (if b then e else e') (if b then l else l').
Proof. by destruct b. Qed.

Lemma if_same {A} (b : bool) (x : A) : (if b then x else x) = x.
Proof. by destruct b. Qed.

Lemma received_masked u : uli_ok u -> received parts u (zero_uli (uli_flags u)) = masked u.
Proof.
  intros (Hc & Hs & Hr & [Ht Ht'] & [He He'] & [Hl Hl']). unfold parts, zero_uli.
  do 6 (rewrite received_cons; unfold present;
        cbn [bit set octets uli_flags cgi sai rai uli_tai uli_e_cgi lai]; rewrite if_uli, !if_same).
  rewrite !area_back by done. unfold tai_of, tai_octets, e_cgi_of, e_cgi_octets, lai_of, lai_octets.
  destruct (pair_back _ 2 _ Ht Ht') as [-> ->]. destruct (pair_back _ 4 _ He He') as [-> ->].
  destruct (pair_back _ 2 _ Hl Hl') as [-> ->].
  destruct u as [f c s r [] [] []]. done.
Qed.

(** *** Whatever is read *)

Lemma parse_parts_any ps data len size u :
  Forall part_ok ps -> ForallOrdPairs keeps ps -> bytes data ->
  0 <= size <= len -> len <= Z.of_nat (length data) ->
  exists n v, parse_parts ps data len size u = Some (n, v) /\ uli_flags v = uli_flags u /\
    (forall q, Forall (keeps q) ps -> octets q v = octets q u) /\
    (n = -1 \/ n = len /\ take (Z.to_nat (len - size)) (drop (Z.to_nat size) data) = sent ps v).
Proof.
  intros Hp Hk Hb. revert size u. induction Hk as [|p ps Hpk Hk IH]; intros size u Hs Hl.
  { eexists _, _. split_and!; [done|done|done|]. case_decide; [right|by left].
    subst. by rewrite Z.sub_diag. }
  apply Forall_cons in Hp as [Hp Hps]. cbn [parse_parts].
  destruct (Z.testbit (uli_flags u) (bit p)) eqn:Ht.
  - case_decide as Hn; [|by eexists (-1), u; split_and!; [..|left]].
    unfold load. rewrite decide_True by lia. cbn [mbind option_bind].
    set (l := take (psize p) (drop (Z.to_nat size) data)).
    assert (length l = psize p) as Hll by (unfold l; rewrite length_take, length_drop; lia).
    assert (bytes l) as Hbl by by apply Forall_take, Forall_drop.
    specialize (IH Hps (size + Z.of_nat (psize p)) (set p l u) ltac:(lia) ltac:(lia)) as (n & v & Hv & Hf & Hq & Hr).
    rewrite (po_flags p Hp) in Hf. exists n, v. split_and!; [done|done|..].
    + intros q Hkq. apply Forall_cons in Hkq as [Hkp Hkq]. by rewrite Hq, (proj1 Hkp).
    + destruct Hr as [?|[-> Hr]]; [by left|right]. split; [done|].
      rewrite sent_cons. unfold present. rewrite Hf, Ht, Hq, (po_set p Hp), <- Hr by done.
      replace (Z.to_nat (len - size)) with (psize p + Z.to_nat (len - (size + Z.of_nat (psize p))))%nat by lia.
      rewrite Z2Nat.inj_add, Nat2Z.id, <- drop_drop by lia. unfold l. by rewrite take_take_drop.
  - destruct (IH Hps size u Hs Hl) as (n & v & Hv & Hf & Hq & Hr). exists n, v. split_and!; [done|done|..].
    + intros q Hkq. apply Forall_cons in Hkq as [_ Hkq]. by apply Hq.
    + destruct Hr as [?|[-> Hr]]; [by left|right]. split; [done|].
      rewrite sent_cons. unfold present. by rewrite Hf, Ht.
Qed.

(** C33: user location information.  What is built of a structure, when it fits the
    buffer, is its flags and the parts whose flag is set, and parsing these octets gives
    back the structure without the other parts; when it does not fit, the function
    fails.  Parsing an element of at least one octet never reads past it, and it either
    fails or has read exactly the octets of the structure it gives. *)
Theorem uli_codec u data rest :
  uli_ok u -> (0 < length data)%nat ->
  let n := length (uli_octets u) in
  (if decide (n <= length data)%nat
   then gtp_build_uli u data (Z.of_nat (length data)) = Some (Z.of_nat n, uli_octets u ++ drop n data)
   else exists data', gtp_build_uli u data (Z.of_nat (length data)) = Some (-1, data')) /\
  gtp_parse_uli (uli_octets u ++ rest) (Z.of_nat n) = Some (Z.of_nat n, masked u) /\
  forall l len, bytes l -> 1 <= len <= Z.of_nat (length l) ->
    exists size v, gtp_parse_uli l len = Some (size, v) /\
      (size = -1 \/ size = len /\ take (Z.to_nat len) l = uli_octets v).
Proof.
  intros Hu Hd n. pose proof parts_ok as Hp. subst n. unfold uli_octets. cbn [length].
  destruct data as [|x data]; [cbn in Hd; lia|]. split_and!.
  - assert (gtp_build_uli u (x :: data) (Z.of_nat (length (x :: data))) =
      build_parts parts u ([uli_flags u] ++ data) (Z.of_nat (length ([uli_flags u] ++ data))) 1) as ->.
    { unfold gtp_build_uli. rewrite decide_False, decide_True by (cbn [length]; lia).
      by rewrite (store_app [] [x] data [uli_flags u] eq_refl : store (x :: data) 0 [_] = _). }
    case_decide as Hf; cbn [length] in Hf.
    + exact (build_parts_ok parts u [uli_flags u] data Hp Hu ltac:(lia)).
    + apply (build_parts_short parts u [uli_flags u] data Hp Hu). lia.
  - unfold gtp_parse_uli. cbn [app lookup list_lookup mbind option_bind].
    rewrite <- received_masked by done.
    exact (parse_parts_ok parts u (zero_uli (uli_flags u)) [uli_flags u] rest Hp Hu eq_refl).
  - intros [|f l] len Hb Hl; [cbn in Hl; lia|]. unfold gtp_parse_uli. cbn [lookup list_lookup mbind option_bind].
    destruct (parse_parts_any parts (f :: l) len 1 (zero_uli f) Hp parts_apart Hb) as (n & v & E & Hf & _ & Hr);
      [lia|lia|]. exists n, v. split; [exact E|]. destruct Hr as [?|[-> Hr]]; [by left|right]. split; [done|].
    rewrite Hf. cbn [uli_flags zero_uli]. rewrite <- Hr. change (Z.to_nat 1) with 1%nat. cbn [drop].
    replace (Z.to_nat len) with (S (Z.to_nat (len - 1))) by lia. done.
Qed.

Definition sample_uli : gtp_uli_t :=
  mkUli 0x18 zero_area zero_area zero_area (mkTai [0; 0xf1; 0x10] 12345) (mkEcgi [0; 0xf1; 0x10] 0x19b01)
    (mkLai [0; 0; 0] 0).

Lemma uli_codec_witness :
  let n := length (uli_octets sample_uli) in
  gtp_build_uli sample_uli (replicate 20 0) 20 = Some (Z.of_nat n, uli_octets sample_uli ++ replicate 7 0) /\
  gtp_parse_uli (uli_octets sample_uli ++ [0xff]) (Z.of_nat n) = Some (Z.of_nat n, masked sample_uli).
Proof.
  assert (uli_ok sample_uli) as H.
  { unfold uli_ok, area_ok, plmn_ok, inw. split_and!; try (by vm_compute); by_decide. }
  destruct (uli_codec sample_uli (replicate 20 0) [0xff] H ltac:(vm_compute; lia)) as (A & B & _).
  split; [exact A|exact B].
Defined.

(** ** Bearer QoS *)

Lemma put_rates q data : (22 <= length data)%nat ->
  gtp_build_bearer_qos q data (Z.of_nat (length data)) =
    Some (22, [qos_flags q; qos_qci q] ++ to_be 5 (ul_mbr q) ++ to_be 5 (dl_mbr q) ++ to_be 5 (ul_gbr q) ++
               to_be 5 (dl_gbr q) ++ drop 22 data).
Proof.
  intros Hl. unfold gtp_build_bearer_qos, put_rate, GTP_BEARER_QOS_LEN. rewrite decide_False by lia.
  do 22 (destruct data as [|? data]; [cbn in Hl; lia|]). clear Hl.
  rewrite !uint64_to_buffer_be by done. reflexivity.
Qed.

(** The bits that have a meaning. *)
Lemma flags_kept f : inw 8 f ->
  (pre_emption_capability f << 6) .| (priority_level f << 2) .| pre_emption_vulnerability f = f .& 0x7d.
Proof. revert f. refine (bytes_forall _ _). vm_compute. reflexivity. Qed.

Lemma rate_back pre z post : inw 40 z -> rate (pre ++ to_be 5 z ++ post) (length pre) = Some z.
Proof.
  intros Hz. unfold rate. rewrite load_app by done. cbn [mbind option_bind].
  rewrite buffer_to_uint64_be by first [apply to_be_bytes | by rewrite length_to_be | lia].
  by rewrite be_to_be_small.
Qed.

Lemma bearer_qos_roundtrip q data :
  inw 8 (qos_flags q) -> inw 40 (ul_mbr q) -> inw 40 (dl_mbr q) -> inw 40 (ul_gbr q) -> inw 40 (dl_gbr q) ->
  (22 <= length data)%nat ->
  exists data', gtp_build_bearer_qos q data (Z.of_nat (length data)) = Some (22, data') /\
    gtp_parse_bearer_qos data' 22 =
      Some (22, Some (mkQos (qos_flags q .& 0x7d) (qos_qci q) (ul_mbr q) (dl_mbr q) (ul_gbr q) (dl_gbr q))).
Proof.
  intros Hf H1 H2 H3 H4 Hl. rewrite put_rates by done. eexists. split; [done|].
  set (data' := _ ++ _). set (u := to_be 5 (ul_mbr q)). set (d := to_be 5 (dl_mbr q)).
  set (g := to_be 5 (ul_gbr q)). set (e := to_be 5 (dl_gbr q)). set (r := drop 22 data).
  set (h := [qos_flags q; qos_qci q]).
  assert (rate data' 2 = Some (ul_mbr q)) as E1 by exact (rate_back h _ (d ++ g ++ e ++ r) H1).
  assert (rate data' 7 = Some (dl_mbr q)) as E2 by exact (rate_back (h ++ u) _ (g ++ e ++ r) H2).
  assert (rate data' 12 = Some (ul_gbr q)) as E3 by exact (rate_back (h ++ u ++ d) _ (e ++ r) H3).
  assert (rate data' 17 = Some (dl_gbr q)) as E4 by exact (rate_back (h ++ u ++ d ++ g) _ r H4).
  assert (data' !! 0%nat = Some (qos_flags q)) as E5 by done.
  assert (data' !! 1%nat = Some (qos_qci q)) as E6 by done. clearbody data'.
  unfold gtp_parse_bearer_qos. rewrite decide_False by (unfold GTP_BEARER_QOS_LEN; lia).
  rewrite E5. cbn [mbind option_bind]. rewrite E6, E1, E2, E3, E4, flags_kept by done. done.
Qed.

(** ** Traffic flow templates *)

(** What TS 24.008 10.5.6.12 lets a template say: a filter has a direction, an
    identifier, a precedence and criteria. *)
Inductive criterion :=
  | Protocol (p : Z)
  | V4 (remote : bool) (addr mask : list Z)
  | V6 (remote : bool) (addr : list Z) (prefix : Z)
  | Port (remote : bool) (p : Z)
  | PortRange (remote : bool) (low high : Z).

Record described := mkDescribed {
  d_direction : Z; d_identifier : Z; d_precedence : Z; d_criteria : list criterion }.

(** A reader of the octets of a template. *)
Definition get (n : nat) (l : list Z) : option (list Z * list Z) :=
  if decide (n <= length l)%nat then Some (take n l, drop n l) else None.

Definition read_criterion (l : list Z) : option (criterion * list Z) :=
  '(t, l) ← get 1 l;
  match t with
  | [0x30] => '(p, l) ← get 1 l; Some (Protocol (be p), l)
  | [0x10] => '(a, l) ← get 4 l; '(m, l) ← get 4 l; Some (V4 true a m, l)
  | [0x11] => '(a, l) ← get 4 l; '(m, l) ← get 4 l; Some (V4 false a m, l)
  | [0x21] => '(a, l) ← get 16 l; '(n, l) ← get 1 l; Some (V6 true a (be n), l)
  | [0x23] => '(a, l) ← get 16 l; '(n, l) ← get 1 l; Some (V6 false a (be n), l)
  | [0x40] => '(p, l) ← get 2 l; Some (Port false (be p), l)
  | [0x50] => '(p, l) ← get 2 l; Some (Port true (be p), l)
  | [0x41] => '(p, l) ← get 2 l; '(q, l) ← get 2 l; Some (PortRange false (be p) (be q), l)
  | [0x51] => '(p, l) ← get 2 l; '(q, l) ← get 2 l; Some (PortRange true (be p) (be q), l)
  | _ => None
  end.

Fixpoint read_criteria (fuel : nat) (l : list Z) : option (list criterion) :=
  match fuel, l with
  | _, [] => Some []
  | O, _ => None
  | S fuel, _ => '(c, l) ← read_criterion l; cs ← read_criteria fuel l; Some (c :: cs)
  end.

Fixpoint read_filters (n : nat) (l : list Z) : option (list described) :=
  match n with
  | O => if decide (l = []) then Some [] else None
  | S n =>
      match l with
      | flags :: prec :: len :: l =>
          '(x, l) ← get (Z.to_nat len) l;
          cs ← read_criteria (length x) x;
          fs ← read_filters n l;
          Some (mkDescribed ((flags >> 4) .& 3) (flags .& 0xf) prec cs :: fs)
      | _ => None
      end
  end.

(** A new template without parameters: operation code 1, no E bit. *)
Definition read_tft (l : list Z) : option (list described) :=
  match l with
  | flags :: l => if decide (flags >> 4 = 2) then read_filters (Z.to_nat (flags .& 0xf)) l else None
  | [] => None
  end.

(** What the rule of a packet filter says. *)
Fixpoint ones (n : nat) (z : Z) : Z :=
  match n with O => 0 | S n => (z .& 1) + ones n (z >> 1) end.
Definition prefix_length (mask : list Z) : Z := foldr (fun o n => ones 8 o + n) 0 mask.

Definition port_criteria (remote : bool) (low high : Z) : list criterion :=
  if decide (low = 0) then [] else if decide (low = high) then [Port remote low] else [PortRange remote low high].

Definition criteria_of (r : pgw_rule_t) : list criterion :=
  (if decide (proto r = 0) then [] else [Protocol (proto r)]) ++
  (if ipv4_local r then [V4 false (take 4 (local_addr r)) (take 4 (local_mask r))] else []) ++
  (if ipv4_remote r then [V4 true (take 4 (remote_addr r)) (take 4 (remote_mask r))] else []) ++
  (if ipv6_local r then [V6 false (local_addr r) (prefix_length (local_mask r))] else []) ++
  (if ipv6_remote r then [V6 true (remote_addr r) (prefix_length (remote_mask r))] else []) ++
  port_criteria false (local_low r) (local_high r) ++
  port_criteria true (remote_low r) (remote_high r).

Definition describe (i : nat) (x : packet_filter) : described :=
  mkDescribed (direction x) (identifier x - 1) (Z.of_nat i + 1) (criteria_of (rule x)).

(** The octets they need. *)
Definition criterion_size (c : criterion) : nat :=
  match c with Protocol _ => 2 | V4 _ _ _ => 9 | V6 _ _ _ => 18 | Port _ _ => 3 | PortRange _ _ _ => 5 end.
Definition filter_size (x : packet_filter) : nat := 3 + sum_list (map criterion_size (criteria_of (rule x))).
Definition tft_size (l : list packet_filter) : nat := 1 + sum_list (map filter_size l).

(** Addresses of sixteen octets, masks of a network, numbers of their width. *)
Definition prefix_mask (n : nat) : list Z :=
  map (fun i => 0xff - (0xff >> Z.of_nat (Nat.min 8 (n - 8 * i)))) (seq 0 16).
Definition side_ok (v6 : bool) (addr mask : list Z) (low high : Z) : Prop :=
  bytes addr /\ length addr = 16%nat /\ bytes mask /\ length mask = 16%nat /\
  (v6 = true -> exists n, (n <= 128)%nat /\ mask = prefix_mask n) /\ inw 16 low /\ inw 16 high.
Definition rule_ok (r : pgw_rule_t) : Prop :=
  inw 8 (proto r) /\ side_ok (ipv6_local r) (local_addr r) (local_mask r) (local_low r) (local_high r) /\
  side_ok (ipv6_remote r) (remote_addr r) (remote_mask r) (remote_low r) (remote_high r).
Definition pf_ok (x : packet_filter) : Prop :=
  rule_ok (rule x) /\ inw 2 (direction x) /\ 1 <= identifier x <= 15.

(** *** Storing *)

(** [f] stores [o] after what is in the buffer, or fails when there is no room. *)
Definition Puts (f : list Z -> Z -> Z -> option (Z * list Z)) (o : list Z) : Prop :=
  forall pre rest, inw 16 (Z.of_nat (length (pre ++ rest))) ->
    let n := Z.of_nat (length (pre ++ rest)) in
    if decide (length o <= length rest)%nat
    then f (pre ++ rest) n (Z.of_nat (length pre)) =
           Some (Z.of_nat (length (pre ++ o)), pre ++ o ++ drop (length o) rest)
    else exists data, f (pre ++ rest) n (Z.of_nat (length pre)) = Some (-1, data).

Lemma puts_nil : Puts (fun data _ size => Some (size, data)) [].
Proof. intros pre rest _. cbn. by rewrite app_nil_r. Qed.

Lemma puts_app f g o p : Puts f o -> Puts g p ->
  Puts (fun data n size => '(size, data) ← f data n size;
          if decide (size = -1) then Some (-1, data) else g data n size) (o ++ p).
Proof.
  intros Hf Hg pre rest Hn n. specialize (Hf pre rest Hn). cbn zeta in Hf. fold n in Hf.
  case_decide as Ho; cycle 1.
  { rewrite decide_False by (rewrite length_app; lia). destruct Hf as [data ->]. by exists data. }
  rewrite Hf. cbn [mbind option_bind]. rewrite (decide_False (P := Z.of_nat _ = -1)) by lia. rewrite (assoc_L (++)).
  assert (length (pre ++ rest) = length ((pre ++ o) ++ drop (length o) rest)) as El
    by (rewrite !length_app, length_drop; lia).
  specialize (Hg (pre ++ o) (drop (length o) rest) ltac:(by rewrite <- El)). cbn zeta in Hg. rewrite <- El in Hg. fold n in Hg.
  rewrite length_drop in Hg. rewrite length_app.
  case_decide as Hp; [rewrite decide_True by lia|rewrite decide_False by lia; exact Hg].
  rewrite Hg, drop_drop, <- !(assoc_L (++)). done.
Qed.

Lemma store_prefix pre rest x : (length x <= length rest)%nat ->
  store (pre ++ rest) (length pre) x = Some (pre ++ x ++ drop (length x) rest).
Proof. intros. rewrite <- (take_drop (length x) rest) at 1. by rewrite store_app by (rewrite length_take; lia). Qed.

Lemma puts_pieces l : Puts (put_pieces l) (concat l).
Proof.
  induction l as [|x l IH]; [exact puts_nil|]. intros pre rest Hn n. cbn [put_pieces concat].
  assert (n = Z.of_nat (length pre) + Z.of_nat (length rest)) as En by (unfold n; rewrite length_app; lia).
  rewrite (length_app x). destruct (decide (length x <= length rest)%nat) as [Hx|Hx]; cycle 1.
  { rewrite !decide_False by lia. by eexists. }
  rewrite (decide_True (P := _ <= n)) by lia. rewrite Nat2Z.id, store_prefix by done.
  cbn [mbind option_bind]. rewrite (assoc_L (++) pre), <- Nat2Z.inj_add, u16_id by (unfold inw in *; lia).
  assert (length (pre ++ rest) = length ((pre ++ x) ++ drop (length x) rest)) as El
    by (rewrite !length_app, length_drop; lia).
  specialize (IH (pre ++ x) (drop (length x) rest) ltac:(by rewrite <- El)). cbn zeta in IH.
  rewrite <- El, length_drop, (length_app pre x) in IH. fold n in IH.
  case_decide; [rewrite decide_True by lia|rewrite decide_False by lia; exact IH].
  rewrite IH, drop_drop, <- !(assoc_L (++)). done.
Qed.

Lemma puts_component c l : pieces c = Some l -> Puts (put_component c) (c_type c :: concat l).
Proof.
  intros Hp. unfold put_component. rewrite Hp.
  exact (puts_app _ _ [c_type c] _ (puts_pieces [[c_type c]]) (puts_pieces l)).
Qed.

(** The octets of a component, and of a filter. *)
Definition stored (c : component) : list Z := c_type c :: concat (default [] (pieces c)).
Definition stored_filter (f : tft_filter) : list Z :=
  [filter_flags f; precedence f; content f] ++ concat (map stored (components f)).
Definition known (c : component) : Prop := is_Some (pieces c).

Lemma puts_components l : Forall known l -> Puts (put_components l) (concat (map stored l)).
Proof.
  induction 1 as [|c l [ps Hc] _ IH]; [exact puts_nil|].
  refine (puts_app _ _ (stored c) _ _ IH). unfold stored. rewrite Hc. by apply puts_component.
Qed.

Lemma puts_filters l : Forall (fun f => Forall known (components f)) l ->
  Puts (put_filters l) (concat (map stored_filter l)).
Proof.
  induction 1 as [|f l Hf _ IH]; [exact puts_nil|]. cbn [put_filters map concat]. unfold stored_filter.
  rewrite <- (assoc_L (++)). refine (puts_app _ _ _ _ (puts_pieces [_; _; _]) _).
  exact (puts_app _ _ _ _ (puts_components _ Hf) IH).
Qed.

Lemma build_tft_spec t data :
  Forall (fun f => Forall known (components f)) (pf t) -> num_of_packet_filter t = Z.of_nat (length (pf t)) ->
  (length data = 255)%nat ->
  let o := tft_flags t :: concat (map stored_filter (pf t)) in
  if decide (length o <= 255)%nat
  then gtp_build_tft t data 255 = Some (Z.of_nat (length o), o ++ drop (length o) data)
  else exists data', gtp_build_tft t data 255 = Some (-1, data').
Proof.
  intros Hf Hn Hd o. pose proof (puts_app _ _ [tft_flags t] _ (puts_pieces [[_]]) (puts_filters _ Hf)) as P.
  specialize (P [] data ltac:(cbn [app]; rewrite Hd; done)). cbn [app] in P. cbn zeta in P. rewrite Hd in P. unfold gtp_build_tft.
  rewrite (decide_False (P := 255 < _)) by (unfold GTP_MAX_TRAFFIC_FLOW_TEMPLATE; lia).
  rewrite Hn, Nat2Z.id, (decide_True (P := (_ <= length (pf t))%nat)), take_ge by lia. exact P.
Qed.

(** *** What a rule tells *)

Lemma get_front n a l : length a = n -> get n (a ++ l) = Some (a, l).
Proof. intros <-. unfold get. by rewrite decide_True, take_app_length, drop_app_length by (rewrite length_app; lia). Qed.

Lemma member_union a b n : length b = n -> member (union_of (a ++ b)) (length a) n = b.
Proof. intros <-. unfold member, union_of. by rewrite <- (assoc_L (++)), drop_app_length, take_app_length. Qed.

Lemma member_first a b n : length a = n -> member (union_of (a ++ b)) 0 n = a.
Proof. intros <-. unfold member, union_of. by rewrite drop_0, <- (assoc_L (++)), take_app_length. Qed.

(** A component with its size tells a criterion. *)
Definition tells (x : component * Z) (k : criterion) : Prop :=
  known x.1 /\ x.2 = Z.of_nat (criterion_size k) /\ length (stored x.1) = criterion_size k /\
  forall rest, read_criterion (stored x.1 ++ rest) = Some (k, rest).

Lemma read_type t l : read_criterion (t :: l) =
  match [t] with
  | [0x30] => '(p, l) ← get 1 l; Some (Protocol (be p), l)
  | [0x10] => '(a, l) ← get 4 l; '(m, l) ← get 4 l; Some (V4 true a m, l)
  | [0x11] => '(a, l) ← get 4 l; '(m, l) ← get 4 l; Some (V4 false a m, l)
  | [0x21] => '(a, l) ← get 16 l; '(n, l) ← get 1 l; Some (V6 true a (be n), l)
  | [0x23] => '(a, l) ← get 16 l; '(n, l) ← get 1 l; Some (V6 false a (be n), l)
  | [0x40] => '(p, l) ← get 2 l; Some (Port false (be p), l)
  | [0x50] => '(p, l) ← get 2 l; Some (Port true (be p), l)
  | [0x41] => '(p, l) ← get 2 l; '(q, l) ← get 2 l; Some (PortRange false (be p) (be q), l)
  | [0x51] => '(p, l) ← get 2 l; '(q, l) ← get 2 l; Some (PortRange true (be p) (be q), l)
  | _ => None
  end.
Proof. unfold read_criterion. by rewrite (get_front 1 [t] l eq_refl : get 1 (t :: l) = _). Qed.

(** A type whose pieces are [l], from the octets [o], which the reader reads as [k]. *)
Lemma tells_pieces t l o len k :
  pieces (mkComponent t (union_of o)) = Some l -> concat l = o ->
  len = Z.of_nat (criterion_size k) -> length (t :: o) = criterion_size k ->
  (forall rest, read_criterion (t :: o ++ rest) = Some (k, rest)) ->
  tells (mkComponent t (union_of o), len) k.
Proof.
  intros Hp <- Hl Hs Hr. unfold tells, known, stored. cbn [fst snd]. rewrite Hp. cbn [default from_option id c_type].
  by split_and!.
Qed.

Ltac read_pieces := rewrite read_type, <- ?(assoc_L (++));
  cbv beta iota delta [PROTOCOL_IDENTIFIER_NEXT_HEADER IPV4_REMOTE_ADDRESS IPV4_LOCAL_ADDRESS
    IPV6_REMOTE_ADDRESS_PREFIX_LENGTH IPV6_LOCAL_ADDRESS_PREFIX_LENGTH SINGLE_LOCAL_PORT SINGLE_REMOTE_PORT
    LOCAL_PORT_RANGE REMOTE_PORT_RANGE];
  repeat (rewrite get_front by done; cbn [mbind option_bind]).

Lemma be_one p : be [p] = p.
Proof. cbn. lia. Qed.

Lemma tells_protocol p : inw 8 p ->
  tells (mkComponent PROTOCOL_IDENTIFIER_NEXT_HEADER (union_of [p]), 2) (Protocol p).
Proof.
  intros Hp. apply (tells_pieces _ [[p]]); [done..|]. intros rest. read_pieces. by rewrite be_one.
Qed.

Lemma tells_v4 (remote : bool) a m : length a = 4%nat -> length m = 4%nat ->
  tells (mkComponent (if remote then IPV4_REMOTE_ADDRESS else IPV4_LOCAL_ADDRESS) (union_of (a ++ m)), 9) (V4 remote a m).
Proof.
  intros Ha Hm. pose proof (member_union a m 4 Hm) as E2. rewrite Ha in E2.
  apply (tells_pieces _ [a; m]).
  - transitivity (Some [member (union_of (a ++ m)) 0 4; member (union_of (a ++ m)) 4 4]); [by destruct remote|].
    by rewrite E2, member_first.
  - cbn. by rewrite app_nil_r.
  - done.
  - cbn. rewrite length_app. lia.
  - destruct remote; intros rest; read_pieces; done.
Qed.

Lemma tells_v6 (remote : bool) a n : length a = 16%nat ->
  tells (mkComponent (if remote then IPV6_REMOTE_ADDRESS_PREFIX_LENGTH else IPV6_LOCAL_ADDRESS_PREFIX_LENGTH)
           (union_of (a ++ [n])), 18) (V6 remote a n).
Proof.
  intros Ha. pose proof (member_union a [n] 1 eq_refl) as E. rewrite Ha in E.
  apply (tells_pieces _ [a; [n]]).
  - transitivity (Some [member (union_of (a ++ [n])) 0 16; member (union_of (a ++ [n])) 16 1]); [by destruct remote|].
    by rewrite E, member_first.
  - cbn. done.
  - done.
  - cbn. rewrite length_app. cbn. lia.
  - destruct remote; intros rest; read_pieces; by rewrite be_one.
Qed.

Lemma tells_port (remote : bool) p : inw 16 p ->
  tells (mkComponent (if remote then SINGLE_REMOTE_PORT else SINGLE_LOCAL_PORT) (union_of (le_port p)), 3) (Port remote p).
Proof.
  intros Hp. assert (reverse (le_port p) = to_be 2 p) as E by apply reverse_involutive.
  unfold tells, known, stored. replace (pieces _) with (Some [to_be 2 p]) by (by destruct remote).
  cbn [default from_option id c_type concat fst snd]. split_and!; [done..|].
  rewrite app_nil_r. destruct remote; intros rest; rewrite <- app_comm_cons; read_pieces; by rewrite be_to_be_small.
Qed.

Lemma tells_range (remote : bool) p q : inw 16 p -> inw 16 q ->
  tells (mkComponent (if remote then REMOTE_PORT_RANGE else LOCAL_PORT_RANGE) (union_of (le_port p ++ le_port q)), 5)
    (PortRange remote p q).
Proof.
  intros Hp Hq. unfold tells, known, stored.
  replace (pieces _) with (Some [to_be 2 p; to_be 2 q]) by (by destruct remote).
  cbn [default from_option id c_type concat fst snd]. split_and!; [done..|].
  rewrite app_nil_r. destruct remote; intros rest; rewrite <- app_comm_cons; read_pieces; by rewrite !be_to_be_small.
Qed.

(** A mask of a network: both ways of measuring it agree. *)
Lemma network_mask v6 m : (v6 = true -> exists n, (n <= 128)%nat /\ m = prefix_mask n) -> v6 = true ->
  u8 (contigmask m 128) = prefix_length m.
Proof.
  intros H Hv. destruct (H Hv) as (n & Hn & ->). clear H Hv.
  assert (Forall (fun n => u8 (contigmask (prefix_mask n) 128) = prefix_length (prefix_mask n)) (seq 0 129)) as F.
  { apply (bool_decide_unpack _). vm_compute. exact I. }
  rewrite Forall_forall in F. apply F, elem_of_seq. lia.
Qed.

Lemma tells_when (b : bool) t o len k : (b = true -> tells (mkComponent t (union_of o), len) k) ->
  Forall2 tells (when b t o len) (if b then [k] else []).
Proof. destruct b; [|by constructor]. intros H. apply Forall2_cons. split; [by apply H|constructor]. Qed.

Lemma tells_ports (remote : bool) low high : inw 16 low -> inw 16 high ->
  Forall2 tells (ports low high (if remote then SINGLE_REMOTE_PORT else SINGLE_LOCAL_PORT)
                               (if remote then REMOTE_PORT_RANGE else LOCAL_PORT_RANGE))
    (port_criteria remote low high).
Proof.
  intros Hl Hh. unfold ports, port_criteria. case_decide; [constructor|].
  case_decide; apply Forall2_cons; (split; [|constructor]); [by apply tells_port|by apply tells_range].
Qed.

Lemma rule_tells r : rule_ok r -> Forall2 tells (rule_components r) (criteria_of r).
Proof.
  intros (Hp & (La & La' & Lm & Lm' & Ln & Ll & Lh) & (Ra & Ra' & Rm & Rm' & Rn & Rl & Rh)).
  assert (forall l : list Z, length l = 16%nat -> length (take 4 l) = 4%nat) as T by (intros; rewrite length_take; lia).
  unfold rule_components, criteria_of. repeat apply Forall2_app.
  - unfold when. case_decide as Hz; [by rewrite bool_decide_false by tauto; constructor|].
    rewrite bool_decide_true by done. apply Forall2_cons. split; [by apply tells_protocol|constructor].
  - apply tells_when. intros _. apply (tells_v4 false); by apply T.
  - apply tells_when. intros _. apply (tells_v4 true); by apply T.
  - apply tells_when. intros Hv. rewrite (network_mask _ _ Ln Hv). by apply (tells_v6 false).
  - apply tells_when. intros Hv. rewrite (network_mask _ _ Rn Hv). by apply (tells_v6 true).
  - by apply (tells_ports false).
  - by apply (tells_ports true).
Qed.

(** *** Reading it *)

Lemma read_components l ks : Forall2 tells l ks -> forall fuel,
  (length (concat (map stored (map fst l))) <= fuel)%nat ->
  read_criteria fuel (concat (map stored (map fst l))) = Some ks.
Proof.
  induction 1 as [|[c z] k l ks (Hk & Hz & Hs & Hr) _ IH]; intros fuel Hf; [by destruct fuel|].
  cbn [map concat fst] in *. rewrite length_app in Hf.
  assert (1 <= length (stored c))%nat by (unfold stored; cbn; lia). destruct fuel as [|fuel]; [lia|].
  transitivity ('(c, l) ← read_criterion (stored c ++ concat (map stored (map fst l)));
    cs ← read_criteria fuel l; Some (c :: cs)); [done|].
  rewrite Hr. cbn [mbind option_bind]. by rewrite IH by lia.
Qed.

Lemma tells_size l ks : Forall2 tells l ks ->
  length (concat (map stored (map fst l))) = sum_list (map criterion_size ks) /\
  foldr Z.add 0 (map snd l) = Z.of_nat (sum_list (map criterion_size ks)) /\
  Forall known (map fst l).
Proof.
  induction 1 as [|[c z] k l ks (Hk & Hz & Hs & Hr) _ (IH1 & IH2 & IH3)]; [by split_and!|].
  cbn [map concat foldr fst snd] in *. rewrite length_app, Hs, IH1, IH2, Hz. cbn [sum_list sum_list_with].
  split_and!; [done|unfold id; lia|by constructor].
Qed.

Lemma criteria_bound r : (sum_list (map criterion_size (criteria_of r)) <= 66)%nat.
Proof.
  unfold criteria_of, port_criteria. rewrite !map_app, !sum_list_with_app.
  repeat case_decide; repeat case_match; cbn; lia.
Qed.

Definition filter_octet (d i : Z) : Z := ((d .& 3) << 4) .| ((i - 1) .& 0xf).

Lemma filter_octet_told d i : inw 2 d -> 1 <= i <= 15 ->
  (filter_octet d i >> 4) .& 3 = d /\ filter_octet d i .& 0xf = i - 1.
Proof.
  intros Hd Hi.
  assert (Forall (fun d => Forall (fun i => (filter_octet d i >> 4) .& 3 = d /\ filter_octet d i .& 0xf = i - 1)
            (seqZ 1 15)) (seqZ 0 4)) as F.
  { apply (bool_decide_unpack _). vm_compute. exact I. }
  rewrite Forall_forall in F. assert (d ∈ seqZ 0 4) as Hd' by (apply elem_of_seqZ; unfold inw in Hd; lia).
  specialize (F _ Hd'). rewrite Forall_forall in F. apply F, elem_of_seqZ. lia.
Qed.

Lemma read_filter i x n rest : pf_ok x -> (i < 16)%nat ->
  read_filters (S n) (stored_filter (encode_filter i x) ++ rest) =
    (fs ← read_filters n rest; Some (describe i x :: fs)).
Proof.
  intros (Hr & Hd & Hi) Hn. pose proof (rule_tells _ Hr) as T. destruct (tells_size _ _ T) as (Hs & Hl & _).
  pose proof (criteria_bound (rule x)) as B. destruct (filter_octet_told _ _ Hd Hi) as [F1 F2].
  unfold stored_filter, encode_filter. cbn [app read_filters filter_flags precedence content components].
  fold (filter_octet (direction x) (identifier x)). rewrite Hl, F1, F2, !u8_id by (unfold inw; lia). rewrite Nat2Z.id, get_front by done. cbn [mbind option_bind].
  by rewrite (read_components _ _ T).
Qed.

Lemma imap_from {A B} (f : nat -> A -> B) k x l :
  imap (fun i => f (k + i)%nat) (x :: l) = f k x :: imap (fun i => f (S k + i)%nat) l.
Proof.
  rewrite imap_cons, Nat.add_0_r. f_equal. apply imap_ext. intros i y _. cbn. f_equal. lia.
Qed.

Lemma read_template l k rest : Forall pf_ok l -> (k + length l <= 16)%nat ->
  read_filters (length l) (concat (map stored_filter (imap (fun i => encode_filter (k + i)) l)) ++ rest) =
    (if decide (rest = []) then Some (imap (fun i => describe (k + i)) l) else None).
Proof.
  intros Hl. revert k. induction Hl as [|x l Hx Hl IH]; intros k Hk; [done|].
  cbn [length] in *. rewrite !imap_from. cbn [map concat]. rewrite <- (assoc_L (++)), read_filter, IH by (done || lia).
  by case_decide.
Qed.

Lemma template_size l k : Forall pf_ok l ->
  length (concat (map stored_filter (imap (fun i => encode_filter (k + i)) l))) = sum_list (map filter_size l) /\
  Forall (fun f => Forall known (components f)) (imap (fun i => encode_filter (k + i)) l).
Proof.
  intros Hl. revert k. induction Hl as [|x l Hx Hl IH]; intros k; [done|].
  destruct (tells_size _ _ (rule_tells _ (proj1 Hx))) as (Hs & _ & Hk). rewrite imap_from.
  destruct (IH (S k)) as [I1 I2]. split; [|by constructor].
  cbn [map concat]. rewrite length_app, I1. unfold stored_filter at 1. rewrite length_app.
  cbn [encode_filter components length]. rewrite Hs. done.
Qed.

Lemma template_flags n : (n <= 15)%nat ->
  let flags := (GTP_TFT_CODE_CREATE_NEW_TFT << 5) .| (Z.of_nat n .& 0xf) in
  flags >> 4 = 2 /\ flags .& 0xf = Z.of_nat n.
Proof. intros Hn. do 16 (destruct n as [|n]; [done|]). lia. Qed.

(** C32: traffic flow template.  For up to fifteen packet filters of a bearer, the octets
    which [gtp_build_tft] stores, in a buffer of 255, for what
    [encode_traffic_flow_template] has filled, are read as TS 24.008 tells: a new
    template with one filter for each packet filter, in order, with its direction,
    identifier and precedence, and as criteria the protocol, addresses, prefixes and
    ports of its rule.  The value returned is their number, and when they need more than
    the buffer it is [-1]. *)
Theorem tft_agreed l data : Forall pf_ok l -> (length l <= 15)%nat -> (length data = 255)%nat ->
  exists t, encode_traffic_flow_template l = Some t /\
    if decide (tft_size l <= 255)%nat
    then exists data', gtp_build_tft t data 255 = Some (Z.of_nat (tft_size l), data') /\
           read_tft (take (tft_size l) data') = Some (imap describe l)
    else exists data', gtp_build_tft t data 255 = Some (-1, data').
Proof.
  intros Hl Hn Hd. destruct (template_flags (length l) Hn) as [F1 F2].
  destruct (template_size l 0 Hl) as [Hs Hk]. pose proof (read_template l 0 [] Hl ltac:(cbn; lia)) as R.
  cbn [Nat.add] in *. eexists. split.
  { unfold encode_traffic_flow_template. by rewrite decide_True by (unfold MAX_NUM_OF_PACKET_FILTER; lia). }
  match goal with |- context [mkTft ?f ?p] =>
    pose proof (build_tft_spec (mkTft f p) data Hk ltac:(cbn; by rewrite length_imap) Hd) as B end.
  cbn [tft_flags pf] in B. set (flags := _ .| _) in *. set (o := concat _) in *. cbn zeta in B.
  assert (length (flags :: o) = tft_size l) as Ho by (cbn [length]; by rewrite Hs). rewrite Ho in B.
  case_decide; [|exact B]. eexists. split; [exact B|]. rewrite <- Ho, take_app_length. unfold read_tft.
  rewrite decide_True by done. by rewrite F2, Nat2Z.id, <- (app_nil_r o).
Qed.

(** UDP from port 5060 of 10.1.2.0/24, and all to ports 80 to 443 of a /48. *)
Definition sample_v4 : pgw_rule_t :=
  mkRule 17 false true false false (replicate 16 0) (replicate 16 0)
    ([10; 1; 2; 0] ++ replicate 12 0) ([0xff; 0xff; 0xff; 0] ++ replicate 12 0) 0 0 5060 5060.
Definition sample_v6 : pgw_rule_t :=
  mkRule 0 false false false true (replicate 16 0) (replicate 16 0)
    ([0x20; 1; 0xd; 0xb8; 0; 1] ++ replicate 10 0) (prefix_mask 48) 0 0 80 443.
Definition sample_filters : list packet_filter := [mkPf 1 1 sample_v4; mkPf 2 2 sample_v6].

Lemma tft_agreed_witness :
  tft_size sample_filters = 44%nat /\
  exists t data', encode_traffic_flow_template sample_filters = Some t /\
    gtp_build_tft t (replicate 255 0) 255 = Some (44, data') /\
    read_tft (take 44 data') =
      Some [mkDescribed 1 0 1 [Protocol 17; V4 true [10; 1; 2; 0] [0xff; 0xff; 0xff; 0]; Port true 5060];
            mkDescribed 2 1 2 [V6 true ([0x20; 1; 0xd; 0xb8; 0; 1] ++ replicate 10 0) 48; PortRange true 80 443]].
Proof.
  split; [reflexivity|]. assert (Forall pf_ok sample_filters) as H.
  { apply Forall_cons. split; [|apply Forall_cons; split; [|constructor]].
    all: split; [|by_decide]; unfold rule_ok, side_ok; split_and!; try by_decide; try (intros; discriminate).
    intros _. exists 48%nat. split; [lia|reflexivity]. }
  destruct (tft_agreed sample_filters (replicate 255 0) H ltac:(cbn; lia) eq_refl) as (t & Ht & Hb).
  rewrite decide_True in Hb by (vm_compute; lia). destruct Hb as (data' & E & R). exists t, data'.
  split; [exact Ht|]. split; [exact E|]. rewrite <- (eq_refl : tft_size sample_filters = 44%nat). rewrite R. reflexivity.
Defined.

End GtpTypesSpec.
