(* ===== verification/GtpXact.v ===== *)
(** [lib/gtp/gtp_xact.c]: GTPv2-C transactions.  The transactions come from an
    index pool, the timers from a [TimerService]; a list of transactions of a GTP
    node is the list of their positions in the pool, in order.

    An operation that dereferences [NULL], reads outside an array, uses a packet
    that is not allocated or frees it twice has no result ([None]).  Whether the
    system accepts a datagram is the argument [send_ok]. *)

From S2P Require Import Prelude Alloc Pkbuf TimerService TlvMsg GtpMessage.

Module GtpXact.
Import GtpMessage.

Definition GTP_BEARER_RESOURCE_COMMAND_TYPE : Z := 68.
Definition GTP_BEARER_RESOURCE_FAILURE_INDICATION_TYPE : Z := 69.

Definition SIZE_OF_GTP_XACT_POOL : Z := 64 * 16.
Definition GTP_MIN_XACT_ID : Z := 1.
Definition GTP_MAX_XACT_ID : Z := 0x800000.
Definition GTP_T3_RESPONSE_DURATION : Z := 3000.
Definition GTP_T3_RESPONSE_RETRY_COUNT : Z := 3.
Definition GTP_T3_DUPLICATED_DURATION : Z := GTP_T3_RESPONSE_DURATION * GTP_T3_RESPONSE_RETRY_COUNT.
Definition GTP_T3_DUPLICATED_RETRY_COUNT : Z := 1.

(** [NEXT_ID] *)
Definition NEXT_ID (id min max : Z) : Z := if decide (id = max) then min else u32 (id + 1).
Definition GTP_XID_TO_SQN (xid : Z) : Z := bswap32 (u32 (xid << 8)).
Definition GTP_SQN_TO_XID (sqn : Z) : Z := bswap32 sqn >> 8.

Inductive stage :=
| GTP_XACT_UNKNOWN_STAGE | GTP_XACT_INITIAL_STAGE | GTP_XACT_INTERMEDIATE_STAGE | GTP_XACT_FINAL_STAGE.
#[export] Instance stage_eq_dec : EqDecision stage.
Proof. solve_decision. Defined.

Inductive originator := GTP_LOCAL_ORIGINATOR | GTP_REMOTE_ORIGINATOR.
#[export] Instance originator_eq_dec : EqDecision originator.
Proof. solve_decision. Defined.

Inductive status := CORE_OK | CORE_ERROR | CORE_EAGAIN.
#[export] Instance status_eq_dec : EqDecision status.
Proof. solve_decision. Defined.

(** The cases of [gtp_xact_get_stage]. *)
Definition initial_types : list Z :=
  [GTP_CREATE_SESSION_REQUEST_TYPE; GTP_MODIFY_BEARER_REQUEST_TYPE; GTP_DELETE_SESSION_REQUEST_TYPE;
   GTP_MODIFY_BEARER_COMMAND_TYPE; GTP_DELETE_BEARER_COMMAND_TYPE; GTP_BEARER_RESOURCE_COMMAND_TYPE;
   GTP_RELEASE_ACCESS_BEARERS_REQUEST_TYPE; GTP_CREATE_INDIRECT_DATA_FORWARDING_TUNNEL_REQUEST_TYPE;
   GTP_DELETE_INDIRECT_DATA_FORWARDING_TUNNEL_REQUEST_TYPE; GTP_DOWNLINK_DATA_NOTIFICATION_TYPE].
Definition triggered_types : list Z :=
  [GTP_CREATE_BEARER_REQUEST_TYPE; GTP_UPDATE_BEARER_REQUEST_TYPE; GTP_DELETE_BEARER_REQUEST_TYPE].
Definition final_types : list Z :=
  [GTP_CREATE_SESSION_RESPONSE_TYPE; GTP_MODIFY_BEARER_RESPONSE_TYPE; GTP_DELETE_SESSION_RESPONSE_TYPE;
   GTP_MODIFY_BEARER_FAILURE_INDICATION_TYPE; GTP_DELETE_BEARER_FAILURE_INDICATION_TYPE;
   GTP_BEARER_RESOURCE_FAILURE_INDICATION_TYPE; GTP_CREATE_BEARER_RESPONSE_TYPE;
   GTP_UPDATE_BEARER_RESPONSE_TYPE; GTP_DELETE_BEARER_RESPONSE_TYPE;
   GTP_RELEASE_ACCESS_BEARERS_RESPONSE_TYPE; GTP_CREATE_INDIRECT_DATA_FORWARDING_TUNNEL_RESPONSE_TYPE;
   GTP_DELETE_INDIRECT_DATA_FORWARDING_TUNNEL_RESPONSE_TYPE; GTP_DOWNLINK_DATA_NOTIFICATION_ACKNOWLEDGE_TYPE].

(** [xid & GTP_MAX_XACT_ID]: the identifier comes from the peer's command. *)
Definition marked (xid : Z) : bool := negb (bool_decide (xid .& GTP_MAX_XACT_ID = 0)).

Definition gtp_xact_get_stage (type xid : Z) : stage :=
  if decide (type ∈ initial_types) then GTP_XACT_INITIAL_STAGE
  else if decide (type ∈ triggered_types) then
    if marked xid then GTP_XACT_INTERMEDIATE_STAGE else GTP_XACT_INITIAL_STAGE
  else if decide (type ∈ final_types) then GTP_XACT_FINAL_STAGE
  else GTP_XACT_UNKNOWN_STAGE.

(** [gtp_xact_t], without its list node and [sess]; packets and GTP nodes are
    addresses. *)
Record xact := mkXact {
  org : originator; xid : Z; gnode : option nat; step : Z;
  seq : list (Z * option nat);       (** message type and packet of each step *)
  tm_response : option nat; response_rcount : Z;
  tm_holding : option nat; holding_rcount : Z;
  assoc_xact : option nat
}.
(** The memory after [memset]. *)
Definition zero_xact : xact :=
  mkXact GTP_LOCAL_ORIGINATOR 0 None 0 (replicate 3 (0, None)) None 0 None 0 None.

(** A packet buffer with its cluster. *)
Record packet := mkPacket { pkbuf : Pkbuf.pkbuf; cluster : list Z }.
(** The bytes a packet stands for. *)
Definition datagram (p : packet) : list Z :=
  get (cluster p) (Pkbuf.payload (pkbuf p)) (Pkbuf.len (pkbuf p)).

(** The lists of a [gtp_node_t]. *)
Record node_lists := mkLists { local_list : list nat; remote_list : list nat }.

Section xact.
Context {P T : Type} {AllocP : Allocator P nat} {TimersT : TimerService T}.

(** The file-scope variables, and what the transactions point to.  [sent] is what
    has left through [gtp_send], the last datagram first. *)
Record ctx := mkCtx {
  g_xact_id : Z; g_response_event : Z; g_holding_event : Z;
  gtp_xact_pool : P; xacts : gmap nat xact; gnodes : gmap nat node_lists;
  timers : T; packets : gmap nat packet; sent : list (nat * list Z)
}.

Definition get_xact (c : ctx) (i : nat) : xact := default zero_xact (xacts c !! i).
Definition get_lists (c : ctx) (g : nat) : node_lists := default (mkLists [] []) (gnodes c !! g).
Definition set_xact (c : ctx) (i : nat) (x : xact) : ctx :=
  mkCtx (g_xact_id c) (g_response_event c) (g_holding_event c) (gtp_xact_pool c) (<[i := x]> (xacts c))
    (gnodes c) (timers c) (packets c) (sent c).
Definition set_timers (c : ctx) (t : T) : ctx :=
  mkCtx (g_xact_id c) (g_response_event c) (g_holding_event c) (gtp_xact_pool c) (xacts c)
    (gnodes c) t (packets c) (sent c).
Definition set_packets (c : ctx) (ps : gmap nat packet) : ctx :=
  mkCtx (g_xact_id c) (g_response_event c) (g_holding_event c) (gtp_xact_pool c) (xacts c)
    (gnodes c) (timers c) ps (sent c).
Definition set_pool (c : ctx) (p : P) : ctx :=
  mkCtx (g_xact_id c) (g_response_event c) (g_holding_event c) p (xacts c)
    (gnodes c) (timers c) (packets c) (sent c).
Definition set_lists (c : ctx) (g : nat) (l : node_lists) : ctx :=
  mkCtx (g_xact_id c) (g_response_event c) (g_holding_event c) (gtp_xact_pool c) (xacts c)
    (<[g := l]> (gnodes c)) (timers c) (packets c) (sent c).
Definition set_id (c : ctx) (id : Z) : ctx :=
  mkCtx id (g_response_event c) (g_holding_event c) (gtp_xact_pool c) (xacts c)
    (gnodes c) (timers c) (packets c) (sent c).

(** [gtp_send]: [true] for [CORE_OK], the datagram has left. *)
Definition gtp_send (c : ctx) (g pk : nat) (send_ok : bool) : option (bool * ctx) :=
  p ← packets c !! pk;
  Some (send_ok,
        if send_ok
        then mkCtx (g_xact_id c) (g_response_event c) (g_holding_event c) (gtp_xact_pool c) (xacts c)
               (gnodes c) (timers c) (packets c) ((g, datagram p) :: sent c)
        else c).

Definition start_timer (c : ctx) (t : option nat) : ctx :=
  match t with Some id => set_timers c (tm_start (timers c) id) | None => c end.
Definition stop_timer (c : ctx) (t : option nat) : ctx :=
  match t with Some id => set_timers c (tm_stop (timers c) id) | None => c end.
Definition delete_timer (c : ctx) (t : option nat) : ctx :=
  match t with Some id => set_timers c (tm_delete (timers c) id) | None => c end.
Definition pkbuf_free (c : ctx) (pk : option nat) : option ctx :=
  match pk with
  | Some k => _ ← packets c !! k; Some (set_packets c (delete k (packets c)))
  | None => Some c
  end.

Definition with_step (x : xact) (s : Z) : xact :=
  mkXact (org x) (xid x) (gnode x) s (seq x) (tm_response x) (response_rcount x)
    (tm_holding x) (holding_rcount x) (assoc_xact x).
Definition with_seq (x : xact) (sq : list (Z * option nat)) : xact :=
  mkXact (org x) (xid x) (gnode x) (step x) sq (tm_response x) (response_rcount x)
    (tm_holding x) (holding_rcount x) (assoc_xact x).
Definition with_assoc (x : xact) (a : option nat) : xact :=
  mkXact (org x) (xid x) (gnode x) (step x) (seq x) (tm_response x) (response_rcount x)
    (tm_holding x) (holding_rcount x) a.
Definition with_rcounts (x : xact) (r h : Z) : xact :=
  mkXact (org x) (xid x) (gnode x) (step x) (seq x) (tm_response x) r (tm_holding x) h (assoc_xact x).

(** [seq[k]]; out of the array there is no value. *)
Definition seq_at (x : xact) (k : Z) : option (Z * option nat) :=
  if decide (0 <= k) then seq x !! Z.to_nat k else None.

(** ** Operations *)

(** The checks of [gtp_xact_update_tx] on the step. *)
Definition tx_step_ok (x : xact) (type : Z) : bool :=
  match org x, gtp_xact_get_stage type (xid x) with
  | GTP_LOCAL_ORIGINATOR, GTP_XACT_INITIAL_STAGE => bool_decide (step x = 0)
  | GTP_LOCAL_ORIGINATOR, GTP_XACT_FINAL_STAGE => bool_decide (step x = 2)
  | GTP_REMOTE_ORIGINATOR, (GTP_XACT_INTERMEDIATE_STAGE | GTP_XACT_FINAL_STAGE) => bool_decide (step x = 1)
  | _, _ => false
  end.

(** The header that [gtp_xact_update_tx] writes: version 2 and [teid_presence] are
    0x48. *)
Definition tx_header (type teid xid len : Z) : gtp_header :=
  mkHeader 0x48 type (bswap16 (u16 (len - 4))) (bswap32 teid) (GTP_XID_TO_SQN xid).

(** [pkbuf_header] and the writes; the result of [pkbuf_header] is not checked. *)
Definition push_header (p : packet) (type teid xid : Z) : packet :=
  let '(_, b) := Pkbuf.pkbuf_header (pkbuf p) GTPV2C_HEADER_LEN in
  mkPacket b (put (cluster p) (Pkbuf.payload b) (header_bytes (tx_header type teid xid (Pkbuf.len b)))).

(** [gtp_xact_update_tx] for the transaction at position [i], the header
    description [type] and [teid], and a packet. *)
Definition gtp_xact_update_tx (c : ctx) (i : nat) (type teid : Z) (pk : option nat) : option (status * ctx) :=
  let x := get_xact c i in
  match gnode x, pk with
  | None, _ | _, None => Some (CORE_ERROR, c)
  | Some _, Some k =>
      if negb (tx_step_ok x type) then Some (CORE_ERROR, c)
      else
        p ← packets c !! k;
        let c := set_packets c (<[k := push_header p type teid (xid x)]> (packets c)) in
        if decide (0 <= step x < 3) then
          let x := with_seq x (<[Z.to_nat (step x) := (type, Some k)]> (seq x)) in
          Some (CORE_OK, set_xact c i (with_step x (step x + 1)))
        else None
  end.

(** The two timers that creating a transaction sets up; [false] when there is no
    timer, and the transaction stays allocated. *)
Definition create_timer (c : ctx) (i : nat) (event duration : Z) : option (option nat * ctx) :=
  '(id, t) ← timer_create (timers c) event duration;
  Some match id with
       | Some id => (Some id, set_timers c (timer_set_param1 t id (Z.of_nat i + 1)))
       | None => (None, set_timers c t)
       end.

Definition create_response (c : ctx) (i : nat) : option (bool * ctx) :=
  let x := get_xact c i in
  if decide (g_response_event c = 0) then Some (true, c)
  else
    '(id, c) ← create_timer c i (g_response_event c) GTP_T3_RESPONSE_DURATION;
    Some match id with
         | Some id =>
             (true, set_xact c i (mkXact (org x) (xid x) (gnode x) (step x) (seq x) (Some id)
                                    GTP_T3_RESPONSE_RETRY_COUNT (tm_holding x) (holding_rcount x) (assoc_xact x)))
         | None => (false, c)
         end.
Definition create_holding (c : ctx) (i : nat) : option (bool * ctx) :=
  let x := get_xact c i in
  if decide (g_holding_event c = 0) then Some (true, c)
  else
    '(id, c) ← create_timer c i (g_holding_event c) GTP_T3_DUPLICATED_DURATION;
    Some match id with
         | Some id =>
             (true, set_xact c i (mkXact (org x) (xid x) (gnode x) (step x) (seq x) (tm_response x)
                                    (response_rcount x) (Some id) GTP_T3_DUPLICATED_RETRY_COUNT (assoc_xact x)))
         | None => (false, c)
         end.
Definition create_timers (c : ctx) (i : nat) : option (bool * ctx) :=
  '(ok, c) ← create_response c i;
  if negb ok then Some (false, c) else create_holding c i.

Definition append_xact (c : ctx) (i : nat) : ctx :=
  let x := get_xact c i in
  match gnode x with
  | Some g =>
      let l := get_lists c g in
      set_lists c g (if decide (org x = GTP_LOCAL_ORIGINATOR)
                     then mkLists (local_list l ++ [i]) (remote_list l)
                     else mkLists (local_list l) (remote_list l ++ [i]))
  | None => c
  end.
Definition remove_xact (c : ctx) (i : nat) : ctx :=
  let x := get_xact c i in
  match gnode x with
  | Some g =>
      let l := get_lists c g in
      set_lists c g (if decide (org x = GTP_LOCAL_ORIGINATOR)
                     then mkLists (filter (.≠ i) (local_list l)) (remote_list l)
                     else mkLists (local_list l) (filter (.≠ i) (remote_list l)))
  | None => c
  end.

(** A transaction from the pool, with the fields both creations set first. *)
Definition alloc_xact (c : ctx) (o : originator) (id : Z) (g : nat) : option nat * ctx :=
  match alloc (gtp_xact_pool c) with
  | (None, p) => (None, set_pool c p)
  | (Some i, p) =>
      (Some i, set_xact (set_pool c p) i
                 (mkXact o id (Some g) 0 (replicate 3 (0, None)) None 0 None 0 None))
  end.

Definition gtp_xact_local_create (c : ctx) (g : nat) (type teid : Z) (pk : option nat)
  : option (option nat * ctx) :=
  let id := NEXT_ID (g_xact_id c) GTP_MIN_XACT_ID GTP_MAX_XACT_ID in
  match alloc_xact c GTP_LOCAL_ORIGINATOR id g with
  | (None, c) => Some (None, c)
  | (Some i, c) =>
      '(ok, c) ← create_timers (set_id c id) i;
      if negb ok then Some (None, c)
      else
        let c := append_xact c i in
        '(rv, c) ← gtp_xact_update_tx c i type teid pk;
        Some (if decide (rv = CORE_OK) then Some i else None, c)
  end.

Definition gtp_xact_remote_create (c : ctx) (g : nat) (sqn : Z) : option (option nat * ctx) :=
  match alloc_xact c GTP_REMOTE_ORIGINATOR (GTP_SQN_TO_XID sqn) g with
  | (None, c) => Some (None, c)
  | (Some i, c) =>
      '(ok, c) ← create_timers c i;
      Some (if negb ok then (None, c) else (Some i, append_xact c i))
  end.

Definition gtp_xact_associate (c : ctx) (i j : nat) : ctx :=
  if decide (assoc_xact (get_xact c i) = None /\ assoc_xact (get_xact c j) = None) then
    let c := set_xact c i (with_assoc (get_xact c i) (Some j)) in
    set_xact c j (with_assoc (get_xact c j) (Some i))
  else c.
Definition gtp_xact_deassociate (c : ctx) (i j : nat) : ctx :=
  if decide (assoc_xact (get_xact c i) <> None /\ assoc_xact (get_xact c j) <> None) then
    let c := set_xact c i (with_assoc (get_xact c i) None) in
    set_xact c j (with_assoc (get_xact c j) None)
  else c.

(** [gtp_xact_delete]; the node has a [gnode]. *)
Definition gtp_xact_delete (c : ctx) (i : nat) : option ctx :=
  let x := get_xact c i in
  c ← foldl (fun c pk => c ← c; pkbuf_free c pk) (Some c) (map snd (seq x));
  let c := delete_timer (delete_timer c (tm_response x)) (tm_holding x) in
  let c := match assoc_xact x with Some j => gtp_xact_deassociate c i j | None => c end in
  match gnode x with
  | Some _ =>
      let c := remove_xact c i in
      Some (set_pool c (release (gtp_xact_pool c) i))
  | None => None
  end.

(** [gtp_xact_delete_all]: [list_next] of a removed node is what it was. *)
Definition gtp_xact_delete_all (c : ctx) (g : nat) : option ctx :=
  c ← foldl (fun c i => c ← c; gtp_xact_delete c i) (Some c) (local_list (get_lists c g));
  foldl (fun c i => c ← c; gtp_xact_delete c i) (Some c) (remote_list (get_lists c g)).

(** What receiving a message of a type does to a transaction: an error, the
    answer to a repeated request (with the packet of a later step), or one step
    on, starting the holding timer or not. *)
Inductive reception := Reject | Repeat (pk : option nat) | Accept (hold : bool).
Definition rx_action (x : xact) (type : Z) : option reception :=
  match org x, gtp_xact_get_stage type (xid x) with
  | GTP_LOCAL_ORIGINATOR, GTP_XACT_INTERMEDIATE_STAGE =>
      s1 ← seq_at x 1; s2 ← seq_at x 2;
      Some (if decide (fst s1 = type) then
              if decide (step x = 2 \/ step x = 3) then Repeat (snd s2) else Reject
            else if decide (step x = 1) then Accept true else Reject)
  | GTP_LOCAL_ORIGINATOR, GTP_XACT_FINAL_STAGE =>
      Some (if decide (step x = 1) then Accept false else Reject)
  | GTP_REMOTE_ORIGINATOR, GTP_XACT_INITIAL_STAGE =>
      s0 ← seq_at x 0; s1 ← seq_at x 1;
      Some (if decide (fst s0 = type) then
              if decide (step x = 1 \/ step x = 2) then Repeat (snd s1) else Reject
            else if decide (step x = 0) then Accept true else Reject)
  | GTP_REMOTE_ORIGINATOR, GTP_XACT_FINAL_STAGE =>
      Some (if decide (step x = 2) then Accept false else Reject)
  | _, _ => Some Reject
  end.

Definition gtp_xact_update_rx (c : ctx) (i : nat) (type : Z) (send_ok : bool) : option (status * ctx) :=
  let x := get_xact c i in
  a ← rx_action x type;
  match a, gnode x with
  | Reject, _ => Some (CORE_ERROR, c)
  | Repeat None, _ => Some (CORE_EAGAIN, c)
  | Repeat (Some pk), Some g =>
      '(ok, c) ← gtp_send (start_timer c (tm_holding x)) g pk send_ok;
      Some (if ok : bool then CORE_EAGAIN else CORE_ERROR, c)
  | Repeat (Some pk), None => Some (CORE_ERROR, start_timer c (tm_holding x))
  | Accept hold, _ =>
      let c := if hold then start_timer c (tm_holding x) else c in
      let c := stop_timer c (tm_response x) in
      s ← seq_at x (step x);
      let x := with_seq x (<[Z.to_nat (step x) := (type, snd s)]> (seq x)) in
      Some (CORE_OK, set_xact c i (with_step x (step x + 1)))
  end.

(** What [gtp_xact_commit] does after its checks: an error, the end of the
    transaction, or sending, after starting the response timer or not. *)
Inductive commitment := Invalid | Finish | Send (respond : bool).
Definition commit_action (x : xact) (type : Z) : commitment :=
  match org x, gtp_xact_get_stage type (xid x) with
  | GTP_LOCAL_ORIGINATOR, GTP_XACT_INITIAL_STAGE => if decide (step x = 1) then Send true else Invalid
  | GTP_LOCAL_ORIGINATOR, GTP_XACT_FINAL_STAGE =>
      if decide (step x = 2) then Finish else if decide (step x = 3) then Send false else Invalid
  | GTP_REMOTE_ORIGINATOR, GTP_XACT_INTERMEDIATE_STAGE => if decide (step x = 2) then Send true else Invalid
  | GTP_REMOTE_ORIGINATOR, GTP_XACT_FINAL_STAGE =>
      if decide (step x = 3) then Finish else if decide (step x = 2) then Send false else Invalid
  | _, _ => Invalid
  end.

Definition gtp_xact_commit (c : ctx) (i : nat) (send_ok : bool) : option (status * ctx) :=
  let x := get_xact c i in
  match gnode x with
  | None => Some (CORE_ERROR, c)
  | Some g =>
      s ← seq_at x (step x - 1);
      match commit_action x (fst s) with
      | Invalid => Some (CORE_ERROR, c)
      | Finish => c ← gtp_xact_delete c i; Some (CORE_OK, c)
      | Send respond =>
          let c := if respond then start_timer c (tm_response x) else c in
          match snd s with
          | None => Some (CORE_ERROR, c)
          | Some pk =>
              '(ok, c) ← gtp_send c g pk send_ok;
              Some (if ok : bool then CORE_OK else CORE_ERROR, c)
          end
      end
  end.

(** [gtp_xact_timeout] of an index and an event; [index_find] does not fail.  A
    null index, or a node without [gnode], ends in [gtp_xact_delete] on a null
    pointer. *)
Definition gtp_xact_timeout (c : ctx) (index event : Z) (send_ok : bool) : option (status * ctx) :=
  if decide (index = 0) then None
  else
    let i := Z.to_nat (index - 1) in
    let x := get_xact c i in
    match gnode x with
    | None => None
    | Some g =>
        if decide (event = g_response_event c) then
          let n := u8 (response_rcount x - 1) in
          let c := set_xact c i (with_rcounts x n (holding_rcount x)) in
          if decide (0 < n) then
            let c := start_timer c (tm_response x) in
            s ← seq_at x (step x - 1);
            match snd s with
            | None => Some (CORE_ERROR, c)
            | Some pk =>
                '(ok, c) ← gtp_send c g pk send_ok;
                if ok : bool then Some (CORE_OK, c)
                else c ← gtp_xact_delete c i; Some (CORE_ERROR, c)
            end
          else c ← gtp_xact_delete c i; Some (CORE_OK, c)
        else if decide (event = g_holding_event c) then
          let n := u8 (holding_rcount x - 1) in
          let c := set_xact c i (with_rcounts x (response_rcount x) n) in
          if decide (0 < n) then Some (CORE_OK, start_timer c (tm_holding x))
          else c ← gtp_xact_delete c i; Some (CORE_OK, c)
        else Some (CORE_OK, c)
    end.

(** [gtp_xact_find_by_xid] *)
Definition gtp_xact_find_by_xid (c : ctx) (g : nat) (type id : Z) : option nat :=
  let l := get_lists c g in
  let search := find (fun i => bool_decide (xid (get_xact c i) = id)) in
  match gtp_xact_get_stage type id with
  | GTP_XACT_INITIAL_STAGE => search (remote_list l)
  | GTP_XACT_INTERMEDIATE_STAGE => search (local_list l)
  | GTP_XACT_FINAL_STAGE => search (if marked id then remote_list l else local_list l)
  | GTP_XACT_UNKNOWN_STAGE => None
  end.

(** [gtp_xact_receive] of a header with [type] and [sqn]: the transaction is an
    output for [CORE_OK] only. *)
Definition gtp_xact_receive (c : ctx) (g : nat) (type sqn : Z) (send_ok : bool)
  : option (status * option nat * ctx) :=
  '(new, c) ← match gtp_xact_find_by_xid c g type (GTP_SQN_TO_XID sqn) with
              | Some i => Some (Some i, c)
              | None => gtp_xact_remote_create c g sqn
              end;
  match new with
  | None => Some (CORE_ERROR, None, c)
  | Some i =>
      '(rv, c) ← gtp_xact_update_rx c i type send_ok;
      Some (rv, if decide (rv = CORE_OK) then Some i else None, c)
  end.

(** [gtp_set_pkt_hdr]: the header with sequence number 0. *)
Definition gtp_set_pkt_hdr (p : packet) (type teid : Z) : packet :=
  let '(_, b) := Pkbuf.pkbuf_header (pkbuf p) GTPV2C_HEADER_LEN in
  mkPacket b (put (cluster p) (Pkbuf.payload b)
    (header_bytes (mkHeader 0x48 type (bswap16 (u16 (Pkbuf.len b - 4))) (bswap32 teid) 0))).

(** ** The event queue

    A timer that runs out does not call [gtp_xact_timeout]: [event_timer_expire_func]
    puts an event into the queue of the thread, which comes to it after the events
    that are in front of it. *)

(** A timer of a transaction has run out: [tm_execute_tm_service] stops it, being of
    type [TM_TYPE_ONE_SHOT], and calls its function. *)
Definition timer_fired (c : ctx) (id : nat) : ctx := set_timers c (tm_stop (timers c) id).

(** [event_timer_expire_func] of the event and the first parameter of the timer, when
    the queue has room. *)
Definition event_timer_expire_func (queue : list (Z * Z)) (event param : Z) : list (Z * Z) :=
  queue ++ [(event, param)].

(** The cases [MME_EVT_S11_T3_RESPONSE] and [MME_EVT_S11_T3_HOLDING] of
    [mme_state_operational], those of [spgw_state_operational] alike. *)
Definition handle_timeout (c : ctx) (e : Z * Z) (send_ok : bool) : option (status * ctx) :=
  gtp_xact_timeout c (snd e) (fst e) send_ok.

End xact.
Arguments ctx : clear implicits.

End GtpXact.
