(* ===== verification/GtpXactInv.v ===== *)
(** The transactions of [GtpXact]: an invariant of the whole state that every
    operation keeps, under which none of them crashes, and the exchanges that the
    protocol is made of. *)

From Stdlib Require Import Sorted.
From S2P Require Import Prelude Alloc Pool Pkbuf DList Timer TimerSpec TimerService TlvMsg GtpMessage GtpXact.

Module GtpXactInv.
Import GtpMessage GtpXact.

(** ** One transaction *)

(** The steps that send: the first and the third of the originator, the second of
    its peer. *)
Definition sends (o : originator) (k : nat) : bool :=
  match o with GTP_LOCAL_ORIGINATOR => Nat.even k | GTP_REMOTE_ORIGINATOR => Nat.odd k end.

(** A transaction that has sent a request and no answer has come. *)
Definition waiting (x : xact) : Prop :=
  step x = match org x with GTP_LOCAL_ORIGINATOR => 1 | GTP_REMOTE_ORIGINATOR => 2 end.

(** The packet [pk] belongs to [x]. *)
Definition owns (x : xact) (pk : nat) : Prop := Some pk ∈ map snd (seq x).
#[export] Instance owns_dec x pk : Decision (owns x pk).
Proof. unfold owns. apply _. Defined.

(** The steps done: three at most; a packet is kept of each one that sends, each
    packet once. *)
Record seq_ok (x : xact) : Prop := {
  q_len : length (seq x) = 3%nat;
  q_step : 0 <= step x <= 3;
  q_sent : forall k ty p, seq x !! k = Some (ty, p) ->
             (p <> None <-> Z.of_nat k < step x /\ sends (org x) k = true);
  q_inj : NoDup (omap id (map snd (seq x)))
}.

(** Writing one step of the history. *)
Definition did (x : xact) (ty : Z) (p : option nat) : xact :=
  with_step (with_seq x (<[Z.to_nat (step x) := (ty, p)]> (seq x))) (step x + 1).

Lemma NoDup_omap_insert (l : list (option nat)) k pk :
  NoDup (omap id l) -> l !! k = Some None -> Some pk ∉ l -> NoDup (omap id (<[k := Some pk]> l)).
Proof.
  revert k. induction l as [|[y|] l IH]; intros [|k] Hn Hk Hpk; try done; cbn in *.
  - apply NoDup_cons in Hn as [Hy Hn]. apply NoDup_cons. split; [|apply IH; [done..|set_solver]].
    rewrite list_elem_of_omap. intros (z & Hz & E). cbn in E. subst z.
    apply elem_of_insert_inv in Hz as [E|Hz]; [injection E as ->; set_solver|].
    apply Hy, list_elem_of_omap. by exists (Some y).
  - apply NoDup_cons. split; [|done]. rewrite list_elem_of_omap. intros (z & Hz & E). cbn in E. subst z. set_solver.
  - apply IH; [done..|set_solver].
Qed.

Lemma seq_next x : seq_ok x -> step x < 3 -> exists ty, seq x !! Z.to_nat (step x) = Some (ty, None).
Proof.
  intros Hq Hs. destruct (q_step x Hq) as [H0 _].
  destruct (lookup_lt_is_Some_2 (seq x) (Z.to_nat (step x))) as [[ty p] Hl].
  { rewrite (q_len x Hq). lia. }
  exists ty. rewrite Hl. destruct p as [pk|]; [|done].
  apply (q_sent x Hq) in Hl as [Hk _]. destruct Hk; [done|lia].
Qed.

Lemma sent_before x k : seq_ok x -> (Z.of_nat k < step x) -> sends (org x) k = true ->
  exists ty pk, seq x !! k = Some (ty, Some pk).
Proof.
  intros Hq Hk Hs. pose proof (q_step x Hq). destruct (lookup_lt_is_Some_2 (seq x) k) as [[ty p] Hl].
  { rewrite (q_len x Hq). lia. }
  exists ty. apply (q_sent x Hq) in Hl as Hp. destruct p as [pk|]; [by exists pk|].
  exfalso. by apply Hp.
Qed.

Lemma owns_lookup x k ty pk : seq x !! k = Some (ty, Some pk) -> owns x pk.
Proof. intros Hl. unfold owns. apply list_elem_of_lookup. exists k. by rewrite list_lookup_fmap, Hl. Qed.

Lemma owns_did x ty p pk : owns (did x ty p) pk -> owns x pk \/ p = Some pk.
Proof.
  unfold owns, did. cbn. change (map snd ?l) with (snd <$> l). rewrite list_fmap_insert.
  intros [E|E]%elem_of_insert_inv; [by right|by left].
Qed.

(** A step that sends keeps a packet that the transaction did not have, another
    one keeps none. *)
Lemma did_ok x ty p :
  seq_ok x -> step x < 3 ->
  match p with
  | Some pk => sends (org x) (Z.to_nat (step x)) = true /\ ~ owns x pk
  | None => sends (org x) (Z.to_nat (step x)) = false
  end -> seq_ok (did x ty p).
Proof.
  intros Hq Hs Hp. destruct (seq_next x Hq Hs) as [ty0 H0]. pose proof Hq as [Hl Hst Hsent Hi].
  split; cbn.
  - by rewrite length_insert.
  - lia.
  - intros k ty' p' Hk.
    destruct (decide (k = Z.to_nat (step x))) as [->|Hne].
    + rewrite list_lookup_insert_eq in Hk by (apply lookup_lt_Some in H0; done). injection Hk as <- <-.
      destruct p as [pk|].
      * destruct Hp as [Hp _]. split; [intros _; split; [lia|done]|done].
      * split; [done|]. rewrite Hp. by intros [].
    + rewrite list_lookup_insert_ne in Hk by done. rewrite (Hsent k ty' p' Hk).
      split; intros [H1 H2]; split; (done || lia).
  - change (map snd ?l) with (snd <$> l). rewrite list_fmap_insert. cbn.
    destruct p as [pk|].
    + apply NoDup_omap_insert; [done| |by destruct Hp]. by rewrite list_lookup_fmap, H0.
    + rewrite list_insert_id; [done|]. by rewrite list_lookup_fmap, H0.
Qed.

(** Both timers of a transaction. *)
Definition own_timer (x : xact) (id : nat) : Prop := tm_response x = Some id \/ tm_holding x = Some id.

#[export] Instance own_timer_dec x id : Decision (own_timer x id).
Proof. unfold own_timer. apply _. Defined.

Section spec.
Context {P T : Type} {AllocP : Allocator P nat} {TimersT : TimerService T}.
Abbreviation ctx := (ctx P T).
Implicit Types c : ctx.

(** ** The state *)

Definition in_list c (o : originator) (g : nat) : list nat :=
  match o with
  | GTP_LOCAL_ORIGINATOR => local_list (get_lists c g)
  | GTP_REMOTE_ORIGINATOR => remote_list (get_lists c g)
  end.

(** A transaction in the list that it says it is in. *)
Definition live c (i : nat) : Prop :=
  exists g, gnode (get_xact c i) = Some g /\ i ∈ in_list c (org (get_xact c i)) g.

(** The timer [t], if there is one, raises [ev] for the transaction [i]; when it
    runs, [R] holds. *)
Definition timer_of c (i : nat) (ev : Z) (t : option nat) (R : Prop) : Prop :=
  forall id, t = Some id ->
    exists a, tm_see (timers c) id = Some (mkView ev (Z.of_nat i + 1) a) /\ (a = true -> R).

(** [d] is a transaction whose counts do not matter, about to be deleted. *)
Record xact_ok_but (d : option nat) c (i : nat) (x : xact) : Prop := {
  x_seq : seq_ok x;
  x_packets : forall pk, owns x pk -> is_Some (packets c !! pk);
  x_response : timer_of c i (g_response_event c) (tm_response x) (waiting x);
  x_holding : timer_of c i (g_holding_event c) (tm_holding x) True;
  x_rcount : d <> Some i -> tm_response x <> None -> 1 <= response_rcount x <= 3;
  x_hcount : d <> Some i -> tm_holding x <> None -> holding_rcount x = 1
}.

(** What the timer [id] raises when it runs. *)
Definition raises c (id : nat) (ev v : Z) : Prop :=
  (ev = g_response_event c ->
     exists i, live c i /\ v = Z.of_nat i + 1 /\ tm_response (get_xact c i) = Some id) /\
  (ev = g_holding_event c ->
     exists i, live c i /\ v = Z.of_nat i + 1 /\ tm_holding (get_xact c i) = Some id).

Record ctx_ok_but (d : option nat) c : Prop := {
  c_events : g_response_event c <> g_holding_event c;
  c_pool : alloc_ok (gtp_xact_pool c);
  c_timers : timers_ok (timers c);
  c_lists : forall o g, NoDup (in_list c o g) /\
              forall i, i ∈ in_list c o g ->
                used (gtp_xact_pool c) i /\ gnode (get_xact c i) = Some g /\ org (get_xact c i) = o;
  c_xacts : forall i, live c i -> xact_ok_but d c i (get_xact c i);
  c_sep : forall i j pk, live c i -> live c j -> owns (get_xact c i) pk -> owns (get_xact c j) pk -> i = j;
  c_assoc : forall i j, live c i -> assoc_xact (get_xact c i) = Some j ->
              live c j /\ assoc_xact (get_xact c j) = Some i;
  c_armed : forall id ev v, tm_see (timers c) id = Some (mkView ev v true) -> raises c id ev v
}.
Abbreviation xact_ok := (xact_ok_but None).
Abbreviation ctx_ok := (ctx_ok_but None).

(** What is in a state but the transactions, packets, timers and datagrams. *)
Definition frame c := (g_response_event c, g_holding_event c, gtp_xact_pool c, gnodes c).

Lemma get_set_xact c i x j : get_xact (set_xact c i x) j = if decide (j = i) then x else get_xact c j.
Proof.
  unfold get_xact, set_xact. cbn. case_decide as Hj.
  - subst. by rewrite lookup_insert_eq.
  - by rewrite lookup_insert_ne.
Qed.

Lemma get_set_same c i x : get_xact (set_xact c i x) i = x.
Proof. by rewrite get_set_xact, decide_True. Qed.
Lemma get_set_other c i x j : j <> i -> get_xact (set_xact c i x) j = get_xact c j.
Proof. intros. by rewrite get_set_xact, decide_False. Qed.

Lemma live_used d c i : ctx_ok_but d c -> live c i -> used (gtp_xact_pool c) i.
Proof. intros Hok (g & _ & Hi). by apply (c_lists d c Hok (org (get_xact c i)) g). Qed.

(** The timers of [j] are not those of [i]. *)
Lemma timers_apart d c c' i j ev t R :
  xact_ok_but d c i (get_xact c i) -> j <> i ->
  (forall id, tm_response (get_xact c i) <> Some id -> tm_holding (get_xact c i) <> Some id ->
     tm_see (timers c') id = tm_see (timers c) id) ->
  timer_of c j ev t R -> timer_of c' j ev t R.
Proof.
  intros Hi Hne Hs Ht id Hid. destruct (Ht id Hid) as (a & E & Ha). exists a. split; [|done].
  rewrite Hs; [done|..]; intros Hid'.
  - destruct (x_response _ _ _ _ Hi id Hid') as (a' & E' & _). rewrite E in E'. injection E'. lia.
  - destruct (x_holding _ _ _ _ Hi id Hid') as (a' & E' & _). rewrite E in E'. injection E'. lia.
Qed.

Lemma raises_own c i id a ev v :
  g_response_event c <> g_holding_event c -> live c i -> own_timer (get_xact c i) id ->
  timer_of c i (g_response_event c) (tm_response (get_xact c i)) a ->
  timer_of c i (g_holding_event c) (tm_holding (get_xact c i)) True ->
  tm_see (timers c) id = Some (mkView ev v true) -> raises c id ev v.
Proof.
  intros Hne Hl Ho Hr Hh Hv. destruct Ho as [Ho|Ho].
  - destruct (Hr id Ho) as (b & E & _). rewrite E in Hv. injection Hv as <- <- _.
    split; [|done]. intros _. by exists i.
  - destruct (Hh id Ho) as (b & E & _). rewrite E in Hv. injection Hv as <- <- _.
    split; [by intros E'; symmetry in E'|]. intros _. by exists i.
Qed.

Lemma raises_mono c c' id ev v :
  g_response_event c' = g_response_event c -> g_holding_event c' = g_holding_event c ->
  (forall j, own_timer (get_xact c j) id -> live c j ->
     live c' j /\ tm_response (get_xact c' j) = tm_response (get_xact c j) /\
     tm_holding (get_xact c' j) = tm_holding (get_xact c j)) ->
  raises c id ev v -> raises c' id ev v.
Proof.
  intros He1 He2 Hj [H1 H2]. split; rewrite ?He1, ?He2.
  - intros E. destruct (H1 E) as (i & Hl & -> & Ht). exists i. destruct (Hj i) as (? & -> & _); [by left|done|done].
  - intros E. destruct (H2 E) as (i & Hl & -> & Ht). exists i. destruct (Hj i) as (? & _ & ->); [by right|done|done].
Qed.

(** A change of one transaction that leaves it in its list, of its own packets and
    of its own timers. *)
Lemma change_ok d c c' i :
  let x := get_xact c i in let x' := get_xact c' i in
  ctx_ok c -> live c i -> frame c' = frame c ->
  (forall j, j <> i -> get_xact c' j = get_xact c j) ->
  org x' = org x -> gnode x' = gnode x -> assoc_xact x' = assoc_xact x ->
  tm_response x' = tm_response x -> tm_holding x' = tm_holding x ->
  timers_ok (timers c') ->
  (forall id, tm_response x <> Some id -> tm_holding x <> Some id -> tm_see (timers c') id = tm_see (timers c) id) ->
  (forall pk, ~ owns x pk -> is_Some (packets c !! pk) -> is_Some (packets c' !! pk)) ->
  (forall pk, owns x' pk -> owns x pk \/ forall j, live c j -> ~ owns (get_xact c j) pk) ->
  xact_ok_but d c' i x' -> ctx_ok_but d c'.
Proof.
  intros x x' Hok Hl Hf Hx Ho Hg Ha Htr Hth Ht Hs Hp Hw Hxi. subst x x'.
  injection Hf as He1 He2 Hpool Hn.
  assert (forall o g, in_list c' o g = in_list c o g) as Hin by (intros [] g; cbn; unfold get_lists; by rewrite Hn).
  assert (forall j, org (get_xact c' j) = org (get_xact c j) /\ gnode (get_xact c' j) = gnode (get_xact c j) /\
                    assoc_xact (get_xact c' j) = assoc_xact (get_xact c j) /\
    tm_response (get_xact c' j) = tm_response (get_xact c j) /\ tm_holding (get_xact c' j) = tm_holding (get_xact c j)) as Hsame.
  { intros j. destruct (decide (j = i)) as [->|]; [done|]. by rewrite Hx. }
  assert (forall j, live c' j <-> live c j) as Hlive.
  { intros j. unfold live. destruct (Hsame j) as (-> & -> & _). by setoid_rewrite Hin. }
  split.
  - rewrite He1, He2. apply Hok.
  - rewrite Hpool. apply Hok.
  - done.
  - intros o g. rewrite Hin, Hpool. destruct (c_lists _ c Hok o g) as [Hnd Hm]. split; [done|].
    intros j Hj. destruct (Hsame j) as (-> & -> & _). by apply Hm.
  - intros j Hj%Hlive. destruct (decide (j = i)) as [->|Hne]; [done|]. rewrite Hx by done.
    pose proof (c_xacts _ c Hok j Hj) as Hxj. pose proof (c_xacts _ c Hok i Hl) as Hxi0.
    split; try apply Hxj; try (intros _; by apply Hxj).
    + intros pk Hpk. apply Hp; [|by apply Hxj]. intros Hi. by apply Hne, (c_sep _ c Hok j i pk).
    + rewrite He1. by eapply (timers_apart None c), Hxj.
    + rewrite He2. by eapply (timers_apart None c), Hxj.
  - intros j k pk Hj%Hlive Hk%Hlive.
    destruct (decide (j = i)) as [->|Hji], (decide (k = i)) as [->|Hki]; try done.
    + rewrite (Hx k) by done. intros [H1|H1]%Hw H2; [by apply (c_sep _ c Hok i k pk)|by destruct (H1 k)].
    + rewrite (Hx j) by done. intros H2 [H1|H1]%Hw; [by apply (c_sep _ c Hok j i pk)|by destruct (H1 j)].
    + rewrite !Hx by done. by apply (c_sep _ c Hok).
  - intros j k Hj%Hlive. rewrite Hlive. destruct (Hsame j) as (_ & _ & -> & _), (Hsame k) as (_ & _ & -> & _).
    by apply (c_assoc _ c Hok).
  - intros id ev v Hv. destruct (decide (own_timer (get_xact c' i) id)) as [Ho'|Ho'].
    + eapply raises_own; try apply Hxi; try done; [rewrite He1, He2; apply Hok|by apply Hlive].
    + apply (raises_mono c); [done|done| |].
      * intros j _ Hj. destruct (Hsame j) as (_ & _ & _ & -> & ->). by rewrite Hlive.
      * apply (c_armed _ c Hok). rewrite <- Hs; [done|..]; intros E; apply Ho'; [left|right]; congruence.
Qed.

(** *** Sending and receiving *)

(** What holds of a transaction and of its timers after one step. *)
Lemma step_xact_ok c c' i ty p :
  let x := get_xact c i in
  xact_ok c i x -> seq_ok (did x ty p) ->
  (forall pk, owns (did x ty p) pk -> is_Some (packets c' !! pk)) ->
  timer_of c' i (g_response_event c') (tm_response x) (waiting (did x ty p)) ->
  timer_of c' i (g_holding_event c') (tm_holding x) True ->
  xact_ok c' i (did x ty p).
Proof. intros x Hx Hq Hp Hr Hh. split; [done|done|done|done|apply Hx|apply Hx]. Qed.

Lemma tx_sends x ty : seq_ok x -> tx_step_ok x ty = true ->
  step x < 3 /\ sends (org x) (Z.to_nat (step x)) = true /\ ~ waiting x.
Proof.
  intros Hq. unfold tx_step_ok, waiting. pose proof (q_step x Hq).
  destruct (org x), (gtp_xact_get_stage ty (xid x)); try done;
    rewrite bool_decide_eq_true; intros ->; split_and!; (lia || done).
Qed.

Lemma update_tx_eq c i ty teid pk p :
  let x := get_xact c i in
  ctx_ok c -> live c i -> packets c !! pk = Some p -> tx_step_ok x ty = true ->
  gtp_xact_update_tx c i ty teid (Some pk) =
    Some (CORE_OK, set_xact (set_packets c (<[pk := push_header p ty teid (xid x)]> (packets c))) i
                     (did x ty (Some pk))).
Proof.
  intros x Hok Hl Hp Hs. pose proof (c_xacts _ c Hok i Hl) as Hx. pose proof (x_seq _ _ _ _ Hx) as Hq.
  destruct Hl as (g & Hg & _). unfold gtp_xact_update_tx. fold x. fold x in Hg, Hx, Hq. rewrite Hg, Hs. cbn [negb].
  rewrite Hp. cbn -[decide]. destruct (tx_sends x ty Hq Hs) as [Hlt _]. rewrite decide_True; [done|].
  pose proof (q_step x Hq). lia.
Qed.

Lemma tx_ok c i ty teid pk p :
  let x := get_xact c i in
  ctx_ok c -> live c i -> packets c !! pk = Some p -> (forall j, live c j -> ~ owns (get_xact c j) pk) ->
  tx_step_ok x ty = true ->
  ctx_ok (set_xact (set_packets c (<[pk := push_header p ty teid (xid x)]> (packets c))) i
            (did x ty (Some pk))).
Proof.
  intros x Hok Hl Hp Hw Hs. pose proof (c_xacts _ c Hok i Hl) as Hx. pose proof (x_seq _ _ _ _ Hx) as Hq.
  destruct (tx_sends x ty Hq Hs) as (Hlt & Hsend & Hnw).
  assert (forall q, is_Some (packets c !! q) ->
            is_Some (<[pk := push_header p ty teid (xid x)]> (packets c) !! q)) as Hmore.
  { intros q Hs'. apply lookup_insert_is_Some'. by right. }
  set (c' := set_xact _ _ _).
  apply (change_ok None c c' i Hok Hl); unfold c'; rewrite ?get_set_same; try done.
  - intros j Hj. by rewrite get_set_other.
  - apply Hok.
  - intros q _. apply Hmore.
  - intros q [H|[= <-]]%owns_did; [by left|by right].
  - apply (step_xact_ok c); [done| | | |].
    + apply did_ok; [done|done|]. split; [done|]. by apply Hw.
    + intros q [H|[= <-]]%owns_did; [by apply Hmore, (x_packets _ _ _ _ Hx)|]. cbn. by rewrite lookup_insert_eq.
    + intros id Hid. destruct (x_response _ _ _ _ Hx id Hid) as (a & E & R). exists a. split; [exact E|].
      intros Ha. destruct (Hnw (R Ha)).
    + intros id Hid. apply (x_holding _ _ _ _ Hx id Hid).
Qed.

(** Starting or stopping a timer of a transaction. *)
Lemma timer_step c i ev t (R : Prop) :
  timers_ok (timers c) -> timer_of c i ev t R ->
  (timers_ok (timers (stop_timer c t)) /\ timer_of (stop_timer c t) i ev t False /\
   forall id, t <> Some id -> tm_see (timers (stop_timer c t)) id = tm_see (timers c) id) /\
  (timers_ok (timers (start_timer c t)) /\ timer_of (start_timer c t) i ev t True /\
   forall id, t <> Some id -> tm_see (timers (start_timer c t)) id = tm_see (timers c) id).
Proof.
  intros Hok Ht. destruct t as [id|]; [|done].
  destruct (Ht id eq_refl) as (a & E & _). unfold stop_timer, start_timer, timer_of. cbn.
  destruct (tm_stop_ok _ _ _ Hok E) as (H1 & H2 & H3), (tm_start_ok _ _ _ Hok E) as (H4 & H5 & H6).
  split; split_and!; try done.
  - intros _ [= <-]. exists false. split; [exact H2|done].
  - intros id' Hne. apply H3. congruence.
  - intros _ [= <-]. exists true. split; [exact H5|done].
  - intros id' Hne. apply H6. congruence.
Qed.

(** A change of the timers of a transaction only. *)
Record own_timers c c' (i : nat) (Rr Rh : Prop) : Prop := {
  o_ctx : c' = set_timers c (timers c');
  o_ok : timers_ok (timers c');
  o_response : timer_of c' i (g_response_event c) (tm_response (get_xact c i)) Rr;
  o_holding : timer_of c' i (g_holding_event c) (tm_holding (get_xact c i)) Rh;
  o_other : forall id, tm_response (get_xact c i) <> Some id -> tm_holding (get_xact c i) <> Some id ->
              tm_see (timers c') id = tm_see (timers c) id
}.

Lemma own_refl c i : ctx_ok c -> live c i -> own_timers c c i (waiting (get_xact c i)) True.
Proof.
  intros Hok Hl. pose proof (c_xacts _ c Hok i Hl) as Hx.
  split; [by destruct c|apply Hok|apply Hx|apply Hx|done].
Qed.

Lemma timer_of_see c c' i ev t R :
  (forall id, t = Some id -> tm_see (timers c') id = tm_see (timers c) id) ->
  timer_of c i ev t R -> timer_of c' i ev t R.
Proof. intros Hs Ht id Hid. rewrite (Hs id Hid). by apply Ht. Qed.

Lemma timer_of_see' c c' i ev t R :
  (forall id w, tm_see (timers c) id = Some w -> tm_see (timers c') id = Some w) ->
  timer_of c i ev t R -> timer_of c' i ev t R.
Proof. intros Hs Ht id Hid. destruct (Ht id Hid) as (a & E%Hs & Ha). by exists a. Qed.

Lemma timers_differ c i ev ev' t t' R R' id :
  ev <> ev' -> timer_of c i ev t R -> timer_of c i ev' t' R' -> t = Some id -> t' <> Some id.
Proof.
  intros Hne Ht Ht' H H'. destruct (Ht id H) as (a & E & _), (Ht' id H') as (a' & E' & _).
  rewrite E in E'. injection E' as ? _. done.
Qed.

Lemma own_holding c c' i R Rh :
  g_response_event c <> g_holding_event c -> own_timers c c' i R Rh ->
  own_timers c (start_timer c' (tm_holding (get_xact c i))) i R True /\
  own_timers c (stop_timer c' (tm_holding (get_xact c i))) i R False.
Proof.
  intros Hne [Hc Hok Hr Hh Ho]. destruct (timer_step _ _ _ _ _ Hok Hh) as ((Hok1 & Hh1 & Ho1) & Hok2 & Hh2 & Ho2).
  assert (forall id, tm_response (get_xact c i) = Some id -> tm_holding (get_xact c i) <> Some id) as Hd.
  { intros id Hid. by eapply (timers_differ c'). }
  split; split; try done.
  - rewrite Hc. by destruct (tm_holding _).
  - eapply timer_of_see; [|exact Hr]. intros id Hid. by apply Ho2, Hd.
  - intros id H1 H2. rewrite Ho2 by done. by apply Ho.
  - rewrite Hc. by destruct (tm_holding _).
  - eapply timer_of_see; [|exact Hr]. intros id Hid. by apply Ho1, Hd.
  - intros id H1 H2. rewrite Ho1 by done. by apply Ho.
Qed.

Lemma own_response c c' i R Rh :
  g_response_event c <> g_holding_event c -> own_timers c c' i R Rh ->
  own_timers c (start_timer c' (tm_response (get_xact c i))) i True Rh /\
  own_timers c (stop_timer c' (tm_response (get_xact c i))) i False Rh.
Proof.
  intros Hne [Hc Hok Hr Hh Ho]. destruct (timer_step _ _ _ _ _ Hok Hr) as ((Hok1 & Hr1 & Ho1) & Hok2 & Hr2 & Ho2).
  assert (forall id, tm_holding (get_xact c i) = Some id -> tm_response (get_xact c i) <> Some id) as Hd.
  { intros id Hid Hid'. by eapply (timers_differ c'). }
  split; split; try done.
  - rewrite Hc. by destruct (tm_response _).
  - eapply timer_of_see; [|exact Hh]. intros id Hid. by apply Ho2, Hd.
  - intros id H1 H2. rewrite Ho2 by done. by apply Ho.
  - rewrite Hc. by destruct (tm_response _).
  - eapply timer_of_see; [|exact Hh]. intros id Hid. by apply Ho1, Hd.
  - intros id H1 H2. rewrite Ho1 by done. by apply Ho.
Qed.

(** The identifiers given and the datagrams sent do not matter. *)
Lemma ctx_ok_ext c c' :
  frame c' = frame c -> xacts c' = xacts c -> timers c' = timers c -> packets c' = packets c ->
  ctx_ok c -> ctx_ok c'.
Proof.
  destruct c, c'. unfold frame. cbn. intros [= -> -> -> ->] -> -> -> [H1 H2 H3 H4 H5 H6 H7 H8].
  split; [exact H1|exact H2|exact H3|exact H4| |exact H6|exact H7|exact H8].
  intros i Hi. destruct (H5 i Hi). by split.
Qed.

Lemma send_ok c g pk ok :
  ctx_ok c -> is_Some (packets c !! pk) ->
  exists c', gtp_send c g pk ok = Some (ok, c') /\ ctx_ok c' /\ frame c' = frame c /\ xacts c' = xacts c /\
    packets c' = packets c.
Proof.
  intros Hok [p Hp]. unfold gtp_send. rewrite Hp. cbn. eexists. split; [done|].
  destruct ok; split_and!; try done. by apply (ctx_ok_ext c).
Qed.

Lemma own_frame c c' i R Rh : own_timers c c' i R Rh ->
  frame c' = frame c /\ xacts c' = xacts c /\ packets c' = packets c /\ sent c' = sent c.
Proof. intros [E _ _ _ _]. by rewrite E. Qed.

Lemma own_get c c' i R Rh j : own_timers c c' i R Rh -> get_xact c' j = get_xact c j.
Proof. intros Ho. unfold get_xact. by destruct (own_frame _ _ _ _ _ Ho) as (_ & -> & _). Qed.

Lemma own_ctx_ok c c' i R Rh :
  ctx_ok c -> live c i -> own_timers c c' i R Rh -> (R -> waiting (get_xact c i)) -> ctx_ok c'.
Proof.
  intros Hok Hl Ho HR. pose proof (own_get _ _ _ _ _ i Ho) as Hgi.
  destruct (own_frame _ _ _ _ _ Ho) as (Hf & Hx & Hp & _). pose proof (c_xacts _ c Hok i Hl) as Hxi.
  injection Hf as E1 E2 E3 E4. destruct Ho as [Hc Hot Hr Hh Hoo].
  apply (change_ok None c c' i Hok Hl); rewrite ?Hgi; try done.
  - unfold frame. congruence.
  - intros j _. unfold get_xact. by rewrite Hx.
  - by rewrite Hp.
  - auto.
  - split; try apply Hxi; rewrite ?Hp; try apply Hxi.
    + rewrite E1. intros id Hid. destruct (Hr id Hid) as (a & E & Ha). exists a. split; [done|]. auto.
    + rewrite E2. intros id Hid. destruct (Hh id Hid) as (a & E & Ha). by exists a.
Qed.

(** One step on without a packet. *)
Lemma accept_ok c c' i Rh ty :
  let x := get_xact c i in
  ctx_ok c -> live c i -> own_timers c c' i False Rh ->
  step x < 3 -> sends (org x) (Z.to_nat (step x)) = false ->
  ctx_ok (set_xact c' i (did x ty None)).
Proof.
  intros x Hok Hl Ho Hlt Hs. pose proof (c_xacts _ c Hok i Hl) as Hx.
  pose proof (x_seq _ _ _ _ Hx) as Hq. fold x in Hx, Hq.
  pose proof (own_get _ _ _ _ _ i Ho) as Hgi. pose proof (fun j => own_get _ _ _ _ _ j Ho) as Hgj.
  destruct (own_frame _ _ _ _ _ Ho) as (Hf & _ & Hp & _).
  injection Hf as E1 E2 E3 E4. destruct Ho as [_ Hot Hr Hh Hoo].
  set (c2 := set_xact _ _ _).
  apply (change_ok None c c2 i Hok Hl); unfold c2; rewrite ?get_set_same; try done.
  - unfold frame. cbn. congruence.
  - intros j Hj. by rewrite get_set_other.
  - cbn. by rewrite Hp.
  - intros q [H|?]%owns_did; [by left|done].
  - apply (step_xact_ok c); cbn [set_xact packets g_response_event g_holding_event].
    + exact Hx.
    + by apply did_ok.
    + rewrite Hp. intros q [H|?]%owns_did; [by apply Hx|done].
    + rewrite E1. intros id Hid. destruct (Hr id Hid) as (a & E & Ha). exists a. by split; [|intros ?%Ha].
    + rewrite E2. intros id Hid. destruct (Hh id Hid) as (a & E & Ha). by exists a.
Qed.

Lemma seq_at_some x k : seq_ok x -> 0 <= k < 3 -> exists s, seq_at x k = Some s /\ seq x !! Z.to_nat k = Some s.
Proof.
  intros Hq Hk. unfold seq_at. rewrite decide_True by lia.
  destruct (lookup_lt_is_Some_2 (seq x) (Z.to_nat k)) as [s ->]; [rewrite (q_len x Hq); lia|by exists s].
Qed.

(** What receiving decides. *)
Lemma rx_action_ok x ty : seq_ok x ->
  exists a, rx_action x ty = Some a /\
    match a with
    | Reject => True
    | Repeat p => forall pk, p = Some pk -> owns x pk
    | Accept _ => step x < 3 /\ sends (org x) (Z.to_nat (step x)) = false
    end.
Proof.
  intros Hq. unfold rx_action.
  destruct (seq_at_some x 0 Hq) as (s0 & E0 & L0); [lia|].
  destruct (seq_at_some x 1 Hq) as ([ty1 p1] & E1 & L1); [lia|].
  destruct (seq_at_some x 2 Hq) as ([ty2 p2] & E2 & L2); [lia|].
  destruct (org x), (gtp_xact_get_stage ty (xid x)); rewrite ?E0, ?E1, ?E2; cbn -[decide];
    repeat case_decide; eexists; (split; [done|]); try done.
  all: try (intros pk ->; by eapply owns_lookup).
  all: match goal with H : step _ = _ |- _ => rewrite H end; split; (lia || done).
Qed.

Lemma rx_ok c i ty ok :
  ctx_ok c -> live c i ->
  exists rv c', gtp_xact_update_rx c i ty ok = Some (rv, c') /\ ctx_ok c' /\ frame c' = frame c /\
    packets c' = packets c.
Proof.
  intros Hok Hl. pose proof (c_xacts _ c Hok i Hl) as Hx. pose proof (own_refl c i Hok Hl) as Ho.
  pose proof (x_seq _ _ _ _ Hx) as Hq. pose proof (own_holding _ _ _ _ _ (c_events _ c Hok) Ho) as [Ho1 _].
  unfold gtp_xact_update_rx. set (x := get_xact c i) in *.
  destruct (rx_action_ok x ty Hq) as (a & -> & Ha). cbn [mbind option_bind].
  pose proof Hl as (g & Hg & _). fold x in Hg. rewrite Hg.
  destruct a as [|[pk|]|hold].
  - by exists CORE_ERROR, c.
  - destruct (own_frame _ _ _ _ _ Ho1) as (Hf & Hxs & Hp & _).
    destruct (send_ok (start_timer c (tm_holding x)) g pk ok) as (c' & -> & Hok' & Hf' & _ & Hp').
    + by eapply own_ctx_ok.
    + rewrite Hp. apply Hx. by apply Ha.
    + cbn. do 2 eexists. split_and!; [done|done|congruence|congruence].
  - by exists CORE_EAGAIN, c.
  - destruct Ha as [Hlt Hs]. destruct (seq_next x Hq Hlt) as [ty0 Hn].
    pose proof (q_step x Hq) as Hst. unfold seq_at. rewrite decide_True by lia. rewrite Hn. cbn [mbind option_bind snd].
    do 2 eexists. split; [done|].
    assert (own_timers c (stop_timer (if hold then start_timer c (tm_holding x) else c) (tm_response x)) i False True) as Ho2.
    { destruct hold; [apply (own_response _ _ _ _ _ (c_events _ c Hok) Ho1)|apply (own_response _ _ _ _ _ (c_events _ c Hok) Ho)]. }
    destruct (own_frame _ _ _ _ _ Ho2) as (Hf & _ & Hp & _).
    split_and!; [by eapply accept_ok|done|done].
Qed.

(** *** Deleting *)

Lemma with_assoc_ok c i x a : xact_ok c i (with_assoc x a) <-> xact_ok c i x.
Proof.
  split; intros [[] ? ? ? ? ?]; (split; [split|..]; done).
Qed.

(** A transaction leaves, with its packets, its timers and its association. *)
Lemma remove_ok d c c' i :
  let x := get_xact c i in
  ctx_ok_but d c -> (forall j, j <> i -> d <> Some j) -> live c i ->
  g_response_event c' = g_response_event c -> g_holding_event c' = g_holding_event c ->
  gtp_xact_pool c' = release (gtp_xact_pool c) i ->
  (forall o g, in_list c' o g = filter (.≠ i) (in_list c o g)) ->
  (forall j, j <> i -> get_xact c' j = if decide (assoc_xact x = Some j) then with_assoc (get_xact c j) None
                                       else get_xact c j) ->
  timers_ok (timers c') -> (forall id, own_timer x id -> tm_see (timers c') id = None) ->
  (forall id, tm_response x <> Some id -> tm_holding x <> Some id -> tm_see (timers c') id = tm_see (timers c) id) ->
  (forall pk, ~ owns x pk -> packets c' !! pk = packets c !! pk) ->
  ctx_ok c' /\ forall j, live c' j <-> j <> i /\ live c j.
Proof.
  intros x Hok Hd Hl He1 He2 Hpool Hin Hx Ht Hown Hs Hp.
  assert (forall j, j <> i -> org (get_xact c' j) = org (get_xact c j) /\ gnode (get_xact c' j) = gnode (get_xact c j) /\
    (forall pk, owns (get_xact c' j) pk <-> owns (get_xact c j) pk)) as Hsame.
  { intros j Hj. rewrite (Hx j Hj). by case_decide. }
  pose proof (live_used _ c i Hok Hl) as Hui.
  destruct (release_unused _ i (c_pool _ c Hok) Hui) as [Hpok Hused].
  assert (forall j, live c' j <-> j <> i /\ live c j) as Hlive.
  { intros j. unfold live. destruct (decide (j = i)) as [->|Hj].
    - split; [|tauto]. intros (g & _ & H). rewrite Hin in H. by apply list_elem_of_filter in H as [? _].
    - destruct (Hsame j Hj) as (-> & -> & _). setoid_rewrite Hin. setoid_rewrite list_elem_of_filter.
      split; [intros (g & ? & ? & ?); split; [done|by exists g]|intros (_ & g & ? & ?); by exists g]. }
  split; [|done]. split.
  - rewrite He1, He2. apply Hok.
  - by rewrite Hpool.
  - done.
  - intros o g. rewrite Hin, Hpool. destruct (c_lists _ c Hok o g) as [Hnd Hm]. split; [by apply NoDup_filter|].
    intros j [Hj Hjl]%list_elem_of_filter. destruct (Hsame j Hj) as (-> & -> & _). destruct (Hm j Hjl) as (Hu & -> & ->).
    split; [|done]. by apply Hused.
  - intros j [Hj Hjl]%Hlive. pose proof (c_xacts _ c Hok j Hjl) as Hxj. pose proof (c_xacts _ c Hok i Hl) as Hxi.
    assert (xact_ok c' j (get_xact c j)) as Hj'.
    { split; try apply Hxj; try by intros _; apply Hxj, Hd.
      - intros pk Hpk. rewrite Hp; [by apply Hxj|]. intros Hi. by apply Hj, (c_sep _ c Hok j i pk).
      - rewrite He1. by eapply (timers_apart d c), Hxj.
      - rewrite He2. by eapply (timers_apart d c), Hxj. }
    rewrite (Hx j Hj). case_decide; [by apply with_assoc_ok|done].
  - intros j k pk [Hj Hjl]%Hlive [Hk Hkl]%Hlive. destruct (Hsame j Hj) as (_ & _ & ->), (Hsame k Hk) as (_ & _ & ->).
    by apply (c_sep _ c Hok).
  - intros j k [Hj Hjl]%Hlive. rewrite Hlive, (Hx j Hj). case_decide as Hij; [done|]. intros Ha.
    destruct (c_assoc _ c Hok j k Hjl Ha) as [Hkl Hka].
    assert (k <> i) as Hk by (intros ->; done). rewrite (Hx k Hk). case_decide as Hik; [|done].
    destruct (c_assoc _ c Hok i k Hl Hik) as [_ Hki]. congruence.
  - intros id ev v Hv. destruct (decide (own_timer x id)) as [Ho|Ho]; [by rewrite Hown in Hv|].
    apply (raises_mono c); [done|done| |].
    + intros j Hoj Hj. assert (j <> i) as Hne by by intros ->.
      split; [by apply Hlive|]. rewrite (Hx j Hne). by case_decide.
    + apply (c_armed _ c Hok). rewrite <- Hs; [done|..]; intros E; apply Ho; [by left|by right].
Qed.

Lemma free_all (l : list (option nat)) c :
  NoDup (omap id l) -> (forall pk, Some pk ∈ l -> is_Some (packets c !! pk)) ->
  exists ps, foldl (fun r pk => c ← r; pkbuf_free c pk) (Some c) l = Some (set_packets c ps) /\
    forall pk, ps !! pk = if decide (Some pk ∈ l) then None else packets c !! pk.
Proof.
  revert c. induction l as [|[k|] l IH]; intros c Hn Hl; cbn.
  - exists (packets c). split; [by destruct c|done].
  - cbn in Hn. apply NoDup_cons in Hn as [Hk Hn]. rewrite list_elem_of_omap in Hk.
    destruct (Hl k) as [p Hp]; [by left|]. rewrite Hp. cbn.
    destruct (IH (set_packets c (delete k (packets c))) Hn) as (ps & -> & Hps).
    + intros pk Hpk. cbn. rewrite lookup_delete_ne; [apply Hl; by right|].
      intros ->. apply Hk. by exists (Some pk).
    + exists ps. split; [done|]. intros pk. rewrite Hps. cbn.
      destruct (decide (pk = k)) as [->|Hne].
      * rewrite lookup_delete_eq, (decide_True (P := Some k ∈ Some k :: l)) by by left. by case_decide.
      * rewrite lookup_delete_ne by done. apply decide_ext. rewrite elem_of_cons.
        split; [by right|by intros [[= ?]|?]].
  - destruct (IH c Hn) as (ps & -> & Hps); [intros pk Hpk; apply Hl; by right|].
    exists ps. split; [done|]. intros pk. rewrite Hps. apply decide_ext. rewrite elem_of_cons.
    split; [by right|by intros [?|?]].
Qed.

Definition drop_timer (t : T) (o : option nat) : T := match o with Some id => tm_delete t id | None => t end.

Lemma delete_timer_eq c o : delete_timer c o = set_timers c (drop_timer (timers c) o).
Proof. by destruct c, o. Qed.

Lemma drop_timer_ok t o (w : nat -> tm_view) :
  timers_ok t -> (forall id, o = Some id -> tm_see t id = Some (w id)) ->
  timers_ok (drop_timer t o) /\
  forall id, tm_see (drop_timer t o) id = if decide (o = Some id) then None else tm_see t id.
Proof.
  intros Hok Hs. destruct o as [k|]; [|done].
  destruct (tm_delete_ok t k _ Hok (Hs k eq_refl)) as (H1 & H2 & H3). split; [done|]. intros id. cbn.
  case_decide as Hd; [by injection Hd as <-|]. apply H3. congruence.
Qed.

Lemma drop_timers_ok d c i :
  let x := get_xact c i in ctx_ok_but d c -> live c i ->
  let t := drop_timer (drop_timer (timers c) (tm_response x)) (tm_holding x) in
  timers_ok t /\ forall id, tm_see t id = if decide (own_timer x id) then None else tm_see (timers c) id.
Proof.
  intros x Hok Hl t. pose proof (c_xacts _ c Hok i Hl) as [_ _ Hr Hh _ _]. fold x in Hr, Hh.
  pose proof (c_events _ c Hok) as Hne.
  set (w ev id := match tm_see (timers c) id with Some w => w | None => mkView ev 0 false end).
  destruct (drop_timer_ok (timers c) (tm_response x) (w 0) (c_timers _ c Hok)) as [Hok1 Hs1].
  { intros id Hid. unfold w. by destruct (Hr id Hid) as (a & -> & _). }
  destruct (drop_timer_ok (drop_timer (timers c) (tm_response x)) (tm_holding x) (w 0) Hok1) as [Hok2 Hs2].
  { intros id Hid. rewrite Hs1. unfold w. destruct (Hh id Hid) as (a & E & _).
    rewrite decide_False; [by rewrite E|]. intros Hid'. by eapply (timers_differ c). }
  split; [done|]. intros id. unfold t. rewrite Hs2, Hs1. unfold own_timer. repeat case_decide; tauto.
Qed.

Lemma deassociate_get c i j k :
  assoc_xact (get_xact c i) = Some j -> assoc_xact (get_xact c j) = Some i ->
  get_xact (gtp_xact_deassociate c i j) k =
    if decide (k = i \/ k = j) then with_assoc (get_xact c k) None else get_xact c k.
Proof.
  intros Hi Hj. unfold gtp_xact_deassociate. rewrite decide_True by (by rewrite Hi, Hj).
  rewrite !get_set_xact.
  destruct (decide (k = j)), (decide (k = i)); subst; repeat case_decide; try done; tauto.
Qed.

Lemma deassociate_rest c i j :
  let c' := gtp_xact_deassociate c i j in
  frame c' = frame c /\ timers c' = timers c /\ packets c' = packets c /\ sent c' = sent c.
Proof. unfold gtp_xact_deassociate. by case_decide. Qed.

Lemma remove_lists c i :
  (exists g, gnode (get_xact c i) = Some g) ->
  (forall o g, i ∈ in_list c o g -> gnode (get_xact c i) = Some g /\ org (get_xact c i) = o) ->
  forall o g, in_list (remove_xact c i) o g = filter (.≠ i) (in_list c o g).
Proof.
  intros [g Hg] Hown o g'. unfold remove_xact. rewrite Hg. unfold in_list, get_lists. cbn -[decide].
  destruct (decide (g' = g)) as [->|Hne].
  - rewrite lookup_insert_eq. cbn -[decide]. fold (get_lists c g).
    case_decide as Ho; destruct o; cbn; try done; symmetry; apply DList.filter_ne_id;
      intros Hi.
    + destruct (Hown GTP_REMOTE_ORIGINATOR g Hi) as [_ E]. congruence.
    + destruct (Hown GTP_LOCAL_ORIGINATOR g Hi) as [_ E]. done.
  - rewrite lookup_insert_ne by done. fold (get_lists c g').
    destruct o; symmetry; apply DList.filter_ne_id; intros Hi.
    + destruct (Hown GTP_LOCAL_ORIGINATOR g' Hi) as [E _]. congruence.
    + destruct (Hown GTP_REMOTE_ORIGINATOR g' Hi) as [E _]. congruence.
Qed.

(** [gtp_xact_delete] of a live transaction frees its position, its packets and its
    timers. *)
Record deleted c c' (i : nat) : Prop := {
  d_ok : ctx_ok c';
  d_live : forall j, live c' j <-> j <> i /\ live c j;
  d_pool : gtp_xact_pool c' = release (gtp_xact_pool c) i;
  d_lists : forall o g, in_list c' o g = filter (.≠ i) (in_list c o g);
  d_packets : forall pk, packets c' !! pk = if decide (owns (get_xact c i) pk) then None else packets c !! pk;
  d_timers : forall id, tm_see (timers c') id =
               if decide (own_timer (get_xact c i) id) then None else tm_see (timers c) id;
  d_sent : sent c' = sent c;
  d_get : forall j, j <> i -> get_xact c' j =
            if decide (assoc_xact (get_xact c i) = Some j) then with_assoc (get_xact c j) None else get_xact c j;
  d_events : (g_response_event c', g_holding_event c') = (g_response_event c, g_holding_event c)
}.

Lemma xact_delete_ok d c i : ctx_ok_but d c -> (forall j, j <> i -> d <> Some j) -> live c i -> exists c', gtp_xact_delete c i = Some c' /\ deleted c c' i.
Proof.
  intros Hok Hd Hl. pose proof (c_xacts _ c Hok i Hl) as Hx. pose proof (drop_timers_ok d c i Hok Hl) as [Ht Hs].
  destruct (free_all (map snd (seq (get_xact c i))) c) as (ps & Hf & Hps); [apply Hx|apply Hx|].
  unfold gtp_xact_delete. rewrite Hf. cbn [mbind option_bind]. rewrite !delete_timer_eq. cbn [set_timers timers set_packets].
  set (t := drop_timer _ _) in *. set (c2 := set_timers _ t).
  set (c3 := match assoc_xact _ with Some j => _ | None => c2 end).
  pose proof Hl as (g & Hg & Hi). rewrite Hg. eexists. split; [done|].
  assert (frame c3 = frame c /\ timers c3 = t /\ packets c3 = ps /\ sent c3 = sent c /\
    forall k, get_xact c3 k = if decide ((k = i /\ assoc_xact (get_xact c i) <> None) \/ assoc_xact (get_xact c i) = Some k)
                              then with_assoc (get_xact c k) None else get_xact c k) as (E1 & E2 & E3 & E4 & E5).
  { unfold c3. destruct (assoc_xact (get_xact c i)) as [j|] eqn:Ha.
    - destruct (deassociate_rest c2 i j) as (-> & -> & -> & ->). split_and!; try done.
      intros k. rewrite (deassociate_get c2 i j k) by (done || by apply (c_assoc _ c Hok)).
      apply decide_ext. split; [intros [?|?]; [by left|right; congruence]|intros [[? _]|[= ?]]; auto].
    - split_and!; try done. intros k. rewrite decide_False; [done|]. by intros [[_ []]|?]. }
  assert (gnode (get_xact c3 i) = Some g /\ org (get_xact c3 i) = org (get_xact c i)) as [Eg Eo].
  { rewrite E5. by case_decide. }
  injection E1 as V1 V2 V3 V4.
  assert (forall o g, in_list c3 o g = in_list c o g) as Ein.
  { intros o g'. unfold in_list, get_lists. by rewrite V4. }
  set (c5 := set_pool _ _).
  assert (forall o g, in_list c5 o g = filter (.≠ i) (in_list c o g)) as Hlists.
  { intros o g'. change (in_list c5 o g') with (in_list (remove_xact c3 i) o g').
    rewrite remove_lists, Ein; [done|by exists g|]. intros o' g2. rewrite Ein, Eo, Eg, <- Hg. apply (c_lists _ c Hok). }
  assert (forall j, j <> i -> get_xact c5 j =
            if decide (assoc_xact (get_xact c i) = Some j) then with_assoc (get_xact c j) None else get_xact c j) as Hget.
  { intros j Hj. unfold c5, remove_xact. rewrite Eg.
    change (get_xact (set_pool _ _) j) with (get_xact c3 j). rewrite E5. apply decide_ext. tauto. }
  assert (timers c5 = t /\ packets c5 = ps /\ sent c5 = sent c /\ gtp_xact_pool c5 = release (gtp_xact_pool c) i /\
          g_response_event c5 = g_response_event c /\ g_holding_event c5 = g_holding_event c) as (F1 & F2 & F3 & F4 & F5 & F6).
  { unfold c5, remove_xact. rewrite Eg. cbn. by rewrite V3, V1, V2. }
  assert (forall pk, packets c5 !! pk = if decide (owns (get_xact c i) pk) then None else packets c !! pk) as Hpk by (by rewrite F2).
  assert (forall id, tm_see (timers c5) id = if decide (own_timer (get_xact c i) id) then None else tm_see (timers c) id)
    as Htm by (by rewrite F1).
  destruct (remove_ok d c c5 i Hok Hd Hl F5 F6 F4 Hlists Hget) as [Hok5 Hlive5].
  - by rewrite F1.
  - intros id Ho. by rewrite Htm, decide_True.
  - intros id H1 H2. rewrite Htm, decide_False; [done|]. unfold own_timer. tauto.
  - intros pk H. by rewrite Hpk, decide_False.
  - split; try done. by rewrite F5, F6.
Qed.

(** *** Creating *)

Lemma listed_live c o g i : ctx_ok c -> i ∈ in_list c o g -> live c i.
Proof. intros Hok Hi. destruct (c_lists _ c Hok o g) as [_ H]. destruct (H i Hi) as (_ & Hg & Ho). exists g. by rewrite Ho. Qed.

(** Changes outside of the lists: of transactions that are not live, new timers, and
    positions taken from the pool. *)
Lemma grow_ok c c' :
  ctx_ok c ->
  g_response_event c' = g_response_event c -> g_holding_event c' = g_holding_event c ->
  alloc_ok (gtp_xact_pool c') -> (forall j, used (gtp_xact_pool c) j -> used (gtp_xact_pool c') j) ->
  gnodes c' = gnodes c -> (forall j, live c j -> get_xact c' j = get_xact c j) ->
  timers_ok (timers c') -> (forall id w, tm_see (timers c) id = Some w -> tm_see (timers c') id = Some w) ->
  (forall id ev v, tm_see (timers c') id = Some (mkView ev v true) -> tm_see (timers c) id <> None) ->
  packets c' = packets c ->
  ctx_ok c' /\ forall j, live c' j <-> live c j.
Proof.
  intros Hok He1 He2 Hpool Hused Hn Hx Ht Hs Harm Hp.
  assert (forall o g, in_list c' o g = in_list c o g) as Hin by (intros [] g; cbn; unfold get_lists; by rewrite Hn).
  assert (forall j, live c' j <-> live c j) as Hlive.
  { intros j. split.
    - intros (g & _ & Hj). rewrite Hin in Hj. by eapply listed_live.
    - intros Hj. pose proof Hj as (g & ? & ?). exists g. by rewrite (Hx j Hj), Hin. }
  split; [|done]. split; try done.
  - rewrite He1, He2. apply Hok.
  - intros o g. rewrite Hin. destruct (c_lists _ c Hok o g) as [Hnd Hm]. split; [done|]. intros j Hj.
    rewrite Hx by by eapply listed_live. destruct (Hm j Hj) as (Hu & ? & ?). auto.
  - intros j Hj%Hlive. rewrite (Hx j Hj). pose proof (c_xacts _ c Hok j Hj) as Hxj.
    split; try apply Hxj; rewrite ?Hp, ?He1, ?He2; try apply Hxj;
      eapply timer_of_see'; try apply Hxj; done.
  - intros j k pk Hj%Hlive Hk%Hlive. rewrite (Hx j Hj), (Hx k Hk). by apply (c_sep _ c Hok).
  - intros j k Hj%Hlive. rewrite Hlive, (Hx j Hj). intros Ha. destruct (c_assoc _ c Hok j k Hj Ha) as [Hk ?].
    by rewrite (Hx k Hk).
  - intros id ev v Hv. apply (raises_mono c); [done|done| |].
    + intros j _ Hj. by rewrite Hlive, (Hx j Hj).
    + apply (c_armed _ c Hok). destruct (tm_see (timers c) id) as [w|] eqn:E; [|by destruct (Harm id ev v)].
      apply Hs in E. congruence.
Qed.

(** A transaction that has only its timers. *)
Record fresh_xact (x : xact) (o : originator) (id : Z) (g : nat) : Prop := {
  f_org : org x = o; f_xid : xid x = id; f_gnode : gnode x = Some g; f_step : step x = 0;
  f_seq : seq x = replicate 3 (0, None); f_assoc : assoc_xact x = None;
  f_rcount : tm_response x <> None -> response_rcount x = GTP_T3_RESPONSE_RETRY_COUNT;
  f_hcount : tm_holding x <> None -> holding_rcount x = GTP_T3_DUPLICATED_RETRY_COUNT
}.

Lemma fresh_seq_ok x o id g : fresh_xact x o id g -> seq_ok x /\ forall pk, ~ owns x pk.
Proof.
  intros Hf. assert (forall pk, ~ owns x pk) as Hn.
  { intros pk. unfold owns. rewrite (f_seq _ _ _ _ Hf).
    intros H. repeat (apply elem_of_cons in H as [?|H]; [done|]). by apply elem_of_nil in H. }
  split; [|done]. split; rewrite ?(f_seq _ _ _ _ Hf), ?(f_step _ _ _ _ Hf); try done.
  - intros k ty p Hk. assert (p = None) as ->.
    { apply list_elem_of_lookup_2 in Hk. apply elem_of_replicate_inv in Hk. by injection Hk. }
    split; [done|]. intros [? _]. lia.
  - cbn. constructor.
Qed.

(** The transaction [i] is not live and has timers that wait for it. *)
Record fresh_at c (i : nat) (o : originator) (id : Z) (g : nat) : Prop := {
  fr_ctx : ctx_ok c;
  fr_live : ~ live c i;
  fr_used : used (gtp_xact_pool c) i;
  fr_xact : fresh_xact (get_xact c i) o id g;
  fr_response : timer_of c i (g_response_event c) (tm_response (get_xact c i)) False;
  fr_holding : timer_of c i (g_holding_event c) (tm_holding (get_xact c i)) False
}.

Lemma append_ok c i o id g : fresh_at c i o id g ->
  let c' := append_xact c i in
  ctx_ok c' /\ (forall j, live c' j <-> j = i \/ live c j) /\
  forall o' g', in_list c' o' g' = in_list c o' g' ++ (if decide (o' = o /\ g' = g) then [i] else []).
Proof.
  intros [Hok Hl Hu Hf Hr Hh] c'. pose proof (fresh_seq_ok _ _ _ _ Hf) as [Hq Hown].
  assert (forall o g, i ∉ in_list c o g) as Hni by (intros o' g' Hi; by apply Hl; eapply listed_live).
  assert (forall o' g', in_list c' o' g' = in_list c o' g' ++ (if decide (o' = o /\ g' = g) then [i] else [])) as Hin.
  { intros o' g'. unfold c', append_xact. rewrite (f_gnode _ _ _ _ Hf), (f_org _ _ _ _ Hf).
    unfold in_list, get_lists. cbn -[decide]. destruct (decide (g' = g)) as [->|Hne].
    - rewrite lookup_insert_eq. cbn -[decide]. fold (get_lists c g).
      destruct o, o'; repeat case_decide; cbn; rewrite ?app_nil_r; intuition congruence.
    - rewrite lookup_insert_ne, (decide_False (P := _ /\ _)), app_nil_r by intuition congruence. done. }
  assert (frame c' = (g_response_event c, g_holding_event c, gtp_xact_pool c, gnodes c') /\ xacts c' = xacts c /\
          timers c' = timers c /\ packets c' = packets c) as (Hfr & Hxs & Ht & Hp).
  { unfold c', append_xact. by rewrite (f_gnode _ _ _ _ Hf). }
  injection Hfr as He1 He2 Hpool. assert (forall j, get_xact c' j = get_xact c j) as Hx by (intros j; unfold get_xact; by rewrite Hxs).
  assert (forall j, live c' j <-> j = i \/ live c j) as Hlive.
  { intros j. unfold live. rewrite Hx. setoid_rewrite Hin. split.
    - intros (g' & Hg & Hj). case_decide; rewrite ?app_nil_r in Hj; [|right; by exists g'].
      apply elem_of_app in Hj as [Hj|Hj%list_elem_of_singleton]; [right; by exists g'|by left].
    - intros [->|(g' & Hg & Hj)].
      + exists g. rewrite (f_gnode _ _ _ _ Hf), (f_org _ _ _ _ Hf), decide_True by done. split; [done|]. set_solver.
      + exists g'. split; [done|]. set_solver. }
  split_and!; [split|done|done].
  - rewrite He1, He2. apply Hok.
  - rewrite Hpool. apply Hok.
  - rewrite Ht. apply Hok.
  - intros o' g'. rewrite Hin, Hpool. destruct (c_lists _ c Hok o' g') as [Hnd Hm]. case_decide as Hd.
    + destruct Hd as [-> ->]. split.
      * apply NoDup_app. split_and!; [done| |apply NoDup_singleton]. intros j Hj ->%list_elem_of_singleton. by apply (Hni o g).
      * intros j. rewrite elem_of_app, list_elem_of_singleton, Hx. intros [Hj| ->]; [by apply Hm|]. split_and!; [done|apply Hf|apply Hf].
    + rewrite app_nil_r. split; [done|]. intros j. rewrite Hx. apply Hm.
  - intros j [->|Hj]%Hlive; rewrite Hx.
    + split; try done.
      * intros pk Hpk. by destruct (Hown pk).
      * rewrite He1. intros t Ht'. rewrite Ht. destruct (Hr t Ht') as (a & E & Ha). exists a. by split; [|intros ?%Ha].
      * rewrite He2. intros t Ht'. rewrite Ht. destruct (Hh t Ht') as (a & E & Ha). exists a. by split; [|intros ?%Ha].
      * intros _ H. by rewrite (f_rcount _ _ _ _ Hf H).
      * intros _ H. by rewrite (f_hcount _ _ _ _ Hf H).
    + pose proof (c_xacts _ c Hok j Hj) as Hxj. destruct Hxj. split; try done.
      * by rewrite Hp.
      * intros t Ht'. rewrite Ht, He1. auto.
      * intros t Ht'. rewrite Ht, He2. auto.
  - intros j k pk [->|Hj]%Hlive [->|Hk]%Hlive; rewrite !Hx; try done.
    + intros H. by destruct (Hown pk).
    + intros _ H. by destruct (Hown pk).
    + by apply (c_sep _ c Hok).
  - intros j k [->|Hj]%Hlive; rewrite !Hx, Hlive.
    + by rewrite (f_assoc _ _ _ _ Hf).
    + intros Ha. destruct (c_assoc _ c Hok j k Hj Ha). auto.
  - intros k ev v. rewrite Ht. intros Hv%(c_armed _ c Hok). apply (raises_mono c); [done|done| |done].
    intros j _ Hj. rewrite Hlive, Hx. auto.
Qed.

(** Everything but the transaction [i] and the timers is as it was. *)
Definition kept c c' (i : nat) : Prop :=
  (g_response_event c', g_holding_event c') = (g_response_event c, g_holding_event c) /\
  gnodes c' = gnodes c /\ packets c' = packets c /\ sent c' = sent c /\
  forall j, j <> i -> get_xact c' j = get_xact c j.

(** [t'] is [t] with one more timer. *)
Definition one_more (t t' : T) (o : option nat) (w : tm_view) : Prop :=
  (forall id, o = Some id -> tm_see t id = None /\ tm_see t' id = Some w) /\
  (forall id, o <> Some id -> tm_see t' id = tm_see t id).

Lemma one_more_keeps t t' o w id v : one_more t t' o w -> tm_see t id = Some v -> tm_see t' id = Some v.
Proof.
  intros [H1 H2] Hv. destruct (decide (o = Some id)) as [E|E]; [|by rewrite H2].
  destruct (H1 id E). congruence.
Qed.

Lemma create_timer_ok c i ev dur : timers_ok (timers c) ->
  match create_timer c i ev dur with
  | Some (Some id, c') =>
      exists t', c' = set_timers c t' /\ timers_ok t' /\
        one_more (timers c) t' (Some id) (mkView ev (Z.of_nat i + 1) false)
  | Some (None, c') => c' = c
  | None => timer_create (timers c) ev dur = None
  end.
Proof.
  intros Hok. unfold create_timer. pose proof (timer_create_ok (timers c) ev dur Hok) as H.
  destruct (timer_create (timers c) ev dur) as [[[id|] t]|]; cbn [mbind option_bind]; [| |done].
  - destruct H as (Hok1 & Hn & Hs & Ho). destruct (timer_set_param1_ok t id (Z.of_nat i + 1) _ Hok1 Hs) as (H1 & H2 & H3).
    eexists. split_and!; [done|done|]. split.
    + intros id' [= <-]. done.
    + intros id' Hne. rewrite H3, Ho by congruence. done.
  - subst t. by destruct c.
Qed.

Lemma fresh_change c i o id g t' x' k ev v :
  fresh_at c i o id g -> timers_ok t' -> one_more (timers c) t' k (mkView ev v false) -> fresh_xact x' o id g ->
  let c' := set_xact (set_timers c t') i x' in
  timer_of c' i (g_response_event c) (tm_response x') False ->
  timer_of c' i (g_holding_event c) (tm_holding x') False -> fresh_at c' i o id g /\ kept c c' i.
Proof.
  intros [Hok Hl Hu Hf Hr Hh] Ht Hs Hf' c' Hr' Hh'.
  destruct (grow_ok c c') as [Hok' Hlive]; try done.
  - apply Hok.
  - intros j Hj. unfold c'. rewrite get_set_other; [done|]. by intros ->.
  - intros id' w. by eapply one_more_keeps.
  - intros id' ev' v' Hv Hn. destruct (decide (k = Some id')) as [E|E].
    + destruct (proj1 Hs id' E) as [_ E']. cbn in Hv. congruence.
    + cbn in Hv. rewrite (proj2 Hs id' E) in Hv. congruence.
  - assert (~ live c' i) as Hl' by by rewrite Hlive.
    split; [split|split_and!]; try done; unfold c'; rewrite ?get_set_same; try done.
    intros j Hj. by rewrite get_set_other.
Qed.

Lemma create_response_ok c i o id g :
  fresh_at c i o id g -> tm_response (get_xact c i) = None -> tm_holding (get_xact c i) = None ->
  match create_response c i with
  | None => timer_create (timers c) (g_response_event c) GTP_T3_RESPONSE_DURATION = None
  | Some (ok, c') =>
      fresh_at c' i o id g /\ kept c c' i /\ tm_holding (get_xact c' i) = None /\
      gtp_xact_pool c' = gtp_xact_pool c /\ g_xact_id c' = g_xact_id c /\
      one_more (timers c) (timers c') (tm_response (get_xact c' i))
        (mkView (g_response_event c) (Z.of_nat i + 1) false)
  end.
Proof.
  intros Hf Hr Hh. unfold create_response. case_decide as He.
  { rewrite Hr. by split_and!. }
  pose proof (create_timer_ok c i (g_response_event c) GTP_T3_RESPONSE_DURATION (c_timers _ _ (fr_ctx _ _ _ _ _ Hf))) as Hc.
  destruct (create_timer _ _ _ _) as [[[k|] c']|]; cbn [mbind option_bind]; [|by subst c'; rewrite Hr; split_and!|done].
  destruct Hc as (t' & -> & Hok & Hm). set (x' := mkXact _ _ _ _ _ _ _ _ _ _). rewrite get_set_same.
  destruct (fresh_change c i o id g t' x' _ _ _ Hf Hok Hm) as [H1 H2].
  - destruct Hf as [_ _ _ [] _ _]. by split.
  - intros k' [= <-]. exists false. split; [by apply Hm|done].
  - cbn. by rewrite Hh.
  - by split_and!.
Qed.

Lemma create_holding_ok c i o id g :
  fresh_at c i o id g -> tm_holding (get_xact c i) = None ->
  match create_holding c i with
  | None => timer_create (timers c) (g_holding_event c) GTP_T3_DUPLICATED_DURATION = None
  | Some (ok, c') =>
      fresh_at c' i o id g /\ kept c c' i /\ tm_response (get_xact c' i) = tm_response (get_xact c i) /\
      gtp_xact_pool c' = gtp_xact_pool c /\ g_xact_id c' = g_xact_id c /\
      one_more (timers c) (timers c') (tm_holding (get_xact c' i))
        (mkView (g_holding_event c) (Z.of_nat i + 1) false)
  end.
Proof.
  intros Hf Hh. unfold create_holding. case_decide as He.
  { rewrite Hh. by split_and!. }
  pose proof (create_timer_ok c i (g_holding_event c) GTP_T3_DUPLICATED_DURATION (c_timers _ _ (fr_ctx _ _ _ _ _ Hf))) as Hc.
  destruct (create_timer _ _ _ _) as [[[k|] c']|]; cbn [mbind option_bind]; [|by subst c'; rewrite Hh; split_and!|done].
  destruct Hc as (t' & -> & Hok & Hm). set (x' := mkXact _ _ _ _ _ _ _ _ _ _). rewrite get_set_same.
  destruct (fresh_change c i o id g t' x' _ _ _ Hf Hok Hm) as [H1 H2].
  - destruct Hf as [_ _ _ [] _ _]. by split.
  - cbn. intros k' Hk'. destruct (fr_response _ _ _ _ _ Hf k' Hk') as (a & E & Ha). exists a.
    split; [by eapply one_more_keeps|done].
  - intros k' [= <-]. exists false. split; [by apply Hm|done].
  - by split_and!.
Qed.

(** The service has no timer left, maybe after giving one. *)
Definition no_timer (t : T) : Prop :=
  exists t' ev dur, timers_ok t' /\ (forall id w, tm_see t id = Some w -> tm_see t' id = Some w) /\
                    timer_create t' ev dur = None.

(** [c'] is [c] with a new transaction [i] in its list. *)
Record created c c' (i : nat) (o : originator) (id : Z) (g : nat) : Prop := {
  cr_ok : ctx_ok c';
  cr_live : forall j, live c' j <-> j = i \/ live c j;
  cr_new : ~ used (gtp_xact_pool c) i;
  cr_used : forall j, used (gtp_xact_pool c') j <-> j = i \/ used (gtp_xact_pool c) j;
  cr_xact : fresh_xact (get_xact c' i) o id g;
  cr_events : (g_response_event c', g_holding_event c') = (g_response_event c, g_holding_event c);
  cr_packets : packets c' = packets c;
  cr_sent : sent c' = sent c;
  cr_get : forall j, j <> i -> get_xact c' j = get_xact c j;
  cr_lists : forall o' g', in_list c' o' g' = in_list c o' g' ++ (if decide (o' = o /\ g' = g) then [i] else []);
  cr_timers : forall k, tm_see (timers c) k = if decide (own_timer (get_xact c' i) k) then None else tm_see (timers c') k;
  cr_idle : timer_of c' i (g_response_event c') (tm_response (get_xact c' i)) False /\
            timer_of c' i (g_holding_event c') (tm_holding (get_xact c' i)) False
}.

Lemma alloc_xact_ok c o id g : ctx_ok c ->
  match alloc_xact c o id g with
  | (Some i, c') =>
      fresh_at c' i o id g /\ kept c c' i /\ tm_response (get_xact c' i) = None /\ tm_holding (get_xact c' i) = None /\
      timers c' = timers c /\ g_xact_id c' = g_xact_id c /\ ~ used (gtp_xact_pool c) i /\
      forall j, used (gtp_xact_pool c') j <-> j = i \/ used (gtp_xact_pool c) j
  | (None, c') => c' = c /\ frees (gtp_xact_pool c) = []
  end.
Proof.
  intros Hok. unfold alloc_xact. destruct (alloc (gtp_xact_pool c)) as [[i|] p] eqn:Ha.
  - destruct (alloc_used _ _ _ (c_pool _ c Hok) Ha) as (Hp & Hn & Hu).
    assert (~ live c i) as Hl by by intros ?%(live_used None).
    set (c' := set_xact _ _ _). destruct (grow_ok c c') as [Hok' Hlive]; try done.
    + intros j Hj. apply Hu. by right.
    + intros j Hj. unfold c'. rewrite get_set_other; [done|]. by intros ->.
    + apply Hok.
    + intros k ev v Hv. cbn in Hv. by rewrite Hv.
    + assert (~ live c' i) as Hl' by by rewrite Hlive.
      split_and!; try done; unfold c'; rewrite ?get_set_same; try done.
      * split; rewrite ?get_set_same; try done. apply Hu. by left.
      * split_and!; try done. intros j Hj. by rewrite get_set_other.
  - destruct (alloc_fails _ _ (c_pool _ c Hok) Ha) as [-> Hf]. by destruct c.
Qed.

Lemma kept_trans c1 c2 c3 i : kept c1 c2 i -> kept c2 c3 i -> kept c1 c3 i.
Proof.
  intros (A1 & A2 & A3 & A4 & A5) (B1 & B2 & B3 & B4 & B5). split_and!; try congruence.
  intros j Hj. by rewrite B5, A5.
Qed.

(** The timers, then the list. *)
Lemma create_timers_ok c i o id g :
  fresh_at c i o id g -> tm_response (get_xact c i) = None -> tm_holding (get_xact c i) = None ->
  match create_timers c i with
  | None => no_timer (timers c)
  | Some (ok, c') =>
      fresh_at c' i o id g /\ kept c c' i /\ gtp_xact_pool c' = gtp_xact_pool c /\ g_xact_id c' = g_xact_id c /\
      forall k, tm_see (timers c) k = if decide (own_timer (get_xact c' i) k) then None else tm_see (timers c') k
  end.
Proof.
  intros Hf Hr Hh. unfold create_timers. pose proof (create_response_ok c i o id g Hf Hr Hh) as H1.
  destruct (create_response c i) as [[ok1 c1]|]; cbn [mbind option_bind].
  2:{ exists (timers c), (g_response_event c), GTP_T3_RESPONSE_DURATION. split_and!; [apply Hf|done|done]. }
  destruct H1 as (Hf1 & Hk1 & Hh1 & Hp1 & Hi1 & Hm1).
  assert (forall k, tm_see (timers c) k = if decide (own_timer (get_xact c1 i) k) then None else tm_see (timers c1) k) as Hs1.
  { intros k. case_decide as Hd; unfold own_timer in Hd; rewrite Hh1 in Hd.
    - destruct Hd as [Hd|]; [|done]. by apply Hm1.
    - symmetry. apply Hm1. tauto. }
  destruct ok1; cbn [negb]; [|by split_and!].
  pose proof (create_holding_ok c1 i o id g Hf1 Hh1) as H2.
  destruct (create_holding c1 i) as [[ok2 c2]|]; cbn [mbind option_bind].
  2:{ exists (timers c1), (g_holding_event c1), GTP_T3_DUPLICATED_DURATION. split_and!; [apply Hf1| |done].
      intros k w. by eapply one_more_keeps. }
  destruct H2 as (Hf2 & Hk2 & Hr2 & Hp2 & Hi2 & Hm2).
  split_and!; [done|by eapply kept_trans|congruence|congruence|].
  intros k. case_decide as Hd; unfold own_timer in Hd; rewrite Hr2 in Hd.
  - destruct Hd as [Hd|Hd]; [by apply Hm1|].
    destruct (tm_see (timers c) k) as [w|] eqn:E; [|done]. exfalso.
    apply (one_more_keeps _ _ _ _ _ _ Hm1) in E. destruct (proj1 Hm2 k Hd). congruence.
  - destruct Hm1 as [_ Ho1], Hm2 as [_ Ho2]. rewrite Ho2, Ho1; tauto.
Qed.

Lemma gnodes_lists c c' o g : gnodes c' = gnodes c -> in_list c' o g = in_list c o g.
Proof. intros E. unfold in_list, get_lists. by rewrite E. Qed.

Lemma created_ok c c1 c2 i o id g :
  ctx_ok c -> kept c c2 i -> fresh_at c2 i o id g -> ~ used (gtp_xact_pool c) i ->
  (forall j, used (gtp_xact_pool c2) j <-> j = i \/ used (gtp_xact_pool c) j) -> timers c1 = timers c ->
  (forall k, tm_see (timers c1) k = if decide (own_timer (get_xact c2 i) k) then None else tm_see (timers c2) k) ->
  created c (append_xact c2 i) i o id g.
Proof.
  intros Hok (He & Hg & Hp & Hs & Hx) Hf Hn Hu Ht Htm. destruct (append_ok c2 i o id g Hf) as (Hok' & Hl & Hli).
  assert (forall j, get_xact (append_xact c2 i) j = get_xact c2 j) as Hgx.
  { intros j. unfold append_xact. by destruct (gnode (get_xact c2 i)). }
  assert (forall o g, in_list c2 o g = in_list c o g) as Hin by (intros; by apply gnodes_lists).
  assert (forall j, j <> i -> live c2 j <-> live c j) as Hlive.
  { intros j Hj. unfold live. rewrite (Hx j Hj). by setoid_rewrite Hin. }
  assert (frame (append_xact c2 i) = (g_response_event c2, g_holding_event c2, gtp_xact_pool c2, gnodes (append_xact c2 i)) /\
          packets (append_xact c2 i) = packets c2 /\ sent (append_xact c2 i) = sent c2 /\
          timers (append_xact c2 i) = timers c2) as (Hfr & Hp' & Hs' & Ht').
  { unfold append_xact. by destruct (gnode (get_xact c2 i)). }
  injection Hfr as E1 E2 E3. split; try done.
  - intros j. rewrite Hl. destruct (decide (j = i)) as [->|Hj]; [tauto|]. by rewrite Hlive.
  - by rewrite E3.
  - rewrite Hgx. apply Hf.
  - by rewrite E1, E2.
  - congruence.
  - congruence.
  - intros j Hj. rewrite Hgx. auto.
  - intros o' g'. by rewrite Hli, Hin.
  - intros k. by rewrite Hgx, Ht', <- Htm, Ht.
  - rewrite Hgx, E1, E2. split; (eapply timer_of_see; [|apply Hf]); intros; by rewrite Ht'.
Qed.

(** [gtp_xact_remote_create]: a new transaction, or none when the pool is empty. *)
Lemma remote_create_ok c g sqn : ctx_ok c ->
  match gtp_xact_remote_create c g sqn with
  | Some (Some i, c') => created c c' i GTP_REMOTE_ORIGINATOR (GTP_SQN_TO_XID sqn) g
  | Some (None, c') => ctx_ok c' /\ packets c' = packets c /\ forall j, live c' j <-> live c j
  | None => no_timer (timers c)
  end.
Proof.
  intros Hok. unfold gtp_xact_remote_create.
  pose proof (alloc_xact_ok c GTP_REMOTE_ORIGINATOR (GTP_SQN_TO_XID sqn) g Hok) as Ha.
  destruct (alloc_xact _ _ _ _) as [[i|] c1]; [|by destruct Ha as [-> _]].
  destruct Ha as (Hf & Hk & Hr & Hh & Ht & _ & Hn & Hu). pose proof (create_timers_ok c1 i _ _ _ Hf Hr Hh) as Hc.
  destruct (create_timers c1 i) as [[ok c2]|]; cbn [mbind option_bind]; [|by rewrite <- Ht].
  destruct Hc as (Hf2 & Hk2 & Hp2 & _ & Htm). pose proof (kept_trans _ _ _ _ Hk Hk2) as Hk3. destruct ok; cbn [negb].
  - eapply (created_ok c c1); try done. by rewrite Hp2.
  - split_and!; [apply Hf2|apply Hk3|]. destruct Hk3 as (_ & Hg & _ & _ & Hx). intros j. unfold live.
    destruct (decide (j = i)) as [->|Hj].
    + split; intros Hl; exfalso; [by apply (fr_live _ _ _ _ _ Hf2)|]. by apply Hn, (live_used None).
    + rewrite (Hx j Hj). by setoid_rewrite (fun o g => gnodes_lists c c2 o g Hg).
Qed.

(** [gtp_xact_local_create]: a new transaction with its first packet. *)
Definition unowned c (pk : nat) : Prop := forall j, live c j -> ~ owns (get_xact c j) pk.

Lemma created_unowned c c' i o id g pk : created c c' i o id g -> unowned c pk -> unowned c' pk.
Proof.
  intros Hc Hu j [->|Hj]%(cr_live _ _ _ _ _ _ Hc).
  - by apply (fresh_seq_ok _ _ _ _ (cr_xact _ _ _ _ _ _ Hc)).
  - destruct (decide (j = i)) as [->|Hne]; [by apply (fresh_seq_ok _ _ _ _ (cr_xact _ _ _ _ _ _ Hc))|].
    rewrite (cr_get _ _ _ _ _ _ Hc) by done. by apply Hu.
Qed.

(** The state after a step that sends. *)
Definition after_tx c (i : nat) (ty teid : Z) (pk : nat) (p : packet) : ctx :=
  set_xact (set_packets c (<[pk := push_header p ty teid (xid (get_xact c i))]> (packets c))) i
    (did (get_xact c i) ty (Some pk)).

Lemma local_create_ok c g ty teid pk p :
  ctx_ok c -> packets c !! pk = Some p -> unowned c pk ->
  let id := NEXT_ID (g_xact_id c) GTP_MIN_XACT_ID GTP_MAX_XACT_ID in
  match gtp_xact_local_create c g ty teid (Some pk) with
  | Some (Some i, c') => exists c1,
      created c c1 i GTP_LOCAL_ORIGINATOR id g /\ g_xact_id c1 = id /\
      gtp_xact_get_stage ty id = GTP_XACT_INITIAL_STAGE /\ c' = after_tx c1 i ty teid pk p /\ ctx_ok c'
  | Some (None, c') => ctx_ok c'
  | None => no_timer (timers c)
  end.
Proof.
  intros Hok Hp Hu id. unfold gtp_xact_local_create. fold id.
  pose proof (alloc_xact_ok c GTP_LOCAL_ORIGINATOR id g Hok) as Ha.
  destruct (alloc_xact _ _ _ _) as [[i|] c1]; [|by destruct Ha as [-> _]].
  destruct Ha as (Hf & Hk & Hr & Hh & Ht & _ & Hn & Hus).
  assert (fresh_at (set_id c1 id) i GTP_LOCAL_ORIGINATOR id g) as Hf1.
  { destruct Hf as [H1 H2 H3 H4 H5 H6]. split; try done. by apply (ctx_ok_ext c1). }
  pose proof (create_timers_ok (set_id c1 id) i _ _ _ Hf1 Hr Hh) as Hc.
  destruct (create_timers (set_id c1 id) i) as [[ok c2]|]; cbn [mbind option_bind]; [|by rewrite <- Ht].
  destruct Hc as (Hf2 & Hk2 & Hp2 & Hid2 & Htm). assert (kept c c2 i) as Hk3 by by eapply kept_trans.
  destruct ok; cbn [negb]; [|by apply Hf2].
  assert (created c (append_xact c2 i) i GTP_LOCAL_ORIGINATOR id g) as Hcr.
  { eapply (created_ok c (set_id c1 id)); try done. by rewrite Hp2. }
  set (c3 := append_xact c2 i) in *. pose proof (created_unowned _ _ _ _ _ _ _ Hcr Hu) as Hu3.
  assert (live c3 i) as Hl3 by (apply (cr_live _ _ _ _ _ _ Hcr); by left).
  assert (packets c3 !! pk = Some p) as Hp3 by by rewrite (cr_packets _ _ _ _ _ _ Hcr).
  pose proof (cr_xact _ _ _ _ _ _ Hcr) as Hx3. pose proof (cr_ok _ _ _ _ _ _ Hcr) as Hok3.
  destruct (tx_step_ok (get_xact c3 i) ty) eqn:Hs.
  - rewrite (update_tx_eq c3 i ty teid pk p Hok3 Hl3 Hp3 Hs). cbn [mbind option_bind].
    rewrite decide_True by done. exists c3. split_and!; [done| | |done|by apply tx_ok].
    + unfold c3, append_xact. by destruct (gnode _).
    + unfold tx_step_ok in Hs. rewrite (f_org _ _ _ _ Hx3), (f_xid _ _ _ _ Hx3), (f_step _ _ _ _ Hx3) in Hs.
      by destruct (gtp_xact_get_stage ty id).
  - unfold gtp_xact_update_tx. rewrite (f_gnode _ _ _ _ Hx3), Hs. cbn. done.
Qed.

(** *** Committing *)

Lemma commit_action_ok x ty :
  match commit_action x ty with
  | Send r => 1 <= step x /\ sends (org x) (Z.to_nat (step x - 1)) = true /\ (r = true -> waiting x)
  | _ => True
  end.
Proof.
  unfold commit_action, waiting. destruct (org x), (gtp_xact_get_stage ty (xid x)); repeat case_decide; try done;
    match goal with H : step _ = _ |- _ => rewrite H end; split_and!; done || lia.
Qed.

Lemma commit_ok c i ok : ctx_ok c -> live c i -> 1 <= step (get_xact c i) ->
  exists rv c', gtp_xact_commit c i ok = Some (rv, c') /\ ctx_ok c'.
Proof.
  intros Hok Hl Hst. pose proof (c_xacts _ c Hok i Hl) as Hx. pose proof (own_refl c i Hok Hl) as Ho.
  pose proof (x_seq _ _ _ _ Hx) as Hq. pose proof (q_step _ Hq) as [_ Hst3]. unfold gtp_xact_commit.
  pose proof Hl as (g & -> & _).
  destruct (seq_at_some (get_xact c i) (step (get_xact c i) - 1) Hq) as (s & -> & Hs); [lia|]. cbn [mbind option_bind].
  pose proof (commit_action_ok (get_xact c i) (fst s)) as Ha. destruct (commit_action _ _) as [| |r].
  - by exists CORE_ERROR, c.
  - destruct (xact_delete_ok None c i Hok) as (c' & -> & Hd); [done|done|]. exists CORE_OK, c'. split; [done|apply Hd].
  - destruct Ha as (_ & Hsend & Hw).
    destruct (sent_before _ (Z.to_nat (step (get_xact c i) - 1)) Hq) as (ty & pk & E); [lia|done|].
    rewrite Hs in E. injection E as ->. cbn [snd].
    pose proof (own_response _ _ _ _ _ (c_events _ c Hok) Ho) as [Ho1 _].
    set (c1 := if r then _ else c).
    assert (ctx_ok c1 /\ packets c1 = packets c) as [Hok1 Hp1].
    { unfold c1. destruct r; [|done]. split; [|by apply (own_frame _ _ _ _ _ Ho1)].
      eapply own_ctx_ok; [done..|]. auto. }
    destruct (send_ok c1 g pk ok Hok1) as (c' & -> & Hok' & _).
    { rewrite Hp1. apply Hx. by eapply owns_lookup. }
    cbn. by do 2 eexists.
Qed.

(** *** Timers that expire *)

(** A timer fires and its event is handled with nothing in between. *)
Definition expire c (id : nat) (ev v : Z) (ok : bool) : option (status * ctx) :=
  handle_timeout (timer_fired c id) (ev, v) ok.

(** The event [e] speaks of a transaction that is still there, and still in the
    state in which its timer was started. *)
Definition due c (e : Z * Z) : Prop :=
  exists i, snd e = Z.of_nat i + 1 /\ live c i /\
    (fst e = g_response_event c /\ waiting (get_xact c i) /\ tm_response (get_xact c i) <> None \/
     fst e = g_holding_event c /\ tm_holding (get_xact c i) <> None).

Lemma counts_ok d c i a b :
  let x := with_rcounts (get_xact c i) a b in
  ctx_ok c -> live c i ->
  (d <> Some i -> tm_response x <> None -> 1 <= a <= 3) -> (d <> Some i -> tm_holding x <> None -> b = 1) ->
  ctx_ok_but d (set_xact c i x).
Proof.
  intros x Hok Hl Ha Hb. pose proof (c_xacts _ c Hok i Hl) as Hx.
  apply (change_ok d c _ i Hok Hl); rewrite ?get_set_same; try done.
  - intros j Hj. by rewrite get_set_other.
  - apply Hok.
  - by left.
  - destruct Hx as [[] Hp Hr Hh _ _]. split; [by split|done|done|done|done|done].
Qed.

Lemma live_frame c c' j : gnodes c' = gnodes c -> xacts c' = xacts c -> live c' j <-> live c j.
Proof. intros Hg Hx. unfold live, get_xact. rewrite Hx. by setoid_rewrite (fun o g => gnodes_lists c c' o g Hg). Qed.

Lemma live_counts c i a b : live c i -> live (set_xact c i (with_rcounts (get_xact c i) a b)) i.
Proof. intros (g & Hg & Hi). exists g. by rewrite get_set_same. Qed.

(** Deleting whatever the counts are. *)
Lemma delete_counts_ok c i a b : ctx_ok c -> live c i ->
  exists c', gtp_xact_delete (set_xact c i (with_rcounts (get_xact c i) a b)) i = Some c' /\
    deleted (set_xact c i (with_rcounts (get_xact c i) a b)) c' i.
Proof.
  intros Hok Hl. apply (xact_delete_ok (Some i)); [by apply counts_ok|intros j Hj [= ?]; congruence|by apply live_counts].
Qed.

(** The response timer: another attempt, or the end. *)
Lemma response_timeout_ok c i ok :
  let x := get_xact c i in
  ctx_ok c -> live c i -> waiting x -> tm_response x <> None ->
  exists rv c', gtp_xact_timeout c (Z.of_nat i + 1) (g_response_event c) ok = Some (rv, c') /\ ctx_ok c'.
Proof.
  intros x Hok Hl Hw Ht. pose proof (c_xacts _ c Hok i Hl) as Hx. pose proof (x_rcount _ _ _ _ Hx ltac:(done) Ht) as Hn.
  pose proof (x_seq _ _ _ _ Hx) as Hq. fold x in Hx, Hn, Hq.
  assert (exists ty pk, seq_at x (step x - 1) = Some (ty, Some pk) /\ owns x pk) as (ty & pk & Hs & Hown).
  { pose proof (q_step x Hq). destruct (sent_before x (Z.to_nat (step x - 1)) Hq) as (ty & pk & E).
    - unfold waiting in Hw. destruct (org x); lia.
    - unfold waiting in Hw. by destruct (org x); rewrite Hw.
    - exists ty, pk. unfold seq_at. unfold waiting in Hw. rewrite decide_True by (destruct (org x); lia).
      split; [done|]. by eapply owns_lookup. }
  unfold gtp_xact_timeout. rewrite decide_False by lia. replace (Z.to_nat (Z.of_nat i + 1 - 1)) with i by lia. fold x.
  pose proof Hl as (g & Hg & _). fold x in Hg. rewrite Hg, (decide_True (P := g_response_event c = _)) by done.
  set (n := u8 (response_rcount x - 1)). assert (n = response_rcount x - 1) as En by (unfold n; apply u8_id; unfold inw; lia).
  set (c1 := set_xact c i _). case_decide as Hpos.
  - assert (ctx_ok c1) as Hok1.
    { apply counts_ok; try done; [lia|]. intros _ H. by apply Hx. }
    assert (live c1 i) as Hl1 by by apply live_counts.
    pose proof (own_response _ _ _ _ _ (c_events _ c1 Hok1) (own_refl c1 i Hok1 Hl1)) as [Ho _].
    assert (get_xact c1 i = with_rcounts x n (holding_rcount x)) as Eg by by apply get_set_same.
    rewrite Eg in Ho. change (tm_response (with_rcounts x n (holding_rcount x))) with (tm_response x) in Ho.
    set (c2 := start_timer c1 (tm_response x)) in *.
    assert (ctx_ok c2) as Hok2 by (eapply own_ctx_ok; [done..|by rewrite Eg]).
    destruct (own_frame _ _ _ _ _ Ho) as (Hf2 & Hx2 & Hp2 & _). injection Hf2 as _ _ _ Hg2.
    rewrite Hs. cbn [mbind option_bind snd].
    destruct (send_ok c2 g pk ok Hok2) as (c3 & -> & Hok3 & Hf3 & Hx3 & _).
    { rewrite Hp2. by apply Hx. }
    cbn [mbind option_bind]. injection Hf3 as _ _ _ Hg3. destruct ok; [by do 2 eexists|].
    destruct (xact_delete_ok None c3 i Hok3) as (c4 & -> & Hd); [done| |].
    { apply (live_frame c2); [done..|]. by apply (live_frame c1). }
    cbn. do 2 eexists. split; [done|apply Hd].
  - destruct (delete_counts_ok c i n (holding_rcount x) Hok Hl) as (c2 & E & Hd). fold x in E. fold c1 in E. rewrite E.
    cbn. do 2 eexists. split; [done|apply Hd].
Qed.

(** The holding timer: the end, its count being 1. *)
Lemma holding_timeout_eq c i ok :
  let x := get_xact c i in
  ctx_ok c -> live c i -> tm_holding x <> None ->
  exists c', gtp_xact_timeout c (Z.of_nat i + 1) (g_holding_event c) ok = Some (CORE_OK, c') /\
    deleted (set_xact c i (with_rcounts x (response_rcount x) 0)) c' i.
Proof.
  intros x Hok Hl Ht. pose proof (c_xacts _ c Hok i Hl) as Hx. pose proof (x_hcount _ _ _ _ Hx ltac:(done) Ht) as Hn.
  fold x in Hn. unfold gtp_xact_timeout. rewrite decide_False by lia. replace (Z.to_nat (Z.of_nat i + 1 - 1)) with i by lia.
  fold x. pose proof Hl as (g & Hg & _). fold x in Hg. rewrite Hg.
  rewrite (decide_False (P := g_holding_event c = g_response_event c)) by (intros E; symmetry in E; by apply (c_events _ c Hok)).
  rewrite (decide_True (P := g_holding_event c = _)) by done. rewrite Hn. change (u8 (1 - 1)) with 0.
  rewrite decide_False by lia.
  destruct (delete_counts_ok c i (response_rcount x) 0 Hok Hl) as (c2 & E & Hd). fold x in E. rewrite E.
  by exists c2.
Qed.

(** An event that is due is handled. *)
Lemma timeout_ok c e ok : ctx_ok c -> due c e ->
  exists rv c', handle_timeout c e ok = Some (rv, c') /\ ctx_ok c'.
Proof.
  destruct e as [ev v]. unfold handle_timeout, due. cbn [fst snd].
  intros Hok (i & -> & Hl & [(-> & Hw & Ht)|(-> & Ht)]).
  - by apply response_timeout_ok.
  - destruct (holding_timeout_eq c i ok Hok Hl Ht) as (c' & -> & Hd). do 2 eexists. split; [done|apply Hd].
Qed.

(** A timer that fires stops, and its event is due. *)
Lemma fired_ok c id ev v :
  ctx_ok c -> tm_see (timers c) id = Some (mkView ev v true) -> ev = g_response_event c \/ ev = g_holding_event c ->
  ctx_ok (timer_fired c id) /\ due (timer_fired c id) (ev, v).
Proof.
  intros Hok Hv Hev. destruct (c_armed _ c Hok id ev v Hv) as [H1 H2]. unfold timer_fired.
  destruct Hev as [E|E]; [destruct (H1 E) as (i & Hl & -> & Ht)|destruct (H2 E) as (i & Hl & -> & Ht)]; subst ev.
  - pose proof (own_response _ _ _ _ _ (c_events _ c Hok) (own_refl c i Hok Hl)) as [_ Ho].
    rewrite Ht in Ho. cbn [stop_timer] in Ho. set (c0 := set_timers c _) in *.
    assert (waiting (get_xact c i)) as Hw.
    { destruct (x_response _ _ _ _ (c_xacts _ c Hok i Hl) id Ht) as (a & E & Ha). rewrite E in Hv. injection Hv as ->. auto. }
    split; [by eapply own_ctx_ok|]. exists i. split; [done|]. split; [done|]. left. split; [done|]. split; [done|].
    by change (tm_response (get_xact c i) <> None); rewrite Ht.
  - pose proof (own_holding _ _ _ _ _ (c_events _ c Hok) (own_refl c i Hok Hl)) as [_ Ho].
    rewrite Ht in Ho. cbn [stop_timer] in Ho. set (c0 := set_timers c _) in *.
    split; [by eapply own_ctx_ok|]. exists i. split; [done|]. split; [done|]. right. split; [done|].
    by change (tm_holding (get_xact c i) <> None); rewrite Ht.
Qed.

Lemma expire_ok c id ev v ok :
  ctx_ok c -> tm_see (timers c) id = Some (mkView ev v true) -> ev = g_response_event c \/ ev = g_holding_event c ->
  exists rv c', expire c id ev v ok = Some (rv, c') /\ ctx_ok c'.
Proof. intros Hok Hv Hev. destruct (fired_ok c id ev v Hok Hv Hev). by apply timeout_ok. Qed.

(** *** Associating, deleting all *)

Lemma assoc_ok c c' :
  ctx_ok c -> frame c' = frame c -> timers c' = timers c -> packets c' = packets c ->
  (forall j, exists a, get_xact c' j = with_assoc (get_xact c j) a) ->
  (forall i j, live c i -> assoc_xact (get_xact c' i) = Some j -> live c j /\ assoc_xact (get_xact c' j) = Some i) ->
  ctx_ok c'.
Proof.
  intros Hok Hf Ht Hp Hx Ha. injection Hf as E1 E2 E3 E4.
  assert (forall o g, in_list c' o g = in_list c o g) as Hin by (intros; by apply gnodes_lists).
  assert (forall j, org (get_xact c' j) = org (get_xact c j) /\ gnode (get_xact c' j) = gnode (get_xact c j) /\
    tm_response (get_xact c' j) = tm_response (get_xact c j) /\ tm_holding (get_xact c' j) = tm_holding (get_xact c j) /\
    forall pk, owns (get_xact c' j) pk <-> owns (get_xact c j) pk) as Hs.
  { intros j. by destruct (Hx j) as [a ->]. }
  assert (forall j, live c' j <-> live c j) as Hlive.
  { intros j. unfold live. destruct (Hs j) as (-> & -> & _). by setoid_rewrite Hin. }
  split; rewrite ?E1, ?E2, ?E3, ?Ht; try apply Hok.
  - intros o g. rewrite Hin. destruct (c_lists _ c Hok o g) as [Hn Hm]. split; [done|]. intros j Hj.
    destruct (Hs j) as (-> & -> & _). by apply Hm.
  - intros j Hj%Hlive. destruct (Hx j) as [a ->]. apply with_assoc_ok. destruct (c_xacts _ c Hok j Hj) as [H1 H2 H3 H4 H5 H6].
    split; try done; rewrite ?Hp, ?E1, ?E2; try done; (eapply timer_of_see; [|eassumption]; intros; by rewrite Ht).
  - intros i j pk Hi%Hlive Hj%Hlive. destruct (Hs i) as (_ & _ & _ & _ & ->), (Hs j) as (_ & _ & _ & _ & ->).
    by apply (c_sep _ c Hok).
  - intros i j Hi%Hlive. rewrite Hlive. by apply Ha.
  - intros id ev v Hv%(c_armed _ c Hok). apply (raises_mono c); [done|done| |done].
    intros j _ Hj. destruct (Hs j) as (_ & _ & -> & -> & _). by rewrite Hlive.
Qed.

Lemma associate_ok c i j : ctx_ok c -> live c i -> live c j -> ctx_ok (gtp_xact_associate c i j).
Proof.
  intros Hok Hi Hj. unfold gtp_xact_associate. case_decide as Hd; [|done]. destruct Hd as [Hai Haj].
  set (c' := set_xact _ _ _).
  assert (forall k, get_xact c' k = with_assoc (get_xact c k)
            (if decide (k = j) then Some i else if decide (k = i) then Some j else assoc_xact (get_xact c k))) as E.
  { intros k. unfold c'. rewrite !get_set_xact. destruct (decide (k = j)), (decide (k = i)); subst;
      repeat case_decide; try done; try tauto. by destruct (get_xact c k). }
  apply (assoc_ok c); try done; [intros k; by eexists|].
  intros a b Ha. rewrite !E. cbn. destruct (decide (a = j)) as [->|Haj'].
  - intros [= <-]. rewrite (decide_True (P := i = i)) by done. by case_decide; subst.
  - case_decide as Hai'.
    + subst. intros [= <-]. by rewrite decide_True.
    + intros Hab. destruct (c_assoc _ c Hok a b Ha Hab) as [Hb Hba].
      rewrite !decide_False by congruence. done.
Qed.

Lemma deassociate_ok c i j : ctx_ok c -> live c i -> assoc_xact (get_xact c i) = Some j ->
  ctx_ok (gtp_xact_deassociate c i j).
Proof.
  intros Hok Hi Ha. destruct (c_assoc _ c Hok i j Hi Ha) as [Hj Hb]. destruct (deassociate_rest c i j) as (Hf & Ht & Hp & _).
  pose proof (deassociate_get c i j) as E. apply (assoc_ok c); try done.
  - intros k. rewrite E by done. case_decide; [by eexists|].
    exists (assoc_xact (get_xact c k)). by destruct (get_xact c k).
  - intros a b Hla. rewrite !E by done. case_decide as Hd; [done|]. intros Hab.
    destruct (c_assoc _ c Hok a b Hla Hab) as [Hlb Hba]. split; [done|].
    rewrite decide_False; [done|]. intros [->| ->]; apply Hd; [right|left]; congruence.
Qed.

Lemma delete_list_ok (l : list nat) c :
  ctx_ok c -> NoDup l -> (forall i, i ∈ l -> live c i) ->
  exists c', foldl (fun r i => c ← r; gtp_xact_delete c i) (Some c) l = Some c' /\ ctx_ok c' /\
    (forall j, live c' j <-> (j ∉ l) /\ live c j) /\
    (forall o g, in_list c' o g = filter (.∉ l) (in_list c o g)) /\
    (forall j, used (gtp_xact_pool c') j <-> (j ∉ l) /\ used (gtp_xact_pool c) j) /\ sent c' = sent c.
Proof.
  revert c. induction l as [|i l IH]; intros c Hok Hn Hl.
  - exists c. split_and!; [done|done| | | |done].
    + intros j. split; [split; [apply not_elem_of_nil|done]|by intros [_ ?]].
    + intros o g. symmetry. induction (in_list c o g) as [|j q IHq]; [done|].
      rewrite filter_cons_True by apply not_elem_of_nil. by rewrite IHq.
    + intros j. split; [split; [apply not_elem_of_nil|done]|by intros [_ ?]].
  - apply NoDup_cons in Hn as [Hi Hn]. assert (live c i) as Hli by (apply Hl; by left).
    destruct (xact_delete_ok None c i Hok) as (c1 & E & [H1 H2 H3 H4 H5 H6 H7 H8 H9]); [done|done|].
    destruct (IH c1 H1 Hn) as (c' & E' & Hok' & Hlive & Hin & Hu & Hs).
    { intros j Hj. apply H2. split; [by intros ->|]. apply Hl. by right. }
    exists c'. cbn [foldl]. cbn [mbind option_bind]. rewrite E. split_and!; [done|done| | | |congruence].
    + intros j. rewrite Hlive, H2, not_elem_of_cons. tauto.
    + intros o g. rewrite Hin, H4. rewrite list_filter_filter. apply list_filter_iff. intros j.
      rewrite not_elem_of_cons. tauto.
    + intros j. rewrite Hu, H3, not_elem_of_cons.
      destruct (release_unused _ i (c_pool _ c Hok) (live_used _ c i Hok Hli)) as [_ ->]. tauto.
Qed.

Lemma delete_all_ok c g : ctx_ok c ->
  exists c', gtp_xact_delete_all c g = Some c' /\ ctx_ok c' /\
    (forall j, live c' j <-> live c j /\ gnode (get_xact c j) <> Some g) /\
    (forall o, in_list c' o g = []) /\ sent c' = sent c.
Proof.
  intros Hok. unfold gtp_xact_delete_all.
  destruct (delete_list_ok (in_list c GTP_LOCAL_ORIGINATOR g) c Hok) as (c1 & E1 & Hok1 & Hl1 & Hin1 & _ & Hs1).
  { apply (c_lists _ c Hok). }
  { intros i. by apply listed_live. }
  cbn [in_list] in E1. rewrite E1. cbn [mbind option_bind].
  destruct (delete_list_ok (in_list c1 GTP_REMOTE_ORIGINATOR g) c1 Hok1) as (c2 & E2 & Hok2 & Hl2 & Hin2 & _ & Hs2).
  { apply (c_lists _ c1 Hok1). }
  { intros i. by apply listed_live. }
  exists c2. split_and!; [done|done| | |congruence].
  - intros j. rewrite Hl2, Hl1, Hin1, list_elem_of_filter. split.
    + intros (Hr & Hl & Hlive). split; [done|]. intros Hg. destruct Hlive as (g' & Hg' & Hj).
      rewrite Hg in Hg'. injection Hg' as <-. destruct (org (get_xact c j)); [done|]. apply Hr. by split.
    + intros [Hlive Hg]. assert (forall o, j ∉ in_list c o g) as Hn.
      { intros o Hj. destruct (c_lists _ c Hok o g) as [_ Hm]. by destruct (Hm j Hj) as (_ & ? & _). }
      split_and!; [|apply Hn|done]. intros [_ Hj]. by apply (Hn GTP_REMOTE_ORIGINATOR).
  - assert (forall l : list nat, filter (.∉ l) l = []) as Hnil.
    { intros l. destruct (filter _ l) as [|j q] eqn:E; [done|].
      assert (j ∈ filter (.∉ l) l) as Hj by (rewrite E; by left). by apply list_elem_of_filter in Hj as [? ?]. }
    intros []; rewrite Hin2.
    + by rewrite (Hin1 GTP_LOCAL_ORIGINATOR), Hnil.
    + apply Hnil.
Qed.

End spec.
End GtpXactInv.
