(* ===== verification/GtpXactSpec.v ===== *)
(** What the transactions of [GtpXact] promise: no operation crashes, whatever came
    before; requests are repeated, and repeated requests answered, as the protocol
    wants; a response reaches the transaction of its request, which is then gone. *)

From S2P Require Import Prelude Alloc Pool Pkbuf DList Timer TimerSpec TimerService.
From S2P Require Import TlvMsg GtpMessage GtpMessageSpec GtpXact GtpXactInv.

Module GtpXactSpec.
Import GtpMessage GtpXact GtpXactInv.

(** ** What is on the wire *)

Lemma stage_known ty id : gtp_xact_get_stage ty id <> GTP_XACT_UNKNOWN_STAGE -> 0 < ty < 2 ^ 8.
Proof.
  intros Hs. unfold gtp_xact_get_stage in Hs.
  assert (Forall (fun t => 0 < t < 2 ^ 8) (initial_types ++ triggered_types ++ final_types)) as Hf by by_decide.
  rewrite Forall_forall in Hf. repeat case_decide; try done; apply Hf; rewrite !elem_of_app; tauto.
Qed.

(** A transaction identifier survives its sequence number. *)
Lemma xid_sqn id : inw 24 id -> GTP_SQN_TO_XID (GTP_XID_TO_SQN id) = id.
Proof.
  intros Hid. unfold GTP_SQN_TO_XID, GTP_XID_TO_SQN.
  assert (inw 32 (id << 8)) as Hw by (change 32 with (24 + 8); by apply inw_shiftl).
  rewrite u32_id, bswap32_bswap32 by done. rewrite Z.shiftr_shiftl_l by lia. apply Z.shiftl_0_r.
Qed.

(** Room for the header in front of the message. *)
Record room (p : packet) : Prop := {
  rm_front : GTPV2C_HEADER_LEN <= Pkbuf.payload (pkbuf p);
  rm_len : 0 <= Pkbuf.len (pkbuf p);
  rm_fit : Pkbuf.payload (pkbuf p) + Pkbuf.len (pkbuf p) <= Z.of_nat (length (cluster p));
  rm_max : Pkbuf.len (pkbuf p) + GTPV2C_HEADER_LEN < 2 ^ 16
}.

Lemma datagram_push p ty teid id : room p ->
  datagram (push_header p ty teid id) =
    header_bytes (tx_header ty teid id (Pkbuf.len (pkbuf p) + GTPV2C_HEADER_LEN)) ++ datagram p.
Proof.
  intros [H1 H2 H3 H4]. unfold push_header, Pkbuf.pkbuf_header, datagram, GTPV2C_HEADER_LEN in *.
  destruct p as [[nx cb off tl len fl] cl]. cbn [pkbuf cluster Pkbuf.payload Pkbuf.len Pkbuf.tot_len] in *.
  rewrite decide_False, decide_False, decide_False by lia. cbn [pkbuf cluster Pkbuf.payload Pkbuf.len].
  rewrite u16_id by (unfold inw; lia). set (hb := header_bytes _).
  assert (length hb = 12%nat) as Hh by done.
  destruct (split3 cl (off - 12) (12 + len)) as (a & m & z & -> & Ha & Hm); [lia..|].
  destruct (split3 m 0 12) as (e & x & y & -> & He & Hx); [lia..|].
  destruct e; [|simpl in He; lia]. cbn [app] in *. rewrite length_app in Hm.
  rewrite <- (assoc_L (++)), Ha, put_app by (rewrite Hh; lia).
  rewrite (assoc_L (++) hb). rewrite get_app by (rewrite length_app, Hh; lia). f_equal.
  replace off with (Z.of_nat (length (a ++ x))) by (rewrite length_app; lia).
  rewrite (assoc_L (++) a). by rewrite get_app by lia.
Qed.

(** What the peer reads in it. *)
Lemma wire_push p ty teid id : room p -> 0 < ty < 2 ^ 8 -> inw 24 id ->
  let d := datagram (push_header p ty teid id) in
  h_type (header_of d) = ty /\ GTP_SQN_TO_XID (sqn (header_of d)) = id /\ drop 12 d = datagram p.
Proof.
  intros Hr Hty Hid d. unfold d. rewrite datagram_push by done. set (hd := tx_header _ _ _ _).
  assert (header_of (header_bytes hd ++ datagram p) = header_of (header_bytes hd)) as -> by done.
  rewrite GtpMessageSpec.header_of_bytes.
  - split_and!; [done|by apply xid_sqn|done].
  - unfold hd, tx_header, GtpMessageSpec.header_inw. cbn [flags h_type h_length GtpMessage.teid sqn].
    split_and!; [done|unfold inw; lia|apply bswap16_inw|apply bswap32_inw..].
Qed.

Section spec.
Context {P T : Type} {AllocP : Allocator P nat} {TimersT : TimerService T}.
Abbreviation ctx := (ctx P T).
Abbreviation ctx_ok := (ctx_ok_but None).
Implicit Types c : ctx.

(** ** Every state that can be reached *)

(** No transaction, and no timer that raises the events of the transactions. *)
Record initial c : Prop := {
  i_events : g_response_event c <> g_holding_event c;
  i_pool : alloc_ok (gtp_xact_pool c);
  i_timers : timers_ok (timers c);
  i_lists : gnodes c = ∅;
  i_armed : forall id w, tm_see (timers c) id = Some w -> tv_armed w = true ->
              tv_event w <> g_response_event c /\ tv_event w <> g_holding_event c
}.

(** What the rest of the program may do: allocate packets, free those it has not
    handed over, and call the operations, the first time with a packet of its own;
    [gtp_xact_commit] needs a step done, [gtp_xact_deassociate] an association. *)
Inductive xstep c : ctx -> Prop :=
| st_packet pk p : packets c !! pk = None -> xstep c (set_packets c (<[pk := p]> (packets c)))
| st_free pk : unowned c pk -> xstep c (set_packets c (delete pk (packets c)))
| st_local g ty teid pk r c' :
    is_Some (packets c !! pk) -> unowned c pk ->
    gtp_xact_local_create c g ty teid (Some pk) = Some (r, c') -> xstep c c'
| st_receive g ty sqn ok r c' : gtp_xact_receive c g ty sqn ok = Some (r, c') -> xstep c c'
| st_tx i ty teid pk rv c' :
    live c i -> is_Some (packets c !! pk) -> unowned c pk ->
    gtp_xact_update_tx c i ty teid (Some pk) = Some (rv, c') -> xstep c c'
| st_commit i ok rv c' :
    live c i -> 1 <= step (get_xact c i) -> gtp_xact_commit c i ok = Some (rv, c') -> xstep c c'
| st_associate i j : live c i -> live c j -> xstep c (gtp_xact_associate c i j)
| st_deassociate i j : live c i -> assoc_xact (get_xact c i) = Some j -> xstep c (gtp_xact_deassociate c i j)
| st_delete_all g c' : gtp_xact_delete_all c g = Some c' -> xstep c c'.

(** The transactions and the events of their timers that wait in the queue.  A timer
    fires at any time (the queue has room for its event); the event is handled when
    those in front of it are gone, with any operations in between, and it must then be [due]: the code does not look
    whether it is ([stale_timeout] below). *)
Inductive sstep : ctx * list (Z * Z) -> ctx * list (Z * Z) -> Prop :=
| ss_operation c c' q : xstep c c' -> sstep (c, q) (c', q)
| ss_fire c q id ev v :
    tm_see (timers c) id = Some (mkView ev v true) -> ev = g_response_event c \/ ev = g_holding_event c ->
    sstep (c, q) (timer_fired c id, event_timer_expire_func q ev v)
| ss_handle c e q ok rv c' :
    due c e -> handle_timeout c e ok = Some (rv, c') -> sstep (c, e :: q) (c', q).

Lemma initial_ok c : initial c -> ctx_ok c.
Proof.
  intros [He Hp Ht Hl Ha].
  assert (forall o g, in_list c o g = []) as Hin by (intros [] g; unfold in_list, get_lists; by rewrite Hl).
  assert (forall i, ~ live c i) as Hn by (intros i (g & _ & Hi); rewrite Hin in Hi; by apply elem_of_nil in Hi).
  split; try done.
  - intros o g. rewrite Hin. split; [constructor|]. by intros i Hi%elem_of_nil.
  - by intros i Hi%Hn.
  - by intros i j pk Hi%Hn.
  - by intros i j Hi%Hn.
  - intros id ev v Hv. destruct (Ha id _ Hv eq_refl) as [H1 H2]. by split.
Qed.

Lemma packets_ok c ps :
  ctx_ok c -> (forall j pk, live c j -> owns (get_xact c j) pk -> is_Some (ps !! pk)) -> ctx_ok (set_packets c ps).
Proof.
  intros [H1 H2 H3 H4 H5 H6 H7 H8] Hp. split; [exact H1|exact H2|exact H3|exact H4| |exact H6|exact H7|exact H8].
  intros i Hi. destruct (H5 i Hi) as [G1 G2 G3 G4 G5 G6]. split; try done. intros pk. by apply Hp.
Qed.

Lemma tx_step_safe c i ty teid pk :
  ctx_ok c -> live c i -> is_Some (packets c !! pk) -> unowned c pk ->
  exists rv c', gtp_xact_update_tx c i ty teid (Some pk) = Some (rv, c') /\ ctx_ok c'.
Proof.
  intros Hok Hl [p Hp] Hu. destruct (tx_step_ok (get_xact c i) ty) eqn:Hs.
  - rewrite (update_tx_eq c i ty teid pk p Hok Hl Hp Hs). do 2 eexists. split; [done|]. by apply tx_ok.
  - pose proof Hl as (g & Hg & _). unfold gtp_xact_update_tx. rewrite Hg, Hs. by do 2 eexists.
Qed.

Lemma receive_safe c g ty sqn ok : ctx_ok c ->
  match gtp_xact_receive c g ty sqn ok with
  | Some (_, c') => ctx_ok c'
  | None => no_timer (timers c)
  end.
Proof.
  intros Hok. unfold gtp_xact_receive.
  destruct (gtp_xact_find_by_xid c g ty (GTP_SQN_TO_XID sqn)) as [i|] eqn:Hf; cbn [mbind option_bind].
  - destruct (rx_ok c i ty ok Hok) as (rv & c' & -> & Hok' & _); [|done].
    unfold gtp_xact_find_by_xid in Hf.
    destruct (gtp_xact_get_stage ty (GTP_SQN_TO_XID sqn)); [done|..|destruct (marked _)];
      apply find_some in Hf as [Hi%list_elem_of_In _].
    + by apply (listed_live c GTP_REMOTE_ORIGINATOR g).
    + by apply (listed_live c GTP_LOCAL_ORIGINATOR g).
    + by apply (listed_live c GTP_REMOTE_ORIGINATOR g).
    + by apply (listed_live c GTP_LOCAL_ORIGINATOR g).
  - pose proof (remote_create_ok c g sqn Hok) as Hc.
    destruct (gtp_xact_remote_create c g sqn) as [[[i|] c1]|]; cbn [mbind option_bind]; [|apply Hc|done].
    destruct (rx_ok c1 i ty ok) as (rv & c' & -> & Hok' & _); [apply Hc|apply Hc; by left|done].
Qed.

Lemma xstep_ok c c' : ctx_ok c -> xstep c c' -> ctx_ok c'.
Proof.
  intros Hok Hs. destruct Hs as [pk p Hp|pk Hu|g ty teid pk r c' [p Hp] Hu E|g ty sqn ok r c' E|i ty teid pk rv c' Hl Hp Hu E
    |i ok rv c' Hl Hst E|i j Hi Hj|i j Hi Ha|g c' E].
  - apply packets_ok; [done|]. intros j k Hj Hk. apply lookup_insert_is_Some'. right.
    by apply (x_packets _ _ _ _ (c_xacts _ c Hok j Hj)).
  - apply packets_ok; [done|]. intros j k Hj Hk. rewrite lookup_delete_ne; [by apply (x_packets _ _ _ _ (c_xacts _ c Hok j Hj))|].
    intros ->. by apply (Hu j).
  - pose proof (local_create_ok c g ty teid pk p Hok Hp Hu) as H. rewrite E in H.
    destruct r as [i|]; [|done]. by destruct H as (c1 & _ & _ & _ & _ & H).
  - pose proof (receive_safe c g ty sqn ok Hok) as H. by rewrite E in H.
  - destruct (tx_step_safe c i ty teid pk Hok Hl Hp Hu) as (rv' & c2 & E' & Hok'). congruence.
  - destruct (commit_ok c i ok Hok Hl Hst) as (rv' & c2 & E' & Hok'). congruence.
  - by apply associate_ok.
  - by apply deassociate_ok.
  - destruct (delete_all_ok c g Hok) as (c2 & E' & Hok' & _). congruence.
Qed.

Lemma sstep_ok s s' : ctx_ok s.1 -> sstep s s' -> ctx_ok s'.1.
Proof.
  intros Hok Hs. destruct Hs as [c c' q Hx|c q id ev v Hv Hev|c e q ok rv c' Hd E]; cbn [fst] in *.
  - by eapply xstep_ok.
  - by apply (fired_ok c id ev v).
  - destruct (timeout_ok c e ok Hok Hd) as (rv' & c2 & E' & Hok'). congruence.
Qed.

Lemma reachable_ok c0 c q : initial c0 -> rtc sstep (c0, []) (c, q) -> ctx_ok c.
Proof.
  intros Hi%initial_ok Hr. enough (forall s s', rtc sstep s s' -> ctx_ok s.1 -> ctx_ok s'.1) as H by by apply (H _ _ Hr).
  intros s s' Hs. induction Hs; eauto using sstep_ok.
Qed.

(** C16: a program calls the operations in any order, [gtp_xact_commit] on
    transactions with a step done ([1 <= step]), and the events of the timers that
    fire wait in a queue and are handled later, with other operations in between.
    In every state so reached transactions and packets are where they belong, and no
    operation dereferences a null pointer, uses or frees a packet that is not there,
    or leaves an array: sending a step, committing a step, and deleting always have
    a result; creating and receiving have one as long as there are timers.  A timer
    that fires leaves the state in order, and its event is due; and an event that is
    due when its turn comes, that is, whose transaction has not been deleted or
    answered meanwhile, has a result, and leaves the state in order.  That it is due
    is assumed of the events that are handled: the code does not check it, and the
    event of a deleted transaction makes it use what is freed (the lemmas
    [stale_timeout] and [stale_timeout_deleted]). *)
Theorem xact_safe c0 c q :
  initial c0 -> rtc sstep (c0, []) (c, q) ->
  ctx_ok c /\
  (forall g ty teid pk, is_Some (packets c !! pk) -> unowned c pk ->
     gtp_xact_local_create c g ty teid (Some pk) = None -> no_timer (timers c)) /\
  (forall g ty sqn ok, gtp_xact_receive c g ty sqn ok = None -> no_timer (timers c)) /\
  (forall i, live c i ->
     (forall ty teid pk, is_Some (packets c !! pk) -> unowned c pk ->
        is_Some (gtp_xact_update_tx c i ty teid (Some pk))) /\
     (forall ok, 1 <= step (get_xact c i) -> is_Some (gtp_xact_commit c i ok))) /\
  (forall id ev v, tm_see (timers c) id = Some (mkView ev v true) ->
     ev = g_response_event c \/ ev = g_holding_event c ->
     ctx_ok (timer_fired c id) /\ due (timer_fired c id) (ev, v)) /\
  (forall e ok, due c e -> exists rv c', handle_timeout c e ok = Some (rv, c') /\ ctx_ok c') /\
  (forall g, exists c', gtp_xact_delete_all c g = Some c' /\ (forall o, in_list c' o g = [])).
Proof.
  intros Hi Hr. pose proof (reachable_ok c0 c q Hi Hr) as Hok. split_and!; [done|..].
  - intros g ty teid pk [p Hp] Hu E. pose proof (local_create_ok c g ty teid pk p Hok Hp Hu) as H. by rewrite E in H.
  - intros g ty sqn ok E. pose proof (receive_safe c g ty sqn ok Hok) as H. by rewrite E in H.
  - intros i Hl. split.
    + intros ty teid pk Hp Hu. destruct (tx_step_safe c i ty teid pk Hok Hl Hp Hu) as (rv & c' & -> & _). done.
    + intros ok Hst. by destruct (commit_ok c i ok Hok Hl Hst) as (rv & c' & -> & _).
  - intros id ev v. by apply fired_ok.
  - intros e ok. by apply timeout_ok.
  - intros g. destruct (delete_all_ok c g Hok) as (c' & E & _ & _ & Hin & _). by exists c'.
Qed.

(** ** Requests that get no response *)

(** [i] has sent the packet [pk] of its last step and waits for the answer. *)
Record awaits c (i id : nat) (g pk : nat) (p : packet) (n : Z) : Prop := {
  a_live : live c i;
  a_waiting : waiting (get_xact c i);
  a_gnode : gnode (get_xact c i) = Some g;
  a_timer : tm_response (get_xact c i) = Some id;
  a_armed : tm_see (timers c) id = Some (mkView (g_response_event c) (Z.of_nat i + 1) true);
  a_stored : option_map snd (seq_at (get_xact c i) (step (get_xact c i) - 1)) = Some (Some pk);
  a_packet : packets c !! pk = Some p;
  a_count : response_rcount (get_xact c i) = n
}.

(** The response timer fires with more attempts left. *)
Lemma attempt c i id g pk p n :
  ctx_ok c -> awaits c i id g pk p n -> 1 < n <= 3 ->
  exists c', expire c id (g_response_event c) (Z.of_nat i + 1) true = Some (CORE_OK, c') /\
    ctx_ok c' /\ awaits c' i id g pk p (n - 1) /\ sent c' = (g, datagram p) :: sent c /\
    (forall j, used (gtp_xact_pool c') j <-> used (gtp_xact_pool c) j) /\ g_response_event c' = g_response_event c.
Proof.
  intros Hok [Hl Hw Hg Ht Hv Hs Hp Hc] Hn.
  destruct (expire_ok c id _ _ true Hok Hv (or_introl eq_refl)) as (rv & c' & E & Hok').
  exists c'. revert E. unfold expire, handle_timeout, timer_fired, gtp_xact_timeout. cbn [fst snd]. rewrite decide_False by lia.
  replace (Z.to_nat (Z.of_nat i + 1 - 1)) with i by lia. set (c0 := set_timers c _).
  change (get_xact c0 i) with (get_xact c i). rewrite Hg. rewrite decide_True by done. rewrite Hc.
  assert (u8 (n - 1) = n - 1) as -> by (apply u8_id; unfold inw; lia). rewrite decide_True by lia.
  destruct (seq_at _ _) as [[ty o]|] eqn:Es; [|done]. injection Hs as ->. cbn [mbind option_bind snd].
  unfold gtp_send. rewrite Ht. cbn [start_timer packets set_timers set_xact c0]. rewrite Hp. cbn [mbind option_bind].
  intros [= <- <-]. destruct (tm_stop_ok _ _ _ (c_timers _ c Hok) Hv) as (Hok1 & Hv1 & _).
  destruct (tm_start_ok _ _ _ Hok1 Hv1) as (_ & Hv2 & _). split_and!; try done.
  split; try done; cbn; unfold get_xact; cbn; rewrite ?lookup_insert_eq; cbn; try done.
  - destruct Hl as (g' & Hg' & Hi). exists g'. cbn. unfold get_xact. cbn. rewrite lookup_insert_eq. cbn. done.
  - change (option_map snd (seq_at (get_xact c i) (step (get_xact c i) - 1)) = Some (Some pk)). by rewrite Es.
Qed.

(** The response timer fires for the last time. *)
Lemma last_attempt c i id g pk p ok :
  ctx_ok c -> awaits c i id g pk p 1 ->
  exists c', expire c id (g_response_event c) (Z.of_nat i + 1) ok = Some (CORE_OK, c') /\
    ctx_ok c' /\ sent c' = sent c /\ (forall j, live c' j <-> j <> i /\ live c j) /\
    (forall j, used (gtp_xact_pool c') j <-> j <> i /\ used (gtp_xact_pool c) j) /\
    (forall k, owns (get_xact c i) k -> packets c' !! k = None) /\
    (forall k, own_timer (get_xact c i) k -> tm_see (timers c') k = None).
Proof.
  intros Hok [Hl Hw Hg Ht Hv Hs Hp Hc].
  pose proof (own_response _ _ _ _ _ (c_events _ c Hok) (own_refl c i Hok Hl)) as [_ Ho].
  unfold expire, handle_timeout, timer_fired. cbn [fst snd]. rewrite Ht in Ho. cbn [stop_timer] in Ho. set (c0 := set_timers c _) in *.
  assert (ctx_ok c0) as Hok0 by by eapply own_ctx_ok. assert (live c0 i) as Hl0 by done.
  destruct (delete_counts_ok c0 i 0 (holding_rcount (get_xact c i)) Hok0 Hl0) as (c' & E & Hd).
  exists c'. unfold gtp_xact_timeout. rewrite decide_False by lia.
  replace (Z.to_nat (Z.of_nat i + 1 - 1)) with i by lia.
  change (get_xact c0 i) with (get_xact c i) in *. rewrite Hg, decide_True, Hc by done. change (u8 (1 - 1)) with 0.
  rewrite decide_False by lia. rewrite E. cbn [mbind option_bind].
  set (c1 := set_xact c0 i _) in *. assert (get_xact c1 i = with_rcounts (get_xact c i) 0 (holding_rcount (get_xact c i))) as Eg.
  { apply get_set_same. }
  destruct Hd as [H1 H2 H3 H4 H5 H6 H7 H8 H9]. split_and!; [done|done|done| | | |].
  - intros j. rewrite H2. destruct (decide (j = i)) as [->|Hj]; [tauto|].
    unfold live, c1. rewrite get_set_other by done. done.
  - intros j. rewrite H3. apply (release_unused (gtp_xact_pool c) i (c_pool _ c Hok)). by apply (live_used None).
  - intros k Hk. rewrite H5, decide_True; [done|]. by rewrite Eg.
  - intros k Hk. rewrite H6, decide_True; [done|]. by rewrite Eg.
Qed.

(** C18: a request that gets no answer is sent again, the same datagram to the same
    peer, each time the response timer fires, two times; the third time the
    transaction is over: its position, its packets and its timers are free and
    nothing is sent.  Here the event of each firing is handled before anything else
    happens. *)
Theorem retransmission c i id g pk p ok :
  ctx_ok c -> awaits c i id g pk p GTP_T3_RESPONSE_RETRY_COUNT ->
  let fire c := expire c id (g_response_event c) (Z.of_nat i + 1) in
  exists c1 c2 c3,
    fire c true = Some (CORE_OK, c1) /\ fire c1 true = Some (CORE_OK, c2) /\ fire c2 ok = Some (CORE_OK, c3) /\
    sent c3 = (g, datagram p) :: (g, datagram p) :: sent c /\
    tv_armed <$> tm_see (timers c1) id = Some true /\ tv_armed <$> tm_see (timers c2) id = Some true /\
    ~ live c3 i /\ ~ used (gtp_xact_pool c3) i /\
    packets c3 !! pk = None /\ tm_see (timers c3) id = None.
Proof.
  intros Hok Ha fire. unfold GTP_T3_RESPONSE_RETRY_COUNT in Ha.
  destruct (attempt c i id g pk p 3 Hok Ha) as (c1 & E1 & Hok1 & Ha1 & Hs1 & _); [lia|].
  destruct (attempt c1 i id g pk p 2 Hok1 Ha1) as (c2 & E2 & Hok2 & Ha2 & Hs2 & _); [lia|].
  destruct (last_attempt c2 i id g pk p ok Hok2 Ha2) as (c3 & E3 & Hok3 & Hs3 & Hl3 & Hu3 & Hp3 & Ht3).
  exists c1, c2, c3. pose proof (a_stored _ _ _ _ _ _ _ Ha2) as Hst.
  split_and!; [done|done|done|congruence|by rewrite (a_armed _ _ _ _ _ _ _ Ha1)|by rewrite (a_armed _ _ _ _ _ _ _ Ha2)| | | |].
  - rewrite Hl3. tauto.
  - rewrite Hu3. tauto.
  - apply Hp3. destruct (seq_at (get_xact c2 i) _) as [[ty o]|] eqn:Es; [|done]. injection Hst as ->.
    unfold seq_at in Es. case_decide; [|done]. by eapply owns_lookup.
  - apply Ht3. left. apply (a_timer _ _ _ _ _ _ _ Ha2).
Qed.

(** ** Requests that come again *)

(** The list that a message is looked up in. *)
Definition side (ty id : Z) : originator :=
  match gtp_xact_get_stage ty id with
  | GTP_XACT_INITIAL_STAGE => GTP_REMOTE_ORIGINATOR
  | GTP_XACT_INTERMEDIATE_STAGE => GTP_LOCAL_ORIGINATOR
  | _ => if marked id then GTP_REMOTE_ORIGINATOR else GTP_LOCAL_ORIGINATOR
  end.

Lemma find_by_xid_eq c g ty id : gtp_xact_get_stage ty id <> GTP_XACT_UNKNOWN_STAGE ->
  gtp_xact_find_by_xid c g ty id =
    find (fun i => bool_decide (xid (get_xact c i) = id)) (in_list c (side ty id) g).
Proof.
  unfold gtp_xact_find_by_xid, side. destruct (gtp_xact_get_stage ty id); try done. by destruct (marked id).
Qed.

Lemma find_by_xid_some c g ty id i : ctx_ok c -> gtp_xact_find_by_xid c g ty id = Some i ->
  live c i /\ xid (get_xact c i) = id /\ gnode (get_xact c i) = Some g /\ org (get_xact c i) = side ty id.
Proof.
  intros Hok Hf. assert (gtp_xact_get_stage ty id <> GTP_XACT_UNKNOWN_STAGE) as Hs.
  { intros E. unfold gtp_xact_find_by_xid in Hf. by rewrite E in Hf. }
  rewrite find_by_xid_eq in Hf by done. apply find_some in Hf as [Hi%list_elem_of_In Hx%bool_decide_eq_true].
  destruct (c_lists _ c Hok (side ty id) g) as [_ Hm]. destruct (Hm i Hi) as (_ & Hg & Ho).
  split_and!; try done. by eapply listed_live.
Qed.

(** C19: a request that comes again, while it is served or after it was answered,
    makes no new transaction and changes none: before the answer it is dropped,
    after it the stored answer is sent once more and the holding timer, if there is
    one, runs again. *)
Theorem duplicate_request c g ty sqn i :
  ctx_ok c -> gtp_xact_find_by_xid c g ty (GTP_SQN_TO_XID sqn) = Some i ->
  let x := get_xact c i in
  gtp_xact_get_stage ty (xid x) = GTP_XACT_INITIAL_STAGE ->
  fst <$> seq x !! 0%nat = Some ty -> step x = 1 \/ step x = 2 ->
  exists c', gtp_xact_receive c g ty sqn true = Some (CORE_EAGAIN, None, c') /\
    frame c' = frame c /\ xacts c' = xacts c /\ packets c' = packets c /\
    (step x = 1 -> c' = c) /\
    (step x = 2 -> exists pk p, snd <$> seq x !! 1%nat = Some (Some pk) /\ packets c !! pk = Some p /\
       sent c' = (g, datagram p) :: sent c /\
       forall id, tm_holding x = Some id -> tv_armed <$> tm_see (timers c') id = Some true).
Proof.
  intros Hok Hf x Hst Ht Hs. destruct (find_by_xid_some _ _ _ _ _ Hok Hf) as (Hl & Hx & Hg & Ho). fold x in Hx, Hg, Ho.
  pose proof (c_xacts _ c Hok i Hl) as Hxi. fold x in Hxi. pose proof (x_seq _ _ _ _ Hxi) as Hq.
  assert (org x = GTP_REMOTE_ORIGINATOR) as Hor by (rewrite Ho; unfold side; by rewrite <- Hx, Hst).
  unfold gtp_xact_receive. rewrite Hf. cbn [mbind option_bind]. unfold gtp_xact_update_rx. fold x.
  destruct (seq_at_some x 0 Hq) as ([t0 p0] & E0 & L0); [lia|].
  destruct (seq_at_some x 1 Hq) as ([t1 p1] & E1 & L1); [lia|]. change (Z.to_nat 0) with 0%nat in L0. change (Z.to_nat 1) with 1%nat in L1.
  rewrite L0 in Ht. injection Ht as ->. unfold rx_action. rewrite Hor, Hst, E0, E1. cbn [mbind option_bind fst snd].
  rewrite decide_True, decide_True by done. rewrite Hg, L1.
  pose proof (q_sent x Hq 1 t1 p1 L1) as Hp1. rewrite Hor in Hp1. destruct Hs as [Hs|Hs].
  - assert (p1 = None) as ->. { destruct p1; [|done]. destruct Hp1 as [Hp1 _]. destruct Hp1; [done|lia]. }
    exists c. cbn. split_and!; try done. intros ?. lia.
  - destruct p1 as [pk|]; [|exfalso; apply Hp1; [split; [lia|done]|done]].
    destruct (x_packets _ _ _ _ Hxi pk) as [p Hp]; [by eapply owns_lookup|].
    unfold gtp_send. destruct (own_holding _ _ _ _ _ (c_events _ c Hok) (own_refl c i Hok Hl)) as [Ho1 _].
    fold x in Ho1. set (c1 := start_timer c _) in *. destruct (own_frame _ _ _ _ _ Ho1) as (F1 & F2 & F3 & F4).
    rewrite F3, Hp. cbn [mbind option_bind]. rewrite decide_False by done. eexists. split; [done|].
    split_and!; try done; [intros; lia|]. intros _. exists pk, p. split_and!; try done; [by cbn; rewrite F4|].
    intros id Hid. unfold c1. rewrite Hid. cbn. destruct (x_holding _ _ _ _ Hxi id Hid) as (a & E & _).
    destruct (tm_start_ok _ _ _ (c_timers _ c Hok) E) as (_ & -> & _). done.
Qed.

(** ** A request and its response *)

Lemma find_app_last {A} (f : A -> bool) (l : list A) x :
  (forall y, y ∈ l -> f y = false) -> f x = true -> find f (l ++ [x]) = Some x.
Proof.
  intros Hl Hx. induction l as [|y l IH]; cbn; [by rewrite Hx|].
  rewrite (Hl y) by by left. apply IH. intros z Hz. apply Hl. by right.
Qed.

Lemma seq_at_did x ty p : seq_ok x -> step x < 3 -> seq_at (did x ty p) (step x) = Some (ty, p).
Proof.
  intros Hq Hs. pose proof (q_step x Hq). unfold seq_at, did. cbn. rewrite decide_True by lia.
  apply list_lookup_insert_eq. rewrite (q_len x Hq). lia.
Qed.

(** Everything but the transaction [i], as in [created], after [i] has gone on. *)
Record beside c c' (i : nat) : Prop := {
  b_live : forall j, live c' j <-> j = i \/ live c j;
  b_new : ~ used (gtp_xact_pool c) i;
  b_used : forall j, used (gtp_xact_pool c') j <-> j = i \/ used (gtp_xact_pool c) j;
  b_timers : forall k, tm_see (timers c) k = if decide (own_timer (get_xact c' i) k) then None else tm_see (timers c') k;
  b_get : forall j, j <> i -> get_xact c' j = get_xact c j
}.

Lemma created_beside c c' i o id g : created c c' i o id g -> beside c c' i.
Proof. intros []. by split. Qed.

(** One more change of [i] and of its timers. *)
Lemma beside_step c c1 c2 i :
  beside c c1 i -> frame c2 = frame c1 ->
  (forall j, j <> i -> get_xact c2 j = get_xact c1 j) ->
  (forall k, ~ own_timer (get_xact c1 i) k -> tm_see (timers c2) k = tm_see (timers c1) k) ->
  org (get_xact c2 i) = org (get_xact c1 i) -> gnode (get_xact c2 i) = gnode (get_xact c1 i) ->
  (forall k, own_timer (get_xact c2 i) k <-> own_timer (get_xact c1 i) k) -> beside c c2 i.
Proof.
  intros [H1 H2 H3 H4 H5] Hf Hg Ht Ho Hn Hown. injection Hf as _ _ Ep El.
  assert (forall j, live c2 j <-> live c1 j) as Hl.
  { intros j. unfold live. setoid_rewrite (fun o g => gnodes_lists c1 c2 o g El).
    destruct (decide (j = i)) as [->|Hj]; [by rewrite Ho, Hn|by rewrite Hg]. }
  split; [| done | | |].
  - intros j. by rewrite Hl.
  - intros j. by rewrite Ep.
  - intros k. rewrite H4. rewrite (decide_ext _ (own_timer (get_xact c2 i) k)) by (by rewrite Hown).
    case_decide as Hd; [done|]. symmetry. apply Ht. by rewrite <- Hown.
  - intros j Hj. by rewrite Hg, H5.
Qed.

Lemma own_beside c c1 c2 i R Rh : beside c c1 i -> own_timers c1 c2 i R Rh -> beside c c2 i.
Proof.
  intros Hb Ho. pose proof (fun j => own_get _ _ _ _ _ j Ho) as Hg. destruct (own_frame _ _ _ _ _ Ho) as (Hf & _).
  apply (beside_step c c1); try done; rewrite ?Hg; try done.
  intros k Hk. apply (o_other _ _ _ _ _ Ho); intros E; apply Hk; [by left|by right].
Qed.

(** Deleting [i] gives back what was there before it. *)
Lemma deleted_beside c c1 c2 i : ctx_ok c1 -> beside c c1 i -> deleted c1 c2 i -> ctx_ok c ->
  (forall j, live c2 j <-> live c j) /\ (forall j, used (gtp_xact_pool c2) j <-> used (gtp_xact_pool c) j) /\
  (forall k, tm_see (timers c2) k = tm_see (timers c) k).
Proof.
  intros Hok1 [H1 H2 H3 H4 H5] [D1 D2 D3 D4 D5 D6 D7 D8 D9] Hok.
  assert (live c1 i) as Hl by (apply H1; by left). split_and!.
  - intros j. rewrite D2, H1. split; [tauto|]. intros Hj. split; [|tauto]. intros ->. by apply H2, (live_used None).
  - intros j. rewrite D3. destruct (release_unused _ i (c_pool _ c1 Hok1) (live_used _ c1 i Hok1 Hl)) as [_ ->].
    rewrite H3. split; [tauto|]. intros Hj. split; [|tauto]. by intros ->.
  - intros k. by rewrite D6, H4.
Qed.

(** The three kinds of step, when they succeed. *)
Lemma commit_send c0 c i g ty pk p r :
  let x := get_xact c i in
  ctx_ok c -> live c i -> gnode x = Some g -> seq_at x (step x - 1) = Some (ty, Some pk) ->
  commit_action x ty = Send r -> packets c !! pk = Some p -> beside c0 c i ->
  exists c', gtp_xact_commit c i true = Some (CORE_OK, c') /\ ctx_ok c' /\ beside c0 c' i /\
    (forall j, get_xact c' j = get_xact c j) /\ packets c' = packets c /\ gnodes c' = gnodes c /\
    sent c' = (g, datagram p) :: sent c.
Proof.
  intros x Hok Hl Hg Hs Hc Hp Hb. unfold gtp_xact_commit. fold x. rewrite Hg, Hs. cbn [mbind option_bind fst snd]. rewrite Hc.
  destruct (own_response _ _ _ _ _ (c_events _ c Hok) (own_refl c i Hok Hl)) as [Ho _]. fold x in Ho.
  pose proof (commit_action_ok x ty) as Hw. rewrite Hc in Hw.
  set (c1 := if r then _ else c).
  assert (ctx_ok c1 /\ beside c0 c1 i /\ (forall j, get_xact c1 j = get_xact c j) /\ packets c1 = packets c /\
          gnodes c1 = gnodes c /\ sent c1 = sent c) as (Hok1 & Hb1 & Hg1 & Hp1 & Hn1 & Hs1).
  { unfold c1. destruct r; [|done]. destruct (own_frame _ _ _ _ _ Ho) as (Hf & _ & Hpk & Hst). injection Hf as _ _ _ Hn.
    split_and!; try done; [|by eapply own_beside|intros j; by eapply own_get].
    eapply own_ctx_ok; [done..|]. intros _. by apply Hw. }
  unfold gtp_send. rewrite Hp1, Hp. cbn [mbind option_bind]. eexists. split; [done|]. split_and!; try done.
  - by apply (ctx_ok_ext c1).
  - by apply (beside_step c0 c1).
  - by cbn; rewrite Hs1.
Qed.

Lemma rx_accept c0 c i ty hold ok :
  let x := get_xact c i in
  ctx_ok c -> live c i -> rx_action x ty = Some (Accept hold) -> beside c0 c i ->
  exists c', gtp_xact_update_rx c i ty ok = Some (CORE_OK, c') /\ ctx_ok c' /\ beside c0 c' i /\
    get_xact c' i = did x ty None /\ packets c' = packets c /\ gnodes c' = gnodes c /\ sent c' = sent c.
Proof.
  intros x Hok Hl Ha Hb. destruct (rx_ok c i ty ok Hok Hl) as (rv & c' & E & Hok' & Hf & Hp).
  pose proof (x_seq _ _ _ _ (c_xacts _ c Hok i Hl)) as Hq. fold x in Hq.
  destruct (rx_action_ok x ty Hq) as (a & Ea & Hst). rewrite Ha in Ea. injection Ea as <-. destruct Hst as [Hlt Hsd].
  destruct (seq_next x Hq Hlt) as [ty0 Hn]. pose proof (q_step x Hq).
  exists c'. revert E. unfold gtp_xact_update_rx. fold x. rewrite Ha. cbn [mbind option_bind].
  unfold seq_at. rewrite decide_True, Hn by lia. cbn [mbind option_bind snd]. intros [= <- <-]. split; [done|].
  destruct (own_holding _ _ _ _ _ (c_events _ c Hok) (own_refl c i Hok Hl)) as [Ho1 _]. fold x in Ho1.
  assert (own_timers c (stop_timer (if hold then start_timer c (tm_holding x) else c) (tm_response x)) i False True) as Ho.
  { destruct hold; [apply (own_response _ _ _ _ _ (c_events _ c Hok) Ho1)|
                    apply (own_response _ _ _ _ _ (c_events _ c Hok) (own_refl c i Hok Hl))]. }
  set (c1 := stop_timer _ _) in *. pose proof (own_beside _ _ _ _ _ _ Hb Ho) as Hb1.
  destruct (own_frame _ _ _ _ _ Ho) as (Hf1 & _ & Hp1 & Hs1). pose proof (own_get _ _ _ _ _ i Ho) as Hg1. fold x in Hg1.
  injection Hf1 as _ _ _ Hn1.
  split_and!; try done; [|by apply get_set_same].
  apply (beside_step c0 c1); try done; rewrite ?get_set_same, ?Hg1; try done.
  intros j Hj. by rewrite get_set_other.
Qed.

Lemma tx_beside c0 c i ty teid pk p : beside c0 c i -> beside c0 (after_tx c i ty teid pk p) i.
Proof.
  intros Hb. apply (beside_step c0 c); unfold after_tx; rewrite ?get_set_same; try done.
  intros j Hj. by rewrite get_set_other.
Qed.

Lemma after_tx_sent c i ty teid pk p :
  packets (after_tx c i ty teid pk p) !! pk = Some (push_header p ty teid (xid (get_xact c i))).
Proof. apply lookup_insert_eq. Qed.

(** The originator sends: a new transaction and its first commit. *)
Lemma request_sent c g ty teid pk p i c1 :
  let id := NEXT_ID (g_xact_id c) GTP_MIN_XACT_ID GTP_MAX_XACT_ID in
  let q := push_header p ty teid id in
  ctx_ok c -> packets c !! pk = Some p -> unowned c pk ->
  gtp_xact_local_create c g ty teid (Some pk) = Some (Some i, c1) ->
  exists c2, gtp_xact_commit c1 i true = Some (CORE_OK, c2) /\ ctx_ok c2 /\ beside c c2 i /\
    (exists x, fresh_xact x GTP_LOCAL_ORIGINATOR id g /\ get_xact c2 i = did x ty (Some pk)) /\
    gtp_xact_get_stage ty id = GTP_XACT_INITIAL_STAGE /\
    packets c2 = <[pk := q]> (packets c) /\ sent c2 = (g, datagram q) :: sent c /\
    in_list c2 GTP_LOCAL_ORIGINATOR g = in_list c GTP_LOCAL_ORIGINATOR g ++ [i].
Proof.
  intros id q Hok Hp Hu E. pose proof (local_create_ok c g ty teid pk p Hok Hp Hu) as H. rewrite E in H.
  destruct H as (c0 & Hc & _ & Hst & -> & Hok1). fold id in Hc, Hst. set (c1 := after_tx c0 i ty teid pk p) in *.
  pose proof (cr_xact _ _ _ _ _ _ Hc) as Hx. destruct (fresh_seq_ok _ _ _ _ Hx) as [Hq _].
  assert (get_xact c1 i = did (get_xact c0 i) ty (Some pk)) as Eg by apply get_set_same.
  assert (live c1 i) as Hl.
  { destruct (cr_live _ _ _ _ _ _ Hc i) as [_ (g' & H1 & H2)]; [by left|]. exists g'. by rewrite Eg. }
  pose proof (f_step _ _ _ _ Hx) as Hs0.
  destruct (commit_send c c1 i g ty pk q true Hok1 Hl) as (c2 & Ec & Hok2 & Hb2 & Hg2 & Hp2 & Hn2 & Hs2).
  - rewrite Eg. apply Hx.
  - rewrite Eg. replace (step (did _ _ _) - 1) with (step (get_xact c0 i)) by (cbn; lia).
    apply seq_at_did; [done|]. rewrite Hs0. lia.
  - rewrite Eg. unfold commit_action. cbn. rewrite (f_org _ _ _ _ Hx), (f_xid _ _ _ _ Hx), Hst, Hs0. done.
  - unfold c1. rewrite after_tx_sent, (f_xid _ _ _ _ Hx). done.
  - by apply tx_beside, (created_beside c c0 i _ _ _ Hc).
  - exists c2. split_and!; try done.
    + exists (get_xact c0 i). by rewrite Hg2, Eg.
    + rewrite Hp2. cbn. by rewrite (cr_packets _ _ _ _ _ _ Hc), (f_xid _ _ _ _ Hx).
    + rewrite Hs2. cbn. by rewrite (cr_sent _ _ _ _ _ _ Hc).
    + rewrite (gnodes_lists c1 c2 _ _ Hn2). change (in_list c1 ?o ?g) with (in_list c0 o g).
      by rewrite (cr_lists _ _ _ _ _ _ Hc), decide_True.
Qed.

(** The response comes: it finds the transaction, whose commit ends it. *)
Lemma response_ends c c2 g ty tr sqn pk q i id x :
  ctx_ok c -> ctx_ok c2 -> beside c c2 i ->
  fresh_xact x GTP_LOCAL_ORIGINATOR id g -> get_xact c2 i = did x ty (Some pk) ->
  packets c2 = <[pk := q]> (packets c) ->
  in_list c2 GTP_LOCAL_ORIGINATOR g = in_list c GTP_LOCAL_ORIGINATOR g ++ [i] ->
  (forall j, j ∈ in_list c GTP_LOCAL_ORIGINATOR g -> xid (get_xact c j) <> id) ->
  marked id = false -> gtp_xact_get_stage tr id = GTP_XACT_FINAL_STAGE -> GTP_SQN_TO_XID sqn = id ->
  exists c3 c4, gtp_xact_receive c2 g tr sqn true = Some (CORE_OK, Some i, c3) /\
    gtp_xact_commit c3 i true = Some (CORE_OK, c4) /\ ctx_ok c4 /\
    (forall j, live c4 j <-> live c j) /\ (forall j, used (gtp_xact_pool c4) j <-> used (gtp_xact_pool c) j) /\
    (forall k, tm_see (timers c4) k = tm_see (timers c) k) /\
    (forall k, packets c4 !! k = if decide (k = pk) then None else packets c !! k) /\ sent c4 = sent c2.
Proof.
  intros Hok Hok2 Hb Hx Eg Hp Hin Hid Hm Hst Hsq. destruct (fresh_seq_ok _ _ _ _ Hx) as [Hq Hown].
  pose proof (f_step _ _ _ _ Hx) as Hs0. assert (live c2 i) as Hl by (apply (b_live _ _ _ Hb); by left).
  assert (gtp_xact_find_by_xid c2 g tr id = Some i) as Hf.
  { rewrite find_by_xid_eq by by rewrite Hst. unfold side. rewrite Hst, Hm, Hin. apply find_app_last.
    - intros j Hj. apply bool_decide_eq_false. rewrite (b_get _ _ _ Hb); [by apply Hid|].
      intros ->. by apply (b_new _ _ _ Hb), (live_used None), (listed_live c GTP_LOCAL_ORIGINATOR g).
    - rewrite Eg. cbn. apply bool_decide_eq_true, Hx. }
  assert (rx_action (get_xact c2 i) tr = Some (Accept false)) as Ha.
  { rewrite Eg. unfold rx_action. cbn. rewrite (f_org _ _ _ _ Hx), (f_xid _ _ _ _ Hx), Hst, Hs0. done. }
  destruct (rx_accept c c2 i tr false true Hok2 Hl Ha Hb) as (c3 & E3 & Hok3 & Hb3 & Eg3 & Hp3 & Hn3 & Hs3).
  assert (live c3 i) as Hl3 by (apply (b_live _ _ _ Hb3); by left).
  destruct (xact_delete_ok None c3 i Hok3) as (c4 & E4 & Hd); [done|done|]. exists c3, c4.
  destruct (deleted_beside c c3 c4 i Hok3 Hb3 Hd Hok) as (H1 & H2 & H3).
  pose proof (x_seq _ _ _ _ (c_xacts _ c2 Hok2 i Hl)) as Hq2.
  split_and!; try done; [| |apply Hd| |].
  - unfold gtp_xact_receive. rewrite Hsq, Hf. cbn [mbind option_bind]. rewrite E3. done.
  - unfold gtp_xact_commit. rewrite Eg3.
    assert (gnode (did (get_xact c2 i) tr None) = Some g) as -> by (rewrite Eg; apply Hx).
    replace (step (did (get_xact c2 i) tr None) - 1) with (step (get_xact c2 i)) by (cbn; lia).
    rewrite (seq_at_did _ _ _ Hq2) by (rewrite Eg; cbn; lia). cbn [mbind option_bind fst].
    assert (commit_action (did (get_xact c2 i) tr None) tr = Finish) as ->.
    { rewrite Eg. unfold commit_action. cbn. by rewrite (f_org _ _ _ _ Hx), (f_xid _ _ _ _ Hx), Hst, Hs0. }
    by rewrite E4.
  - intros k. rewrite (d_packets _ _ _ Hd), Hp3, Hp.
    assert (owns (get_xact c3 i) k <-> k = pk) as Ho.
    { rewrite Eg3, Eg. unfold owns, did. cbn. rewrite Hs0, (f_seq _ _ _ _ Hx).
      change (Some k ∈ [Some pk; None; None] <-> k = pk). rewrite !elem_of_cons, elem_of_nil. split; [intros [[= ->]|[?|[?|[]]]]; done|intros ->; by left]. }
    rewrite (decide_ext _ (k = pk)) by done. case_decide; [done|]. by rewrite lookup_insert_ne.
  - rewrite (d_sent _ _ _ Hd). done.
Qed.

Lemma find_none {A} (f : A -> bool) (l : list A) : (forall y, y ∈ l -> f y = false) -> find f l = None.
Proof.
  intros Hl. induction l as [|y l IH]; [done|]. cbn. rewrite (Hl y) by by left.
  apply IH. intros z Hz. apply Hl. by right.
Qed.

(** The peer: a new transaction for the request, the answer, and its commit. *)
Lemma request_served c g ty tr sqn teid pk p k c0 :
  let id := GTP_SQN_TO_XID sqn in
  ctx_ok c -> gtp_xact_get_stage ty id = GTP_XACT_INITIAL_STAGE -> gtp_xact_get_stage tr id = GTP_XACT_FINAL_STAGE ->
  (forall j, j ∈ in_list c GTP_REMOTE_ORIGINATOR g -> xid (get_xact c j) <> id) ->
  gtp_xact_remote_create c g sqn = Some (Some k, c0) -> packets c !! pk = Some p -> unowned c pk ->
  exists c1 c2 c3, gtp_xact_receive c g ty sqn true = Some (CORE_OK, Some k, c1) /\
    gtp_xact_update_tx c1 k tr teid (Some pk) = Some (CORE_OK, c2) /\
    gtp_xact_commit c2 k true = Some (CORE_OK, c3) /\ ctx_ok c3 /\ beside c c3 k /\
    sent c3 = (g, datagram (push_header p tr teid id)) :: sent c /\
    gtp_xact_find_by_xid c3 g ty id = Some k /\ step (get_xact c3 k) = 2 /\
    fst <$> seq (get_xact c3 k) !! 0%nat = Some ty.
Proof.
  intros id Hok Hst Htr Hid E Hp Hu. pose proof (remote_create_ok c g sqn Hok) as Hc. rewrite E in Hc. fold id in Hc.
  pose proof (cr_xact _ _ _ _ _ _ Hc) as Hx. set (x := get_xact c0 k) in *. destruct (fresh_seq_ok _ _ _ _ Hx) as [Hq Hown].
  destruct Hx as [Ho Hxid Hg Hs0 Hseq _ _ _]. pose proof (cr_ok _ _ _ _ _ _ Hc) as Hok0.
  assert (live c0 k) as Hl0 by (apply (cr_live _ _ _ _ _ _ Hc); by left).
  assert (0 < ty) as Hty by (destruct (stage_known ty id) as [? _]; [by rewrite Hst|done]).
  assert (rx_action x ty = Some (Accept true)) as Ha.
  { unfold rx_action. rewrite Ho, Hxid, Hst.
    destruct (seq_at_some x 0 Hq) as (s0 & -> & L0); [lia|]. destruct (seq_at_some x 1 Hq) as (s1 & -> & _); [lia|].
    rewrite Hseq in L0. injection L0 as <-. cbn -[decide]. rewrite (decide_False (P := 0 = ty)) by lia. by rewrite Hs0. }
  destruct (rx_accept c c0 k ty true true Hok0 Hl0 Ha (created_beside _ _ _ _ _ _ Hc)) as (c1 & E1 & Hok1 & Hb1 & Eg1 & Hp1 & Hn1 & Hs1).
  fold x in Eg1. set (x1 := did x ty None) in *. assert (live c1 k) as Hl1 by (apply (b_live _ _ _ Hb1); by left).
  assert (seq_ok x1) as Hq1 by (rewrite <- Eg1; apply (c_xacts _ c1 Hok1 k Hl1)).
  assert (step x1 = 1) as Hst1 by (cbn; lia).
  assert (packets c1 !! pk = Some p) as Hpk1 by by rewrite Hp1, (cr_packets _ _ _ _ _ _ Hc).
  assert (unowned c1 pk) as Hu1.
  { intros j [->|Hj]%(b_live _ _ _ Hb1).
    - rewrite Eg1. by intros [?%Hown|?]%owns_did.
    - destruct (decide (j = k)) as [->|Hne].
      + rewrite Eg1. by intros [?%Hown|?]%owns_did.
      + rewrite (b_get _ _ _ Hb1) by done. by apply Hu. }
  assert (tx_step_ok (get_xact c1 k) tr = true) as Htx.
  { rewrite Eg1. unfold tx_step_ok. cbn. by rewrite Ho, Hxid, Htr, Hs0. }
  pose proof (update_tx_eq c1 k tr teid pk p Hok1 Hl1 Hpk1 Htx) as E2.
  pose proof (tx_ok c1 k tr teid pk p Hok1 Hl1 Hpk1 Hu1 Htx) as Hok2.
  fold (after_tx c1 k tr teid pk p) in E2, Hok2. set (c2 := after_tx c1 k tr teid pk p) in *.
  assert (get_xact c2 k = did x1 tr (Some pk)) as Eg2 by (unfold c2, after_tx; by rewrite get_set_same, Eg1).
  pose proof (tx_beside c c1 k tr teid pk p Hb1) as Hb2. fold c2 in Hb2.
  destruct (commit_send c c2 k g tr pk (push_header p tr teid id) false Hok2) as (c3 & E3 & Hok3 & Hb3 & Hg3 & Hp3 & Hn3 & Hs3).
  - apply (b_live _ _ _ Hb2). by left.
  - by rewrite Eg2.
  - rewrite Eg2. replace (step (did x1 tr (Some pk)) - 1) with (step x1) by (cbn; lia).
    apply seq_at_did; [done|lia].
  - rewrite Eg2. unfold commit_action. cbn. by rewrite Ho, Hxid, Htr, Hs0.
  - unfold c2. rewrite after_tx_sent, Eg1. cbn. by rewrite Hxid.
  - done.
  - assert (forall j, in_list c3 j g = in_list c0 j g) as Hin3.
    { intros j. rewrite (gnodes_lists c2 c3 _ _ Hn3). change (in_list c2 j g) with (in_list c1 j g). by apply gnodes_lists. }
    exists c1, c2, c3. split_and!; try done.
    + unfold gtp_xact_receive. fold id. rewrite find_by_xid_eq by by rewrite Hst. unfold side. rewrite Hst.
      rewrite find_none by (intros j Hj; by apply bool_decide_eq_false, Hid). rewrite E. cbn [mbind option_bind].
      by rewrite E1.
    + rewrite Hs3. cbn. by rewrite Hs1, (cr_sent _ _ _ _ _ _ Hc).
    + rewrite find_by_xid_eq by by rewrite Hst. unfold side. rewrite Hst, Hin3, (cr_lists _ _ _ _ _ _ Hc), decide_True by done.
      apply find_app_last.
      * intros j Hj. apply bool_decide_eq_false. rewrite (b_get _ _ _ Hb3); [by apply Hid|].
        intros ->. by apply (b_new _ _ _ Hb3), (live_used None), (listed_live c GTP_REMOTE_ORIGINATOR g).
      * apply bool_decide_eq_true. by rewrite Hg3, Eg2.
    + rewrite Hg3, Eg2. cbn. lia.
    + rewrite Hg3, Eg2. unfold did, x1. cbn. rewrite Hs0, Hseq. done.
Qed.

(** C17: one exchange between two peers, whatever else each of them is doing.  The
    request that [gtp_xact_commit] sends carries its type, its identifier and the
    message; the peer makes a transaction of it, to which its answer belongs, kept
    to answer the request again; the answer carries the same identifier, finds the
    transaction of the request among those of its node, and the commit that
    follows frees the position, the timers and the packet: the originator is as if
    the exchange had not been, but for what it has sent. *)
Theorem exchange a b g g' ty tr teid teid' pk p pk' p' i a1 k :
  ctx_ok a -> ctx_ok b -> room p -> room p' ->
  packets a !! pk = Some p -> unowned a pk -> packets b !! pk' = Some p' -> unowned b pk' ->
  let id := NEXT_ID (g_xact_id a) GTP_MIN_XACT_ID GTP_MAX_XACT_ID in
  0 <= id < GTP_MAX_XACT_ID ->
  gtp_xact_local_create a g ty teid (Some pk) = Some (Some i, a1) ->
  gtp_xact_get_stage tr id = GTP_XACT_FINAL_STAGE ->
  (forall sqn, GTP_SQN_TO_XID sqn = id -> exists b0', gtp_xact_remote_create b g' sqn = Some (Some k, b0')) ->
  (forall j, j ∈ in_list a GTP_LOCAL_ORIGINATOR g -> xid (get_xact a j) <> id) ->
  (forall j, j ∈ in_list b GTP_REMOTE_ORIGINATOR g' -> xid (get_xact b j) <> id) ->
  exists a2 d a3 a4 b1 b2 b3 d',
    gtp_xact_commit a1 i true = Some (CORE_OK, a2) /\ sent a2 = (g, d) :: sent a /\ drop 12 d = datagram p /\
    gtp_xact_receive b g' (h_type (header_of d)) (sqn (header_of d)) true = Some (CORE_OK, Some k, b1) /\
    gtp_xact_update_tx b1 k tr teid' (Some pk') = Some (CORE_OK, b2) /\
    gtp_xact_commit b2 k true = Some (CORE_OK, b3) /\ sent b3 = (g', d') :: sent b /\ drop 12 d' = datagram p' /\
    live b3 k /\ gtp_xact_find_by_xid b3 g' ty id = Some k /\
    gtp_xact_receive a2 g (h_type (header_of d')) (sqn (header_of d')) true = Some (CORE_OK, Some i, a3) /\
    gtp_xact_commit a3 i true = Some (CORE_OK, a4) /\
    (forall j, live a4 j <-> live a j) /\ (forall j, used (gtp_xact_pool a4) j <-> used (gtp_xact_pool a) j) /\
    (forall t, tm_see (timers a4) t = tm_see (timers a) t) /\
    (forall q, packets a4 !! q = if decide (q = pk) then None else packets a !! q) /\ sent a4 = (g, d) :: sent a.
Proof.
  intros Ha Hb Hr Hr' Hp Hu Hp' Hu' id Hid E Htr Hrc Hua Hub.
  destruct (request_sent a g ty teid pk p i a1 Ha Hp Hu E) as (a2 & Ec & Ha2 & Hb2 & (x & Hx & Eg) & Hst & Hpk2 & Hs2 & Hin2).
  fold id in Hx, Hst, Hpk2, Hs2. set (d := datagram (push_header p ty teid id)) in *.
  assert (inw 24 id) as Hw by (unfold inw, GTP_MAX_XACT_ID in *; lia).
  assert (marked id = false) as Hm.
  { unfold marked. apply negb_false_iff, bool_decide_eq_true. unfold GTP_MAX_XACT_ID. apply Z.bits_inj'. intros n Hn.
    rewrite Z.land_spec, Z.bits_0. change 8388608 with (2 ^ 23). rewrite Z.pow2_bits_eqb by lia.
    destruct (Z.eqb_spec 23 n) as [<-|]; [|apply andb_false_r].
    rewrite (inw_testbit 23 id 23); [done|lia|unfold inw, GTP_MAX_XACT_ID in *; lia|lia]. }
  destruct (wire_push p ty teid id Hr) as (Hty & Hsqn & Hd); [by apply (stage_known ty id); rewrite Hst|done|]. fold d in Hty, Hsqn, Hd.
  destruct (Hrc (sqn (header_of d)) Hsqn) as [b0' Eb].
  destruct (request_served b g' ty tr (sqn (header_of d)) teid' pk' p' k b0' Hb) as (b1 & b2 & b3 & E1 & E2 & E3 & Hb3 & Hbe3 & Hs3 & Hf3 & _);
    rewrite ?Hsqn; try done.
  rewrite Hsqn in Hs3, Hf3. set (d' := datagram (push_header p' tr teid' id)) in *.
  destruct (wire_push p' tr teid' id Hr') as (Hty' & Hsqn' & Hd'); [by apply (stage_known tr id); rewrite Htr|done|].
  fold d' in Hty', Hsqn', Hd'.
  destruct (response_ends a a2 g ty tr (sqn (header_of d')) pk (push_header p ty teid id) i id x Ha Ha2 Hb2 Hx Eg Hpk2 Hin2 Hua Hm Htr Hsqn')
    as (a3 & a4 & E4 & E5 & Ha4 & H1 & H2 & H3 & H4 & H5).
  exists a2, d, a3, a4, b1, b2, b3, d'. rewrite Hty, Hty'. split_and!; try done.
  - apply (b_live _ _ _ Hbe3). by left.
  - by rewrite H5.
Qed.

(** ** Messages that belong nowhere *)

(** A response that no transaction waits for, such as one that comes twice, is
    reported as an error, but a transaction is made for it that stays: it is in the
    list of the node, its position is not free, and none of its timers runs, so that
    only [gtp_xact_delete_all] will end it. *)
Theorem unmatched_response c g ty sqn ok k c' :
  ctx_ok c -> gtp_xact_get_stage ty (GTP_SQN_TO_XID sqn) <> GTP_XACT_INITIAL_STAGE ->
  gtp_xact_find_by_xid c g ty (GTP_SQN_TO_XID sqn) = None ->
  gtp_xact_remote_create c g sqn = Some (Some k, c') ->
  gtp_xact_receive c g ty sqn ok = Some (CORE_ERROR, None, c') /\
  in_list c' GTP_REMOTE_ORIGINATOR g = in_list c GTP_REMOTE_ORIGINATOR g ++ [k] /\
  live c' k /\ (forall j, used (gtp_xact_pool c') j <-> j = k \/ used (gtp_xact_pool c) j) /\
  (forall t w, own_timer (get_xact c' k) t -> tm_see (timers c') t = Some w -> tv_armed w = false).
Proof.
  intros Hok Hs Hf E. pose proof (remote_create_ok c g sqn Hok) as Hc. rewrite E in Hc.
  pose proof (cr_xact _ _ _ _ _ _ Hc) as Hx. split_and!.
  - unfold gtp_xact_receive. rewrite Hf, E. cbn [mbind option_bind]. unfold gtp_xact_update_rx, rx_action.
    rewrite (f_org _ _ _ _ Hx), (f_xid _ _ _ _ Hx), (f_step _ _ _ _ Hx).
    by destruct (gtp_xact_get_stage ty (GTP_SQN_TO_XID sqn)).
  - by rewrite (cr_lists _ _ _ _ _ _ Hc), decide_True.
  - apply (cr_live _ _ _ _ _ _ Hc). by left.
  - apply Hc.
  - destruct (cr_idle _ _ _ _ _ _ Hc) as [Hr Hh].
    intros t w [Ht|Ht] Hw; [destruct (Hr t Ht) as ([] & Ew & Ha)|destruct (Hh t Ht) as ([] & Ew & Ha)];
      try by destruct (Ha eq_refl). all: rewrite Ew in Hw; by injection Hw as <-.
Qed.

End spec.

(** ** Instances *)

#[local] Existing Instance Pool.pool_allocator.
#[local] Instance sample_timers : TimerService (@ClockedTimers.clocked unit (Pool.pool nat)) :=
  ClockedTimers.clocked_timers tt tt.
Definition sample_state : Type := ctx (Pool.pool nat) (@ClockedTimers.clocked unit (Pool.pool nat)).

(** A program with three transactions and four timers, and one with a packet. *)
Definition sample_empty : sample_state :=
  mkCtx 0 5 6 (Pool.pool_init [0; 1; 2]%nat) ∅ ∅
    (ClockedTimers.mkClocked 0 (Timer.tm_service_init (Pool.pool_init [1; 2; 3; 4]%nat))) ∅ [].
Definition sample_packet : packet := mkPacket (Pkbuf.mkPkbuf None 0 12 3 3 0) (replicate 12 0 ++ [7; 8; 9; 0]).
Definition sample : sample_state := set_packets sample_empty (<[40%nat := sample_packet]> ∅).

Lemma sample_initial : initial sample_empty.
Proof.
  split; try done.
  - apply Pool.pool_ok_init; [simpl; lia|by_decide].
  - split; [|intros id [Hid Hn]; by destruct (Hn Hid)].
    exists [], []. apply TimerSpec.init_ok; [apply Pool.pool_ok_init; [simpl; lia|by_decide]|].
    intros x [Hx Hn]. by apply Hn.
  - intros id w Hw. cbn in Hw. unfold ClockedTimers.see in Hw. case_decide as Hu; [|done]. destruct Hu as [Hx Hn]. by destruct (Hn Hx).
Qed.

Lemma sample_ctx_ok : ctx_ok_but None sample.
Proof.
  apply packets_ok; [apply initial_ok, sample_initial|]. intros j pk (g & Hg & Hj).
  by apply elem_of_nil in Hj.
Qed.

Lemma sample_unowned pk : unowned sample pk.
Proof. intros j (g & Hg & Hj). by apply elem_of_nil in Hj. Qed.

(** A Create Session Request to the node 3, and its commit. *)
Definition run {A} (r : option (A * sample_state)) : sample_state := match r with Some (_, c) => c | None => sample end.
Definition sample_created : sample_state := run (gtp_xact_local_create sample 3 32 9 (Some 40%nat)).
Definition sample_waiting : sample_state := run (gtp_xact_commit sample_created 0 true).

(** The request as it is sent: type 32, length 11, TEID 9, sequence number 1. *)
Definition sample_datagram : list Z := [0x48; 32; 0; 11; 0; 0; 0; 9; 0; 0; 1; 0; 7; 8; 9].
Example sample_sent : sent sample_waiting = [(3%nat, sample_datagram)].
Proof. by vm_compute. Qed.

Lemma sample_created_live : live sample_created 0.
Proof. exists 3%nat. split; [by vm_compute|by_decide]. Qed.

Lemma sample_created_reachable : rtc sstep (sample_empty, []) (sample_created, []).
Proof.
  eapply rtc_l; [apply ss_operation; by apply (st_packet sample_empty 40 sample_packet)|].
  apply rtc_once, ss_operation.
  apply (st_local sample 3 32 9 40 (Some 0%nat)); [by eexists|apply sample_unowned|by vm_compute].
Qed.

Lemma sample_waiting_reachable : rtc sstep (sample_empty, []) (sample_waiting, []).
Proof.
  eapply rtc_r; [apply sample_created_reachable|]. apply ss_operation.
  apply (st_commit sample_created 0 true CORE_OK); [apply sample_created_live|by vm_compute|by vm_compute].
Qed.

(** Its response timer fires, and the event waits. *)
Definition sample_fired : sample_state := timer_fired sample_waiting 1.

Lemma sample_fired_reachable : rtc sstep (sample_empty, []) (sample_fired, [(5, 1)]).
Proof.
  eapply rtc_r; [apply sample_waiting_reachable|].
  apply (ss_fire sample_waiting [] 1 5 1); [by vm_compute|by left].
Qed.

Lemma sample_fired_due : due sample_fired (5, 1).
Proof.
  exists 0%nat. split; [done|]. split; [exists 3%nat; split; [by vm_compute|by_decide]|].
  left. split; [done|]. split; [by vm_compute|by vm_compute].
Qed.

Lemma xact_safe_witness :
  initial sample_empty /\ rtc sstep (sample_empty, []) (sample_fired, [(5, 1)]) /\
  exists rv c', handle_timeout sample_fired (5, 1) true = Some (rv, c') /\ ctx_ok_but None c'.
Proof.
  split; [apply sample_initial|]. split; [apply sample_fired_reachable|].
  destruct (xact_safe sample_empty sample_fired [(5, 1)] sample_initial sample_fired_reachable) as (_ & _ & _ & _ & _ & H & _).
  apply H, sample_fired_due.
Defined.

(** The response comes while the event waits, and its commit deletes the transaction.
    The event, which is handled then, starts the response timer that the commit has
    given back: a free block is among the active timers, and will fire again. *)
Definition sample_responded : sample_state :=
  match gtp_xact_receive sample_fired 3 33 (GTP_XID_TO_SQN 1) true with
  | Some (_, c) => run (gtp_xact_commit c 0 true)
  | None => sample
  end.

Lemma stale_timeout :
  in_list sample_responded GTP_LOCAL_ORIGINATOR 3 = [] /\ packets sample_responded !! 40%nat = None /\
  match handle_timeout sample_responded (5, 1) true with
  | Some (rv, c') =>
      let s := ClockedTimers.service (timers c') in
      rv = CORE_ERROR /\ Timer.running <$> Timer.blocks s !! 1%nat = Some 1 /\ DList.next (Timer.active_list s) = Some 1%nat /\
      Some 1%nat ∈ Pool.free (Timer.timer_pool s)
  | None => False
  end.
Proof. split; [by vm_compute|split; [by vm_compute|]]. vm_compute. split_and!; [done..|by left]. Qed.

(** After [gtp_xact_delete_all], as when the peer is removed, the event sends the
    packet of the request, which is free. *)
Lemma stale_timeout_deleted :
  match gtp_xact_delete_all sample_fired 3 with
  | Some c => packets c !! 40%nat = None /\ handle_timeout c (5, 1) true = None
  | None => False
  end.
Proof. vm_compute. by split. Qed.

Lemma sample_waiting_ok : ctx_ok_but None sample_waiting.
Proof. exact (reachable_ok _ _ _ sample_initial sample_waiting_reachable). Qed.

Lemma sample_awaits : awaits sample_waiting 0 1 3 40 (push_header sample_packet 32 9 1) 3.
Proof.
  split; try by vm_compute. exists 3%nat. split; [by vm_compute|by_decide].
Qed.

Lemma retransmission_witness :
  exists c3 : sample_state, sent c3 = [(3%nat, sample_datagram); (3%nat, sample_datagram); (3%nat, sample_datagram)] /\ ~ live c3 0.
Proof.
  destruct (retransmission sample_waiting 0 1 3 40 _ true sample_waiting_ok sample_awaits)
    as (c1 & c2 & c3 & _ & _ & _ & Hs & _ & _ & Hl & _).
  exists c3. split; [exact Hs|exact Hl].
Defined.

(** The peer has served the request; it comes again. *)
Definition sample_received : sample_state := run (gtp_xact_receive sample 4 32 (GTP_XID_TO_SQN 1) true).
Definition sample_answered : sample_state := run (gtp_xact_update_tx sample_received 0 33 5 (Some 40%nat)).
Definition sample_served : sample_state := run (gtp_xact_commit sample_answered 0 true).

Lemma sample_served_ok : ctx_ok_but None sample_served /\ gtp_xact_find_by_xid sample_served 4 32 1 = Some 0%nat /\
  step (get_xact sample_served 0) = 2 /\ fst <$> seq (get_xact sample_served 0) !! 0%nat = Some 32.
Proof.
  pose proof (request_served sample 4 32 33 (GTP_XID_TO_SQN 1) 5 40 sample_packet 0
    (run (gtp_xact_remote_create sample 4 (GTP_XID_TO_SQN 1)))) as H. cbv zeta in H.
  change (GTP_SQN_TO_XID (GTP_XID_TO_SQN 1)) with 1 in H.
  destruct H as (c1 & c2 & c3 & E1 & E2 & E3 & Hok & _ & _ & H2 & H3 & H4);
    [apply sample_ctx_ok|by vm_compute|by vm_compute|by intros j Hj%elem_of_nil|by vm_compute|by vm_compute|apply sample_unowned|].
  assert (c1 = sample_received) as -> by (unfold sample_received; by rewrite E1).
  assert (c2 = sample_answered) as -> by (unfold sample_answered; by rewrite E2).
  assert (c3 = sample_served) as -> by (unfold sample_served; by rewrite E3).
  split; [exact Hok|]. split; [exact H2|]. split; [exact H3|exact H4].
Qed.

Lemma duplicate_request_witness :
  exists (c' : sample_state) d, gtp_xact_receive sample_served 4 32 (GTP_XID_TO_SQN 1) true = Some (CORE_EAGAIN, None, c') /\
    sent c' = (4%nat, d) :: sent sample_served.
Proof.
  destruct sample_served_ok as (Hok & Hf & Hst & Hty).
  destruct (duplicate_request sample_served 4 32 (GTP_XID_TO_SQN 1) 0 Hok) as (c' & E & _ & _ & _ & _ & H);
    [exact Hf|by vm_compute|exact Hty|by right|].
  destruct (H Hst) as (pk & p & _ & _ & Hs & _). exists c', (datagram p). split; [exact E|exact Hs].
Defined.

Lemma exchange_witness :
  exists (a2 a4 : sample_state) d, gtp_xact_commit sample_created 0 true = Some (CORE_OK, a2) /\ sent a4 = [(3%nat, d)] /\
    (forall j, live a4 j <-> live sample j) /\ packets a4 !! 40%nat = None.
Proof.
  destruct (exchange sample sample 3 4 32 33 9 5 40 sample_packet 40 sample_packet 0 sample_created 0
    sample_ctx_ok sample_ctx_ok) as (a2 & d & a3 & a4 & b1 & b2 & b3 & d' & H1 & _ & _ & _ & _ & _ & _ & _ & _ & _ & _ & _ & H2 & _ & _ & H3 & H4);
    [by split|by split|by vm_compute|apply sample_unowned|by vm_compute|apply sample_unowned|by vm_compute|by vm_compute|by vm_compute
    | |by intros j Hj%elem_of_nil|by intros j Hj%elem_of_nil|].
  - intros sqn Hs. unfold gtp_xact_remote_create. rewrite Hs. eexists. by vm_compute.
  - exists a2, a4, d. split; [exact H1|]. split; [exact H4|]. split; [exact H2|]. by rewrite H3.
Defined.

Lemma unmatched_response_witness :
  exists c' : sample_state, gtp_xact_receive sample 4 33 (GTP_XID_TO_SQN 77) true = Some (CORE_ERROR, None, c') /\ live c' 0.
Proof.
  exists (run (gtp_xact_remote_create sample 4 (GTP_XID_TO_SQN 77))).
  destruct (unmatched_response sample 4 33 (GTP_XID_TO_SQN 77) true 0 (run (gtp_xact_remote_create sample 4 (GTP_XID_TO_SQN 77)))
    sample_ctx_ok) as (H1 & _ & H2 & _); [by vm_compute|by vm_compute|by vm_compute|].
  split; [exact H1|exact H2].
Defined.

(** After 2{^23} - 1 transactions the next identifier is 0x800000, which marks the
    transactions of the peer's commands: a request of this side such as Create
    Bearer Request is then refused, and its transaction stays. *)
Example marked_identifier :
  let '(r, c') := match gtp_xact_local_create (set_id sample 0x7fffff) 3 95 9 (Some 40%nat) with
                  | Some (r, c') => (r, c')
                  | None => (Some 0%nat, sample)
                  end in
  r = None /\ in_list c' GTP_LOCAL_ORIGINATOR 3 = [0%nat] /\ xid (get_xact c' 0) = 0x800000.
Proof. by vm_compute. Qed.

End GtpXactSpec.
