(* ===== verification/UePool.v ===== *)
(** The addresses of the UEs: the subnets of [spgw/spgw_context.c]
    ([pgw_subnet_add], [pgw_ue_pool_generate], [find_subnet], [pgw_ue_ip_alloc],
    [pgw_ue_ip_free]) and the subnet arithmetic of [lib/core/src/unix/sockaddr.c]. *)

From S2P Require Import Prelude Alloc Pool.

Module UePool.
Import Pool.

Definition AF_INET : Z := 2.
Definition AF_INET6 : Z := 10.
Definition MAX_POOL_OF_UE : Z := 128 * 128.

(** ** Subnets *)

(** Addresses and masks are the sixteen octets of an array of four words in memory;
    IPv4 uses the first word. *)
Definition word (l : list Z) (i : nat) : list Z := take 4 (drop (4 * i) l).
Definition set_word (l : list Z) (i : nat) (w : list Z) : list Z := take (4 * i) l ++ w ++ drop (4 * i + 4) l.

Record ipsubnet_t := mkIpsubnet { family : Z; sub : list Z; mask : list Z }.

(** The loop on [cur_bit_value], an [int]: the division is signed. *)
Fixpoint mask_bits (bits : nat) (cur_bit_value m : Z) : Z :=
  match bits with
  | O => m
  | S bits => mask_bits bits (Z.quot cur_bit_value 2) (m .| u32 cur_bit_value)
  end.

(** The words from [cur_entry] on, [n] of them. *)
Fixpoint mask_words (n bits : nat) : list Z :=
  match n with
  | O => []
  | S n =>
      if decide (32 < bits)%nat then le32 0xffffffff ++ mask_words n (bits - 32)
      else le32 (bswap32 (mask_bits bits (- 2 ^ 31) 0)) ++ replicate (4 * n) 0
  end.

Definition fix_subnet (s : ipsubnet_t) : ipsubnet_t :=
  mkIpsubnet (family s) (zip_with Z.land (sub s) (mask s)) (mask s).

(** [family] and [addr]: what [parse_ip] has read; [bits]: the number read from
    [mask_or_numbits]; no result for a bad mask. *)
Definition core_ipsubnet (family : Z) (addr : list Z) (bits : option Z) : option ipsubnet_t :=
  match bits with
  | None => Some (fix_subnet (mkIpsubnet family addr (replicate 16 0xff)))
  | Some bits =>
      let maxbits := if decide (family = AF_INET6) then 128 else 32 in
      if decide (0 < bits /\ bits <= maxbits)
      then Some (fix_subnet (mkIpsubnet family addr (mask_words 4 (Z.to_nat bits))))
      else None
  end.

(** [ips]: the addresses in [pool.pool[]], from the first on; the nodes of [pool] are
    their positions. *)
Record pgw_subnet_t := mkSubnet {
  net : ipsubnet_t; gw : ipsubnet_t; apn : list Z; prefixlen : Z;
  ips : list (list Z); pool : Pool.pool nat }.

Definition set_ips (s : pgw_subnet_t) (l : list (list Z)) (p : Pool.pool nat) : pgw_subnet_t :=
  mkSubnet (net s) (gw s) (apn s) (prefixlen s) l p.
Definition set_pool (s : pgw_subnet_t) (p : Pool.pool nat) : pgw_subnet_t := set_ips s (ips s) p.

(** Appended to [subnet_list], which is returned; the device is left out. *)
Definition pgw_subnet_add (l : list pgw_subnet_t) (family : Z) (addr : list Z) (bits : Z) (apn : list Z)
  : option (list pgw_subnet_t) :=
  gw ← core_ipsubnet family addr None;
  net ← core_ipsubnet family addr (Some bits);
  Some (l ++ [mkSubnet net gw apn (u8 bits) (replicate (Z.to_nat MAX_POOL_OF_UE) (replicate 16 0))
                (pool_init (seq 0 (Z.to_nat MAX_POOL_OF_UE)))]).

(** ** The addresses of a subnet *)

(** No result where the function returns an error. *)
Definition mask_count (s : pgw_subnet_t) : option Z :=
  let p := prefixlen s in
  let f := family (gw s) in
  if decide (f = AF_INET) then
    if decide (p = 32) then Some 1
    else if decide (p < 32) then Some (u32 ((0xffffffff >> p) + 1))
    else None
  else if decide (f = AF_INET6) then
    if decide (p = 128) then Some 1
    else if decide (p > 96 /\ p < 128) then Some (u32 ((0xffffffff >> (p - 96)) + 1))
    else if decide (p <= 96) then Some 0xffffffff
    else None
  else None.

Definition maxbytes (s : pgw_subnet_t) : nat := if decide (family (gw s) = AF_INET) then 4 else 16.
Definition lastindex (s : pgw_subnet_t) : nat := if decide (family (gw s) = AF_INET) then 0 else 3.

(** [broadcast[j] = subnet->sub.sub[j] + ~subnet->sub.mask[j]], on each word. *)
Definition broadcast (s : pgw_subnet_t) : list Z :=
  concat (map (fun j => le32 (u32 (rd_le32 (word (sub (net s)) j) + (0xffffffff - rd_le32 (word (mask (net s)) j)))))
    (seq 0 4)).

(** [ue_ip->addr]: the octets of the subnet, and [addr[lastindex] += htonl(j)]. *)
Definition ue_addr (s : pgw_subnet_t) (j : Z) : list Z :=
  let a := take (maxbytes s) (sub (net s)) ++ replicate (16 - maxbytes s) 0 in
  set_word a (lastindex s) (le32 (u32 (rd_le32 (word a (lastindex s)) + bswap32 j))).

(** [memcmp] of [maxbytes] octets with the network, broadcast and TUN addresses. *)
Definition excluded (s : pgw_subnet_t) (a : list Z) : bool :=
  let n := maxbytes s in
  bool_decide (take n a = take n (sub (net s))) || bool_decide (take n a = take n (broadcast s)) ||
  bool_decide (take n a = take n (sub (gw s))).

(** The loop from [j] on, with [index] addresses before; no result when the fuel is used up. *)
Fixpoint fill (fuel : nat) (s : pgw_subnet_t) (count j index : Z) : option (list (list Z)) :=
  if decide (u32 j < count /\ index < MAX_POOL_OF_UE) then
    match fuel with
    | O => None
    | S fuel =>
        let a := ue_addr s j in
        if excluded s a then fill fuel s count (j + 1) index
        else l ← fill fuel s count (j + 1) (index + 1); Some (a :: l)
    end
  else Some [].

(** At most three addresses are passed over. *)
Definition fill_fuel : nat := Z.to_nat MAX_POOL_OF_UE + 3.

(** [size] and [avail] of the pool: the positions of [free[]] from [n] on are not
    reached any more, since positions are taken modulo [size]. *)
Definition resize (p : Pool.pool nat) (n : nat) : Pool.pool nat :=
  mkPool (head p) (tail p) n n (take n (free p)) (take n (nodes p)).

Definition generate (s : pgw_subnet_t) : option pgw_subnet_t :=
  count ← mask_count s;
  l ← fill fill_fuel s count 0 0;
  Some (set_ips s l (resize (pool s) (length l))).

(** [false] when the function ends with an error, at a subnet whose prefix is too long
    or whose family is not known. *)
Fixpoint pgw_ue_pool_generate (l : list pgw_subnet_t) : bool * list pgw_subnet_t :=
  match l with
  | [] => (true, [])
  | s :: l =>
      match generate s with
      | Some s => let '(ok, l) := pgw_ue_pool_generate l in (ok, s :: l)
      | None => (false, s :: l)
      end
  end.

(** ** Allocation *)

(** The position of the first subnet which [p] holds of. *)
Fixpoint first (p : pgw_subnet_t -> bool) (l : list pgw_subnet_t) : option nat :=
  match l with
  | [] => None
  | s :: l => if p s then Some O else S <$> first p l
  end.

Definition serves (f : Z) (name : list Z) (s : pgw_subnet_t) : bool :=
  bool_decide (apn s <> []) && bool_decide (family (gw s) = f) && bool_decide (apn s = name) &&
  bool_decide (0 < avail (pool s))%nat.
Definition serves_all (f : Z) (s : pgw_subnet_t) : bool :=
  bool_decide (apn s = []) && bool_decide (family (gw s) = f) && bool_decide (0 < avail (pool s))%nat.

Definition find_subnet (l : list pgw_subnet_t) (f : Z) (name : list Z) : option nat :=
  if decide (f = AF_INET \/ f = AF_INET6) then
    match first (serves f name) l with
    | Some k => Some k
    | None => first (serves_all f) l
    end
  else None.

(** The address is given by its subnet and its position. *)
Definition pgw_ue_ip_alloc (l : list pgw_subnet_t) (f : Z) (name : list Z)
  : option (nat * nat) * list pgw_subnet_t :=
  match find_subnet l f name with
  | Some k =>
      match l !! k with
      | Some s =>
          let '(i, p) := pool_alloc_node (pool s) in
          (pair k <$> i, <[k := set_pool s p]> l)
      | None => (None, l)
      end
  | None => (None, l)
  end.

Definition pgw_ue_ip_free (l : list pgw_subnet_t) (x : nat * nat) : list pgw_subnet_t :=
  alter (fun s => set_pool s (pool_free_node (pool s) (snd x))) (fst x) l.

(** The octets of an address in use. *)
Definition ip_addr (l : list pgw_subnet_t) (x : nat * nat) : list Z :=
  default [] (s ← l !! fst x; ips s !! snd x).

End UePool.
