(* ===== verification/UePoolSpec.v ===== *)
(** What comes out of [UePool]: the addresses of a subnet are its numbers in order,
    without the network, the broadcast address and the one of the TUN device. *)

From S2P Require Import Prelude Alloc Pool UePool.

Module UePoolSpec.
Import Pool UePool.

(** ** Masks *)

(** The mask of [b] bits in [n] octets. *)
Fixpoint pmask (n b : nat) : list Z :=
  match n with
  | O => []
  | S n => (255 - (255 >> Z.of_nat (Nat.min 8 b))) :: pmask n (b - 8)
  end.

Lemma length_pmask n b : length (pmask n b) = n.
Proof. revert b. induction n as [|n IH]; intros b; [done|]. cbn. by rewrite IH. Qed.

Lemma netmask b : (b <= 128)%nat -> mask_words 4 b = pmask 16 b.
Proof.
  intros Hb. assert (Forall (fun b => mask_words 4 b = pmask 16 b) (seq 0 129)) as F by by_decide.
  rewrite Forall_forall in F. apply F, elem_of_seq. lia.
Qed.

Lemma take_pmask m n b : (m <= n)%nat -> take m (pmask n b) = pmask m b.
Proof.
  revert n b. induction m as [|m IH]; intros [|n] b Hm; [done..|lia|]. cbn. by rewrite IH by lia.
Qed.

Lemma masked_bytes l k : bytes l -> bytes (zip_with Z.land l k).
Proof.
  intros Hl. revert k. induction Hl as [|x l Hx Hl IH]; intros [|y k]; try constructor; [by apply inw_land_l|apply IH].
Qed.

(** An octet under a mask of [k] bits. *)
Lemma octet_masked x k : inw 8 x -> (k <= 8)%nat ->
  x .& (255 - (255 >> Z.of_nat k)) = x - x mod 2 ^ (8 - Z.of_nat k) /\
  255 - (255 - (255 >> Z.of_nat k)) = 2 ^ (8 - Z.of_nat k) - 1.
Proof.
  intros Hx Hk. split; cycle 1.
  { do 9 (destruct k as [|k]; [reflexivity|]). lia. }
  revert x Hx. do 9 (destruct k as [|k]; [refine (bytes_forall _ _); vm_compute; reflexivity|]). lia.
Qed.

(** The remainder of a number with a part above [N] bits. *)
Lemma mod_below x t N h : 0 <= h <= N -> (x * 2 ^ N + t) mod 2 ^ h = t mod 2 ^ h.
Proof.
  intros H. replace N with (N - h + h) by lia. rewrite Z.pow_add_r, Z.mul_assoc, Z.add_comm by lia.
  by rewrite Z.mod_add by lia.
Qed.

Lemma mod_above x t N h : 0 <= N <= h -> 0 <= t < 2 ^ N ->
  (x * 2 ^ N + t) mod 2 ^ h = x mod 2 ^ (h - N) * 2 ^ N + t.
Proof.
  intros H Ht. replace h with (N + (h - N)) at 1 by lia. rewrite Z.pow_add_r, Z.rem_mul_r by lia.
  rewrite (Z.add_comm _ t), Z.mod_add, (Z.mod_small t) by lia.
  rewrite Z.div_add, (Z.div_small t) by lia. rewrite Z.add_0_l. lia.
Qed.

Lemma be_masked l b : bytes l -> (b <= 8 * length l)%nat ->
  let h := 8 * Z.of_nat (length l) - Z.of_nat b in
  be (zip_with Z.land l (pmask (length l) b)) = be l - be l mod 2 ^ h.
Proof.
  intros Hl. revert b. induction Hl as [|x l Hx Hl IH]; intros b Hb h; [done|].
  cbn [length pmask zip_with be] in *. pose proof (be_bound l Hl) as Hbl.
  rewrite length_zip_with, length_pmask, Nat.min_id.
  destruct (octet_masked x (Nat.min 8 b) Hx ltac:(lia)) as [-> _]. specialize (IH (b - 8)%nat ltac:(lia)).
  cbn zeta in IH. rewrite IH. set (n := length l) in *. pose proof (Z.pow_pos_nonneg 2 (8 * Z.of_nat n)).
  destruct (decide (8 <= b)%nat) as [H8|H8].
  - replace (Nat.min 8 b) with 8%nat by lia. rewrite Z.mod_1_r.
    replace (8 * Z.of_nat n - Z.of_nat (b - 8)) with h by lia. rewrite mod_below by lia. lia.
  - replace (Nat.min 8 b) with b by lia. replace (8 * Z.of_nat n - Z.of_nat (b - 8)) with (8 * Z.of_nat n) by lia.
    rewrite (Z.mod_small (be l)), mod_above by lia.
    replace (h - 8 * Z.of_nat n) with (8 - Z.of_nat b) by lia. lia.
Qed.

Lemma be_unmasked n b : (b <= 8 * n)%nat ->
  be (map (fun m => 255 - m) (pmask n b)) = 2 ^ (8 * Z.of_nat n - Z.of_nat b) - 1.
Proof.
  revert b. induction n as [|n IH]; intros b Hb; [by replace b with 0%nat by lia|]. cbn [pmask map be].
  rewrite length_map, length_pmask, IH by lia.
  destruct (octet_masked 0 (Nat.min 8 b) ltac:(done) ltac:(lia)) as [_ ->].
  destruct (decide (8 <= b)%nat) as [H8|H8].
  - replace (Nat.min 8 b) with 8%nat by lia. change (2 ^ (8 - Z.of_nat 8) - 1) with 0.
    rewrite Z.mul_0_l, Z.add_0_l. do 2 f_equal. lia.
  - replace (Nat.min 8 b) with b by lia.
    replace (8 * Z.of_nat (S n) - Z.of_nat b) with (8 - Z.of_nat b + 8 * Z.of_nat n) by lia.
    replace (8 * Z.of_nat n - Z.of_nat (b - 8)) with (8 * Z.of_nat n) by lia. rewrite Z.pow_add_r by lia. lia.
Qed.

(** ** Words *)

Lemma four (l : list Z) : length l = 4%nat -> exists a b c d, l = [a; b; c; d].
Proof. intros H. destruct l as [|a [|b [|c [|d []]]]]; try done. by exists a, b, c, d. Qed.

Lemma rd_le32_sum a b c d : bytes [a; b; c; d] -> rd_le32 [a; b; c; d] = d * 2 ^ 24 + c * 2 ^ 16 + b * 2 ^ 8 + a.
Proof.
  rewrite !Forall_cons. intros (Ha & Hb & Hc & Hd & _). unfold rd_le32. rd_simpl.
  assert (a .| (b << 8) .| (c << 16) .| (d << 24) = (d << 24) .| (c << 16) .| (b << 8) .| a) as -> by (intros; bits_eq).
  by apply lor4.
Qed.

(** The octets of a sum of words without a carry. *)
Lemma le32_sum a b c d : bytes [a; b; c; d] ->
  le32 (u32 (d * 2 ^ 24 + c * 2 ^ 16 + b * 2 ^ 8 + a)) = [a; b; c; d].
Proof.
  rewrite !Forall_cons. intros (Ha & Hb & Hc & Hd & _). unfold le32.
  destruct (digits d c b a) as (E0 & E1 & E2 & E3); [done..|]. cbn zeta in *.
  rewrite u32_id by (unfold inw in *; lia). rewrite !u8_mod, !shiftr_div by done. by rewrite E0, E1, E2, E3.
Qed.

Lemma complement_word s m : bytes s -> bytes m -> length s = 4%nat -> length m = 4%nat ->
  Forall2 (fun x y => x <= y) s m ->
  le32 (u32 (rd_le32 s + (0xffffffff - rd_le32 m))) = zip_with (fun x y => x + (255 - y)) s m.
Proof.
  intros Hs Hm Ls Lm Hle. destruct (four s Ls) as (a & b & c & d & ->). destruct (four m Lm) as (a' & b' & c' & d' & ->).
  rewrite !rd_le32_sum by done. cbn [zip_with].
  rewrite !Forall2_cons in Hle. destruct Hle as (? & ? & ? & ? & _).
  rewrite !Forall_cons in Hs, Hm. unfold inw in *.
  rewrite <- (le32_sum (a + (255 - a')) (b + (255 - b')) (c + (255 - c')) (d + (255 - d')))
    by (repeat constructor; unfold inw; lia).
  do 2 f_equal. lia.
Qed.

(** Digits of a multiple of [2 ^ h] and of a number below it. *)
Lemma no_carry x j h k : 0 <= k -> 0 <= h -> x mod 2 ^ h = 0 -> 0 <= j < 2 ^ h ->
  (x / 2 ^ k) mod 2 ^ 8 + (j / 2 ^ k) mod 2 ^ 8 < 2 ^ 8.
Proof.
  intros Hk Hh Hx Hj. assert (forall z, 0 <= z mod 2 ^ 8 < 2 ^ 8) as B by (intros; by apply Z.mod_pos_bound).
  assert (0 < 2 ^ k) as Pk by (by apply Z.pow_pos_nonneg).
  destruct (decide (h <= k)) as [L|L].
  { rewrite (Z.div_small j) by (pose proof (Z.pow_le_mono_r 2 h k); lia). change (0 mod 2 ^ 8) with 0.
    rewrite Z.add_0_r. apply B. }
  assert (exists e, h = e + k /\ 0 < e) as (e & -> & He) by (exists (h - k); lia). clear L Hh.
  assert (0 < 2 ^ e) as Pe by (apply Z.pow_pos_nonneg; lia). rewrite Z.pow_add_r in * by lia.
  apply Z.mod_divide in Hx as [q ->]; [|nia]. rewrite (Z.mul_assoc q), Z.div_mul by lia.
  assert (0 <= j / 2 ^ k < 2 ^ e) as Hd.
  { split; [apply Z.div_pos; lia|]. apply Z.div_lt_upper_bound; lia. }
  set (d := j / 2 ^ k) in *. clearbody d. clear Hj.
  destruct (decide (8 <= e)) as [M|M].
  { assert (exists f, e = f + 8 /\ 0 <= f) as (f & -> & Hf) by (exists (e - 8); lia).
    rewrite (Z.pow_add_r 2 f 8), Z.mul_assoc, Z.mod_mul by lia. rewrite Z.add_0_l. apply B. }
  assert (exists f, 8 = f + e /\ 0 < f) as (f & E8 & Hf) by (exists (8 - e); lia).
  assert (2 ^ 8 = 2 ^ f * 2 ^ e) as E by (rewrite E8; apply Z.pow_add_r; lia).
  assert (0 < 2 ^ f) as Pf by (apply Z.pow_pos_nonneg; lia).
  rewrite E, Z.mul_mod_distr_r, (Z.mod_small d) by nia.
  pose proof (Z.mod_pos_bound q (2 ^ f) Pf). nia.
Qed.

Lemma add_digits w j h : 0 <= h <= 32 -> bytes w -> length w = 4%nat -> be w mod 2 ^ h = 0 -> 0 <= j < 2 ^ h ->
  le32 (u32 (rd_le32 w + bswap32 j)) = to_be 4 (be w + j).
Proof.
  intros Hh Hw Lw Hm Hj. pose proof (Z.pow_le_mono_r 2 h 32). pose proof (no_carry (be w) j h) as N.
  pose proof (N 24 ltac:(lia) ltac:(lia) Hm Hj) as N3. pose proof (N 16 ltac:(lia) ltac:(lia) Hm Hj) as N2.
  pose proof (N 8 ltac:(lia) ltac:(lia) Hm Hj) as N1. pose proof (N 0 ltac:(lia) ltac:(lia) Hm Hj) as N0. clear N.
  destruct (four w Lw) as (a & b & c & d & ->).
  rewrite rd_le32_sum, bswap32_sum by done. rewrite !Forall_cons in Hw. destruct Hw as (Ha & Hb & Hc & Hd & _).
  assert (be [a; b; c; d] = a * 2 ^ 24 + b * 2 ^ 16 + c * 2 ^ 8 + d) as E by (clear; cbn; lia). rewrite E in *.
  destruct (digits a b c d) as (E0 & E1 & E2 & E3); [done..|]. cbn zeta in *.
  rewrite E3 in N3. rewrite E2 in N2. rewrite E1 in N1. rewrite !Z.div_1_r, E0 in N0. clear E E0 E1 E2 E3.
  set (j0 := j mod 2 ^ 8) in *. set (j1 := (j / 2 ^ 8) mod 2 ^ 8) in *. set (j2 := (j / 2 ^ 16) mod 2 ^ 8) in *.
  set (j3 := (j / 2 ^ 24) mod 2 ^ 8) in *.
  assert (j = j3 * 2 ^ 24 + j2 * 2 ^ 16 + j1 * 2 ^ 8 + j0) as Ej by (unfold j0, j1, j2, j3; lia).
  assert (0 <= j0 < 2 ^ 8 /\ 0 <= j1 < 2 ^ 8 /\ 0 <= j2 < 2 ^ 8 /\ 0 <= j3 < 2 ^ 8) as (B0 & B1 & B2 & B3)
    by (unfold j0, j1, j2, j3; lia). clear Hm Hj. clearbody j0 j1 j2 j3. subst j. unfold inw in *.
  assert (bytes [a + j3; b + j2; c + j1; d + j0]) as W by (repeat constructor; unfold inw; lia).
  transitivity [a + j3; b + j2; c + j1; d + j0].
  - rewrite <- (le32_sum (a + j3) (b + j2) (c + j1) (d + j0)) by done. do 2 f_equal. lia.
  - rewrite <- (to_be_length 4 _ W eq_refl). f_equal. cbn. lia.
Qed.

(** ** The addresses *)

(** A subnet as [pgw_subnet_add] makes it, of [n] octets and a prefix of [b] bits. *)
Record configured (n b : nat) (addr : list Z) (s : pgw_subnet_t) : Prop := mkConfigured {
  cf_bytes : bytes addr;
  cf_length : length addr = 16%nat;
  cf_family : (n = 4%nat /\ family (gw s) = AF_INET) \/ (n = 16%nat /\ family (gw s) = AF_INET6);
  cf_bits : (0 < b <= 8 * n)%nat;
  cf_prefix : prefixlen s = Z.of_nat b;
  cf_gw : sub (gw s) = addr;
  cf_net : sub (net s) = zip_with Z.land addr (pmask 16 b) /\ mask (net s) = pmask 16 b
}.

(** The number of an address, of the network and its size. *)
Definition num (n : nat) (a : list Z) : Z := be (take n a).
Definition hosts (n b : nat) : Z := 8 * Z.of_nat n - Z.of_nat b.
Definition network (n b : nat) (addr : list Z) : Z := num n addr - num n addr mod 2 ^ hosts n b.

Lemma land_ones_octets l : bytes l -> zip_with Z.land l (replicate (length l) 0xff) = l.
Proof.
  induction 1 as [|x l Hx Hl IH]; [done|]. cbn. rewrite IH. f_equal.
  rewrite (land_ones_mod x 8) by done. by apply Z.mod_small.
Qed.

Lemma added_configured f n addr bits apn :
  (n = 4%nat /\ f = AF_INET) \/ (n = 16%nat /\ f = AF_INET6) ->
  bytes addr -> length addr = 16%nat -> 0 < bits <= 8 * Z.of_nat n ->
  exists s, pgw_subnet_add [] f addr bits apn = Some [s] /\ configured n (Z.to_nat bits) addr s /\
    pool s = pool_init (seq 0 (Z.to_nat MAX_POOL_OF_UE)).
Proof.
  intros Hf Hb Hl Hbits. eexists. split; [|split].
  - unfold pgw_subnet_add, core_ipsubnet. cbn [mbind option_bind]. rewrite decide_True; [done|].
    destruct Hf as [[-> ->]|[-> ->]]; (split; [lia|]); [rewrite decide_False by done|rewrite decide_True by done]; lia.
  - assert (mask_words 4 (Z.to_nat bits) = pmask 16 (Z.to_nat bits)) as E by (apply netmask; lia).
    split; cbn [gw net prefixlen fix_subnet family sub mask]; [done|done|..].
    + destruct Hf as [[-> ->]|[-> ->]]; auto.
    + lia.
    + rewrite u8_id; [lia|unfold inw; lia].
    + rewrite <- Hl. by apply land_ones_octets.
    + by rewrite E.
  - done.
Qed.

Section subnet.
Context (n b : nat) (addr : list Z) (s : pgw_subnet_t) (Hs : configured n b addr s).

Lemma octets_cases : (n = 4 \/ n = 16)%nat.
Proof. destruct (cf_family _ _ _ _ Hs) as [[-> _]|[-> _]]; auto. Qed.

Lemma maxbytes_eq : maxbytes s = n /\ (4 * lastindex s)%nat = (n - 4)%nat.
Proof. unfold maxbytes, lastindex. by destruct (cf_family _ _ _ _ Hs) as [[-> ->]|[-> ->]]. Qed.

(** The octets of the network. *)
Definition base : list Z := zip_with Z.land (take n addr) (pmask n b).

Lemma base_eq : take n (sub (net s)) = base /\ length base = n /\ bytes base.
Proof.
  destruct (cf_net _ _ _ _ Hs) as [-> _]. pose proof octets_cases as Hn.
  pose proof (cf_length _ _ _ _ Hs) as Hl. unfold base. split_and!.
  - by rewrite zip_with_take, take_pmask by lia.
  - rewrite length_zip_with, length_take, length_pmask. lia.
  - apply masked_bytes, Forall_take, (cf_bytes _ _ _ _ Hs).
Qed.

Lemma base_num : be base = network n b addr.
Proof.
  unfold base, network, num, hosts. pose proof octets_cases as Hn. pose proof (cf_length _ _ _ _ Hs) as Hl.
  pose proof (cf_bits _ _ _ _ Hs) as Hb.
  assert (length (take n addr) = n) as L by (rewrite length_take; lia).
  pose proof (be_masked (take n addr) b) as M. rewrite L in M. apply M; [|lia].
  apply Forall_take, (cf_bytes _ _ _ _ Hs).
Qed.

Lemma network_multiple : 0 <= hosts n b /\ network n b addr mod 2 ^ hosts n b = 0.
Proof.
  pose proof (cf_bits _ _ _ _ Hs) as Hb. assert (0 <= hosts n b) as Hh by (unfold hosts; lia). split; [done|].
  assert (2 ^ hosts n b <> 0) as Hp by (apply Z.pow_nonzero; lia). unfold network.
  rewrite Zminus_mod, Z.mod_mod, Z.sub_diag by done. by apply Z.mod_0_l.
Qed.

(** The number of addresses the loop goes through. *)
Definition range : Z := Z.min (2 ^ hosts n b) (2 ^ 32 - 1).

Lemma mask_count_eq : mask_count s = Some range /\ 0 <= range.
Proof.
  pose proof (cf_bits _ _ _ _ Hs) as Hb. unfold mask_count, range. rewrite (cf_prefix _ _ _ _ Hs).
  assert (forall e, 0 <= e <= 31 -> u32 ((0xffffffff >> (32 - e)) + 1) = 2 ^ e /\ 2 ^ e <= 2 ^ 32 - 1) as P.
  { intros e He. assert (e ∈ seqZ 0 32) as Hin by (apply elem_of_seqZ; lia). revert e Hin He.
    assert (Forall (fun e => u32 ((0xffffffff >> (32 - e)) + 1) = 2 ^ e /\ 2 ^ e <= 2 ^ 32 - 1) (seqZ 0 32)) as F by by_decide.
    rewrite Forall_forall in F. auto. }
  assert (0 <= Z.min (2 ^ hosts n b) (2 ^ 32 - 1)) as R by (pose proof (Z.pow_nonneg 2 (hosts n b)); lia).
  split; [|done].
  destruct (cf_family _ _ _ _ Hs) as [[-> ->]|[-> ->]]; unfold hosts in *.
  - rewrite decide_True by done. destruct (decide (b = 32%nat)) as [->|Hb']; [done|].
    rewrite decide_False, decide_True by lia. destruct (P (32 - Z.of_nat b) ltac:(lia)) as [E L].
    replace (32 - (32 - Z.of_nat b)) with (Z.of_nat b) in E by lia. change (8 * Z.of_nat 4) with 32.
    by rewrite E, Z.min_l by lia.
  - rewrite decide_False, decide_True by done. destruct (decide (b = 128%nat)) as [->|Hb']; [done|].
    rewrite decide_False by lia. change (8 * Z.of_nat 16) with 128. case_decide as Hc.
    + destruct (P (128 - Z.of_nat b) ltac:(lia)) as [E L].
      replace (32 - (128 - Z.of_nat b)) with (Z.of_nat b - 96) in E by lia. by rewrite E, Z.min_l by lia.
    + rewrite decide_True by lia. rewrite Z.min_r; [done|]. pose proof (Z.pow_le_mono_r 2 32 (128 - Z.of_nat b)). lia.
Qed.

(** *** The [j]-th address *)

Definition upper : list Z := take (n - 4) base.
Definition lower : list Z := drop (n - 4) base.

Lemma split_base : base = upper ++ lower /\ length upper = (n - 4)%nat /\ length lower = 4%nat /\
  bytes upper /\ bytes lower.
Proof.
  pose proof octets_cases. destruct base_eq as (_ & L & B). unfold upper, lower.
  rewrite length_take, length_drop, L, take_drop. split_and!; [done|lia|lia|by apply Forall_take|by apply Forall_drop].
Qed.

Lemma base_sum : be base = be upper * 2 ^ 32 + be lower /\ 0 <= be lower < 2 ^ 32.
Proof.
  destruct split_base as (E & _ & L & _ & B). split.
  - rewrite E, be_app, L. done.
  - pose proof (be_bound _ B) as H. rewrite L in H. exact H.
Qed.

(** The bits that are counted. *)
Definition low_bits : Z := Z.min (hosts n b) 32.

Lemma lower_multiple : 0 <= low_bits <= 32 /\ be lower mod 2 ^ low_bits = 0 /\ range <= 2 ^ low_bits.
Proof.
  destruct network_multiple as [Hh Hm]. unfold low_bits. split_and!; [lia|lia| |].
  - rewrite <- base_num in Hm. destruct base_sum as [E _].
    assert (be base mod 2 ^ Z.min (hosts n b) 32 = 0) as Hm'.
    { apply Z.mod_divide; [apply Z.pow_nonzero; lia|]. apply Z.mod_divide in Hm; [|apply Z.pow_nonzero; lia].
      apply (Z.divide_trans _ (2 ^ hosts n b)); [|done]. exists (2 ^ (hosts n b - Z.min (hosts n b) 32)).
      rewrite <- Z.pow_add_r by lia. f_equal. lia. }
    rewrite E in Hm'. by rewrite mod_below in Hm' by lia.
  - unfold range. destruct (decide (hosts n b <= 32)) as [H|H].
    + rewrite (Z.min_l (hosts n b) 32) by lia. lia.
    + rewrite (Z.min_r (hosts n b) 32) by lia. lia.
Qed.

Lemma ue_addr_eq j : 0 <= j < range ->
  ue_addr s j = upper ++ to_be 4 (be lower + j) ++ replicate (16 - n) 0.
Proof.
  intros Hj. destruct maxbytes_eq as [En El]. destruct base_eq as (Eb & Lb & _).
  destruct split_base as (Es & Lu & Ll & _ & Bl). destruct lower_multiple as (Hh & Hm & Hr).
  unfold ue_addr, word, set_word. rewrite En, El, Eb.
  replace (take (n - 4) (base ++ replicate (16 - n) 0)) with upper
    by (rewrite Es, <- (assoc_L (++)), take_app_length'; done).
  replace (take 4 (drop (n - 4) (base ++ replicate (16 - n) 0))) with lower
    by (rewrite Es, <- (assoc_L (++)), drop_app_length', take_app_length'; done).
  replace (drop (n - 4 + 4) (base ++ replicate (16 - n) 0)) with (replicate (16 - n) 0)
    by (pose proof octets_cases; rewrite drop_app_length'; [done|lia]).
  by rewrite (add_digits lower j low_bits) by (done || lia).
Qed.

Lemma ue_addr_num j : 0 <= j < range -> num n (ue_addr s j) = network n b addr + j.
Proof.
  intros Hj. rewrite ue_addr_eq by done. destruct split_base as (Es & Lu & Ll & _ & Bl).
  destruct base_sum as [E HB]. destruct lower_multiple as (Hh & Hm & Hr). unfold num.
  pose proof octets_cases as Hn. rewrite (assoc_L (++)), take_app_length' by (rewrite length_app, length_to_be, Lu; lia).
  rewrite be_app, length_to_be, <- base_num, E, be_to_be. change (8 * Z.of_nat 4) with 32.
  rewrite Z.mod_small; [lia|]. split; [lia|].
  (* the sum of a multiple and of a number below it *)
  apply Z.mod_divide in Hm as [q Hq]; [|apply Z.pow_nonzero; lia]. rewrite Hq in HB |- *.
  assert (2 ^ 32 = 2 ^ (32 - low_bits) * 2 ^ low_bits) as P by (rewrite <- Z.pow_add_r by lia; f_equal; lia).
  rewrite P in HB |- *. assert (0 < 2 ^ low_bits) as HX by (apply Z.pow_pos_nonneg; lia).
  revert HB HX Hr Hj. generalize (2 ^ low_bits) (2 ^ (32 - low_bits)). clear. intros X Y HB HX Hr Hj.
  assert (q < Y) by nia. nia.
Qed.

Lemma ue_addr_inj i j : 0 <= i < range -> 0 <= j < range -> ue_addr s i = ue_addr s j -> i = j.
Proof.
  intros Hi Hj E. pose proof (ue_addr_num i Hi) as Ei. rewrite E, ue_addr_num in Ei by done. lia.
Qed.

(** *** The addresses that are passed over *)

Lemma land_le x m : 0 <= m -> x .& m <= m.
Proof.
  intros Hm. assert (m - (x .& m) = Z.ldiff m (x .& m)) as E.
  { apply Z.sub_nocarry_ldiff, Z.bits_inj'. intros i Hi. rewrite Z.ldiff_spec, Z.land_spec, Z.bits_0.
    by destruct (Z.testbit x i), (Z.testbit m i). }
  assert (0 <= Z.ldiff m (x .& m)) by (apply Z.ldiff_nonneg; by left). lia.
Qed.

Lemma pmask_bytes k c : bytes (pmask k c).
Proof.
  revert c. induction k as [|k IH]; intros c; constructor; [|apply IH].
  assert (forall m, (m <= 8)%nat -> inw 8 (255 - (255 >> Z.of_nat m))) as H; [|apply H; lia].
  intros m Hm. do 9 (destruct m as [|m]; [by_decide|]). lia.
Qed.

(** The broadcast address, octet by octet. *)
Lemma broadcast_eq : broadcast s = zip_with (fun x y => x + (255 - y)) (sub (net s)) (pmask 16 b).
Proof.
  destruct (cf_net _ _ _ _ Hs) as [Es Em]. pose proof (cf_length _ _ _ _ Hs) as Hl. pose proof (cf_bytes _ _ _ _ Hs) as Hb.
  unfold broadcast. rewrite Em, Es. pose proof (pmask_bytes 16 b) as Bm. pose proof (length_pmask 16 b) as Lm.
  set (m := pmask 16 b) in *. clearbody m. set (l := zip_with Z.land addr m).
  assert (length l = 16%nat) as Ll by (unfold l; rewrite length_zip_with; lia).
  assert (bytes l) as Bl.
  { unfold l. clear -Hb. revert m. induction Hb as [|x k Hx Hk IH]; intros [|y m]; constructor; [by apply inw_land_l|apply IH]. }
  assert (Forall2 (fun x y => x <= y) l m) as F.
  { unfold l. assert (length addr = length m) as E by lia. clear -Bm E. revert addr E.
    induction Bm as [|y m Hy Hm IH]; intros [|x k] E; try done; constructor; [apply land_le, Hy|apply IH; by injection E]. }
  assert (forall j, (j < 4)%nat -> le32 (u32 (rd_le32 (word l j) + (0xffffffff - rd_le32 (word m j)))) =
    zip_with (fun x y => x + (255 - y)) (word l j) (word m j)) as W.
  { intros j Hj. apply complement_word; unfold word; try (by apply Forall_take, Forall_drop);
      try (rewrite length_take, length_drop; lia). by apply Forall2_take, Forall2_drop. }
  cbn [seq map concat]. rewrite !W by lia. clear W F Bl Bm. clearbody l.
  do 17 (destruct l as [|? l]; try done). do 17 (destruct m as [|? m]; try done).
Qed.

Lemma broadcast_num : num n (broadcast s) = network n b addr + 2 ^ hosts n b - 1.
Proof.
  rewrite broadcast_eq. unfold num. pose proof octets_cases as Hn. pose proof (cf_bits _ _ _ _ Hs) as Hb.
  destruct base_eq as (Eb & Lb & _). rewrite zip_with_take, Eb, take_pmask, <- base_num by lia.
  pose proof (be_unmasked n b ltac:(lia)) as U. fold (hosts n b) in U.
  assert (forall l m, length l = length m ->
    be (zip_with (fun x y => x + (255 - y)) l m) = be l + be (map (fun y => 255 - y) m)) as A.
  { intros l. induction l as [|x l IH]; intros [|y m] E; try done. cbn. injection E as E.
    rewrite IH, length_zip_with, length_map, E, Nat.min_id by done. lia. }
  rewrite A by (by rewrite length_pmask). rewrite U. lia.
Qed.

(** An address is passed over exactly for the three numbers. *)
Definition reserved (a : Z) : Prop :=
  a = network n b addr \/ a = network n b addr + 2 ^ hosts n b - 1 \/ a = num n addr.

#[local] Instance reserved_dec a : Decision (reserved a).
Proof. unfold reserved. apply _. Defined.

Lemma excluded_spec j : 0 <= j < range ->
  excluded s (ue_addr s j) = bool_decide (reserved (network n b addr + j)).
Proof.
  intros Hj. pose proof octets_cases as Hn. destruct maxbytes_eq as [En _].
  assert (forall l l' : list Z, bytes l -> bytes l' -> length l = length l' -> (l = l' <-> be l = be l')) as I.
  { intros l l' Hl Hl' L. split; [by intros ->|by apply be_inj]. }
  assert (bytes (take n (ue_addr s j)) /\ length (take n (ue_addr s j)) = n) as [Ba La].
  { rewrite ue_addr_eq by done. destruct split_base as (_ & Lu & _ & Bu & _).
    rewrite (assoc_L (++)), take_app_length' by (rewrite length_app, length_to_be, Lu; lia).
    rewrite length_app, length_to_be, Lu. split; [|lia]. apply Forall_app; split; [done|apply to_be_bytes]. }
  pose proof (ue_addr_num j Hj) as Ej. unfold num in Ej.
  unfold excluded. rewrite En. destruct base_eq as (Eb & Lb & Bb). rewrite Eb, (cf_gw _ _ _ _ Hs).
  assert (bytes (take n (broadcast s)) /\ length (take n (broadcast s)) = n) as [Bc Lc].
  { unfold broadcast. split; [|rewrite length_take; destruct Hn as [->| ->]; reflexivity].
    apply Forall_take. cbn. repeat (constructor; [apply u8_inw|]). constructor. }
  pose proof (cf_bytes _ _ _ _ Hs) as Bd. pose proof (cf_length _ _ _ _ Hs) as Ld.
  assert (bytes (take n addr) /\ length (take n addr) = n) as [Bt Lt].
  { split; [by apply Forall_take|]. rewrite length_take. lia. }
  unfold reserved, reserved_dec. rewrite !bool_decide_or, orb_assoc. f_equal; [f_equal|]; apply bool_decide_ext.
  - rewrite (I _ _ Ba Bb) by congruence. by rewrite Ej, base_num.
  - rewrite (I _ _ Ba Bc) by congruence. pose proof broadcast_num as E. unfold num in E. by rewrite Ej, E.
  - rewrite (I _ _ Ba Bt) by congruence. by rewrite Ej.
Qed.

(** *** The loop *)

Definition usable (j : Z) : Prop := ~ reserved (network n b addr + j).

(** What is left from [j] on. *)
Definition left (j : Z) : list Z := filter usable (seqZ j (range - j)).
Definition passed (j : Z) : list Z := filter (fun i => ~ usable i) (seqZ j (range - j)).

Lemma seqZ_step j : j < range -> seqZ j (range - j) = j :: seqZ (j + 1) (range - (j + 1)).
Proof. intros Hj. rewrite seqZ_cons by lia. do 2 f_equal; lia. Qed.

Lemma fill_spec fuel j index :
  0 <= j <= range -> 0 <= index <= MAX_POOL_OF_UE ->
  (Z.to_nat (MAX_POOL_OF_UE - index) + length (passed j) <= fuel)%nat ->
  fill fuel s range j index = Some (map (ue_addr s) (take (Z.to_nat (MAX_POOL_OF_UE - index)) (left j))).
Proof.
  revert j index. induction fuel as [|fuel IH]; intros j index Hj Hi Hf.
  - assert (index = MAX_POOL_OF_UE) as -> by lia. cbn [fill]. rewrite Z.sub_diag. by rewrite decide_False by lia.
  - cbn [fill]. assert (u32 j = j) as ->.
    { apply u32_id. unfold inw, range in *. lia. }
    case_decide as Hd; cycle 1.
    { destruct (decide (j < range)) as [H|H].
      - replace index with MAX_POOL_OF_UE by lia. by rewrite Z.sub_diag.
      - replace j with range by lia. unfold left. rewrite Z.sub_diag. change (seqZ range 0) with (@nil Z).
        by rewrite filter_nil, take_nil. }
    destruct Hd as [Hd Hm]. rewrite excluded_spec by lia. unfold left, passed in *. rewrite seqZ_step in Hf |- * by lia.
    destruct (decide (usable j)) as [U|U].
    + rewrite bool_decide_false by exact U. rewrite filter_cons_True by done.
      rewrite filter_cons_False in Hf by tauto. rewrite IH; [|lia|lia|unfold passed; lia]. cbn [mbind option_bind].
      replace (Z.to_nat (MAX_POOL_OF_UE - index)) with (S (Z.to_nat (MAX_POOL_OF_UE - (index + 1)))) by lia. done.
    + rewrite bool_decide_true by (apply dec_stable, U). rewrite filter_cons_False by done.
      rewrite filter_cons_True in Hf by done. cbn [length] in Hf. apply IH; [lia|lia|lia].
Qed.

Lemma passed_three : (length (passed 0) <= 3)%nat.
Proof.
  set (net := network n b addr).
  assert (passed 0 ⊆ [0; 2 ^ hosts n b - 1; num n addr - net]) as Hsub.
  { intros i. unfold passed. rewrite list_elem_of_filter. intros [Hi _]. unfold usable, reserved in Hi. fold net in Hi.
    assert (reserved (net + i)) as H by (apply dec_stable, Hi). unfold reserved in H. fold net in H.
    rewrite !elem_of_cons. lia. }
  apply NoDup_submseteq in Hsub; [|apply NoDup_filter, NoDup_seqZ]. apply submseteq_length in Hsub. exact Hsub.
Qed.

Lemma fill_all : fill fill_fuel s range 0 0 =
  Some (map (ue_addr s) (take (Z.to_nat MAX_POOL_OF_UE) (left 0))).
Proof.
  pose proof passed_three as P. destruct mask_count_eq as [_ Hr].
  rewrite <- (Z.sub_0_r MAX_POOL_OF_UE). apply fill_spec; [lia|by vm_compute|].
  unfold fill_fuel. rewrite Z.sub_0_r. apply Nat.add_le_mono_l. exact P.
Qed.

(** The fuel is a variable here, lest its value is computed. *)
Lemma generate_with fuel l : fill fuel s range 0 0 = Some l ->
  (count ← mask_count s; l ← fill fuel s count 0 0; Some (set_ips s l (resize (pool s) (length l)))) =
    Some (set_ips s l (resize (pool s) (length l))).
Proof. intros H. destruct mask_count_eq as [-> _]. cbn [mbind option_bind]. by rewrite H. Qed.

Lemma generate_spec l : l = map (ue_addr s) (take (Z.to_nat MAX_POOL_OF_UE) (left 0)) ->
  generate s = Some (set_ips s l (resize (pool s) (length l))).
Proof. intros ->. exact (generate_with fill_fuel _ fill_all). Qed.

End subnet.

Lemma resize_init m k : (k <= m)%nat -> resize (pool_init (seq 0 m)) k = pool_init (seq 0 k).
Proof.
  intros Hk. unfold resize, pool_init. cbn [head tail free nodes]. rewrite length_seq.
  assert (take k (seq 0 m) = seq 0 k) as E by (by rewrite take_seq, Nat.min_l by lia).
  by rewrite <- fmap_take, E.
Qed.

Section list.
Context (n b : nat) (addr : list Z) (s : pgw_subnet_t) (Hs : configured n b addr s).

(** The numbers that may be given to UEs, in order. *)
Definition free_numbers : list Z :=
  let net := network n b addr in
  filter (fun a => a ∉ [net; net + 2 ^ hosts n b - 1; num n addr]) (seqZ net (range n b)).

Lemma filter_map {A B} (f : A -> B) (P : B -> Prop) (Q : A -> Prop) `{forall x, Decision (P x), forall x, Decision (Q x)} l :
  (forall x, P (f x) <-> Q x) -> filter P (map f l) = map f (filter Q l).
Proof.
  intros HPQ. induction l as [|x l IH]; [done|]. cbn [map]. rewrite !filter_cons, IH.
  destruct (decide (P (f x))) as [p|p], (decide (Q x)) as [q|q]; [done| | |done];
    exfalso; [by apply q, HPQ|by apply p, HPQ].
Qed.

Lemma free_left : free_numbers = map (Z.add (network n b addr)) (left n b addr 0).
Proof.
  unfold free_numbers, left. rewrite Z.sub_0_r. set (net := network n b addr).
  replace (seqZ net (range n b)) with (map (Z.add net) (seqZ 0 (range n b)))
    by (change (map (Z.add net)) with (fmap (M := list) (Z.add net)); rewrite fmap_add_seqZ; f_equal; lia).
  apply filter_map. intros j. unfold usable, reserved. fold net.
  rewrite !not_elem_of_cons. split; [tauto|]. intros H. split_and!; [tauto..|]. apply not_elem_of_nil.
Qed.

Lemma numbers_left k : map (num n) (map (ue_addr s) (take k (left n b addr 0))) = take k free_numbers.
Proof.
  rewrite free_left, firstn_map, map_map. apply map_ext_in. intros j Hj.
  apply list_elem_of_In, elem_of_take in Hj as (i & Hi & _). apply list_elem_of_lookup_2 in Hi.
  unfold left in Hi. apply list_elem_of_filter in Hi as [_ Hi]. apply elem_of_seqZ in Hi.
  apply (ue_addr_num n b addr s Hs). lia.
Qed.
End list.

(** With any size of the pool. *)
Lemma generated_pool n b addr s k l : configured n b addr s -> pool s = pool_init (seq 0 k) ->
  l = map (ue_addr s) (take k (left n b addr 0)) ->
  map (num n) l = take k (free_numbers n b addr) /\ NoDup l /\
  resize (pool s) (length l) = pool_init (seq 0 (length l)).
Proof.
  intros Hs Hp ->. pose proof (numbers_left n b addr s Hs k) as N. split_and!; [exact N| |].
  - apply (NoDup_fmap_1 (num n)). change (num n <$> ?l) with (map (num n) l). rewrite N.
    apply (sublist_NoDup _ (free_numbers n b addr)); [|apply sublist_take].
    unfold free_numbers. apply NoDup_filter, NoDup_seqZ.
  - rewrite Hp. apply resize_init. rewrite length_map, length_take. lia.
Qed.

(** C24: UE addresses.  For every address and prefix length of the configuration, of
    either family, [pgw_ue_pool_generate] ends without an error; the addresses it puts in
    the pool of the subnet are, as numbers and in order, those of the network from the
    first on without the network address, the broadcast address and the address of the TUN
    device, as many as the pool can hold, of the first 2^32 - 1; no two are equal, and the
    pool then hands them out from the first to the last. *)
Theorem ue_pool_addresses f n addr bits apn :
  (n = 4%nat /\ f = AF_INET) \/ (n = 16%nat /\ f = AF_INET6) ->
  bytes addr -> length addr = 16%nat -> 0 < bits <= 8 * Z.of_nat n ->
  exists s s', pgw_subnet_add [] f addr bits apn = Some [s] /\ pgw_ue_pool_generate [s] = (true, [s']) /\
    map (num n) (ips s') = take (Z.to_nat MAX_POOL_OF_UE) (free_numbers n (Z.to_nat bits) addr) /\
    NoDup (ips s') /\ pool s' = pool_init (seq 0 (length (ips s'))).
Proof.
  intros Hf Hb Hl Hbits. destruct (added_configured f n addr bits apn Hf Hb Hl Hbits) as (s & E & Hs & Hp).
  destruct (generated_pool n _ addr s _ _ Hs Hp eq_refl) as (N & D & R).
  pose proof (generate_spec n _ addr s Hs _ eq_refl) as G. rewrite R in G. revert G N D.
  generalize (map (ue_addr s) (take (Z.to_nat MAX_POOL_OF_UE) (left n (Z.to_nat bits) addr 0))). intros l G N D.
  exists s, (set_ips s l (pool_init (seq 0 (length l)))). split; [exact E|].
  split; [cbn [pgw_ue_pool_generate]; by rewrite G|]. by split_and!.
Qed.

Lemma ue_pool_addresses_witness :
  exists s s', pgw_subnet_add [] AF_INET ([45; 45; 0; 1] ++ replicate 12 0) 29 [] = Some [s] /\
    pgw_ue_pool_generate [s] = (true, [s']) /\
    map (num 4) (ips s') = seqZ (45 * 2 ^ 24 + 45 * 2 ^ 16 + 2) 5.
Proof.
  assert (bytes ([45; 45; 0; 1] ++ replicate 12 0)) as Hb by by_decide.
  destruct (ue_pool_addresses AF_INET 4 ([45; 45; 0; 1] ++ replicate 12 0) 29 [] ltac:(by left) Hb eq_refl ltac:(lia))
    as (s & s' & E & G & N & _).
  exists s, s'. split; [exact E|]. split; [exact G|]. rewrite N. vm_compute. reflexivity.
Defined.

End UePoolSpec.
