(* ===== verification/SpgwContext.v ===== *)
(** [spgw/spgw_context.c]: the UEs, sessions, bearers, tunnels and packet filters of the
    merged serving and PDN gateway. *)

From stdpp Require Import gmap.
From S2P Require Import Prelude Alloc Misc GtpTypes UePool.

Module SpgwContext.
Import UePool.

(** ** Contexts in pools *)

(** A pool and what its nodes hold; a node is given by its index.  What a node holds
    stays there when the node is released. *)
Record store (P X : Type) := mkStore { pool : P; content : gmap nat X }.
#[global] Arguments mkStore {P X}.
#[global] Arguments pool {P X}.
#[global] Arguments content {P X}.

Section store.
Context {P X : Type} {A : Allocator P nat} `{!Inhabited X}.

Definition node (s : store P X) (i : nat) : X := content s !!! i.
Definition put (s : store P X) (i : nat) (x : X) : store P X := mkStore (pool s) (<[i := x]> (content s)).
Definition in_use (s : store P X) (i : nat) : Prop := used (pool s) i.

(** [index_alloc], then the fields that the caller sets. *)
Definition new (s : store P X) (x : X) : option nat * store P X :=
  match alloc (pool s) with
  | (Some i, p) => (Some i, mkStore p (<[i := x]> (content s)))
  | (None, p) => (None, mkStore p (content s))
  end.
Definition free (s : store P X) (i : nat) : store P X := mkStore (release (pool s) i) (content s).
End store.

(** ** The contexts *)

(** [pgw_ue_ip_t *]: a node of the pool of a subnet, or the one of a static address. *)
Inductive ip := Dynamic (x : nat * nat) | Static (i : nat).

(** [sgw_ue_t]; the TEID is the index. *)
Record sgw_ue_t := mkUe { ue_imsi : list Z; ue_mme_s11_teid : Z; ue_state : Z; sess_list : list nat }.

Record qos_t := mkQosArp {
  qci : Z; arp_priority_level : Z; arp_capability : Z; arp_vulnerability : Z;
  mbr_downlink : Z; mbr_uplink : Z; gbr_downlink : Z; gbr_uplink : Z }.

(** [spgw_sess_t]; [gnode] is a null pointer or a node of [gtp_node.c]. *)
Record spgw_sess_t := mkSess {
  sgw_s5c_teid : Z; pgw_s5c_teid : Z; s_imsi : list Z; s_apn : list Z; pdn_type : Z;
  ipv4 : option ip; ipv6 : option ip; paa : list Z; paa_len : Z; s_qos : qos_t;
  hash_key : list Z; bearer_list : list nat; s_gnode : option nat; s_ue : nat }.

(** [spgw_bearer_t]. *)
Record spgw_bearer_t := mkBearer {
  ebi : Z; pgw_s5u_teid : Z; name : option (list Z); b_qos : qos_t; pf_identifier : Z;
  tunnel_list : list nat; pf_list : list nat; b_sess : nat }.

(** [sgw_tunnel_t]; [local_teid] is the index. *)
Record sgw_tunnel_t := mkTunnel { interface_type : Z; remote_teid : Z; t_bearer : nat }.

(** [pgw_pf_t]. *)
Record pgw_pf_t := mkPfNode { filter : GtpTypes.packet_filter; pf_bearer : nat }.

Definition zero_qos : qos_t := mkQosArp 0 0 0 0 0 0 0 0.
#[export] Instance ue_inhabited : Inhabited sgw_ue_t := populate (mkUe [] 0 0 []).
#[export] Instance sess_inhabited : Inhabited spgw_sess_t :=
  populate (mkSess 0 0 [] [] 0 None None [] 0 zero_qos [] [] None 0).
#[export] Instance bearer_inhabited : Inhabited spgw_bearer_t := populate (mkBearer 0 0 None zero_qos 0 [] [] 0).
#[export] Instance tunnel_inhabited : Inhabited sgw_tunnel_t := populate (mkTunnel 0 0 0).
#[export] Instance pf_inhabited : Inhabited pgw_pf_t :=
  populate (mkPfNode (GtpTypes.mkPf 0 0 (GtpTypes.mkRule 0 false false false false [] [] [] [] 0 0 0 0)) 0).

Definition MAX_IMSI_LEN : nat := 8.
Definition MAX_APN_LEN : nat := 100.
Definition GTP_PDN_TYPE_IPV4 : Z := 1.
Definition GTP_PDN_TYPE_IPV6 : Z := 2.
Definition GTP_PDN_TYPE_IPV4V6 : Z := 3.
Definition GTP_F_TEID_S1_U_SGW_GTP_U : Z := 1.
Definition GTP_F_TEID_S5_S8_SGW_GTP_U : Z := 4.
Definition SGW_S5C_INDEX_TO_TEID (i : nat) : Z := Z.of_nat i .| 0x80000000.
Definition SGW_S5C_TEID_TO_INDEX (teid : Z) : nat := Z.to_nat (Z.land teid 0x7fffffff).

(** [list_remove]: a node that is not in the list is left alone. *)
Definition list_remove (l : list nat) (x : nat) : list nat := base.filter (fun y => y <> x) l.

Section context.
Context {P : Type} {A : Allocator P nat}.

(** [self].  [sess_hash] and [imsi_ue_hash] as the maps which [HashSpec] shows [hash.c]
    to implement: the keys are fields of the contexts, which stay where they are. *)
Record ctx := mkCtx {
  ues : store P sgw_ue_t; sesss : store P spgw_sess_t; bearers : store P spgw_bearer_t;
  tunnels : store P sgw_tunnel_t; pfs : store P pgw_pf_t;
  subnets : list pgw_subnet_t; statics : list (list Z * list Z);
  sess_hash : gmap (list Z) nat; imsi_ue_hash : gmap (list Z) nat }.

Definition set_ues (c : ctx) x := mkCtx x (sesss c) (bearers c) (tunnels c) (pfs c) (subnets c) (statics c) (sess_hash c) (imsi_ue_hash c).
Definition set_sesss (c : ctx) x := mkCtx (ues c) x (bearers c) (tunnels c) (pfs c) (subnets c) (statics c) (sess_hash c) (imsi_ue_hash c).
Definition set_bearers (c : ctx) x := mkCtx (ues c) (sesss c) x (tunnels c) (pfs c) (subnets c) (statics c) (sess_hash c) (imsi_ue_hash c).
Definition set_tunnels (c : ctx) x := mkCtx (ues c) (sesss c) (bearers c) x (pfs c) (subnets c) (statics c) (sess_hash c) (imsi_ue_hash c).
Definition set_pfs (c : ctx) x := mkCtx (ues c) (sesss c) (bearers c) (tunnels c) x (subnets c) (statics c) (sess_hash c) (imsi_ue_hash c).
Definition set_subnets (c : ctx) x := mkCtx (ues c) (sesss c) (bearers c) (tunnels c) (pfs c) x (statics c) (sess_hash c) (imsi_ue_hash c).
Definition set_sess_hash (c : ctx) x := mkCtx (ues c) (sesss c) (bearers c) (tunnels c) (pfs c) (subnets c) (statics c) x (imsi_ue_hash c).
Definition set_imsi_hash (c : ctx) x := mkCtx (ues c) (sesss c) (bearers c) (tunnels c) (pfs c) (subnets c) (statics c) (sess_hash c) x.

Definition ue (c : ctx) (i : nat) : sgw_ue_t := node (ues c) i.
Definition sess (c : ctx) (i : nat) : spgw_sess_t := node (sesss c) i.
Definition bearer (c : ctx) (i : nat) : spgw_bearer_t := node (bearers c) i.
Definition tunnel (c : ctx) (i : nat) : sgw_tunnel_t := node (tunnels c) i.
Definition pf (c : ctx) (i : nat) : pgw_pf_t := node (pfs c) i.

(** The fields that are changed. *)
Definition set_sess_list (u : sgw_ue_t) (l : list nat) : sgw_ue_t := mkUe (ue_imsi u) (ue_mme_s11_teid u) (ue_state u) l.
Definition set_bearer_list (s : spgw_sess_t) (l : list nat) : spgw_sess_t :=
  mkSess (sgw_s5c_teid s) (pgw_s5c_teid s) (s_imsi s) (s_apn s) (pdn_type s) (ipv4 s) (ipv6 s) (paa s) (paa_len s)
    (s_qos s) (hash_key s) l (s_gnode s) (s_ue s).
Definition set_address (s : spgw_sess_t) (t : Z) (v4 v6 : option ip) (a : list Z) (n : Z) : spgw_sess_t :=
  mkSess (sgw_s5c_teid s) (pgw_s5c_teid s) (s_imsi s) (s_apn s) t v4 v6 a n (s_qos s) (hash_key s) (bearer_list s) (s_gnode s) (s_ue s).
Definition set_hash_key (s : spgw_sess_t) (k : list Z) : spgw_sess_t :=
  mkSess (sgw_s5c_teid s) (pgw_s5c_teid s) (s_imsi s) (s_apn s) (pdn_type s) (ipv4 s) (ipv6 s) (paa s) (paa_len s)
    (s_qos s) k (bearer_list s) (s_gnode s) (s_ue s).
Definition set_s_qos (s : spgw_sess_t) (q : qos_t) : spgw_sess_t :=
  mkSess (sgw_s5c_teid s) (pgw_s5c_teid s) (s_imsi s) (s_apn s) (pdn_type s) (ipv4 s) (ipv6 s) (paa s) (paa_len s)
    q (hash_key s) (bearer_list s) (s_gnode s) (s_ue s).
Definition set_ebi (b : spgw_bearer_t) (e : Z) : spgw_bearer_t :=
  mkBearer e (pgw_s5u_teid b) (name b) (b_qos b) (pf_identifier b) (tunnel_list b) (pf_list b) (b_sess b).
Definition set_tunnel_list (b : spgw_bearer_t) (l : list nat) : spgw_bearer_t :=
  mkBearer (ebi b) (pgw_s5u_teid b) (name b) (b_qos b) (pf_identifier b) l (pf_list b) (b_sess b).
Definition set_pf_list (b : spgw_bearer_t) (i : Z) (l : list nat) : spgw_bearer_t :=
  mkBearer (ebi b) (pgw_s5u_teid b) (name b) (b_qos b) i (tunnel_list b) l (b_sess b).
Definition set_rule (b : spgw_bearer_t) (n : option (list Z)) (q : qos_t) : spgw_bearer_t :=
  mkBearer (ebi b) (pgw_s5u_teid b) n q (pf_identifier b) (tunnel_list b) (pf_list b) (b_sess b).

Definition put_ue c i x := set_ues c (put (ues c) i x).
Definition put_sess c i x := set_sesss c (put (sesss c) i x).
Definition put_bearer c i x := set_bearers c (put (bearers c) i x).

(** ** UEs *)

(** No result: the IMSI is longer than the array. *)
Definition sgw_ue_add (c : ctx) (imsi : list Z) : option (option nat * ctx) :=
  if decide (imsi = []) then Some (None, c)
  else
    match new (ues c) (mkUe imsi 0 0 []) with
    | (None, s) => Some (None, set_ues c s)
    | (Some i, s) =>
        if decide (length imsi <= MAX_IMSI_LEN)%nat then
          Some (Some i, set_imsi_hash (set_ues c s) (<[imsi := i]> (imsi_ue_hash c)))
        else None
    end.

Definition sgw_ue_find_by_imsi (c : ctx) (imsi : list Z) : option nat :=
  if decide (imsi = []) then None else imsi_ue_hash c !! imsi.

(** [imsi]: the element of the message, when it is present. *)
Definition spgw_ue_add_by_message (c : ctx) (imsi : option (list Z)) : option (option nat * ctx) :=
  match imsi with
  | None => Some (None, c)
  | Some imsi =>
      match sgw_ue_find_by_imsi c imsi with
      | Some u => Some (Some u, c)
      | None => sgw_ue_add c imsi
      end
  end.

(** ** Tunnels *)

Definition sgw_tunnel_add (c : ctx) (b : nat) (t : Z) : option nat * ctx :=
  match new (tunnels c) (mkTunnel t 0 b) with
  | (None, s) => (None, set_tunnels c s)
  | (Some i, s) =>
      (Some i, put_bearer (set_tunnels c s) b (set_tunnel_list (bearer c b) (tunnel_list (bearer c b) ++ [i])))
  end.

Definition sgw_tunnel_remove (c : ctx) (t : nat) : ctx :=
  let b := t_bearer (tunnel c t) in
  let c := put_bearer c b (set_tunnel_list (bearer c b) (list_remove (tunnel_list (bearer c b)) t)) in
  set_tunnels c (free (tunnels c) t).

(** The loops save the next node before they remove one. *)
Definition sgw_tunnel_remove_all (c : ctx) (b : nat) : ctx :=
  foldl sgw_tunnel_remove c (tunnel_list (bearer c b)).

Definition sgw_tunnel_find_by_interface_type (c : ctx) (b : nat) (t : Z) : option nat :=
  snd <$> list_find (fun i => interface_type (tunnel c i) = t) (tunnel_list (bearer c b)).
Definition sgw_s1u_tunnel_in_bearer (c : ctx) (b : nat) := sgw_tunnel_find_by_interface_type c b GTP_F_TEID_S1_U_SGW_GTP_U.
Definition sgw_s5u_tunnel_in_bearer (c : ctx) (b : nat) := sgw_tunnel_find_by_interface_type c b GTP_F_TEID_S5_S8_SGW_GTP_U.

(** ** Packet filters *)

Definition NEXT_ID (i lo hi : Z) : Z := if decide (i = hi) then lo else i + 1.

(** The rule and the direction, which the caller stores, are given here; [precedence] is
    not used. *)
Definition pgw_pf_add (c : ctx) (b : nat) (direction : Z) (rule : GtpTypes.pgw_rule_t) : option nat * ctx :=
  let i := NEXT_ID (pf_identifier (bearer c b)) 1 15 in
  match new (pfs c) (mkPfNode (GtpTypes.mkPf direction i rule) b) with
  | (None, s) => (None, set_pfs c s)
  | (Some x, s) => (Some x, put_bearer (set_pfs c s) b (set_pf_list (bearer c b) i (pf_list (bearer c b) ++ [x])))
  end.

Definition pgw_pf_remove (c : ctx) (x : nat) : ctx :=
  let b := pf_bearer (pf c x) in
  let c := put_bearer c b (set_pf_list (bearer c b) (pf_identifier (bearer c b)) (list_remove (pf_list (bearer c b)) x)) in
  set_pfs c (free (pfs c) x).

Definition pgw_pf_remove_all (c : ctx) (b : nat) : ctx := foldl pgw_pf_remove c (pf_list (bearer c b)).

Definition pgw_pf_find_by_id (c : ctx) (b : nat) (id : Z) : option nat :=
  snd <$> list_find (fun x => GtpTypes.identifier (filter (pf c x)) = id) (pf_list (bearer c b)).

(** ** Bearers *)

Definition append_bearer (c : ctx) (s b : nat) : ctx :=
  put_sess c s (set_bearer_list (sess c s) (bearer_list (sess c s) ++ [b])).

(** A bearer without an index is not taken back when a tunnel is missing. *)
Definition add_tunnels (c : ctx) (s b : nat) : option nat * ctx :=
  match sgw_tunnel_add c b GTP_F_TEID_S1_U_SGW_GTP_U with
  | (None, c) => (None, c)
  | (Some _, c) =>
      match sgw_tunnel_add c b GTP_F_TEID_S5_S8_SGW_GTP_U with
      | (None, c) => (None, c)
      | (Some _, c) => (Some b, append_bearer c s b)
      end
  end.

(** The TEID is the index, which [set_s5u_teid] stores. *)
Definition fresh_bearer (s : nat) : spgw_bearer_t := mkBearer 0 0 None zero_qos 0 [] [] s.
Definition set_s5u_teid (c : ctx) (b : nat) : ctx :=
  put_bearer c b (mkBearer 0 (Z.of_nat b) None zero_qos 0 [] [] (b_sess (bearer c b))).

Definition spgw_bearer_add (c : ctx) (s : nat) : option nat * ctx :=
  match new (bearers c) (fresh_bearer s) with
  | (None, x) => (None, set_bearers c x)
  | (Some b, x) => add_tunnels (set_s5u_teid (set_bearers c x) b) s b
  end.

Definition sgw_bearer_add (c : ctx) (s : nat) : option nat * ctx :=
  match new (bearers c) (fresh_bearer s) with
  | (None, x) => (None, set_bearers c x)
  | (Some b, x) => add_tunnels (set_bearers c x) s b
  end.

Definition pgw_bearer_add (c : ctx) (s : nat) : option nat * ctx :=
  match new (bearers c) (fresh_bearer s) with
  | (None, x) => (None, set_bearers c x)
  | (Some b, x) => (Some b, append_bearer (set_s5u_teid (set_bearers c x) b) s b)
  end.

Definition unlink_bearer (c : ctx) (b : nat) : ctx :=
  let s := b_sess (bearer c b) in
  put_sess c s (set_bearer_list (sess c s) (list_remove (bearer_list (sess c s)) b)).

(** The name of the rule is freed here, and not by [sgw_bearer_remove]; that function
    also frees the packets that are buffered, which are left out. *)
Definition pgw_bearer_remove (c : ctx) (b : nat) : ctx :=
  let c := pgw_pf_remove_all (unlink_bearer c b) b in
  set_bearers c (free (bearers c) b).
Definition sgw_bearer_remove (c : ctx) (b : nat) : ctx :=
  let c := sgw_tunnel_remove_all (unlink_bearer c b) b in
  set_bearers c (free (bearers c) b).

Definition pgw_bearer_remove_all (c : ctx) (s : nat) : ctx := foldl pgw_bearer_remove c (bearer_list (sess c s)).
Definition sgw_bearer_remove_all (c : ctx) (s : nat) : ctx := foldl sgw_bearer_remove c (bearer_list (sess c s)).

Definition pgw_bearer_find_by_ebi (c : ctx) (s : nat) (e : Z) : option nat :=
  snd <$> list_find (fun b => ebi (bearer c b) = e) (bearer_list (sess c s)).
Definition pgw_bearer_find_by_name (c : ctx) (s : nat) (n : list Z) : option nat :=
  snd <$> list_find (fun b => name (bearer c b) = Some n) (bearer_list (sess c s)).

Definition same_arp (q : qos_t) (qci' level capability vulnerability : Z) : Prop :=
  qci q = qci' /\ arp_priority_level q = level /\ arp_capability q = capability /\ arp_vulnerability q = vulnerability.
#[global] Instance same_arp_dec q a b c d : Decision (same_arp q a b c d).
Proof. unfold same_arp. apply _. Defined.

Definition pgw_default_bearer_in_sess (c : ctx) (s : nat) : option nat := head (bearer_list (sess c s)).
Definition pgw_bearer_find_by_qci_arp (c : ctx) (s : nat) (qci level capability vulnerability : Z) : option nat :=
  match bearer_list (sess c s) with
  | [] => None
  | d :: l =>
      if decide (same_arp (s_qos (sess c s)) qci level capability vulnerability) then Some d
      else snd <$> list_find (fun b => same_arp (b_qos (bearer c b)) qci level capability vulnerability) l
  end.

Definition sgw_bearer_find_by_ue_ebi (c : ctx) (u : nat) (e : Z) : option nat :=
  head (omap (fun s => pgw_bearer_find_by_ebi c s e) (sess_list (ue c u))).
Definition sgw_sess_find_by_ebi (c : ctx) (u : nat) (e : Z) : option nat :=
  b ← sgw_bearer_find_by_ue_ebi c u e; Some (b_sess (bearer c b)).
Definition sgw_sess_find_by_apn (c : ctx) (u : nat) (apn : list Z) : option nat :=
  snd <$> list_find (fun s => s_apn (sess c s) = apn) (sess_list (ue c u)).

(** ** Sessions *)

Definition sess_hash_keygen (imsi apn : list Z) : list Z := imsi ++ take MAX_APN_LEN apn.

(** The first [length imsi] octets are compared. *)
Definition get_static_ip_by_imsi (c : ctx) (imsi : list Z) : option nat :=
  fst <$> list_find (fun x => take (length imsi) x.1 = imsi) (statics c).

Definition ip_octets (c : ctx) (x : ip) : list Z :=
  match x with
  | Dynamic x => ip_addr (subnets c) x
  | Static i => default [] (snd <$> statics c !! i) ++ replicate 12 0
  end.

Definition ue_ip_alloc (c : ctx) (f : Z) (apn : list Z) : option ip * ctx :=
  let '(x, l) := pgw_ue_ip_alloc (subnets c) f apn in (Dynamic <$> x, set_subnets c l).
Definition ue_ip_free (c : ctx) (x : option ip) : ctx :=
  match x with
  | Some (Dynamic x) => set_subnets c (pgw_ue_ip_free (subnets c) x)
  | _ => c
  end.

Definition pgw_sess_remove (c : ctx) (s : nat) : ctx :=
  let c := set_sess_hash c (delete (hash_key (sess c s)) (sess_hash c)) in
  let c := ue_ip_free (ue_ip_free c (ipv4 (sess c s))) (ipv6 (sess c s)) in
  let c := pgw_bearer_remove_all c s in
  set_sesss c (free (sesss c) s).

Definition unlink_sess (c : ctx) (s : nat) : ctx :=
  let u := s_ue (sess c s) in
  put_ue c u (set_sess_list (ue c u) (list_remove (sess_list (ue c u)) s)).

Definition sgw_sess_remove (c : ctx) (s : nat) : ctx :=
  let c := sgw_bearer_remove_all (unlink_sess c s) s in
  set_sesss c (free (sesss c) s).

Definition spgw_sess_remove (c : ctx) (s : nat) : ctx :=
  let c := set_sess_hash c (delete (hash_key (sess c s)) (sess_hash c)) in
  let c := ue_ip_free (ue_ip_free c (ipv4 (sess c s))) (ipv6 (sess c s)) in
  let c := sgw_bearer_remove_all (unlink_sess c s) s in
  let c := pgw_bearer_remove_all c s in
  set_sesss c (free (sesss c) s).

(** The address of a session: [false] when there is none to give.  The branch on
    [GTP_PDN_TYPE_IPV4V6] that follows in the code is never reached. *)
Definition assign_address (c : ctx) (s : nat) (t : Z) (apn : list Z) : bool * ctx :=
  if decide (t = GTP_PDN_TYPE_IPV4 \/ t = GTP_PDN_TYPE_IPV4V6) then
    let '(x, c) := match get_static_ip_by_imsi c (s_imsi (sess c s)) with
                   | Some i => (Some (Static i), c)
                   | None => ue_ip_alloc c AF_INET apn
                   end in
    let t := GTP_PDN_TYPE_IPV4 in
    match x with
    | Some x => (true, put_sess c s (set_address (sess c s) t (Some x) None (take 4 (ip_octets c x)) 0))
    | None => (false, put_sess c s (set_address (sess c s) t None None [] 0))
    end
  else if decide (t = GTP_PDN_TYPE_IPV6) then
    let '(x, c) := ue_ip_alloc c AF_INET6 apn in
    match x with
    | Some x =>
        let n := match x with Dynamic (k, _) => default 0 (prefixlen <$> subnets c !! k) | Static _ => 0 end in
        (true, put_sess c s (set_address (sess c s) t None (Some x) (ip_octets c x) n))
    | None => (false, put_sess c s (set_address (sess c s) t None None [] 0))
    end
  else (true, put_sess c s (set_address (sess c s) t None None [] 0)).

Definition fresh_sess (c : ctx) (u : nat) (apn : list Z) : spgw_sess_t :=
  mkSess 0 0 (ue_imsi (ue c u)) (take MAX_APN_LEN apn) 0 None None [] 0 zero_qos [] [] None u.
Definition set_s5c_teids (c : ctx) (s : nat) : ctx :=
  let x := sess c s in
  put_sess c s (mkSess (SGW_S5C_INDEX_TO_TEID s) (Z.of_nat s) (s_imsi x) (s_apn x) (pdn_type x) (ipv4 x) (ipv6 x)
                  (paa x) (paa_len x) (s_qos x) (hash_key x) (bearer_list x) (s_gnode x) (s_ue x)).

Definition spgw_sess_add (c : ctx) (u : nat) (apn : list Z) (t e : Z) : option nat * ctx :=
  if decide (e = 0) then (None, c)
  else
    match new (sesss c) (fresh_sess c u apn) with
    | (None, x) => (None, set_sesss c x)
    | (Some s, x) =>
        match spgw_bearer_add (set_s5c_teids (set_sesss c x) s) s with
        | (None, c) => (None, sgw_sess_remove c s)
        | (Some b, c) =>
            let c := put_bearer c b (set_ebi (bearer c b) e) in
            match assign_address c s t apn with
            | (false, c) => (None, pgw_sess_remove c s)
            | (true, c) =>
                let k := sess_hash_keygen (ue_imsi (ue c u)) apn in
                let c := put_sess c s (set_hash_key (sess c s) k) in
                let c := set_sess_hash c (<[k := s]> (sess_hash c)) in
                (Some s, put_ue c u (set_sess_list (ue c u) (sess_list (ue c u) ++ [s])))
            end
        end
    end.

Definition pgw_sess_find_by_imsi_apn (c : ctx) (imsi apn : list Z) : option nat :=
  sess_hash c !! sess_hash_keygen imsi apn.

(** [sgw_s11_handle_create_session_request] up to the answer: the session of the bearer
    that is asked for, which may have been created before. *)
Definition create_session (c : ctx) (u : nat) (apn : list Z) (t e : Z) : option nat * ctx :=
  match sgw_sess_find_by_ebi c u e with
  | Some s => (Some s, c)
  | None => spgw_sess_add c u apn t e
  end.

(** [pgw_s5c_handle_create_session_request]: the quality of service of the default bearer. *)
Definition set_default_qos (c : ctx) (s : nat) (qci level capability vulnerability : Z) : ctx :=
  let q := s_qos (sess c s) in
  put_sess c s (set_s_qos (sess c s)
    (mkQosArp qci level capability vulnerability (mbr_downlink q) (mbr_uplink q) (gbr_downlink q) (gbr_uplink q))).

End context.
#[global] Arguments ctx P : clear implicits.

End SpgwContext.
