(* ===== verification/SpgwInv.v ===== *)
(** The invariant of [SpgwContext]: the lists of the contexts and their back pointers
    agree, and what is in a list is in use. *)

From stdpp Require Import gmap.
From S2P Require Import Prelude Alloc Pool UePool SpgwContext.

Module SpgwInv.
Import Pool SpgwContext.

(** ** Stores *)

Section store.
Context {P X : Type} {A : Allocator P nat} `{!Inhabited X}.
Implicit Types s : store P X.

Definition ok s : Prop := alloc_ok (pool s).

Lemma node_put_eq s i x : node (put s i x) i = x.
Proof. unfold node, put. cbn. by rewrite lookup_total_insert_eq. Qed.
Lemma node_put_ne s i j x : i <> j -> node (put s i x) j = node s j.
Proof. intros. unfold node, put. cbn. by rewrite lookup_total_insert_ne. Qed.
Lemma node_put s i j x : node (put s i x) j = if decide (j = i) then x else node s j.
Proof. case_decide as E; [subst; apply node_put_eq|by apply node_put_ne]. Qed.

Lemma new_some s x i s' : ok s -> new s x = (Some i, s') ->
  ok s' /\ ~ in_use s i /\ (forall j, in_use s' j <-> j = i \/ in_use s j) /\
  forall j, node s' j = if decide (j = i) then x else node s j.
Proof.
  intros Hok. unfold new. destruct (alloc (pool s)) as [[k|] p] eqn:E; [|done]. intros [= <- <-].
  destruct (alloc_used _ _ _ Hok E) as (O & U & I). split_and!; [done..|].
  intros j. unfold node. cbn. case_decide as D; [subst; by rewrite lookup_total_insert_eq|by rewrite lookup_total_insert_ne].
Qed.

Lemma new_none s x s' : ok s -> new s x = (None, s') -> s' = s.
Proof.
  intros Hok. unfold new. destruct (alloc (pool s)) as [[k|] p] eqn:E; [done|]. intros [= <-].
  destruct (alloc_fails _ _ Hok E) as [-> _]. by destruct s.
Qed.

Lemma free_ok s i : ok s -> in_use s i ->
  ok (free s i) /\ forall j, in_use (free s i) j <-> j <> i /\ in_use s j.
Proof. intros Hok Hi. exact (release_unused _ _ Hok Hi). Qed.

Lemma node_free s i j : node (free s i) j = node s j.
Proof. done. Qed.
End store.

(** ** Owners and lists *)

(** The children of a parent in use are in use and point back to it. *)
Section linked.
Context {P X Y : Type} {A : Allocator P nat} `{!Inhabited X} `{!Inhabited Y}.
Context (kids : X -> list nat) (owner : Y -> nat).

Definition linked (xs : store P X) (ys : store P Y) : Prop :=
  forall i, in_use xs i -> NoDup (kids (node xs i)) /\
    forall j, j ∈ kids (node xs i) -> in_use ys j /\ owner (node ys j) = i.

Implicit Types (xs : store P X) (ys : store P Y).

Lemma linked_new_parent xs ys x i xs' :
  ok xs -> linked xs ys -> new xs x = (Some i, xs') -> kids x = [] -> linked xs' ys.
Proof.
  intros Ho L N E. destruct (new_some _ _ _ _ Ho N) as (_ & _ & U & C). intros j Hj. rewrite C. case_decide as D.
  - rewrite E. split; [constructor|]. by intros k ?%elem_of_nil.
  - apply L. apply U in Hj as [?|?]; done.
Qed.

Lemma linked_free_parent xs ys i : ok xs -> in_use xs i -> linked xs ys -> linked (free xs i) ys.
Proof. intros Ho Hi L j Hj. apply (free_ok _ _ Ho Hi) in Hj as [_ Hj]. exact (L j Hj). Qed.

Lemma linked_put_parent xs ys i x : linked xs ys -> (in_use xs i -> kids x = kids (node xs i)) -> linked (put xs i x) ys.
Proof.
  intros L E j Hj. rewrite node_put. case_decide as D; [subst j; rewrite E by exact Hj|]; by apply L.
Qed.

Lemma linked_put_child xs ys j y : linked xs ys -> owner y = owner (node ys j) -> linked xs (put ys j y).
Proof.
  intros L E i Hi. destruct (L i Hi) as [N C]. split; [done|]. intros k Hk. destruct (C k Hk) as [U O].
  split; [exact U|]. rewrite node_put. case_decide; congruence.
Qed.

Lemma linked_new_child xs ys y j ys' : ok ys -> linked xs ys -> new ys y = (Some j, ys') -> linked xs ys'.
Proof.
  intros Ho L N i Hi. destruct (new_some _ _ _ _ Ho N) as (_ & F & U & C). destruct (L i Hi) as [D K]. split; [done|].
  intros k Hk. destruct (K k Hk) as [Uk Ok]. split; [apply U; by right|]. rewrite C, decide_False; [done|]. by intros ->.
Qed.

(** A child is put at the end of the list of its owner. *)
Lemma linked_link xs ys i j x :
  linked xs ys -> in_use xs i -> in_use ys j -> owner (node ys j) = i -> j ∉ kids (node xs i) ->
  kids x = kids (node xs i) ++ [j] -> linked (put xs i x) ys.
Proof.
  intros L Hi Hj Ho Hn E k Hk. rewrite node_put. case_decide as D; [subst k|by apply L].
  rewrite E. destruct (L i Hi) as [N C]. split.
  - apply NoDup_app. split_and!; [done| |apply NoDup_singleton]. intros z Hz ->%list_elem_of_singleton. done.
  - intros z [Hz| ->%list_elem_of_singleton]%elem_of_app; [by apply C|done].
Qed.

Lemma elem_of_remove l x y : y ∈ list_remove l x <-> y <> x /\ y ∈ l.
Proof. unfold list_remove. by rewrite list_elem_of_filter. Qed.

Lemma linked_unlink xs ys i j x :
  linked xs ys -> kids x = list_remove (kids (node xs i)) j -> linked (put xs i x) ys.
Proof.
  intros L E k Hk. rewrite node_put. case_decide as D; [subst k|by apply L]. rewrite E. destruct (L i Hk) as [N C].
  split; [by apply NoDup_filter|]. intros z Hz. apply elem_of_remove in Hz as [_ Hz]. by apply C.
Qed.

(** A child that is in no list is released. *)
Lemma linked_free_child xs ys j :
  ok ys -> in_use ys j -> linked xs ys -> (in_use xs (owner (node ys j)) -> j ∉ kids (node xs (owner (node ys j)))) ->
  linked xs (free ys j).
Proof.
  intros Ho Hj L Hn i Hi. destruct (L i Hi) as [N C]. split; [done|]. intros k Hk. destruct (C k Hk) as [U O].
  split; [|exact O]. apply (free_ok _ _ Ho Hj). split; [|done]. intros ->. rewrite O in Hn. by apply Hn.
Qed.
End linked.

(** ** Addresses *)

(** An address is taken when its node is not free in the pool of its subnet. *)
Definition taken (l : list UePool.pgw_subnet_t) (x : nat * nat) : Prop :=
  exists sn, l !! fst x = Some sn /\ used (UePool.pool sn) (snd x).
#[export] Instance taken_dec l x : Decision (taken l x).
Proof.
  unfold taken. destruct (l !! fst x) as [sn|]; [|right; by intros (? & ? & _)].
  destruct (decide (used (UePool.pool sn) (snd x))) as [H|H]; [left; by exists sn|right; by intros (? & [= <-] & ?)].
Defined.
Definition subnet_ok (sn : UePool.pgw_subnet_t) : Prop :=
  NoDup (UePool.ips sn) /\ Pool.nodes (UePool.pool sn) = seq 0 (length (UePool.ips sn)) /\
  ((UePool.ips sn = [] /\ Pool.avail (UePool.pool sn) = 0%nat) \/ alloc_ok (UePool.pool sn)).

(** As [pgw_ue_pool_generate] leaves it. *)
Lemma subnet_ok_init sn : NoDup (UePool.ips sn) -> UePool.pool sn = pool_init (seq 0 (length (UePool.ips sn))) ->
  subnet_ok sn.
Proof.
  intros N E. unfold subnet_ok. rewrite E. split_and!; [done..|].
  destruct (UePool.ips sn) as [|x l]; [by left|right]. apply pool_ok_init; [cbn; lia|apply NoDup_seq].
Qed.

Lemma first_spec p l k : UePool.first p l = Some k -> exists sn, l !! k = Some sn /\ p sn = true.
Proof.
  revert k. induction l as [|sn l IH]; intros k; [done|]. cbn. destruct (p sn) eqn:E; [intros [= <-]; by exists sn|].
  destruct (UePool.first p l) as [k'|]; [|done]. intros [= <-]. exact (IH k' eq_refl).
Qed.

(** The subnet that is found has the family and an address left. *)
Lemma find_subnet_spec l f a k : UePool.find_subnet l f a = Some k ->
  exists sn, l !! k = Some sn /\ (0 < Pool.avail (UePool.pool sn))%nat /\ UePool.family (UePool.gw sn) = f.
Proof.
  unfold UePool.find_subnet. case_decide; [|done].
  destruct (UePool.first (UePool.serves f a) l) as [k'|] eqn:E.
  - intros [= <-]. apply first_spec in E as (sn & Hk & Hp). exists sn. unfold UePool.serves in Hp.
    rewrite !andb_true_iff, !bool_decide_eq_true in Hp. tauto.
  - intros E'. apply first_spec in E' as (sn & Hk & Hp). exists sn. unfold UePool.serves_all in Hp.
    rewrite !andb_true_iff, !bool_decide_eq_true in Hp. tauto.
Qed.

Lemma taken_insert l k sn p y : l !! k = Some sn ->
  taken (<[k := UePool.set_pool sn p]> l) y <-> if decide (fst y = k) then used p (snd y) else taken l y.
Proof.
  intros Hk. unfold taken. case_decide as D.
  - rewrite D, list_lookup_insert_eq by (by eapply lookup_lt_Some). split; [by intros (? & [= <-] & ?)|]. eauto.
  - by rewrite list_lookup_insert_ne by done.
Qed.

Lemma subnet_ok_avail l k sn : Forall subnet_ok l -> l !! k = Some sn -> (0 < Pool.avail (UePool.pool sn))%nat ->
  alloc_ok (UePool.pool sn).
Proof. rewrite Forall_lookup. intros H Hk Ha. destruct (H _ _ Hk) as (_ & _ & [[_ ?]|?]); [lia|done]. Qed.

Lemma subnet_ok_taken l k sn i : Forall subnet_ok l -> l !! k = Some sn -> used (UePool.pool sn) i ->
  alloc_ok (UePool.pool sn) /\ (i < length (UePool.ips sn))%nat.
Proof.
  rewrite Forall_lookup. intros H Hk [Hn _]. cbn in Hn. destruct (H _ _ Hk) as (_ & E & Ho).
  rewrite E in Hn. apply elem_of_seq in Hn as [_ Hn]. split; [|done]. destruct Ho as [[Hi _]|?]; [|done].
  rewrite Hi in Hn. cbn in Hn. lia.
Qed.

Lemma subnets_set_pool l k sn p : Forall subnet_ok l -> l !! k = Some sn -> alloc_ok p ->
  Pool.nodes p = Pool.nodes (UePool.pool sn) -> Forall subnet_ok (<[k := UePool.set_pool sn p]> l).
Proof.
  intros H Hk Hp E. apply Forall_insert; [done|]. rewrite Forall_lookup in H. destruct (H _ _ Hk) as (N & En & _).
  split_and!; [exact N|cbn; by rewrite E|by right].
Qed.

(** The octets of the addresses stay. *)
Lemma ip_addr_set_pool l k sn p y : l !! k = Some sn ->
  UePool.ip_addr (<[k := UePool.set_pool sn p]> l) y = UePool.ip_addr l y.
Proof.
  intros Hk. destruct y as [k' i]. unfold UePool.ip_addr. cbn. destruct (decide (k' = k)) as [->|D].
  - by rewrite list_lookup_insert_eq, Hk by (by eapply lookup_lt_Some).
  - by rewrite list_lookup_insert_ne.
Qed.

Lemma ip_alloc_some l f a x l' : Forall subnet_ok l -> UePool.pgw_ue_ip_alloc l f a = (Some x, l') ->
  Forall subnet_ok l' /\ ~ taken l x /\ (forall y, taken l' y <-> y = x \/ taken l y) /\
  (forall y, UePool.ip_addr l' y = UePool.ip_addr l y).
Proof.
  intros Hok. unfold UePool.pgw_ue_ip_alloc. destruct (UePool.find_subnet l f a) as [k|] eqn:E; [|done].
  destruct (find_subnet_spec _ _ _ _ E) as (sn & Hk & Ha & _). rewrite Hk.
  pose proof (subnet_ok_avail _ _ _ Hok Hk Ha) as Ho.
  destruct (Pool.pool_alloc_node (UePool.pool sn)) as [[i|] p] eqn:Ea; [|done]. intros [= <- <-].
  destruct (alloc_used (UePool.pool sn) i p Ho Ea) as (Ho' & Hu & Hi). split_and!.
  - apply subnets_set_pool; [done..|]. exact (alloc_nodes (UePool.pool sn) i p Ho Ea).
  - intros (sn' & Hk' & Hu'). cbn in Hk', Hu'. rewrite Hk in Hk'. by injection Hk' as <-.
  - intros [k' i']. rewrite taken_insert by done. cbn. case_decide as D.
    + subst k'. rewrite Hi. unfold taken. cbn. rewrite Hk. split.
      * intros [->|?]; [by left|right]. eauto.
      * intros [[= ->]|(? & [= <-] & ?)]; auto.
    + split; [by right|]. intros [[= -> _]|?]; done.
  - intros y. by apply ip_addr_set_pool.
Qed.

Lemma ip_alloc_none l f a l' : Forall subnet_ok l -> UePool.pgw_ue_ip_alloc l f a = (None, l') -> l' = l.
Proof.
  intros Hok. unfold UePool.pgw_ue_ip_alloc. destruct (UePool.find_subnet l f a) as [k|] eqn:E; [|by intros [= <-]].
  destruct (find_subnet_spec _ _ _ _ E) as (sn & Hk & Ha & _). rewrite Hk.
  pose proof (subnet_ok_avail _ _ _ Hok Hk Ha) as Ho.
  destruct (Pool.pool_alloc_node (UePool.pool sn)) as [[i|] p] eqn:Ea; [done|]. intros [= <-].
  destruct (alloc_fails _ _ Ho Ea) as [-> _]. apply list_insert_id. rewrite Hk. by destruct sn.
Qed.

Lemma alter_insert {B} (l : list B) k x (f : B -> B) : l !! k = Some x -> alter f k l = <[k := f x]> l.
Proof. revert k. induction l as [|y l IH]; intros [|k] E; try done; cbn in *; [by injection E as ->|]. f_equal. by apply IH. Qed.

Lemma ip_free_spec l x : Forall subnet_ok l -> taken l x ->
  Forall subnet_ok (UePool.pgw_ue_ip_free l x) /\
  (forall y, taken (UePool.pgw_ue_ip_free l x) y <-> y <> x /\ taken l y) /\
  (forall y, UePool.ip_addr (UePool.pgw_ue_ip_free l x) y = UePool.ip_addr l y).
Proof.
  intros Hok (sn & Hk & Hu). destruct x as [k i]. cbn [fst snd] in Hk, Hu. unfold UePool.pgw_ue_ip_free. cbn [fst snd].
  destruct (subnet_ok_taken _ _ _ _ Hok Hk Hu) as [Ho _].
  destruct (release_unused _ _ Ho Hu) as [Ho' Hi].
  rewrite (alter_insert l k sn) by done. split_and!.
  - apply subnets_set_pool; [done..|]. exact (release_nodes (UePool.pool sn) i Ho Hu).
  - intros [k' i']. rewrite taken_insert by done. cbn [fst snd]. case_decide as D.
    + subst k'. change (Pool.pool_free_node (UePool.pool sn) i) with (release (UePool.pool sn) i). rewrite Hi.
      unfold taken. cbn [fst snd]. rewrite Hk. split.
      * intros [D ?]. split; [congruence|by eauto].
      * intros [D (? & [= <-] & ?)]. split; [congruence|done].
    + split; [|by intros [_ ?]]. intros ?. split; [congruence|done].
  - intros y. by apply ip_addr_set_pool.
Qed.

(** Two addresses of a subnet differ. *)
Lemma taken_addr l k i j : Forall subnet_ok l -> taken l (k, i) -> taken l (k, j) ->
  UePool.ip_addr l (k, i) = UePool.ip_addr l (k, j) -> i = j.
Proof.
  intros Hok (sn & Hk & Hi) (sn' & Hk' & Hj). cbn [fst snd] in *. rewrite Hk in Hk'. injection Hk' as <-.
  destruct (subnet_ok_taken _ _ _ _ Hok Hk Hi) as [_ Li]. destruct (subnet_ok_taken _ _ _ _ Hok Hk Hj) as [_ Lj].
  apply lookup_lt_is_Some_2 in Li as [x Hx]. apply lookup_lt_is_Some_2 in Lj as [y Hy].
  unfold UePool.ip_addr. cbn [fst snd]. rewrite Hk. cbn. rewrite Hx, Hy. cbn. intros <-.
  rewrite Forall_lookup in Hok. destruct (Hok _ _ Hk) as [N _]. by eapply NoDup_lookup.
Qed.

(** ** Sessions, bearers, tunnels and packet filters *)

(** A loop that removes what is on a list. *)
Lemma foldl_remove {C} (I : C -> Prop) (U : C -> nat -> Prop) (f : C -> nat -> C) l c :
  (forall c x, I c -> U c x -> I (f c x) /\ forall y, U (f c x) y <-> y <> x /\ U c y) ->
  I c -> NoDup l -> (forall x, x ∈ l -> U c x) ->
  I (foldl f c l) /\ forall y, U (foldl f c l) y <-> (y ∉ l) /\ U c y.
Proof.
  intros Hf. revert c. induction l as [|x l IH]; intros c Hi Hn Hu.
  - split; [done|]. intros y. split; [|by intros [_ ?]]. intros ?. split; [by intros ?%elem_of_nil|done].
  - apply NoDup_cons in Hn as [Hx Hn]. destruct (Hf c x Hi) as [Hi' Hu']; [apply Hu; by left|].
    destruct (IH (f c x) Hi' Hn) as [I' U'].
    + intros y Hy. apply Hu'. split; [by intros ->|]. apply Hu. by right.
    + split; [exact I'|]. intros y. cbn. rewrite U', Hu', not_elem_of_cons. tauto.
Qed.

Section tree.
Context {P : Type} {A : Allocator P nat}.
Implicit Types c : ctx P.

(** The lists of the sessions and the bearers agree with the back pointers. *)
Record tree c : Prop := {
  tr_sesss : ok (sesss c); tr_bearers : ok (bearers c); tr_tunnels : ok (tunnels c); tr_pfs : ok (pfs c);
  tr_bearer_list : linked bearer_list b_sess (sesss c) (bearers c);
  tr_tunnel_list : linked tunnel_list t_bearer (bearers c) (tunnels c);
  tr_pf_list : linked pf_list pf_bearer (bearers c) (pfs c) }.

(** What the operations on bearers leave of the rest: all of a session but the list. *)
Record keeps c c' : Prop := {
  k_ues : ues c' = ues c; k_subnets : subnets c' = subnets c; k_statics : statics c' = statics c;
  k_sess_hash : sess_hash c' = sess_hash c; k_imsi_hash : imsi_ue_hash c' = imsi_ue_hash c;
  k_pool : pool (sesss c') = pool (sesss c);
  k_sess : forall s, set_bearer_list (sess c' s) [] = set_bearer_list (sess c s) [] }.

(** What the operations on tunnels, and on packet filters, leave of a bearer. *)
Record keeps_but (core : spgw_bearer_t -> spgw_bearer_t) c c' : Prop := {
  kb_keeps : keeps c c'; kb_sesss : sesss c' = sesss c; kb_pool : pool (bearers c') = pool (bearers c);
  kb_core : forall b, core (bearer c' b) = core (bearer c b) }.

#[export] Instance keeps_preorder : PreOrder keeps.
Proof. split; [by intros c|]. intros c d e [] []. constructor; congruence. Qed.
#[export] Instance keeps_but_preorder core : PreOrder (keeps_but core).
Proof.
  split; [by intros c|]. intros c d e [K ? ? ?] [K' ? ? ?].
  constructor; [by transitivity d|congruence..].
Qed.

Definition no_tunnels (b : spgw_bearer_t) : spgw_bearer_t := set_tunnel_list b [].
Definition no_pfs (b : spgw_bearer_t) : spgw_bearer_t := set_pf_list b 0 [].

Lemma keeps_but_put core c b x : core x = core (bearer c b) -> keeps_but core c (put_bearer c b x).
Proof.
  intros E. constructor; [done..|]. intros b'. unfold bearer, put_bearer. cbn [bearers set_bearers].
  rewrite node_put. case_decide; [by subst|done].
Qed.

Lemma tunnel_remove_ok c t : tree c -> in_use (tunnels c) t ->
  tree (sgw_tunnel_remove c t) /\ keeps_but no_tunnels c (sgw_tunnel_remove c t) /\
  pfs (sgw_tunnel_remove c t) = pfs c /\
  forall y, in_use (tunnels (sgw_tunnel_remove c t)) y <-> y <> t /\ in_use (tunnels c) y.
Proof.
  intros [] Ht. destruct (free_ok _ _ tr_tunnels0 Ht) as [Ho Hu]. split_and!.
  - constructor; cbn; try done.
    + apply linked_put_child; done.
    + apply linked_free_child; [done..| |].
      * by eapply linked_unlink.
      * intros _. unfold bearer, tunnel. rewrite node_put_eq. cbn. rewrite elem_of_remove. tauto.
    + apply linked_put_parent; done.
  - transitivity (put_bearer c (t_bearer (tunnel c t)) (set_tunnel_list (bearer c (t_bearer (tunnel c t)))
      (list_remove (tunnel_list (bearer c (t_bearer (tunnel c t)))) t))); [by apply keeps_but_put|done].
  - done.
  - exact Hu.
Qed.

Lemma pf_remove_ok c x : tree c -> in_use (pfs c) x ->
  tree (pgw_pf_remove c x) /\ keeps_but no_pfs c (pgw_pf_remove c x) /\
  tunnels (pgw_pf_remove c x) = tunnels c /\
  forall y, in_use (pfs (pgw_pf_remove c x)) y <-> y <> x /\ in_use (pfs c) y.
Proof.
  intros [] Ht. destruct (free_ok _ _ tr_pfs0 Ht) as [Ho Hu]. split_and!.
  - constructor; cbn; try done.
    + apply linked_put_child; done.
    + apply linked_put_parent; done.
    + apply linked_free_child; [done..| |].
      * by eapply linked_unlink.
      * intros _. unfold bearer, pf. rewrite node_put_eq. cbn. rewrite elem_of_remove. tauto.
  - transitivity (put_bearer c (pf_bearer (pf c x)) (set_pf_list (bearer c (pf_bearer (pf c x)))
      (pf_identifier (bearer c (pf_bearer (pf c x)))) (list_remove (pf_list (bearer c (pf_bearer (pf c x)))) x)));
      [by apply keeps_but_put|done].
  - done.
  - exact Hu.
Qed.

Lemma tunnel_remove_all_ok c b : tree c -> in_use (bearers c) b ->
  let c' := sgw_tunnel_remove_all c b in
  tree c' /\ keeps_but no_tunnels c c' /\ pfs c' = pfs c /\
  forall y, in_use (tunnels c') y <-> (y ∉ tunnel_list (bearer c b)) /\ in_use (tunnels c) y.
Proof.
  intros T Hb c'. destruct (tr_tunnel_list _ T b Hb) as [N C].
  destruct (foldl_remove (fun d => tree d /\ keeps_but no_tunnels c d /\ pfs d = pfs c) (fun d => in_use (tunnels d))
    sgw_tunnel_remove (tunnel_list (bearer c b)) c) as [I U]; [|done|exact N|by intros x [? _]%C|].
  - intros d x (Td & Kd & Ed) Hx. destruct (tunnel_remove_ok d x Td Hx) as (T' & K' & E' & U').
    split; [|exact U']. split_and!; [done|by transitivity d|congruence].
  - destruct I as (? & ? & ?). by split_and!.
Qed.

Lemma pf_remove_all_ok c b : tree c -> in_use (bearers c) b ->
  let c' := pgw_pf_remove_all c b in
  tree c' /\ keeps_but no_pfs c c' /\ tunnels c' = tunnels c /\
  forall y, in_use (pfs c') y <-> (y ∉ pf_list (bearer c b)) /\ in_use (pfs c) y.
Proof.
  intros T Hb c'. destruct (tr_pf_list _ T b Hb) as [N C].
  destruct (foldl_remove (fun d => tree d /\ keeps_but no_pfs c d /\ tunnels d = tunnels c) (fun d => in_use (pfs d))
    pgw_pf_remove (pf_list (bearer c b)) c) as [I U]; [|done|exact N|by intros x [? _]%C|].
  - intros d x (Td & Kd & Ed) Hx. destruct (pf_remove_ok d x Td Hx) as (T' & K' & E' & U').
    split; [|exact U']. split_and!; [done|by transitivity d|congruence].
  - destruct I as (? & ? & ?). by split_and!.
Qed.
End tree.

End SpgwInv.
