(* ===== verification/SpgwSess.v ===== *)
(** The operations of [SpgwContext] on bearers and sessions keep the invariant of
    [SpgwInv]. *)

From stdpp Require Import gmap.
From S2P Require Import Prelude Alloc Pool UePool SpgwContext SpgwInv.

Module SpgwSess.
Import Pool SpgwContext SpgwInv.

Section bearers.
Context {P : Type} {A : Allocator P nat}.
Implicit Types c : ctx P.

(** ** Removing bearers *)

Lemma keeps_put_bearers c s l : keeps c (put_sess c s (set_bearer_list (sess c s) l)).
Proof.
  constructor; try done. intros s'. unfold sess, put_sess. cbn [sesss set_sesss]. rewrite node_put.
  case_decide; [by subst|done].
Qed.

Lemma unlink_bearer_ok c b : tree c ->
  tree (unlink_bearer c b) /\ keeps c (unlink_bearer c b) /\
  (b ∉ bearer_list (sess (unlink_bearer c b) (b_sess (bearer c b)))) /\
  forall s, bearer_list (sess (unlink_bearer c b) s) ⊆ bearer_list (sess c s).
Proof.
  intros []. split_and!.
  - constructor; cbn; try done. by eapply linked_unlink.
  - apply keeps_put_bearers.
  - unfold unlink_bearer, sess. cbn. rewrite node_put_eq. cbn. rewrite elem_of_remove. tauto.
  - intros s. unfold unlink_bearer, sess. cbn. rewrite node_put. case_decide; [subst|done].
    cbn. intros x [_ Hx]%elem_of_remove. exact Hx.
Qed.

Lemma free_bearer_ok c b : tree c -> in_use (bearers c) b -> b ∉ bearer_list (sess c (b_sess (bearer c b))) ->
  tree (set_bearers c (free (bearers c) b)) /\ keeps c (set_bearers c (free (bearers c) b)) /\
  forall y, in_use (free (bearers c) b) y <-> y <> b /\ in_use (bearers c) y.
Proof.
  intros [] Hb Hn. destruct (free_ok _ _ tr_bearers0 Hb) as [Ho Hu]. split_and!; [|done|exact Hu].
  constructor; cbn; try done; [|by apply linked_free_parent..]. by apply linked_free_child.
Qed.

(** What remains of the bearers of each session was there. *)
Definition fewer c c' : Prop := forall s, bearer_list (sess c' s) ⊆ bearer_list (sess c s).

Lemma keeps_but_core_sess {core c c'} : (core = no_tunnels \/ core = no_pfs) -> keeps_but core c c' ->
  forall b, b_sess (bearer c' b) = b_sess (bearer c b).
Proof. intros Hc [_ _ _ H] b. specialize (H b). destruct Hc as [-> | ->]; by injection H. Qed.

Lemma keeps_but_in_use {core c c'} b : keeps_but core c c' -> in_use (bearers c') b <-> in_use (bearers c) b.
Proof. intros [_ _ E _]. unfold in_use. by rewrite E. Qed.

(** The end of both functions, after the tunnels or the filters are gone. *)
Lemma release_bearer core c d b : (core = no_tunnels \/ core = no_pfs) ->
  tree c -> in_use (bearers c) b -> tree d -> keeps_but core (unlink_bearer c b) d ->
  tree (set_bearers d (free (bearers d) b)) /\ keeps c (set_bearers d (free (bearers d) b)) /\
  fewer c (set_bearers d (free (bearers d) b)) /\
  (forall y, in_use (free (bearers d) b) y <-> y <> b /\ in_use (bearers c) y).
Proof.
  intros Hc T Hb Td K. destruct (unlink_bearer_ok c b T) as (_ & Kc & Hn & F).
  pose proof (kb_sesss _ _ _ K) as Es. assert (forall s, sess d s = sess (unlink_bearer c b) s) as Es'.
  { intros s. unfold sess. by rewrite Es. }
  destruct (free_bearer_ok d b) as (T' & K' & U'); [done|by apply (keeps_but_in_use b K)| |].
  { rewrite (keeps_but_core_sess Hc K), Es'. exact Hn. }
  split_and!; [done| | |].
  - transitivity d; [|done]. transitivity (unlink_bearer c b); [done|apply K].
  - intros s. change (sess (set_bearers d (free (bearers d) b)) s) with (sess d s). rewrite Es'. apply F.
  - intros y. rewrite U', (keeps_but_in_use y K). done.
Qed.

Lemma sgw_bearer_remove_ok c b : tree c -> in_use (bearers c) b ->
  let c' := sgw_bearer_remove c b in
  tree c' /\ keeps c c' /\ fewer c c' /\ pfs c' = pfs c /\
  (forall y, in_use (bearers c') y <-> y <> b /\ in_use (bearers c) y) /\
  (forall y, in_use (tunnels c') y <-> (y ∉ tunnel_list (bearer c b)) /\ in_use (tunnels c) y).
Proof.
  intros T Hb c'. destruct (unlink_bearer_ok c b T) as (Tu & _).
  destruct (tunnel_remove_all_ok _ b Tu Hb) as (Td & Kd & Ed & Ud).
  destruct (release_bearer no_tunnels c _ b ltac:(by left) T Hb Td Kd) as (T' & K' & F' & U'). by split_and!.
Qed.

Lemma pgw_bearer_remove_ok c b : tree c -> in_use (bearers c) b ->
  let c' := pgw_bearer_remove c b in
  tree c' /\ keeps c c' /\ fewer c c' /\ tunnels c' = tunnels c /\
  (forall y, in_use (bearers c') y <-> y <> b /\ in_use (bearers c) y) /\
  (forall y, in_use (pfs c') y <-> (y ∉ pf_list (bearer c b)) /\ in_use (pfs c) y).
Proof.
  intros T Hb c'. destruct (unlink_bearer_ok c b T) as (Tu & _).
  destruct (pf_remove_all_ok _ b Tu Hb) as (Td & Kd & Ed & Ud).
  destruct (release_bearer no_pfs c _ b ltac:(by right) T Hb Td Kd) as (T' & K' & F' & U'). by split_and!.
Qed.

#[local] Instance fewer_preorder : PreOrder fewer.
Proof. split; [by intros c s|]. intros c d e H H' s. by transitivity (bearer_list (sess d s)). Qed.

(** Either loop over the bearers of a session: none is left. *)
Lemma remove_all_ok (f : ctx P -> nat -> ctx P) c s :
  (forall d b, tree d -> in_use (bearers d) b -> tree (f d b) /\ keeps d (f d b) /\ fewer d (f d b) /\
     forall y, in_use (bearers (f d b)) y <-> y <> b /\ in_use (bearers d) y) ->
  tree c -> in_use (sesss c) s ->
  let c' := foldl f c (bearer_list (sess c s)) in
  tree c' /\ keeps c c' /\ bearer_list (sess c' s) = [] /\
  forall y, in_use (bearers c') y <-> (y ∉ bearer_list (sess c s)) /\ in_use (bearers c) y.
Proof.
  intros Hf T Hs c'. destruct (tr_bearer_list _ T s Hs) as [N C].
  destruct (foldl_remove (fun d => tree d /\ keeps c d /\ fewer c d) (fun d => in_use (bearers d))
    f (bearer_list (sess c s)) c) as [(T' & K' & F') U]; [|done|exact N|by intros x [? _]%C|].
  - intros d b (Td & Kd & Fd) Hb. destruct (Hf d b Td Hb) as (T' & K' & F' & U').
    split; [|exact U']. split_and!; [done|by transitivity d|by transitivity d].
  - split_and!; [done..| |done]. fold c' in T', K', F', U. destruct (bearer_list (sess c' s)) as [|b l] eqn:E; [done|].
    exfalso. assert (b ∈ bearer_list (sess c' s)) as Hb by (rewrite E; by left).
    assert (in_use (sesss c') s) as Hs' by (unfold in_use; by rewrite (k_pool _ _ K')).
    destruct (tr_bearer_list _ T' s Hs') as [_ C']. destruct (C' b Hb) as [Hu _]. apply U in Hu as [Hn _]. apply Hn, F', Hb.
Qed.

Lemma sgw_bearer_remove_all_ok c s : tree c -> in_use (sesss c) s ->
  let c' := sgw_bearer_remove_all c s in
  tree c' /\ keeps c c' /\ bearer_list (sess c' s) = [] /\
  forall y, in_use (bearers c') y <-> (y ∉ bearer_list (sess c s)) /\ in_use (bearers c) y.
Proof.
  intros T Hs. apply remove_all_ok; [|done..]. intros d b Td Hb.
  destruct (sgw_bearer_remove_ok d b Td Hb) as (? & ? & ? & _ & ? & _). done.
Qed.

Lemma pgw_bearer_remove_all_ok c s : tree c -> in_use (sesss c) s ->
  let c' := pgw_bearer_remove_all c s in
  tree c' /\ keeps c c' /\ bearer_list (sess c' s) = [] /\
  forall y, in_use (bearers c') y <-> (y ∉ bearer_list (sess c s)) /\ in_use (bearers c) y.
Proof.
  intros T Hs. apply remove_all_ok; [|done..]. intros d b Td Hb.
  destruct (pgw_bearer_remove_ok d b Td Hb) as (? & ? & ? & _ & ? & _). done.
Qed.

(** ** Adding bearers *)

Lemma set_same_tunnels c : set_tunnels c (tunnels c) = c. Proof. by destruct c. Qed.
Lemma set_same_bearers c : set_bearers c (bearers c) = c. Proof. by destruct c. Qed.
Lemma set_same_sesss c : set_sesss c (sesss c) = c. Proof. by destruct c. Qed.
Lemma set_same_subnets c : set_subnets c (subnets c) = c. Proof. by destruct c. Qed.

Definition tunnel_added c c' b t i : Prop :=
  ~ in_use (tunnels c) i /\ (forall y, in_use (tunnels c') y <-> y = i \/ in_use (tunnels c) y) /\
  tunnel_list (bearer c' b) = tunnel_list (bearer c b) ++ [i] /\ interface_type (tunnel c' i) = t.

Lemma sgw_tunnel_add_ok c b t r c' : tree c -> in_use (bearers c) b -> sgw_tunnel_add c b t = (r, c') ->
  tree c' /\ keeps_but no_tunnels c c' /\ pfs c' = pfs c /\
  match r with Some i => tunnel_added c c' b t i | None => c' = c end.
Proof.
  intros T Hb. unfold sgw_tunnel_add. destruct (new (tunnels c) (mkTunnel t 0 b)) as [[i|] s] eqn:E; intros [= <- <-].
  2:{ rewrite (new_none _ _ _ (tr_tunnels _ T) E), set_same_tunnels. by split_and!. }
  destruct (new_some _ _ _ _ (tr_tunnels _ T) E) as (Ho & Hf & Hu & Hc). destruct T.
  assert (linked tunnel_list t_bearer (bearers c) s) as L by (exact (linked_new_child _ _ _ _ _ _ _ tr_tunnels0 tr_tunnel_list0 E)).
  assert (i ∉ tunnel_list (node (bearers c) b)) as Hi.
  { intros Hi. destruct (tr_tunnel_list0 b Hb) as [_ C]. by destruct (C i Hi) as [? _]. }
  split_and!.
  - constructor; cbn; try done.
    + by apply linked_put_child.
    + eapply linked_link; [exact L|exact Hb|apply Hu; by left| |exact Hi|reflexivity]. by rewrite Hc, decide_True.
    + by apply linked_put_parent.
  - pose proof (keeps_but_put no_tunnels c b (set_tunnel_list (bearer c b) (tunnel_list (bearer c b) ++ [i])) eq_refl) as K.
    transitivity (put_bearer c b (set_tunnel_list (bearer c b) (tunnel_list (bearer c b) ++ [i]))); [exact K|done].
  - done.
  - unfold tunnel_added. split_and!; [done..| |]; unfold bearer, tunnel; cbn; [by rewrite node_put_eq|by rewrite Hc, decide_True].
Qed.

(** A bearer of the session [s] that is in no list. *)
Record loose c c' s b : Prop := {
  l_tree : tree c'; l_keeps : keeps c c'; l_sesss : sesss c' = sesss c;
  l_new : ~ in_use (bearers c) b; l_in_use : forall y, in_use (bearers c') y <-> y = b \/ in_use (bearers c) y;
  l_name : name (bearer c' b) = None; l_sess : b_sess (bearer c' b) = s; l_pfs : pf_list (bearer c' b) = []; l_pf_pool : pfs c' = pfs c }.

Lemma new_bearer_ok c s b x : tree c -> new (bearers c) (fresh_bearer s) = (Some b, x) ->
  let c' := set_bearers c x in loose c c' s b /\ bearer c' b = fresh_bearer s /\ tunnels c' = tunnels c.
Proof.
  intros T E c'. destruct (new_some _ _ _ _ (tr_bearers _ T) E) as (Ho & Hf & Hu & Hc). destruct T.
  assert (bearer c' b = fresh_bearer s) as Eb by (unfold c', bearer; cbn; by rewrite Hc, decide_True).
  split_and!; [|exact Eb|done]. constructor; try done; [|by rewrite Eb..].
  constructor; cbn; try done; 
    [exact (linked_new_child _ _ _ _ _ _ _ tr_bearers0 tr_bearer_list0 E)
    |exact (linked_new_parent _ _ _ _ _ _ _ tr_bearers0 tr_tunnel_list0 E eq_refl)
    |exact (linked_new_parent _ _ _ _ _ _ _ tr_bearers0 tr_pf_list0 E eq_refl)].
Qed.

Lemma set_s5u_teid_ok c d s b : loose c d s b -> tunnel_list (bearer d b) = [] ->
  loose c (set_s5u_teid d b) s b /\ tunnel_list (bearer (set_s5u_teid d b) b) = [].
Proof.
  intros [[] K Es N U Nm S E Ep] Et. assert (forall x, bearer (put_bearer d b x) b = x) as Eb.
  { intros x. unfold bearer. cbn. apply node_put_eq. }
  unfold set_s5u_teid. split; [|by rewrite Eb]. constructor; try done; try (rewrite Eb; done).
  - constructor; cbn; try done; [by apply linked_put_child|apply linked_put_parent; done..].
  - destruct K. by constructor.
Qed.

Lemma append_bearer_ok c s b : tree c -> in_use (sesss c) s -> in_use (bearers c) b -> b_sess (bearer c b) = s ->
  b ∉ bearer_list (sess c s) -> tree (append_bearer c s b) /\ keeps c (append_bearer c s b) /\
  bearer_list (sess (append_bearer c s b) s) = bearer_list (sess c s) ++ [b].
Proof.
  intros [] Hs Hb E Hn. split_and!; [|apply keeps_put_bearers|unfold append_bearer, sess; cbn; by rewrite node_put_eq].
  constructor; cbn; try done. by eapply linked_link.
Qed.

(** What a bearer that was added is. *)
Record bearer_added c c' s b (ts : list nat) : Prop := {
  ba_new : ~ in_use (bearers c) b; ba_in_use : forall y, in_use (bearers c') y <-> y = b \/ in_use (bearers c) y;
  ba_list : bearer_list (sess c' s) = bearer_list (sess c s) ++ [b];
  ba_name : name (bearer c' b) = None; ba_tunnels : tunnel_list (bearer c' b) = ts; ba_pfs : pf_list (bearer c' b) = [];
  ba_fresh : NoDup ts /\ forall i, i ∈ ts -> ~ in_use (tunnels c) i;
  ba_tunnels_in_use : forall y, in_use (tunnels c') y <-> (y ∈ ts) \/ in_use (tunnels c) y }.

Lemma loose_append c d s b ts : tree c -> in_use (sesss c) s -> loose c d s b -> tunnel_list (bearer d b) = ts ->
  NoDup ts -> (forall i, i ∈ ts -> ~ in_use (tunnels c) i) ->
  (forall y, in_use (tunnels d) y <-> (y ∈ ts) \/ in_use (tunnels c) y) ->
  let c' := append_bearer d s b in tree c' /\ keeps c c' /\ pfs c' = pfs c /\ bearer_added c c' s b ts.
Proof.
  intros T Hs [Td K Es N U Nm S E Ep] Et Hn Hf Hu c'. assert (forall i, sess d i = sess c i) as Es'.
  { intros i. unfold sess. by rewrite Es. }
  destruct (append_bearer_ok d s b) as (T' & K' & E'); [done|by rewrite Es|apply U; by left|done| |].
  - rewrite Es'. intros Hb. destruct (tr_bearer_list _ T s Hs) as [_ C]. by destruct (C b Hb) as [? _].
  - split_and!; [done|by transitivity d|done|]. constructor; try done.
    unfold c'. rewrite E', Es'. done.
Qed.

Lemma add_tunnels_ok c d s b r c' : tree c -> in_use (sesss c) s -> loose c d s b -> tunnel_list (bearer d b) = [] ->
  tunnels d = tunnels c -> add_tunnels d s b = (r, c') ->
  tree c' /\ keeps c c' /\ pfs c' = pfs c /\
  match r with Some b' => exists i j, b' = b /\ bearer_added c c' s b [i; j] | None => True end.
Proof.
  intros T Hs L Et Ed. unfold add_tunnels. pose proof L as [Td K Es N U Nm S E Ep].
  assert (in_use (bearers d) b) as Hb by (apply U; by left).
  destruct (sgw_tunnel_add d b GTP_F_TEID_S1_U_SGW_GTP_U) as [[i|] d1] eqn:E1;
    destruct (sgw_tunnel_add_ok _ _ _ _ _ Td Hb E1) as (T1 & K1 & P1 & H1).
  2:{ intros [= <- <-]. split_and!; [done|transitivity d; [done|apply K1]|congruence|done]. }
  assert (in_use (bearers d1) b) as Hb1 by (by apply (keeps_but_in_use b K1)).
  destruct (sgw_tunnel_add d1 b GTP_F_TEID_S5_S8_SGW_GTP_U) as [[j|] d2] eqn:E2;
    destruct (sgw_tunnel_add_ok _ _ _ _ _ T1 Hb1 E2) as (T2 & K2 & P2 & H2);
    pose proof (transitivity K1 K2) as K12;
    (assert (keeps c d2) as Kd2 by (transitivity d; [done|apply K12])).
  2:{ intros [= <- <-]. split_and!; [done|done|congruence|done]. }
  intros [= <- <-]. destruct H1 as (F1 & U1 & L1 & _), H2 as (F2 & U2 & L2 & _). rewrite Ed in F1, U1.
  assert (i <> j) as Hij by (intros <-; apply F2, U1; by left).
  destruct (loose_append c d2 s b [i; j]) as (T' & K' & P' & B'); try done.
  - constructor; try done; [by rewrite (kb_sesss _ _ _ K12)| | | | |congruence].
    + intros y. rewrite (keeps_but_in_use y K12). apply U.
    + pose proof (kb_core _ _ _ K12 b) as H. injection H. congruence.
    + rewrite (keeps_but_core_sess (or_introl eq_refl) K12). exact S.
    + pose proof (kb_core _ _ _ K12 b) as H. injection H. congruence.
  - rewrite L2, L1, Et. done.
  - apply NoDup_cons. split; [|apply NoDup_singleton]. by rewrite list_elem_of_singleton.
  - intros y [-> | [-> | []%elem_of_nil]%elem_of_cons]%elem_of_cons; [done|]. intros Hy. apply F2, U1. by right.
  - intros y. rewrite U2, U1, !elem_of_cons, elem_of_nil. tauto.
  - split_and!; [done..|]. by exists i, j.
Qed.

Lemma loose_keeps c d s b : loose c d s b -> tree d /\ keeps c d /\ pfs d = pfs c.
Proof. by intros []. Qed.

Lemma spgw_bearer_add_ok c s r c' : tree c -> in_use (sesss c) s -> spgw_bearer_add c s = (r, c') ->
  tree c' /\ keeps c c' /\ pfs c' = pfs c /\
  match r with Some b => exists i j, bearer_added c c' s b [i; j] | None => True end.
Proof.
  intros T Hs. unfold spgw_bearer_add. destruct (new (bearers c) (fresh_bearer s)) as [[b|] x] eqn:E; intros H.
  - destruct (new_bearer_ok _ _ _ _ T E) as (L & Eb & Et).
    destruct (set_s5u_teid_ok _ _ _ _ L) as (L' & Et'); [by rewrite Eb|].
    destruct (add_tunnels_ok _ _ _ _ _ _ T Hs L' Et' Et H) as (? & ? & ? & B). split_and!; [done..|].
    destruct r; [|done]. destruct B as (i & j & -> & B). eauto.
  - injection H as <- <-. rewrite (new_none _ _ _ (tr_bearers _ T) E), set_same_bearers. by split_and!.
Qed.

Lemma sgw_bearer_add_ok c s r c' : tree c -> in_use (sesss c) s -> sgw_bearer_add c s = (r, c') ->
  tree c' /\ keeps c c' /\ pfs c' = pfs c /\
  match r with Some b => exists i j, bearer_added c c' s b [i; j] | None => True end.
Proof.
  intros T Hs. unfold sgw_bearer_add. destruct (new (bearers c) (fresh_bearer s)) as [[b|] x] eqn:E; intros H.
  - destruct (new_bearer_ok _ _ _ _ T E) as (L & Eb & Et).
    destruct (add_tunnels_ok _ _ _ _ _ _ T Hs L ltac:(by rewrite Eb) Et H) as (? & ? & ? & B). split_and!; [done..|].
    destruct r; [|done]. destruct B as (i & j & -> & B). eauto.
  - injection H as <- <-. rewrite (new_none _ _ _ (tr_bearers _ T) E), set_same_bearers. by split_and!.
Qed.

(** A dedicated bearer of the PDN gateway has no tunnel. *)
Lemma pgw_bearer_add_ok c s r c' : tree c -> in_use (sesss c) s -> pgw_bearer_add c s = (r, c') ->
  tree c' /\ keeps c c' /\ pfs c' = pfs c /\ match r with Some b => bearer_added c c' s b [] | None => True end.
Proof.
  intros T Hs. unfold pgw_bearer_add. destruct (new (bearers c) (fresh_bearer s)) as [[b|] x] eqn:E; intros [= <- <-].
  - destruct (new_bearer_ok _ _ _ _ T E) as (L & Eb & Et).
    destruct (set_s5u_teid_ok _ _ _ _ L) as (L' & Et'); [by rewrite Eb|].
    apply loose_append; try done; [constructor| |].
    + by intros i ?%elem_of_nil.
    + intros y. cbn. rewrite elem_of_nil. tauto.
  - rewrite (new_none _ _ _ (tr_bearers _ T) E), set_same_bearers. by split_and!.
Qed.

End bearers.

End SpgwSess.
