(* ===== verification/SpgwSpec.v ===== *)
(** The sessions of [SpgwContext]: an invariant that every operation keeps, what
    creating and deleting a session does, and the addresses. *)

From stdpp Require Import gmap.
From S2P Require Import Prelude Alloc Pool GtpTypes UePool SpgwContext SpgwInv SpgwSess.

Module SpgwSpec.
Import Pool SpgwContext SpgwInv SpgwSess.

(** The session holds the address of a pool. *)
Definition holds (x : spgw_sess_t) (a : nat * nat) : Prop := ipv4 x = Some (Dynamic a) \/ ipv6 x = Some (Dynamic a).
(** All of a session but its bearers and their quality of service. *)
Definition detail (x : spgw_sess_t) : spgw_sess_t := set_s_qos (set_bearer_list x []) zero_qos.

Lemma detail_fields {X} (f : spgw_sess_t -> X) x y : (forall z, f (detail z) = f z) -> detail x = detail y -> f x = f y.
Proof. intros H E. by rewrite <- (H x), E. Qed.

Section sessions.
Context {P : Type} {A : Allocator P nat}.
Implicit Types c d : ctx P.

Record sessions c : Prop := {
  ss_tree : tree c;
  ss_ues : ok (ues c);
  ss_list : linked sess_list s_ue (ues c) (sesss c);
  ss_owner : forall s, in_use (sesss c) s ->
    in_use (ues c) (s_ue (sess c s)) /\ s ∈ sess_list (ue c (s_ue (sess c s)));
  (** an address is taken exactly when a session holds it, and only one does *)
  ss_subnets : Forall subnet_ok (subnets c);
  ss_one : forall s, in_use (sesss c) s -> ipv4 (sess c s) = None \/ ipv6 (sess c s) = None;
  ss_taken : forall x, taken (subnets c) x <-> exists s, in_use (sesss c) s /\ holds (sess c s) x;
  ss_unique : forall s s' x, in_use (sesss c) s -> in_use (sesss c) s' ->
    holds (sess c s) x -> holds (sess c s') x -> s = s';
  (** no function gives a session a node *)
  ss_gnode : forall s, in_use (sesss c) s -> s_gnode (sess c s) = None;
  (** the hashes *)
  ss_key : forall s, in_use (sesss c) s -> s_imsi (sess c s) = ue_imsi (ue c (s_ue (sess c s))) /\
    hash_key (sess c s) = sess_hash_keygen (s_imsi (sess c s)) (s_apn (sess c s));
  ss_hash : forall k s, sess_hash c !! k = Some s -> in_use (sesss c) s /\ hash_key (sess c s) = k;
  ss_imsi : forall u, in_use (ues c) u -> ue_imsi (ue c u) <> [] /\ (length (ue_imsi (ue c u)) <= MAX_IMSI_LEN)%nat /\
    imsi_ue_hash c !! ue_imsi (ue c u) = Some u;
  ss_imsi_hash : forall k u, imsi_ue_hash c !! k = Some u -> in_use (ues c) u /\ ue_imsi (ue c u) = k }.

(** States that differ only in what the invariant does not look at. *)
Record alike c c' : Prop := {
  a_ok : ok (ues c) -> ok (ues c');
  a_ues : forall u, in_use (ues c') u <-> in_use (ues c) u; a_ue : forall u, ue c' u = ue c u;
  a_sesss : forall s, in_use (sesss c') s <-> in_use (sesss c) s;
  a_sess : forall s, in_use (sesss c) s -> detail (sess c' s) = detail (sess c s);
  a_subnets : subnets c' = subnets c;
  a_hash : forall k, k <> [] -> sess_hash c' !! k = sess_hash c !! k; a_nil : sess_hash c' !! [] = None;
  a_imsi : imsi_ue_hash c' = imsi_ue_hash c }.

Lemma key_not_nil c s : sessions c -> in_use (sesss c) s -> hash_key (sess c s) <> [].
Proof.
  intros [] Hs. destruct (ss_key0 s Hs) as [E ->], (ss_owner0 s Hs) as [Hu _], (ss_imsi0 _ Hu) as [N _].
  rewrite E. unfold sess_hash_keygen. by intros [? _]%app_eq_nil.
Qed.

Lemma no_nil_key c : sessions c -> sess_hash c !! [] = None.
Proof.
  intros S. destruct (sess_hash c !! []) as [s|] eqn:E; [|done].
  destruct (ss_hash _ S _ _ E) as [Hs Hk]. by destruct (key_not_nil c s S Hs).
Qed.

Lemma sessions_alike c c' : sessions c -> tree c' -> alike c c' -> sessions c'.
Proof.
  intros S T [Ho Hu Eu Hs Es En Eh Ei Em]. pose proof (no_nil_key c S) as Hnil. destruct S.
  assert (forall X (f : spgw_sess_t -> X) s, (forall z, f (detail z) = f z) -> in_use (sesss c') s -> f (sess c' s) = f (sess c s)) as F.
  { intros X f s Hf H. apply detail_fields; [done|]. by apply Es, Hs. }
  assert (forall s x, in_use (sesss c') s -> holds (sess c' s) x <-> holds (sess c s) x) as Hh.
  { intros s x H. unfold holds. by rewrite (F _ ipv4), (F _ ipv6). }
  constructor; [done|by apply Ho| | |by rewrite En| | | | | | | |].
  - intros u Hu'. change (node (ues c') u) with (ue c' u). rewrite Eu. destruct (ss_list0 u) as [N C]; [by apply Hu|].
    split; [exact N|]. intros s [Hs' Hc']%C. apply Hs in Hs'. split; [done|].
    change (s_ue (sess c' s) = u). by rewrite (F _ s_ue).
  - intros s H. rewrite (F _ s_ue), Hu, Eu by done. by apply ss_owner0, Hs.
  - intros s H. rewrite (F _ ipv4), (F _ ipv6) by done. by apply ss_one0, Hs.
  - intros x. rewrite En, ss_taken0. apply exist_proper. intros s. rewrite Hs. split; intros [H H']; (split; [exact H|]).
    + apply Hh; [by apply Hs|done].
    + apply Hh in H'; [done|by apply Hs].
  - intros s s' x H H'. rewrite !Hh by done. by apply ss_unique0; apply Hs.
  - intros s H. rewrite (F _ s_gnode) by done. by apply ss_gnode0, Hs.
  - intros s H. rewrite (F _ s_ue), (F _ s_imsi), (F _ s_apn), (F _ hash_key), Eu by done. by apply ss_key0, Hs.
  - intros k s H. destruct (decide (k = [])) as [->|Hk]; [congruence|]. rewrite Eh in H by done.
    destruct (ss_hash0 k s H) as [Hs' Hk']. apply Hs in Hs'. split; [done|]. by rewrite (F _ hash_key).
  - intros u H. rewrite Eu, Em. by apply ss_imsi0, Hu.
  - intros k u H. rewrite Em in H. rewrite Eu, Hu. by apply ss_imsi_hash0.
Qed.

Lemma keeps_alike c c' : sessions c -> keeps c c' -> alike c c'.
Proof.
  intros S [Eu En _ Eh Ei Ep Es]. pose proof (no_nil_key c S). unfold in_use, ue.
  constructor; unfold in_use, ue; rewrite ?Eu, ?En, ?Eh, ?Ei, ?Ep; try done. intros s _. unfold detail. by rewrite Es.
Qed.

Lemma sessions_keeps c c' : sessions c -> tree c' -> keeps c c' -> sessions c'.
Proof. intros S T K. by apply (sessions_alike c), keeps_alike. Qed.

(** ** Removing a session *)

Lemma release_addresses c s : sessions c -> in_use (sesss c) s ->
  let l := subnets (ue_ip_free (ue_ip_free c (ipv4 (sess c s))) (ipv6 (sess c s))) in
  Forall subnet_ok l /\ (forall y, taken l y <-> ~ holds (sess c s) y /\ taken (subnets c) y) /\
  (forall y, UePool.ip_addr l y = UePool.ip_addr (subnets c) y).
Proof.
  intros S Hs l. assert (forall v, (forall y, holds (sess c s) y <-> v = Some (Dynamic y)) ->
    l = subnets (ue_ip_free c v) -> Forall subnet_ok l /\ (forall y, taken l y <-> ~ holds (sess c s) y /\ taken (subnets c) y) /\
    (forall y, UePool.ip_addr l y = UePool.ip_addr (subnets c) y)) as H.
  { intros v Hv ->. destruct v as [[x|i]|]; cbn.
    - destruct (ip_free_spec (subnets c) x) as (Ho & Ht & Ha); [apply S|apply S; exists s; by rewrite Hv|].
      split_and!; [done| |done]. intros y. rewrite Ht, Hv. split; intros [? ?]; (split; [congruence|done]).
    - split_and!; [apply S| |done]. intros y. rewrite Hv. split; [done|by intros [_ ?]].
    - split_and!; [apply S| |done]. intros y. rewrite Hv. split; [done|by intros [_ ?]]. }
  destruct (ss_one _ S s Hs) as [E|E].
  - apply (H (ipv6 (sess c s))); [intros y; unfold holds; rewrite E; split; [by intros [?|?]|auto]|]. unfold l. by rewrite E.
  - apply (H (ipv4 (sess c s))); [intros y; unfold holds; rewrite E; split; [by intros [?|?]|auto]|]. unfold l. by rewrite E.
Qed.

(** What the removal leaves. *)
Record removed c c' s : Prop := {
  rm_tree : tree c';
  rm_ues : pool (ues c') = pool (ues c);
  rm_ue : forall u, ue c' u = if decide (u = s_ue (sess c s)) then set_sess_list (ue c u) (list_remove (sess_list (ue c u)) s) else ue c u;
  rm_sesss : forall y, in_use (sesss c') y <-> y <> s /\ in_use (sesss c) y;
  rm_sess : forall y, detail (sess c' y) = detail (sess c y);
  rm_subnets : subnets c' = subnets (ue_ip_free (ue_ip_free c (ipv4 (sess c s))) (ipv6 (sess c s)));
  rm_hash : sess_hash c' = delete (hash_key (sess c s)) (sess_hash c);
  rm_imsi : imsi_ue_hash c' = imsi_ue_hash c }.

Lemma sessions_removed c c' s : sessions c -> in_use (sesss c) s -> removed c c' s -> sessions c'.
Proof.
  intros S Hs [T Eu Hu Hs' Es El Eh Em]. destruct (release_addresses c s S Hs) as (Hl & Ht & _). rewrite <- El in Hl, Ht.
  assert (forall X (f : spgw_sess_t -> X) y, (forall z, f (detail z) = f z) -> f (sess c' y) = f (sess c y)) as F.
  { intros X f y Hf. by apply detail_fields. }
  assert (forall y x, holds (sess c' y) x <-> holds (sess c y) x) as Hh.
  { intros y x. unfold holds. by rewrite (F _ ipv4), (F _ ipv6). }
  assert (forall u, in_use (ues c') u <-> in_use (ues c) u) as Iu by (intros u; unfold in_use; by rewrite Eu).
  assert (forall u, ue_imsi (ue c' u) = ue_imsi (ue c u)) as Ei by (intros u; rewrite Hu; by case_decide).
  destruct S. constructor; [done|unfold ok; by rewrite Eu| | |done| | | | | | | |].
  - intros u Hu'. apply Iu in Hu'. destruct (ss_list0 u Hu') as [N C]. change (node (ues c') u) with (ue c' u).
    rewrite Hu. split.
    + case_decide; [by apply NoDup_filter|exact N].
    + intros y Hy. change (in_use (sesss c') y /\ s_ue (sess c' y) = u). rewrite Hs', (F _ s_ue) by done.
      assert (y <> s /\ y ∈ sess_list (ue c u)) as [Hn Hy'].
      { case_decide as D; [by apply elem_of_remove in Hy|]. split; [|done]. intros ->. by destruct (C s Hy) as [_ <-]. }
      destruct (C y Hy') as [? ?]. done.
  - intros y [Hn Hy]%Hs'. rewrite (F _ s_ue), Iu, Hu by done. destruct (ss_owner0 y Hy) as [? Hl']. split; [done|].
    case_decide; [|done]. cbn. by apply elem_of_remove.
  - intros y [_ Hy]%Hs'. rewrite (F _ ipv4), (F _ ipv6) by done. by apply ss_one0.
  - intros x. rewrite Ht, ss_taken0. split.
    + intros [Hn (y & Hy & Hx)]. exists y. rewrite Hs', Hh. split_and!; [|done..]. by intros ->.
    + intros (y & [Hn Hy]%Hs' & Hx). rewrite Hh in Hx. split; [|by exists y]. intros Hx'. apply Hn. by apply (ss_unique0 y s x).
  - intros y y' x [_ Hy]%Hs' [_ Hy']%Hs'. rewrite !Hh. by apply ss_unique0.
  - intros y [_ Hy]%Hs'. rewrite (F _ s_gnode) by done. by apply ss_gnode0.
  - intros y [_ Hy]%Hs'. rewrite (F _ s_ue), (F _ s_imsi), (F _ s_apn), (F _ hash_key), Ei by done. by apply ss_key0.
  - intros k y Hk. rewrite Eh in Hk. apply lookup_delete_Some in Hk as [Hne Hk]. destruct (ss_hash0 k y Hk) as [Hy Ek].
    rewrite Hs', (F _ hash_key) by done. split_and!; [|done..]. by intros ->.
  - intros u Hu'%Iu. rewrite Em, Ei. by apply ss_imsi0.
  - intros k u Hk. rewrite Em in Hk. rewrite Iu, Ei. by apply ss_imsi_hash0.
Qed.

(** The tree and the rest of the state. *)
Lemma tree_same c c' : tree c -> sesss c' = sesss c -> bearers c' = bearers c -> tunnels c' = tunnels c ->
  pfs c' = pfs c -> tree c'.
Proof. intros [] E1 E2 E3 E4. constructor; rewrite ?E1, ?E2, ?E3, ?E4; done. Qed.

Lemma ue_ip_free_subnets c x : ue_ip_free c x = set_subnets c (subnets (ue_ip_free c x)).
Proof. destruct c, x as [[]|]; done. Qed.

Lemma free_sess_ok c s : tree c -> in_use (sesss c) s ->
  tree (set_sesss c (free (sesss c) s)) /\ forall y, in_use (free (sesss c) s) y <-> y <> s /\ in_use (sesss c) y.
Proof.
  intros [] Hs. destruct (free_ok _ _ tr_sesss0 Hs) as [Ho Hu]. split; [|exact Hu].
  constructor; cbn; try done. by apply linked_free_parent.
Qed.

(** What precedes the loops in [spgw_sess_remove]. *)
Definition retire c s : ctx P :=
  let c' := set_sess_hash c (delete (hash_key (sess c s)) (sess_hash c)) in
  unlink_sess (ue_ip_free (ue_ip_free c' (ipv4 (sess c s))) (ipv6 (sess c s))) s.

Lemma retire_fields c s :
  sesss (retire c s) = sesss c /\ bearers (retire c s) = bearers c /\ tunnels (retire c s) = tunnels c /\
  pfs (retire c s) = pfs c /\ pool (ues (retire c s)) = pool (ues c) /\
  (forall u, ue (retire c s) u = if decide (u = s_ue (sess c s))
     then set_sess_list (ue c u) (list_remove (sess_list (ue c u)) s) else ue c u) /\
  subnets (retire c s) = subnets (ue_ip_free (ue_ip_free c (ipv4 (sess c s))) (ipv6 (sess c s))) /\
  sess_hash (retire c s) = delete (hash_key (sess c s)) (sess_hash c) /\ imsi_ue_hash (retire c s) = imsi_ue_hash c.
Proof.
  unfold retire. set (c1 := set_sess_hash c _).
  rewrite (ue_ip_free_subnets (ue_ip_free c1 _)), (ue_ip_free_subnets c1). split_and!; try done.
  - intros u. unfold unlink_sess, ue, put_ue. cbn [ues set_ues]. rewrite node_put.
    case_decide as D; case_decide as D'; [by rewrite D|by destruct D'|by destruct D|done].
  - by destruct (ipv4 (sess c s)) as [[]|], (ipv6 (sess c s)) as [[]|].
Qed.

Lemma spgw_sess_remove_ok c s : sessions c -> in_use (sesss c) s ->
  removed c (spgw_sess_remove c s) s /\ pool (ues (spgw_sess_remove c s)) = pool (ues c) /\
  forall b, in_use (bearers (spgw_sess_remove c s)) b <-> (b ∉ bearer_list (sess c s)) /\ in_use (bearers c) b.
Proof.
  intros S Hs. destruct (retire_fields c s) as (E1 & E2 & E3 & E4 & E5 & Eu & En & Eh & Ei).
  assert (forall y, sess (retire c s) y = sess c y) as Es by (intros y; unfold sess; by rewrite E1).
  assert (tree (retire c s)) as T by (by apply (tree_same c); [apply S|..]).
  destruct (sgw_bearer_remove_all_ok (retire c s) s T) as (T1 & K1 & L1 & B1); [by rewrite E1|].
  set (c1 := sgw_bearer_remove_all (retire c s) s) in *.
  destruct (pgw_bearer_remove_all_ok c1 s T1) as (T2 & K2 & L2 & B2).
  { unfold in_use. rewrite (k_pool _ _ K1), E1. exact Hs. }
  set (c2 := pgw_bearer_remove_all c1 s) in *. pose proof (transitivity K1 K2) as K.
  assert (forall y, in_use (sesss c2) y <-> in_use (sesss c) y) as I2 by (intros y; unfold in_use; by rewrite (k_pool _ _ K), E1).
  destruct (free_sess_ok c2 s T2) as [T3 U3]; [by apply I2|].
  change (spgw_sess_remove c s) with (set_sesss c2 (free (sesss c2) s)). split_and!.
  - constructor; [done| | | | | | |].
    + cbn. by rewrite (k_ues _ _ K).
    + intros u. unfold ue. cbn. rewrite (k_ues _ _ K). apply Eu.
    + intros y. cbn. by rewrite U3, I2.
    + intros y. change (detail (sess c2 y) = detail (sess c y)). rewrite <- Es. unfold detail. by rewrite (k_sess _ _ K).
    + cbn. by rewrite (k_subnets _ _ K).
    + cbn. by rewrite (k_sess_hash _ _ K).
    + cbn. by rewrite (k_imsi_hash _ _ K).
  - cbn. by rewrite (k_ues _ _ K).
  - intros b. cbn. rewrite B2, L1, B1, Es, E2. split; [tauto|]. intros H. split; [by intros ?%elem_of_nil|done].
Qed.

(** ** Adding a session *)

(** A new session [s] that nothing points to, with the fields [x]. *)
Record begun c c' s (x : spgw_sess_t) : Prop := {
  bg_tree : tree c'; bg_ues : pool (ues c') = pool (ues c); bg_ue : forall u, ue c' u = ue c u;
  bg_hash : sess_hash c' = sess_hash c; bg_imsi : imsi_ue_hash c' = imsi_ue_hash c;
  bg_new : ~ in_use (sesss c) s; bg_in_use : forall y, in_use (sesss c') y <-> y = s \/ in_use (sesss c) y;
  bg_other : forall y, y <> s -> detail (sess c' y) = detail (sess c y); bg_sess : detail (sess c' s) = x }.

Lemma begun_keeps c d e s x : begun c d s x -> tree e -> keeps d e -> begun c e s x /\ subnets e = subnets d.
Proof.
  intros [] T [Eu En _ Eh Ei Ep Es]. split; [|done]. constructor; [done|congruence| |congruence..|done| | |].
  - intros u. rewrite <- bg_ue0. unfold ue. by rewrite Eu.
  - intros y. rewrite <- bg_in_use0. unfold in_use. by rewrite Ep.
  - intros y Hy. rewrite <- bg_other0 by done. unfold detail. by rewrite Es.
  - rewrite <- bg_sess0. unfold detail. by rewrite Es.
Qed.

(** The fields of [s] are written. *)
Lemma begun_put c d s x y : begun c d s x -> bearer_list y = bearer_list (sess d s) ->
  begun c (put_sess d s y) s (detail y) /\ subnets (put_sess d s y) = subnets d.
Proof.
  intros [] E. split; [|done]. destruct bg_tree0. constructor; try done.
  - constructor; cbn; try done. by apply linked_put_parent.
  - intros z Hz. rewrite <- bg_other0 by done. unfold sess. cbn. by rewrite node_put_ne.
  - unfold sess. cbn. by rewrite node_put_eq.
Qed.

Definition opening c (u : nat) (apn : list Z) (s : nat) : spgw_sess_t :=
  mkSess (SGW_S5C_INDEX_TO_TEID s) (Z.of_nat s) (ue_imsi (ue c u)) (take MAX_APN_LEN apn) 0 None None [] 0 zero_qos [] [] None u.

Lemma new_sess_ok c u apn s x : tree c -> new (sesss c) (fresh_sess c u apn) = (Some s, x) ->
  let d := set_s5c_teids (set_sesss c x) s in begun c d s (opening c u apn s) /\ subnets d = subnets c.
Proof.
  intros T E d. destruct (new_some _ _ _ _ (tr_sesss _ T) E) as (Ho & Hf & Hu & Hc).
  assert (sess (set_sesss c x) s = fresh_sess c u apn) as Es by (unfold sess; cbn; by rewrite Hc, decide_True).
  assert (begun c (set_sesss c x) s (fresh_sess c u apn)) as B.
  { destruct T. constructor; try done.
    - constructor; cbn; try done. exact (linked_new_parent _ _ _ _ _ _ _ tr_sesss0 tr_bearer_list0 E eq_refl).
    - intros y Hy. unfold sess. cbn. by rewrite Hc, decide_False.
    - by rewrite Es. }
  unfold d, set_s5c_teids. rewrite Es. refine (begun_put _ _ _ _ _ B _). by rewrite Es.
Qed.

(** The addresses before and after a session gets [v4] or [v6]. *)
Definition assigned (l l' : list UePool.pgw_subnet_t) (v4 v6 : option ip) : Prop :=
  Forall subnet_ok l' /\ (v4 = None \/ v6 = None) /\
  (forall y, taken l' y <-> (v4 = Some (Dynamic y) \/ v6 = Some (Dynamic y)) \/ taken l y) /\
  (forall y, v4 = Some (Dynamic y) \/ v6 = Some (Dynamic y) -> ~ taken l y) /\
  (forall y, UePool.ip_addr l' y = UePool.ip_addr l y).

Lemma assigned_same l v4 v6 : Forall subnet_ok l -> v4 = None \/ v6 = None ->
  (forall y, ~ (v4 = Some (Dynamic y) \/ v6 = Some (Dynamic y))) -> assigned l l v4 v6.
Proof. intros H H1 H2. split_and!; [done..| | |done]; intros y; [|by intros ?%H2]. split; [by right|]. by intros [?%H2|?]. Qed.

Lemma ue_ip_alloc_ok c f a r c' : Forall subnet_ok (subnets c) -> ue_ip_alloc c f a = (r, c') ->
  c' = set_subnets c (subnets c') /\
  match r with
  | Some x => assigned (subnets c) (subnets c') (Some x) None /\ assigned (subnets c) (subnets c') None (Some x)
  | None => subnets c' = subnets c
  end.
Proof.
  intros H. unfold ue_ip_alloc. destruct (UePool.pgw_ue_ip_alloc (subnets c) f a) as [[x|] l] eqn:E; intros [= <- <-].
  - split; [done|]. destruct (ip_alloc_some _ _ _ _ _ H E) as (Ho & Hn & Ht & Ha). cbn.
    split; (split_and!; [done|by auto| | |done]); intros y; rewrite ?Ht.
    + split; intros [H'|?]; [left; left; congruence|by right|left; destruct H' as [H'|H']; congruence|by right].
    + intros [H'|H']; [|done]. by injection H' as <-.
    + split; intros [H'|?]; [left; right; congruence|by right|left; destruct H' as [H'|H']; congruence|by right].
    + intros [H'|H']; [done|]. by injection H' as <-.
  - split; [done|]. cbn. by apply (ip_alloc_none _ _ _ _ H E).
Qed.

(** After [assign_address] from [d]. *)
Definition addressed (c d d' : ctx P) s (x : spgw_sess_t) (done : bool) : Prop :=
  exists t v4 v6 a n, begun c d' s (set_address x t v4 v6 a n) /\ assigned (subnets d) (subnets d') v4 v6 /\
    (done = false -> v4 = None /\ v6 = None /\ subnets d' = subnets d).

Lemma set_subnets_begun c d s x l : begun c d s x -> begun c (set_subnets d l) s x.
Proof. intros []. constructor; try done. by apply (tree_same d). Qed.

Lemma put_address c d s x t v4 v6 a n : begun c d s x ->
  begun c (put_sess d s (set_address (sess d s) t v4 v6 a n)) s (set_address x t v4 v6 a n) /\
  subnets (put_sess d s (set_address (sess d s) t v4 v6 a n)) = subnets d.
Proof.
  intros B. destruct (begun_put c d s x (set_address (sess d s) t v4 v6 a n) B eq_refl) as [B' E'].
  split; [|done]. replace (set_address x t v4 v6 a n) with (detail (set_address (sess d s) t v4 v6 a n)); [done|].
  by rewrite <- (bg_sess _ _ _ _ B).
Qed.

Lemma addressed_put c d d' s x t v4 v6 a n b : begun c d' s x -> assigned (subnets d) (subnets d') v4 v6 ->
  (b = false -> v4 = None /\ v6 = None /\ subnets d' = subnets d) ->
  addressed c d (put_sess d' s (set_address (sess d' s) t v4 v6 a n)) s x b.
Proof.
  intros B H Hb. destruct (put_address c d' s x t v4 v6 a n B) as [B' E']. exists t, v4, v6, a, n.
  rewrite E'. by split_and!.
Qed.

Lemma assign_address_ok c d s x t apn b d' : Forall subnet_ok (subnets d) -> begun c d s x ->
  assign_address d s t apn = (b, d') -> addressed c d d' s x b.
Proof.
  intros Hl B. unfold assign_address.
  assert (assigned (subnets d) (subnets d) None None) as H0 by (apply assigned_same; [done|by left|by intros y [?|?]]).
  case_decide; [|case_decide].
  - destruct (get_static_ip_by_imsi d (s_imsi (sess d s))) as [i|].
    { intros [= <- <-]. apply addressed_put; [done| |done].
      apply assigned_same; [done|by right|by intros y [?|?]]. }
    destruct (ue_ip_alloc d UePool.AF_INET apn) as [[y|] d1] eqn:E; destruct (ue_ip_alloc_ok _ _ _ _ _ Hl E) as [Es Hr];
      pose proof (set_subnets_begun c d s x (subnets d1) B) as B1; rewrite <- Es in B1; intros [= <- <-].
    + apply addressed_put; [done|apply Hr|done].
    + apply addressed_put; [done|by rewrite Hr|done].
  - destruct (ue_ip_alloc d UePool.AF_INET6 apn) as [[y|] d1] eqn:E; destruct (ue_ip_alloc_ok _ _ _ _ _ Hl E) as [Es Hr];
      pose proof (set_subnets_begun c d s x (subnets d1) B) as B1; rewrite <- Es in B1; intros [= <- <-].
    + apply addressed_put; [done|apply Hr|done].
    + apply addressed_put; [done|by rewrite Hr|done].
  - intros [= <- <-]. by apply addressed_put.
Qed.

(** A session that was added. *)
Record added c c' s (u : nat) (x : spgw_sess_t) : Prop := {
  ad_tree : tree c';
  ad_ues : pool (ues c') = pool (ues c);
  ad_ue : forall v, ue c' v = if decide (v = u) then set_sess_list (ue c u) (sess_list (ue c u) ++ [s]) else ue c v;
  ad_new : ~ in_use (sesss c) s; ad_in_use : forall y, in_use (sesss c') y <-> y = s \/ in_use (sesss c) y;
  ad_other : forall y, y <> s -> detail (sess c' y) = detail (sess c y); ad_sess : detail (sess c' s) = x;
  ad_subnets : assigned (subnets c) (subnets c') (ipv4 x) (ipv6 x);
  ad_hash : sess_hash c' = <[hash_key x := s]> (sess_hash c);
  ad_imsi : imsi_ue_hash c' = imsi_ue_hash c;
  ad_gnode : s_gnode x = None; ad_owner : s_ue x = u; ad_key : s_imsi x = ue_imsi (ue c u) /\ hash_key x = sess_hash_keygen (s_imsi x) (s_apn x) }.

Section added.
Context (c c' : ctx P) s u x (S : sessions c) (Hu : in_use (ues c) u) (Ad : added c c' s u x).

Lemma added_sess X (f : spgw_sess_t -> X) y : (forall z, f (detail z) = f z) ->
  f (sess c' y) = if decide (y = s) then f x else f (sess c y).
Proof.
  intros Hf. case_decide as D; [subst y|].
  - by rewrite <- (ad_sess _ _ _ _ _ Ad), Hf.
  - apply detail_fields; [done|]. by apply (ad_other _ _ _ _ _ Ad).
Qed.

Lemma added_holds y a : holds (sess c' y) a <-> if decide (y = s) then holds x a else holds (sess c y) a.
Proof. unfold holds. rewrite (added_sess _ ipv4), (added_sess _ ipv6) by done. by case_decide. Qed.

Lemma added_list : linked sess_list s_ue (ues c') (sesss c').
Proof.
  destruct Ad. intros v Hv. change (node (ues c') v) with (ue c' v).
  assert (in_use (ues c) v) as Hv' by (unfold in_use in *; by rewrite <- ad_ues0).
  assert (NoDup (sess_list (ue c v)) /\ forall j, j ∈ sess_list (ue c v) -> j <> s /\ in_use (sesss c') j /\ s_ue (sess c' j) = v) as [N C].
  { destruct (ss_list _ S v Hv') as [N C]. split; [exact N|]. intros j Hj. destruct (C j Hj) as [Hj' Ej].
    assert (j <> s) as Hn by (by intros ->). split_and!; [done|apply ad_in_use0; by right|].
    rewrite (added_sess _ s_ue), decide_False by done. exact Ej. }
  rewrite ad_ue0. case_decide as D; [subst v|by split; [|intros j [_ Hj]%C]]. cbn. split.
  - apply NoDup_app. split_and!; [done| |apply NoDup_singleton]. intros j Hj%C. rewrite list_elem_of_singleton. tauto.
  - intros j [[_ Hj]%C| ->%list_elem_of_singleton]%elem_of_app; [done|]. split; [apply ad_in_use0; by left|].
    change (s_ue (sess c' s) = u). by rewrite (added_sess _ s_ue), decide_True.
Qed.

Lemma added_taken a : taken (subnets c') a <-> exists y, in_use (sesss c') y /\ holds (sess c' y) a.
Proof.
  destruct Ad, ad_subnets0 as (_ & _ & Ht & _). rewrite Ht, (ss_taken _ S). split.
  - intros [H|(y & Hy & Hx)].
    + exists s. rewrite added_holds, decide_True by done. split; [apply ad_in_use0; by left|done].
    + exists y. rewrite added_holds, decide_False by (by intros ->). split; [apply ad_in_use0; by right|done].
  - intros (y & Hy & Hx). apply added_holds in Hx. case_decide as D; [by left|right].
    exists y. apply ad_in_use0 in Hy as [?|?]; done.
Qed.

Lemma added_unique y y' a : in_use (sesss c') y -> in_use (sesss c') y' -> holds (sess c' y) a -> holds (sess c' y') a -> y = y'.
Proof.
  destruct Ad, ad_subnets0 as (_ & _ & _ & Hn & _). rewrite !ad_in_use0, !added_holds. intros Hy Hy' Hx Hx'.
  assert (forall z, z <> s -> z = s \/ in_use (sesss c) z -> holds (sess c z) a -> taken (subnets c) a) as Ht.
  { intros z Hz [?|Hi] Ha; [done|]. apply (ss_taken _ S). eauto. }
  destruct (decide (y = s)) as [D|D], (decide (y' = s)) as [D'|D'];
    [congruence|destruct (Hn a Hx); by eauto|destruct (Hn a Hx'); by eauto|].
  destruct Hy, Hy'; [done..|]. by apply (ss_unique _ S y y' a).
Qed.

Lemma sessions_added : sessions c'.
Proof.
  assert (forall v, in_use (ues c') v <-> in_use (ues c) v) as Iu.
  { intros v. unfold in_use. by rewrite (ad_ues _ _ _ _ _ Ad). }
  assert (forall v, ue_imsi (ue c' v) = ue_imsi (ue c v)) as Ei.
  { intros v. rewrite (ad_ue _ _ _ _ _ Ad). case_decide; [by subst|done]. }
  pose proof added_list as HL. pose proof added_taken as HT. pose proof added_unique as HU.
  destruct Ad, ad_subnets0 as (Hl & H1 & _). constructor; try done.
  - unfold ok. rewrite ad_ues0. apply S.
  - intros y Hy. rewrite (added_sess _ s_ue), Iu, ad_ue0 by done. case_decide as D.
    + subst y. rewrite ad_owner0. rewrite decide_True by done. split; [done|]. cbn. apply elem_of_app. right. by left.
    + apply ad_in_use0 in Hy as [?|Hy]; [done|]. destruct (ss_owner _ S y Hy) as [? Hin]. split; [done|].
      case_decide as D'; [|done]. cbn. rewrite <- D'. apply elem_of_app. by left.
  - intros y Hy. rewrite (added_sess _ ipv4), (added_sess _ ipv6) by done. case_decide; [done|].
    apply ad_in_use0 in Hy as [?|Hy]; [done|]. by apply S.
  - intros y Hy. rewrite (added_sess _ s_gnode) by done. case_decide; [done|].
    apply ad_in_use0 in Hy as [?|Hy]; [done|]. by apply S.
  - intros y Hy. rewrite (added_sess _ s_ue), (added_sess _ s_imsi), (added_sess _ s_apn), (added_sess _ hash_key), Ei by done.
    case_decide; [by rewrite ad_owner0|]. apply ad_in_use0 in Hy as [?|Hy]; [done|]. by apply S.
  - intros k y. rewrite ad_hash0. intros [[<- <-]|[Hk Hy]]%lookup_insert_Some.
    + split; [apply ad_in_use0; by left|]. by rewrite (added_sess _ hash_key), decide_True.
    + destruct (ss_hash _ S k y Hy) as [Hi Ek]. split; [apply ad_in_use0; by right|].
      rewrite (added_sess _ hash_key), decide_False by first [done|by intros ->]. done.
  - intros v Hv%Iu. rewrite Ei, ad_imsi0. by apply S.
  - intros k v Hk. rewrite ad_imsi0 in Hk. rewrite Ei, Iu. by apply S.
Qed.
End added.

Lemma remove_absent (l : list nat) x : x ∉ l -> list_remove l x = l.
Proof.
  unfold list_remove. induction l as [|y l IH]; intros Hx; [done|]. apply not_elem_of_cons in Hx as [Hn Hx].
  rewrite filter_cons_True by congruence. by rewrite IH.
Qed.

(** A session that is given up when it could not be completed. *)
Lemma alike_abandoned c d e s x : sessions c -> begun c d s x -> subnets d = subnets c -> tree e -> keeps d e ->
  let c' := set_sesss e (free (sesss e) s) in tree c' /\ alike c c'.
Proof.
  intros S B Hd T K c'. destruct (begun_keeps _ _ _ _ _ B T K) as [[] En]. pose proof (no_nil_key c S).
  destruct (free_sess_ok e s T) as [T' U']; [apply bg_in_use0; by left|]. split; [exact T'|].
  unfold c'. constructor; cbn; try congruence.
  - unfold ok. by rewrite bg_ues0.
  - intros u. unfold in_use. by rewrite bg_ues0.
  - exact bg_ue0.
  - intros y. rewrite U', bg_in_use0. split; [by intros [? [?|?]]|]. intros Hy. split; [by intros ->|by right].
  - intros y Hy. apply bg_other0. by intros ->.
Qed.

Lemma begun_unlink c d s u x : sessions c -> in_use (ues c) u -> begun c d s x -> s_ue x = u ->
  begun c (unlink_sess d s) s x /\ subnets (unlink_sess d s) = subnets d /\ sesss (unlink_sess d s) = sesss d.
Proof.
  intros S Hu B E. split_and!; [|done..]. destruct B. constructor; try done; [by apply (tree_same d)|].
  intros v. unfold unlink_sess, ue, put_ue. cbn [ues set_ues]. rewrite node_put. case_decide as D; [|apply bg_ue0].
  assert (s_ue (sess d s) = u) as Eu by (rewrite <- E, <- bg_sess0; done). rewrite Eu in D |- *. subst v.
  change (node (ues d) u) with (ue d u). change (node (ues c) u) with (ue c u). rewrite bg_ue0.
  rewrite remove_absent; [by destruct (ue c u)|]. intros Hs.
  destruct (ss_list _ S u Hu) as [_ C]. by destruct (C s Hs) as [? _].
Qed.

Lemma abandoned_by_sgw c d s u x : sessions c -> in_use (ues c) u -> begun c d s x -> s_ue x = u ->
  subnets d = subnets c -> sessions (sgw_sess_remove d s).
Proof.
  intros S Hu B E Hd. destruct (begun_unlink c d s u x S Hu B E) as (B' & E' & Es).
  destruct (sgw_bearer_remove_all_ok (unlink_sess d s) s (bg_tree _ _ _ _ B')) as (T & K & _).
  { apply (bg_in_use _ _ _ _ B'). by left. }
  destruct (alike_abandoned c _ _ s x S B' ltac:(by rewrite E') T K) as [T' L]. by apply (sessions_alike c).
Qed.

Lemma abandoned_by_pgw c d s x t a n : sessions c -> begun c d s (set_address x t None None a n) ->
  hash_key x = [] -> subnets d = subnets c -> sessions (pgw_sess_remove d s).
Proof.
  intros S B E Hd. unfold pgw_sess_remove.
  assert (forall X (f : spgw_sess_t -> X), (forall z, f (detail z) = f z) -> f (sess d s) = f (set_address x t None None a n)) as F.
  { intros X f Hf. by rewrite <- (bg_sess _ _ _ _ B), Hf. }
  cbv zeta. rewrite (F _ hash_key) by done. cbn [hash_key set_address]. rewrite E, delete_id.
  2:{ rewrite (bg_hash _ _ _ _ B). by apply no_nil_key. }
  assert (set_sess_hash d (sess_hash d) = d) as -> by (by destruct d).
  rewrite (F _ ipv4), (F _ ipv6) by done. cbn [ipv4 ipv6 set_address ue_ip_free].
  destruct (pgw_bearer_remove_all_ok d s (bg_tree _ _ _ _ B)) as (T & K & _); [apply (bg_in_use _ _ _ _ B); by left|].
  destruct (alike_abandoned c d _ s _ S B Hd T K) as [T' L]. by apply (sessions_alike c).
Qed.

Lemma set_ebi_ok c b e : tree c -> tree (put_bearer c b (set_ebi (bearer c b) e)) /\ keeps c (put_bearer c b (set_ebi (bearer c b) e)).
Proof.
  intros []. split; [|done]. constructor; cbn; try done; [by apply linked_put_child|by apply linked_put_parent..].
Qed.

(** The end of [spgw_sess_add]. *)
Definition finish c (s u : nat) (k : list Z) : ctx P :=
  let c := put_sess c s (set_hash_key (sess c s) k) in
  let c := set_sess_hash c (<[k := s]> (sess_hash c)) in
  put_ue c u (set_sess_list (ue c u) (sess_list (ue c u) ++ [s])).

Lemma take_take_apn (l : list Z) : take MAX_APN_LEN (take MAX_APN_LEN l) = take MAX_APN_LEN l.
Proof. by rewrite take_take, Nat.min_id. Qed.

Lemma finish_added c d s u apn t v4 v6 a n : begun c d s (set_address (opening c u apn s) t v4 v6 a n) ->
  assigned (subnets c) (subnets d) v4 v6 ->
  let k := sess_hash_keygen (ue_imsi (ue c u)) apn in
  added c (finish d s u k) s u (set_hash_key (set_address (opening c u apn s) t v4 v6 a n) k).
Proof.
  intros B H k. destruct (begun_put c d s _ (set_hash_key (sess d s) k) B eq_refl) as [B' E'].
  replace (detail (set_hash_key (sess d s) k)) with (set_hash_key (set_address (opening c u apn s) t v4 v6 a n) k) in B'
    by (by rewrite <- (bg_sess _ _ _ _ B)).
  unfold finish. set (d' := put_sess d s _) in *. clearbody d'. destruct B'. constructor; try done.
  - by apply (tree_same d').
  - intros v. unfold ue, put_ue. cbn [ues set_ues set_sess_hash]. rewrite node_put.
    change (node (ues d') u) with (ue d' u). case_decide; [by rewrite bg_ue0|apply bg_ue0].
  - cbn. by rewrite E'.
  - cbn. by rewrite bg_hash0.
  - split; [done|]. unfold k, sess_hash_keygen. cbn [hash_key set_hash_key s_imsi s_apn set_address opening]. by rewrite take_take_apn.
Qed.

Lemma spgw_sess_add_ok c u apn t e r c' : sessions c -> in_use (ues c) u -> spgw_sess_add c u apn t e = (r, c') ->
  sessions c' /\ match r with
    Some s => exists x, added c c' s u x /\ hash_key x = sess_hash_keygen (ue_imsi (ue c u)) apn
  | None => True end.
Proof.
  intros S Hu. unfold spgw_sess_add. case_decide as He; [by intros [= <- <-]|].
  destruct (new (sesss c) (fresh_sess c u apn)) as [[s|] y] eqn:E.
  2:{ intros [= <- <-]. rewrite (new_none _ _ _ (tr_sesss _ (ss_tree _ S)) E), set_same_sesss. done. }
  destruct (new_sess_ok c u apn s y (ss_tree _ S) E) as [B1 E1]. set (c1 := set_s5c_teids (set_sesss c y) s) in *.
  assert (in_use (sesss c1) s) as Hs1 by (apply (bg_in_use _ _ _ _ B1); by left).
  destruct (spgw_bearer_add c1 s) as [[b|] c2] eqn:E2;
    destruct (spgw_bearer_add_ok _ _ _ _ (bg_tree _ _ _ _ B1) Hs1 E2) as (T2 & K2 & _);
    destruct (begun_keeps _ _ _ _ _ B1 T2 K2) as [B2 N2].
  2:{ intros [= <- <-]. split; [|done]. apply (abandoned_by_sgw c c2 s u _ S Hu B2 eq_refl). congruence. }
  destruct (set_ebi_ok c2 b e T2) as [T3 K3]. set (c3 := put_bearer c2 b (set_ebi (bearer c2 b) e)) in *.
  destruct (begun_keeps _ _ _ _ _ B2 T3 K3) as [B3 N3]. assert (subnets c3 = subnets c) as E3 by congruence.
  destruct (assign_address c3 s t apn) as [given c4] eqn:E4.
  assert (Forall subnet_ok (subnets c3)) as Hl by (rewrite E3; apply S).
  destruct (assign_address_ok c c3 s _ t apn _ c4 Hl B3 E4) as (t' & v4 & v6 & a & n & B4 & H4 & F4).
  rewrite E3 in H4. destruct given; intros [= <- <-].
  - assert (ue_imsi (ue c4 u) = ue_imsi (ue c u)) as -> by (by rewrite (bg_ue _ _ _ _ B4)).
    pose proof (finish_added c c4 s u apn _ _ _ _ _ B4 H4) as Ad. split; [|eexists; by split; [exact Ad|]].
    exact (sessions_added _ _ _ _ _ S Hu Ad).
  - destruct (F4 eq_refl) as (-> & -> & E'). split; [|done]. apply (abandoned_by_pgw c c4 s _ _ _ _ S B4 eq_refl).
    congruence.
Qed.

Lemma create_session_ok c u apn t e r c' : sessions c -> in_use (ues c) u -> create_session c u apn t e = (r, c') -> sessions c'.
Proof.
  intros S Hu. unfold create_session. case_match; [by intros [= <- <-]|].
  intros E. by destruct (spgw_sess_add_ok c u apn t e r c' S Hu E).
Qed.

(** ** UEs *)

Lemma set_same_ues c : set_ues c (ues c) = c. Proof. by destruct c. Qed.

Lemma sgw_ue_add_ok c imsi r c' : sessions c -> sgw_ue_find_by_imsi c imsi = None -> sgw_ue_add c imsi = Some (r, c') -> sessions c'.
Proof.
  intros S Hf. unfold sgw_ue_add, sgw_ue_find_by_imsi in *. case_decide as Hn; [by intros [= <- <-]|].
  destruct (new (ues c) (mkUe imsi 0 0 [])) as [[i|] x] eqn:E.
  2:{ intros [= <- <-]. by rewrite (new_none _ _ _ (ss_ues _ S) E), set_same_ues. }
  case_decide as Hl; [|done]. intros [= <- <-].
  destruct (new_some _ _ _ _ (ss_ues _ S) E) as (Ho & Hi & Hu & Hc).
  assert (forall v, in_use (ues c) v -> node x v = ue c v) as Eu by (intros v Hv; rewrite Hc, decide_False; [done|by intros ->]).
  destruct S. constructor; try done.
  - by apply (tree_same c).
  - exact (linked_new_parent _ _ _ _ _ _ _ ss_ues0 ss_list0 E eq_refl).
  - intros s Hs. destruct (ss_owner0 s Hs) as [Hv Hin]. unfold ue. cbn. rewrite Eu by done. split; [apply Hu; by right|done].
  - intros s Hs. destruct (ss_owner0 s Hs) as [Hv _]. unfold ue. cbn. rewrite Eu by done. by apply ss_key0.
  - intros v Hv. unfold ue in *. cbn in *. rewrite Hc. case_decide as D.
    + subst v. cbn. split_and!; [done..|]. by rewrite lookup_insert_eq.
    + apply Hu in Hv as [?|Hv]; [done|]. destruct (ss_imsi0 v Hv) as (? & ? & H). split_and!; [done..|].
      rewrite lookup_insert_ne; [exact H|]. intros E'. congruence.
  - intros k v. unfold ue. cbn. intros [[<- <-]|[Hk Hv]]%lookup_insert_Some.
    + rewrite Hc, decide_True by done. split; [apply Hu; by left|done].
    + destruct (ss_imsi_hash0 k v Hv) as [Hv' Ek]. rewrite Eu by done. split; [apply Hu; by right|done].
Qed.

Lemma spgw_ue_add_by_message_ok c imsi r c' : sessions c -> spgw_ue_add_by_message c imsi = Some (r, c') -> sessions c'.
Proof.
  intros S. unfold spgw_ue_add_by_message. destruct imsi as [imsi|]; [|by intros [= <- <-]].
  destruct (sgw_ue_find_by_imsi c imsi) as [u|] eqn:E; [by intros [= <- <-]|]. by apply sgw_ue_add_ok.
Qed.

(** ** Filters and rules of a bearer *)

Lemma pgw_pf_add_ok c b (d : Z) rule r c' : tree c -> in_use (bearers c) b -> pgw_pf_add c b d rule = (r, c') ->
  tree c' /\ keeps c c'.
Proof.
  intros T Hb. unfold pgw_pf_add. set (k := NEXT_ID _ _ _).
  destruct (new (pfs c) (mkPfNode (GtpTypes.mkPf d k rule) b)) as [[i|] x] eqn:E; intros [= <- <-].
  2:{ rewrite (new_none _ _ _ (tr_pfs _ T) E). split; [by apply (tree_same c)|done]. }
  destruct (new_some _ _ _ _ (tr_pfs _ T) E) as (Ho & Hf & Hu & Hc). split; [|done]. destruct T.
  constructor; cbn; try done; [by apply linked_put_child|by apply linked_put_parent|].
  eapply linked_link; [exact (linked_new_child _ _ _ _ _ _ _ tr_pfs0 tr_pf_list0 E)|exact Hb|apply Hu; by left| | |reflexivity].
  - by rewrite Hc, decide_True.
  - intros Hi. destruct (tr_pf_list0 b Hb) as [_ C]. by destruct (C i Hi) as [? _].
Qed.

Lemma set_rule_ok c b n q : tree c -> tree (put_bearer c b (set_rule (bearer c b) n q)) /\ keeps c (put_bearer c b (set_rule (bearer c b) n q)).
Proof.
  intros []. split; [|done]. constructor; cbn; try done; [by apply linked_put_child|by apply linked_put_parent..].
Qed.

Lemma set_default_qos_ok c s q l a v : sessions c -> tree (set_default_qos c s q l a v) /\ alike c (set_default_qos c s q l a v).
Proof.
  intros S. split.
  - destruct (ss_tree _ S). constructor; cbn; try done. by apply linked_put_parent.
  - constructor; try done; [|exact (no_nil_key c S)]. intros y _. unfold set_default_qos, sess. cbn. rewrite node_put.
    case_decide; [by subst|done].
Qed.

(** ** What the gateway does with its contexts *)

(** The handlers act on contexts that are in use.  There is no step that ends a UE:
    the gateway has no function for it.  That what is added to or deleted is in use is
    assumed here and not checked by the code: the handlers look a context up by the
    index in the message, and [index_find] gives a free one as well as another
    ([deleted_twice]). *)
Inductive step : ctx P -> ctx P -> Prop :=
| step_ue c imsi r c' : spgw_ue_add_by_message c imsi = Some (r, c') -> step c c'
| step_create c u apn t e r c' : in_use (ues c) u -> create_session c u apn t e = (r, c') -> step c c'
| step_delete c s : in_use (sesss c) s -> step c (spgw_sess_remove c s)
| step_sgw_bearer c s r c' : in_use (sesss c) s -> sgw_bearer_add c s = (r, c') -> step c c'
| step_pgw_bearer c s r c' : in_use (sesss c) s -> pgw_bearer_add c s = (r, c') -> step c c'
| step_sgw_bearer_remove c b : in_use (bearers c) b -> step c (sgw_bearer_remove c b)
| step_pgw_bearer_remove c b : in_use (bearers c) b -> step c (pgw_bearer_remove c b)
| step_tunnel c b t r c' : in_use (bearers c) b -> sgw_tunnel_add c b t = (r, c') -> step c c'
| step_tunnel_remove c t : in_use (tunnels c) t -> step c (sgw_tunnel_remove c t)
| step_rule c b n q : step c (put_bearer c b (set_rule (bearer c b) n q))
| step_qos c s q l a v : step c (set_default_qos c s q l a v)
| step_ebi c b e : step c (put_bearer c b (set_ebi (bearer c b) e))
| step_pf c b (d : Z) rule r c' : in_use (bearers c) b -> pgw_pf_add c b d rule = (r, c') -> step c c'
| step_pf_remove_all c b : in_use (bearers c) b -> step c (pgw_pf_remove_all c b).

Definition unused {X} (s : store P X) : Prop := ok s /\ forall i, ~ in_use s i.

(** [spgw_context_init], and the subnets that [pgw_ue_pool_generate] has filled. *)
Definition initial c : Prop :=
  unused (ues c) /\ unused (sesss c) /\ unused (bearers c) /\ unused (tunnels c) /\ unused (pfs c) /\
  sess_hash c = ∅ /\ imsi_ue_hash c = ∅ /\
  Forall (fun sn => NoDup (UePool.ips sn) /\ UePool.pool sn = pool_init (seq 0 (length (UePool.ips sn)))) (subnets c).

Definition reachable c : Prop := exists c0, initial c0 /\ rtc step c0 c.

Lemma linked_unused {X Y} `{!Inhabited X} `{!Inhabited Y} (kids : X -> list nat) (owner : Y -> nat) (xs : store P X) (ys : store P Y) :
  unused xs -> linked kids owner xs ys.
Proof. intros [_ H] i Hi. by apply H in Hi. Qed.

Lemma pool_init_queue (ns : list nat) : queue (pool_init ns) = ns.
Proof. destruct ns as [|n ns]; [done|]. apply repr_queue, repr_init. cbn. lia. Qed.

Lemma sessions_initial c : initial c -> sessions c.
Proof.
  intros (Hu & Hs & Hb & Ht & Hp & Eh & Ei & Hn). constructor.
  - constructor; [apply Hs|apply Hb|apply Ht|apply Hp|by apply linked_unused..].
  - apply Hu.
  - by apply linked_unused.
  - intros s H. by apply Hs in H.
  - apply (Forall_impl _ _ _ Hn). intros sn [N E]. by apply subnet_ok_init.
  - intros s H. by apply Hs in H.
  - intros x. split; [|by intros (s & H%Hs & _)]. intros (sn & Hk & [Hi Hf]). exfalso. apply Hf.
    rewrite Forall_lookup in Hn. destruct (Hn _ _ Hk) as [_ E]. rewrite E in Hi |- *.
    change (snd x ∈ queue (pool_init (seq 0 (length (UePool.ips sn))))). rewrite pool_init_queue. exact Hi.
  - intros s s' x H. by apply Hs in H.
  - intros s H. by apply Hs in H.
  - intros s H. by apply Hs in H.
  - intros k s. by rewrite Eh, lookup_empty.
  - intros u H. by apply Hu in H.
  - intros k u. by rewrite Ei, lookup_empty.
Qed.

Lemma sessions_step c c' : sessions c -> step c c' -> sessions c'.
Proof.
  intros S. pose proof (ss_tree _ S) as T.
  destruct 1 as [c imsi r c' E|c u apn t e r c' H E|c s H|c s r c' H E|c s r c' H E|c b H|c b H|c b t r c' H E|c t H
    |c b n q|c s q l a v|c b e|c b d rule r c' H E|c b H].
  - by apply (spgw_ue_add_by_message_ok c imsi r).
  - by apply (create_session_ok c u apn t e r).
  - destruct (spgw_sess_remove_ok c s S H) as [R _]. by apply (sessions_removed c _ s).
  - destruct (sgw_bearer_add_ok c s r c' T H E) as (T' & K & _). by apply (sessions_keeps c).
  - destruct (pgw_bearer_add_ok c s r c' T H E) as (T' & K & _). by apply (sessions_keeps c).
  - destruct (sgw_bearer_remove_ok c b T H) as (T' & K & _). by apply (sessions_keeps c).
  - destruct (pgw_bearer_remove_ok c b T H) as (T' & K & _). by apply (sessions_keeps c).
  - destruct (sgw_tunnel_add_ok c b t r c' T H E) as (T' & K & _). apply (sessions_keeps c); [done..|apply K].
  - destruct (tunnel_remove_ok c t T H) as (T' & K & _). apply (sessions_keeps c); [done..|apply K].
  - destruct (set_rule_ok c b n q T) as [T' K]. by apply (sessions_keeps c).
  - destruct (set_default_qos_ok c s q l a v S) as [T' K]. by apply (sessions_alike c).
  - destruct (set_ebi_ok c b e T) as [T' K]. by apply (sessions_keeps c).
  - destruct (pgw_pf_add_ok c b d rule r c' T H E) as [T' K]. by apply (sessions_keeps c).
  - destruct (pf_remove_all_ok c b T H) as (T' & K & _). apply (sessions_keeps c); [done..|apply K].
Qed.

Lemma sessions_reachable c : reachable c -> sessions c.
Proof.
  intros (c0 & H & R). apply sessions_initial in H. induction R as [|c1 c2 c3 St R IH]; [done|].
  apply IH. by apply (sessions_step c1).
Qed.

(** ** Creating and deleting a session *)

Lemma assign_address_rest c s t apn b c' : assign_address c s t apn = (b, c') ->
  bearers c' = bearers c /\ tunnels c' = tunnels c /\ pfs c' = pfs c /\ bearer_list (sess c' s) = bearer_list (sess c s).
Proof.
  assert (forall d x, sesss d = sesss c -> bearer_list x = bearer_list (sess c s) ->
    bearer_list (sess (put_sess d s x) s) = bearer_list (sess c s)) as Hp.
  { intros d x _ <-. unfold sess. cbn. by rewrite node_put_eq. }
  unfold assign_address, ue_ip_alloc. intros H.
  repeat case_match; simplify_eq; (split_and!; [done..|by apply Hp]).
Qed.

(** The default bearer of a new session and its two tunnels. *)
Lemma spgw_sess_add_bearer c u apn t e s c' : sessions c -> spgw_sess_add c u apn t e = (Some s, c') ->
  pfs c' = pfs c /\ exists c1 b i j, bearer_added c1 c' s b [i; j] /\
    bearers c1 = bearers c /\ tunnels c1 = tunnels c /\ bearer_list (sess c1 s) = [].
Proof.
  intros S. unfold spgw_sess_add. case_decide as He; [done|].
  destruct (new (sesss c) (fresh_sess c u apn)) as [[s'|] y] eqn:E; [|done].
  destruct (new_sess_ok c u apn s' y (ss_tree _ S) E) as [B1 _]. set (c1 := set_s5c_teids (set_sesss c y) s') in *.
  assert (bearer_list (sess c1 s') = []) as E1.
  { unfold c1, set_s5c_teids, sess, put_sess. cbn [sesss set_sesss]. rewrite node_put_eq. cbn.
    destruct (new_some _ _ _ _ (tr_sesss _ (ss_tree _ S)) E) as (_ & _ & _ & Hc). by rewrite Hc, decide_True. }
  assert (in_use (sesss c1) s') as Hs1 by (apply (bg_in_use _ _ _ _ B1); by left).
  destruct (spgw_bearer_add c1 s') as [[b|] c2] eqn:E2; [|done].
  destruct (spgw_bearer_add_ok _ _ _ _ (bg_tree _ _ _ _ B1) Hs1 E2) as (_ & _ & P2 & i & j & Ad).
  set (c3 := put_bearer c2 b (set_ebi (bearer c2 b) e)) in *.
  destruct (assign_address c3 s' t apn) as [[] c4] eqn:E4; [|done]. intros [= <- <-].
  destruct (assign_address_rest _ _ _ _ _ _ E4) as (F1 & F2 & F3 & F4).
  split; [cbn; by rewrite F3|]. exists c1, b, i, j. split_and!; [|done..]. destruct Ad. constructor; try done.
  - intros z. cbn. rewrite F1. apply ba_in_use0.
  - rewrite <- ba_list0, <- (F4 : _ = bearer_list (sess c2 s')). unfold sess. cbn. by rewrite node_put_eq.
  - unfold bearer. cbn. rewrite F1. cbn. by rewrite node_put_eq.
  - unfold bearer. cbn. rewrite F1. cbn. by rewrite node_put_eq.
  - unfold bearer. cbn. rewrite F1. cbn. by rewrite node_put_eq.
  - intros z. cbn. rewrite F2. apply ba_tunnels_in_use0.
Qed.

(** The removal of a session with one bearer. *)
Lemma spgw_sess_remove_single c s b : sessions c -> in_use (sesss c) s -> bearer_list (sess c s) = [b] ->
  pfs (spgw_sess_remove c s) = pfs c /\
  forall y, in_use (tunnels (spgw_sess_remove c s)) y <-> (y ∉ tunnel_list (bearer c b)) /\ in_use (tunnels c) y.
Proof.
  intros S Hs E. destruct (retire_fields c s) as (E1 & E2 & E3 & E4 & _).
  assert (bearer_list (sess (retire c s) s) = [b]) as Eb by (unfold sess; by rewrite E1).
  assert (tree (retire c s)) as T by exact (tree_same c _ (ss_tree _ S) E1 E2 E3 E4).
  destruct (tr_bearer_list _ (ss_tree _ S) s Hs) as [_ C]. destruct (C b) as [Hb _].
  { change (b ∈ bearer_list (sess c s)). rewrite E. by left. }
  destruct (sgw_bearer_remove_ok (retire c s) b T) as (_ & _ & _ & P1 & _ & U1); [by rewrite E2|].
  destruct (sgw_bearer_remove_all_ok (retire c s) s T) as (_ & _ & L & _); [by rewrite E1|].
  change (spgw_sess_remove c s) with (set_sesss (pgw_bearer_remove_all (sgw_bearer_remove_all (retire c s) s) s)
    (free (sesss (pgw_bearer_remove_all (sgw_bearer_remove_all (retire c s) s) s)) s)).
  unfold pgw_bearer_remove_all. rewrite L. cbn [foldl]. unfold sgw_bearer_remove_all. rewrite Eb. cbn [foldl].
  set (d := sgw_bearer_remove (retire c s) b) in *. clearbody d. cbn [pfs tunnels set_sesss].
  split; [by rewrite P1|]. intros y. rewrite U1, E3. unfold bearer. by rewrite E2.
Qed.

Lemma back {U : nat -> Prop} y x : ~ U x -> y <> x /\ (y = x \/ U y) <-> U y.
Proof. intros H. split; [by intros [? [?|?]]|]. intros Hy. split; [by intros ->|by right]. Qed.

Lemma address_back c c' s u x y : sessions c -> sessions c' -> added c c' s u x -> in_use (sesss c') s ->
  removed c' (spgw_sess_remove c' s) s -> taken (subnets (spgw_sess_remove c' s)) y <-> taken (subnets c) y.
Proof.
  intros S S' Ad Hs Rm. destruct (release_addresses c' s S' Hs) as (_ & Ht & _).
  rewrite (rm_subnets _ _ _ Rm), Ht, (added_holds c c' s u x Ad), decide_True by done.
  destruct (ad_subnets _ _ _ _ _ Ad) as (_ & _ & Ht' & Hn & _). rewrite Ht'. unfold holds. specialize (Hn y). tauto.
Qed.

Lemma ue_back c c' s u x v : sessions c -> in_use (ues c) u -> added c c' s u x ->
  (if decide (v = s_ue (sess c' s)) then
     set_sess_list (if decide (v = u) then set_sess_list (ue c u) (sess_list (ue c u) ++ [s]) else ue c v)
       (list_remove (sess_list (if decide (v = u) then set_sess_list (ue c u) (sess_list (ue c u) ++ [s]) else ue c v)) s)
   else if decide (v = u) then set_sess_list (ue c u) (sess_list (ue c u) ++ [s]) else ue c v) = ue c v.
Proof.
  intros S Hu Ad. rewrite (added_sess c c' s u x Ad _ s_ue), (decide_True (P := s = s)), (ad_owner _ _ _ _ _ Ad) by done.
  destruct (decide (v = u)) as [->|]; [|done]. cbn.
  assert (s ∉ sess_list (ue c u)) as Hn.
  { intros Hi. destruct (ss_list _ S u Hu) as [_ C]. destruct (C s Hi) as [? _]. by apply (ad_new _ _ _ _ _ Ad). }
  unfold list_remove. rewrite filter_app, filter_cons_False, filter_nil, app_nil_r by (by intros H; apply H).
  fold (list_remove (sess_list (ue c u)) s). rewrite remove_absent by done. by destruct (ue c u).
Qed.

(** C21: session round trip.  In every state that the gateway reaches, a session that
    [spgw_sess_add] has created, for any PDN type, is given back entirely by
    [spgw_sess_remove]: the sessions, bearers, tunnels and packet filters in use, the
    addresses that are taken and every UE with its list of sessions are those of the state
    before; only the key of the session may be gone from the hash. *)
Theorem session_roundtrip c u apn t e s c' :
  reachable c -> in_use (ues c) u -> spgw_sess_add c u apn t e = (Some s, c') ->
  let c'' := spgw_sess_remove c' s in
  (forall i, in_use (sesss c'') i <-> in_use (sesss c) i) /\
  (forall i, in_use (bearers c'') i <-> in_use (bearers c) i) /\
  (forall i, in_use (tunnels c'') i <-> in_use (tunnels c) i) /\
  pfs c'' = pfs c /\
  (forall x, taken (subnets c'') x <-> taken (subnets c) x) /\
  (forall v, ue c'' v = ue c v) /\
  sess_hash c'' = delete (sess_hash_keygen (ue_imsi (ue c u)) apn) (sess_hash c).
Proof.
  intros R Hu E c''. apply sessions_reachable in R as S.
  destruct (spgw_sess_add_ok c u apn t e _ _ S Hu E) as [S' (x & Ad & Ek)].
  destruct (spgw_sess_add_bearer c u apn t e s c' S E) as (Ep & c1 & b & i & j & B & E1 & E2 & E3).
  assert (in_use (sesss c') s) as Hs by (apply (ad_in_use _ _ _ _ _ Ad); by left).
  destruct (spgw_sess_remove_ok c' s S' Hs) as (Rm & _ & Ub). fold c'' in Rm, Ub.
  pose proof (ba_list _ _ _ _ _ B) as Eb. rewrite E3 in Eb. cbn in Eb.
  destruct (spgw_sess_remove_single c' s b S' Hs Eb) as [Pp Ut]. fold c'' in Pp, Ut.
  split_and!.
  - intros y. rewrite (rm_sesss _ _ _ Rm), (ad_in_use _ _ _ _ _ Ad). apply (back y s), (ad_new _ _ _ _ _ Ad).
  - intros y. rewrite Ub, Eb, list_elem_of_singleton, (ba_in_use _ _ _ _ _ B), E1. apply (back y b).
    rewrite <- E1. apply (ba_new _ _ _ _ _ B).
  - intros y. rewrite Ut, (ba_tunnels _ _ _ _ _ B), (ba_tunnels_in_use _ _ _ _ _ B), E2.
    destruct (ba_fresh _ _ _ _ _ B) as [_ F]. rewrite E2 in F. specialize (F y). tauto.
  - by rewrite Pp.
  - intros y. exact (address_back c c' s u x y S S' Ad Hs Rm).
  - intros v. rewrite (rm_ue _ _ _ Rm), (ad_ue _ _ _ _ _ Ad). exact (ue_back c c' s u x v S Hu Ad).
  - rewrite (rm_hash _ _ _ Rm), (ad_hash _ _ _ _ _ Ad), <- Ek. rewrite (added_sess c c' s u x Ad _ hash_key), decide_True by done.
    apply delete_insert_eq.
Qed.

(** C20: session state.  In every state that the gateway reaches by creating UEs, which
    it never deletes, and by creating and deleting sessions, bearers, tunnels and packet
    filters in any order, as long as what is added to or deleted is in use at the time, an
    address is taken exactly when a session in use holds it; two sessions never hold the
    same address, in the pool or, within a subnet, as octets; what the hashes and the lists
    lead to is in use, points back to what it was reached from, and a UE is found by its
    IMSI exactly when it exists.  That what is deleted is in use is not checked by the
    code: after two deletions of one session two others hold one address
    ([deleted_twice]). *)
Theorem sessions_safe c : reachable c ->
  (forall x, taken (subnets c) x <-> exists s, in_use (sesss c) s /\ holds (sess c s) x) /\
  (forall s s' x x', in_use (sesss c) s -> in_use (sesss c) s' -> s <> s' -> holds (sess c s) x -> holds (sess c s') x' ->
     x <> x' /\ (fst x = fst x' -> UePool.ip_addr (subnets c) x <> UePool.ip_addr (subnets c) x')) /\
  (forall imsi apn s, pgw_sess_find_by_imsi_apn c imsi apn = Some s ->
     in_use (sesss c) s /\ hash_key (sess c s) = sess_hash_keygen imsi apn) /\
  (forall u s b, in_use (ues c) u -> s ∈ sess_list (ue c u) -> b ∈ bearer_list (sess c s) ->
     in_use (sesss c) s /\ s_ue (sess c s) = u /\ in_use (bearers c) b /\ b_sess (bearer c b) = s /\
     (forall t, t ∈ tunnel_list (bearer c b) -> in_use (tunnels c) t /\ t_bearer (tunnel c t) = b) /\
     (forall x, x ∈ pf_list (bearer c b) -> in_use (pfs c) x /\ pf_bearer (pf c x) = b)) /\
  (forall imsi u, sgw_ue_find_by_imsi c imsi = Some u <-> in_use (ues c) u /\ ue_imsi (ue c u) = imsi).
Proof.
  intros S%sessions_reachable. pose proof (ss_tree _ S) as T. split_and!.
  - apply S.
  - intros s s' [k i] [k' i'] Hs Hs' Hn Hx Hx'.
    assert ((k, i) <> (k', i')) as Hne by (intros E; rewrite E in Hx; by apply Hn, (ss_unique _ S s s' (k', i'))).
    split; [exact Hne|]. cbn [fst]. intros -> Ea. apply Hne. f_equal.
    apply (taken_addr (subnets c) k' i i' (ss_subnets _ S)); [by apply S; eauto..|exact Ea].
  - intros imsi apn s. apply S.
  - intros u s b Hu Hs Hb. destruct (ss_list _ S u Hu) as [_ C]. destruct (C s Hs) as [Us Es].
    destruct (tr_bearer_list _ T s Us) as [_ C']. destruct (C' b Hb) as [Ub Eb]. split_and!; [done..| |].
    + apply (tr_tunnel_list _ T b Ub).
    + apply (tr_pf_list _ T b Ub).
  - intros imsi u. unfold sgw_ue_find_by_imsi. case_decide as D.
    + split; [done|]. intros [Hu E]. destruct (ss_imsi _ S u Hu) as [N _]. congruence.
    + split; [apply S|]. intros [Hu <-]. by apply S.
Qed.

End sessions.

(** ** A small gateway *)

#[export] Instance in_use_dec {P X} {A : Allocator P nat} (s : store P X) i : Decision (in_use s i).
Proof. apply used_dec. Defined.

Section sample.

(** Four contexts of each kind, and two addresses. *)
Definition sample_store {X} : store (Pool.pool nat) X := mkStore (pool_init [1%nat; 2%nat; 3%nat; 4%nat]) ∅.
Definition sample_net : UePool.ipsubnet_t := UePool.mkIpsubnet UePool.AF_INET [10; 45; 0; 0] (replicate 16 0).
Definition sample_subnet : UePool.pgw_subnet_t :=
  UePool.mkSubnet sample_net sample_net [] 24 [[10; 45; 0; 2]; [10; 45; 0; 3]] (pool_init [0%nat; 1%nat]).
Definition sample0 : ctx (Pool.pool nat) :=
  mkCtx sample_store sample_store sample_store sample_store sample_store [sample_subnet] [] ∅ ∅.

Lemma sample_store_unused {X} : unused (@sample_store X).
Proof.
  split; [apply pool_ok_init; [cbn; lia|by_decide]|]. intros i [H1 H2]. apply H2. exact H1.
Qed.

Lemma sample_initial0 : initial sample0.
Proof.
  split_and!; [apply sample_store_unused..|done|done|]. constructor; [|constructor]. split; [by_decide|done].
Qed.

Definition imsi1 : list Z := [1; 2; 3].
Definition imsi2 : list Z := [1; 2; 4].
Definition internet : list Z := [105].
Definition sample1 : ctx (Pool.pool nat) := default sample0 (snd <$> spgw_ue_add_by_message sample0 (Some imsi1)).
Definition sample2 : ctx (Pool.pool nat) := default sample1 (snd <$> spgw_ue_add_by_message sample1 (Some imsi2)).
Definition sample3 : ctx (Pool.pool nat) := snd (create_session sample2 1 internet GTP_PDN_TYPE_IPV4 5).
Definition sample4 : ctx (Pool.pool nat) := snd (create_session sample3 2 internet GTP_PDN_TYPE_IPV4 5).

Lemma sample_reachable2 : reachable sample2.
Proof.
  exists sample0. split; [exact sample_initial0|].
  eapply rtc_l; [apply (step_ue _ (Some imsi1) (Some 1%nat) sample1); reflexivity|].
  eapply rtc_l; [apply (step_ue _ (Some imsi2) (Some 2%nat) sample2); reflexivity|]. apply rtc_refl.
Qed.

Lemma step_created {P} {A : Allocator P nat} (c : ctx P) u apn t e : in_use (ues c) u -> step c (snd (create_session c u apn t e)).
Proof. intros Hu. eapply step_create; [exact Hu|apply surjective_pairing]. Qed.

Lemma sample_reachable4 : reachable sample4.
Proof.
  destruct sample_reachable2 as (c0 & H & R). exists c0. split; [exact H|].
  eapply rtc_r; [eapply rtc_r; [exact R|]|].
  - apply (step_created sample2 1 internet GTP_PDN_TYPE_IPV4 5). by_decide.
  - apply (step_created sample3 2 internet GTP_PDN_TYPE_IPV4 5). by_decide.
Qed.

Lemma sample3_eq : spgw_sess_add sample2 1 internet GTP_PDN_TYPE_IPV4 5 = (Some 1%nat, sample3).
Proof.
  unfold sample3, create_session. assert (sgw_sess_find_by_ebi sample2 1 5 = None) as -> by (vm_compute; reflexivity).
  assert (fst (spgw_sess_add sample2 1 internet GTP_PDN_TYPE_IPV4 5) = Some 1%nat) as <- by (vm_compute; reflexivity).
  apply surjective_pairing.
Qed.

Lemma session_roundtrip_witness :
  in_use (bearers sample3) 1 /\ in_use (tunnels sample3) 2 /\ taken (subnets sample3) (0, 0)%nat /\
  ~ in_use (bearers (spgw_sess_remove sample3 1)) 1 /\ ~ in_use (tunnels (spgw_sess_remove sample3 1)) 2 /\
  ~ taken (subnets (spgw_sess_remove sample3 1)) (0, 0)%nat.
Proof.
  destruct (session_roundtrip sample2 1 internet GTP_PDN_TYPE_IPV4 5 1 sample3 sample_reachable2 ltac:(by_decide) sample3_eq)
    as (_ & B & T & _ & A & _).
  split; [by_decide|]. split; [by_decide|]. split; [by_decide|].
  split; [intros H%B; revert H; by_decide|]. split; [intros H%T; revert H; by_decide|intros H%A; revert H; by_decide].
Defined.

Lemma sessions_safe_witness :
  holds (sess sample4 1) (0, 0)%nat /\ holds (sess sample4 2) (0, 1)%nat /\
  UePool.ip_addr (subnets sample4) (0, 0)%nat <> UePool.ip_addr (subnets sample4) (0, 1)%nat.
Proof.
  destruct (sessions_safe sample4 sample_reachable4) as (_ & U & _).
  assert (holds (sess sample4 1) (0, 0)%nat) as H1 by (left; reflexivity).
  assert (holds (sess sample4 2) (0, 1)%nat) as H2 by (left; reflexivity).
  split; [exact H1|]. split; [exact H2|].
  apply (U 1%nat 2%nat (0, 0)%nat (0, 1)%nat ltac:(by_decide) ltac:(by_decide) ltac:(done) H1 H2). reflexivity.
Defined.

(** ** What the invariant does not cover *)

(** An address that is given back twice is handed out twice. *)
Lemma freed_twice :
  let alloc l := UePool.pgw_ue_ip_alloc l UePool.AF_INET [] in
  let full := snd (alloc (snd (alloc [sample_subnet]))) in
  let l := UePool.pgw_ue_ip_free (UePool.pgw_ue_ip_free full (0, 0)%nat) (0, 0)%nat in
  fst (alloc full) = None /\ fst (alloc l) = Some (0, 0)%nat /\ fst (alloc (snd (alloc l))) = Some (0, 0)%nat.
Proof. vm_compute. done. Qed.

(** A session that is deleted twice, while another one is there: the two sessions that
    are made next, for two UEs, are both given its address.  There are eight tunnels. *)
Lemma deleted_twice :
  let attach i c := default c (snd <$> spgw_ue_add_by_message c (Some i)) in
  let session u e c := snd (create_session c u internet GTP_PDN_TYPE_IPV4 e) in
  let tunnels8 := mkStore (pool_init [1; 2; 3; 4; 5; 6; 7; 8]%nat) ∅ in
  let c := mkCtx sample_store sample_store sample_store tunnels8 sample_store [sample_subnet] [] ∅ ∅ in
  let c := session 2%nat 5 (session 1%nat 5 (attach imsi2 (attach imsi1 c))) in
  let c := session 2%nat 6 (session 1%nat 6 (spgw_sess_remove (spgw_sess_remove c 1) 1)) in
  sess_list (ue c 1) = [3%nat] /\ sess_list (ue c 2) = [2; 4]%nat /\
  holds (sess c 3) (0, 0)%nat /\ holds (sess c 4) (0, 0)%nat.
Proof. vm_compute. split_and!; [done|done|by left|by left]. Qed.

(** Two sessions of a UE for one APN share the entry of the hash: when the first is
    deleted, the second is in use but is not found by IMSI and APN any more. *)
Lemma second_session_lost :
  let c := snd (create_session sample3 1 internet GTP_PDN_TYPE_IPV4 6) in
  let c := spgw_sess_remove c 1 in
  in_use (sesss c) 2 /\ s_ue (sess c 2) = 1%nat /\ s_apn (sess c 2) = internet /\
  pgw_sess_find_by_imsi_apn c imsi1 internet = None.
Proof. cbv zeta. by_decide. Qed.

(** A session that gets no address leaves its two tunnels in use. *)
Lemma refused_session_leaks :
  let c := snd (create_session sample3 1 internet GTP_PDN_TYPE_IPV6 6) in
  fst (create_session sample3 1 internet GTP_PDN_TYPE_IPV6 6) = None /\
  (forall t, t ∈ [3; 4]%nat -> ~ in_use (tunnels sample3) t /\ in_use (tunnels c) t).
Proof. cbv zeta. split; [by_decide|]. intros t. rewrite !elem_of_cons, elem_of_nil. intros [-> | [-> | []]]; by_decide. Qed.

End sample.

End SpgwSpec.
