(* ===== verification/SpgwIpfw.v ===== *)
(** [spgw/spgw_ipfw.c]: which bearer a packet for a UE takes. *)

From stdpp Require Import gmap.
From S2P Require Import Prelude Alloc Misc GtpTypes UePool SpgwContext.

Module SpgwIpfw.
Import SpgwContext.

(** What a function that reads a packet comes to: [Outside], the packet is left, or a null
    pointer followed; [Unfinished], the fuel is used up. *)
Inductive result (X : Type) := Returns (x : X) | Outside | Unfinished.
#[global] Arguments Returns {X}.
#[global] Arguments Outside {X}.
#[global] Arguments Unfinished {X}.

#[export] Instance result_ret : MRet result := @Returns.
#[export] Instance result_bind : MBind result := fun X Y f r =>
  match r with Returns x => f x | Outside => Outside | Unfinished => Unfinished end.

Definition read {X} (x : option X) : result X := match x with Some x => Returns x | None => Outside end.
(** [n] octets at an offset, and numbers in network order. *)
Definition octets (p : list Z) (i n : Z) : result (list Z) :=
  if decide (0 <= i /\ i + n <= Z.of_nat (length p)) then Returns (take (Z.to_nat n) (drop (Z.to_nat i) p)) else Outside.
Definition octet (p : list Z) (i : Z) : result Z := l ← octets p i 1; Returns (be l).
Definition ntohs_at (p : list Z) (i : Z) : result Z := l ← octets p i 2; Returns (be l).
Definition ntohl_at (p : list Z) (i : Z) : result Z := l ← octets p i 4; Returns (be l).

Definition IPPROTO_HOPOPTS : Z := 0.
Definition IPPROTO_TCP : Z := 6.
Definition IPPROTO_UDP : Z := 17.
Definition IPPROTO_ROUTING : Z := 43.
Definition IPPROTO_FRAGMENT : Z := 44.
Definition IPPROTO_AH : Z := 51.
Definition IPPROTO_DSTOPTS : Z := 60.
Definition IP6OPT_JUMBO : Z := 0xc2.
(** [sizeof] of the headers. *)
Definition sizeof_ip6_hdr : Z := 40.
Definition sizeof_ip6_hbh : Z := 2.
Definition sizeof_ip6_opt : Z := 2.
Definition sizeof_ip6_frag : Z := 8.

(** Pointers are offsets from the header. [while (p == endp)]: no result when [nxt] is not 0. *)
Fixpoint jumbo (fuel : nat) (pk : list Z) (nxt p endp jp : Z) : result (option Z) :=
  if decide (p = endp) then
    match fuel with
    | O => Unfinished
    | S fuel =>
        if decide (nxt = 0) then
          jp_len ← ntohl_at pk (jp + 2);
          t ← octet pk jp;
          if decide (t = IP6OPT_JUMBO) then jumbo fuel pk nxt p (p + jp_len) jp
          else if decide (t = 0) then jumbo fuel pk nxt p endp (jp + 1)
          else jumbo fuel pk nxt p endp (jp + (sizeof_ip6_opt + jp_len))
        else Returns None
    end
  else Returns (Some endp).

(** The size of an extension header; no result for what is none. *)
Definition extension (nxt len : Z) : option Z :=
  if decide (nxt ∈ [IPPROTO_HOPOPTS; IPPROTO_ROUTING; IPPROTO_DSTOPTS; 135; 139; 140; 253; 254])
  then Some ((len << 3) + 8)
  else if decide (nxt = IPPROTO_FRAGMENT) then Some sizeof_ip6_frag
  else if decide (nxt = IPPROTO_AH) then Some ((len + 2) << 2)
  else None.

(** [while (p < endp)]: the next header and the offset that are reached. *)
Fixpoint headers (fuel : nat) (pk : list Z) (nxt p endp : Z) : result (Z * Z) :=
  if decide (p < endp) then
    match extension nxt 0 with
    | None => Returns (nxt, p)
    | Some _ =>
        match fuel with
        | O => Unfinished
        | S fuel =>
            len ← (if decide (nxt = IPPROTO_FRAGMENT) then Returns 0 else octet pk (p + 1));
            n ← octet pk p;
            headers fuel pk n (p + default 0 (extension nxt len)) endp
        end
    end
  else Returns (nxt, p).

(** [None]: an error, with nothing stored. *)
Definition decode_ipv6_header (fuel : nat) (pk : list Z) : result (option (Z * Z)) :=
  nxt ← octet pk 6;
  plen ← ntohs_at pk 4;
  let p := sizeof_ip6_hdr in
  endp ← jumbo fuel pk nxt p (p + plen) (p + sizeof_ip6_hbh);
  match endp with
  | None => Returns None
  | Some endp => '(nxt, p) ← headers fuel pk nxt p endp; Returns (Some (nxt, u16 p))
  end.

(** ** Packet filters *)

(** The addresses, of [addr_len] octets; [None]: the pointers are null.  The words of
    [src_addr] and [dst_addr] beyond, which are masked and not compared, are left out. *)
Record parsed := mkParsed { addrs : option (list Z * list Z); addr_len : nat; ip_proto : Z; ip_hlen : Z }.

Definition parse_packet (fuel : nat) (pk : list Z) : result parsed :=
  v ← octet pk 0;
  if decide (v >> 4 = 4) then
    proto ← octet pk 9; src ← octets pk 12 4; dst ← octets pk 16 4;
    Returns (mkParsed (Some (src, dst)) 4 proto ((v .& 0xf) * 4))
  else if decide (v >> 4 = 6) then
    d ← decode_ipv6_header fuel pk; src ← octets pk 8 16; dst ← octets pk 24 16;
    let '(proto, hlen) := default (0, 0) d in
    Returns (mkParsed (Some (src, dst)) 16 proto hlen)
  else Returns (mkParsed None 0 0 0).

(** [low && port < low || high && port > high]: the port is read when it is needed. *)
Definition port_out (pk : list Z) (i low high : Z) : result bool :=
  below ← (if decide (low = 0) then Returns false else x ← ntohs_at pk i; Returns (bool_decide (x < low)));
  if (below : bool) then Returns true
  else if decide (high = 0) then Returns false else x ← ntohs_at pk i; Returns (bool_decide (high < x)).

Definition ports_match (pk : list Z) (i : Z) (r : GtpTypes.pgw_rule_t) : result bool :=
  out ← port_out pk i (GtpTypes.local_low r) (GtpTypes.local_high r);
  if (out : bool) then Returns false
  else out ← port_out pk (i + 2) (GtpTypes.remote_low r) (GtpTypes.remote_high r); Returns (negb out).

(** One filter, from [pf->direction != 1] on. *)
Definition pf_matches (pk : list Z) (h : parsed) (x : GtpTypes.packet_filter) : result bool :=
  let r := GtpTypes.rule x in
  if decide (GtpTypes.direction x <> 1) then Returns false
  else
    '(src, dst) ← read (addrs h);
    let n := addr_len h in
    if decide (zip_with Z.land src (take n (GtpTypes.local_mask r)) = take n (GtpTypes.local_addr r) /\
               zip_with Z.land dst (take n (GtpTypes.remote_mask r)) = take n (GtpTypes.remote_addr r)) then
      if decide (GtpTypes.proto r = 0) then Returns true
      else if decide (GtpTypes.proto r = ip_proto h) then
        if decide (GtpTypes.proto r = IPPROTO_TCP \/ GtpTypes.proto r = IPPROTO_UDP)
        then ports_match pk (ip_hlen h) r else Returns true
      else Returns false
    else Returns false.

(** The first element for which [f] gives [true]. *)
Fixpoint find_first {X} (f : X -> result bool) (l : list X) : result (option X) :=
  match l with
  | [] => Returns None
  | x :: l => b ← f x; if (b : bool) then Returns (Some x) else find_first f l
  end.

Section classify.
Context {P : Type}.

Definition find_pf (c : ctx P) (pk : list Z) (h : parsed) (b : nat) : result (option nat) :=
  find_first (fun x => pf_matches pk h (filter (pf c x))) (pf_list (bearer c b)).

(** The loop on the bearers after the default one. *)
Fixpoint find_bearer (c : ctx P) (pk : list Z) (h : parsed) (l : list nat) : result (option nat) :=
  match l with
  | [] => Returns None
  | b :: l =>
      if decide (ebi (bearer c b) = 0) then find_bearer c pk h l
      else
        x ← find_pf c pk h b;
        match x with Some x => Returns (Some (pf_bearer (pf c x))) | None => find_bearer c pk h l end
  end.

(** [memcmp(dst_addr, addr, addr_len) == 0]; nothing is read of no octets. *)
Definition has_address (c : ctx P) (h : parsed) (a : option ip) : Prop :=
  match a with
  | Some a => take (addr_len h) (ip_octets c a) = default [] (snd <$> addrs h)
  | None => False
  end.
#[global] Instance has_address_dec c h a : Decision (has_address c h a).
Proof. unfold has_address. destruct a; apply _. Defined.

(** The bearer in the session [s]; the statistics of the flow read the address. *)
Definition bearer_in_session (c : ctx P) (pk : list Z) (h : parsed) (s : nat) : result (option nat) :=
  match bearer_list (sess c s) with
  | [] => Returns None
  | d :: l =>
      _ ← (if decide (has_address c h (ipv4 (sess c s))) then read (addrs h) else Returns ([], []));
      b ← find_bearer c pk h l;
      Returns (Some (default d b))
  end.

Fixpoint find_session (c : ctx P) (pk : list Z) (h : parsed) (ss : list nat) : result (option nat) :=
  match ss with
  | [] => Returns None
  | s :: ss =>
      if decide (has_address c h (ipv4 (sess c s)) \/ has_address c h (ipv6 (sess c s)))
      then bearer_in_session c pk h s
      else find_session c pk h ss
  end.

(** [ss]: the sessions of [sess_hash], in the order of [hash_first] and [hash_next]. *)
Definition pgw_bearer_find_by_packet (fuel : nat) (c : ctx P) (ss : list nat) (pk : list Z) : result (option nat) :=
  h ← parse_packet fuel pk; find_session c pk h ss.

End classify.

End SpgwIpfw.
