(* ===== verification/SpgwIpfwSpec.v ===== *)
(** The bearer that [SpgwIpfw] gives a packet is the first one with a filter for its
    flow; how the headers of IPv6 are passed over. *)

From stdpp Require Import gmap.
From S2P Require Import Prelude Alloc Pool Misc GtpTypes UePool UePoolSpec SpgwContext SpgwInv SpgwSess SpgwSpec SpgwIpfw.

Module SpgwIpfwSpec.
Import Pool UePoolSpec SpgwContext SpgwInv SpgwSpec SpgwIpfw.

(** ** Flows *)

(** What a filter looks at: the addresses, the protocol and the ports. *)
Record flow := mkFlow { f_src : list Z; f_dst : list Z; f_proto : Z; f_sport : Z; f_dport : Z }.

Record flow_ok (n : nat) (f : flow) : Prop := {
  fo_src : bytes (f_src f) /\ length (f_src f) = n; fo_dst : bytes (f_dst f) /\ length (f_dst f) = n;
  fo_ports : inw 16 (f_sport f) /\ inw 16 (f_dport f) }.

Definition with_ports (proto : Z) : Prop := proto = IPPROTO_TCP \/ proto = IPPROTO_UDP.
#[export] Instance with_ports_dec p : Decision (with_ports p).
Proof. unfold with_ports. apply _. Defined.

(** The address [a] is in the network of [net] with a prefix of [b] bits. *)
Definition in_network (b : nat) (net a : list Z) : Prop :=
  be a / 2 ^ (8 * Z.of_nat (length a) - Z.of_nat b) = be net / 2 ^ (8 * Z.of_nat (length a) - Z.of_nat b).
(** The bound 0 is none. *)
Definition in_range (low high x : Z) : Prop := low <= x /\ (high = 0 \/ x <= high).

(** The rule has a prefix of [lb] bits for the remote end, of [rb] for the UE. *)
Record prefixes (n : nat) (r : GtpTypes.pgw_rule_t) (lb rb : nat) : Prop := {
  pr_local : take n (GtpTypes.local_mask r) = pmask n lb /\ (lb <= 8 * n)%nat;
  pr_remote : take n (GtpTypes.remote_mask r) = pmask n rb /\ (rb <= 8 * n)%nat;
  pr_net : bytes (take n (GtpTypes.local_addr r)) /\ length (take n (GtpTypes.local_addr r)) = n /\
    be (take n (GtpTypes.local_addr r)) mod 2 ^ (8 * Z.of_nat n - Z.of_nat lb) = 0;
  pr_ue : bytes (take n (GtpTypes.remote_addr r)) /\ length (take n (GtpTypes.remote_addr r)) = n /\
    be (take n (GtpTypes.remote_addr r)) mod 2 ^ (8 * Z.of_nat n - Z.of_nat rb) = 0 }.

Definition covers (n : nat) (r : GtpTypes.pgw_rule_t) (lb rb : nat) (f : flow) : Prop :=
  in_network lb (take n (GtpTypes.local_addr r)) (f_src f) /\ in_network rb (take n (GtpTypes.remote_addr r)) (f_dst f) /\
  (GtpTypes.proto r = 0 \/
   GtpTypes.proto r = f_proto f /\
   (with_ports (f_proto f) -> in_range (GtpTypes.local_low r) (GtpTypes.local_high r) (f_sport f) /\
                              in_range (GtpTypes.remote_low r) (GtpTypes.remote_high r) (f_dport f))).

Lemma masked_network n b net a : bytes net -> length net = n -> be net mod 2 ^ (8 * Z.of_nat n - Z.of_nat b) = 0 ->
  bytes a -> length a = n -> (b <= 8 * n)%nat ->
  zip_with Z.land a (pmask n b) = net <-> in_network b net a.
Proof.
  intros Hn Ln H0 Ha La Hb. pose proof (be_masked a b Ha ltac:(lia)) as M. cbn zeta in M. rewrite La in M.
  unfold in_network. rewrite La. set (h := 8 * Z.of_nat n - Z.of_nat b) in *.
  assert (0 < 2 ^ h) as Hp by (apply Z.pow_pos_nonneg; lia).
  pose proof (masked_bytes a (pmask n b) Ha) as Hz.
  pose proof (Z.div_mod (be a) (2 ^ h) ltac:(lia)). pose proof (Z.div_mod (be net) (2 ^ h) ltac:(lia)).
  split.
  - intros E. rewrite E in M. nia.
  - intros E. apply be_inj; [done..| |]; [rewrite length_zip_with, length_pmask; lia|]. rewrite M. nia.
Qed.

(** ** Packets *)

(** A packet whose header and ports tell the flow [f]; what [parse_packet] gives for it. *)
Record carries (n : nat) (pk : list Z) (h : parsed) (f : flow) : Prop := {
  ca_addrs : addrs h = Some (f_src f, f_dst f); ca_len : addr_len h = n; ca_proto : ip_proto h = f_proto f;
  ca_ports : with_ports (f_proto f) ->
    ntohs_at pk (ip_hlen h) = Returns (f_sport f) /\ ntohs_at pk (ip_hlen h + 2) = Returns (f_dport f) }.

(** What follows the headers. *)
Definition transport (f : flow) (l : list Z) : Prop :=
  with_ports (f_proto f) -> exists rest, l = to_be 2 (f_sport f) ++ to_be 2 (f_dport f) ++ rest.

Definition ipv4_packet (f : flow) (pk : list Z) : Prop :=
  exists hl fields checksum options rest,
    pk = (64 + hl) :: fields ++ f_proto f :: checksum ++ f_src f ++ f_dst f ++ options ++ rest /\
    5 <= hl <= 15 /\ length fields = 8%nat /\ length checksum = 2%nat /\
    Z.of_nat (length options) = 4 * (hl - 5) /\ transport f rest.

(** Extension headers, from the one of type [k] on, up to the protocol [p]. *)
Inductive extensions : Z -> list Z -> Z -> Prop :=
| extensions_end p : extension p 0 = None -> extensions p [] p
| extensions_cons k next len body l p : extension k 0 <> None -> inw 8 len ->
    Z.of_nat (length (next :: len :: body)) = default 0 (extension k len) ->
    extensions next l p -> extensions k (next :: len :: body ++ l) p.

Definition ipv6_packet (f : flow) (pk : list Z) : Prop :=
  exists first label nxt hop exts rest,
    let payload := exts ++ rest in
    pk = first :: label ++ to_be 2 (Z.of_nat (length payload)) ++ nxt :: hop :: f_src f ++ f_dst f ++ payload /\
    first >> 4 = 6 /\ length label = 3%nat /\ extensions nxt exts (f_proto f) /\
    (0 < length payload)%nat /\ 40 + Z.of_nat (length payload) < 2 ^ 16 /\ transport f rest.

Lemma octets_app l m r pk i n : pk = l ++ m ++ r -> i = Z.of_nat (length l) -> n = Z.of_nat (length m) ->
  octets pk i n = Returns m.
Proof.
  intros -> -> ->. unfold octets. rewrite !length_app, decide_True by lia.
  by rewrite !Nat2Z.id, drop_app_length, take_app_length.
Qed.

Lemma octet_app l x r pk i : pk = l ++ x :: r -> i = Z.of_nat (length l) -> octet pk i = Returns x.
Proof.
  intros E Hi. unfold octet. rewrite (octets_app l [x] r pk i 1) by done. cbn [mbind result_bind be length]. f_equal. lia.
Qed.

Lemma ntohs_app l r pk i x : pk = l ++ to_be 2 x ++ r -> i = Z.of_nat (length l) -> inw 16 x -> ntohs_at pk i = Returns x.
Proof.
  intros E Hi Hx. unfold ntohs_at. rewrite (octets_app l (to_be 2 x) r pk i 2) by (rewrite ?length_to_be; done).
  cbn [mbind result_bind]. rewrite be_to_be. f_equal. by apply Z.mod_small.
Qed.

Lemma transport_ports f l rest pk i : inw 16 (f_sport f) -> inw 16 (f_dport f) -> transport f rest ->
  pk = l ++ rest -> i = Z.of_nat (length l) -> with_ports (f_proto f) ->
  ntohs_at pk i = Returns (f_sport f) /\ ntohs_at pk (i + 2) = Returns (f_dport f).
Proof.
  intros Hs Hd Ht -> -> Hp. destruct (Ht Hp) as [r ->]. split; [by eapply ntohs_app|].
  apply (ntohs_app (l ++ to_be 2 (f_sport f)) r); [by rewrite <- !app_assoc|rewrite length_app, length_to_be; lia|done].
Qed.

Ltac app_eq := repeat (rewrite <- app_assoc || rewrite <- app_comm_cons); reflexivity.
Ltac len_eq := repeat (rewrite length_cons || rewrite length_app); rewrite ?length_to_be; cbn [length]; lia.

Lemma parse_ipv4 fuel f pk : flow_ok 4 f -> ipv4_packet f pk ->
  exists h, parse_packet fuel pk = Returns h /\ carries 4 pk h f.
Proof.
  intros [[Bs Ls] [Bd Ld] [Ps Pd]] (hl & fields & checksum & options & rest & E & Hhl & Lf & Lc & Lo & Ht).
  exists (mkParsed (Some (f_src f, f_dst f)) 4 (f_proto f) (hl * 4)). split.
  - unfold parse_packet. assert (hl ∈ seqZ 5 11) as Hin by (apply elem_of_seqZ; lia).
    assert ((64 + hl) >> 4 = 4 /\ (64 + hl) .& 0xf = hl) as [E1 E2].
    { clear Hhl Lo E. revert hl Hin. apply Forall_forall. by_decide. }
    rewrite (octet_app [] (64 + hl) _ pk 0 E eq_refl). cbn [mbind result_bind]. rewrite E1, decide_True by done.
    rewrite (octet_app ((64 + hl) :: fields) (f_proto f) (checksum ++ f_src f ++ f_dst f ++ options ++ rest) pk 9)
      by first [rewrite E; app_eq|len_eq]. cbn [mbind result_bind].
    rewrite (octets_app ((64 + hl) :: fields ++ f_proto f :: checksum) (f_src f) (f_dst f ++ options ++ rest) pk 12 4)
      by first [rewrite E; app_eq|len_eq]. cbn [mbind result_bind].
    rewrite (octets_app ((64 + hl) :: fields ++ f_proto f :: checksum ++ f_src f) (f_dst f) (options ++ rest) pk 16 4)
      by first [rewrite E; app_eq|len_eq]. cbn [mbind result_bind]. by rewrite E2.
  - constructor; try done. cbn [ip_hlen].
    apply (transport_ports f ((64 + hl) :: fields ++ f_proto f :: checksum ++ f_src f ++ f_dst f ++ options) rest); try done.
    + rewrite E. app_eq.
    + len_eq.
Qed.

(** ** Headers of IPv6 *)

(** The size of a header depends on its length, but whether it is one does not. *)
Lemma extension_some k len : extension k 0 <> None -> exists z, extension k len = Some z /\ (0 <= len -> 8 <= z).
Proof.
  unfold extension. repeat case_decide; intros H'; [..|done]; (eexists; split; [reflexivity|]); intros Hl.
  - rewrite Z.shiftl_mul_pow2 by lia. lia.
  - unfold sizeof_ip6_frag. lia.
  - rewrite Z.shiftl_mul_pow2 by lia. lia.
Qed.

Lemma extension_fragment len : extension IPPROTO_FRAGMENT len = Some sizeof_ip6_frag.
Proof. reflexivity. Qed.

Lemma headers_step fuel pk k p endp next len :
  p < endp -> extension k 0 <> None -> octet pk p = Returns next -> octet pk (p + 1) = Returns len ->
  headers (S fuel) pk k p endp = headers fuel pk next (p + default 0 (extension k len)) endp.
Proof.
  intros Hp Hk Hn Hl. cbn [headers]. rewrite decide_True by done. destruct (extension k 0) eqn:E; [|done].
  case_decide as D.
  - rewrite D, !extension_fragment. cbn [mbind result_bind]. by rewrite Hn.
  - rewrite Hl. cbn [mbind result_bind]. by rewrite Hn.
Qed.

Lemma headers_stop fuel pk p pp endp : extension p 0 = None -> headers fuel pk p pp endp = Returns (p, pp).
Proof. intros E. destruct fuel; cbn [headers]; rewrite E; by case_decide. Qed.

(** The extension headers are passed over. *)
Lemma headers_chain k exts p : extensions k exts p -> forall fuel pk pre rest,
  (length exts <= fuel)%nat -> pk = pre ++ exts ++ rest ->
  headers fuel pk k (Z.of_nat (length pre)) (Z.of_nat (length pre) + Z.of_nat (length (exts ++ rest))) =
    Returns (p, Z.of_nat (length (pre ++ exts))).
Proof.
  induction 1 as [p E|k next len body l p Hk Hlen Hs _ IH]; intros fuel pk pre rest Hf ->.
  - rewrite headers_stop by done. by rewrite app_nil_r.
  - destruct fuel as [|fuel]; [cbn [length] in Hf; lia|].
    rewrite (headers_step _ _ _ _ _ next len); [|len_eq|done| |].
    + rewrite <- Hs. specialize (IH fuel (pre ++ (next :: len :: body ++ l) ++ rest) (pre ++ next :: len :: body) rest).
      replace (Z.of_nat (length pre) + Z.of_nat (length (next :: len :: body)))
        with (Z.of_nat (length (pre ++ next :: len :: body))) by len_eq.
      replace (Z.of_nat (length pre) + Z.of_nat (length ((next :: len :: body ++ l) ++ rest)))
        with (Z.of_nat (length (pre ++ next :: len :: body)) + Z.of_nat (length (l ++ rest))) by len_eq.
      rewrite IH; [do 3 f_equal; len_eq|cbn [length] in Hf; rewrite length_app in Hf; lia|app_eq].
    + apply (octet_app pre next (len :: body ++ l ++ rest)); [app_eq|done].
    + apply (octet_app (pre ++ [next]) len (body ++ l ++ rest)); [app_eq|len_eq].
Qed.

Lemma parse_ipv6 fuel f pk : flow_ok 16 f -> ipv6_packet f pk -> (length pk <= fuel)%nat ->
  exists h, parse_packet fuel pk = Returns h /\ carries 16 pk h f.
Proof.
  intros [[Bs Ls] [Bd Ld] [Ps Pd]] (first & label & nxt & hop & exts & rest & E & Hv & Ll & Hx & H0 & H16 & Ht) Hfuel.
  set (payload := exts ++ rest) in *. set (n := Z.of_nat (length payload)) in *.
  set (pre := first :: label ++ to_be 2 n ++ nxt :: hop :: f_src f ++ f_dst f).
  assert (Z.of_nat (length pre) = 40) as Lp by (unfold pre; len_eq).
  assert (pk = pre ++ exts ++ rest) as E' by (rewrite E; unfold pre; app_eq).
  exists (mkParsed (Some (f_src f, f_dst f)) 16 (f_proto f) (Z.of_nat (length (pre ++ exts)))). split.
  - unfold parse_packet. rewrite (octet_app [] first _ pk 0 E eq_refl). cbn [mbind result_bind].
    rewrite Hv.
    rewrite decide_False by done. rewrite decide_True by done. unfold decode_ipv6_header.
    rewrite (octet_app (first :: label ++ to_be 2 n) nxt (hop :: f_src f ++ f_dst f ++ payload) pk 6)
      by first [rewrite E; app_eq|len_eq]. cbn [mbind result_bind].
    rewrite (ntohs_app (first :: label) (nxt :: hop :: f_src f ++ f_dst f ++ payload) pk 4 n)
      by first [rewrite E; app_eq|len_eq|unfold inw; lia]. cbn [mbind result_bind].
    assert (jumbo fuel pk nxt sizeof_ip6_hdr (sizeof_ip6_hdr + n) (sizeof_ip6_hdr + sizeof_ip6_hbh) =
      Returns (Some (sizeof_ip6_hdr + n))) as -> by (destruct fuel; cbn [jumbo]; rewrite decide_False by lia; done).
    cbn [mbind result_bind]. change sizeof_ip6_hdr with 40.
    pose proof (headers_chain nxt exts (f_proto f) Hx fuel pk pre rest) as Hc. rewrite Lp in Hc. fold payload n in Hc.
    rewrite Hc by first [done|rewrite E', !length_app in Hfuel; lia]. cbn [mbind result_bind].
    rewrite (octets_app (first :: label ++ to_be 2 n ++ [nxt; hop]) (f_src f) (f_dst f ++ payload) pk 8 16)
      by first [rewrite E; app_eq|len_eq]. cbn [mbind result_bind].
    rewrite (octets_app (first :: label ++ to_be 2 n ++ nxt :: hop :: f_src f) (f_dst f) payload pk 24 16)
      by first [rewrite E; app_eq|len_eq]. cbn [mbind result_bind default].
    do 2 f_equal. apply u16_id. unfold inw. assert (Z.of_nat (length (pre ++ exts)) <= 40 + n) as Hle.
    { unfold n, payload. rewrite !length_app. lia. } lia.
  - constructor; try done. cbn [ip_hlen]. apply (transport_ports f (pre ++ exts) rest); try done. rewrite E'. app_eq.
Qed.

(** ** Filters *)

#[export] Instance in_network_dec b net a : Decision (in_network b net a).
Proof. unfold in_network. apply _. Defined.
#[export] Instance in_range_dec low high x : Decision (in_range low high x).
Proof. unfold in_range. apply _. Defined.
#[export] Instance covers_dec n r lb rb f : Decision (covers n r lb rb f).
Proof. unfold covers. apply _. Defined.

Lemma port_out_eq pk i low high x : ntohs_at pk i = Returns x -> inw 16 x ->
  port_out pk i low high = Returns (negb (bool_decide (in_range low high x))) \/ low < 0.
Proof.
  intros E Hx. destruct (decide (low < 0)) as [|Hl]; [by right|left]. unfold port_out, in_range, inw in *. rewrite E.
  assert (forall b : bool, (low <= x <-> b = false) -> (if b then Returns true else
      if decide (high = 0) then Returns false else Returns (bool_decide (high < x))) =
    Returns (negb (bool_decide (low <= x /\ (high = 0 \/ x <= high))))) as H.
  { intros b Hb. destruct b.
    - f_equal. symmetry. apply negb_true_iff, bool_decide_eq_false. intros [H _]. by apply Hb in H.
    - assert (low <= x) as Hlx by (by apply Hb). case_decide as D; f_equal; symmetry.
      + apply negb_false_iff, bool_decide_eq_true. auto.
      + rewrite <- bool_decide_not. apply bool_decide_ext. lia. }
  destruct (decide (low = 0)) as [D|D]; cbn [mbind result_bind].
  - apply (H false). split; [done|lia].
  - apply (H (bool_decide (x < low))). rewrite bool_decide_eq_false. lia.
Qed.

(** The ports of a rule are not negative. *)
Definition ports_ok (r : GtpTypes.pgw_rule_t) : Prop := 0 <= GtpTypes.local_low r /\ 0 <= GtpTypes.remote_low r.

Lemma ports_match_eq pk i r s d : ntohs_at pk i = Returns s -> ntohs_at pk (i + 2) = Returns d -> inw 16 s -> inw 16 d ->
  ports_ok r ->
  ports_match pk i r = Returns (bool_decide (in_range (GtpTypes.local_low r) (GtpTypes.local_high r) s /\
                                             in_range (GtpTypes.remote_low r) (GtpTypes.remote_high r) d)).
Proof.
  intros Es Ed Hs Hd [Hl Hr]. unfold ports_match.
  destruct (port_out_eq pk i (GtpTypes.local_low r) (GtpTypes.local_high r) s Es Hs) as [-> | ?]; [|lia].
  destruct (port_out_eq pk (i + 2) (GtpTypes.remote_low r) (GtpTypes.remote_high r) d Ed Hd) as [-> | ?]; [|lia].
  cbn [mbind result_bind]. rewrite bool_decide_and, negb_involutive.
  by destruct (bool_decide (in_range _ _ s)).
Qed.

Lemma pf_matches_eq n pk h f x lb rb : carries n pk h f -> flow_ok n f ->
  prefixes n (GtpTypes.rule x) lb rb -> ports_ok (GtpTypes.rule x) ->
  pf_matches pk h x = Returns (bool_decide (GtpTypes.direction x = 1 /\ covers n (GtpTypes.rule x) lb rb f)).
Proof.
  intros [Ea En Ep Hp] [[Bs Ls] [Bd Ld] [Ps Pd]] [[M1 L1] [M2 L2] (B1 & N1 & Z1) (B2 & N2 & Z2)] Hk.
  unfold pf_matches. set (r := GtpTypes.rule x) in *. rewrite bool_decide_and.
  destruct (decide (GtpTypes.direction x = 1)) as [D|D].
  2:{ rewrite decide_True by done. by rewrite (bool_decide_eq_false_2 (GtpTypes.direction x = 1)). }
  rewrite decide_False by tauto. rewrite (bool_decide_eq_true_2 (GtpTypes.direction x = 1)) by done.
  cbn [andb]. rewrite Ea, En, Ep. cbn [read mbind result_bind]. rewrite M1, M2.
  pose proof (masked_network n lb _ _ B1 N1 Z1 Bs Ls L1) as I1. pose proof (masked_network n rb _ _ B2 N2 Z2 Bd Ld L2) as I2.
  unfold covers. set (in1 := in_network lb _ _) in *. set (in2 := in_network rb _ _) in *.
  case_decide as D1.
  2:{ symmetry. f_equal. apply bool_decide_eq_false. tauto. }
  assert (in1 /\ in2) as [H1 H2] by tauto.
  case_decide as D2; [symmetry; f_equal; apply bool_decide_eq_true; auto|].
  case_decide as D3.
  2:{ symmetry. f_equal. apply bool_decide_eq_false. tauto. }
  case_decide as D4.
  - rewrite D3 in D4. change (with_ports (f_proto f)) in D4. destruct (Hp D4) as [E1 E2].
    rewrite (ports_match_eq pk _ r _ _ E1 E2 Ps Pd Hk). f_equal. apply bool_decide_ext. tauto.
  - rewrite D3 in D4. symmetry. f_equal. apply bool_decide_eq_true. split_and!; [done..|]. right. split; [done|].
    intros H. by destruct D4.
Qed.

(** ** Bearers *)

Lemma find_first_spec {X} (f : X -> result bool) (p : X -> Prop) l :
  (forall x, x ∈ l -> exists b, f x = Returns b /\ (b = true <-> p x)) ->
  exists r, find_first f l = Returns r /\
    match r with Some x => x ∈ l /\ p x | None => forall x, x ∈ l -> ~ p x end.
Proof.
  induction l as [|x l IH]; intros H; [exists None; split; [done|]; by intros x ?%elem_of_nil|].
  destruct (H x) as (b & E & Hb); [by left|]. cbn [find_first]. rewrite E. cbn [mbind result_bind]. destruct b.
  - exists (Some x). split; [done|]. split; [by left|]. by apply Hb.
  - destruct IH as (r & -> & Hr); [intros y Hy; apply H; by right|]. exists r. split; [done|]. destruct r as [y|].
    + destruct Hr as [Hy Hp]. split; [by right|done].
    + intros y [-> |Hy]%elem_of_cons; [|by apply Hr]. intros Hp. by apply Hb in Hp.
Qed.

Section bearers.
Context {P : Type} {A : Allocator P nat}.
Implicit Types c : ctx P.

(** A filter that is well formed, when it is for downlink. *)
Definition filter_ok (n : nat) (x : GtpTypes.packet_filter) : Prop :=
  GtpTypes.direction x = 1 -> ports_ok (GtpTypes.rule x) /\ exists lb rb, prefixes n (GtpTypes.rule x) lb rb.

(** A downlink filter of the bearer covers the flow, and the bearer has an EBI. *)
Definition serves (c : ctx P) (n : nat) (f : flow) (b : nat) : Prop :=
  ebi (bearer c b) <> 0 /\ exists x lb rb, x ∈ pf_list (bearer c b) /\
    GtpTypes.direction (filter (pf c x)) = 1 /\ prefixes n (GtpTypes.rule (filter (pf c x))) lb rb /\
    covers n (GtpTypes.rule (filter (pf c x))) lb rb f.

(** The first of the bearers [l] that serves the flow, or [d]. *)
Definition classified (c : ctx P) (n : nat) (f : flow) (d : nat) (l : list nat) (b : nat) : Prop :=
  (exists before after, l = before ++ b :: after /\ serves c n f b /\ forall b', b' ∈ before -> ~ serves c n f b') \/
  (b = d /\ forall b', b' ∈ l -> ~ serves c n f b').

Lemma pf_matches_iff n pk h f c x : carries n pk h f -> flow_ok n f -> filter_ok n (filter (pf c x)) ->
  exists b, pf_matches pk h (filter (pf c x)) = Returns b /\
    (b = true <-> GtpTypes.direction (filter (pf c x)) = 1 /\ exists lb rb, prefixes n (GtpTypes.rule (filter (pf c x))) lb rb /\
       covers n (GtpTypes.rule (filter (pf c x))) lb rb f).
Proof.
  intros Hc Hf Hx. set (y := filter (pf c x)) in *. destruct (decide (GtpTypes.direction y = 1)) as [D|D].
  - destruct (Hx D) as [Hk (lb & rb & Hr)]. rewrite (pf_matches_eq n pk h f y lb rb Hc Hf Hr Hk).
    eexists. split; [done|]. rewrite bool_decide_eq_true. split; [intros [_ H]; eauto|].
    intros [_ (lb' & rb' & Hr' & H)]. split; [done|].
    pose proof (pf_matches_eq n pk h f y lb rb Hc Hf Hr Hk) as E1.
    pose proof (pf_matches_eq n pk h f y lb' rb' Hc Hf Hr' Hk) as E2.
    rewrite E1 in E2. injection E2 as E2.
    rewrite (bool_decide_eq_true_2 (_ /\ covers n _ lb' rb' f)) in E2 by done. by apply bool_decide_eq_true in E2 as [_ ?].
  - exists false. split; [unfold pf_matches; by rewrite decide_True|]. split; [done|]. by intros [? _].
Qed.

Lemma find_bearer_spec n pk h f c l d : carries n pk h f -> flow_ok n f ->
  (forall b x, b ∈ l -> x ∈ pf_list (bearer c b) -> filter_ok n (filter (pf c x)) /\ pf_bearer (pf c x) = b) ->
  exists r, find_bearer c pk h l = Returns r /\ classified c n f d l (default d r).
Proof.
  intros Hc Hf. unfold classified. induction l as [|b l IH]; intros H.
  { exists None. split; [done|]. right. split; [done|]. by intros b ?%elem_of_nil. }
  assert (~ serves c n f b -> (exists r, find_bearer c pk h l = Returns r /\
      ((exists before after, l = before ++ default d r :: after /\ serves c n f (default d r) /\
          forall b', b' ∈ before -> ~ serves c n f b') \/ (default d r = d /\ forall b', b' ∈ l -> ~ serves c n f b'))) ->
    exists r, find_bearer c pk h l = Returns r /\
      ((exists before after, b :: l = before ++ default d r :: after /\ serves c n f (default d r) /\
          forall b', b' ∈ before -> ~ serves c n f b') \/ (default d r = d /\ forall b', b' ∈ b :: l -> ~ serves c n f b'))) as Hskip.
  { intros Hb (r & E & [(bf & af & -> & Hs & Hn)|[Ed Hn]]); exists r; (split; [exact E|]).
    - left. exists (b :: bf), af. split_and!; [done..|]. by intros b' [-> | ?%Hn]%elem_of_cons.
    - right. split; [done|]. by intros b' [-> | ?%Hn]%elem_of_cons. }
  assert (forall b' x, b' ∈ l -> x ∈ pf_list (bearer c b') -> filter_ok n (filter (pf c x)) /\ pf_bearer (pf c x) = b') as Hl
    by (intros b' x Hb'; apply H; by right).
  specialize (IH Hl). cbn [find_bearer].
  case_decide as D; [apply Hskip; [by intros [? _]|exact IH]|]. unfold find_pf.
  destruct (find_first_spec (fun x => pf_matches pk h (filter (pf c x)))
    (fun x => GtpTypes.direction (filter (pf c x)) = 1 /\ exists lb rb, prefixes n (GtpTypes.rule (filter (pf c x))) lb rb /\
       covers n (GtpTypes.rule (filter (pf c x))) lb rb f) (pf_list (bearer c b))) as (r & -> & Hr).
  { intros x Hx. apply pf_matches_iff; [done..|]. by apply (H b); [left|]. }
  cbn [mbind result_bind]. destruct r as [x|].
  - destruct Hr as (Hx & Dx & lb & rb & Hr & Hv). exists (Some (pf_bearer (pf c x))). split; [done|]. cbn [default].
    destruct (H b x) as [_ ->]; [by left|done|]. left. exists [], l. split; [done|]. split; [|by intros b' ?%elem_of_nil].
    split; [done|]. by exists x, lb, rb.
  - apply Hskip; [|exact IH]. intros (_ & x & lb & rb & Hx & Dx & Hv & Hw). apply (Hr x Hx). split; [done|]. by exists lb, rb.
Qed.

(** The address of the session, of either family, begins with [a]. *)
Definition addressed_to c (n s : nat) (a : list Z) : Prop :=
  exists x, (ipv4 (sess c s) = Some x \/ ipv6 (sess c s) = Some x) /\ take n (ip_octets c x) = a.

Lemma has_address_iff n pk h f c s : carries n pk h f ->
  has_address c h (ipv4 (sess c s)) \/ has_address c h (ipv6 (sess c s)) <-> addressed_to c n s (f_dst f).
Proof.
  intros [Ea En _ _]. unfold has_address, addressed_to. rewrite Ea, En. cbn [fmap option_fmap option_map snd default].
  split.
  - intros [H|H]; case_match; try done; eauto.
  - intros (x & [E|E] & H); [left|right]; by rewrite E.
Qed.

Lemma find_session_eq n pk h f c ss s : carries n pk h f -> s ∈ ss ->
  (forall s', s' ∈ ss -> addressed_to c n s' (f_dst f) <-> s' = s) ->
  find_session c pk h ss = bearer_in_session c pk h s.
Proof.
  intros Hc Hs Hu. induction ss as [|s' ss IH]; [by apply elem_of_nil in Hs|]. cbn [find_session].
  pose proof (has_address_iff n pk h f c s' Hc) as Hi. specialize (Hu s' ltac:(by left)) as Hu'. case_decide as D.
  - apply Hi, Hu' in D. by subst.
  - apply elem_of_cons in Hs as [<-|Hs]; [destruct D; by apply Hi, Hu'|].
    apply IH; [done|]. intros s2 H2. apply Hu. by right.
Qed.

(** C22: downlink classification.  In every state that the gateway reaches, for an IPv4 or
    IPv6 packet (with any options, and any extension headers that end with its protocol)
    whose destination is the address of one session of the hash,
    [pgw_bearer_find_by_packet] gives the first of the dedicated bearers of that session
    that has an EBI and a downlink filter for the flow of the packet, and the default
    bearer when there is none; a filter is for the flow when the addresses are in the
    networks of its prefixes, the protocol is that of the filter or the filter has none,
    and the ports of TCP and UDP are in its ranges, where 0 is no bound. *)
Theorem downlink_bearer fuel c ss pk f n s d bs :
  reachable c -> (forall s', s' ∈ ss <-> exists k, sess_hash c !! k = Some s') ->
  (n = 4%nat /\ ipv4_packet f pk) \/ (n = 16%nat /\ ipv6_packet f pk) -> flow_ok n f -> (length pk <= fuel)%nat ->
  s ∈ ss -> (forall s', s' ∈ ss -> addressed_to c n s' (f_dst f) <-> s' = s) ->
  bearer_list (sess c s) = d :: bs ->
  (forall b x, b ∈ bs -> x ∈ pf_list (bearer c b) -> filter_ok n (filter (pf c x))) ->
  exists b, pgw_bearer_find_by_packet fuel c ss pk = Returns (Some b) /\ classified c n f d bs b.
Proof.
  intros R Hss Hpk Hf Hfuel Hs Hu Hb Hx. apply sessions_reachable in R. pose proof (ss_tree _ R) as T.
  assert (exists h, parse_packet fuel pk = Returns h /\ carries n pk h f) as (h & Ep & Hc).
  { destruct Hpk as [[-> H]|[-> H]]; [by apply parse_ipv4|by apply parse_ipv6]. }
  apply Hss in Hs as Hk. destruct Hk as [k Hk]. destruct (ss_hash _ R _ _ Hk) as [Us _].
  destruct (tr_bearer_list _ T s Us) as [_ C]. change (node (sesss c) s) with (sess c s) in C. rewrite Hb in C.
  destruct (find_bearer_spec n pk h f c bs d Hc Hf) as (r & Er & Hr).
  { intros b x Hb' Hx'. split; [by apply (Hx b)|]. destruct (C b) as [Ub _]; [by right|].
    destruct (tr_pf_list _ T b Ub) as [_ C']. by destruct (C' x Hx') as [_ ?]. }
  exists (default d r). split; [|exact Hr]. unfold pgw_bearer_find_by_packet. rewrite Ep. cbn [mbind result_bind].
  rewrite (find_session_eq n pk h f c ss s Hc Hs Hu). unfold bearer_in_session. rewrite Hb, (ca_addrs _ _ _ _ Hc).
  case_decide; cbn [read mbind result_bind]; rewrite Er; done.
Qed.
End bearers.

(** ** The end of the loops *)

Lemma octet_byte pk i x : bytes pk -> octet pk i = Returns x -> inw 8 x.
Proof.
  unfold octet, octets. intros Hpk. case_decide; [|done]. cbn [mbind result_bind]. intros [= <-].
  set (l := take (Z.to_nat 1) (drop (Z.to_nat i) pk)).
  assert (bytes l) as Hl by (by apply Forall_take, Forall_drop).
  pose proof (be_bound l Hl) as Hb. assert (length l <= 1)%nat as Ll by (unfold l; rewrite length_take; lia).
  unfold inw. assert (2 ^ (8 * Z.of_nat (length l)) <= 2 ^ 8) by (apply Z.pow_le_mono_r; lia). lia.
Qed.

Lemma headers_end fuel pk k p endp : bytes pk -> endp - p <= 8 * Z.of_nat fuel -> headers fuel pk k p endp <> Unfinished.
Proof.
  intros Hpk. revert k p. induction fuel as [|fuel IH]; intros k p Hp; cbn [headers].
  - by rewrite decide_False by lia.
  - case_decide; [|done]. destruct (extension k 0) eqn:E; [|done].
    assert (forall len, 0 <= len -> (n ← octet pk p; headers fuel pk n (p + default 0 (extension k len)) endp) <> Unfinished) as H'.
    { intros len Hl. destruct (extension_some k len) as (w & -> & Hw); [by rewrite E|]. specialize (Hw Hl). cbn [default id].
      destruct (octet pk p) as [x| |] eqn:Ex; cbn [mbind result_bind]; [apply IH; lia|done|].
      unfold octet, octets in Ex. case_decide; done. }
    case_decide; cbn [mbind result_bind]; [by apply (H' 0)|].
    destruct (octet pk (p + 1)) as [len| |] eqn:El; cbn [mbind result_bind]; [|done|].
    + apply H'. by apply (octet_byte pk (p + 1) len Hpk) in El as [? _].
    + unfold octet, octets in El. case_decide; done.
Qed.

(** A hop-by-hop header with a jumbo payload of no octets. *)
Definition stuck_packet : list Z :=
  0x60 :: replicate 3 0 ++ [0; 0; 0; 64] ++ replicate 32 0 ++ [59; 0; IP6OPT_JUMBO; 4; 0; 0; 0; 0].

(** C25: termination of the headers.  For every packet whose payload length is not 0,
    [decode_ipv6_header] ends, after at most one turn for each eight octets of its length;
    but for a packet of 48 octets, with the length 0 of a jumbogram and a jumbo payload
    option that says 0, it never does. *)
Theorem decode_ipv6_header_ends :
  (forall fuel pk plen, bytes pk -> ntohs_at pk 4 = Returns plen -> plen <> 0 -> plen <= 8 * Z.of_nat fuel ->
     decode_ipv6_header fuel pk <> Unfinished) /\
  length stuck_packet = 48%nat /\ bytes stuck_packet /\ ntohs_at stuck_packet 4 = Returns 0 /\
  forall fuel, decode_ipv6_header fuel stuck_packet = Unfinished.
Proof.
  split.
  - intros fuel pk plen Hpk El Hp Hf. unfold decode_ipv6_header.
    destruct (octet pk 6) as [nxt| |] eqn:En; cbn [mbind result_bind]; [|done|unfold octet, octets in En; by case_decide].
    rewrite El. cbn [mbind result_bind].
    assert (jumbo fuel pk nxt sizeof_ip6_hdr (sizeof_ip6_hdr + plen) (sizeof_ip6_hdr + sizeof_ip6_hbh) =
      Returns (Some (sizeof_ip6_hdr + plen))) as -> by (destruct fuel; cbn [jumbo]; rewrite decide_False by lia; done).
    cbn [mbind result_bind]. pose proof (headers_end fuel pk nxt sizeof_ip6_hdr (sizeof_ip6_hdr + plen) Hpk ltac:(lia)) as H.
    by destruct (headers fuel pk nxt sizeof_ip6_hdr (sizeof_ip6_hdr + plen)) as [[]| |].
  - split; [done|]. split; [by_decide|]. split; [done|]. intros fuel. unfold decode_ipv6_header.
    change (octet stuck_packet 6) with (Returns 0). change (ntohs_at stuck_packet 4) with (Returns 0).
    cbn [mbind result_bind]. assert (jumbo fuel stuck_packet 0 sizeof_ip6_hdr (sizeof_ip6_hdr + 0)
      (sizeof_ip6_hdr + sizeof_ip6_hbh) = Unfinished) as ->; [|done].
    change (sizeof_ip6_hdr + 0) with 40. change sizeof_ip6_hdr with 40. change (40 + sizeof_ip6_hbh) with 42.
    induction fuel as [|fuel IH]; [done|]. cbn [jumbo]. rewrite !decide_True by done.
    change (ntohl_at stuck_packet (42 + 2)) with (Returns 0). change (octet stuck_packet 42) with (Returns IP6OPT_JUMBO).
    cbn [mbind result_bind]. by rewrite decide_True by done.
Qed.

Lemma decode_ipv6_header_ends_witness :
  decode_ipv6_header 2 (0x60 :: replicate 3 0 ++ [0; 16; 0; 64] ++ replicate 32 0 ++ [17; 0; 1; 4; 0; 0; 0; 0] ++ replicate 8 0)
    <> Unfinished.
Proof.
  destruct decode_ipv6_header_ends as (H & _). apply (H 2%nat _ 16); [by_decide|reflexivity|lia|lia].
Defined.

(** ** A dedicated bearer *)

Section sample.

(** UDP from 1.2.3.0/24, port 53. *)
Definition sample_rule : GtpTypes.pgw_rule_t :=
  GtpTypes.mkRule IPPROTO_UDP true false false false ([1; 2; 3] ++ replicate 13 0) (pmask 16 24) (replicate 16 0) (replicate 16 0) 53 53 0 0.

Definition sample5 : ctx (Pool.pool nat) := snd (pgw_bearer_add sample3 1).
Definition sample6 : ctx (Pool.pool nat) := put_bearer sample5 2 (set_ebi (bearer sample5 2) 6).
Definition sample7 : ctx (Pool.pool nat) := snd (pgw_pf_add sample6 2 1 sample_rule).

Definition sample_flow : flow := mkFlow [1; 2; 3; 4] [10; 45; 0; 2] IPPROTO_UDP 53 1000.
Definition sample_packet : list Z :=
  0x45 :: replicate 8 0 ++ IPPROTO_UDP :: [0; 0] ++ [1; 2; 3; 4] ++ [10; 45; 0; 2] ++ to_be 2 53 ++ to_be 2 1000 ++ [0; 8; 0; 0].

Lemma sample_reachable7 : reachable sample7.
Proof.
  destruct sample_reachable2 as (c0 & H & R). exists c0. split; [exact H|].
  eapply rtc_r; [eapply rtc_r; [eapply rtc_r; [eapply rtc_r; [exact R|]|]|]|].
  - apply (step_created sample2 1 internet GTP_PDN_TYPE_IPV4 5). by_decide.
  - eapply (step_pgw_bearer sample3 1); [by_decide|apply surjective_pairing].
  - exact (step_ebi sample5 2 6).
  - eapply (step_pf sample6 2 1 sample_rule); [by_decide|apply surjective_pairing].
Qed.

Lemma sample_hash s : s ∈ [1%nat] <-> exists k, sess_hash sample7 !! k = Some s.
Proof.
  assert (sess_hash sample7 = {[ sess_hash_keygen imsi1 internet := 1%nat ]}) as -> by (vm_compute; reflexivity).
  rewrite list_elem_of_singleton. split; [intros ->; eexists; apply lookup_singleton_eq|].
  intros (k & E). by apply lookup_singleton_Some in E as [_ <-].
Qed.

Lemma sample_packet_ok : ipv4_packet sample_flow sample_packet.
Proof.
  exists 5, (replicate 8 0), [0; 0], [], (to_be 2 53 ++ to_be 2 1000 ++ [0; 8; 0; 0]).
  split_and!; [reflexivity|lia|lia|done|done|done|]. intros _. by exists [0; 8; 0; 0].
Qed.

Lemma sample_prefixes : prefixes 4 sample_rule 24 0.
Proof. constructor; [by_decide|by_decide|split; [by_decide|split; reflexivity]|split; [by_decide|split; reflexivity]]. Qed.

Lemma downlink_bearer_witness :
  exists b, pgw_bearer_find_by_packet 100 sample7 [1%nat] sample_packet = Returns (Some b) /\
    classified sample7 4 sample_flow 1 [2%nat] b.
Proof.
  apply (downlink_bearer 100 sample7 [1%nat] sample_packet sample_flow 4 1 1 [2%nat] sample_reachable7 sample_hash
    (or_introl (conj eq_refl sample_packet_ok))).
  - constructor; by_decide.
  - by_decide.
  - by_decide.
  - intros s' ->%list_elem_of_singleton. split; [done|]. intros _. exists (Dynamic (0%nat, 0%nat)).
    split; [left; vm_compute; reflexivity|vm_compute; reflexivity].
  - vm_compute. reflexivity.
  - intros b x ->%list_elem_of_singleton Hx. assert (pf_list (bearer sample7 2) = [1%nat]) as E by (vm_compute; reflexivity).
    rewrite E in Hx. apply list_elem_of_singleton in Hx as ->.
    assert (filter (pf sample7 1) = GtpTypes.mkPf 1 1 sample_rule) as -> by (vm_compute; reflexivity).
    intros _. split; [split; cbn; lia|]. exists 24%nat, 0%nat. exact sample_prefixes.
Defined.

(** The bearer is the dedicated one. *)
Example sample_classified : pgw_bearer_find_by_packet 100 sample7 [1%nat] sample_packet = Returns (Some 2%nat).
Proof. vm_compute. reflexivity. Qed.

End sample.

End SpgwIpfwSpec.
