(* ===== verification/SpgwGx.v ===== *)
(** [spgw/pgw_gx_handler.c], [bearer_binding]: what the PCC rules of the PCRF do to the
    bearers of a session; and [pgw_compile_packet_filter] of [spgw/spgw_ipfw.c]. *)

From stdpp Require Import gmap.
From S2P Require Import Prelude Alloc Misc GtpTypes UePool SpgwContext.

Module SpgwGx.
Import SpgwContext.

(** ** Flow descriptions *)

(** [strtok_r] with blanks, over and over. *)
Definition blank : Z := 32.
Fixpoint tokens_from (cur : list Z) (l : list Z) : list (list Z) :=
  let flush rest := match cur with [] => rest | _ => cur :: rest end in
  match l with
  | [] => flush []
  | x :: l => if decide (x = blank) then flush (tokens_from [] l) else tokens_from (cur ++ [x]) l
  end.
Definition tokens (l : list Z) : list (list Z) := tokens_from [] l.

Definition permit : list Z := [112; 101; 114; 109; 105; 116].
Definition out : list Z := [111; 117; 116].
Definition MAX_NUM_OF_TOKEN : nat := 32.

(** The instructions that are looked at; addresses and masks are octets. *)
Inductive ipfw_insn :=
| O_PROTO (arg1 : Z)
| O_IP_SRC (a : list Z) | O_IP_SRC_MASK (a m : list Z)
| O_IP_DST (a : list Z) | O_IP_DST_MASK (a m : list Z)
| O_IP6_SRC (a : list Z) | O_IP6_SRC_MASK (a m : list Z)
| O_IP6_DST (a : list Z) | O_IP6_DST_MASK (a m : list Z)
| O_IP_SRCPORT (low high : Z) | O_IP_DSTPORT (low high : Z)
| O_OTHER.

Definition zero_rule : GtpTypes.pgw_rule_t :=
  GtpTypes.mkRule 0 false false false false (replicate 16 0) (replicate 16 0) (replicate 16 0) (replicate 16 0) 0 0 0 0.
#[export] Instance rule_eq_dec : EqDecision GtpTypes.pgw_rule_t.
Proof. solve_decision. Defined.

(** The first octets of an array. *)
Definition set_first (l a : list Z) : list Z := a ++ drop (length a) l.

(** The switch on the opcode. *)
Definition with_insn (r : GtpTypes.pgw_rule_t) (i : ipfw_insn) : GtpTypes.pgw_rule_t :=
  let '(GtpTypes.mkRule p l4 r4 l6 r6 la lm ra rm ll lh rl rh) := r in
  let ones n := replicate n 0xff in
  match i with
  | O_PROTO x => GtpTypes.mkRule (u8 x) l4 r4 l6 r6 la lm ra rm ll lh rl rh
  | O_IP_SRC a => GtpTypes.mkRule p true r4 l6 r6 (set_first la a) (set_first lm (ones 4%nat)) ra rm ll lh rl rh
  | O_IP_SRC_MASK a m => GtpTypes.mkRule p true r4 l6 r6 (set_first la a) (set_first lm m) ra rm ll lh rl rh
  | O_IP_DST a => GtpTypes.mkRule p l4 true l6 r6 la lm (set_first ra a) (set_first rm (ones 4%nat)) ll lh rl rh
  | O_IP_DST_MASK a m => GtpTypes.mkRule p l4 true l6 r6 la lm (set_first ra a) (set_first rm m) ll lh rl rh
  | O_IP6_SRC a => GtpTypes.mkRule p l4 r4 true r6 (set_first la a) (ones 16%nat) ra rm ll lh rl rh
  | O_IP6_SRC_MASK a m => GtpTypes.mkRule p l4 r4 true r6 (set_first la a) (set_first lm m) ra rm ll lh rl rh
  | O_IP6_DST a => GtpTypes.mkRule p l4 r4 l6 true la lm (set_first ra a) (ones 16%nat) ll lh rl rh
  | O_IP6_DST_MASK a m => GtpTypes.mkRule p l4 r4 l6 true la lm (set_first ra a) (set_first rm m) ll lh rl rh
  | O_IP_SRCPORT lo hi => GtpTypes.mkRule p l4 r4 l6 r6 la lm ra rm lo hi rl rh
  | O_IP_DSTPORT lo hi => GtpTypes.mkRule p l4 r4 l6 r6 la lm ra rm ll lh lo hi
  | O_OTHER => r
  end.

Section compile.
(** The compiler of ipfw, a third-party library: the instructions before the action, for
    the arguments [av], where [None] is a null pointer. *)
Context (compile_rule : list (option (list Z)) -> list ipfw_insn).

(** [None]: a null token is compared, or the array of tokens is left; [Some None]: an
    error. *)
Definition pgw_compile_packet_filter (description : list Z) : option (option GtpTypes.pgw_rule_t) :=
  match tokens description with
  | [] => None
  | action :: rest =>
      if decide (action = permit) then
        match rest with
        | [] => None
        | dir :: addr =>
            if decide (dir = out) then
              if decide (length addr + 4 <= MAX_NUM_OF_TOKEN)%nat then
                let av := [None; Some action] ++ map Some addr ++ [Some dir; None] in
                let r := foldl with_insn zero_rule (compile_rule av) in
                Some (if decide (r = zero_rule) then None else Some r)
              else None
            else Some None
        end
      else Some None
  end.
End compile.

(** ** PCC rules *)

Record flow_t := mkFlowT { f_direction : Z; description : option (list Z) }.
Record pcc_rule_t := mkPcc {
  p_type : Z; p_name : option (list Z); flows : list flow_t; precedence : Z; p_qos : qos_t }.
Definition PCC_RULE_TYPE_INSTALL : Z := 1.
Definition PCC_RULE_TYPE_REMOVE : Z := 2.

(** The requests that are sent for a bearer. *)
Inductive request :=
| CreateBearer (b : nat)
| UpdateBearer (b : nat) (qos_presence tft_presence : bool)
| DeleteBearer (b : nat).

Section binding.
Context {P : Type} {A : Allocator P nat}.
(** The compiler of ipfw, and whether a request can be built and sent to a node. *)
Context (compile_rule : list (option (list Z)) -> list ipfw_insn).
Context (sent : request -> bool).

(** [None]: a crash; otherwise whether the loop reached its end.  The field [direction] of a
    filter has two bits. *)
Fixpoint add_flows (c : ctx P) (b : nat) (l : list flow_t) : option (bool * ctx P) :=
  match l with
  | [] => Some (true, c)
  | f :: l =>
      match description f with
      | None => Some (false, c)
      | Some d =>
          r ← pgw_compile_packet_filter compile_rule d;
          match r with
          | None => Some (false, c)
          | Some r =>
              match pgw_pf_add c b (f_direction f .& 3) r with
              | (None, c) => Some (false, c)
              | (Some _, c) => add_flows c b l
              end
          end
      end
  end.

(** How a rule ends: with the whole function, or on to the next one. *)
Inductive outcome := Ended (ok : bool) (c : ctx P) (q : list request) | Next (c : ctx P) (q : list request).

(** [gtp_xact_local_create] refuses a null node. *)
Definition send (c : ctx P) (q : list request) (s : nat) (r : request) : bool * list request :=
  match s_gnode (sess c s) with
  | Some _ => if sent r then (true, q ++ [r]) else (false, q)
  | None => (false, q)
  end.

(** The flows of a rule and the request for its bearer. *)
Definition finish_rule (c : ctx P) (q : list request) (s b : nat) (l : list flow_t) (r : request) : option outcome :=
  '(ok, c) ← add_flows c b l;
  if (ok : bool) then
    let '(ok, q) := send c q s r in Some (if (ok : bool) then Next c q else Ended false c q)
  else Some (Ended false c q).

(** [x && y != x]: a rate that is given and differs. *)
Definition rate_changed (old new : Z) : Prop := new <> 0 /\ old <> new.
Definition qos_changed (old new : qos_t) : Prop :=
  rate_changed (mbr_downlink old) (mbr_downlink new) \/ rate_changed (mbr_uplink old) (mbr_uplink new) \/
  rate_changed (gbr_downlink old) (gbr_downlink new) \/ rate_changed (gbr_uplink old) (gbr_uplink new).
#[global] Instance qos_changed_dec a b : Decision (qos_changed a b).
Proof. unfold qos_changed, rate_changed. apply _. Defined.

Definition install_new (c : ctx P) (q : list request) (s : nat) (n : list Z) (r : pcc_rule_t) : option outcome :=
  match pgw_bearer_add c s with
  | (None, c) => Some (Ended false c q)
  | (Some b, c) =>
      let c := put_bearer c b (set_rule (bearer c b) (Some n) (p_qos r)) in
      match flows r with
      | [] => Some (Ended false c q)
      | l => finish_rule c q s b l (CreateBearer b)
      end
  end.

Definition install_again (c : ctx P) (q : list request) (s b : nat) (n : list Z) (r : pcc_rule_t) : option outcome :=
  n' ← name (bearer c b);
  if decide (n' = n) then
    let tft := bool_decide (flows r <> []) in
    let c := if tft then pgw_pf_remove_all c b else c in
    let changed := bool_decide (qos_changed (b_qos (bearer c b)) (p_qos r)) in
    let c := if changed then put_bearer c b (set_rule (bearer c b) (name (bearer c b)) (p_qos r)) else c in
    if negb tft && negb changed then Some (Next c q)
    else finish_rule c q s b (flows r) (UpdateBearer b changed tft)
  else Some (Ended false c q).

Definition find_qos (c : ctx P) (s : nat) (x : qos_t) : option nat :=
  pgw_bearer_find_by_qci_arp c s (qci x) (arp_priority_level x) (arp_capability x) (arp_vulnerability x).

(** One turn of the loop. *)
Definition bind_rule (c : ctx P) (q : list request) (s : nat) (r : pcc_rule_t) : option outcome :=
  match p_name r with
  | None => Some (Next c q)
  | Some n =>
      if decide (p_type r = PCC_RULE_TYPE_INSTALL) then
        match find_qos c s (p_qos r) with
        | None => install_new c q s n r
        | Some b => install_again c q s b n r
        end
      else if decide (p_type r = PCC_RULE_TYPE_REMOVE) then
        match pgw_bearer_find_by_name c s n with
        | None => Some (Ended false c q)
        | Some b => let '(ok, q) := send c q s (DeleteBearer b) in Some (Ended ok c q)
        end
      else Some (Ended false c q)
  end.

Fixpoint bearer_binding (c : ctx P) (q : list request) (s : nat) (l : list pcc_rule_t)
  : option (bool * ctx P * list request) :=
  match l with
  | [] => Some (true, c, q)
  | r :: l =>
      o ← bind_rule c q s r;
      match o with
      | Ended ok c q => Some (ok, c, q)
      | Next c q => bearer_binding c q s l
      end
  end.

End binding.

End SpgwGx.
