(* ===== verification/SpgwGxSpec.v ===== *)
(** [SpgwGx]: PCC rules keep the invariant of the contexts; a rule that is new makes a
    bearer with its filters, and one with the quality of service of the default bearer
    crashes. *)

From stdpp Require Import gmap.
From S2P Require Import Prelude Alloc Pool Misc GtpTypes UePool SpgwContext SpgwInv SpgwSess SpgwSpec SpgwGx.

Module SpgwGxSpec.
Import Pool SpgwContext SpgwInv SpgwSess SpgwSpec SpgwGx.

Section binding.
Context {P : Type} {A : Allocator P nat}.
Context (compile_rule : list (option (list Z)) -> list ipfw_insn) (sent : request -> bool).
#[local] Abbreviation compile := (pgw_compile_packet_filter compile_rule).
Implicit Types c : ctx P.

(** ** Every rule is a sequence of steps *)

Lemma bearers_in_use c s b : sessions c -> in_use (sesss c) s -> b ∈ bearer_list (sess c s) -> in_use (bearers c) b.
Proof. intros S Hs Hb. destruct (tr_bearer_list _ (ss_tree _ S) s Hs) as [_ C]. by destruct (C b Hb) as [? _]. Qed.

Lemma find_qos_in c s x b : find_qos c s x = Some b -> b ∈ bearer_list (sess c s).
Proof.
  unfold find_qos, pgw_bearer_find_by_qci_arp. destruct (bearer_list (sess c s)) as [|d l]; [done|].
  case_decide; [intros [= ->]; by left|]. intros ([i y] & E & ->)%fmap_Some.
  apply list_find_Some in E as (Hy & _). right. by eapply list_elem_of_lookup_2.
Qed.

(** Steps that keep a bearer in use, if it was. *)
Definition goes (b s : nat) c c' : Prop :=
  rtc step c c' /\ (in_use (bearers c) b -> in_use (bearers c') b) /\ (in_use (sesss c) s -> in_use (sesss c') s).

#[local] Instance goes_preorder b s : PreOrder (goes b s).
Proof.
  split; [split; [apply rtc_refl|done]|]. intros c d e (R & H1 & H2) (R' & H1' & H2').
  split; [by etrans|]. auto.
Qed.

Lemma goes_step b s c c' : step c c' -> (in_use (bearers c) b -> in_use (bearers c') b) ->
  pool (sesss c') = pool (sesss c) -> goes b s c c'.
Proof. intros St Hb E. split; [by apply rtc_once|]. split; [done|]. unfold in_use. by rewrite E. Qed.

Lemma pf_add_goes c b s d r x c' : in_use (bearers c) b -> pgw_pf_add c b d r = (x, c') -> goes b s c c'.
Proof.
  intros Hb E. apply goes_step; [by apply (step_pf c b d r x)|..]; unfold pgw_pf_add in E; repeat case_match; by simplify_eq.
Qed.

Lemma add_flows_goes c b s l ok c' : in_use (bearers c) b -> add_flows compile_rule c b l = Some (ok, c') -> goes b s c c'.
Proof.
  revert c. induction l as [|f l IH]; intros c Hb; cbn [add_flows]; [by intros [= <- <-]|].
  destruct (description f) as [d|]; [|by intros [= <- <-]].
  destruct (compile d) as [[r|]|]; cbn [mbind option_bind]; [|by intros [= <- <-]|done].
  destruct (pgw_pf_add c b (f_direction f .& 3) r) as [[x|] c1] eqn:E; pose proof (pf_add_goes c b s _ _ _ _ Hb E) as G.
  - intros E'. transitivity c1; [exact G|]. apply IH; [by apply G|exact E'].
  - by intros [= <- <-].
Qed.

Definition reached (o : @outcome P) : ctx P := match o with Ended _ c _ => c | Next c _ => c end.

Lemma finish_rule_goes c q b s l r o : in_use (bearers c) b -> finish_rule compile_rule sent c q s b l r = Some o -> goes b s c (reached o).
Proof.
  intros Hb. unfold finish_rule. destruct (add_flows compile_rule c b l) as [[ok c1]|] eqn:E; [|done]. cbn [mbind option_bind].
  pose proof (add_flows_goes c b s l ok c1 Hb E) as G. destruct ok; [|by intros [= <-]].
  destruct (send _ _ _ _ _) as [[] q1]; by intros [= <-].
Qed.

Lemma set_rule_goes c b s n q : goes b s c (put_bearer c b (set_rule (bearer c b) n q)).
Proof. apply goes_step; [apply step_rule|done|done]. Qed.

Lemma pf_remove_all_goes c b s : tree c -> in_use (bearers c) b -> goes b s c (pgw_pf_remove_all c b).
Proof.
  intros T Hb. destruct (pf_remove_all_ok c b T Hb) as (_ & K & _).
  apply goes_step; [by apply step_pf_remove_all|by intros; apply (keeps_but_in_use b K)|apply K].
Qed.

Lemma bind_rule_goes c q s r o : sessions c -> in_use (sesss c) s -> bind_rule compile_rule sent c q s r = Some o ->
  rtc step c (reached o) /\ in_use (sesss (reached o)) s.
Proof.
  intros S Hs. unfold bind_rule. destruct (p_name r) as [n|]; [|intros [= <-]; split; [apply rtc_refl|done]].
  assert (forall b d, goes b s c d -> rtc step c d /\ in_use (sesss d) s) as Hg by (intros b d (R & _ & H); auto).
  case_decide.
  - destruct (find_qos c s (p_qos r)) as [b|] eqn:E.
    + unfold install_again. destruct (name (bearer c b)) as [n'|]; cbn [mbind option_bind]; [|done].
      assert (in_use (bearers c) b) as Hb by (apply (bearers_in_use c s); [done..|by apply (find_qos_in c s (p_qos r))]).
      case_decide; [|intros [= <-]; apply (Hg b); done].
      set (tft := bool_decide _). set (c1 := if tft then _ else _). assert (goes b s c c1) as G1.
      { unfold c1. destruct tft; [by apply pf_remove_all_goes; [apply S|]|done]. }
      set (changed := bool_decide (qos_changed _ _)). set (c2 := if changed then _ else _). assert (goes b s c c2) as G2.
      { transitivity c1; [done|]. unfold c2. destruct changed; [apply set_rule_goes|done]. }
      destruct (negb tft && negb changed); [by intros [= <-]; apply (Hg b)|].
      intros Ho. apply (Hg b). transitivity c2; [done|]. eapply finish_rule_goes; [by apply G2|exact Ho].
    + unfold install_new. destruct (pgw_bearer_add c s) as [[b|] c1] eqn:Ea; pose proof (step_pgw_bearer c s _ _ Hs Ea) as St;
        destruct (pgw_bearer_add_ok c s _ _ (ss_tree _ S) Hs Ea) as (T1 & K1 & _ & B1).
      2:{ intros [= <-]. split; [by apply rtc_once|]. unfold in_use. cbn. by rewrite (k_pool _ _ K1). }
      set (c2 := put_bearer c1 b _). assert (goes b s c1 c2) as G2 by apply set_rule_goes.
      assert (forall d, goes b s c2 d -> rtc step c d /\ in_use (sesss d) s) as Hd.
      { intros d G. pose proof (transitivity G2 G) as (R & _ & Hin). split; [eapply rtc_l; [exact St|exact R]|].
        apply Hin. unfold in_use. by rewrite (k_pool _ _ K1). }
      destruct (flows r) as [|f l]; [by intros [= <-]; apply Hd|]. intros Ho. apply Hd.
      eapply finish_rule_goes; [|exact Ho]. apply G2, (ba_in_use _ _ _ _ _ B1). by left.
  - assert (rtc step c c /\ in_use (sesss c) s) as Hc by (split; [apply rtc_refl|done]).
    repeat case_match; intros; simplify_eq; exact Hc.
Qed.

(** The whole function, whatever its end. *)
Lemma bearer_binding_steps c q s l ok c' q' : sessions c -> in_use (sesss c) s ->
  bearer_binding compile_rule sent c q s l = Some (ok, c', q') -> rtc step c c'.
Proof.
  revert c q. induction l as [|r l IH]; intros c q S Hs; cbn [bearer_binding]; [intros [= <- <- <-]; apply rtc_refl|].
  destruct (bind_rule compile_rule sent c q s r) as [o|] eqn:E; [|done]. cbn [mbind option_bind].
  destruct (bind_rule_goes c q s r o S Hs E) as [R Hs']. destruct o as [ok1 c1 q1|c1 q1]; [by intros [= <- <- <-]|].
  intros H. transitivity c1; [exact R|]. apply (IH c1 q1); [|exact Hs'|exact H].
  cbn [reached] in R. clear -S R. induction R as [|x y z St _ IHR]; [done|]. apply IHR. by apply (sessions_step x).
Qed.

(** ** Adding filters *)

Lemma new_avail {X} `{!Inhabited X} (s : store P X) x : ok s -> frees (pool s) <> [] ->
  exists i s', new s x = (Some i, s') /\ S (length (frees (pool s'))) = length (frees (pool s)).
Proof.
  intros Ho Hf. destruct (frees (pool s)) as [|y q] eqn:E; [done|].
  destruct (alloc_some (pool s) y q Ho E) as (p & Ea & _ & Eq & _). unfold new. rewrite Ea.
  eexists _, _. split; [done|]. cbn. by rewrite Eq.
Qed.

Definition filters c (b : nat) : list GtpTypes.packet_filter := map (fun x => filter (pf c x)) (pf_list (bearer c b)).
(** The [i]-th flow of a rule, from the identifier [k + 1] on. *)
Definition made (k : nat) (i : nat) (x : flow_t * GtpTypes.pgw_rule_t) : GtpTypes.packet_filter :=
  GtpTypes.mkPf (f_direction x.1 .& 3) (Z.of_nat (k + i) + 1) x.2.

(** The bearer [b] gets filters; nothing else of it, and of the rest, changes. *)
Record filtered c c' (b : nat) : Prop := {
  fl_tree : tree c'; fl_keeps : keeps c c'; fl_sesss : sesss c' = sesss c; fl_pool : pool (bearers c') = pool (bearers c);
  fl_name : name (bearer c' b) = name (bearer c b); fl_qos : b_qos (bearer c' b) = b_qos (bearer c b);
  fl_other : forall b', b' <> b -> bearer c' b' = bearer c b' }.

Lemma filtered_trans c d e b : filtered c d b -> filtered d e b -> filtered c e b.
Proof.
  intros [] []. constructor; [done|by transitivity d|congruence..|]. intros b' Hb. rewrite fl_other1 by done. by apply fl_other0.
Qed.

Lemma pf_add_filtered c b d r k : tree c -> in_use (bearers c) b -> pf_identifier (bearer c b) = Z.of_nat k -> (k < 15)%nat ->
  frees (pool (pfs c)) <> [] ->
  exists i c', pgw_pf_add c b d r = (Some i, c') /\ filtered c c' b /\ pf_identifier (bearer c' b) = Z.of_nat (S k) /\
    S (length (frees (pool (pfs c')))) = length (frees (pool (pfs c))) /\
    filters c' b = filters c b ++ [GtpTypes.mkPf d (Z.of_nat k + 1) r].
Proof.
  intros T Hb Ek Hk Hf. set (x := mkPfNode (GtpTypes.mkPf d (Z.of_nat k + 1) r) b).
  destruct (new_avail (pfs c) x (tr_pfs _ T) Hf) as (i & s & E & El).
  destruct (new_some _ _ _ _ (tr_pfs _ T) E) as (_ & Hi & _ & Hc).
  assert (exists c', pgw_pf_add c b d r = (Some i, c') /\
    c' = put_bearer (set_pfs c s) b (set_pf_list (bearer c b) (Z.of_nat k + 1) (pf_list (bearer c b) ++ [i]))) as (c' & Ea & Ec).
  { unfold pgw_pf_add, NEXT_ID. rewrite Ek, decide_False by lia. fold x. rewrite E. eauto. }
  destruct (pgw_pf_add_ok c b d r _ _ T Hb Ea) as [T' K'].
  assert (bearer c' b = set_pf_list (bearer c b) (Z.of_nat k + 1) (pf_list (bearer c b) ++ [i])) as Eb.
  { rewrite Ec. unfold bearer. cbn. apply node_put_eq. }
  exists i, c'. split; [exact Ea|]. split_and!.
  - constructor; [done..|by rewrite Ec|by rewrite Ec|by rewrite Eb|by rewrite Eb|].
    intros b' Hb'. rewrite Ec. unfold bearer. cbn. by apply node_put_ne.
  - rewrite Eb. cbn. lia.
  - by rewrite Ec.
  - unfold filters. rewrite Eb. cbn [pf_list set_pf_list]. rewrite map_app. cbn [map].
    assert (forall y, pf c' y = if decide (y = i) then x else pf c y) as Ep by (intros y; rewrite Ec; apply Hc).
    rewrite Ep, decide_True by done. f_equal. apply map_ext_in. intros y Hy. rewrite Ep, decide_False; [done|].
    intros ->. destruct (tr_pf_list _ T b Hb) as [_ C]. apply list_elem_of_In in Hy. by destruct (C i Hy) as [? _].
Qed.

(** The description of the flow compiles to the rule. *)
Definition compiles (f : flow_t) (r : GtpTypes.pgw_rule_t) : Prop :=
  exists d, description f = Some d /\ compile d = Some (Some r).

Lemma add_flows_ok c b l rs k : tree c -> in_use (bearers c) b -> pf_identifier (bearer c b) = Z.of_nat k ->
  (k + length l <= 15)%nat -> (length l <= length (frees (pool (pfs c))))%nat -> Forall2 compiles l rs ->
  exists c', add_flows compile_rule c b l = Some (true, c') /\ filtered c c' b /\
    filters c' b = filters c b ++ imap (made k) (zip l rs).
Proof.
  intros T Hb Ek Hk Hl Hr. revert c k T Hb Ek Hk Hl. induction Hr as [|f r l rs (d & Ed & Er) _ IH]; intros c k T Hb Ek Hk Hl.
  - exists c. split; [done|]. split; [by constructor|]. cbn. by rewrite app_nil_r.
  - cbn [length] in *. destruct (pf_add_filtered c b (f_direction f .& 3) r k T Hb Ek) as (i & c1 & Ea & F1 & E1 & L1 & S1);
      [lia|intros En; rewrite En in Hl; cbn in Hl; lia|].
    destruct (IH c1 (S k)) as (c' & E' & F' & S'); [apply F1| |done|lia|lia|].
    { unfold in_use. by rewrite (fl_pool _ _ _ F1). }
    exists c'. split; [cbn [add_flows]; rewrite Ed, Er; cbn [mbind option_bind]; by rewrite Ea|].
    split; [by eapply filtered_trans|]. rewrite S', S1, <- app_assoc. f_equal. cbn [zip zip_with app]. rewrite imap_cons.
    cbn [app]. unfold made at 2. cbn [fst snd]. rewrite Nat.add_0_r. f_equal. apply imap_ext. intros j y _.
    unfold made, compose. by rewrite Nat.add_succ_r.
Qed.

(** ** A new rule *)

Lemma pgw_bearer_add_some c s : tree c -> frees (pool (bearers c)) <> [] ->
  exists b c', pgw_bearer_add c s = (Some b, c') /\ bearer c' b = mkBearer 0 (Z.of_nat b) None zero_qos 0 [] [] s /\
    (forall b', b' <> b -> bearer c' b' = bearer c b').
Proof.
  intros T Hf. destruct (new_avail (bearers c) (fresh_bearer s) (tr_bearers _ T) Hf) as (b & x & E & _).
  destruct (new_some _ _ _ _ (tr_bearers _ T) E) as (_ & _ & _ & Hc).
  unfold pgw_bearer_add. rewrite E. eexists b, _. split; [done|].
  assert (bearer (set_bearers c x) b = fresh_bearer s) as Eb by (unfold bearer; cbn; by rewrite Hc, decide_True).
  split.
  - unfold set_s5u_teid. rewrite Eb. unfold bearer. cbn. by rewrite node_put_eq.
  - intros b' Hb. unfold bearer. cbn. rewrite node_put_ne by done. rewrite Hc, decide_False by done. done.
Qed.

Lemma list_find_last {X} (p : X -> Prop) `{forall x, Decision (p x)} l x : (forall y, y ∈ l -> ~ p y) -> p x ->
  snd <$> list_find p (l ++ [x]) = Some x.
Proof.
  intros Hn Hx. assert (list_find p (l ++ [x]) = Some (length l, x)) as ->; [|done]. apply list_find_Some. split_and!.
  - rewrite lookup_app_r by done. by rewrite Nat.sub_diag.
  - done.
  - intros j y Hy Hj. rewrite lookup_app_l in Hy by done. apply Hn. by eapply list_elem_of_lookup_2.
Qed.

Lemma find_qos_none c s x d l : bearer_list (sess c s) = d :: l -> find_qos c s x = None ->
  ~ same_arp (s_qos (sess c s)) (qci x) (arp_priority_level x) (arp_capability x) (arp_vulnerability x) /\
  forall b, b ∈ l -> ~ same_arp (b_qos (bearer c b)) (qci x) (arp_priority_level x) (arp_capability x) (arp_vulnerability x).
Proof.
  intros E. unfold find_qos, pgw_bearer_find_by_qci_arp. rewrite E. case_decide; [done|]. intros Hn. split; [done|].
  apply fmap_None, list_find_None in Hn. by rewrite Forall_forall in Hn.
Qed.

(** C23: a new PCC rule.  In every state that the gateway reaches, when a rule is installed
    whose class and priority no bearer of the session has, whose flows compile, and for
    which the pools have room, [bearer_binding] makes one bearer, last in the list of the
    session, with the name and the quality of service of the rule and with one packet
    filter for each flow, in order, numbered from 1; all the other bearers are as before,
    and the rule is found by its class and priority from then on.  But no function gives a
    session the node that requests are sent to: no request is sent for the bearer, the
    function ends with an error, and the rules that follow are not looked at. *)
Theorem rule_installed c s q n r rs d l more :
  reachable c -> in_use (sesss c) s -> bearer_list (sess c s) = d :: l ->
  p_name r = Some n -> p_type r = PCC_RULE_TYPE_INSTALL -> find_qos c s (p_qos r) = None ->
  flows r <> [] -> (length (flows r) <= 15)%nat -> Forall2 compiles (flows r) rs ->
  frees (pool (bearers c)) <> [] -> (length (flows r) <= length (frees (pool (pfs c))))%nat ->
  exists b c', bearer_binding compile_rule sent c q s (r :: more) = Some (false, c', q) /\ reachable c' /\
    ~ in_use (bearers c) b /\ in_use (bearers c') b /\
    bearer_list (sess c' s) = (d :: l) ++ [b] /\ name (bearer c' b) = Some n /\ b_qos (bearer c' b) = p_qos r /\
    filters c' b = imap (made 0) (zip (flows r) rs) /\
    (forall b', b' <> b -> bearer c' b' = bearer c b') /\ find_qos c' s (p_qos r) = Some b.
Proof.
  intros R Hs El En Et Ef Hfl Hlen Hrs Hfb Hfp. apply sessions_reachable in R as S. pose proof (ss_tree _ S) as T.
  destruct (pgw_bearer_add_some c s T Hfb) as (b & c1 & Ea & Eb & Eo).
  destruct (pgw_bearer_add_ok c s _ _ T Hs Ea) as (T1 & K1 & P1 & B1).
  destruct (set_rule_ok c1 b (Some n) (p_qos r) T1) as [T2 K2].
  set (c2 := put_bearer c1 b (set_rule (bearer c1 b) (Some n) (p_qos r))) in *.
  assert (bearer c2 b = mkBearer 0 (Z.of_nat b) (Some n) (p_qos r) 0 [] [] s) as Eb2.
  { unfold c2, bearer at 1. cbn. rewrite node_put_eq, Eb. done. }
  assert (forall b', b' <> b -> bearer c2 b' = bearer c b') as Eo2.
  { intros b' Hb'. rewrite <- Eo by done. unfold c2, bearer. cbn. by apply node_put_ne. }
  destruct (add_flows_ok c2 b (flows r) rs 0 T2) as (c' & E' & F' & S'); [|by rewrite Eb2|done|cbn; by rewrite P1|done|].
  { apply (ba_in_use _ _ _ _ _ B1). by left. }
  assert (sess c' s = sess c1 s) as Es by (unfold sess; by rewrite (fl_sesss _ _ _ F')).
  assert (s_gnode (sess c' s) = None) as Eg.
  { rewrite Es, <- (ss_gnode _ S s Hs). exact (f_equal s_gnode (k_sess _ _ K1 s)). }
  exists b, c'. assert (bearer_binding compile_rule sent c q s (r :: more) = Some (false, c', q)) as Eb'.
  { cbn [bearer_binding]. unfold bind_rule. rewrite En, Et, decide_True by done. rewrite Ef. unfold install_new. rewrite Ea.
    fold c2. destruct (flows r) as [|f fs] eqn:Efl; [done|]. unfold finish_rule. rewrite E'. cbn [mbind option_bind].
    unfold send. by rewrite Eg. }
  pose proof (ba_list _ _ _ _ _ B1) as Lb. rewrite <- Es, El in Lb.
  split; [exact Eb'|]. split.
  { destruct R as (c0 & H0 & R). exists c0. split; [done|]. etrans; [exact R|]. by eapply bearer_binding_steps. }
  split; [apply (ba_new _ _ _ _ _ B1)|]. split.
  { unfold in_use. rewrite (fl_pool _ _ _ F'). apply (ba_in_use _ _ _ _ _ B1). by left. }
  split; [exact Lb|]. rewrite (fl_name _ _ _ F'), (fl_qos _ _ _ F'), Eb2, S'. unfold filters. rewrite Eb2.
  split_and!; [done..| |].
  - intros b' Hb'. rewrite (fl_other _ _ _ F') by done. by apply Eo2.
  - destruct (find_qos_none c s _ d l El Ef) as [Hd Hl]. unfold find_qos, pgw_bearer_find_by_qci_arp. rewrite Lb.
    cbn [app]. rewrite decide_False.
    + apply list_find_last; [|by rewrite (fl_qos _ _ _ F'), Eb2].
      intros b' Hb'. assert (b' <> b) as Hne.
      { intros ->. apply (ba_new _ _ _ _ _ B1). apply (bearers_in_use c s); [done..|]. rewrite El. by right. }
      rewrite (fl_other _ _ _ F'), Eo2 by done. by apply Hl.
    + rewrite Es. assert (s_qos (sess c1 s) = s_qos (sess c s)) as ->; [|done].
      exact (f_equal s_qos (k_sess _ _ K1 s)).
Qed.

(** A rule for the default bearer.  In every state that the gateway reaches, after a
    session has been created and has got its quality of service, a rule that is installed
    with that class and priority crashes the gateway, whatever its name, its rates and its
    flows are: the name of the default bearer, which has none, is compared through a null
    pointer. *)
Theorem default_rule_crashes c u apn t e s c' q n r l a v :
  reachable c -> in_use (ues c) u -> spgw_sess_add c u apn t e = (Some s, c') ->
  let x := p_qos r in
  l = arp_priority_level x -> a = arp_capability x -> v = arp_vulnerability x ->
  p_name r = Some n -> p_type r = PCC_RULE_TYPE_INSTALL ->
  bearer_binding compile_rule sent (set_default_qos c' s (qci x) l a v) q s [r] = None.
Proof.
  intros R Hu E x -> -> -> En Et. apply sessions_reachable in R as S.
  destruct (spgw_sess_add_bearer c u apn t e s c' S E) as (_ & c1 & b & i & j & B & _ & _ & E3).
  pose proof (ba_list _ _ _ _ _ B) as Eb. rewrite E3 in Eb. cbn [app] in Eb.
  set (d := set_default_qos c' s _ _ _ _).
  assert (sess d s = set_s_qos (sess c' s) (s_qos (sess d s))) as Es.
  { unfold d, set_default_qos, sess. cbn. by rewrite !node_put_eq. }
  assert (find_qos d s x = Some b) as Ef.
  { unfold find_qos, pgw_bearer_find_by_qci_arp. rewrite Es. cbn [bearer_list set_s_qos s_qos]. rewrite Eb.
    rewrite decide_True; [done|]. unfold d, set_default_qos, sess. cbn. by rewrite node_put_eq. }
  cbn [bearer_binding]. unfold bind_rule. rewrite En, Et, decide_True by done. fold x. rewrite Ef.
  unfold install_again. change (bearer d b) with (bearer c' b). by rewrite (ba_name _ _ _ _ _ B).
Qed.

End binding.

(** ** A rule with one flow *)

Section sample.

(** "permit out 17 from 1.2.3.0/24 53 to any", as ipfw compiles it. *)
Definition sample_description : list Z :=
  permit ++ [blank] ++ out ++ [blank; 49; 55; blank; 102; 114; 111; 109; blank; 49; 46; 50; 46; 51; 46; 48; 47; 50; 52; blank;
    53; 51; blank; 116; 111; blank; 97; 110; 121].
Definition sample_compile (av : list (option (list Z))) : list ipfw_insn :=
  [O_PROTO 17; O_IP_SRC_MASK [1; 2; 3; 0] [255; 255; 255; 0]; O_IP_SRCPORT 53 53].
Definition sample_filter : GtpTypes.pgw_rule_t :=
  foldl with_insn zero_rule (sample_compile []).
Definition sample_pcc : pcc_rule_t :=
  mkPcc PCC_RULE_TYPE_INSTALL (Some [118]) [mkFlowT 1 (Some sample_description)] 10 (mkQosArp 1 2 0 0 0 0 0 0).

Example sample_tokens : length (tokens sample_description) = 8%nat.
Proof. reflexivity. Qed.

Lemma sample_reachable3 : reachable sample3.
Proof.
  destruct sample_reachable2 as (c0 & H & R). exists c0. split; [exact H|]. eapply rtc_r; [exact R|].
  apply (step_created sample2 1 internet GTP_PDN_TYPE_IPV4 5). by_decide.
Qed.

Lemma rule_installed_witness :
  exists b c', bearer_binding sample_compile (fun _ => true) sample3 [] 1 [sample_pcc] = Some (false, c', []) /\
    bearer_list (sess c' 1) = [1%nat; b] /\ filters c' b = [GtpTypes.mkPf 1 1 sample_filter].
Proof.
  destruct (rule_installed sample_compile (fun _ => true) sample3 1 [] [118] sample_pcc [sample_filter] 1 [] [] sample_reachable3)
    as (b & c' & E & _ & _ & _ & L & _ & _ & F & _); [by_decide|by_decide|reflexivity|reflexivity|by_decide|done|cbn; lia| |by_decide| |].
  - constructor; [|constructor]. exists sample_description. split; [reflexivity|]. vm_compute. reflexivity.
  - vm_compute. lia.
  - exists b, c'. split; [exact E|]. split; [exact L|]. exact F.
Defined.

Lemma default_rule_crashes_witness :
  bearer_binding sample_compile (fun _ => true) (set_default_qos sample3 1 1 2 0 0) [] 1 [sample_pcc] = None.
Proof.
  apply (default_rule_crashes sample_compile (fun _ => true) sample2 1 internet GTP_PDN_TYPE_IPV4 5 1 sample3 [] [118]
    sample_pcc 2 0 0 sample_reachable2); [by_decide|exact sample3_eq|reflexivity..].
Defined.

End sample.

End SpgwGxSpec.
